(* ===== verification/_CoqProject ===== *)
-Q . S2P
Prelude.v
PyText.v
Registry.v
Registrations.v
TuningCache.v
Indexing.v
OperatorIR.v
Contracts.v
Capture.v
CaptureUpdates.v
CaptureDense.v
CaptureAttention.v
CaptureRecurrent.v
Legality.v
TaskIR.v
SchedulePhase.v
Kahn.v
ScheduleStatic.v
TileDependencies.v
TaskQueue.v
Runtime.v
Memory.v
Execution.v
Arrays.v
Effects.v
Equivalence.v
LoweringsCommon.v
Operands.v
LoweringsDense.v
LoweringsAttention.v
LoweringsRecurrent.v
Lowerings.v
ReferenceTypes.v
ReferenceDense.v
ReferenceMoe.v
ReferenceAttention.v
ReferenceRecurrent.v
ReferenceBodies.v
Cells.v
Vectors.v
ReferenceSpec.v
Declared.v
DeclaredState.v
Captured.v
Frontend.v
ModelGpt2.v
ModelQwen3.v
ModelQwen35.v
ModelDeepseek.v
ModelGlm53.v
ModelGlm53Spine.v
Storages.v
Compile.v
ExecutorState.v
CompiledRun.v
Footprint.v
FootprintState.v
Pipeline.v
Ownership.v
BodyLocality.v
ReferenceRun.v
CacheTail.v
RingAllReduce.v
HostStream.v
Overlap.v
PeerCopy.v
KvLayer.v
MoeRouting.v
FlatArrays.v
HostNumerics.v
KdaDelta.v
DistMoe.v
DistMoeLoops.v
DistMoeStages.v
DistMoeSpec.v
DistMoeParallel.v
FusedMoe.v
FusedMoeSpec.v
