(* ===== verification/Prelude.v ===== *)
(** * The vkernels megakernel compiler: a verification library

    [src/src/python/vkernels] has three parts.  [compiler/] compiles a model,
    written as a Python function over symbolic tensors, into one persistent
    kernel.  [registry.py], [signature.py], [tuning/] and [torch_ops/] choose
    and tune hand-written kernels.  [core.py], [comm.py], [dist.py] and
    [_fallback.py] are the host runtime: streams, communication and reference
    implementations.  Paths below are relative to [vkernels/].

    ** The program

    - [compiler/model_*.py], [*_arch.py]: a frontend per model family registers
      the weights and state of a model and runs the body of a decode step.
    - [compiler/capture*.py]: the body runs once against a recording backend,
      which allocates storages and views and appends operators with the memory
      regions they read and write to an [OperatorGraph] ([operator_ir.py]).
    - [compiler/legality.py]: the graph is checked again as a whole.
    - [compiler/contracts.py], [compiler/lowerings/]: each operator becomes a
      [TaskFamily] ([task_ir.py]): a grid of tiles, and callbacks that give
      the regions a tile reads and writes.
    - [compiler/schedule_phase.py]: one phase per operator, tasks dealt to
      workers by stride, a grid barrier after each phase.
      [compiler/schedule_static.py]: the finer schedule, in which hazards of
      whole operators become dependencies between tiles and every worker gets
      a fixed sequence of tasks.  [compiler/runtime/task_queue.py]: the dynamic
      alternative, a ready queue.
    - [compiler/memory.py]: lifetimes of fresh buffers, and their packing in a
      workspace.
    - [compiler/compile.py], [model_adapters.py]: the driver that runs all of
      this, and the executable it returns.
    - [compiler/runtime/]: how many workers may run, the grid barrier.
    - [compiler/reference_*.py]: executes a phase schedule on the CPU with a
      numpy body per operator kind.
    - [registry.py], [signature.py], [torch_ops/*_registry.py]: selection of a
      kernel for a request.  [tuning/cache.py]: tuned launch configurations.

    ** The files

    - Generic: [Prelude] (Python exceptions, the result monad and the
      state-and-exception monad, dictionaries in insertion order, integer
      ranges, topological orders, tactics and hints), [PyText] (strings),
      [Indexing] (row-major index arithmetic), [Kahn], [Effects] (what a
      computation on memory touches), [Operands], [Vectors], [Cells], [FlatArrays].
    - Recording: [OperatorIR], [Contracts], [Capture], [CaptureUpdates],
      [CaptureDense], [CaptureAttention], [CaptureRecurrent], [Legality].  A
      method of the recorder is a computation of the monad [M Recorder]: it
      returns or raises, and in both cases leaves a recorder, since what ran
      before an exception is not undone.
    - Lowering: [TaskIR], [LoweringsCommon], [LoweringsDense],
      [LoweringsAttention], [LoweringsRecurrent], [Lowerings] (one file per
      module; a region callback is a function from tile coordinates to a
      result).
    - Scheduling and memory: [SchedulePhase], [ScheduleStatic],
      [TileDependencies], [TaskQueue], [Memory], [Runtime] (runtime/launch.py,
      residency.py, synchronization.py).
    - Execution: [Execution] (the workers, the barrier, the canary),
      [ExecutorState] (the same loops on a store that keeps what was written
      before an exception), [Arrays]
      (numpy views of flat storage), [ReferenceTypes], [ReferenceDense],
      [ReferenceMoe], [ReferenceAttention], [ReferenceRecurrent] (the 30 task
      bodies), [ReferenceBodies] (the dispatch table and a body as the effect
      of a task).
    - Frontends and driver: [Frontend], [ModelGpt2], [ModelQwen3],
      [ModelQwen35], [ModelDeepseek], [ModelGlm53], [ModelGlm53Spine],
      [Compile], [CompiledRun].
    - Selection and tuning: [Registry], [Registrations], [TuningCache].
    - The host runtime ([_fallback.py], used when the compiled backend is
      missing, with the argument checks of [comm.py]): [RingAllReduce] (queues,
      channels, the ring all-reduce), [HostStream] and [Overlap] (streams with a
      worker thread, the executor that overlaps two), [PeerCopy] (copies of run
      lists on a byte memory), [KvLayer] (gather and scatter of cache slots),
      [MoeRouting] (block alignment of expert routings, and [dist.py]'s expert
      parallelism), [HostNumerics] (number formats, launch shapes), [KdaDelta]
      (delta attention, chunked and per token), [DistMoe] (the stages and the
      tensor- and expert-parallel passes of [dist.py], with their loops and sums
      in [DistMoeLoops], the stages' results in [DistMoeStages], the mixture in
      [DistMoeSpec], both passes in [DistMoeParallel]), [FusedMoe] and
      [FusedMoeSpec] (the single-rank operator).
    - Connections, which model no further code: [Declared], [DeclaredState],
      [Captured], [Storages], [Footprint], [FootprintState], [Pipeline],
      [Ownership], [BodyLocality], [Equivalence], [ReferenceSpec],
      [ReferenceRun], [CacheTail].

    A record of the model has the fields of the Python class, with a prefix;
    definitions keep the Python names.  A dictionary whose order is observable
    is an association list in insertion order, any other a [gmap].  Python
    integers are unbounded, so they are [Z]; [//] and [%] are [Z.div] and
    [Z.modulo], which round towards minus infinity as Python does.

    ** What the theorems show

    - From program to schedule.  [Captured.captured_program_wf]: whatever
      capture calls a model body makes, the program recorded is well formed and
      each operator declares what its lowering touches.
      [Pipeline.pipeline_race_free]: once such a program is lowered and
      scheduled by phases, and its region callbacks do not raise, the other
      passes return, and conflicting tasks of different operators run in
      program order.
      [Ownership]: tasks of one operator do not write the same address.
    - From program to result.  [Compile.compile_model_program] and its
      siblings: what [compile_model] returns is such a program, with its
      schedule, storages and workspace plan; [CompiledRun.run_outcome]: what a
      run of it may change, in arrays it shares with the caller and writes in
      place, also when it raises.
    - The numerical bodies.  [BodyLocality]: the bodies of dense decoding load
      and store inside the regions their lowerings declare.  With the race
      freedom above this gives [ReferenceRun.reference_barriers_unobservable]:
      executing the tasks in any order that respects the tile dependencies
      gives the memory of the execution with barriers.
      [CacheTail.attention_ignores_tail]: rows of the cache past the position
      of the step do not matter.  [ReferenceSpec]: rotations, the selection of
      the indexer, and rounding to bf16 against their specifications.
    - Regions and hazards.  [OperatorIR.overlaps_sound] and
      [compute_hazards_spec]: no conflict of declared regions is missed;
      [view_layout_exact]: a reshape keeps every address.
    - Tiles.  [TaskIR]: task ids decode to tiles that partition the domain.
    - Schedules.  The phase schedule runs each task once; the tile dependency
      graph has exactly the conflicting pairs and is acyclic; the static
      schedule is a topological order, and its workers never deadlock; the
      ready queue never blocks and never hands out a task early, under every
      interleaving.  [TileDependencies.TilesCovered] is the interface between
      lowering and scheduling: the scheduler's theorems assume it, [Pipeline]
      provides its instance.
    - Memory.  Buffers needed at the same time never share elements.
    - Execution.  [Execution.run_refines_reference]: for independent tasks the
      strided distribution over workers cannot be observed.
    - Selection.  [Registry.select_spec]: the kernel selected is the best
      eligible one; [Registrations]: which one that is for the kernels
      registered.  [TuningCache]: a configuration is resolved once, never
      while a graph is captured, and survives the process.
    - Threads of the host runtime, under every interleaving of their steps.
      [RingAllReduce.ring_allreduce_correct]: no deadlock, and every rank ends
      with the same sums; the proof compares each state with a lockstep run.
      [HostStream.stream_in_order]: order, completion and the delivery of
      failures; [Overlap.overlap_run]: two streams and their caller together.
    - Memory of the host runtime.  [PeerCopy]: what an accepted list of copies
      does to every byte, on addresses that ctypes reduces to 64 bits;
      [KvLayer.kv_restore_roundtrip]: scatter, then gather.
    - Routing.  [MoeRouting.moe_align_spec]: the block layout holds every
      selection once; [ep_dispatch_partition]: the layouts of all ranks together
      are the routing.  [HostNumerics]: rounding to 4 bits is to the nearest,
      the Hadamard matrix is its own inverse.
    - [KdaDelta.kda_chunked_is_delta_rule]: in exact arithmetic the chunked pass of
      delta attention is the recurrence it parallelises.
    - [DistMoeParallel.dist_moe_refines_mixture] and
      [FusedMoeSpec.fused_moe_is_mixture]: one mixture of experts, however it is
      split over ranks or tiled, in exact arithmetic.  The hypotheses on numpy are
      [exact_sums] and [exact_floats]; the loops run over ranges, so there is no fuel.
    - Errors.  Which exception each component raises, and exactly when.
    - Some theorems pin down surprising behaviour: tiles of an elementwise
      operator that overlap, storage ids that are reused, a model family that
      compiles and cannot be run, NaNs that a rounding loses.

    ** Fuel

    Every loop over data is structural or a fold.  The others carry fuel, with
    a theorem that it suffices (running out gives [OutOfFuel], which no Python
    code raises): Kahn's loop visits each node at most once, so one unit per
    node is enough; the dispatch loop of the ready queue retires a task in every
    round in which it does not raise; first fit moves to the end of a colliding
    buffer, of which fewer remain ahead; [gdn_tile] halves 1024 at most ten
    times.

    ** Parameters

    The iteration order of a Python set is the class [SetIter], of which only
    the elements are known.  The scalar arithmetic of numpy is the class
    [Arrays.Numpy]: the bodies are modelled down to its operations, and
    theorems that need a law of arithmetic name it.  The arrays a run of an
    executable shares with its caller are references into a store, with the
    operations of [CompiledRun.ArrayOps] and the documented facts on views,
    copies and allocation of [CompiledRun.ArrayLaws].  Device memory and its NaN
    canary are arguments of the executor; the answers of the CUDA and HIP
    drivers are arguments of the launch checks; clocks and files are arguments
    of the tuning cache.

    ** Not modelled

    The free-text [numerical_contract] of an operator, printing and summary
    methods and exception messages (abbreviated to a tag), which no code reads.
    The text of the device code generators and the Triton, CuTe and HIP
    kernels, whose meaning is that of the device languages; the torch operators
    that launch them, and native bindings, to which [core.py], [comm.py] and
    [kernels.py] turn when the compiled backend is present.  The other float32
    kernels of [_fallback.py], which are sums and products of numpy, and the
    two calls of a queue at a pipeline boundary in [dist.py].  Float rounding: the
    theorems on sums assume exact arithmetic.
    [verify_milestone0], which runs a kernel on a GPU.  The host mirrors of the
    GLM-5.3 arrays.

    The locality theorem covers the operators of dense decoding; the bodies of
    grouped-head projections, paged attention, mixtures of experts and the
    recurrent operators are modelled without it. *)

From Stdlib Require Export ZArith Lia.
From stdpp Require Export base tactics strings gmap fin_maps sets fin_sets relations pretty sorting numbers list.

#[global] Set Default Proof Using "Type".
#[export] Set Warnings "-notation-overridden,-clear-no-such-hyp,-register-all".

(** ** Python exceptions

    One constructor per exception class the modelled code raises or lets
    escape.  The formatted message is abbreviated to a tag. *)
Inductive exn : Type :=
  | ValueError (tag : string)
  | KeyError (tag : string)
  | IndexError (tag : string)
  | TypeError (tag : string)
  | AssertionError (tag : string)
  | ZeroDivisionError (tag : string)
  | AttributeError (tag : string)
  | OverflowError (tag : string)
  | KernelSelectionError (tag : string)
  | CaptureError (tag : string)
  | UnsupportedOperator (tag : string)
  | LegalityError (tags : list string)
  | ScheduleInvariantError (tag : string)
  | CyclicScheduleError (tag : string)
  | ProgressError (tag : string)
  | BarrierError (tag : string)
  | ExecutorError (tag : string)
  | CapabilityError (tag : string)
  | DeviceUnavailable (tag : string)
  | StopIteration (tag : string)
  | OutOfFuel.  (* not a Python exception: a bounded loop of the model stopped early *)

#[export] Instance exn_eq_dec : EqDecision exn.
Proof. solve_decision. Defined.

(** ** The result monad: a Python call that returns or raises *)
Inductive result (A : Type) : Type :=
  | Ok (x : A)
  | Err (e : exn).
Arguments Ok {A} x.
Arguments Err {A} e.

#[export] Instance result_ret : MRet result := λ A x, Ok x.
#[export] Instance result_bind : MBind result := λ A B f m,
  match m with Ok x => f x | Err e => Err e end.
#[export] Instance result_fmap : FMap result := λ A B f m,
  match m with Ok x => Ok (f x) | Err e => Err e end.
#[export] Instance result_eq_dec {A} `{EqDecision A} : EqDecision (result A).
Proof. solve_decision. Defined.

Definition is_ok {A} (r : result A) : bool :=
  match r with Ok _ => true | Err _ => false end.

(** [if not cond: raise e] *)
Definition require (b : bool) (e : exn) : result unit :=
  if b then Ok tt else Err e.

(** A total value read back from a call that must have succeeded. *)
Definition ok_default {A} (d : A) (r : result A) : A :=
  match r with Ok x => x | Err _ => d end.

Definition of_option {A} (e : exn) (o : option A) : result A :=
  match o with Some x => Ok x | None => Err e end.

(** Run a fallible call on each element, left to right, stopping at the
    first exception (a Python comprehension over a raising body). *)
Fixpoint map_result {A B} (f : A → result B) (l : list A) : result (list B) :=
  match l with
  | [] => Ok []
  | x :: l => y ← f x; ys ← map_result f l; Ok (y :: ys)
  end.

(** A Python [for] loop that threads a state and may raise. *)
Fixpoint fold_result {A S} (f : S → A → result S) (s : S) (l : list A) : result S :=
  match l with
  | [] => Ok s
  | x :: l => s' ← f s x; fold_result f s' l
  end.

(** ** The state-and-exception monad

    A method call on a mutable object: the state survives an exception, as
    the Python object does. *)
Definition M (S A : Type) : Type := S → result A * S.

#[export] Instance M_ret {S} : MRet (M S) := λ A x s, (Ok x, s).
#[export] Instance M_bind {S} : MBind (M S) := λ A B f m s,
  match m s with
  | (Ok x, s') => f x s'
  | (Err e, s') => (Err e, s')
  end.

Definition lift {S A} (r : result A) : M S A := λ s, (r, s).
Definition raise {S A} (e : exn) : M S A := λ s, (Err e, s).
Definition get_state {S} : M S S := λ s, (Ok s, s).
Definition modify {S} (f : S → S) : M S unit := λ s, (Ok tt, f s).
Definition guard_m {S} (b : bool) (e : exn) : M S unit := lift (require b e).

(** A loop over a list that carries a value. *)
Fixpoint for_m {St A B} (f : B → A → M St B) (x : B) (l : list A) : M St B :=
  match l with
  | [] => mret x
  | a :: l => y ← f x a; for_m f y l
  end.

Fixpoint map_m {St A B} (f : A → M St B) (l : list A) : M St (list B) :=
  match l with
  | [] => mret []
  | a :: l => y ← f a; ys ← map_m f l; mret (y :: ys)
  end.

(** ** Python integers, ranges and sequences *)

(** [a // b] and [a % b]: floor division, raising on zero. *)
Definition py_floordiv (a b : Z) : result Z :=
  if decide (b = 0%Z) then Err (ZeroDivisionError "//") else Ok (a / b)%Z.
Definition py_mod (a b : Z) : result Z :=
  if decide (b = 0%Z) then Err (ZeroDivisionError "%") else Ok (a `mod` b)%Z.

(** [range(n)] *)
Definition zrange (n : Z) : list Z := Z.of_nat <$> seq 0 (Z.to_nat n).

(** [list(range(start, stop, step))]: the number of elements is the rounded
    up quotient; a zero step raises. *)
Definition py_range (start stop step : Z) : result (list Z) :=
  if decide (step = 0%Z) then Err (ValueError "range() arg 3 must not be zero")
  else
    let n := if decide (0 < step)%Z then ((stop - start + step - 1) / step)%Z
             else ((start - stop - step - 1) / (- step))%Z in
    Ok ((λ i, start + i * step)%Z <$> zrange n).

(** [xs[i]] for a literal non-negative index. *)
Definition py_index {A} (xs : list A) (i : nat) : result A :=
  of_option (IndexError "index out of range") (xs !! i).

(** [xs[-1]] *)
Definition py_last {A} (xs : list A) : result A :=
  of_option (IndexError "index out of range") (last xs).

Definition zprod (l : list Z) : Z := foldr Z.mul 1%Z l.
Definition zsum (l : list Z) : Z := foldr Z.add 0%Z l.

(** [a] rounded up to a multiple count of [b]: Python's [-(-a // b)]. *)
Definition ceil_div (a b : Z) : Z := ((a + b - 1) / b)%Z.

(** [f"{n}"] and [f"{n:02d}"] *)
Definition fmt (n : Z) : string := pretty n.
Definition fmt02 (n : Z) : string :=
  if decide (0 ≤ n < 10)%Z then "0" +:+ pretty n else pretty n.

(** ** Insertion-ordered dictionaries *)
Abbreviation dict K V := (list (K * V)).

Section dict.
Context {K V : Type} `{EqDecision K}.

Fixpoint dict_get (d : dict K V) (k : K) : option V :=
  match d with
  | [] => None
  | (k', v) :: d => if decide (k = k') then Some v else dict_get d k
  end.

(** [d[k] = v]: overwrite in place, or append at the end. *)
Fixpoint dict_set (d : dict K V) (k : K) (v : V) : dict K V :=
  match d with
  | [] => [(k, v)]
  | (k', v') :: d => if decide (k = k') then (k, v) :: d else (k', v') :: dict_set d k v
  end.

(** [d.setdefault(k, v)] *)
Definition dict_setdefault (d : dict K V) (k : K) (v : V) : dict K V :=
  match dict_get d k with Some _ => d | None => d ++ [(k, v)] end.

Definition dict_mem (d : dict K V) (k : K) : bool := bool_decide (is_Some (dict_get d k)).
End dict.

(** ** Automation *)

(** Split a hypothesis [m = Ok x] on a monadic computation into its steps. *)
Ltac res_step :=
  match goal with
  | H : mbind _ ?m = Ok _ |- _ =>
      let E := fresh "E" in destruct m eqn:E; [ simpl in H | discriminate H ]
  | H : result_bind _ _ _ ?m = Ok _ |- _ =>
      let E := fresh "E" in destruct m eqn:E; [ simpl in H | discriminate H ]
  | H : require ?b _ = Ok _ |- _ =>
      let E := fresh "E" in destruct b eqn:E; [ clear H | discriminate H ]
  | H : of_option _ ?o = Ok _ |- _ =>
      let E := fresh "E" in destruct o eqn:E; [ simpl in H | discriminate H ]
  | H : Ok _ = Ok _ |- _ => injection H as H; subst
  | H : Err _ = Ok _ |- _ => discriminate H
  | H : Ok _ = Err _ |- _ => discriminate H
  | H : mret _ = Ok _ |- _ => injection H as H; subst
  | H : context [let '(_, _) := ?p in _] |- _ => is_var p; destruct p
  end.
Ltac res_inv := repeat res_step.

(** Boolean comparisons of integers to propositions. *)
Ltac zbool :=
  repeat match goal with
  | H : context [Z.ltb _ _] |- _ => first [rewrite Z.ltb_lt in H | rewrite Z.ltb_ge in H]
  | H : context [Z.leb _ _] |- _ => first [rewrite Z.leb_le in H | rewrite Z.leb_gt in H]
  | H : context [Z.eqb _ _] |- _ => first [rewrite Z.eqb_eq in H | rewrite Z.eqb_neq in H]
  | H : (_ && _)%bool = true |- _ => apply andb_true_iff in H as [? ?]
  | H : (_ || _)%bool = false |- _ => apply orb_false_iff in H as [? ?]
  | H : negb _ = true |- _ => apply negb_true_iff in H
  | H : negb _ = false |- _ => apply negb_false_iff in H
  end.

Create HintDb py.
Create Rewrite HintDb py.

(** ** Lemmas on integer division and ranges *)
Lemma py_floordiv_nz (a b : Z) : b ≠ 0%Z → py_floordiv a b = Ok (a / b)%Z.
Proof. intros. unfold py_floordiv. by rewrite decide_False. Qed.

Lemma py_mod_nz (a b : Z) : b ≠ 0%Z → py_mod a b = Ok (a `mod` b)%Z.
Proof. intros. unfold py_mod. by rewrite decide_False. Qed.

Lemma elem_of_zrange (n x : Z) : x ∈ zrange n ↔ (0 ≤ x < n)%Z.
Proof.
  unfold zrange. rewrite list_elem_of_fmap. split.
  - intros (i & -> & Hi). apply elem_of_seq in Hi. lia.
  - intros Hx. exists (Z.to_nat x). rewrite elem_of_seq. lia.
Qed.

Lemma NoDup_zrange (n : Z) : NoDup (zrange n).
Proof. unfold zrange. apply NoDup_fmap_2; [apply _ | apply NoDup_seq]. Qed.

Lemma length_zrange (n : Z) : length (zrange n) = Z.to_nat n.
Proof. unfold zrange. by rewrite length_fmap, length_seq. Qed.

Lemma zrange_nonpos (n : Z) : (n ≤ 0)%Z → zrange n = [].
Proof. intros. unfold zrange. by replace (Z.to_nat n) with 0 by lia. Qed.

Lemma zrange_S (n : Z) : (0 ≤ n)%Z → zrange (n + 1) = zrange n ++ [n].
Proof.
  intros. unfold zrange. replace (Z.to_nat (n + 1)) with (S (Z.to_nat n)) by lia.
  rewrite seq_S, fmap_app. simpl. do 2 f_equal. lia.
Qed.

Lemma zrange_lookup (n i : Z) : (0 ≤ i < n)%Z → zrange n !! Z.to_nat i = Some i.
Proof. intros Hi. unfold zrange. rewrite list_lookup_fmap, lookup_seq_lt by lia. simpl. f_equal. lia. Qed.

Lemma zrange_lookup_Some (n : Z) (j : nat) (i : Z) : zrange n !! j = Some i → i = Z.of_nat j ∧ (0 ≤ i < n)%Z.
Proof. unfold zrange. rewrite list_lookup_fmap. intros (k & [-> Hk]%lookup_seq & ->)%fmap_Some. simpl. lia. Qed.

#[export] Hint Rewrite elem_of_zrange length_zrange : py.
#[export] Hint Resolve NoDup_zrange : py.

(** With a positive step the range never raises, and it is the arithmetic
    progression below [stop]. *)
Lemma py_range_pos (start stop step : Z) :
  (0 < step)%Z →
  py_range start stop step =
    Ok ((λ i, start + i * step)%Z <$> zrange (ceil_div (stop - start) step)).
Proof. intros. unfold py_range. rewrite decide_False, decide_True by lia. done. Qed.

Lemma ceil_div_bounds (a b i : Z) :
  (0 < b)%Z → (i < ceil_div a b ↔ i * b < a)%Z.
Proof.
  intros Hb. unfold ceil_div.
  pose proof (Z.div_mod (a + b - 1) b ltac:(lia)).
  pose proof (Z.mod_pos_bound (a + b - 1) b Hb). nia.
Qed.

Lemma ceil_div_nonneg (a b : Z) : (0 < b)%Z → (0 ≤ a)%Z → (0 ≤ ceil_div a b)%Z.
Proof. intros. apply Z.div_pos; lia. Qed.

Lemma ceil_div_pos (a b : Z) : (0 < b)%Z → (0 < a)%Z → (0 < ceil_div a b)%Z.
Proof. intros. apply ceil_div_bounds; lia. Qed.

Lemma ceil_div_1 (a : Z) : ceil_div a 1 = a.
Proof. unfold ceil_div. rewrite Z.div_1_r. lia. Qed.

(** ** Lists *)
Lemma bind_concat {A B} (f : A → list B) (l : list A) : (x ← l; f x) = concat (f <$> l).
Proof. induction l as [|x l IH]; [done|]. rewrite fmap_cons. simpl. by f_equal. Qed.

Lemma map_result_ok {A B} (f : A → result B) (g : A → B) (l : list A) :
  (∀ x, x ∈ l → f x = Ok (g x)) → map_result f l = Ok (g <$> l).
Proof.
  induction l as [|x l IH]; intros H; simpl; [done|].
  rewrite H by set_solver. simpl. rewrite IH by set_solver. done.
Qed.

Lemma map_result_Forall2 {A B} (f : A → result B) (l : list A) (k : list B) :
  map_result f l = Ok k ↔ Forall2 (λ x y, f x = Ok y) l k.
Proof.
  revert k. induction l as [|x l IH]; intros k; simpl.
  - split; [by intros [= <-]|]. by inversion 1.
  - split.
    + intros H. res_inv. constructor; [done|]. by apply IH.
    + inversion 1 as [|? ? ? ? E H']; subst. rewrite E. simpl. by rewrite (proj2 (IH _) H').
Qed.

Lemma Ok_inj {A} (x y : A) : Ok x = Ok y → x = y.
Proof. by intros [= ->]. Qed.

Lemma require_ok (b : bool) (e : exn) : require b e = Ok tt ↔ b = true.
Proof. by destruct b. Qed.

Lemma require_bind {A} (b : bool) (e : exn) (k : result A) (x : A) :
  (_ ← require b e; k) = Ok x ↔ b = true ∧ k = Ok x.
Proof. destruct b; simpl; naive_solver. Qed.

Lemma map_result_error {A B} (f : A → result B) (l : list A) (e : exn) :
  map_result f l = Err e → ∃ x, x ∈ l ∧ f x = Err e.
Proof.
  induction l as [|x l IH]; simpl; [done|]. destruct (f x) as [y|e'] eqn:E; simpl.
  - destruct (map_result f l) as [ys|e']; simpl; [done|]. intros [= ->].
    destruct (IH eq_refl) as (z & Hz & Hf). exists z. split; [by right|done].
  - intros [= ->]. exists x. split; [left|done].
Qed.

Lemma filter_none {A} (P : A → Prop) `{∀ x, Decision (P x)} (l : list A) :
  (∀ x, x ∈ l → ¬ P x) → filter P l = [].
Proof.
  induction l as [|x l IH]; intros Hn; [done|].
  rewrite filter_cons_False by (apply Hn; left). apply IH. intros y Hy. apply Hn. by right.
Qed.

Lemma filter_all {A} (P : A → Prop) `{∀ x, Decision (P x)} (l : list A) :
  (∀ x, x ∈ l → P x) → filter P l = l.
Proof.
  induction l as [|x l IH]; intros Ha; [done|].
  rewrite filter_cons_True by (apply Ha; left). f_equal. apply IH. intros y Hy. apply Ha. by right.
Qed.

(** Splitting a list by the value of a key, for a list of all the keys. *)
Lemma concat_filter_key {A K} `{EqDecision K} (key : A → K) (l : list A) (ks : list K) :
  NoDup ks → (∀ x, x ∈ l → key x ∈ ks) →
  concat ((λ k, filter (λ x, key x = k) l) <$> ks) ≡ₚ l.
Proof.
  intros Hnd. revert l. induction Hnd as [|k ks Hk Hnd IH]; intros l Hin.
  - destruct l as [|x l]; [done|]. specialize (Hin x ltac:(left)). by apply not_elem_of_nil in Hin.
  - rewrite fmap_cons. simpl.
    transitivity (filter (λ x, key x = k) l ++ filter (λ x, ¬ key x = k) l);
      [|apply filter_app_complement].
    apply Permutation_app_head. rewrite <- (IH (filter (λ x, ¬ key x = k) l)).
    + replace ((λ k0, filter (λ x, key x = k0) l) <$> ks) with
        ((λ k0, filter (λ x, key x = k0) (filter (λ x, ¬ key x = k) l)) <$> ks); [done|].
      apply list_fmap_ext. intros i k' Hk'. apply list_elem_of_lookup_2 in Hk'.
      apply list_filter_filter_l. intros x <- Hx. by rewrite Hx in Hk'.
    + intros x [Hx Hl]%list_elem_of_filter. 
      by apply Hin, elem_of_cons in Hl as [?|?].
Qed.

(** ** Dictionaries *)
Section dict_lemmas.
Context {K V : Type} `{EqDecision K}.
Implicit Types d : dict K V.

Lemma dict_get_set d (k k' : K) (v : V) :
  dict_get (dict_set d k v) k' = if decide (k' = k) then Some v else dict_get d k'.
Proof.
  induction d as [|[k0 v0] d IH]; simpl; [done|].
  repeat case_decide; subst; simpl; rewrite ?IH; repeat case_decide; done || congruence.
Qed.

Lemma dict_get_app d1 d2 (k : K) :
  dict_get (d1 ++ d2) k = match dict_get d1 k with Some v => Some v | None => dict_get d2 k end.
Proof. induction d1 as [|[k0 v0] d1 IH]; simpl; [done|]. by case_decide. Qed.

Lemma dict_get_setdefault d (k k' : K) (v : V) :
  dict_get (dict_setdefault d k v) k' =
    if decide (k' = k) then Some (default v (dict_get d k)) else dict_get d k'.
Proof.
  unfold dict_setdefault. destruct (dict_get d k) eqn:E.
  - case_decide; [by subst|done].
  - rewrite dict_get_app. simpl. case_decide; subst; [by rewrite E|]. by destruct (dict_get d k').
Qed.

Lemma dict_get_elem d (k : K) (v : V) : dict_get d k = Some v → (k, v) ∈ d.
Proof.
  induction d as [|[k0 v0] d IH]; simpl; [done|]. case_decide; intros; simplify_eq.
  - left.
  - right. auto.
Qed.

Lemma dict_get_None d (k : K) : dict_get d k = None ↔ k ∉ d.*1.
Proof.
  induction d as [|[k0 v0] d IH]; simpl; [set_solver|].
  rewrite not_elem_of_cons. case_decide; [by subst; split; [|intros [[] _]]|]. rewrite IH. tauto.
Qed.

Lemma dict_get_Some_key d (k : K) : is_Some (dict_get d k) ↔ k ∈ d.*1.
Proof.
  destruct (dict_get d k) as [v|] eqn:E; split; intros H; [|by eauto|by destruct H|].
  - apply dict_get_elem in E. by apply (list_elem_of_fmap_2 fst) in E.
  - by apply dict_get_None in E.
Qed.

Lemma dict_mem_true d (k : K) : dict_mem d k = true ↔ k ∈ d.*1.
Proof. unfold dict_mem. by rewrite bool_decide_eq_true, dict_get_Some_key. Qed.

Lemma dict_get_NoDup d (k : K) (v : V) : NoDup d.*1 → (k, v) ∈ d → dict_get d k = Some v.
Proof.
  induction d as [|[k0 v0] d IH]; simpl; [by intros _ ?%not_elem_of_nil|].
  intros [Hk Hnd]%NoDup_cons [E|Hin]%elem_of_cons; simplify_eq.
  - by rewrite decide_True.
  - rewrite decide_False; [auto|]. intros ->. apply Hk. by apply (list_elem_of_fmap_2 fst) in Hin.
Qed.

Lemma dict_set_keys d (k : K) (v : V) :
  (dict_set d k v).*1 = if decide (k ∈ d.*1) then d.*1 else d.*1 ++ [k].
Proof.
  induction d as [|[k0 v0] d IH]; [done|].
  simpl dict_set. destruct (decide (k = k0)) as [->|].
  - rewrite !fmap_cons, decide_True by constructor. done.
  - rewrite !fmap_cons, IH. simpl. destruct (decide (k ∈ d.*1)).
    + by rewrite decide_True by (by constructor).
    + rewrite decide_False; [done|]. by intros [?|?]%elem_of_cons.
Qed.

Lemma foldl_dict_set (pairs d : dict K V) :
  NoDup (d ++ pairs).*1 → foldl (λ d kw, dict_set d kw.1 kw.2) d pairs = d ++ pairs.
Proof.
  revert d. induction pairs as [|[k v] pairs IH]; intros d Hnd; simpl; [by rewrite app_nil_r|].
  assert (Hset : dict_set d k v = d ++ [(k, v)]).
  { rewrite fmap_app in Hnd. apply NoDup_app in Hnd as (_ & Hdis & _).
    clear IH. induction d as [|[k' v'] d IH]; [done|]. simpl. rewrite decide_False.
    - f_equal. apply IH. intros x Hx. apply Hdis. by right.
    - intros ->. apply (Hdis k'); by left. }
  rewrite Hset, IH; rewrite <- (assoc_L (++)); done.
Qed.

End dict_lemmas.

(** ** Loops *)
Lemma fold_result_app {A S} (f : S → A → result S) (s : S) (l1 l2 : list A) :
  fold_result f s (l1 ++ l2) = s' ← fold_result f s l1; fold_result f s' l2.
Proof.
  revert s. induction l1 as [|x l1 IH]; intros s; [done|]. cbn [fold_result app].
  destruct (f s x); simpl; [apply IH|done].
Qed.

(** ** Iterating a Python set

    The order in which a [set] is iterated is not specified: it is a
    parameter, one order per set stored under a key, known only to be a
    permutation of the elements. *)
Class SetIter (K : Type) `{Countable K} : Type := {
  set_iter : K → gset K → list K;
  set_iter_perm : ∀ k X, set_iter k X ≡ₚ elements X
}.

Lemma elem_of_set_iter `{SetIter K} (k x : K) (X : gset K) : x ∈ set_iter k X ↔ x ∈ X.
Proof. by rewrite set_iter_perm, elem_of_elements. Qed.

Lemma NoDup_set_iter `{SetIter K} (k : K) (X : gset K) : NoDup (set_iter k X).
Proof. rewrite set_iter_perm. apply NoDup_elements. Qed.

(** The order of the [elements] function, for evaluating examples. *)
Definition elements_iter (K : Type) `{Countable K} : SetIter K :=
  {| set_iter := λ _ X, elements X; set_iter_perm := λ _ X, Permutation_refl _ |}.

Lemma filter_ext_elem {A} (P Q : A → Prop) `{∀ x, Decision (P x)} `{∀ x, Decision (Q x)}
    (l : list A) :
  (∀ x, x ∈ l → P x ↔ Q x) → filter P l = filter Q l.
Proof.
  induction l as [|x l IH]; intros He; [done|]. rewrite !filter_cons.
  rewrite IH by (intros y Hy; apply He; by right).
  apply decide_ext, He. left.
Qed.

Lemma filter_fmap {A B} (f : A → B) (P : B → Prop) `{∀ y, Decision (P y)} (l : list A) :
  filter P (f <$> l) = f <$> filter (λ x, P (f x)) l.
Proof.
  induction l as [|x l IH]; [done|]. rewrite fmap_cons, !filter_cons.
  case_decide; rewrite ?fmap_cons; by rewrite IH.
Qed.

(** A pair of a sublist keeps its order in the list. *)
Lemma sublist_lookup_lt {A} (l k : list A) (i j : nat) (x y : A) :
  l `sublist_of` k → (i < j)%nat → l !! i = Some x → l !! j = Some y →
  ∃ i' j', (i' < j')%nat ∧ k !! i' = Some x ∧ k !! j' = Some y.
Proof.
  intros Hs. revert i j. induction Hs as [|z l k Hs IH|z l k Hs IH]; intros i j Hij Hi Hj.
  - by rewrite lookup_nil in Hi.
  - destruct j as [|j]; [lia|]. destruct i as [|i]; simplify_eq/=.
    + apply (list_elem_of_lookup_2 l), (sublist_subseteq _ _ Hs), list_elem_of_lookup in Hj
        as [j' Hj'].
      exists 0%nat, (S j'). split_and!; [lia|done|done].
    + destruct (IH i j ltac:(lia) Hi Hj) as (i' & j' & ? & ? & ?).
      exists (S i'), (S j'). split_and!; [lia|done|done].
  - destruct (IH i j Hij Hi Hj) as (i' & j' & ? & ? & ?).
    exists (S i'), (S j'). split_and!; [lia|done|done].
Qed.

(** ** Stable sorting

    [list.sort(key=...)]: a stable sort by a key with a decidable order. *)
Section stable_sort.
Context {A : Type} (le : A → A → Prop) `{!RelDecision le}.

(** Insert after every element whose key is not greater. *)
Fixpoint sort_insert (x : A) (l : list A) : list A :=
  match l with
  | [] => [x]
  | y :: l' => if decide (le y x) then y :: sort_insert x l' else x :: y :: l'
  end.

Definition stable_sort (l : list A) : list A := foldl (λ acc x, sort_insert x acc) [] l.

Lemma sort_insert_perm (x : A) (l : list A) : sort_insert x l ≡ₚ x :: l.
Proof.
  induction l as [|y l IH]; simpl; [done|]. case_decide; [|done]. rewrite IH. by constructor.
Qed.

Lemma stable_sort_perm (l : list A) : stable_sort l ≡ₚ l.
Proof.
  unfold stable_sort. induction l as [|x l IH] using rev_ind; [done|].
  rewrite foldl_app. simpl. rewrite sort_insert_perm, IH. by rewrite Permutation_app_comm.
Qed.

Lemma elem_of_stable_sort (x : A) (l : list A) : x ∈ stable_sort l ↔ x ∈ l.
Proof. by rewrite stable_sort_perm. Qed.

Context `{!Total le, !Transitive le}.

Lemma sort_insert_sorted (x : A) (l : list A) :
  StronglySorted le l → StronglySorted le (sort_insert x l).
Proof using All.
  induction 1 as [|y l Hl IH Hy]; simpl; [by repeat constructor|].
  case_decide as Hd; constructor; [done| | |].
  - rewrite sort_insert_perm. by constructor.
  - by constructor.
  - assert (Hxy : le x y) by (by destruct (total le x y)).
    constructor; [done|]. eapply Forall_impl; [exact Hy|]. intros z. by apply transitivity.
Qed.

Lemma stable_sort_sorted (l : list A) : StronglySorted le (stable_sort l).
Proof using All.
  unfold stable_sort. induction l as [|x l IH] using rev_ind; [constructor|].
  rewrite foldl_app. by apply sort_insert_sorted.
Qed.
End stable_sort.

(** The first element of a sorted list with a property is the least one. *)
Lemma StronglySorted_find {A} (R : A → A → Prop) `{!Reflexive R} (f : A → bool) (l : list A) (x : A) :
  StronglySorted R l → List.find f l = Some x →
  x ∈ l ∧ f x = true ∧ ∀ y, y ∈ l → f y = true → R x y.
Proof.
  induction 1 as [|y l Hl IH Hy]; simpl; [done|]. destruct (f y) eqn:Ef.
  - intros [= <-]. split_and!; [left|done|]. intros z [->|Hz]%elem_of_cons _; [done|].
    by eapply Forall_forall in Hy.
  - intros Hf. destruct (IH Hf) as (Hin & Hx & Hle). split_and!; [by right|done|].
    intros z [->|Hz]%elem_of_cons Hfz; [congruence|auto].
Qed.

(** Python's [max]/[min] of a non-empty list. *)
Definition zmax_list (x : Z) (l : list Z) : Z := foldl Z.max x l.
Definition zmin_list (x : Z) (l : list Z) : Z := foldl Z.min x l.

Lemma zmax_list_spec (x : Z) (l : list Z) :
  zmax_list x l ∈ x :: l ∧ ∀ y, y ∈ x :: l → (y ≤ zmax_list x l)%Z.
Proof.
  unfold zmax_list. revert x. induction l as [|z l IH]; intros x; simpl.
  - split; [left|]. intros y Hy%list_elem_of_singleton. lia.
  - destruct (IH (x `max` z)%Z) as [Hin Hle]. split.
    + apply elem_of_cons in Hin as [->|Hin]; [|by do 2 right].
      destruct (Z.max_spec x z) as [[_ ->]|[_ ->]]; [right; left|left].
    + intros y [->|[->|Hy]%elem_of_cons]%elem_of_cons.
      * specialize (Hle (x `max` z)%Z ltac:(left)). lia.
      * specialize (Hle (x `max` z)%Z ltac:(left)). lia.
      * apply Hle. by right.
Qed.

Lemma zmin_list_spec (x : Z) (l : list Z) :
  zmin_list x l ∈ x :: l ∧ ∀ y, y ∈ x :: l → (zmin_list x l ≤ y)%Z.
Proof.
  unfold zmin_list. revert x. induction l as [|z l IH]; intros x; simpl.
  - split; [left|]. intros y Hy%list_elem_of_singleton. lia.
  - destruct (IH (x `min` z)%Z) as [Hin Hle]. split.
    + apply elem_of_cons in Hin as [->|Hin]; [|by do 2 right].
      destruct (Z.min_spec x z) as [[_ ->]|[_ ->]]; [left|right; left].
    + intros y [->|[->|Hy]%elem_of_cons]%elem_of_cons.
      * specialize (Hle (x `min` z)%Z ltac:(left)). lia.
      * specialize (Hle (x `min` z)%Z ltac:(left)). lia.
      * apply Hle. by right.
Qed.

(** ** Frames of monadic computations

    [keeps R m]: whether [m] returns or raises, the state it leaves is related
    to the state it found. *)
Definition keeps {S A} (R : S → S → Prop) (m : M S A) : Prop := ∀ s, R s (m s).2.

Section keeps.
Context {S : Type} (R : S → S → Prop).

Lemma keeps_bind `{!Transitive R} {A B} (m : M S A) (f : A → M S B) :
  keeps R m → (∀ x, keeps R (f x)) → keeps R (m ≫= f).
Proof.
  intros Hm Hf s. specialize (Hm s). unfold mbind, M_bind.
  destruct (m s) as [[x|e] s1]; [|done]. simpl in Hm. transitivity s1; [done|apply Hf].
Qed.

Lemma keeps_ret `{!Reflexive R} {A} (x : A) : keeps R (mret x).
Proof. intros s. done. Qed.
Lemma keeps_lift `{!Reflexive R} {A} (r : result A) : keeps R (lift r).
Proof. intros s. done. Qed.
Lemma keeps_get `{!Reflexive R} : keeps R get_state.
Proof. intros s. done. Qed.
Lemma keeps_guard `{!Reflexive R} (b : bool) (e : exn) : keeps R (guard_m b e).
Proof. intros s. done. Qed.
Lemma keeps_modify (f : S → S) : (∀ s, R s (f s)) → keeps R (modify f).
Proof. intros Hf s. apply Hf. Qed.
End keeps.

(** *** Comprehensions *)
Lemma bind_nil {A B} (f : A → list B) (l : list A) :
  (x ← l; f x) = [] ↔ ∀ x, x ∈ l → f x = [].
Proof.
  induction l as [|x l IH]; simpl.
  - split; [|done]. intros _ x Hx. by apply not_elem_of_nil in Hx.
  - rewrite app_nil, IH. split.
    + intros [Hx Hl] y [->|Hy]%elem_of_cons; auto.
    + intros H. split; [apply H; left|intros y Hy; apply H; by right].
Qed.
