(* ===== verification/PyText.v ===== *)
(** * Python strings

    The string methods the modelled code calls, on strings of bytes: [split]
    by a character, [strip], [lower] and [int].  Characters outside ASCII are
    neither spaces nor digits nor letters here. *)

From S2P Require Import Prelude.
From Stdlib Require Import Ascii.
Local Open Scope Z_scope.

(** [s.split(sep)] for a one-character separator: never empty. *)
Fixpoint str_split (sep : ascii) (s : string) : list string :=
  match s with
  | EmptyString => [EmptyString]
  | String c s =>
      if decide (c = sep) then EmptyString :: str_split sep s
      else match str_split sep s with
           | [] => [String c EmptyString]
           | w :: ws => String c w :: ws
           end
  end.


Definition is_space_char (c : ascii) : bool :=
  let n := N_of_ascii c in ((9 <=? n)%N && (n <=? 13)%N) || ((28 <=? n)%N && (n <=? 32)%N).

Fixpoint drop_spaces (cs : list ascii) : list ascii :=
  match cs with
  | [] => []
  | c :: cs' => if is_space_char c then drop_spaces cs' else cs
  end.

(** [s.strip()] *)
Definition strip (cs : list ascii) : list ascii := rev (drop_spaces (rev (drop_spaces cs))).

Definition digit_of (c : ascii) : option Z :=
  let n := Z.of_N (N_of_ascii c) in if (48 <=? n) && (n <=? 57) then Some (n - 48) else None.

(** Digits with single underscores between them; [after_digit] holds after a digit. *)
Fixpoint digits_value (after_digit : bool) (acc : Z) (cs : list ascii) : option Z :=
  match cs with
  | [] => if after_digit then Some acc else None
  | c :: cs =>
      if decide (c = "_"%char) then if after_digit then digits_value false acc cs else None
      else match digit_of c with
           | Some d => digits_value true (10 * acc + d) cs
           | None => None
           end
  end.

(** [int(s)] of an ASCII string. *)
Definition int_of_str (s : string) : result Z :=
  of_option (ValueError "invalid literal for int()")
    match strip (String.list_ascii_of_string s) with
    | "-"%char :: cs => Z.opp <$> digits_value false 0 cs
    | "+"%char :: cs => digits_value false 0 cs
    | cs => digits_value false 0 cs
    end.

(** [s.lower()] of an ASCII string. *)
Definition lower_char (c : ascii) : ascii :=
  let n := N_of_ascii c in if ((65 <=? n)%N && (n <=? 90)%N) then ascii_of_N (n + 32) else c.
Definition lower (cs : list ascii) : list ascii := lower_char <$> cs.

Definition strip_str (s : string) : string :=
  String.string_of_list_ascii (strip (String.list_ascii_of_string s)).

Section str_split.
Context (sep : ascii).

Lemma str_split_cons (m n : string) :
  sep ∉ String.list_ascii_of_string m →
  str_split sep (m +:+ (String sep n)) = m :: (str_split sep n).
Proof.
  induction m as [|c m IH]; intros Hm; simpl.
  - by rewrite decide_True.
  - apply not_elem_of_cons in Hm as [Hc Hm]. rewrite decide_False by done. by rewrite IH.
Qed.

Lemma str_split_one (s : string) : sep ∉ String.list_ascii_of_string s → str_split sep s = [s].
Proof.
  induction s as [|c s IH]; intros Hs; [done|]. apply not_elem_of_cons in Hs as [Hc Hs]. simpl.
  rewrite decide_False by done. by rewrite IH.
Qed.

(** The first part holds no separator, and the rest is split after it. *)
Lemma str_split_inv (s w : string) (ws : list string) :
  str_split sep s = w :: ws →
  (sep ∉ String.list_ascii_of_string w) ∧
  (ws = [] ∧ s = w ∨ ∃ r, s = (w +:+ String sep r) ∧ str_split sep r = ws).
Proof.
  revert w ws. induction s as [|c s IH]; intros w ws; simpl.
  - intros [= <- <-]. split; [apply not_elem_of_nil|]. by left.
  - case_decide as Hc.
    + intros [= <- <-]. split; [apply not_elem_of_nil|]. right. exists s. by rewrite Hc.
    + destruct (str_split sep s) as [|w' ws'] eqn:E.
      * intros [= <- <-]. exfalso. clear -E. destruct s; simpl in E; [done|].
        case_decide; [done|]. by destruct (str_split sep s).
      * intros [= <- <-]. destruct (IH w' ws' eq_refl) as [Hw Hs]. split.
        { apply not_elem_of_cons. by split. }
        destruct Hs as [[-> ->]|(r & -> & Hr)]; [by left|]. right. by exists r.
Qed.
End str_split.
