(* ===== verification/Registry.v ===== *)
(** * Kernel selection (registry.py, signature.py)

    The metadata-only registry that chooses one kernel implementation for a
    request: format signatures, priority bands, the checks of a registry's
    constructor, the explanation of every candidate and the selection.  Paths
    are relative to [src/src/python/vkernels].  A capability predicate
    ([check]) is a field of an implementation, a function of the request that
    returns rejection reasons or raises.  [explain] is cached on its arguments;
    as it is a function of them the cache is not modelled.  Reasons keep their
    text except for quoted names, which are dropped. *)

From S2P Require Import Prelude PyText.
From Stdlib Require Import Ascii SpecFloat.
Local Open Scope Z_scope.

(** ** Requests *)
Record TensorMetadata : Type := mk_metadata {
  tm_shape : list Z;
  tm_dtype : string;
  tm_device : string;
  tm_contiguous : bool
}.

(** [int | float | str | bool]; a float is a binary64 value. *)
Inductive ParamValue : Type :=
  | PInt (z : Z)
  | PFloat (f : spec_float)
  | PStr (s : string)
  | PBool (b : bool).

Record KernelRequest : Type := mk_request {
  kr_operation : string;
  kr_tensors : list TensorMetadata;
  kr_architecture : string;
  kr_backends : gset string;
  kr_graph_capture : bool;
  kr_workspace_bytes : Z;
  kr_parameters : list (string * ParamValue)
}.

(** ** Format signatures *)
Record FormatSignature : Type := mk_signature {
  fs_roles : list string;
  fs_dtypes : list (gset string);
  fs_layout : string
}.

(** The constructor with its [__post_init__] checks. *)
Definition new_FormatSignature (roles : list string) (dtypes : list (gset string))
    (layout : string) : result FormatSignature :=
  _ ← require (length roles =? length dtypes)%nat (ValueError "roles and dtypes must align");
  _ ← map_result (λ ra, require (bool_decide (ra.2 ≠ ∅)) (ValueError "role accepts no dtype"))
        (zip roles dtypes);
  Ok (mk_signature roles dtypes layout).

(** ['/'.join(sorted(accepted))] *)
Definition slashed (accepted : gset string) : string :=
  String.concat "/" (stable_sort String.le (elements accepted)).

Definition matches (sig : FormatSignature) (tensors : list TensorMetadata) : list string :=
  if (negb (length tensors =? length (fs_roles sig))%nat) then
    ["expected " +:+ fmt (Z.of_nat (length (fs_roles sig))) +:+ " tensors (" +:+
     String.concat ", " (fs_roles sig) +:+ "), got " +:+ fmt (Z.of_nat (length tensors))]
  else
    '(role, accepted, tensor) ← zip (zip (fs_roles sig) (fs_dtypes sig)) tensors;
    if bool_decide (tm_dtype tensor ∈ accepted) then []
    else [role +:+ " requires " +:+ slashed accepted].

Definition describe (sig : FormatSignature) : string :=
  fs_layout sig +:+ ": " +:+
  String.concat " " ((λ ra, ra.1 +:+ "<" +:+ slashed ra.2 +:+ ">") <$>
                     zip (fs_roles sig) (fs_dtypes sig)).

(** ** Priority bands *)
Inductive Priority : Type := REFERENCE | PORTABLE | PERFORMANT | SPECIALIZED | PLUGIN.

Definition priority_value (band : Priority) : Z :=
  match band with
  | REFERENCE => 0 | PORTABLE => 4 | PERFORMANT => 8 | SPECIALIZED => 12 | PLUGIN => 16
  end.

Definition PRIORITY_MAX : Z := 20.

Definition Priority_members : list Priority :=
  [REFERENCE; PORTABLE; PERFORMANT; SPECIALIZED; PLUGIN].

Definition later_band (best band : Priority) : Priority :=
  if priority_value best <? priority_value band then band else best.

Definition band_of (value : Z) : Priority :=
  match filter (λ band, priority_value band ≤ value) Priority_members with
  | [] => REFERENCE
  | band :: bands => foldl later_band band bands
  end.

(** ** Implementations *)
Record KernelImplementation : Type := mk_impl {
  ki_operation : string;
  ki_name : string;
  ki_entrypoint : string;
  ki_check : KernelRequest → result (list string);
  ki_backend : string;
  ki_priority : Z;
  ki_architectures : list string;
  ki_graph_capture : bool;
  ki_workspace_bytes : Z;
  ki_reference : bool;
  ki_signature : option FormatSignature;
  ki_weight_preprocessor : option string
}.

(** ["module:name".split(":")], unpacked into two names. *)
Definition unpack_entrypoint (entrypoint : string) : result (string * string) :=
  match str_split ":"%char entrypoint with
  | [module; name] => Ok (module, name)
  | _ => Err (ValueError "not two values to unpack")
  end.

(** [import_module] and [getattr] on the module are the argument [attribute]. *)
Section load.
Context {Callable : Type} (attribute : string → string → result Callable).

Definition load (impl : KernelImplementation) : result Callable :=
  '(module, name) ← unpack_entrypoint (ki_entrypoint impl);
  attribute module name.

Definition load_weight_preprocessor (impl : KernelImplementation) : result (option Callable) :=
  match ki_weight_preprocessor impl with
  | None => Ok None
  | Some entrypoint =>
      '(module, name) ← unpack_entrypoint entrypoint;
      Some <$> attribute module name
  end.
End load.

(** ** Registries *)
Record KernelRegistry : Type := mk_registry { implementations : list KernelImplementation }.

(** [len(s.split(":")) != 2 or not all(s.split(":"))], negated. *)
Definition valid_entrypoint (entrypoint : string) : bool :=
  (length (str_split ":"%char entrypoint) =? 2)%nat &&
  forallb (λ part, bool_decide (part ≠ EmptyString)) (str_split ":"%char entrypoint).

Definition check_implementation (impl : KernelImplementation) : result unit :=
  _ ← require (valid_entrypoint (ki_entrypoint impl)) (ValueError "invalid entrypoint");
  _ ← require (match ki_weight_preprocessor impl with
               | None => true | Some entrypoint => valid_entrypoint entrypoint end)
        (ValueError "invalid weight_preprocessor entrypoint");
  _ ← require (negb (ki_workspace_bytes impl <? 0)) (ValueError "workspace_bytes must be nonnegative");
  require ((0 <=? ki_priority impl) && (ki_priority impl <? PRIORITY_MAX))
    (ValueError "priority must be in [0, 20)").

Definition qualified_name (impl : KernelImplementation) : string * string :=
  (ki_operation impl, ki_name impl).

(** The constructor with its [__post_init__] checks. *)
Definition new_KernelRegistry (impls : list KernelImplementation) : result KernelRegistry :=
  _ ← require (bool_decide (NoDup (qualified_name <$> impls)))
        (ValueError "duplicate kernel operation/name");
  _ ← map_result check_implementation impls;
  Ok (mk_registry impls).

Record CandidateExplanation : Type := mk_candidate {
  ce_implementation : KernelImplementation;
  ce_reasons : list string
}.

Record SelectionExplanation : Type := mk_explanation {
  se_request : KernelRequest;
  se_override : option string;
  se_selected : option KernelImplementation;
  se_candidates : list CandidateExplanation
}.

(** The order of [key=lambda i: (-i.priority, i.name)]. *)
Definition impl_le (a b : KernelImplementation) : Prop :=
  ki_priority b < ki_priority a ∨
  ki_priority b = ki_priority a ∧ String.le (ki_name a) (ki_name b).

#[export] Instance impl_le_dec : RelDecision impl_le.
Proof. unfold impl_le. intros a b. apply _. Defined.

(** [if cond: reasons.append(reason)] *)
Definition reject_if (cond : bool) (reason : string) : list string :=
  if cond then [reason] else [].

Definition gate_reasons (request : KernelRequest) (allow_reference : bool)
    (impl : KernelImplementation) : list string :=
  reject_if (ki_reference impl && negb allow_reference)
    "reference implementation requires allow_reference=True" ++
  reject_if (bool_decide (ki_backend impl ∉ kr_backends request)) "backend unavailable" ++
  reject_if (bool_decide (ki_architectures impl ≠ []) &&
             bool_decide (kr_architecture request ∉ ki_architectures impl))
    "architecture unsupported" ++
  reject_if (kr_graph_capture request && negb (ki_graph_capture impl)) "graph capture unsupported" ++
  reject_if (kr_workspace_bytes request <? ki_workspace_bytes impl)
    ("requires " +:+ fmt (ki_workspace_bytes impl) +:+ " workspace bytes").

Definition candidate_reasons (request : KernelRequest) (allow_reference : bool)
    (impl : KernelImplementation) : result (list string) :=
  checked ← ki_check impl request;
  Ok (gate_reasons request allow_reference impl ++ checked ++
      match ki_signature impl with
      | None => []
      | Some sig => matches sig (kr_tensors request)
      end).

(** [override is None or override == impl.name] *)
Definition overridable (override : option string) (impl : KernelImplementation) : bool :=
  match override with None => true | Some name => bool_decide (name = ki_name impl) end.

Definition explain_step (request : KernelRequest) (override : option string)
    (allow_reference : bool) (st : list CandidateExplanation * option KernelImplementation)
    (impl : KernelImplementation) :
    result (list CandidateExplanation * option KernelImplementation) :=
  if bool_decide (ki_operation impl ≠ kr_operation request) then Ok st
  else
    reasons ← candidate_reasons request allow_reference impl;
    Ok (st.1 ++ [mk_candidate impl reasons],
        match st.2 with
        | None => if bool_decide (reasons = []) && overridable override impl
                  then Some impl else None
        | Some selected => Some selected
        end).

Definition explain (reg : KernelRegistry) (request : KernelRequest) (override : option string)
    (allow_reference : bool) : result SelectionExplanation :=
  _ ← require (negb (kr_workspace_bytes request <? 0))
        (ValueError "workspace_bytes must be nonnegative");
  st ← fold_result (explain_step request override allow_reference) ([], None)
         (stable_sort impl_le (implementations reg));
  Ok (mk_explanation request override st.2 st.1).

Definition select (reg : KernelRegistry) (request : KernelRequest) (override : option string)
    (allow_reference : bool) : result KernelImplementation :=
  explanation ← explain reg request override allow_reference;
  of_option (KernelSelectionError "no eligible implementation") (se_selected explanation).

(** ** What a selection promises

    Eligibility of an implementation, stated without reasons. *)
Definition accepts (sig : FormatSignature) (tensors : list TensorMetadata) : Prop :=
  length tensors = length (fs_roles sig) ∧
  ∀ i accepted tensor,
    fs_dtypes sig !! i = Some accepted → tensors !! i = Some tensor → tm_dtype tensor ∈ accepted.

Record eligible (request : KernelRequest) (allow_reference : bool)
    (impl : KernelImplementation) : Prop := {
  el_operation : ki_operation impl = kr_operation request;
  el_reference : ki_reference impl = true → allow_reference = true;
  el_backend : ki_backend impl ∈ kr_backends request;
  el_architecture : ki_architectures impl = [] ∨ kr_architecture request ∈ ki_architectures impl;
  el_graph_capture : kr_graph_capture request = true → ki_graph_capture impl = true;
  el_workspace : ki_workspace_bytes impl ≤ kr_workspace_bytes request;
  el_check : ki_check impl request = Ok [];
  el_signature : ∀ sig, ki_signature impl = Some sig → accepts sig (kr_tensors request)
}.

(** The implementation a caller expects: eligible, named by the override if
    there is one, and first in the order among those. *)
Definition candidate (impls : list KernelImplementation) (request : KernelRequest)
    (override : option string) (allow_reference : bool) (impl : KernelImplementation) : Prop :=
  impl ∈ impls ∧ eligible request allow_reference impl ∧
  ∀ name, override = Some name → ki_name impl = name.

Definition best_candidate (impls : list KernelImplementation) (request : KernelRequest)
    (override : option string) (allow_reference : bool) (impl : KernelImplementation) : Prop :=
  candidate impls request override allow_reference impl ∧
  ∀ other, candidate impls request override allow_reference other → impl_le impl other.

(** No capability predicate of the operation raises on the request. *)
Definition checks_return (impls : list KernelImplementation) (request : KernelRequest) : Prop :=
  ∀ impl, impl ∈ impls → ki_operation impl = kr_operation request →
    is_ok (ki_check impl request) = true.

(** ** Signatures *)
Lemma elem_of_zip_lookup {A B} (l : list A) (k : list B) (x : A) (y : B) :
  (x, y) ∈ zip l k ↔ ∃ i, l !! i = Some x ∧ k !! i = Some y.
Proof.
  rewrite list_elem_of_lookup. apply exist_proper. intros i.
  rewrite lookup_zip_with. destruct (l !! i), (k !! i); simpl; naive_solver.
Qed.

Lemma matches_accepts (sig : FormatSignature) (tensors : list TensorMetadata) :
  matches sig tensors = [] ↔ accepts sig tensors.
Proof.
  unfold matches, accepts. destruct (Nat.eqb_spec (length tensors) (length (fs_roles sig))) as [El|El];
    cbn [negb]; [|by split; [|intros [? _]]].
  rewrite bind_nil. split.
  - intros Hz. split; [done|]. intros i accepted tensor Ha Ht.
    destruct (lookup_lt_is_Some_2 (fs_roles sig) i) as [role Hr].
    { rewrite <- El. by apply lookup_lt_Some in Ht. }
    specialize (Hz (role, accepted, tensor)). cbv beta iota in Hz.
    destruct (bool_decide_reflect (tm_dtype tensor ∈ accepted)); [done|].
    exfalso. assert (Hn : [role +:+ " requires " +:+ slashed accepted] = []); [|done].
    apply Hz, elem_of_zip_lookup. exists i. split; [|done].
    rewrite lookup_zip_with, Hr. simpl. by rewrite Ha.
  - intros [_ Ha] [[role accepted] tensor] Hin. apply elem_of_zip_lookup in Hin as (i & Hz & Ht).
    rewrite lookup_zip_with in Hz. destruct (fs_roles sig !! i); [|done].
    destruct (fs_dtypes sig !! i) as [a|] eqn:Ea; [|done]. simplify_eq/=.
    rewrite bool_decide_true; [done|]. eauto.
Qed.

(** ** The order *)
#[export] Instance impl_le_refl : Reflexive impl_le.
Proof. intros a. right. split; [done|]. by apply PreOrder_Reflexive. Qed.
#[export] Instance impl_le_trans : Transitive impl_le.
Proof.
  intros a b c [?|[? Hab]] [?|[? Hbc]]; [left; lia|left; lia|left; lia|].
  right. split; [lia|]. by transitivity (ki_name b).
Qed.
#[export] Instance impl_le_total : Total impl_le.
Proof.
  intros a b. unfold impl_le. destruct (total String.le (ki_name a) (ki_name b)),
    (Z.lt_trichotomy (ki_priority a) (ki_priority b)) as [|[|]]; auto.
Qed.

Lemma impl_le_antisymm (a b : KernelImplementation) :
  impl_le a b → impl_le b a → ki_name a = ki_name b.
Proof. intros [?|[? Hab]] [?|[? Hba]]; try lia. by apply (anti_symm String.le). Qed.

(** ** Reasons *)
Lemma reject_if_nil (cond : bool) (reason : string) : reject_if cond reason = [] ↔ cond = false.
Proof. by destruct cond. Qed.

Lemma andb_negb_false (a b : bool) : a && negb b = false ↔ (a = true → b = true).
Proof. destruct a, b; simpl; intuition congruence. Qed.

Lemma gate_reasons_nil (request : KernelRequest) (allow : bool) (impl : KernelImplementation) :
  gate_reasons request allow impl = [] ↔
  (ki_reference impl = true → allow = true) ∧ ki_backend impl ∈ kr_backends request ∧
  (ki_architectures impl = [] ∨ kr_architecture request ∈ ki_architectures impl) ∧
  (kr_graph_capture request = true → ki_graph_capture impl = true) ∧
  ki_workspace_bytes impl ≤ kr_workspace_bytes request.
Proof.
  unfold gate_reasons. rewrite !app_nil, !reject_if_nil, !andb_negb_false, Z.ltb_ge.
  rewrite andb_false_iff, !bool_decide_eq_false.
  assert (Hm : ∀ (x : string) (X : gset string), ¬ (x ∉ X) ↔ x ∈ X) by (intros; split; [apply dec_stable|auto]).
  rewrite Hm. assert (Ha : ∀ P Q : Prop, Decision P → Decision Q → ¬ ¬ P ∨ ¬ ¬ Q ↔ P ∨ Q).
  { intros P Q HP HQ. destruct HP, HQ; tauto. }
  rewrite Ha by apply _. tauto.
Qed.

(** The selection condition of the loop. *)
Definition chooses (request : KernelRequest) (override : option string) (allow : bool)
    (impl : KernelImplementation) : bool :=
  bool_decide (ki_operation impl = kr_operation request) &&
  (match candidate_reasons request allow impl with Ok [] => true | _ => false end) &&
  overridable override impl.

Lemma chooses_eligible (request : KernelRequest) (override : option string) (allow : bool)
    (impl : KernelImplementation) :
  chooses request override allow impl = true ↔
  eligible request allow impl ∧ ∀ name, override = Some name → ki_name impl = name.
Proof.
  unfold chooses, candidate_reasons. rewrite !andb_true_iff, bool_decide_eq_true.
  assert (Ho : overridable override impl = true ↔ ∀ name, override = Some name → ki_name impl = name).
  { unfold overridable. destruct override as [name|]; [rewrite bool_decide_eq_true|]; naive_solver. }
  rewrite Ho. apply and_iff_compat_r. split.
  - intros [Hop Hr]. destruct (ki_check impl request) as [checked|] eqn:Ec; [|done]. simpl in Hr.
    destruct (gate_reasons _ _ _ ++ _) eqn:Eg; [|done].
    rewrite !app_nil, gate_reasons_nil in Eg. destruct Eg as ((? & ? & ? & ? & ?) & -> & Hs).
    split; try done. intros sig Hsig. rewrite Hsig in Hs. by apply matches_accepts.
  - intros [Hop Hre Hb Ha Hg Hw Hc Hs]. split; [done|]. rewrite Hc. simpl.
    rewrite (proj2 (gate_reasons_nil _ _ _)) by done.
    destruct (ki_signature impl) as [sig|]; [|done].
    by rewrite (proj2 (matches_accepts _ _) (Hs sig eq_refl)).
Qed.

(** ** The loop of [explain] *)
Section explain_loop.
Context (request : KernelRequest) (override : option string) (allow : bool).

Lemma explain_step_selected (st st' : list CandidateExplanation * option KernelImplementation)
    (impl : KernelImplementation) :
  explain_step request override allow st impl = Ok st' →
  st'.2 = match st.2 with
          | Some s => Some s
          | None => if chooses request override allow impl then Some impl else None
          end.
Proof.
  unfold explain_step, chooses. destruct (decide (ki_operation impl = kr_operation request)) as [Ho|Ho].
  - rewrite bool_decide_false, bool_decide_true by auto.
    destruct (candidate_reasons request allow impl) as [reasons|]; simpl; [|done].
    intros [= <-]. simpl. destruct (st.2); [done|]. by destruct reasons.
  - rewrite bool_decide_true, bool_decide_false by done. intros [= <-]. by destruct (st.2).
Qed.

Lemma explain_loop_selected (l : list KernelImplementation)
    (st st' : list CandidateExplanation * option KernelImplementation) :
  fold_result (explain_step request override allow) st l = Ok st' →
  st'.2 = match st.2 with
          | Some s => Some s
          | None => List.find (chooses request override allow) l
          end.
Proof.
  revert st. induction l as [|impl l IH]; intros st Hf; cbn [fold_result] in Hf.
  - injection Hf as ->. simpl. by destruct (st'.2).
  - destruct (explain_step _ _ _ st impl) as [st1|] eqn:E; [|done]. simpl in Hf.
    rewrite (IH _ Hf), (explain_step_selected _ _ _ E). simpl.
    destruct (st.2); [done|]. by destruct (chooses _ _ _ impl).
Qed.

Lemma explain_loop_returns (l : list KernelImplementation)
    (st : list CandidateExplanation * option KernelImplementation) :
  checks_return l request → is_ok (fold_result (explain_step request override allow) st l) = true.
Proof.
  revert st. induction l as [|impl l IH]; intros st Hc; [done|]. cbn [fold_result].
  assert (Hs : is_ok (explain_step request override allow st impl) = true).
  { unfold explain_step. destruct (decide (ki_operation impl = kr_operation request)) as [Ho|Ho];
      [|by rewrite bool_decide_true]. rewrite bool_decide_false by auto.
    specialize (Hc impl ltac:(left) Ho). unfold candidate_reasons. by destruct (ki_check impl request). }
  destruct (explain_step _ _ _ st impl); [|done]. apply IH. intros i Hi. apply Hc. by right.
Qed.
End explain_loop.

Lemma checks_return_sorted (impls : list KernelImplementation) (request : KernelRequest) :
  checks_return impls request → checks_return (stable_sort impl_le impls) request.
Proof. intros Hc impl Hi. apply Hc. by apply elem_of_stable_sort in Hi. Qed.

(** A selection is the first choice of the sorted implementations. *)
Lemma select_find (impls : list KernelImplementation) (request : KernelRequest)
    (override : option string) (allow : bool) :
  0 ≤ kr_workspace_bytes request → checks_return impls request →
  select (mk_registry impls) request override allow =
    of_option (KernelSelectionError "no eligible implementation")
      (List.find (chooses request override allow) (stable_sort impl_le impls)).
Proof.
  intros Hw Hc. unfold select, explain. rewrite (proj2 (Z.ltb_ge _ _) Hw). simpl.
  pose proof (explain_loop_returns request override allow _ ([], None)
    (checks_return_sorted _ _ Hc)) as Hok.
  destruct (fold_result _ _ _) as [st|] eqn:E; [|done]. simpl.
  by rewrite (explain_loop_selected _ _ _ _ _ _ E).
Qed.

Lemma chooses_candidate (impls : list KernelImplementation) (request : KernelRequest)
    (override : option string) (allow : bool) (impl : KernelImplementation) :
  candidate impls request override allow impl ↔
  impl ∈ stable_sort impl_le impls ∧ chooses request override allow impl = true.
Proof. unfold candidate. by rewrite elem_of_stable_sort, chooses_eligible. Qed.

Lemma qualified_name_inj (impls : list KernelImplementation) (a b : KernelImplementation) :
  NoDup (qualified_name <$> impls) → a ∈ impls → b ∈ impls →
  qualified_name a = qualified_name b → a = b.
Proof.
  intros Hnd Ha Hb Hq. apply list_elem_of_lookup in Ha as [i Hi], Hb as [j Hj].
  assert (i = j) as ->; [|congruence].
  eapply NoDup_lookup; [exact Hnd| |]; rewrite list_lookup_fmap; [by rewrite Hi|].
  rewrite Hj. simpl. by rewrite Hq.
Qed.

(** Names are unique, so at most one implementation is the best. *)
Lemma best_candidate_unique (impls : list KernelImplementation) (request : KernelRequest)
    (override : option string) (allow : bool) (a b : KernelImplementation) :
  NoDup (qualified_name <$> impls) →
  best_candidate impls request override allow a →
  best_candidate impls request override allow b → a = b.
Proof.
  intros Hnd [Ha Hla] [Hb Hlb]. pose proof (impl_le_antisymm a b (Hla b Hb) (Hlb a Ha)) as Hn.
  destruct Ha as (Ha & [Hoa _ _ _ _ _ _ _] & _), Hb as (Hb & [Hob _ _ _ _ _ _ _] & _).
  apply (qualified_name_inj impls); [done..|]. unfold qualified_name. by rewrite Hn, Hoa, Hob.
Qed.

Lemma select_best (impls : list KernelImplementation) (request : KernelRequest)
    (override : option string) (allow : bool) :
  NoDup (qualified_name <$> impls) → 0 ≤ kr_workspace_bytes request → checks_return impls request →
  (∀ impl, select (mk_registry impls) request override allow = Ok impl ↔
     best_candidate impls request override allow impl) ∧
  ((∃ tag, select (mk_registry impls) request override allow = Err (KernelSelectionError tag)) ↔
     ∀ impl, ¬ candidate impls request override allow impl).
Proof.
  intros Hnd Hw Hc. rewrite (select_find _ _ _ _ Hw Hc).
  destruct (List.find _ _) as [x|] eqn:Ef; cbn [of_option].
  - assert (Hx : best_candidate impls request override allow x).
    { apply (StronglySorted_find impl_le) in Ef as (Hin & Hch & Hle); [|apply stable_sort_sorted; apply _].
      split; [by apply chooses_candidate|]. intros y [Hy Hcy]%chooses_candidate. auto. }
    split.
    + intros impl. split; [by intros [= <-]|]. intros Hi. f_equal. by eapply best_candidate_unique.
    + split; [by intros [tag ?]|]. intros Hn. destruct (Hn x). apply Hx.
  - assert (Hnone : ∀ impl, ¬ candidate impls request override allow impl).
    { intros impl [Hi Hch]%chooses_candidate. apply list_elem_of_In in Hi.
      pose proof (List.find_none _ _ Ef _ Hi). congruence. }
    split; [|split; [done|by eexists]]. intros impl. split; [done|]. intros [Hi _]. by destruct (Hnone impl).
Qed.

Lemma new_KernelRegistry_inv (impls : list KernelImplementation) (reg : KernelRegistry) :
  new_KernelRegistry impls = Ok reg →
  reg = mk_registry impls ∧ NoDup (qualified_name <$> impls) ∧
  ∀ impl, impl ∈ impls → check_implementation impl = Ok tt.
Proof.
  unfold new_KernelRegistry. case_bool_decide as Hnd; simpl; [|done].
  destruct (map_result check_implementation impls) as [us|] eqn:E; simpl; [|done]. intros [= <-].
  split_and!; [done..|]. intros impl Hi. apply map_result_Forall2 in E.
  apply list_elem_of_lookup in Hi as [i Hi].
  destruct (Forall2_lookup_l _ _ _ _ _ E Hi) as ([] & _ & Hu). done.
Qed.

(** C32. Selection is exact.  In a registry that its constructor accepted, and
    for a request on which no capability predicate raises, [select] returns an
    implementation if and only if it is registered for the operation, passes
    every gate (reference opt-in, backend, architecture, graph capture,
    workspace, predicate, format signature), has the overriding name if there
    is one, and precedes every other such implementation by descending
    priority, then name.  It raises [KernelSelectionError] if and only if there
    is no such implementation. *)
Theorem select_spec (impls : list KernelImplementation) (reg : KernelRegistry)
    (request : KernelRequest) (override : option string) (allow_reference : bool) :
  new_KernelRegistry impls = Ok reg → 0 ≤ kr_workspace_bytes request → checks_return impls request →
  (∀ impl, select reg request override allow_reference = Ok impl ↔
     best_candidate impls request override allow_reference impl) ∧
  ((∃ tag, select reg request override allow_reference = Err (KernelSelectionError tag)) ↔
     ∀ impl, ¬ candidate impls request override allow_reference impl).
Proof. intros (-> & Hnd & _)%new_KernelRegistry_inv. by apply select_best. Qed.

(** A selection does not depend on the order of registration. *)
Lemma select_permutation (impls impls' : list KernelImplementation) (request : KernelRequest)
    (override : option string) (allow_reference : bool) (impl : KernelImplementation) :
  impls ≡ₚ impls' → NoDup (qualified_name <$> impls) → 0 ≤ kr_workspace_bytes request →
  checks_return impls request →
  select (mk_registry impls) request override allow_reference = Ok impl ↔
  select (mk_registry impls') request override allow_reference = Ok impl.
Proof.
  intros Hp Hnd Hw Hc.
  assert (Hnd' : NoDup (qualified_name <$> impls')) by (by rewrite <- Hp).
  assert (Hc' : checks_return impls' request) by (intros i Hi; apply Hc; by rewrite Hp).
  rewrite (proj1 (select_best _ _ _ _ Hnd Hw Hc) impl), (proj1 (select_best _ _ _ _ Hnd' Hw Hc') impl).
  unfold best_candidate, candidate. by setoid_rewrite Hp.
Qed.

(** ** Constructors and bands *)

(** ["module:name"] with both names non-empty and free of colons. *)
Definition names_attribute (entrypoint module name : string) : Prop :=
  entrypoint = (module +:+ String ":" name) ∧ module ≠ EmptyString ∧ name ≠ EmptyString ∧
  (":"%char ∉ String.list_ascii_of_string module) ∧ (":"%char ∉ String.list_ascii_of_string name).

Lemma names_attribute_unpack (entrypoint module name : string) :
  names_attribute entrypoint module name → unpack_entrypoint entrypoint = Ok (module, name).
Proof.
  intros (-> & _ & _ & Hm & Hn). unfold unpack_entrypoint.
  by rewrite (str_split_cons _ _ _ Hm), (str_split_one _ _ Hn).
Qed.

Lemma valid_entrypoint_spec (entrypoint : string) :
  valid_entrypoint entrypoint = true ↔ ∃ module name, names_attribute entrypoint module name.
Proof.
  unfold valid_entrypoint. rewrite andb_true_iff, Nat.eqb_eq. split.
  - intros [Hl Hf]. destruct (str_split ":"%char entrypoint) as [|m [|n [|]]] eqn:E; try done.
    simpl in Hf. rewrite !andb_true_iff, !bool_decide_eq_true in Hf. destruct Hf as (Hm & Hn & _).
    apply str_split_inv in E as [Hcm [[? _]|(r & -> & E)]]; [done|].
    apply str_split_inv in E as [Hcn [[_ ->]|(r' & _ & E)]].
    + by exists m, n.
    + clear -E. destruct r'; simpl in E; [done|]. case_decide; [done|]. by destruct (str_split _ r').
  - intros (m & n & -> & Hm & Hn & Hcm & Hcn). rewrite (str_split_cons _ _ _ Hcm), (str_split_one _ _ Hcn).
    split; [done|]. simpl. by rewrite !bool_decide_true.
Qed.

Lemma check_implementation_ok (impl : KernelImplementation) :
  check_implementation impl = Ok tt ↔
  valid_entrypoint (ki_entrypoint impl) = true ∧
  (∀ entrypoint, ki_weight_preprocessor impl = Some entrypoint → valid_entrypoint entrypoint = true) ∧
  0 ≤ ki_workspace_bytes impl ∧ 0 ≤ ki_priority impl < 20.
Proof.
  unfold check_implementation. rewrite !require_bind, require_ok, negb_true_iff, Z.ltb_ge, andb_true_iff,
    Z.leb_le, Z.ltb_lt. unfold PRIORITY_MAX.
  apply and_iff_compat_l, and_iff_compat_r. destruct (ki_weight_preprocessor impl); naive_solver.
Qed.

(** What a registry may hold.  The constructor accepts exactly the lists
    in which no operation has two implementations of one name, every
    workspace and priority is in range, and every entry point names an
    attribute of a module; for these [load] asks for just that attribute (it
    cannot fail to unpack), and an entry point is not resolved otherwise. *)
Theorem new_KernelRegistry_spec (impls : list KernelImplementation) :
  (new_KernelRegistry impls = Ok (mk_registry impls) ↔
   NoDup (qualified_name <$> impls) ∧
   ∀ impl, impl ∈ impls →
     (∃ module name, names_attribute (ki_entrypoint impl) module name ∧
        ∀ Callable (attribute : string → string → result Callable),
          load attribute impl = attribute module name) ∧
     (∀ entrypoint, ki_weight_preprocessor impl = Some entrypoint →
        ∃ module name, names_attribute entrypoint module name) ∧
     0 ≤ ki_workspace_bytes impl ∧ 0 ≤ ki_priority impl < 20) ∧
  (new_KernelRegistry impls ≠ Ok (mk_registry impls) → ∃ tag, new_KernelRegistry impls = Err (ValueError tag)).
Proof.
  split; [split|].
  - intros (_ & Hnd & Hall)%new_KernelRegistry_inv. split; [done|]. intros impl Hi.
    apply Hall, check_implementation_ok in Hi as (He & Hw & ? & ?).
    apply valid_entrypoint_spec in He as (m & n & He). split_and!; try lia.
    + exists m, n. split; [done|]. intros Callable attribute. unfold load.
      by rewrite (names_attribute_unpack _ _ _ He).
    + intros e Hp. by apply valid_entrypoint_spec, Hw.
  - intros [Hnd Hall]. unfold new_KernelRegistry. rewrite bool_decide_true by done. simpl.
    rewrite (map_result_ok _ (λ _, tt)); [done|]. intros impl Hi.
    destruct (Hall impl Hi) as ((m & n & He & _) & Hp & ? & ?). apply check_implementation_ok.
    split_and!; try lia.
    + apply valid_entrypoint_spec. by exists m, n.
    + intros e Hpe. by apply valid_entrypoint_spec, Hp.
  - unfold new_KernelRegistry. case_bool_decide; simpl; [|by eexists].
    destruct (map_result check_implementation impls) as [us|e] eqn:E; simpl; [done|]. intros _.
    eapply map_result_error in E as (impl & _ & E). unfold check_implementation, require in E.
    repeat case_match; simplify_eq/=; by eexists.
Qed.

Lemma band_of_spec (value : Z) :
  0 ≤ value → priority_value (band_of value) ≤ value ∧
  ∀ band, priority_value band ≤ value → priority_value band ≤ priority_value (band_of value).
Proof.
  intros Hv. unfold band_of, Priority_members, later_band.
  rewrite !filter_cons. repeat case_decide; cbn in *; try lia; (split; [cbn; lia|]); intros []; cbn; lia.
Qed.
