(* ===== verification/Registrations.v ===== *)
(** * The production registries (torch_ops/*_registry.py)

    The kernels registered for the expert GEMV, the MoE combine, sparse and
    dense MLA attention and the vendored AMD operators: their capability
    predicates, format signatures and priorities, and what selection does on
    them.  Paths are relative to [src/src/python/vkernels]. *)

From S2P Require Import Prelude PyText Registry.
From Stdlib Require Import Ascii SpecFloat.
Local Open Scope Z_scope.

(** ** Python's [int] *)

(** [int(f)] truncates towards zero. *)
Definition int_of_float (f : spec_float) : result Z :=
  match f with
  | S754_zero _ => Ok 0
  | S754_infinity _ => Err (OverflowError "cannot convert float infinity to integer")
  | S754_nan => Err (ValueError "cannot convert float NaN to integer")
  | S754_finite sign m e =>
      let magnitude := if 0 <=? e then Zpos m * 2 ^ e else Zpos m / 2 ^ (- e) in
      Ok (if sign then - magnitude else magnitude)
  end.

Definition py_int (v : ParamValue) : result Z :=
  match v with
  | PInt z => Ok z
  | PFloat f => int_of_float f
  | PStr s => int_of_str s
  | PBool b => Ok (if b then 1 else 0)
  end.

(** [dict(request.parameters).get(key, d)] *)
Definition param_get (request : KernelRequest) (key : string) (d : ParamValue) : ParamValue :=
  default d (dict_get (foldl (λ acc kv, dict_set acc kv.1 kv.2) [] (kr_parameters request)) key).

(** ** Shared predicates

    [device.split(":")[0]] *)
Definition device_kind (tensor : TensorMetadata) : string :=
  match str_split ":"%char (tm_device tensor) with kind :: _ => kind | [] => EmptyString end.

Definition GPU_DEVICES : list string := ["cuda"; "hip"; "rocm"].

(** The loop over [request.tensors] that stops at the first tensor not on a GPU. *)
Definition gpu_check (request : KernelRequest) : result (list string) :=
  Ok (reject_if (existsb (λ t, bool_decide (device_kind t ∉ GPU_DEVICES)) (kr_tensors request))
        "GPU-resident tensors required").

(** ** expert_gemv_registry.py *)
Definition EXPERT_GEMV_SIGNATURES : FormatSignature :=
  mk_signature ["x"; "weights"; "scales"; "indices"]
    [{["bfloat16"]}; {["float8_e4m3fn"; "float8_e4m3fnuz"]}; {["float32"]}; {["int64"]}] "dense".

Definition t_cap (request : KernelRequest) : result Z :=
  cap ← py_int (param_get request "t_cap" (PInt 2)); Ok (Z.max 2 cap).

Definition expert_check (request : KernelRequest) : result (list string) :=
  match kr_tensors request with
  | [x; weights; scales; indices] =>
      match tm_shape weights, tm_shape indices with
      | [e; o; i], [t; k] =>
          cap ← t_cap request;
          Ok (reject_if ((Z.min (Z.min e o) i <=? 0) || negb (o `mod` 128 =? 0) ||
                         negb (i `mod` 128 =? 0) || (cap <? t))
                ("requires positive block-128 dimensions and T<=" +:+ fmt cap) ++
              reject_if (bool_decide (tm_shape x ∉ [[t; i]; [t; k; i]]) ||
                         bool_decide (tm_shape scales ≠ [e; o / 128; i / 128]))
                "activation or block-scale shape mismatch" ++
              reject_if (existsb (λ tensor, bool_decide (tm_device tensor ≠ tm_device x))
                           (kr_tensors request))
                "inputs must share a device" ++
              reject_if (existsb (λ tensor, negb (tm_contiguous tensor)) (kr_tensors request))
                "inputs must be contiguous")
      | _, _ => Ok ["expected weights [E,O,I] and indices [T,K]"]
      end
  | _ => Ok ["expected activations, weights, scales and expert indices"]
  end.

Definition expert_gpu (request : KernelRequest) : result (list string) :=
  reasons ← expert_check request;
  Ok (reasons ++
      match kr_tensors request with
      | x :: _ => reject_if (bool_decide (device_kind x ≠ "cuda")) "GPU inputs required"
      | [] => []
      end).

(** [if len(request.tensors) == 4 and request.tensors[1].dtype != dtype] *)
Definition weight_dtype_differs (request : KernelRequest) (dtype : string) : bool :=
  match kr_tensors request with
  | [_; weights; _; _] => bool_decide (tm_dtype weights ≠ dtype)
  | _ => false
  end.

Definition expert_native (request : KernelRequest) : result (list string) :=
  reasons ← expert_gpu request;
  Ok (reasons ++ reject_if (weight_dtype_differs request "float8_e4m3fn")
                   "native CUDA decoding requires E4M3FN storage").

Definition expert_reference (request : KernelRequest) : result (list string) :=
  reasons ← expert_check request;
  Ok (reasons ++ reject_if (weight_dtype_differs request "float8_e4m3fn")
                   "reference oracle requires E4M3FN storage").

Definition expert_check_fnuz (request : KernelRequest) : result (list string) :=
  reasons ← expert_gpu request;
  Ok (reasons ++ reject_if (weight_dtype_differs request "float8_e4m3fnuz")
                   "fnuz variant requires in-place converted E4M3FNUZ storage").

Definition cuda_native : KernelImplementation :=
  mk_impl "expert_gemv" "cuda_native" "vkernels.torch_ops.glm_expert_gemv:_launch_native"
    expert_native "triton_cuda" (priority_value SPECIALIZED) [] true 0 false
    (Some EXPERT_GEMV_SIGNATURES) None.

Definition portable : KernelImplementation :=
  mk_impl "expert_gemv" "portable" "vkernels.torch_ops.glm_expert_gemv:_launch_portable"
    expert_gpu "triton" (priority_value PORTABLE) [] true 0 false
    (Some EXPERT_GEMV_SIGNATURES) None.

Definition portable_fnuz : KernelImplementation :=
  mk_impl "expert_gemv" "portable_fnuz" "vkernels.torch_ops.glm_expert_gemv:_launch_portable"
    expert_check_fnuz "triton" (priority_value PORTABLE + 1) [] true 0 false
    (Some EXPERT_GEMV_SIGNATURES)
    (Some "vkernels.torch_ops.glm_fp8_blockwise_gemm:e4m3fn_to_fnuz_inplace").

Definition expert_torch_reference : KernelImplementation :=
  mk_impl "expert_gemv" "torch_reference" "vkernels.torch_ops.glm_expert_gemv:expert_gemv_reference"
    expert_reference "torch" 0 [] false 0 true None None.

Definition EXPERT_GEMV_IMPLEMENTATIONS : list KernelImplementation :=
  [cuda_native; portable; portable_fnuz; expert_torch_reference].

(** ** moe_combine_registry.py *)
Definition MOE_COMBINE_SIGNATURE : FormatSignature :=
  mk_signature ["activations"; "weights"] [{["bfloat16"; "float16"; "float32"]}; {["float32"]}] "dense".

Definition combine_check (request : KernelRequest) : result (list string) :=
  Ok match kr_tensors request with
     | [out; weights] =>
         reject_if (negb (length (tm_shape out) =? 3)%nat || negb (length (tm_shape weights) =? 2)%nat ||
                    bool_decide (take 2 (tm_shape out) ≠ tm_shape weights))
           "expected activations [T,K,H] and weights [T,K]" ++
         match tm_shape out with
         | [_; _; h] => reject_if (h <=? 0) "hidden dimension must be positive"
         | _ => []
         end ++
         reject_if (bool_decide (tm_device out ≠ tm_device weights)) "inputs must share a device"
     | _ => ["expected activation and weight metadata"]
     end.

Definition combine_check_triton (request : KernelRequest) : result (list string) :=
  reasons ← combine_check request;
  Ok (reasons ++
      match kr_tensors request with
      | out :: _ => reject_if (bool_decide (device_kind out ≠ "cuda"))
                      "CUDA-resident inputs required (including torch HIP devices)"
      | [] => []
      end).

Definition MOE_COMBINE_IMPLEMENTATIONS : list KernelImplementation :=
  [mk_impl "moe_weighted_sum" "triton" "vkernels.torch_ops.moe_combine:_moe_weighted_sum_triton"
     combine_check_triton "triton" (priority_value PERFORMANT) [] true 0 false
     (Some MOE_COMBINE_SIGNATURE) None;
   mk_impl "moe_weighted_sum" "torch_reference" "vkernels.torch_ops.moe_combine:moe_weighted_sum_reference"
     combine_check "torch" 0 [] false 0 true (Some MOE_COMBINE_SIGNATURE) None].

(** ** dsa_registry.py *)
Definition ATTN_DTYPES : gset string :=
  {["bfloat16"; "float16"; "float8_e4m3fn"; "float8_e5m2"; "float8_e4m3fnuz"]}.

Definition dsa_check (request : KernelRequest) : result (list string) :=
  match kr_tensors request with
  | [q; _] | [q; _; _] =>
      gpu ← gpu_check request;
      Ok (match tm_shape q with
          | [_; heads; dim] =>
              reject_if ((dim <=? 0) || (heads <=? 0)) "q heads and head dim must be positive"
          | _ => ["q must be [tokens, H, lora+rope]"]
          end ++ gpu)
  | _ => Ok []
  end.

Definition DSA_SIGNATURE : FormatSignature :=
  mk_signature ["q"; "kv"] [ATTN_DTYPES; ATTN_DTYPES] "paged".

Definition dsa_impl (name entrypoint : string) : KernelImplementation :=
  mk_impl "dsa_attention" name entrypoint dsa_check "triton" (priority_value PORTABLE) [] true 0 false
    (Some DSA_SIGNATURE) None.

Definition DSA_IMPLEMENTATIONS : list KernelImplementation :=
  [dsa_impl "triton_dense_kv" "vkernels.torch_ops.tokenspeed_dsa:triton_dsa_prefill";
   dsa_impl "triton_packed_kv" "vkernels.torch_ops.tokenspeed_dsa:triton_dsa_decode"].

(** ** mla_registry.py *)
Definition paged_layout_check (request : KernelRequest) : result (list string) := gpu_check request.

Definition MLA_PREFILL_SIGNATURE : FormatSignature :=
  mk_signature ["q"; "k"; "v"] [ATTN_DTYPES; ATTN_DTYPES; ATTN_DTYPES] "dense".

Definition MLA_DECODE_SIGNATURE : FormatSignature :=
  mk_signature ["q"; "kv_cache"] [ATTN_DTYPES; ATTN_DTYPES] "paged".

Definition kv_head_grouping (request : KernelRequest) : result (list string) :=
  match kr_tensors request with
  | [q; k; _] =>
      q_heads ← py_index (tm_shape q) 1;
      kv_heads ← py_index (tm_shape k) 1;
      Ok (reject_if (negb (kv_heads =? 0) && negb (q_heads `mod` kv_heads =? 0))
            ("num_q_heads (" +:+ fmt q_heads +:+ ") must be divisible by num_kv_heads (" +:+
             fmt kv_heads +:+ ")"))
  | _ => Ok []
  end.

Definition MLA_PREFILL_IMPLEMENTATIONS : list KernelImplementation :=
  [mk_impl "mla_prefill" "triton" "vkernels.torch_ops.tokenspeed_mla:triton_mla_prefill"
     kv_head_grouping "triton" (priority_value PORTABLE) [] true 0 false
     (Some MLA_PREFILL_SIGNATURE) None].

Definition decode_shapes (request : KernelRequest) : result (list string) :=
  Ok match kr_tensors request with
     | [q; kv] =>
         match tm_shape q with
         | [_; q_len; _; _] => reject_if (negb (q_len =? 1)) "triton MLA decode supports q_len == 1"
         | _ => ["q must be [B, 1, H, lora+rope]"]
         end ++
         reject_if (negb (existsb (Nat.eqb (length (tm_shape kv))) [3; 4]%nat))
           "kv_cache must be 3-D or 4-D paged latent cache"
     | _ => []
     end.

Definition MLA_DECODE_IMPLEMENTATIONS : list KernelImplementation :=
  [mk_impl "mla_decode" "triton" "vkernels.torch_ops.tokenspeed_mla:triton_mla_decode_with_kvcache"
     decode_shapes "triton" (priority_value PORTABLE) [] true 0 false
     (Some MLA_DECODE_SIGNATURE) None].

Definition MLA_IMPLEMENTATIONS : list KernelImplementation :=
  MLA_PREFILL_IMPLEMENTATIONS ++ MLA_DECODE_IMPLEMENTATIONS.

(** ** tokenspeed_amd_registry.py *)
Definition FLOAT_DTYPES : gset string := {["float16"; "bfloat16"; "float32"]}.

Definition amd_impl (operation name entrypoint : string) (check : KernelRequest → result (list string))
    (signature : FormatSignature) : KernelImplementation :=
  mk_impl operation name ("vkernels.torch_ops.tokenspeed_amd." +:+ entrypoint) check "gluon"
    (priority_value PORTABLE) [] true 0 false (Some signature) None.

Definition router_check (request : KernelRequest) : result (list string) :=
  gpu ← gpu_check request;
  Ok (gpu ++
      match kr_tensors request with
      | [] => []
      | logits :: _ =>
          match tm_shape logits with
          | [_; experts] =>
              reject_if (negb ((0 <? experts) && (experts <=? 1024))) "num_experts must be in (0, 1024]"
          | _ => ["router logits must be [M, E]"]
          end
      end).

Definition ROUTER_TOPK_SIGNATURE : FormatSignature := mk_signature ["logits"] [FLOAT_DTYPES] "dense".

Definition ROUTER_TOPK_IMPLEMENTATIONS : list KernelImplementation :=
  [amd_impl "router_topk" "gluon-softmax" "routing:invoke_softmax_topk_route_gluon"
     router_check ROUTER_TOPK_SIGNATURE;
   amd_impl "router_topk" "gluon-sigmoid-bias" "routing:invoke_sigmoid_bias_topk_route_gluon"
     router_check ROUTER_TOPK_SIGNATURE].

Definition sorting_check (request : KernelRequest) : result (list string) :=
  gpu ← gpu_check request;
  Ok (gpu ++
      match kr_tensors request with
      | [ids; weights] =>
          reject_if (bool_decide (tm_shape ids ≠ tm_shape weights) ||
                     negb (length (tm_shape ids) =? 2)%nat)
            "topk_ids/topk_weights must be matching [M, TOPK]"
      | _ => ["moe sorting needs (topk_ids, topk_weights)"]
      end).

Definition MOE_SORTING_SIGNATURE : FormatSignature :=
  mk_signature ["topk_ids"; "topk_weights"] [{["int32"]}; {["float32"]}] "dense".

Definition MOE_SORTING_IMPLEMENTATIONS : list KernelImplementation :=
  [amd_impl "moe_sorting" "gluon" "moe_sorting:gluon_moe_sorting" sorting_check MOE_SORTING_SIGNATURE].

Definition argmax_check (request : KernelRequest) : result (list string) :=
  gpu ← gpu_check request;
  Ok (gpu ++
      match kr_tensors request with
      | [] => []
      | logits :: _ =>
          reject_if (negb (length (tm_shape logits) =? 2)%nat) "argmax logits must be [M, N]"
      end).

Definition SAMPLING_ARGMAX_SIGNATURE : FormatSignature := mk_signature ["logits"] [FLOAT_DTYPES] "dense".

Definition SAMPLING_ARGMAX_IMPLEMENTATIONS : list KernelImplementation :=
  [amd_impl "sampling_argmax" "gluon" "argmax:launch_gluon_argmax_gfx950"
     argmax_check SAMPLING_ARGMAX_SIGNATURE].

Definition hadamard_check (request : KernelRequest) : result (list string) :=
  gpu ← gpu_check request;
  Ok (gpu ++
      match kr_tensors request with
      | [] => []
      | x :: _ =>
          reject_if (bool_decide (last (tm_shape x) ≠ Some 128))
            "hadamard_128 requires contiguous length-128 rows"
      end).

Definition HADAMARD_TRANSFORM_SIGNATURE : FormatSignature :=
  mk_signature ["x"] [{["bfloat16"; "float16"; "float32"]}] "dense".

Definition HADAMARD_TRANSFORM_IMPLEMENTATIONS : list KernelImplementation :=
  [amd_impl "hadamard_transform" "gluon-128" "hadamard:launch_gluon_hadamard_transform_128_gfx950"
     hadamard_check HADAMARD_TRANSFORM_SIGNATURE].

Definition mhc_check (request : KernelRequest) : result (list string) :=
  gpu ← gpu_check request;
  Ok (gpu ++
      match kr_tensors request with
      | _ :: _ :: residual :: layer_input :: _ =>
          match tm_shape residual with
          | [tokens; streams; hidden] =>
              if negb (streams =? 4) then ["mhc residual must be [tokens, 4, hidden]"]
              else if bool_decide (hidden ∉ [4096; 7168]) then
                ["mhc gluon specialization requires hidden 4096 or 7168"]
              else reject_if (64 <? tokens)
                     "mhc gluon specialization is decode-shaped (<=64 tokens)"
          | _ => ["mhc residual must be [tokens, 4, hidden]"]
          end ++
          reject_if (negb (length (tm_shape layer_input) =? 2)%nat)
            "mhc layer_input must be [tokens, hidden]"
      | _ => []
      end).

Definition MHC_PRE_SIGNATURE : FormatSignature :=
  mk_signature ["gemm_out_mul"; "gemm_out_sqrsum"; "residual"; "layer_input"]
    [FLOAT_DTYPES; FLOAT_DTYPES; FLOAT_DTYPES; {["bfloat16"]}] "dense".

Definition MHC_PRE_IMPLEMENTATIONS : list KernelImplementation :=
  [amd_impl "mhc_pre" "gluon" "mhc:gluon_mhc_pre_reduce_apply_gfx950" mhc_check MHC_PRE_SIGNATURE].

Definition TOKENSPEED_AMD_IMPLEMENTATIONS : list KernelImplementation :=
  ROUTER_TOPK_IMPLEMENTATIONS ++ MOE_SORTING_IMPLEMENTATIONS ++ SAMPLING_ARGMAX_IMPLEMENTATIONS ++
  HADAMARD_TRANSFORM_IMPLEMENTATIONS ++ MHC_PRE_IMPLEMENTATIONS.

Definition PRODUCTION_REGISTRIES : list (list KernelImplementation) :=
  [EXPERT_GEMV_IMPLEMENTATIONS; MOE_COMBINE_IMPLEMENTATIONS; DSA_IMPLEMENTATIONS;
   MLA_PREFILL_IMPLEMENTATIONS; MLA_DECODE_IMPLEMENTATIONS; MLA_IMPLEMENTATIONS;
   ROUTER_TOPK_IMPLEMENTATIONS; MOE_SORTING_IMPLEMENTATIONS; SAMPLING_ARGMAX_IMPLEMENTATIONS;
   HADAMARD_TRANSFORM_IMPLEMENTATIONS; MHC_PRE_IMPLEMENTATIONS; TOKENSPEED_AMD_IMPLEMENTATIONS].

Definition PRODUCTION_SIGNATURES : list FormatSignature :=
  [EXPERT_GEMV_SIGNATURES; MOE_COMBINE_SIGNATURE; DSA_SIGNATURE; MLA_PREFILL_SIGNATURE;
   MLA_DECODE_SIGNATURE; ROUTER_TOPK_SIGNATURE; MOE_SORTING_SIGNATURE; SAMPLING_ARGMAX_SIGNATURE;
   HADAMARD_TRANSFORM_SIGNATURE; MHC_PRE_SIGNATURE].

(** What the expert GEMV kernels read: block-128 FP8 weights [[E, O, I]] with
    their scales, and at most [cap] rows, all contiguous on one device. *)
Definition gemv_operands (cap : Z) (x weights scales indices : TensorMetadata) : Prop :=
  ∃ e o i t k,
    tm_shape weights = [e; o; i] ∧ tm_shape indices = [t; k] ∧
    (0 < e ∧ 0 < o ∧ 0 < i) ∧ ((128 | o) ∧ (128 | i)) ∧ t ≤ cap ∧
    (tm_shape x = [t; i] ∨ tm_shape x = [t; k; i]) ∧
    tm_shape scales = [e; o / 128; i / 128] ∧
    Forall (λ tensor, tm_device tensor = tm_device x) [weights; scales; indices] ∧
    Forall (λ tensor, tm_contiguous tensor = true) [x; weights; scales; indices].

Definition gemv_launchable (request : KernelRequest) (cap : Z) (storage : string) : Prop :=
  ∃ x weights scales indices,
    kr_tensors request = [x; weights; scales; indices] ∧
    gemv_operands cap x weights scales indices ∧ device_kind x = "cuda" ∧
    tm_dtype x = "bfloat16" ∧ tm_dtype weights = storage ∧
    tm_dtype scales = "float32" ∧ tm_dtype indices = "int64".

(** ** Lemmas *)
Lemma existsb_negb_Forall {A} (P : A → Prop) `{∀ x, Decision (P x)} (l : list A) :
  existsb (λ x, bool_decide (¬ P x)) l = false ↔ Forall P l.
Proof.
  induction l as [|x l IH]; simpl; [by rewrite Forall_nil|].
  rewrite orb_false_iff, bool_decide_eq_false, IH, Forall_cons.
  apply and_iff_compat_r. split; [apply dec_stable|auto].
Qed.

Lemma existsb_contiguous (l : list TensorMetadata) :
  existsb (λ tensor, negb (tm_contiguous tensor)) l = false ↔
  Forall (λ tensor, tm_contiguous tensor = true) l.
Proof.
  induction l as [|x l IH]; simpl; [by rewrite Forall_nil|].
  by rewrite orb_false_iff, negb_false_iff, IH, Forall_cons.
Qed.

Lemma mod_128_divide (n : Z) : negb (n `mod` 128 =? 0) = false ↔ (128 | n).
Proof. rewrite negb_false_iff, Z.eqb_eq. apply Z.mod_divide. lia. Qed.

Lemma expert_check_nil (request : KernelRequest) (cap : Z) :
  t_cap request = Ok cap →
  expert_check request = Ok [] ↔
  ∃ x weights scales indices,
    kr_tensors request = [x; weights; scales; indices] ∧ gemv_operands cap x weights scales indices.
Proof.
  intros Hcap. split.
  - unfold expert_check. destruct (kr_tensors request) as [|x [|w [|s [|n [|]]]]]; try done.
    destruct (tm_shape w) as [|e [|o [|i [|]]]] eqn:Ew; try done.
    destruct (tm_shape n) as [|t [|k [|]]] eqn:En; try done.
    rewrite Hcap. cbn [mbind result_bind]. intros Hr%Ok_inj.
    apply app_nil in Hr as [H1 [H2 [H3 H4]%app_nil]%app_nil].
    apply reject_if_nil in H1, H2, H3, H4.
    rewrite !orb_false_iff, !mod_128_divide, Z.leb_gt, Z.ltb_ge in H1.
    rewrite orb_false_iff, bool_decide_eq_false in H2.
    destruct H1 as [[[? ?] ?] ?], H2 as [Hx Hs].
    exists x, w, s, n. split; [done|]. exists e, o, i, t, k. split_and!; try done; try lia.
    + apply dec_stable in Hx. set_solver.
    + apply bool_decide_eq_false in Hs. by apply dec_stable in Hs.
    + rewrite existsb_negb_Forall in H3.
      by apply Forall_cons in H3 as [_ ?].
    + by apply existsb_contiguous.
  - intros (x & w & s & n & E & e & o & i & t & k & Ew & En & Hp & [Ho Hi] & Ht & Hx & Hs & Hd & Hc).
    unfold expert_check. rewrite E, Ew, En, Hcap. cbn [mbind result_bind]. f_equal.
    rewrite !app_nil, !reject_if_nil, !orb_false_iff, !mod_128_divide, Z.leb_gt, Z.ltb_ge,
      !bool_decide_eq_false, existsb_negb_Forall.
    split_and!; try done; try lia.
    + intros Hn. apply Hn. set_solver.
    + auto.
    + by constructor.
    + by apply existsb_contiguous.
Qed.

Lemma extend_reasons_nil (m : result (list string)) (cond : bool) (reason : string) :
  (reasons ← m; Ok (reasons ++ reject_if cond reason)) = Ok [] ↔ m = Ok [] ∧ cond = false.
Proof.
  destruct m as [reasons|]; simpl; [|naive_solver]. split.
  - intros [-> ->%reject_if_nil]%Ok_inj%app_nil. done.
  - intros [->%Ok_inj ->]. done.
Qed.

Lemma expert_gpu_nil (request : KernelRequest) (cap : Z) :
  t_cap request = Ok cap →
  expert_gpu request = Ok [] ↔
  ∃ x weights scales indices,
    kr_tensors request = [x; weights; scales; indices] ∧ gemv_operands cap x weights scales indices ∧
    device_kind x = "cuda".
Proof.
  intros Hcap. unfold expert_gpu. destruct (kr_tensors request) as [|x l] eqn:E.
  - pose proof (expert_check_nil request cap Hcap) as Hc. rewrite E in Hc. split.
    + destruct (expert_check request) as [reasons|]; simpl; [|done]. rewrite app_nil_r. intros ->%Ok_inj.
      naive_solver.
    + naive_solver.
  - rewrite extend_reasons_nil, (expert_check_nil _ _ Hcap), E, bool_decide_eq_false.
    split.
    + intros [(? & w & s & n & [= <- ->] & Ho) Hd]. exists x, w, s, n. by apply dec_stable in Hd.
    + intros (? & w & s & n & [= <- ->] & Ho & Hd). split; [by exists x, w, s, n|auto].
Qed.

Lemma weight_dtype_differs_false (request : KernelRequest) (x weights scales indices : TensorMetadata)
    (dtype : string) :
  kr_tensors request = [x; weights; scales; indices] →
  weight_dtype_differs request dtype = false ↔ tm_dtype weights = dtype.
Proof.
  intros E. unfold weight_dtype_differs. rewrite E, bool_decide_eq_false.
  split; [apply dec_stable|auto].
Qed.

Lemma accepts_expert (x weights scales indices : TensorMetadata) :
  accepts EXPERT_GEMV_SIGNATURES [x; weights; scales; indices] ↔
  tm_dtype x = "bfloat16" ∧
  (tm_dtype weights = "float8_e4m3fn" ∨ tm_dtype weights = "float8_e4m3fnuz") ∧
  tm_dtype scales = "float32" ∧ tm_dtype indices = "int64".
Proof.
  unfold accepts. simpl. split.
  - intros [_ Ha].
    pose proof (Ha 0%nat _ _ eq_refl eq_refl). pose proof (Ha 1%nat _ _ eq_refl eq_refl).
    pose proof (Ha 2%nat _ _ eq_refl eq_refl). pose proof (Ha 3%nat _ _ eq_refl eq_refl). set_solver.
  - intros (? & ? & ? & ?). split; [done|].
    intros [|[|[|[|i]]]] accepted tensor Hd Ht; simplify_eq/=; set_solver.
Qed.

Section gemv_choice.
Context (request : KernelRequest) (cap : Z).
Hypothesis operation : kr_operation request = "expert_gemv".
Hypothesis workspace : 0 ≤ kr_workspace_bytes request.
Hypothesis converts : t_cap request = Ok cap.

(** The registered GPU kernels differ in backend, predicate and rank only. *)
Lemma gemv_chooses (name entrypoint backend : string) (check : KernelRequest → result (list string))
    (priority : Z) (preprocessor : option string) :
  chooses request None false
    (mk_impl "expert_gemv" name entrypoint check backend priority [] true 0 false
       (Some EXPERT_GEMV_SIGNATURES) preprocessor) = true ↔
  backend ∈ kr_backends request ∧ check request = Ok [] ∧
  accepts EXPERT_GEMV_SIGNATURES (kr_tensors request).
Proof using operation workspace.
  rewrite chooses_eligible. split.
  - intros [[_ _ Hb _ _ _ Hc Hs] _]. split_and!; [done..|]. by apply Hs.
  - intros (Hb & Hc & Hs). split; [|done]. split; try done; [by left|]. by intros sig [= <-].
Qed.

Lemma gemv_storage (check : KernelRequest → result (list string)) (storages : string → Prop) :
  (∀ x w s n, kr_tensors request = [x; w; s; n] →
     check request = Ok [] ↔ expert_gpu request = Ok [] ∧ storages (tm_dtype w)) →
  (check request = Ok [] → expert_gpu request = Ok []) →
  check request = Ok [] ∧ accepts EXPERT_GEMV_SIGNATURES (kr_tensors request) ↔
  ∃ storage, storages storage ∧ (storage = "float8_e4m3fn" ∨ storage = "float8_e4m3fnuz") ∧
    gemv_launchable request cap storage.
Proof using converts.
  intros Hc Hgpu. split.
  - intros [Hr Ha]. destruct (proj1 (expert_gpu_nil _ _ converts) (Hgpu Hr)) as (x & w & s & n & E & Ho & Hd).
    rewrite E in Ha. apply accepts_expert in Ha as (? & ? & ? & ?). apply (Hc _ _ _ _ E) in Hr as [_ Hr].
    exists (tm_dtype w). split_and!; [done..|]. by exists x, w, s, n.
  - intros (storage & Hst & Hin & x & w & s & n & E & Ho & Hd & ? & <- & ? & ?). split.
    + apply (Hc _ _ _ _ E). split; [|done]. apply (expert_gpu_nil _ _ converts). by exists x, w, s, n.
    + rewrite E. by apply accepts_expert.
Qed.

Lemma chooses_native :
  chooses request None false cuda_native = true ↔
  "triton_cuda" ∈ kr_backends request ∧ gemv_launchable request cap "float8_e4m3fn".
Proof using operation workspace converts.
  unfold cuda_native. rewrite gemv_chooses. apply and_iff_compat_l.
  rewrite (gemv_storage _ (λ st, st = "float8_e4m3fn")); [naive_solver| |].
  - intros x w s n E. unfold expert_native.
    by rewrite extend_reasons_nil, (weight_dtype_differs_false _ _ _ _ _ _ E).
  - unfold expert_native. by intros [? _]%extend_reasons_nil.
Qed.

Lemma chooses_fnuz :
  chooses request None false portable_fnuz = true ↔
  "triton" ∈ kr_backends request ∧ gemv_launchable request cap "float8_e4m3fnuz".
Proof using operation workspace converts.
  unfold portable_fnuz. rewrite gemv_chooses. apply and_iff_compat_l.
  rewrite (gemv_storage _ (λ st, st = "float8_e4m3fnuz")); [naive_solver| |].
  - intros x w s n E. unfold expert_check_fnuz.
    by rewrite extend_reasons_nil, (weight_dtype_differs_false _ _ _ _ _ _ E).
  - unfold expert_check_fnuz. by intros [? _]%extend_reasons_nil.
Qed.

Lemma chooses_portable :
  chooses request None false portable = true ↔
  "triton" ∈ kr_backends request ∧
  (gemv_launchable request cap "float8_e4m3fn" ∨ gemv_launchable request cap "float8_e4m3fnuz").
Proof using operation workspace converts.
  unfold portable. rewrite gemv_chooses. apply and_iff_compat_l.
  rewrite (gemv_storage _ (λ _, True)); naive_solver.
Qed.

Lemma chooses_reference : chooses request None false expert_torch_reference = false.
Proof using Type.
  destruct (chooses _ _ _ _) eqn:E; [|done]. apply chooses_eligible in E as [[_ Hr _ _ _ _ _ _] _].
  by specialize (Hr eq_refl).
Qed.

Lemma gemv_checks_return : checks_return EXPERT_GEMV_IMPLEMENTATIONS request.
Proof using converts.
  assert (Hx : is_ok (expert_check request) = true).
  { unfold expert_check. repeat case_match; rewrite ?converts; done. }
  assert (Hg : is_ok (expert_gpu request) = true).
  { unfold expert_gpu. by destruct (expert_check request). }
  intros impl Hi _. unfold EXPERT_GEMV_IMPLEMENTATIONS in Hi.
  repeat (apply elem_of_cons in Hi as [->|Hi]); [..|by apply not_elem_of_nil in Hi]; cbn [ki_check].
  - cbn. unfold expert_native. by destruct (expert_gpu request).
  - done.
  - cbn. unfold expert_check_fnuz. by destruct (expert_gpu request).
  - cbn. unfold expert_reference. by destruct (expert_check request).
Qed.
End gemv_choice.

(** Which expert GEMV kernel runs.  Without an override or the reference
    opt-in, and when the [t_cap] parameter converts to an integer, [select]
    returns a kernel if and only if the operands are launchable (shapes,
    block-128 dimensions, row cap, one CUDA device, contiguous, dtypes): the
    native kernel for E4M3FN storage when its backend is present, otherwise
    the portable kernel, and the kernel that declares the load-time rewrite
    for E4M3FNUZ storage. *)
Theorem expert_gemv_selection (request : KernelRequest) (cap : Z) (impl : KernelImplementation) :
  kr_operation request = "expert_gemv" → 0 ≤ kr_workspace_bytes request → t_cap request = Ok cap →
  select (mk_registry EXPERT_GEMV_IMPLEMENTATIONS) request None false = Ok impl ↔
  (gemv_launchable request cap "float8_e4m3fn" ∧
     ("triton_cuda" ∈ kr_backends request ∧ impl = cuda_native ∨
      ("triton_cuda" ∉ kr_backends request) ∧ "triton" ∈ kr_backends request ∧ impl = portable)) ∨
  (gemv_launchable request cap "float8_e4m3fnuz" ∧ "triton" ∈ kr_backends request ∧
     impl = portable_fnuz).
Proof.
  intros Hop Hw Hcap. rewrite select_find by eauto using gemv_checks_return.
  change (stable_sort impl_le EXPERT_GEMV_IMPLEMENTATIONS)
    with [cuda_native; portable_fnuz; portable; expert_torch_reference].
  cbn [List.find]. rewrite (chooses_reference request).
  pose proof (chooses_native request cap Hop Hw Hcap) as Hn.
  pose proof (chooses_fnuz request cap Hop Hw Hcap) as Hf.
  pose proof (chooses_portable request cap Hop Hw Hcap) as Hp.
  assert (Hex : gemv_launchable request cap "float8_e4m3fn" →
                gemv_launchable request cap "float8_e4m3fnuz" → False).
  { intros (x & w & s & n & E & _ & _ & _ & Hst & _) (x' & w' & s' & n' & E' & _ & _ & _ & Hst' & _).
    rewrite E in E'. simplify_eq. congruence. }
  revert Hn Hf Hp Hex. clear. intros Hn Hf Hp Hex.
  destruct (chooses request None false cuda_native),
    (chooses request None false portable_fnuz), (chooses request None false portable);
    cbn [of_option]; destruct (decide ("triton_cuda" ∈ kr_backends request)) as [Hd|Hd];
    (split; [first [intros [= <-]|done]
            |intros [[? [[? ->]|(? & ? & ->)]]|(? & ? & ->)]]);
    try reflexivity; try (exfalso; intuition congruence); intuition congruence.
Qed.

Definition example_request : KernelRequest :=
  mk_request "expert_gemv"
    [mk_metadata [2; 256] "bfloat16" "cuda:0" true;
     mk_metadata [8; 128; 256] "float8_e4m3fn" "cuda:0" true;
     mk_metadata [8; 1; 2] "float32" "cuda:0" true;
     mk_metadata [2; 4] "int64" "cuda:0" true]
    "sm90" {["triton"]} true 0 [("t_cap", PStr " 1_6 ")].

Lemma expert_gemv_selection_witness :
  t_cap example_request = Ok 16 ∧
  select (mk_registry EXPERT_GEMV_IMPLEMENTATIONS) example_request None false = Ok portable.
Proof.
  split; [vm_compute; reflexivity|].
  apply (expert_gemv_selection example_request 16 portable); [reflexivity|done|vm_compute; reflexivity|].
  left. split.
  - do 4 eexists. split; [reflexivity|]. split; [|split_and!; reflexivity].
    exists 8, 128, 256, 2, 4. split_and!; try done; try (by left); try (by repeat constructor).
    by exists 2.
  - right. split_and!; [set_solver|set_solver|done].
Defined.

(** The registry's promise on the same request. *)
Lemma select_spec_witness :
  best_candidate EXPERT_GEMV_IMPLEMENTATIONS example_request (Some "portable") true portable.
Proof.
  apply (proj1 (select_spec EXPERT_GEMV_IMPLEMENTATIONS (mk_registry EXPERT_GEMV_IMPLEMENTATIONS)
    example_request (Some "portable") true ltac:(reflexivity) ltac:(done)
    ltac:(apply (gemv_checks_return _ 16); vm_compute; reflexivity)) portable).
  reflexivity.
Defined.

(** Every registry and signature of the package passes the checks of its
    constructor, so importing the registry modules does not raise. *)
Theorem production_registries_valid :
  Forall (λ impls, new_KernelRegistry impls = Ok (mk_registry impls)) PRODUCTION_REGISTRIES ∧
  Forall (λ sig, new_FormatSignature (fs_roles sig) (fs_dtypes sig) (fs_layout sig) = Ok sig)
    PRODUCTION_SIGNATURES.
Proof. split; repeat constructor. Qed.

(** ** Kernels that cannot be selected *)

(** Two implementations with the same gates: without an override, the later
    one is never selected. *)
Lemma shadowed_never_selected (impls : list KernelImplementation) (request : KernelRequest)
    (allow : bool) (a b : KernelImplementation) :
  NoDup (qualified_name <$> impls) → 0 ≤ kr_workspace_bytes request → checks_return impls request →
  a ∈ impls → ¬ impl_le b a →
  (eligible request allow b → eligible request allow a) →
  select (mk_registry impls) request None allow ≠ Ok b.
Proof.
  intros Hnd Hw Hc Ha Hle Hab Hs.
  apply (proj1 (select_best impls request None allow Hnd Hw Hc)) in Hs as [(_ & Hb & _) Hbest].
  apply Hle, Hbest. split_and!; auto. by intros.
Qed.

(** The packed-KV launcher has the gates of the dense-KV launcher, whose name
    is smaller: only an override reaches it. *)
Lemma dsa_packed_never_selected (request : KernelRequest) (allow : bool) (impl : KernelImplementation) :
  0 ≤ kr_workspace_bytes request →
  select (mk_registry DSA_IMPLEMENTATIONS) request None allow = Ok impl → ki_name impl = "triton_dense_kv".
Proof.
  intros Hw Hs. set (packed := dsa_impl "triton_packed_kv" "vkernels.torch_ops.tokenspeed_dsa:triton_dsa_decode").
  assert (Hnd : NoDup (qualified_name <$> DSA_IMPLEMENTATIONS)) by (by apply (bool_decide_unpack _); vm_compute).
  assert (Hc : checks_return DSA_IMPLEMENTATIONS request).
  { assert (Hd : is_ok (dsa_check request) = true) by (unfold dsa_check; by repeat case_match).
    intros i Hi _. unfold DSA_IMPLEMENTATIONS in Hi.
    by repeat (apply elem_of_cons in Hi as [->|Hi]); [..|apply not_elem_of_nil in Hi]. }
  assert (impl ≠ packed).
  { intros ->. revert Hs. eapply shadowed_never_selected; [done..|left| |].
    - by intros [|[_ ?]].
    - intros []. by split. }
  apply (proj1 (select_best _ _ _ _ Hnd Hw Hc)) in Hs as [(Hi & _) _].
  by apply elem_of_cons in Hi as [->|[->|?%not_elem_of_nil]%elem_of_cons].
Qed.

(** A rank-1 query is not rejected with a reason: the predicate raises. *)
Lemma mla_prefill_rank1_raises (q k v : TensorMetadata) (n : Z) (request : KernelRequest) :
  kr_operation request = "mla_prefill" → 0 ≤ kr_workspace_bytes request →
  kr_tensors request = [q; k; v] → tm_shape q = [n] →
  ∃ tag, select (mk_registry MLA_PREFILL_IMPLEMENTATIONS) request None false = Err (IndexError tag).
Proof.
  intros Hop Hw Ht Hq. unfold select, explain. rewrite (proj2 (Z.ltb_ge _ _) Hw). simpl.
  unfold explain_step, candidate_reasons, kv_head_grouping. simpl.
  rewrite bool_decide_false by auto. rewrite Ht, Hq. by eexists.
Qed.

(** The paged-layout predicate is not part of any registration, so a decode
    request on host tensors is accepted. *)
Lemma mla_decode_accepts_host_tensors :
  ki_name <$> select (mk_registry MLA_DECODE_IMPLEMENTATIONS)
    (mk_request "mla_decode"
       [mk_metadata [1; 1; 16; 576] "bfloat16" "cpu" true; mk_metadata [4; 64; 576] "bfloat16" "cpu" true]
       "unknown" {["triton"]} false 0 []) None false = Ok "triton".
Proof. vm_compute. reflexivity. Qed.
