(* ===== verification/TuningCache.v ===== *)
(** * The op-config cache (tuning/cache.py)

    Launch configurations are resolved once per (operator, device, source
    fingerprint, shape class), frozen in a process memo and kept in a JSON
    store shared by processes.  Paths are relative to
    [src/src/python/vkernels].  A call is a computation over the state of one
    process and the disk.  What the code asks of its environment (variables,
    clock, capture state, whether the store can be written, the device) is the
    record [Env], fixed during a call; the source fingerprint, a hash of files,
    is an argument.  The benchmark is an argument that may answer differently
    at every call.  The [bench] block of a record and the log lines, which no
    code reads, are not modelled. *)

From S2P Require Import Prelude PyText.
From Stdlib Require Import Ascii SpecFloat.
Local Open Scope Z_scope.

(** ** JSON values

    As [json.loads] returns them: an object is a dictionary in insertion
    order, a number with a point or exponent a binary64 value. *)
Inductive json : Type :=
  | JNull
  | JBool (b : bool)
  | JInt (z : Z)
  | JFloat (f : spec_float)
  | JStr (s : string)
  | JArr (l : list json)
  | JObj (d : list (string * json)).

Abbreviation config := (dict string json).

#[export] Instance spec_float_eq_dec : EqDecision spec_float.
Proof. solve_decision. Defined.

Definition entry_le (a b : string * json) : Prop := String.le a.1 b.1.
#[export] Instance entry_le_dec : RelDecision entry_le.
Proof. unfold entry_le. intros a b. apply _. Defined.

(** A value written with [sort_keys=True] and read back. *)
Fixpoint canonical (v : json) : json :=
  match v with
  | JArr l => JArr (map canonical l)
  | JObj d => JObj (stable_sort entry_le (map (λ kv, match kv with (k, w) => (k, canonical w) end) d))
  | _ => v
  end.

(** [v.get(key)]: only a dictionary has the method. *)
Definition jget (v : json) (key : string) : result json :=
  match v with
  | JObj d => Ok (default JNull (dict_get d key))
  | _ => Err (AttributeError "get")
  end.

Definition is_dict (v : json) : bool := match v with JObj _ => true | _ => false end.

Definition is_str (v : json) (s : string) : bool :=
  match v with JStr t => bool_decide (t = s) | _ => false end.

(** [v or d] *)
Definition jor (v d : json) : json :=
  match v with
  | JNull | JBool false | JStr EmptyString | JArr [] | JObj [] | JFloat (S754_zero _) => d
  | JInt z => if z =? 0 then d else v
  | _ => v
  end.

(** [dict(v)] of a value that is true: the entries of an object, or an
    iterable of pairs.  A key that is no string is accepted by [dict], but then
    writing the sorted keys raises the same exception. *)
Definition entry_of (v : json) : result (string * json) :=
  match v with
  | JArr [JStr k; w] => Ok (k, w)
  | JArr [_; _] => Err (TypeError "key is not a string")
  | JStr (String a (String b EmptyString)) => Ok (String a EmptyString, JStr (String b EmptyString))
  | JObj [(k, _); (k', _)] => Ok (k, JStr k')
  | JArr _ | JStr _ | JObj _ => Err (ValueError "dictionary update sequence element")
  | _ => Err (TypeError "cannot convert dictionary update sequence element")
  end.

Definition py_dict (v : json) : result (dict string json) :=
  match v with
  | JObj d => Ok d
  | JArr l => kws ← map_result entry_of l; Ok (foldl (λ d kw, dict_set d kw.1 kw.2) [] kws)
  | JStr _ => Err (ValueError "dictionary update sequence element")
  | _ => Err (TypeError "object is not iterable")
  end.

(** [d.update(e)] *)
Definition dict_update (d e : dict string json) : dict string json :=
  foldl (λ d kw, dict_set d kw.1 kw.2) d e.

(** ** Environment and state *)
Record Device : Type := mk_device {
  dv_capability : option string;
  dv_sm_count : option Z;
  dv_name : option string;
  dv_software : json
}.

Abbreviation identity := (option string * option Z * option string)%type.

Record Env : Type := mk_env {
  env_cache : string;                          (* VKERNELS_CACHE, empty when unset *)
  env_home : string;                           (* Path.home() *)
  env_budget : option (result spec_float);     (* float() of VKERNELS_CACHE_BUDGET_MS, if not blank *)
  env_clock : nat → spec_float;                (* the readings of time.monotonic() *)
  env_capturing : bool;
  env_writable : bool;                         (* mkdir and the lock raise no OSError *)
  env_arch : Device;
  env_now : string
}.

(** A file that cannot be read or parsed, or the JSON value it holds. *)
Inductive file : Type := FUnreadable | FJson (doc : json).

Abbreviation path := (string * string)%type.   (* directory, file name *)
Abbreviation memo_key := (string * identity * string * string)%type.

Record Process : Type := mk_process {
  pr_memo : gmap memo_key (config * string);                    (* _MEMO *)
  pr_files : gmap (string * string * path) (dict string json);  (* _FILES *)
  pr_disk : gmap path file;
  pr_benched : list config;                                     (* benchmark calls so far *)
  pr_ticks : nat                                                (* clock readings so far *)
}.

Definition set_memo (m : gmap memo_key (config * string)) (s : Process) : Process :=
  mk_process m (pr_files s) (pr_disk s) (pr_benched s) (pr_ticks s).
Definition set_files (f : gmap (string * string * path) (dict string json)) (s : Process) : Process :=
  mk_process (pr_memo s) f (pr_disk s) (pr_benched s) (pr_ticks s).
Definition set_disk (d : gmap path file) (s : Process) : Process :=
  mk_process (pr_memo s) (pr_files s) d (pr_benched s) (pr_ticks s).
Definition log_bench (c : config) (s : Process) : Process :=
  mk_process (pr_memo s) (pr_files s) (pr_disk s) (pr_benched s ++ [c]) (pr_ticks s).
Definition tick (s : Process) : Process :=
  mk_process (pr_memo s) (pr_files s) (pr_disk s) (pr_benched s) (S (pr_ticks s)).

Definition SCHEMA : string := "vk-op-config-cache/1".
Definition TUNED : string := "tuned".
Definition SEEDED : string := "seeded".
Definition DEFAULT : string := "default".
Definition OFF : string := "off".
Definition CAPTURE : string := "capture".

Definition float_of_Z (z : Z) : spec_float := binary_normalize 53 1024 z 0 false.
Definition DEFAULT_BUDGET_MS : spec_float := float_of_Z 2000.

(** A configuration argument: a dictionary of JSON values, a dictionary that
    [json.dumps] rejects, or no dictionary at all. *)
Inductive argument : Type := ADict (c : config) | AOpaque | ANotDict.

Definition dumps (a : argument) : result config :=
  match a with
  | ADict c => Ok c
  | AOpaque => Err (TypeError "not JSON serializable")
  | ANotDict => Err (TypeError "not a config dict")
  end.

(** ** The store *)
Section cache.
Context (env : Env).

Definition enabled : bool :=
  bool_decide (String.string_of_list_ascii
    (lower (strip (String.list_ascii_of_string (env_cache env)))) ≠ "off").

Definition store_root (store_dir : option string) : string :=
  match store_dir with
  | Some dir => dir
  | None =>
      let env_dir := strip_str (env_cache env) in
      if bool_decide (env_dir ≠ EmptyString) then env_dir
      else env_home env +:+ "/.cache/vkernels"
  end.

(** [override] is already a float. *)
Definition tune_budget (override : option spec_float) : result spec_float :=
  match override, env_budget env with
  | Some b, _ => Ok b
  | None, Some b => b
  | None, None => Ok DEFAULT_BUDGET_MS
  end.

Definition identity_key (d : Device) : identity := (dv_capability d, dv_sm_count d, dv_name d).

Definition keep_char (c : ascii) : bool :=
  let n := N_of_ascii c in
  ((48 <=? n)%N && (n <=? 57)%N) || ((65 <=? n)%N && (n <=? 90)%N) || ((97 <=? n)%N && (n <=? 122)%N) ||
  bool_decide (c ∈ ["."%char; "_"%char; "-"%char]).

Definition sanitize (name : string) : string :=
  String.string_of_list_ascii
    ((λ c, if keep_char c then c else "-"%char) <$> String.list_ascii_of_string name).

Definition store_path (op : string) (d : Device) (store_dir : option string) : path :=
  let capability := match dv_capability d with
                    | None | Some EmptyString => "unknown"
                    | Some c => c
                    end in
  (store_root store_dir, sanitize op +:+ "." +:+ sanitize capability +:+ ".json").

Definition file_key (op : string) (d : Device) (store_dir : option string) : string * string * path :=
  (op, default "None" (dv_capability d), store_path op d store_dir).

Definition read_records (f : option file) : result (dict string json) :=
  match f with
  | None | Some FUnreadable => Ok []
  | Some (FJson doc) =>
      schema ← jget doc "schema";
      records ← jget doc "records";
      Ok (if is_str schema SCHEMA then match records with JObj d => d | _ => [] end else [])
  end.

Definition load_records (op : string) (d : Device) (store_dir : option string) :
    M Process (dict string json) :=
  s ← get_state;
  let key := file_key op d store_dir in
  match pr_files s !! key with
  | Some records => mret records
  | None =>
      records ← lift (read_records (pr_disk s !! store_path op d store_dir));
      _ ← modify (λ s, set_files (<[key := records]> (pr_files s)) s);
      mret records
  end.

Definition opt_str (o : option string) : json := match o with Some s => JStr s | None => JNull end.
Definition opt_int (o : option Z) : json := match o with Some z => JInt z | None => JNull end.

Definition identity_entries (i : identity) : dict string json :=
  [("capability", opt_str i.1.1); ("sm_count", opt_int i.1.2); ("name", opt_str i.2)].

Definition device_json (d : Device) : json :=
  JObj (identity_entries (identity_key d) ++ [("software", dv_software d)]).

(** The records on disk that a writer merges into. *)
Definition disk_records (f : option file) : result (dict string json) :=
  match f with
  | None | Some FUnreadable => Ok []
  | Some (FJson doc) =>
      schema ← jget doc "schema";
      if is_str schema SCHEMA then
        records ← jget doc "records";
        py_dict (jor records (JObj []))
      else Ok []
  end.

Definition store_doc (op : string) (d : Device) (records : dict string json) : json :=
  JObj [("schema", JStr SCHEMA); ("op", JStr op); ("device", device_json d);
        ("records", JObj records); ("updated", JStr (env_now env))].

Definition write_records (op : string) (d : Device) (records : dict string json)
    (store_dir : option string) : M Process bool :=
  if negb (env_writable env) then mret false
  else
    s ← get_state;
    disk ← lift (disk_records (pr_disk s !! store_path op d store_dir));
    let merged := dict_update disk records in
    _ ← modify (λ s, set_disk (<[store_path op d store_dir := FJson (canonical (store_doc op d merged))]>
                                (pr_disk s)) s);
    _ ← modify (λ s, set_files (<[file_key op d store_dir := merged]> (pr_files s)) s);
    mret true.

Definition make_record (c : config) (status : string) (time_ms : json) (d : Device) (fp origin : string) :
    json :=
  JObj [("config", JObj c); ("status", JStr status); ("time_ms", time_ms);
        ("device", JObj (identity_entries (identity_key d))); ("source", JStr fp);
        ("tuned_at", JStr (env_now env)); ("origin", JStr origin)].

Definition persist (op shape_class : string) (d : Device) (fp : string) (c : config) (status : string)
    (time_ms : json) (store_dir : option string) : M Process unit :=
  _ ← write_records op d [(shape_class, make_record c status time_ms d fp "op-config-tune")] store_dir;
  mret tt.

(** ** Resolution *)

(** Python equality of a stored JSON value with an int or [None], or a string. *)
Definition int_value (v : json) : option Z :=
  match v with
  | JInt z => Some z
  | JBool b => Some (if b then 1 else 0)
  | JFloat (S754_zero _) => Some 0
  | JFloat (S754_finite sign m e) =>
      let signed := if sign then Zneg m else Zpos m in
      if 0 <=? e then Some (signed * 2 ^ e)
      else if signed `mod` 2 ^ (- e) =? 0 then Some (signed / 2 ^ (- e)) else None
  | _ => None
  end.

Definition is_opt_str (v : json) (o : option string) : bool :=
  match o, v with None, JNull => true | Some s, _ => is_str v s | _, _ => false end.
Definition is_opt_int (v : json) (o : option Z) : bool :=
  match o, v with None, JNull => true | Some z, _ => bool_decide (int_value v = Some z) | _, _ => false end.

Definition same_identity (stored : json) (i : identity) : result bool :=
  capability ← jget stored "capability";
  sm_count ← jget stored "sm_count";
  name ← jget stored "name";
  Ok (is_opt_str capability i.1.1 && is_opt_int sm_count i.1.2 && is_opt_str name i.2).

(** The configuration and status of a record that is valid for this build and device. *)
Definition store_hit (record : option json) (fp : string) (d : Device) :
    result (option (config * string)) :=
  match record with
  | None | Some JNull => Ok None
  | Some record =>
      source ← jget record "source";
      if negb (is_str source fp) then Ok None
      else
        device ← jget record "device";
        same ← same_identity (jor device (JObj [])) (identity_key d);
        status ← jget record "status";
        c ← jget record "config";
        Ok match status, c with
           | JStr status, JObj c =>
               if same && bool_decide (status ∈ [TUNED; SEEDED; DEFAULT]) then Some (c, status) else None
           | _, _ => None
           end
  end.

Definition monotonic : M Process spec_float := λ s, (Ok (env_clock env (pr_ticks s)), tick s).

(** [(now - t0) * 1e3] *)
Definition elapsed_ms (now t0 : spec_float) : spec_float :=
  SFmul 53 1024 (SFsub 53 1024 now t0) (float_of_Z 1000).

Definition is_finite (f : spec_float) : bool :=
  match f with S754_infinity _ | S754_nan => false | _ => true end.

(** One call of the benchmark; [bench i c] is the answer of the [i]-th call of the process. *)
Definition run_bench (bench : nat → config → result spec_float) (c : config) :
    M Process (result spec_float) :=
  λ s, (Ok (bench (length (pr_benched s)) c), log_bench c s).

Record Sweep : Type := mk_sweep {
  sw_winner : option config;
  sw_winner_ms : spec_float;
  sw_exhausted : bool
}.

Definition measure (sw : Sweep) (c : config) (ms : spec_float) : Sweep :=
  if SFltb ms (sw_winner_ms sw) then mk_sweep (Some c) ms (sw_exhausted sw) else sw.

(** [not math.isfinite(ms) or ms <= 0], negated. *)
Definition usable (ms : spec_float) : bool := is_finite ms && negb (SFleb ms (S754_zero false)).

Fixpoint sweep_loop (bench : nat → config → result spec_float) (limit t0 : spec_float)
    (cands : list config) (sw : Sweep) : M Process Sweep :=
  match cands with
  | [] => mret sw
  | cand :: cands =>
      now ← monotonic;
      if SFleb limit (elapsed_ms now t0) then mret (mk_sweep (sw_winner sw) (sw_winner_ms sw) true)
      else
        outcome ← run_bench bench cand;
        match outcome with
        | Ok ms => sweep_loop bench limit t0 cands (if usable ms then measure sw cand ms else sw)
        | Err _ => sweep_loop bench limit t0 cands sw
        end
  end.

Definition resolve (op shape_class : string) (dflt : argument) (candidates : list argument)
    (bench : option (nat → config → result spec_float)) (fp : string) (d : Device)
    (budget_ms : option spec_float) (store_dir : option string) : M Process (config * string) :=
  dflt ← lift (dumps dflt);
  cands ← lift (map_result dumps candidates);
  if negb enabled then mret (dflt, OFF)
  else if env_capturing env then mret (dflt, CAPTURE)
  else
    records ← load_records op d store_dir;
    hit ← lift (store_hit (dict_get records shape_class) fp d);
    match hit, cands, bench with
    | Some resolved, _, _ => mret resolved
    | None, _ :: _, Some bench =>
        limit ← lift (tune_budget budget_ms);
        t0 ← monotonic;
        sw ← sweep_loop bench limit t0 cands (mk_sweep None (S754_infinity false) false);
        _ ← monotonic;
        match sw_exhausted sw, sw_winner sw with
        | false, Some winner =>
            _ ← persist op shape_class d fp winner TUNED (JFloat (sw_winner_ms sw)) store_dir;
            mret (winner, TUNED)
        | _, _ =>
            _ ← persist op shape_class d fp dflt DEFAULT JNull store_dir;
            mret (dflt, DEFAULT)
        end
    | None, _, _ =>
        _ ← persist op shape_class d fp dflt DEFAULT JNull store_dir;
        mret (dflt, DEFAULT)
    end.

Definition memo_key_of (op : string) (d : Device) (fp shape_class : string) : memo_key :=
  (op, identity_key d, fp, shape_class).

Definition op_config (op shape_class : string) (dflt : argument) (candidates : list argument)
    (bench : option (nat → config → result spec_float)) (fp : string)
    (budget_ms : option spec_float) (store_dir : option string) (device : option Device) :
    M Process (config * string) :=
  _ ← guard_m (match dflt with ANotDict => false | _ => true end)
        (TypeError "default must be a config dict");
  let d := default (env_arch env) device in
  let key := memo_key_of op d fp shape_class in
  s ← get_state;
  match pr_memo s !! key with
  | Some hit => mret hit
  | None =>
      resolved ← resolve op shape_class dflt candidates bench fp d budget_ms store_dir;
      _ ← modify (λ s, set_memo (<[key := resolved]> (pr_memo s)) s);
      mret resolved
  end.

(** [reset_memo(op)]; without an operator everything is forgotten. *)
Definition reset_memo (op : option string) (s : Process) : Process :=
  set_memo match op with
           | None => ∅
           | Some op => filter (λ kv, kv.1.1.1.1 ≠ op) (pr_memo s)
           end s.

(** ** Seeding *)
Record Entry : Type := mk_entry {
  en_config : option config;
  en_time_ms : json;
  en_origin : option string
}.

Definition seed_step (fp producer : string) (d : Device) (force : bool)
    (st : dict string json * dict string json) (kv : string * Entry) :
    result (dict string json * dict string json) :=
  let (shape_class, entry) := kv in
  tuned ← match dict_get st.1 shape_class with
          | None | Some JNull => Ok false
          | Some existing => status ← jget existing "status"; Ok (is_str status TUNED)
          end;
  if tuned && negb force then Ok st
  else
    c ← of_option (KeyError "config") (en_config entry);
    let origin := match en_origin entry with None | Some EmptyString => producer | Some o => o end in
    let record := make_record c SEEDED (en_time_ms entry) d fp origin in
    Ok (dict_set st.1 shape_class record, dict_set st.2 shape_class record).

Definition seed (op : string) (entries : list (string * Entry)) (fp producer : string)
    (store_dir : option string) (device : option Device) (force : bool) :
    M Process (dict string json) :=
  let d := default (env_arch env) device in
  if negb enabled then mret []
  else
    loaded ← load_records op d store_dir;
    st ← lift (fold_result (seed_step fp producer d force) (loaded, []) entries);
    written ← (if bool_decide (st.2 = []) then mret false else write_records op d st.2 store_dir);
    _ ← modify (λ s, if written : bool then reset_memo (Some op) s else s);
    mret st.1.

Definition stored_records (op : string) (store_dir : option string) (device : option Device) :
    M Process (dict string json) :=
  load_records op (default (env_arch env) device) store_dir.
End cache.

(** ** Frames *)
Definition same_memo (s s' : Process) : Prop := pr_memo s' = pr_memo s.

#[export] Instance same_memo_refl : Reflexive same_memo.
Proof. by intros s. Qed.
#[export] Instance same_memo_trans : Transitive same_memo.
Proof. unfold same_memo. intros s1 s2 s3 H1 H2. congruence. Qed.

(** Nothing that others can see: no benchmark, no clock reading, no write. *)
Definition unobserved (s s' : Process) : Prop :=
  pr_disk s' = pr_disk s ∧ pr_benched s' = pr_benched s ∧ pr_ticks s' = pr_ticks s.

#[export] Instance unobserved_refl : Reflexive unobserved.
Proof. by intros s. Qed.
#[export] Instance unobserved_trans : Transitive unobserved.
Proof. unfold unobserved. intros s1 s2 s3 (? & ? & ?) (? & ? & ?). split_and!; congruence. Qed.

Create HintDb cache.

(** One step of a frame proof along the code. *)
Ltac keeps_steps :=
  repeat match goal with
  | |- keeps _ (mbind _ _) => apply keeps_bind; [apply _| |intros ?]
  | |- keeps _ (modify _) => apply keeps_modify; intros ?; done
  | |- keeps _ (if ?b then _ else _) => destruct b
  | |- keeps _ (match ?x with _ => _ end) => destruct x
  | |- keeps _ _ => first
      [ apply keeps_ret; apply _ | apply keeps_lift; apply _ | apply keeps_get; apply _
      | apply keeps_guard; apply _ | solve [eauto with cache] ]
  end.

Section frames.
Context (env : Env).

Lemma load_records_memo (op : string) (d : Device) (dir : option string) :
  keeps same_memo (load_records env op d dir).
Proof. unfold load_records. keeps_steps. Qed.

Lemma load_records_unobserved (op : string) (d : Device) (dir : option string) :
  keeps unobserved (load_records env op d dir).
Proof. unfold load_records. keeps_steps. Qed.

Lemma write_records_memo (op : string) (d : Device) (records : dict string json) (dir : option string) :
  keeps same_memo (write_records env op d records dir).
Proof. unfold write_records. keeps_steps. Qed.

Lemma persist_memo (op sc : string) (d : Device) (fp : string) (c : config) (status : string)
    (time_ms : json) (dir : option string) :
  keeps same_memo (persist env op sc d fp c status time_ms dir).
Proof. unfold persist. keeps_steps. apply write_records_memo. Qed.

Lemma monotonic_memo : keeps same_memo (monotonic env).
Proof. by intros s. Qed.

Lemma run_bench_memo (bench : nat → config → result spec_float) (c : config) :
  keeps same_memo (run_bench bench c).
Proof. by intros s. Qed.

Lemma sweep_loop_memo (bench : nat → config → result spec_float) (limit t0 : spec_float)
    (cands : list config) (sw : Sweep) :
  keeps same_memo (sweep_loop env bench limit t0 cands sw).
Proof.
  revert sw. induction cands as [|c cands IH]; intros sw; cbn [sweep_loop]; keeps_steps;
    auto using monotonic_memo, run_bench_memo.
Qed.
#[local] Hint Resolve load_records_memo persist_memo monotonic_memo sweep_loop_memo : cache.

Lemma resolve_memo (op sc : string) (dflt : argument) (candidates : list argument)
    (bench : option (nat → config → result spec_float)) (fp : string) (d : Device)
    (budget : option spec_float) (dir : option string) :
  keeps same_memo (resolve env op sc dflt candidates bench fp d budget dir).
Proof. unfold resolve. keeps_steps. Qed.
End frames.

(** ** The memo *)

Lemma not_dict_dec (a : argument) : a = ANotDict ∨ a ≠ ANotDict.
Proof. destruct a; auto. Qed.

(** A call is a lookup, or a resolution that adds its own key. *)
Section op_config.
Context (env : Env) (op sc : string) (dflt : argument) (candidates : list argument)
  (bench : option (nat → config → result spec_float)) (fp : string)
  (budget : option spec_float) (dir : option string) (device : option Device) (s : Process).
Let d := default (env_arch env) device.
Let key := memo_key_of op d fp sc.
Let call := op_config env op sc dflt candidates bench fp budget dir device.
Let miss := resolve env op sc dflt candidates bench fp d budget dir.

Lemma op_config_eq :
  dflt ≠ ANotDict →
  call s = match pr_memo s !! key with
           | Some hit => (Ok hit, s)
           | None => match miss s with
                     | (Ok r, s') => (Ok r, set_memo (<[key := r]> (pr_memo s')) s')
                     | (Err e, s') => (Err e, s')
                     end
           end.
Proof using Type.
  intros Hd. subst call miss key. unfold op_config. fold d.
  assert (Hg : (match dflt with ANotDict => false | _ => true end) = true) by (by destruct dflt).
  rewrite Hg. unfold guard_m, lift, get_state, mbind, M_bind. cbn [require].
  destruct (pr_memo s !! _); [done|]. by destruct (resolve _ _ _ _ _ _ _ _ _ _ s) as [[]].
Qed.

Lemma op_config_memo (k : memo_key) (r : config * string) :
  pr_memo s !! k = Some r → pr_memo (call s).2 !! k = Some r.
Proof using Type.
  intros Hk. destruct (not_dict_dec dflt) as [E|Hd].
  { subst call. unfold op_config. by rewrite E. }
  rewrite (op_config_eq Hd). destruct (pr_memo s !! key) eqn:Em; [done|].
  pose proof (resolve_memo env op sc dflt candidates bench fp d budget dir s) as Hm. fold miss in Hm.
  destruct (miss s) as [[x|err] s1]; unfold same_memo in Hm; simpl in *; [|by rewrite Hm].
  rewrite lookup_insert_ne by congruence. by rewrite Hm.
Qed.

Lemma op_config_hit (r : config * string) :
  dflt ≠ ANotDict → pr_memo s !! key = Some r → call s = (Ok r, s).
Proof using Type. intros Hd Hk. by rewrite (op_config_eq Hd), Hk. Qed.

Lemma op_config_memoised (s' : Process) (r : config * string) :
  call s = (Ok r, s') → pr_memo s' !! key = Some r.
Proof using Type.
  destruct (not_dict_dec dflt) as [E|Hd].
  { subst call. unfold op_config. by rewrite E. }
  rewrite (op_config_eq Hd). destruct (pr_memo s !! key) eqn:Em; [by intros [= <- <-]|].
  destruct (miss s) as [[x|err] s1]; intros [= <- <-]. by apply lookup_insert_eq.
Qed.
End op_config.

(** What can happen between two calls of a serving process: calls for any
    operator, seeds for other operators, reads, and writes of other processes. *)
Inductive serving (op : string) : Process → Process → Prop :=
  | serving_op_config env op' sc dflt candidates bench fp budget dir device s :
      serving op s (op_config env op' sc dflt candidates bench fp budget dir device s).2
  | serving_seed env op' entries fp producer dir device force s :
      op' ≠ op → serving op s (seed env op' entries fp producer dir device force s).2
  | serving_stored_records env op' dir device s :
      serving op s (stored_records env op' dir device s).2
  | serving_other_process disk s : serving op s (set_disk disk s).

Lemma seed_memo (env : Env) (op : string) (entries : list (string * Entry)) (fp producer : string)
    (dir : option string) (device : option Device) (force : bool) (s : Process) (k : memo_key)
    (r : config * string) :
  k.1.1.1 ≠ op → pr_memo s !! k = Some r →
  pr_memo (seed env op entries fp producer dir device force s).2 !! k = Some r.
Proof.
  intros Hk Hs. unfold seed. destruct (negb (enabled env)); [done|]. unfold mbind, M_bind.
  pose proof (load_records_memo env op (default (env_arch env) device) dir s) as Hl.
  destruct (load_records _ _ _ _ s) as [[l|] s1]; unfold same_memo in Hl; simpl in *; [|by rewrite Hl].
  destruct (fold_result _ _ entries) as [st|]; simpl; [|by rewrite Hl].
  case_bool_decide; simpl; [by rewrite Hl|].
  pose proof (write_records_memo env op (default (env_arch env) device) st.2 dir s1) as Hw.
  destruct (write_records _ _ _ _ _ s1) as [[[]|] s2]; unfold same_memo in Hw; simpl in *;
    rewrite ?Hw, ?Hl; try done.
  by apply map_lookup_filter_Some.
Qed.

Lemma serving_memo (op : string) (s s' : Process) (k : memo_key) (r : config * string) :
  serving op s s' → k.1.1.1 = op → pr_memo s !! k = Some r → pr_memo s' !! k = Some r.
Proof.
  intros [] Hk Hs.
  - by apply op_config_memo.
  - apply seed_memo; [congruence|done].
  - unfold stored_records. by rewrite (load_records_memo _ _ _ _ _).
  - done.
Qed.

(** A resolved configuration is frozen.  Once [op_config] has returned a
    configuration for an operator, shape class, fingerprint and device, then
    after any number of further calls for any operator, seeds for other
    operators, reads of the store and writes of other processes, every call
    with that key returns the same configuration and status, whatever its
    other arguments and environment, and changes nothing: it runs no
    benchmark, reads no clock and writes no file. *)
Theorem op_config_frozen (env env' : Env) (op sc : string) (dflt dflt' : argument)
    (candidates candidates' : list argument)
    (bench bench' : option (nat → config → result spec_float)) (fp : string)
    (budget budget' : option spec_float) (dir dir' : option string) (device device' : option Device)
    (s s1 s2 : Process) (r : config * string) :
  op_config env op sc dflt candidates bench fp budget dir device s = (Ok r, s1) →
  rtc (serving op) s1 s2 →
  identity_key (default (env_arch env') device') = identity_key (default (env_arch env) device) →
  dflt' ≠ ANotDict →
  op_config env' op sc dflt' candidates' bench' fp budget' dir' device' s2 = (Ok r, s2).
Proof.
  intros Hc%op_config_memoised Hr Hid Hd. apply op_config_hit; [done|].
  unfold memo_key_of in *. rewrite Hid.
  induction Hr as [|s1 s1' s2 Hs Hr IH]; [done|]. apply IH. by eapply serving_memo.
Qed.

(** ** Capture and the off switch *)
Lemma map_result_dicts (cs : list config) : map_result dumps (ADict <$> cs) = Ok cs.
Proof. rewrite (proj2 (map_result_Forall2 dumps (ADict <$> cs) cs)); [done|]. induction cs; by constructor. Qed.

(** The capture contract.  While a graph capture is active, or with the
    cache switched off, [op_config] runs no benchmark, reads no clock and
    neither reads nor writes the store: it answers with the memo or, for a
    JSON default and candidates, with the declared default at once. *)
Theorem op_config_inert (env : Env) (op sc : string) (dflt : config) (candidates : list argument)
    (bench : option (nat → config → result spec_float)) (fp : string)
    (budget : option spec_float) (dir : option string) (device : option Device) (s : Process) :
  env_capturing env = true ∨ enabled env = false →
  let key := memo_key_of op (default (env_arch env) device) fp sc in
  let (r, s') := op_config env op sc (ADict dflt) candidates bench fp budget dir device s in
  pr_disk s' = pr_disk s ∧ pr_files s' = pr_files s ∧ pr_benched s' = pr_benched s ∧
  pr_ticks s' = pr_ticks s ∧
  (AOpaque ∉ candidates → ANotDict ∉ candidates →
   r = Ok (default (dflt, if enabled env then CAPTURE else OFF) (pr_memo s !! key))).
Proof.
  intros Hinert key. rewrite op_config_eq by done. fold key.
  destruct (pr_memo s !! key) as [hit|] eqn:Em; [done|].
  assert (Hr : resolve env op sc (ADict dflt) candidates bench fp (default (env_arch env) device) budget
                 dir s =
               match map_result dumps candidates with
               | Ok _ => (Ok (dflt, if enabled env then CAPTURE else OFF), s)
               | Err e => (Err e, s)
               end).
  { unfold resolve, lift, mbind, M_bind. cbn [dumps]. destruct (map_result dumps candidates); [|done].
    destruct (enabled env); [|done]. destruct Hinert as [->|]; done. }
  rewrite Hr. destruct (map_result dumps candidates) as [cs|e] eqn:Ec; [done|].
  split_and!; [done..|]. intros Ho Hn. apply map_result_error in Ec as (a & Ha & E). by destruct a.
Qed.

(** ** The order of measured times *)
Lemma usable_pos (ms : spec_float) : usable ms = true → ∃ m e, ms = S754_finite false m e.
Proof. destruct ms as [[]|[]| |[] m e]; try done; by eauto. Qed.

Lemma SFltb_pos (m1 m2 : positive) (e1 e2 : Z) :
  SFltb (S754_finite false m1 e1) (S754_finite false m2 e2) = true ↔
  e1 < e2 ∨ e1 = e2 ∧ (m1 < m2)%positive.
Proof.
  unfold SFltb, SFcompare. destruct (Z.compare_spec e1 e2) as [->|H|H].
  - change (Pos.compare_cont Eq m1 m2) with (m1 ?= m2)%positive.
    destruct (Pos.compare_spec m1 m2); split; try done; try lia; by auto.
  - split; [by left|done].
  - split; [done|lia].
Qed.

(** Among times that pass the checks, [<] is a strict total order, and every
    one of them beats the initial infinity. *)
Lemma usable_lt_trans (a b c : spec_float) :
  usable a = true → usable b = true → usable c = true →
  SFltb a b = true → SFltb b c = true → SFltb a c = true.
Proof.
  intros (ma & ea & ->)%usable_pos (mb & eb & ->)%usable_pos (mc & ec & ->)%usable_pos.
  rewrite !SFltb_pos. lia.
Qed.

Lemma usable_lt_of_not (a b c : spec_float) :
  usable a = true → usable b = true → usable c = true →
  SFltb c b = false → SFltb a b = true → SFltb a c = true.
Proof.
  intros (ma & ea & ->)%usable_pos (mb & eb & ->)%usable_pos (mc & ec & ->)%usable_pos.
  rewrite <- not_true_iff_false, !SFltb_pos. lia.
Qed.

Lemma usable_lt_asym (a b : spec_float) :
  usable a = true → usable b = true → SFltb a b = true → SFltb b a = false.
Proof.
  intros (ma & ea & ->)%usable_pos (mb & eb & ->)%usable_pos.
  rewrite <- not_true_iff_false, !SFltb_pos. lia.
Qed.

Lemma usable_lt_infinity (a : spec_float) : usable a = true → SFltb a (S754_infinity false) = true.
Proof. by intros (m & e & ->)%usable_pos. Qed.

Lemma usable_lt_irrefl (a : spec_float) : usable a = true → SFltb a a = false.
Proof. intros (m & e & ->)%usable_pos. rewrite <- not_true_iff_false, SFltb_pos. lia. Qed.

(** ** The sweep *)
Section sweep.
Context (bench : nat → config → result spec_float) (n : nat) (cands : list config).

(** The [i]-th candidate of the sweep was measured, at a time that counts;
    [n] benchmarks had run before the sweep. *)
Definition measured (i : nat) (ms : spec_float) : Prop :=
  ∃ c, cands !! i = Some c ∧ bench (n + i) c = Ok ms ∧ usable ms = true.

(** The [i]-th is the first of the fastest among the first [k]. *)
Definition fastest (k i : nat) (ms : spec_float) : Prop :=
  (i < k)%nat ∧ measured i ms ∧
  (∀ j ms', (j < k)%nat → measured j ms' → SFltb ms' ms = false) ∧
  (∀ j ms', (j < i)%nat → measured j ms' → SFltb ms ms' = true).

(** The running winner after [k] candidates. *)
Definition winner_after (k : nat) (sw : Sweep) : Prop :=
  match sw_winner sw with
  | None => sw_winner_ms sw = S754_infinity false ∧ ∀ i ms, (i < k)%nat → ¬ measured i ms
  | Some c => ∃ i, cands !! i = Some c ∧ fastest k i (sw_winner_ms sw)
  end.

Lemma measured_fun (i : nat) (ms ms' : spec_float) : measured i ms → measured i ms' → ms = ms'.
Proof. intros (c & Hc & Hb & _) (c' & Hc' & Hb' & _). congruence. Qed.

Lemma winner_after_skip (k : nat) (sw : Sweep) :
  (∀ ms, ¬ measured k ms) → winner_after k sw → winner_after (S k) sw.
Proof.
  unfold winner_after, fastest. intros Hk Hw. destruct (sw_winner sw).
  - destruct Hw as (i & Hi & Hlt & Hm & Hmin & Hfirst). exists i. split_and!; try done; [lia|].
    intros j ms' Hj Hm'. destruct (decide (j = k)) as [->|]; [by destruct (Hk ms')|]. apply (Hmin j); [lia|done].
  - destruct Hw as [? Hn]. split; [done|]. intros i ms Hi Hm.
    destruct (decide (i = k)) as [->|]; [by apply (Hk ms)|]. apply (Hn i ms); [lia|done].
Qed.

Lemma winner_after_measure (k : nat) (sw : Sweep) (c : config) (ms : spec_float) :
  cands !! k = Some c → bench (n + k) c = Ok ms → usable ms = true →
  winner_after k sw → winner_after (S k) (measure sw c ms).
Proof.
  intros Hc Hb Hu Hw. assert (Hk : measured k ms) by (by exists c).
  unfold winner_after, measure in *. destruct (sw_winner sw) as [c'|] eqn:Ew.
  - destruct Hw as (i & Hi & Hlt & Hm & Hmin & Hfirst). destruct (Hm) as (ci & _ & _ & Hui).
    destruct (SFltb ms (sw_winner_ms sw)) eqn:El; cbn [sw_winner sw_winner_ms].
    + exists k. split; [done|]. split_and!; [lia|done| |].
      * intros j ms' Hj Hm'. destruct (decide (j = k)) as [->|].
        { rewrite (measured_fun _ _ _ Hm' Hk). by apply usable_lt_irrefl. }
        destruct (Hm') as (cj & _ & _ & Huj). apply usable_lt_asym; [done..|].
        apply (usable_lt_of_not _ (sw_winner_ms sw)); [done..| |done]. apply (Hmin j); [lia|done].
      * intros j ms' Hj Hm'. destruct (Hm') as (cj & _ & _ & Huj).
        apply (usable_lt_of_not _ (sw_winner_ms sw)); [done..| |done]. apply (Hmin j); [lia|done].
    + rewrite Ew. exists i. split; [done|]. split_and!; [lia|done| |done].
      intros j ms' Hj Hm'. destruct (decide (j = k)) as [->|].
      { by rewrite (measured_fun _ _ _ Hm' Hk). }
      apply (Hmin j); [lia|done].
  - destruct Hw as [-> Hn]. rewrite usable_lt_infinity by done. cbn [sw_winner sw_winner_ms].
    exists k. split; [done|]. split_and!; [lia|done| |].
    + intros j ms' Hj Hm'. destruct (decide (j = k)) as [->|].
      { rewrite (measured_fun _ _ _ Hm' Hk). by apply usable_lt_irrefl. }
      destruct (Hn j ms'); [lia|done].
    + intros j ms' Hj Hm'. destruct (Hn j ms'); [lia|done].
Qed.
End sweep.

Section sweep_loop.
Context (env : Env) (bench : nat → config → result spec_float) (limit t0 : spec_float).

(** The budget is spent at the [i]-th clock reading. *)
Definition deadline (i : nat) : bool := SFleb limit (elapsed_ms (env_clock env i) t0).

Definition same_store (s s' : Process) : Prop :=
  pr_memo s' = pr_memo s ∧ pr_files s' = pr_files s ∧ pr_disk s' = pr_disk s.

Lemma sweep_loop_spec (n : nat) (cands suffix : list config) (k : nat) (sw : Sweep) (s : Process) :
  drop k cands = suffix → (k ≤ length cands)%nat → length (pr_benched s) = (n + k)%nat →
  winner_after bench n cands k sw → sw_exhausted sw = false →
  ∃ k' sw' s', sweep_loop env bench limit t0 suffix sw s = (Ok sw', s') ∧
    (k ≤ k' ≤ length cands)%nat ∧ pr_benched s' = pr_benched s ++ take (k' - k) suffix ∧
    same_store s s' ∧ winner_after bench n cands k' sw' ∧
    (sw_exhausted sw' = true ↔ (k' < length cands)%nat) ∧
    (∀ j, (k ≤ j < k')%nat → deadline (pr_ticks s + (j - k)) = false) ∧
    ((k' < length cands)%nat → deadline (pr_ticks s + (k' - k)) = true).
Proof using Type.
  revert k sw s. induction suffix as [|c suffix IH]; intros k sw s Hd Hk Hn Hw Hx.
  - exists k, sw, s. assert (k = length cands) as ->.
    { apply (f_equal length) in Hd. rewrite length_drop in Hd. simpl in Hd. lia. }
    rewrite Nat.sub_diag, take_0, app_nil_r. split_and!; try done; try lia.
    rewrite Hx. split; [done|lia].
  - cbn [sweep_loop]. unfold mbind, M_bind, monotonic, run_bench.
    change (SFleb limit (elapsed_ms (env_clock env (pr_ticks s)) t0)) with (deadline (pr_ticks s)).
    assert (Hlen : (k < length cands)%nat).
    { apply (f_equal length) in Hd. rewrite length_drop in Hd. simpl in Hd. lia. }
    destruct (deadline (pr_ticks s)) eqn:Edl.
    + exists k, (mk_sweep (sw_winner sw) (sw_winner_ms sw) true), (tick s).
      rewrite Nat.sub_diag, take_0, app_nil_r. split_and!; try done; try lia.
      by rewrite Nat.add_0_r.
    + assert (Hc : cands !! k = Some c).
      { rewrite <- (Nat.add_0_r k), <- lookup_drop, Hd. done. }
      assert (Hd' : drop (S k) cands = suffix).
      { rewrite <- Nat.add_1_r, <- drop_drop, Hd. done. }
      set (s1 := log_bench c (tick s)).
      assert (Hstep : ∃ sw1, winner_after bench n cands (S k) sw1 ∧ sw_exhausted sw1 = false ∧
        (match bench (length (pr_benched (tick s))) c with
         | Ok ms => sweep_loop env bench limit t0 suffix (if usable ms then measure sw c ms else sw)
         | Err _ => sweep_loop env bench limit t0 suffix sw
         end) s1 = sweep_loop env bench limit t0 suffix sw1 s1).
      { cbn [pr_benched tick]. rewrite Hn. destruct (bench (n + k) c) as [ms|e] eqn:Eb.
        - destruct (usable ms) eqn:Eu.
          + exists (measure sw c ms). split_and!; [by apply winner_after_measure| |done].
            unfold measure. by destruct (SFltb _ _).
          + exists sw. split_and!; [|done..]. apply winner_after_skip; [|done].
            intros ms' (c' & Hc' & Hb' & Hu'). congruence.
        - exists sw. split_and!; [|done..]. apply winner_after_skip; [|done].
          intros ms' (c' & Hc' & Hb' & Hu'). congruence. }
      destruct Hstep as (sw1 & Hw1 & Hx1 & ->).
      destruct (IH (S k) sw1 s1 Hd' Hlen) as (k' & sw' & s' & Hs & Hk' & Hb' & Hst & Hw' & He & Hj & Hl);
        [|done..|].
      { cbn. rewrite length_app, Hn. simpl. lia. }
      exists k', sw', s'. split_and!; try done; try lia.
      * rewrite Hb'. cbn. rewrite <- (assoc_L (++)). f_equal.
        replace (k' - k)%nat with (S (k' - S k)) by lia. done.
      * intros j Hjk. destruct (decide (j = k)) as [->|]; [by rewrite Nat.sub_diag, Nat.add_0_r|].
        specialize (Hj j ltac:(lia)). cbn in Hj. by replace (pr_ticks s + (j - k))%nat
          with (S (pr_ticks s) + (j - S k))%nat by lia.
      * intros Hlt. specialize (Hl Hlt). cbn in Hl. by replace (pr_ticks s + (k' - k))%nat
          with (S (pr_ticks s) + (k' - S k))%nat by lia.
Qed.
End sweep_loop.

(** ** Resolution on a miss *)
Section tune.
Context (env : Env) (op sc : string) (dflt : config) (cands : list config)
  (bench : nat → config → result spec_float) (fp : string) (d : Device)
  (budget : option spec_float) (dir : option string) (s : Process).
Context (limit : spec_float) (records disk : dict string json).
Hypothesis on : enabled env = true.
Hypothesis eager : env_capturing env = false.
Hypothesis loaded : (load_records env op d dir s).1 = Ok records.
Hypothesis store_miss : store_hit (dict_get records sc) fp d = Ok None.
Hypothesis space : cands ≠ [].
Hypothesis budgeted : tune_budget env budget = Ok limit.
Hypothesis mergeable : disk_records (pr_disk s !! store_path env op d dir) = Ok disk.

(** The state after one record was persisted. *)
Definition persisted (record : json) (s : Process) : Process :=
  if env_writable env then
    let merged := dict_update disk [(sc, record)] in
    set_files (<[file_key env op d dir := merged]> (pr_files s))
      (set_disk (<[store_path env op d dir := FJson (canonical (store_doc env op d merged))]> (pr_disk s)) s)
  else s.

Lemma persist_eq (c : config) (status : string) (ms : json) (s1 : Process) :
  pr_disk s1 = pr_disk s →
  persist env op sc d fp c status ms dir s1 =
    (Ok tt, persisted (make_record env c status ms d fp "op-config-tune") s1).
Proof using mergeable.
  intros Hd. unfold persist, write_records, persisted, mbind, M_bind.
  destruct (env_writable env); simpl; [|done]. unfold lift, get_state. by rewrite Hd, mergeable.
Qed.

Lemma resolve_tune :
  ∃ k c status ms s0,
    resolve env op sc (ADict dflt) (ADict <$> cands) (Some bench) fp d budget dir s =
      (Ok (c, status), persisted (make_record env c status ms d fp "op-config-tune") s0) ∧
    pr_disk s0 = pr_disk s ∧ pr_benched s0 = pr_benched s ++ take k cands ∧
    (k ≤ length cands)%nat ∧
    (∀ j, (j < k)%nat → deadline env limit (env_clock env (pr_ticks s)) (S (pr_ticks s) + j) = false) ∧
    ((k < length cands)%nat → deadline env limit (env_clock env (pr_ticks s)) (S (pr_ticks s) + k) = true) ∧
    (status = TUNED ∧ k = length cands ∧
       (∃ i t, ms = JFloat t ∧ cands !! i = Some c ∧ fastest bench (length (pr_benched s)) cands k i t) ∨
     status = DEFAULT ∧ c = dflt ∧ ms = JNull ∧
       ((k < length cands)%nat ∨ ∀ i t, ¬ measured bench (length (pr_benched s)) cands i t)).
Proof using All.
  pose proof (load_records_unobserved env op d dir s) as (Hd0 & Hb0 & Ht0).
  unfold resolve. unfold mbind at 1 2, M_bind at 1 2, lift at 1 2. cbn [dumps].
  rewrite map_result_dicts, on, eager. cbn [negb]. unfold mbind at 1, M_bind at 1.
  destruct (load_records env op d dir s) as [r s0]. cbn [fst snd] in *. subst r.
  unfold mbind at 1, M_bind at 1, lift at 1. rewrite store_miss.
  destruct cands as [|c0 cs] eqn:Ec; [done|]. rewrite <- Ec in *. clear Ec.
  unfold mbind at 1 2, M_bind at 1 2, lift at 1. rewrite budgeted. unfold monotonic at 1.
  unfold mbind at 1, M_bind at 1.
  destruct (sweep_loop_spec env bench limit (env_clock env (pr_ticks s0)) (length (pr_benched s)) cands cands
    0 (mk_sweep None (S754_infinity false) false) (tick s0))
    as (k & sw & s1 & Hs & Hk & Hb & (Hm1 & Hf1 & Hd1) & Hw & Hx & Hj & Hl);
    [by rewrite drop_0|lia|cbn; rewrite Hb0; lia|split; [done|intros; lia]|done|].
  rewrite Hs. unfold mbind at 1, M_bind at 1, monotonic at 1.
  assert (Hdisk : pr_disk (tick s1) = pr_disk s) by (cbn; rewrite Hd1; cbn; done).
  assert (Hdl : (∀ j, (j < k)%nat → deadline env limit (env_clock env (pr_ticks s)) (S (pr_ticks s) + j) = false) ∧
    ((k < length cands)%nat → deadline env limit (env_clock env (pr_ticks s)) (S (pr_ticks s) + k) = true)).
  { rewrite <- Ht0. cbn [tick pr_ticks] in Hj, Hl. split.
    - intros j Hjk. specialize (Hj j ltac:(lia)). by rewrite Nat.sub_0_r in Hj.
    - intros Hlt. specialize (Hl Hlt). by rewrite Nat.sub_0_r in Hl. }
  assert (Hben : pr_benched (tick s1) = pr_benched s ++ take k cands).
  { cbn. rewrite Hb. cbn. rewrite Nat.sub_0_r. by rewrite Hb0. }
  destruct (sw_exhausted sw) eqn:Ex; [|destruct (sw_winner sw) as [c|] eqn:Ew].
  - exists k, dflt, DEFAULT, JNull, (tick s1). unfold mbind, M_bind. rewrite persist_eq by done.
    split_and!; try done; try lia; try apply Hdl. right. split_and!; [done..|]. left. by apply Hx.
  - assert (Hke : k = length cands).
    { destruct (decide (k < length cands)%nat) as [Hlt|]; [by apply Hx in Hlt|lia]. }
    exists k, c, TUNED, (JFloat (sw_winner_ms sw)), (tick s1). unfold mbind, M_bind.
    rewrite persist_eq by done. split_and!; try done; try lia; try apply Hdl. left. split_and!; [done..|].
    unfold winner_after in Hw. rewrite Ew in Hw. destruct Hw as (i & Hi & Hf). by exists i, (sw_winner_ms sw).
  - assert (Hke : k = length cands).
    { destruct (decide (k < length cands)%nat) as [Hlt|]; [by apply Hx in Hlt|lia]. }
    exists k, dflt, DEFAULT, JNull, (tick s1). unfold mbind, M_bind. rewrite persist_eq by done.
    split_and!; try done; try lia; try apply Hdl. right. split_and!; [done..|]. right.
    unfold winner_after in Hw. rewrite Ew in Hw. destruct Hw as [_ Hn]. intros i t Hm. apply (Hn i t); [|done].
    rewrite Hke. destruct Hm as (c & Hc & _). by apply lookup_lt_Some in Hc.
Qed.
End tune.

(** C33. What a sweep decides.  On a miss with candidates and a benchmark,
    [op_config] benchmarks the candidates in order, each once, until the
    elapsed time reaches the budget, and returns.  If all candidates were
    tried and some time was finite and positive, the first of the fastest is
    returned as "tuned"; otherwise the declared default is returned as
    "default", also when the sweep stopped early with a winner at hand.  What
    is returned is stored: the memo of the process holds it under the key of
    the call, and when the store can be written its file holds the record of
    it (the configuration, the status, the best time or null) merged into the
    records that were there, as do the loaded records of the process; a store
    that cannot be written is left as it was. *)
Theorem op_config_tunes (env : Env) (op sc : string) (dflt : config) (cands : list config)
    (bench : nat → config → result spec_float) (fp : string) (budget : option spec_float)
    (dir : option string) (device : option Device) (s : Process)
    (limit : spec_float) (records disk : dict string json) :
  let d := default (env_arch env) device in
  let n := length (pr_benched s) in
  let spent i := deadline env limit (env_clock env (pr_ticks s)) (S (pr_ticks s) + i) in
  enabled env = true → env_capturing env = false →
  pr_memo s !! memo_key_of op d fp sc = None →
  (load_records env op d dir s).1 = Ok records → store_hit (dict_get records sc) fp d = Ok None →
  cands ≠ [] → tune_budget env budget = Ok limit →
  disk_records (pr_disk s !! store_path env op d dir) = Ok disk →
  ∃ k c status ms s',
    let merged := dict_update disk [(sc, make_record env c status ms d fp "op-config-tune")] in
    op_config env op sc (ADict dflt) (ADict <$> cands) (Some bench) fp budget dir device s =
      (Ok (c, status), s') ∧
    pr_memo s' !! memo_key_of op d fp sc = Some (c, status) ∧
    (env_writable env = true →
       pr_disk s' = <[store_path env op d dir := FJson (canonical (store_doc env op d merged))]> (pr_disk s) ∧
       pr_files s' !! file_key env op d dir = Some merged) ∧
    (env_writable env = false → pr_disk s' = pr_disk s) ∧
    pr_benched s' = pr_benched s ++ take k cands ∧ (k ≤ length cands)%nat ∧
    (∀ j, (j < k)%nat → spent j = false) ∧ ((k < length cands)%nat → spent k = true) ∧
    (status = TUNED ∧ k = length cands ∧ (∃ i t, ms = JFloat t ∧ cands !! i = Some c ∧ fastest bench n cands k i t) ∨
     status = DEFAULT ∧ c = dflt ∧ ms = JNull ∧ ((k < length cands)%nat ∨ ∀ i ms, ¬ measured bench n cands i ms)).
Proof.
  intros d n spent Hon Heager Hmiss Hload Hhit Hspace Hbudget Hdisk.
  destruct (resolve_tune env op sc dflt cands bench fp d budget dir s limit records disk)
    as (k & c & status & ms & s0 & Hr & Hd0 & Hb0 & Hk & Hj & Hl & Hout); [done..|].
  exists k, c, status, ms. eexists. rewrite op_config_eq by done. fold d. rewrite Hmiss, Hr.
  cbn zeta. split; [done|]. cbn [pr_benched pr_memo pr_disk pr_files set_memo]. split; [apply lookup_insert_eq|].
  unfold persisted. destruct (env_writable env); cbn; rewrite Hd0; split_and!; try done; by rewrite lookup_insert_eq.
Qed.

(** ** What is written can be read back *)
Definition canonical_config (d : dict string json) : dict string json :=
  stable_sort entry_le (map (λ kv, (kv.1, canonical kv.2)) d).

Lemma canonical_obj (d : dict string json) : canonical (JObj d) = JObj (canonical_config d).
Proof. cbn [canonical]. unfold canonical_config. do 2 f_equal. apply map_ext. by intros []. Qed.

Lemma dict_get_map {V W} (f : V → W) (d : dict string V) (k : string) :
  dict_get (map (λ kv, (kv.1, f kv.2)) d) k = f <$> dict_get d k.
Proof. induction d as [|[k' v] d IH]; simpl; [done|]. by case_decide. Qed.

Lemma dict_get_perm {V} (d e : dict string V) (k : string) :
  NoDup d.*1 → d ≡ₚ e → dict_get d k = dict_get e k.
Proof.
  intros Hnd Hp. destruct (dict_get d k) as [v|] eqn:E.
  - symmetry. apply dict_get_NoDup; [by rewrite <- Hp|]. rewrite <- Hp. by apply dict_get_elem.
  - symmetry. apply dict_get_None. rewrite <- Hp. by apply dict_get_None.
Qed.

Lemma dict_get_canonical (d : dict string json) (k : string) :
  NoDup d.*1 → dict_get (canonical_config d) k = canonical <$> dict_get d k.
Proof.
  intros Hnd. rewrite <- dict_get_map. symmetry. apply dict_get_perm.
  - change (map (λ kv, (kv.1, canonical kv.2)) d) with ((λ kv, (kv.1, canonical kv.2)) <$> d).
    by rewrite <- list_fmap_compose.
  - symmetry. apply stable_sort_perm.
Qed.

Lemma jget_canonical (d : dict string json) (k : string) :
  NoDup d.*1 → jget (canonical (JObj d)) k = Ok (default JNull (canonical <$> dict_get d k)).
Proof. intros Hnd. rewrite canonical_obj. simpl. by rewrite dict_get_canonical. Qed.

Lemma dict_set_NoDup (d : dict string json) (k : string) (v : json) :
  NoDup d.*1 → NoDup (dict_set d k v).*1.
Proof.
  intros Hnd. rewrite dict_set_keys. case_decide; [done|]. apply NoDup_app. split; [done|]. split.
  - intros x Hx ->%list_elem_of_singleton. done.
  - apply NoDup_singleton.
Qed.

(** Look up literal keys. *)
Ltac get_keys := cbn [dict_get]; repeat (case_decide; [try discriminate|try congruence]).

Lemma read_records_written (env : Env) (op : string) (d : Device) (merged : dict string json) :
  read_records (Some (FJson (canonical (store_doc env op d merged)))) = Ok (canonical_config merged).
Proof.
  unfold read_records, store_doc.
  rewrite !jget_canonical by (apply (bool_decide_unpack _); vm_compute; exact I).
  get_keys. cbn -[canonical canonical_config]. by rewrite canonical_obj.
Qed.

Lemma same_identity_written (i : identity) :
  same_identity (jor (JObj (canonical_config (identity_entries i))) (JObj [])) i = Ok true.
Proof.
  assert (Hj : jor (JObj (canonical_config (identity_entries i))) (JObj []) =
               JObj (canonical_config (identity_entries i))).
  { destruct (canonical_config (identity_entries i)) eqn:E; [|done].
    apply (f_equal length) in E. unfold canonical_config in E. by rewrite stable_sort_perm in E. }
  rewrite Hj. unfold same_identity. cbn [jget mbind result_bind].
  rewrite !dict_get_canonical by (apply (bool_decide_unpack _); vm_compute; exact I).
  destruct i as [[[cap|] [sm|]] [name|]]; unfold identity_entries; get_keys; cbn;
    rewrite ?bool_decide_true by done; done.
Qed.

Lemma store_hit_written (env : Env) (c : config) (status : string) (ms : json) (d d' : Device)
    (fp origin : string) :
  status ∈ [TUNED; SEEDED; DEFAULT] → identity_key d' = identity_key d →
  store_hit (Some (canonical (make_record env c status ms d fp origin))) fp d' =
    Ok (Some (canonical_config c, status)).
Proof.
  intros Hst Hid. unfold store_hit, make_record.
  rewrite canonical_obj. cbn [jget mbind result_bind].
  rewrite !dict_get_canonical by (apply (bool_decide_unpack _); vm_compute; exact I).
  get_keys. cbn -[canonical canonical_config same_identity].
  rewrite !canonical_obj, Hid, same_identity_written. cbn [canonical is_str mbind result_bind].
  rewrite (bool_decide_true (fp = fp)), bool_decide_true by done. done.
Qed.

Lemma dict_update_one (disk : dict string json) (sc : string) (record : json) :
  NoDup disk.*1 →
  NoDup (dict_update disk [(sc, record)]).*1 ∧
  dict_get (dict_update disk [(sc, record)]) sc = Some record.
Proof.
  intros Hnd. unfold dict_update. simpl. split; [by apply dict_set_NoDup|].
  by rewrite dict_get_set, decide_True.
Qed.

(** A process that has resolved nothing yet replays the record. *)
Lemma resolve_replay (env env' : Env) (op sc : string) (dflt : config) (candidates : list argument)
    (cs : list config) (bench : option (nat → config → result spec_float)) (fp : string)
    (d d' : Device) (budget : option spec_float) (dir dir' : option string) (s : Process)
    (disk : dict string json) (c : config) (status : string) (ms : json) (origin : string) :
  enabled env' = true → env_capturing env' = false → NoDup disk.*1 →
  status ∈ [TUNED; SEEDED; DEFAULT] → identity_key d' = identity_key d →
  store_path env' op d' dir' = store_path env op d dir →
  map_result dumps candidates = Ok cs →
  pr_files s !! file_key env' op d' dir' = None →
  pr_disk s !! store_path env op d dir =
    Some (FJson (canonical (store_doc env op d
      (dict_update disk [(sc, make_record env c status ms d fp origin)])))) →
  let (r, s') := resolve env' op sc (ADict dflt) candidates bench fp d' budget dir' s in
  r = Ok (canonical_config c, status) ∧ unobserved s s'.
Proof.
  intros Hon Heager Hnd Hst Hid Hpath Hc Hfiles Hdisk.
  pose proof (dict_update_one disk sc (make_record env c status ms d fp origin) Hnd) as [Hnd' Hget].
  pose proof (load_records_unobserved env' op d' dir' s) as Hun.
  assert (Hload : (load_records env' op d' dir' s).1 =
    Ok (canonical_config (dict_update disk [(sc, make_record env c status ms d fp origin)]))).
  { unfold load_records, get_state, mbind, M_bind. rewrite Hfiles, Hpath, Hdisk. unfold lift.
    by rewrite read_records_written. }
  unfold resolve. unfold mbind at 1 2, M_bind at 1 2, lift at 1 2. cbn [dumps].
  rewrite Hc, Hon, Heager. cbn [negb]. unfold mbind at 1, M_bind at 1.
  destruct (load_records env' op d' dir' s) as [r s0]. cbn [fst snd] in *. subst r.
  unfold mbind at 1, M_bind at 1, lift at 1.
  rewrite (dict_get_canonical _ _ Hnd'), Hget. cbn [fmap option_fmap option_map].
  rewrite (store_hit_written _ _ _ _ d d') by done. cbn. by split.
Qed.

(** C34. Tuned once, replayed everywhere.  What a process resolves by a sweep
    and can write is returned by every process of the same device identity and
    fingerprint that has not resolved the key: the same status, and the same
    configuration up to the order of its keys, without a benchmark, a clock
    reading or a write. *)
Theorem tuned_config_replayed (env env' : Env) (op sc : string) (dflt dflt' : config)
    (cands : list config) (candidates' : list argument) (cs' : list config)
    (bench : nat → config → result spec_float) (bench' : option (nat → config → result spec_float))
    (fp : string) (budget budget' : option spec_float) (dir dir' : option string)
    (device device' : option Device) (s s' : Process)
    (limit : spec_float) (records disk : dict string json) :
  let d := default (env_arch env) device in
  let d' := default (env_arch env') device' in
  enabled env = true → env_capturing env = false → env_writable env = true →
  pr_memo s !! memo_key_of op d fp sc = None →
  (load_records env op d dir s).1 = Ok records → store_hit (dict_get records sc) fp d = Ok None →
  cands ≠ [] → tune_budget env budget = Ok limit →
  disk_records (pr_disk s !! store_path env op d dir) = Ok disk → NoDup disk.*1 →
  enabled env' = true → env_capturing env' = false → identity_key d' = identity_key d →
  store_path env' op d' dir' = store_path env op d dir → map_result dumps candidates' = Ok cs' →
  pr_memo s' !! memo_key_of op d' fp sc = None → pr_files s' !! file_key env' op d' dir' = None →
  pr_disk s' =
    pr_disk (op_config env op sc (ADict dflt) (ADict <$> cands) (Some bench) fp budget dir device s).2 →
  ∃ c status,
    (op_config env op sc (ADict dflt) (ADict <$> cands) (Some bench) fp budget dir device s).1 =
      Ok (c, status) ∧
    let (r, s'') := op_config env' op sc (ADict dflt') candidates' bench' fp budget' dir' device' s' in
    r = Ok (canonical_config c, status) ∧ unobserved s' s''.
Proof.
  intros d d' Hon Heager Hwr Hmiss Hload Hhit Hspace Hbudget Hdisk Hnd Hon' Heager' Hid Hpath Hc'
    Hmiss' Hfiles'.
  destruct (resolve_tune env op sc dflt cands bench fp d budget dir s limit records disk)
    as (k & c & status & ms & s0 & Hr & Hd0 & _ & _ & _ & _ & Hout); [done..|].
  rewrite !op_config_eq by done. fold d d'. rewrite Hmiss, Hmiss', Hr. cbn [fst snd pr_disk set_memo].
  unfold persisted. rewrite Hwr. cbn [pr_disk set_files set_disk]. intros Hds.
  exists c, status. split; [done|].
  pose proof (resolve_replay env env' op sc dflt' candidates' cs' bench' fp d d' budget' dir dir' s' disk
    c status ms "op-config-tune") as Hrep.
  destruct (resolve env' op sc (ADict dflt') candidates' bench' fp d' budget' dir' s') as [r s1].
  destruct Hrep as [-> Hun]; try done.
  - destruct Hout as [[-> _]|[-> _]]; set_solver.
  - rewrite Hds. by rewrite lookup_insert_eq.
Qed.

(** ** Writers of one store *)

(** A writer replaces its own records and keeps all others, so processes that
    resolve different shape classes do not undo each other's work. *)
Lemma dict_update_get (d e : dict string json) (k : string) :
  NoDup e.*1 → dict_get (dict_update d e) k = match dict_get e k with Some v => Some v | None => dict_get d k end.
Proof.
  unfold dict_update. revert d. induction e as [|[k' v'] e IH]; intros d Hnd; simpl; [done|].
  apply NoDup_cons in Hnd as [Hk Hnd]. rewrite IH by done. case_decide as Hd.
  - subst k'. rewrite (proj2 (dict_get_None e k)) by done. by rewrite dict_get_set, decide_True.
  - destruct (dict_get e k); [done|]. by rewrite dict_get_set, decide_False.
Qed.

(** ** Example: two processes and one device *)
Definition example_device : Device := mk_device (Some "sm90") (Some 132) (Some "H100") JNull.

Definition example_env : Env :=
  mk_env EmptyString "/root" None (λ i, float_of_Z (Z.of_nat i)) false true example_device "now".

Definition fresh_process (disk : gmap path file) : Process := mk_process ∅ ∅ disk [] 0.

Definition block (n : Z) : config := [("BLOCK", JInt n)].

(** Candidate [i] takes [10 - i] milliseconds; the clock advances one second per reading. *)
Definition example_bench (i : nat) (c : config) : result spec_float :=
  Ok (float_of_Z (10 - Z.of_nat i)).

Definition example_call (budget : Z) : M Process (config * string) :=
  op_config example_env "gemv" "t8" (ADict (block 1)) (ADict <$> [block 1; block 2]) (Some example_bench)
    "sha256:0" (Some (float_of_Z budget)) None None.

Lemma op_config_frozen_witness :
  op_config (mk_env "off" EmptyString None (λ _, S754_nan) true false example_device EmptyString)
    "gemv" "t8" (ADict []) [] None "sha256:0" None None None
    (set_disk ∅ (example_call 5000 (fresh_process ∅)).2) =
  (Ok (block 2, TUNED), set_disk ∅ (example_call 5000 (fresh_process ∅)).2).
Proof.
  apply (op_config_frozen example_env _ "gemv" "t8" (ADict (block 1)) (ADict [])
    (ADict <$> [block 1; block 2]) [] (Some example_bench) None "sha256:0" (Some (float_of_Z 5000)) None
    None None None None (fresh_process ∅) (example_call 5000 (fresh_process ∅)).2).
  - apply injective_projections; [vm_compute; reflexivity|reflexivity].
  - apply rtc_once. constructor.
  - reflexivity.
  - discriminate.
Defined.

Lemma op_config_inert_witness :
  (op_config (mk_env EmptyString "/root" None (λ _, S754_nan) true true example_device "now")
     "gemv" "t8" (ADict (block 1)) [ADict (block 2)] (Some example_bench) "sha256:0" None None None
     (fresh_process ∅)).1 = Ok (block 1, CAPTURE).
Proof.
  pose proof (op_config_inert (mk_env EmptyString "/root" None (λ _, S754_nan) true true example_device "now")
    "gemv" "t8" (block 1) [ADict (block 2)] (Some example_bench) "sha256:0" None None None
    (fresh_process ∅) (or_introl eq_refl)) as H.
  cbv zeta in H. destruct (op_config _ _ _ _ _ _ _ _ _ _ _) as [r s'] in *.
  destruct H as (_ & _ & _ & _ & Hr). apply Hr.
  - by intros [?|?%not_elem_of_nil]%elem_of_cons.
  - by intros [?|?%not_elem_of_nil]%elem_of_cons.
Defined.

(** With a budget of two seconds the third reading of the clock ends the
    sweep: one candidate was measured, and the default is returned. *)
Lemma op_config_tunes_witness :
  ∃ k c status s', example_call 2000 (fresh_process ∅) = (Ok (c, status), s') ∧
    pr_memo s' !! memo_key_of "gemv" (env_arch example_env) "sha256:0" "t8" = Some (c, status) ∧
    is_Some (pr_disk s' !! store_path example_env "gemv" (env_arch example_env) None) ∧
    (k ≤ 2)%nat ∧ pr_benched s' = take k [block 1; block 2] ∧ status = DEFAULT.
Proof.
  destruct (op_config_tunes example_env "gemv" "t8" (block 1) [block 1; block 2] example_bench "sha256:0"
    (Some (float_of_Z 2000)) None None (fresh_process ∅) (float_of_Z 2000) [] [])
    as (k & c & status & ms & s' & Hc & Hmemo & Hdisk & _ & Hb & Hk & Hj & Hl & Hout); try (vm_compute; reflexivity); [discriminate|].
  exists k, c, status, s'. split_and!; try done.
  { destruct (Hdisk eq_refl) as [-> _]. rewrite lookup_insert_eq. by eexists. }
  destruct Hout as [(_ & -> & _)|(-> & _)]; [|done].
  specialize (Hj 1%nat ltac:(simpl; lia)). by vm_compute in Hj.
Defined.

Lemma tuned_config_replayed_witness :
  ∃ c status, (example_call 5000 (fresh_process ∅)).1 = Ok (c, status) ∧
    (example_call 0 (fresh_process (pr_disk (example_call 5000 (fresh_process ∅)).2))).1 =
      Ok (canonical_config c, status).
Proof.
  destruct (tuned_config_replayed example_env example_env "gemv" "t8" (block 1) (block 1)
    [block 1; block 2] (ADict <$> [block 1; block 2]) [block 1; block 2] example_bench (Some example_bench)
    "sha256:0" (Some (float_of_Z 5000)) (Some (float_of_Z 0)) None None None None (fresh_process ∅)
    (fresh_process (pr_disk (example_call 5000 (fresh_process ∅)).2)) (float_of_Z 5000) [] [])
    as (c & status & Hc & Hr);
    try lazymatch goal with
        | |- pr_disk _ = pr_disk _ => reflexivity
        | |- NoDup _ => constructor
        | |- _ ≠ _ => discriminate
        | |- _ = _ => vm_compute; reflexivity
        end.
  exists c, status. split; [exact Hc|]. unfold example_call at 1.
  destruct (op_config _ _ _ _ _ _ _ _ _ _ _) as [r s''] in Hr |- *. by destruct Hr as [-> _].
Defined.

(** ** Where the code and its documentation part *)

Definition status_on_disk (s : Process) (op sc : string) : option string :=
  match read_records (pr_disk s !! store_path example_env op example_device None) with
  | Ok records => match dict_get records sc with
                  | Some (JObj r) => match dict_get r "status" with Some (JStr st) => Some st | _ => None end
                  | _ => None
                  end
  | Err _ => None
  end.

Definition example_seed : M Process (dict string json) :=
  seed example_env "gemv" [("t8", mk_entry (Some (block 9)) JNull None)] "sha256:0" "lane" None None false.

(** A seed checks the records the process read earlier, not the file: a
    record tuned by another process in between is downgraded without [force]. *)
Lemma seed_overwrites_tuned :
  let reader := (stored_records example_env "gemv" None None (fresh_process ∅)).2 in
  let tuner := (example_call 5000 (fresh_process ∅)).2 in
  status_on_disk tuner "gemv" "t8" = Some TUNED ∧
  status_on_disk (example_seed (set_disk (pr_disk tuner) reader)).2 "gemv" "t8" = Some SEEDED.
Proof. split; vm_compute; reflexivity. Qed.

(** A seed empties the operator's memo, so a configuration already resolved by
    the process changes. *)
Lemma seed_changes_resolved_config :
  let resolved := example_call 0 (fresh_process ∅) in
  let seeded := example_seed resolved.2 in
  resolved.1 = Ok (block 1, DEFAULT) ∧ (example_call 0 seeded.2).1 = Ok (block 9, SEEDED).
Proof. split; vm_compute; reflexivity. Qed.

(** A store file that holds a JSON array is not treated as a foreign file: the
    launch path raises. *)
Lemma foreign_store_raises :
  ∃ tag, (example_call 5000 (fresh_process
    {[store_path example_env "gemv" example_device None := FJson (JArr [])]})).1 = Err (AttributeError tag).
Proof. eexists. vm_compute. reflexivity. Qed.

(** Operators whose names differ in a replaced character share one file. *)
Lemma store_path_collides :
  store_path example_env "gemv/a" example_device None = store_path example_env "gemv-a" example_device None.
Proof. vm_compute. reflexivity. Qed.
