(* ===== verification/Indexing.v ===== *)
(** * Row-major index arithmetic

    The reference notion of a multi-dimensional index shared by the tensor
    layouts of [OperatorIR] and the tile grids of [TaskIR]: [ravel] is the
    row-major linear position of an index vector, [unravel] its inverse, and
    [in_range] the index space of a shape. *)

From S2P Require Import Prelude.
Local Open Scope Z_scope.

Fixpoint ravel (shape idx : list Z) : Z :=
  match shape, idx with
  | _ :: ds, i :: js => i * zprod ds + ravel ds js
  | _, _ => 0
  end.

Definition in_range (shape idx : list Z) : Prop := Forall2 (λ d i, 0 ≤ i < d) shape idx.

Fixpoint unravel (shape : list Z) (k : Z) : list Z :=
  match shape with
  | [] => []
  | _ :: ds => k / zprod ds :: unravel ds (k `mod` zprod ds)
  end.

(** [zdot idx strides]: the address offset of an index vector. *)
Fixpoint zdot (idx strides : list Z) : Z :=
  match idx, strides with
  | i :: js, s :: ss => i * s + zdot js ss
  | _, _ => 0
  end.

Lemma zprod_cons (x : Z) (l : list Z) : zprod (x :: l) = x * zprod l.
Proof. done. Qed.

Lemma zsum_cons (x : Z) (l : list Z) : zsum (x :: l) = x + zsum l.
Proof. done. Qed.

Lemma zprod_app (l1 l2 : list Z) : zprod (l1 ++ l2) = zprod l1 * zprod l2.
Proof. induction l1 as [|x l1 IH]; simpl; [lia|]. unfold zprod in *. lia. Qed.

Lemma zprod_pos (l : list Z) : Forall (λ d, 0 < d) l → 0 < zprod l.
Proof. induction 1; simpl; [done|]. unfold zprod in *. nia. Qed.

Lemma zprod_nonneg (l : list Z) : Forall (λ d, 0 ≤ d) l → 0 ≤ zprod l.
Proof. induction 1; simpl; [done|]. unfold zprod in *. nia. Qed.

Lemma zprod_Permutation (l1 l2 : list Z) : l1 ≡ₚ l2 → zprod l1 = zprod l2.
Proof. induction 1; unfold zprod in *; simpl in *; lia. Qed.

Lemma zsum_app (l1 l2 : list Z) : zsum (l1 ++ l2) = zsum l1 + zsum l2.
Proof. induction l1 as [|x l1 IH]; simpl; [lia|]. unfold zsum in *. lia. Qed.

#[export] Instance zsum_perm : Proper ((≡ₚ) ==> eq) zsum.
Proof. induction 1; unfold zsum in *; simpl in *; lia. Qed.

Lemma in_range_pos (shape idx : list Z) : in_range shape idx → Forall (λ d, 0 < d) shape.
Proof. induction 1; constructor; auto; lia. Qed.

Lemma in_range_length (shape idx : list Z) : in_range shape idx → length idx = length shape.
Proof. intros H. symmetry. by eapply Forall2_length. Qed.

Lemma ravel_bound (shape idx : list Z) :
  in_range shape idx → 0 ≤ ravel shape idx < zprod shape.
Proof.
  induction 1 as [|d i ds js Hd Hr IH]; simpl; [lia|].
  apply in_range_pos, zprod_pos in Hr. unfold zprod in *. simpl. nia.
Qed.

Lemma ravel_unravel (shape : list Z) (k : Z) :
  Forall (λ d, 0 < d) shape → 0 ≤ k < zprod shape → ravel shape (unravel shape k) = k.
Proof.
  intros Hs. revert k. induction Hs as [|d ds Hd Hs IH]; intros k Hk; simpl in *.
  - lia.
  - pose proof (zprod_pos ds Hs). pose proof (Z.mod_pos_bound k (zprod ds) ltac:(done)).
    rewrite IH by done. pose proof (Z.div_mod k (zprod ds)). lia.
Qed.

Lemma unravel_in_range (shape : list Z) (k : Z) :
  Forall (λ d, 0 < d) shape → 0 ≤ k < zprod shape → in_range shape (unravel shape k).
Proof.
  intros Hs. revert k. induction Hs as [|d ds Hd Hs IH]; intros k Hk; [by constructor|].
  pose proof (zprod_pos ds Hs). simpl in *. constructor.
  - unfold zprod in *. simpl in Hk. split; [apply Z.div_pos; lia|].
    apply Z.div_lt_upper_bound; lia.
  - apply IH, Z.mod_pos_bound. done.
Qed.

Lemma unravel_ravel (shape idx : list Z) :
  in_range shape idx → unravel shape (ravel shape idx) = idx.
Proof.
  induction 1 as [|d i ds js Hd Hr IH]; simpl; [done|].
  pose proof (ravel_bound _ _ Hr). rewrite Z.div_add_l, Z.div_small by lia.
  rewrite (Z.add_comm (i * _)), Z.mod_add, Z.mod_small by lia. rewrite IH. f_equal. lia.
Qed.

Lemma ravel_inj (shape idx1 idx2 : list Z) :
  in_range shape idx1 → in_range shape idx2 →
  ravel shape idx1 = ravel shape idx2 → idx1 = idx2.
Proof.
  intros H1 H2 E. rewrite <- (unravel_ravel _ _ H1), <- (unravel_ravel _ _ H2). by rewrite E.
Qed.

#[export] Hint Resolve ravel_bound in_range_pos zprod_pos : py.
