(* ===== verification/OperatorIR.v ===== *)
(** * Operator IR (compiler/operator_ir.py)

    Tensor values and aliasing views, memory regions and their overlap test,
    recorded operators, hazards, and the operator graph with its tables.
    The free-text [numerical_contract] of an operator, which no code reads,
    and the [__repr__]/[summary] texts are not modelled. *)

From S2P Require Import Prelude Indexing.
Local Open Scope Z_scope.

(** ** Element types *)
Record DType : Type := mk_dtype { dt_name : string; dt_size : Z }.

#[export] Instance DType_eq_dec : EqDecision DType.
Proof. solve_decision. Defined.

Definition F32 : DType := mk_dtype "f32" 4.
Definition F16 : DType := mk_dtype "f16" 2.
Definition BF16 : DType := mk_dtype "bf16" 2.
Definition F8_E4M3 : DType := mk_dtype "f8e4m3" 1.
Definition I32 : DType := mk_dtype "i32" 4.
Definition I64 : DType := mk_dtype "i64" 8.

(** ** Attribute values

    The compiler only stores and forwards floats: a float is kept as the
    decimal literal [m * 10^e] of the program text, or as the expression
    [d ** -0.5] or [1.0 / np.sqrt(d)] that computes it. *)
Inductive pyfloat : Type :=
  | FLit (m e : Z)
  | FInvSqrt (d : Z)
  | FRecipSqrt (d : Z).

Inductive attr : Type :=
  | AInt (z : Z)
  | AStr (s : string)
  | ABool (b : bool)
  | AFloat (f : pyfloat)
  | ANone.

#[export] Instance pyfloat_eq_dec : EqDecision pyfloat.
Proof. solve_decision. Defined.
#[export] Instance attr_eq_dec : EqDecision attr.
Proof. solve_decision. Defined.

Abbreviation attrs := (gmap string attr).

(** ** Symbolic runtime scalars *)
Record SymbolicScalar : Type := mk_scalar { sc_name : string; sc_lo : Z; sc_hi : Z }.

Definition guard_scalar (sc : SymbolicScalar) (value : Z) : result unit :=
  require ((sc_lo sc <=? value) && (value <? sc_hi sc))
    (ValueError "runtime scalar out of range").

(** The [expr] of a valid length: an int, the text of a symbolic bound, or
    Python's [None]. *)
Inductive vexpr : Type := VInt (n : Z) | VStr (s : string) | VNone.

Record ValidLength : Type := mk_valid_length {
  vl_expr : vexpr;
  vl_row_tensor : option string;
  vl_mode : string
}.

#[export] Instance vexpr_eq_dec : EqDecision vexpr.
Proof. solve_decision. Defined.
#[export] Instance ValidLength_eq_dec : EqDecision ValidLength.
Proof. solve_decision. Defined.

(** The constructor with its [__post_init__] checks. *)
Definition new_ValidLength (expr : vexpr) (row_tensor : option string) (mode : string)
    : result ValidLength :=
  match row_tensor, expr with
  | None, VNone => Err (ValueError "ValidLength needs an int/str expr or a row_tensor")
  | None, _ => Ok (mk_valid_length expr row_tensor mode)
  | Some _, VNone =>
      if decide (mode = "positions" ∨ mode = "lengths") then
        Ok (mk_valid_length expr row_tensor mode)
      else Err (ValueError "ValidLength row mode not supported")
  | Some _, _ => Err (ValueError "ValidLength row form takes row_tensor, not expr")
  end.

Definition is_row (v : ValidLength) : bool :=
  match vl_row_tensor v with Some _ => true | None => false end.

Definition from_positions (tensor_name : string) : result ValidLength :=
  new_ValidLength VNone (Some tensor_name) "positions".
Definition from_lengths (tensor_name : string) : result ValidLength :=
  new_ValidLength VNone (Some tensor_name) "lengths".

(** [expr[:-2]] when [expr.endswith("+1")]. *)
Fixpoint strip_plus1 (s : string) : option string :=
  if decide (s = "+1"%string) then Some EmptyString
  else match s with
       | EmptyString => None
       | String c s' => String c <$> strip_plus1 s'
       end.

Definition resolve (v : ValidLength) (scalars : gmap string Z) : result Z :=
  if is_row v then Err (ValueError "row tensor resolves per row at execution")
  else match vl_expr v with
  | VInt n => Ok n
  | VStr expr =>
      let '(name, add) :=
        match strip_plus1 expr with Some e => (e, 1) | None => (expr, 0) end in
      x ← of_option (KeyError name) (scalars !! name);
      Ok (x + add)
  | VNone => Err (AttributeError "endswith")
  end.

(** ** Tensor values *)
Record TensorValue : Type := mk_tensor {
  tv_vid : option Z;   (* [None] for a derived view not yet in the graph *)
  tv_name : string;
  tv_shape : list Z;
  tv_dtype : DType;
  tv_strides : list Z;
  tv_storage_id : Z;
  tv_offset : Z;
  tv_valid_length : option ValidLength
}.

#[export] Instance TensorValue_eq_dec : EqDecision TensorValue.
Proof. solve_decision. Defined.

Fixpoint numel_loop (n : Z) (shape : list Z) : Z :=
  match shape with [] => n | d :: ds => numel_loop (n * d) ds end.
Definition numel_of (shape : list Z) : Z := numel_loop 1 shape.
Definition numel (tv : TensorValue) : Z := numel_of (tv_shape tv).
Definition nbytes (tv : TensorValue) : Z := numel tv * dt_size (tv_dtype tv).

Fixpoint contiguous_loop (dims : list (Z * Z)) (expected : Z) : bool :=
  match dims with
  | [] => true
  | (d, s) :: rest =>
      if bool_decide (d ≠ 1) && bool_decide (s ≠ expected) then false
      else contiguous_loop rest (expected * d)
  end.

Definition is_contiguous (tv : TensorValue) : bool :=
  contiguous_loop (zip (reverse (tv_shape tv)) (reverse (tv_strides tv))) 1.

(** [_row_major_strides]: the suffix products of the shape. *)
Fixpoint row_major_strides (shape : list Z) : list Z :=
  match shape with
  | [] => []
  | _ :: ds => match row_major_strides ds, ds with
               | s :: ss, d :: _ => (s * d) :: s :: ss
               | _, _ => [1]
               end
  end.

Definition drop_units (shape : list Z) : list Z := filter (λ d, d ≠ 1) shape.
Definition kept_dims (shape strides : list Z) : list (Z * Z) :=
  filter (λ p, p.1 ≠ 1) (zip shape strides).

(** Hand the strides of the kept dimensions to the non-unit dimensions of the
    new shape, 0 to the unit ones. *)
Fixpoint place_strides (new_shape : list Z) (kept : list Z) : list Z :=
  match new_shape with
  | [] => []
  | d :: ds =>
      if decide (d = 1) then 0 :: place_strides ds kept
      else match kept with
           | s :: kept => s :: place_strides ds kept
           | [] => []
           end
  end.

(** The backward loop that replaces each 0 by its right neighbour (or 1). *)
Fixpoint fill_zero_strides (strides : list Z) : list Z :=
  match strides with
  | [] => []
  | s :: ss =>
      let rest := fill_zero_strides ss in
      (if decide (s = 0) then default 1 (head rest) else s) :: rest
  end.

Definition tensor_view (tv : TensorValue) (name : string) (new_shape : list Z)
    : result TensorValue :=
  if negb (numel_of (tv_shape tv) =? numel_of new_shape)
  then Err (ValueError "reshape changes numel")
  else
    let old_kept := kept_dims (tv_shape tv) (tv_strides tv) in
    if decide (old_kept.*1 = drop_units new_shape) then
      Ok (mk_tensor None name new_shape (tv_dtype tv)
            (fill_zero_strides (place_strides new_shape old_kept.*2))
            (tv_storage_id tv) (tv_offset tv) None)
    else if negb (is_contiguous tv)
    then Err (ValueError "reshape of non-contiguous view is unsupported")
    else Ok (mk_tensor None name new_shape (tv_dtype tv) (row_major_strides new_shape)
               (tv_storage_id tv) (tv_offset tv) None).

(** [xs[:-2] + (xs[-1], xs[-2])] *)
Fixpoint swap_last2 {A} (xs : list A) : list A :=
  match xs with
  | [a; b] => [b; a]
  | x :: xs => x :: swap_last2 xs
  | [] => []
  end.

Definition transposed (tv : TensorValue) (name : string) : result TensorValue :=
  if decide (length (tv_shape tv) < 2)%nat
  then Err (ValueError "transpose requires >= 2 dims")
  else Ok (mk_tensor None name (swap_last2 (tv_shape tv)) (tv_dtype tv)
             (swap_last2 (tv_strides tv)) (tv_storage_id tv) (tv_offset tv) None).

(** ** Memory regions *)

(** The upper bound of a box: a plain int, the text of a symbolic bound, a
    per-row [ValidLength], or the [None] that [valid.expr] is for one. *)
Inductive bound : Type :=
  | BInt (n : Z) | BStr (s : string) | BRow (v : ValidLength) | BNone.

#[export] Instance bound_eq_dec : EqDecision bound.
Proof. solve_decision. Defined.

Record Region : Type := mk_region {
  rg_storage_id : Z;
  rg_view : TensorValue;
  rg_boxes : list (Z * bound);
  rg_indirect_table : option TensorValue;
  rg_indirect_axis : Z
}.

#[export] Instance Region_eq_dec : EqDecision Region.
Proof. solve_decision. Defined.

Definition bound_of_expr (e : vexpr) : bound :=
  match e with VInt n => BInt n | VStr s => BStr s | VNone => BNone end.

Definition region_whole (view : TensorValue) : Region :=
  mk_region (tv_storage_id view) view ((λ d, (0, BInt d)) <$> tv_shape view) None (-1).

Definition region_prefix (view : TensorValue) (axis : Z) (valid : ValidLength) : Region :=
  mk_region (tv_storage_id view) view
    (imap (λ i d, if decide (Z.of_nat i = axis)
                  then (0, if is_row valid then BRow valid else bound_of_expr (vl_expr valid))
                  else (0, BInt d)) (tv_shape view))
    None (-1).

Definition region_indirect (view table : TensorValue) (axis : Z) (valid : option ValidLength)
    : result Region :=
  _ ← require ((0 <=? axis) && (axis <? Z.of_nat (length (tv_shape view))))
        (AssertionError "indirect axis out of range");
  Ok (mk_region (tv_storage_id view) view
        (imap (λ i d, match valid with
                      | Some v => if decide (Z.of_nat i = axis) then (0, bound_of_expr (vl_expr v))
                                  else (0, BInt d)
                      | None => (0, BInt d)
                      end) (tv_shape view))
        (Some table) axis).

Definition region_tile (view : TensorValue) (tile : list (Z * bound)) : result Region :=
  _ ← require (bool_decide (length tile = length (tv_shape view)))
        (AssertionError "len(tile) == len(view.shape)");
  Ok (mk_region (tv_storage_id view) view tile None (-1)).

(** [resolved_boxes]: symbolic bounds replaced by their value, clipped to
    the extent; [scalars or {}] is [default ∅]. *)
Fixpoint resolve_boxes (boxes : list (Z * bound)) (shape : list Z) (scalars : gmap string Z)
    : result (list (Z * bound)) :=
  match boxes, shape with
  | (lo, hi) :: boxes, extent :: shape =>
      hi' ← match hi with
            | BRow _ => Ok (BInt extent)
            | BStr s => v ← new_ValidLength (VStr s) None "positions";
                        h ← resolve v scalars; Ok (BInt (Z.min h extent))
            | _ => Ok hi
            end;
      rest ← resolve_boxes boxes shape scalars;
      Ok ((lo, hi') :: rest)
  | _, _ => Ok []
  end.

Definition resolved_boxes (r : Region) (scalars : option (gmap string Z))
    : result (list (Z * bound)) :=
  resolve_boxes (rg_boxes r) (tv_shape (rg_view r)) (default ∅ scalars).

Definition hi_eff (hi : bound) (extent : Z) : Z :=
  match hi with BInt h => Z.min h extent | _ => extent end.

Fixpoint span_loop (boxes : list (Z * bound)) (strides shape : list Z) (lo_addr hi_addr : Z)
    : Z * Z :=
  match boxes, strides, shape with
  | (lo, hi) :: boxes, stride :: strides, extent :: shape =>
      let h := hi_eff hi extent in
      let '(c0, c1) := if lo <? h then (lo * stride, (h - 1) * stride) else (0, 0) in
      span_loop boxes strides shape (lo_addr + Z.min c0 c1) (hi_addr + Z.max c0 c1)
  | _, _, _ => (lo_addr, hi_addr)
  end.

Definition storage_span (r : Region) : Z * Z :=
  let v := rg_view r in
  match rg_indirect_table r with
  | Some _ => (tv_offset v, tv_offset v + Z.max (numel v - 1) 0)
  | None =>
      let '(lo, hi) := span_loop (rg_boxes r) (tv_strides v) (tv_shape v)
                         (tv_offset v) (tv_offset v) in
      (lo, Z.max lo hi)
  end.

Definition overlaps (r1 r2 : Region) : bool :=
  if negb (rg_storage_id r1 =? rg_storage_id r2) then false
  else let '(a0, a1) := storage_span r1 in
       let '(b0, b1) := storage_span r2 in
       (a0 <=? b1) && (b0 <=? a1).

(** ** Operators, effects and hazards *)
Record Operator : Type := mk_operator {
  op_opid : Z;
  op_kind : string;
  op_inputs : list string;
  op_outputs : list string;
  op_attributes : attrs;
  op_read_regions : list Region;
  op_write_regions : list Region;
  op_source_location : string
}.

Inductive hazard_kind : Type := HAZARD_RAW | HAZARD_WAR | HAZARD_WAW.

Record Hazard : Type := mk_hazard {
  hz_kind : hazard_kind;
  hz_producer : Z;
  hz_consumer : Z;
  hz_storage_id : Z
}.

#[export] Instance hazard_kind_eq_dec : EqDecision hazard_kind.
Proof. solve_decision. Defined.
#[export] Instance Hazard_eq_dec : EqDecision Hazard.
Proof. solve_decision. Defined.

(** The hazards of one kind between two operators: one per overlapping pair
    of a region of [us] and a region of [vs]. *)
Definition region_hazards (k : hazard_kind) (u v : Operator) (us vs : list Region)
    : list Hazard :=
  ru ← us; rv ← vs;
  if overlaps ru rv then [mk_hazard k (op_opid u) (op_opid v) (rg_storage_id ru)] else [].

Definition pair_hazards (u v : Operator) : list Hazard :=
  region_hazards HAZARD_RAW u v (op_write_regions u) (op_read_regions v)
  ++ region_hazards HAZARD_WAR u v (op_read_regions u) (op_write_regions v)
  ++ region_hazards HAZARD_WAW u v (op_write_regions u) (op_write_regions v).

(** [for i, u in enumerate(ops): for v in ops[i+1:]: ...] *)
Fixpoint all_hazards (ops : list Operator) : list Hazard :=
  match ops with
  | [] => []
  | u :: rest => (v ← rest; pair_hazards u v) ++ all_hazards rest
  end.

Fixpoint dedupe_loop (seen : list Hazard) (hazards : list Hazard) : list Hazard :=
  match hazards with
  | [] => []
  | h :: hs => if decide (h ∈ seen) then dedupe_loop seen hs
               else h :: dedupe_loop (h :: seen) hs
  end.
Definition dedupe_hazards (hazards : list Hazard) : list Hazard := dedupe_loop [] hazards.

Definition compute_hazards (ops : list Operator) : list Hazard :=
  dedupe_hazards (all_hazards ops).

(** ** The operator graph *)
Record OperatorGraph : Type := mk_graph {
  g_tensors : dict string TensorValue;
  g_storage_sizes : dict Z Z;
  g_storage_names : dict Z string;
  g_scalars : dict string SymbolicScalar;
  g_ops : list Operator;
  g_fresh_storages : gset Z;
  g_storage_versions : dict Z Z;
  g_row_position_tensors : gset string;
  g_row_position_capacity : dict string Z;
  g_next_vid : Z;
  g_next_opid : Z;
  g_next_storage : Z
}.

Definition empty_graph : OperatorGraph :=
  mk_graph [] [] [] [] [] ∅ [] ∅ [] 0 0 0.

Definition new_storage (name : string) (n : Z) : M OperatorGraph Z := λ g,
  let sid := g_next_storage g in
  (Ok sid,
   mk_graph (g_tensors g) (dict_set (g_storage_sizes g) sid n)
     (dict_set (g_storage_names g) sid name) (g_scalars g) (g_ops g)
     ({[sid]} ∪ g_fresh_storages g) (dict_set (g_storage_versions g) sid 0)
     (g_row_position_tensors g) (g_row_position_capacity g)
     (g_next_vid g) (g_next_opid g) (sid + 1)).

Definition add_external_storage (sid : Z) (name : string) (n : Z) : M OperatorGraph unit := λ g,
  (Ok tt,
   mk_graph (g_tensors g) (dict_setdefault (g_storage_sizes g) sid n)
     (dict_setdefault (g_storage_names g) sid name) (g_scalars g) (g_ops g)
     (g_fresh_storages g) (dict_setdefault (g_storage_versions g) sid 0)
     (g_row_position_tensors g) (g_row_position_capacity g)
     (g_next_vid g) (g_next_opid g) (g_next_storage g)).

Definition add_tensor (name : string) (shape : list Z) (dtype : DType) (storage_id : Z)
    (strides : list Z) (offset : Z) (valid_length : option ValidLength)
    : M OperatorGraph TensorValue := λ g,
  if dict_mem (g_tensors g) name then (Err (ValueError "duplicate tensor name"), g)
  else if existsb (λ s, s <? 0) strides
  then (Err (ValueError "negative strides are unsupported"), g)
  else
    let tv := mk_tensor (Some (g_next_vid g)) name shape dtype strides storage_id offset
                valid_length in
    (Ok tv,
     mk_graph (dict_set (g_tensors g) name tv) (g_storage_sizes g) (g_storage_names g)
       (g_scalars g) (g_ops g) (g_fresh_storages g) (g_storage_versions g)
       (g_row_position_tensors g) (g_row_position_capacity g)
       (g_next_vid g + 1) (g_next_opid g) (g_next_storage g)).

(** [for w in writes: versions[w.storage_id] = versions.get(.., 0) + 1] *)
Definition bump_versions (versions : dict Z Z) (writes : list Region) : dict Z Z :=
  foldl (λ vs w, dict_set vs (rg_storage_id w)
                   (default 0 (dict_get vs (rg_storage_id w)) + 1)) versions writes.

Definition record (kind : string) (inputs outputs : list string) (attributes : attrs)
    (reads writes : list Region) (source_location : string) : M OperatorGraph Operator := λ g,
  let op := mk_operator (g_next_opid g) kind inputs outputs attributes reads writes
              source_location in
  (Ok op,
   mk_graph (g_tensors g) (g_storage_sizes g) (g_storage_names g) (g_scalars g)
     (g_ops g ++ [op]) (g_fresh_storages g) (bump_versions (g_storage_versions g) writes)
     (g_row_position_tensors g) (g_row_position_capacity g)
     (g_next_vid g) (g_next_opid g + 1) (g_next_storage g)).

Definition add_scalar (sc : SymbolicScalar) : M OperatorGraph SymbolicScalar := λ g,
  (Ok sc,
   mk_graph (g_tensors g) (g_storage_sizes g) (g_storage_names g)
     (dict_set (g_scalars g) (sc_name sc) sc) (g_ops g) (g_fresh_storages g)
     (g_storage_versions g) (g_row_position_tensors g) (g_row_position_capacity g)
     (g_next_vid g) (g_next_opid g) (g_next_storage g)).

Definition graph_tensor (g : OperatorGraph) (name : string) : result TensorValue :=
  of_option (KeyError name) (dict_get (g_tensors g) name).

(** ** Address semantics

    What the layouts mean: the storage address of an index of a view, and
    the set of addresses a region may touch.  A symbolic bound may take any
    value up to the extent; an indirected region may touch any index. *)
Definition view_addr (tv : TensorValue) (idx : list Z) : Z :=
  tv_offset tv + zdot idx (tv_strides tv).

Fixpoint boxes_contain (boxes : list (Z * bound)) (shape idx : list Z) : Prop :=
  match boxes, shape, idx with
  | (lo, hi) :: bs, d :: ds, i :: js => lo ≤ i < hi_eff hi d ∧ boxes_contain bs ds js
  | [], [], [] => True
  | _, _, _ => False
  end.

Definition region_contains (r : Region) (idx : list Z) : Prop :=
  match rg_indirect_table r with
  | None => boxes_contain (rg_boxes r) (tv_shape (rg_view r)) idx
  | Some _ => in_range (tv_shape (rg_view r)) idx
  end.

Definition region_addr (r : Region) (a : Z) : Prop :=
  ∃ idx, region_contains r idx ∧ a = view_addr (rg_view r) idx.

(** A view whose elements are exactly the addresses [offset .. offset+numel). *)
Definition dense (tv : TensorValue) : Prop :=
  is_contiguous tv = true ∧ length (tv_strides tv) = length (tv_shape tv).

(** The bounding interval of an indirected region assumes a dense pool. *)
Definition region_ok (r : Region) : Prop :=
  is_Some (rg_indirect_table r) → dense (rg_view r).

(** *** Contiguous layouts *)
Lemma numel_loop_zprod (n : Z) (shape : list Z) : numel_loop n shape = n * zprod shape.
Proof.
  revert n. induction shape as [|d ds IH]; intros n; simpl; [lia|].
  rewrite IH. unfold zprod. simpl. lia.
Qed.

Lemma numel_of_zprod (shape : list Z) : numel_of shape = zprod shape.
Proof. unfold numel_of. rewrite numel_loop_zprod. lia. Qed.
#[export] Hint Rewrite numel_of_zprod : py.

Lemma contiguous_loop_app (l1 l2 : list (Z * Z)) (e : Z) :
  contiguous_loop (l1 ++ l2) e = contiguous_loop l1 e && contiguous_loop l2 (e * zprod l1.*1).
Proof.
  revert e. induction l1 as [|[d s] l1 IH]; intros e.
  - simpl. f_equal. unfold zprod. simpl. lia.
  - rewrite fmap_cons, zprod_cons. simpl. destruct (_ && _); [done|].
    rewrite IH. f_equal. f_equal. ring.
Qed.

Lemma zip_reverse {A B} (l : list A) (k : list B) :
  length l = length k → zip (reverse l) (reverse k) = reverse (zip l k).
Proof.
  revert k. induction l as [|x l IH]; intros [|y k] H; simplify_eq/=; [done|].
  rewrite !reverse_cons, zip_with_app by (rewrite !length_reverse; done).
  by rewrite IH.
Qed.

(** The suffix-product characterisation of a contiguous layout. *)
Fixpoint row_major (shape strides : list Z) : Prop :=
  match shape, strides with
  | [], [] => True
  | d :: ds, s :: ss => (d = 1 ∨ s = zprod ds) ∧ row_major ds ss
  | _, _ => False
  end.

Lemma is_contiguous_row_major (tv : TensorValue) :
  dense tv → row_major (tv_shape tv) (tv_strides tv).
Proof.
  destruct tv as [vid nm shape dt strides sid off vl]. unfold dense, is_contiguous. simpl.
  intros [Hc Hl]. rewrite zip_reverse in Hc by done.
  revert strides Hl Hc. induction shape as [|d ds IH]; intros [|s ss] Hl Hc; simplify_eq/=; [done|].
  rewrite reverse_cons, contiguous_loop_app in Hc. apply andb_true_iff in Hc as [Hc Hs].
  split; [|by apply IH]. simpl in Hs. rewrite Z.mul_1_l in Hs.
  assert (zprod (reverse (zip ds ss)).*1 = zprod ds) as E.
  { apply zprod_Permutation. rewrite reverse_Permutation, fst_zip by lia. done. }
  rewrite E in Hs. repeat case_bool_decide; simpl in Hs; try done; tauto.
Qed.

Lemma row_major_zdot (shape strides idx : list Z) :
  row_major shape strides → in_range shape idx → zdot idx strides = ravel shape idx.
Proof.
  intros Hr Hi. revert strides Hr.
  induction Hi as [|d i ds js Hd Hi IH]; intros [|s ss] Hr; simpl in *; try done.
  destruct Hr as [Hs Hr]. rewrite IH by done. destruct Hs as [-> | ->]; [|lia].
  assert (i = 0) as -> by lia. lia.
Qed.

Fixpoint suffix_prods (shape : list Z) : list Z :=
  match shape with [] => [] | _ :: ds => zprod ds :: suffix_prods ds end.

Lemma row_major_strides_eq (shape : list Z) : row_major_strides shape = suffix_prods shape.
Proof.
  induction shape as [|d [|d' ds] IH]; [done..|].
  change (row_major_strides (d :: d' :: ds)) with
    (match row_major_strides (d' :: ds), d' :: ds with
     | s :: ss, d0 :: _ => (s * d0) :: s :: ss | _, _ => [1] end).
  rewrite IH. simpl. f_equal. unfold zprod. simpl. lia.
Qed.

Lemma suffix_prods_ok (shape : list Z) : row_major shape (suffix_prods shape).
Proof. induction shape; simpl; auto. Qed.

Lemma row_major_strides_ok (shape : list Z) : row_major shape (row_major_strides shape).
Proof. rewrite row_major_strides_eq. apply suffix_prods_ok. Qed.

Lemma length_row_major_strides (shape : list Z) :
  length (row_major_strides shape) = length shape.
Proof. rewrite row_major_strides_eq. induction shape; simpl; auto. Qed.
#[export] Hint Resolve row_major_strides_ok : py.

Lemma row_major_lengths (shape strides : list Z) :
  row_major shape strides → length strides = length shape.
Proof.
  revert strides. induction shape as [|d ds IH]; intros [|s ss] H; simpl in *; try done.
  f_equal. apply IH, H.
Qed.

Lemma dense_addr (tv : TensorValue) (idx : list Z) :
  dense tv → in_range (tv_shape tv) idx →
  view_addr tv idx = tv_offset tv + ravel (tv_shape tv) idx.
Proof.
  intros Hd Hi. unfold view_addr. f_equal.
  apply row_major_zdot; [by apply is_contiguous_row_major | done].
Qed.

(** *** Regions *)
Lemma span_loop_sound (boxes : list (Z * bound)) (strides shape idx : list Z) (lo hi x : Z) :
  lo ≤ x ≤ hi → boxes_contain boxes shape idx →
  let '(l, h) := span_loop boxes strides shape lo hi in l ≤ x + zdot idx strides ≤ h.
Proof.
  revert strides shape idx lo hi x.
  induction boxes as [|[b0 b1] bs IH]; intros strides [|d ds] [|i js] lo hi x Hx Hb;
    simpl in Hb; try done; [simpl; lia|].
  destruct Hb as [Hi Hb]. destruct strides as [|s ss]; [simpl; lia|]. simpl.
  destruct (Z.ltb_spec b0 (hi_eff b1 d)) as [Hlt|]; [|lia].
  assert (Z.min (b0 * s) ((hi_eff b1 d - 1) * s) ≤ i * s
          ≤ Z.max (b0 * s) ((hi_eff b1 d - 1) * s)) by (destruct (Z.le_ge_cases 0 s); nia).
  specialize (IH ss ds js (lo + Z.min (b0 * s) ((hi_eff b1 d - 1) * s))
                (hi + Z.max (b0 * s) ((hi_eff b1 d - 1) * s)) (x + i * s) ltac:(lia) Hb).
  destruct (span_loop _ _ _ _ _). lia.
Qed.

Lemma storage_span_sound (r : Region) (a : Z) :
  region_ok r → region_addr r a → (storage_span r).1 ≤ a ≤ (storage_span r).2.
Proof.
  intros Hok (idx & Hc & ->). unfold storage_span, region_contains, region_ok in *.
  destruct (rg_indirect_table r); simpl.
  - rewrite dense_addr by auto. pose proof (ravel_bound _ _ Hc).
    unfold numel. rewrite numel_of_zprod. lia.
  - pose proof (span_loop_sound _ (tv_strides (rg_view r)) _ _
                  (tv_offset (rg_view r)) (tv_offset (rg_view r)) (tv_offset (rg_view r))
                  ltac:(lia) Hc) as H.
    unfold view_addr. destruct (span_loop _ _ _ _ _); simpl. lia.
Qed.

Lemma overlaps_true (r1 r2 : Region) :
  overlaps r1 r2 = true ↔
  rg_storage_id r1 = rg_storage_id r2
  ∧ (storage_span r1).1 ≤ (storage_span r2).2 ∧ (storage_span r2).1 ≤ (storage_span r1).2.
Proof.
  unfold overlaps. destruct (storage_span r1), (storage_span r2). simpl.
  destruct (Z.eqb_spec (rg_storage_id r1) (rg_storage_id r2)); simpl.
  - rewrite andb_true_iff, !Z.leb_le. tauto.
  - split; [done|]. tauto.
Qed.

Lemma overlaps_comm (r1 r2 : Region) : overlaps r1 r2 = overlaps r2 r1.
Proof.
  apply eq_true_iff_eq. rewrite !overlaps_true. split; intros (? & ? & ?); split_and!; done.
Qed.

(** C27. The overlap test never misses a conflict: two regions of one storage
    that touch a common address overlap, whatever values their symbolic
    bounds take at run time (an indirected region being over a dense pool). *)
Theorem overlaps_sound (r1 r2 : Region) (a : Z) :
  region_ok r1 → region_ok r2 → rg_storage_id r1 = rg_storage_id r2 →
  region_addr r1 a → region_addr r2 a → overlaps r1 r2 = true.
Proof.
  intros Ho1 Ho2 Hs H1 H2. apply overlaps_true. split; [done|].
  pose proof (storage_span_sound _ _ Ho1 H1). pose proof (storage_span_sound _ _ Ho2 H2). lia.
Qed.

(** *** Views *)
Fixpoint keep_idx (shape idx : list Z) : list Z :=
  match shape, idx with
  | d :: ds, i :: js => if decide (d = 1) then keep_idx ds js else i :: keep_idx ds js
  | _, _ => []
  end.

Lemma keep_in_range (shape idx : list Z) :
  in_range shape idx → in_range (drop_units shape) (keep_idx shape idx).
Proof.
  unfold drop_units. induction 1 as [|d i ds js Hd Hr IH]; simpl; [constructor|].
  rewrite filter_cons. repeat case_decide; try lia; try done. by constructor.
Qed.

Lemma zprod_drop_units (shape : list Z) : zprod (drop_units shape) = zprod shape.
Proof.
  unfold drop_units. induction shape as [|d ds IH]; [done|].
  rewrite filter_cons. case_decide; rewrite !zprod_cons; [by rewrite IH|]. lia.
Qed.

Lemma ravel_keep (shape idx : list Z) :
  in_range shape idx → ravel shape idx = ravel (drop_units shape) (keep_idx shape idx).
Proof.
  induction 1 as [|d i ds js Hd Hr IH]; [done|]. simpl. rewrite IH.
  unfold drop_units at 2. rewrite filter_cons. fold (drop_units ds).
  case_decide as H1; case_decide as H2; try lia; simpl.
  - by rewrite zprod_drop_units.
  - assert (i = 0) as -> by lia. lia.
Qed.

Lemma zdot_kept (shape strides idx : list Z) :
  length strides = length shape → in_range shape idx →
  zdot idx strides = zdot (keep_idx shape idx) (kept_dims shape strides).*2.
Proof.
  intros Hl Hr. revert strides Hl. unfold kept_dims.
  induction Hr as [|d i ds js Hd Hr IH]; intros [|s ss] Hl; simplify_eq/=; [done|].
  rewrite filter_cons. simpl. rewrite (IH ss) by done.
  case_decide as H1; case_decide as H2; try done.
  assert (i = 0) as -> by lia. lia.
Qed.

Lemma zdot_filled (new_shape kept idx : list Z) :
  length kept = length (drop_units new_shape) → Forall (λ s, 0 < s) kept →
  in_range new_shape idx →
  zdot idx (fill_zero_strides (place_strides new_shape kept)) = zdot (keep_idx new_shape idx) kept.
Proof.
  intros Hl Hk Hr. revert kept Hl Hk. unfold drop_units.
  induction Hr as [|d i ds js Hd Hr IH]; intros kept; [done|].
  rewrite filter_cons. simpl. intros Hl Hk. repeat case_decide; try lia; simpl.
  - destruct kept as [|s kept]; simplify_eq/=. inversion Hk; subst.
    rewrite IH by done. case_decide; lia.
  - rewrite IH by done. assert (i = 0) as -> by lia. lia.
Qed.

Lemma kept_dims_fst (shape strides : list Z) :
  length strides = length shape → (kept_dims shape strides).*1 = drop_units shape.
Proof.
  unfold kept_dims, drop_units. revert strides.
  induction shape as [|d ds IH]; intros [|s ss] Hl; simplify_eq/=; [done|].
  rewrite !filter_cons. simpl. case_decide; csimpl; rewrite ?fmap_cons, ?IH by done; done.
Qed.

Lemma kept_dims_positive (shape strides : list Z) :
  Forall (λ s, 0 < s) strides → Forall (λ s, 0 < s) (kept_dims shape strides).*2.
Proof.
  intros Hs. apply Forall_fmap, Forall_forall. intros [d s] Hin.
  apply list_elem_of_filter in Hin as [_ Hin]. apply elem_of_zip_r in Hin.
  rewrite Forall_forall in Hs. by apply Hs.
Qed.

(** C30. A successful reshape is layout-exact: indices with the same
    row-major position address the same storage element, so the new view
    enumerates exactly the elements of the old one in the same order (for
    positive strides; broadcast strides are [view_broadcast_inexact]). *)
Theorem view_layout_exact (tv tv' : TensorValue) (name : string) (new_shape idx idx' : list Z) :
  tensor_view tv name new_shape = Ok tv' →
  length (tv_strides tv) = length (tv_shape tv) →
  Forall (λ s, 0 < s) (tv_strides tv) →
  in_range (tv_shape tv) idx → in_range new_shape idx' →
  ravel (tv_shape tv) idx = ravel new_shape idx' →
  tv_storage_id tv' = tv_storage_id tv ∧ view_addr tv' idx' = view_addr tv idx.
Proof.
  intros Hv Hl Hs Hi Hi' Hk. unfold tensor_view in Hv.
  destruct (negb _); [done|]. case_decide as Hkept.
  - injection Hv as <-. split; [done|]. unfold view_addr. simpl. f_equal.
    rewrite (zdot_kept _ _ _ Hl Hi). rewrite (kept_dims_fst _ _ Hl) in Hkept.
    rewrite zdot_filled; [|by rewrite <- Hkept, <- (kept_dims_fst _ _ Hl), !length_fmap
                          |by apply kept_dims_positive | done].
    f_equal. apply (ravel_inj (drop_units new_shape)).
    + by apply keep_in_range.
    + rewrite <- Hkept. by apply keep_in_range.
    + rewrite <- Hkept at 2. rewrite <- !ravel_keep; done.
  - destruct (is_contiguous tv) eqn:Hc; [|done]. simpl in Hv. injection Hv as <-.
    split; [done|]. rewrite (dense_addr tv) by done. unfold view_addr. simpl.
    rewrite (row_major_zdot new_shape) by (auto with py). lia.
Qed.

(** *** Hazards *)

(** What a hazard of kind [k] between an earlier [u] and a later [v] means. *)
Definition conflict (k : hazard_kind) (u v : Operator) (sid : Z) : Prop :=
  let meet us vs := ∃ ru rv, ru ∈ us ∧ rv ∈ vs ∧ overlaps ru rv = true
                             ∧ rg_storage_id ru = sid in
  match k with
  | HAZARD_RAW => meet (op_write_regions u) (op_read_regions v)
  | HAZARD_WAR => meet (op_read_regions u) (op_write_regions v)
  | HAZARD_WAW => meet (op_write_regions u) (op_write_regions v)
  end.

Lemma elem_of_region_hazards (k : hazard_kind) (u v : Operator) (us vs : list Region) (h : Hazard) :
  h ∈ region_hazards k u v us vs ↔
  ∃ ru rv, ru ∈ us ∧ rv ∈ vs ∧ overlaps ru rv = true
           ∧ h = mk_hazard k (op_opid u) (op_opid v) (rg_storage_id ru).
Proof.
  unfold region_hazards. rewrite list_elem_of_bind. split.
  - intros (ru & Hh & Hru). apply list_elem_of_bind in Hh as (rv & Hh & Hrv).
    destruct (overlaps ru rv) eqn:E; [|by apply not_elem_of_nil in Hh].
    apply list_elem_of_singleton in Hh. eauto 10.
  - intros (ru & rv & Hru & Hrv & E & ->). exists ru. split; [|done].
    apply list_elem_of_bind. exists rv. split; [|done]. rewrite E. by apply list_elem_of_singleton.
Qed.

Lemma elem_of_pair_hazards (u v : Operator) (k : hazard_kind) (p c sid : Z) :
  mk_hazard k p c sid ∈ pair_hazards u v ↔
  op_opid u = p ∧ op_opid v = c ∧ conflict k u v sid.
Proof.
  unfold pair_hazards. rewrite !elem_of_app, !elem_of_region_hazards.
  destruct k; simpl; split.
  all: try (intros [(? & ? & ? & ? & ? & [=]) | [(? & ? & ? & ? & ? & [=])
                                                 | (? & ? & ? & ? & ? & [=])]]; by eauto 15).
  all: intros (<- & <- & ru & rv & ? & ? & ? & <-); eauto 15.
Qed.

Lemma elem_of_all_hazards (ops : list Operator) (h : Hazard) :
  h ∈ all_hazards ops ↔
  ∃ i j u v, (i < j)%nat ∧ ops !! i = Some u ∧ ops !! j = Some v ∧ h ∈ pair_hazards u v.
Proof.
  induction ops as [|w ops IH]; simpl.
  - split; [by intros ?%not_elem_of_nil | intros (i & j & u & v & _ & H & _)].
    by rewrite lookup_nil in H.
  - rewrite elem_of_app, list_elem_of_bind, IH. split.
    + intros [(v & Hh & Hv) | (i & j & u & v & Hij & Hu & Hv & Hh)].
      * apply list_elem_of_lookup in Hv as [j Hj]. exists 0%nat, (S j), w, v.
        split_and!; simpl; auto; lia.
      * exists (S i), (S j), u, v. split_and!; simpl; auto; lia.
    + intros ([|i] & [|j] & u & v & Hij & Hu & Hv & Hh); simpl in *; try lia; simplify_eq.
      * left. exists v. split; [done|]. by apply list_elem_of_lookup_2 in Hv.
      * right. exists i, j, u, v. split_and!; auto; lia.
Qed.

Lemma dedupe_loop_spec (hs seen : list Hazard) :
  NoDup (dedupe_loop seen hs) ∧
  ∀ h, h ∈ dedupe_loop seen hs ↔ h ∈ hs ∧ h ∉ seen.
Proof.
  revert seen. induction hs as [|h hs IH]; intros seen; simpl.
  - split; [constructor|]. intros h. rewrite elem_of_nil. tauto.
  - case_decide as Hin.
    + destruct (IH seen) as [Hnd Hs]. split; [done|]. intros h'. rewrite Hs, elem_of_cons.
      split; [tauto|]. intros [[-> | ?] ?]; tauto.
    + destruct (IH (h :: seen)) as [Hnd Hs]. split.
      * constructor; [|done]. rewrite Hs, elem_of_cons. tauto.
      * intros h'. rewrite !elem_of_cons, Hs, elem_of_cons.
        destruct (decide (h' = h)) as [->|]; [tauto|]. tauto.
Qed.

Lemma elem_of_compute_hazards (ops : list Operator) (k : hazard_kind) (p c sid : Z) :
  mk_hazard k p c sid ∈ compute_hazards ops ↔
  ∃ i j u v, (i < j)%nat ∧ ops !! i = Some u ∧ ops !! j = Some v
             ∧ op_opid u = p ∧ op_opid v = c ∧ conflict k u v sid.
Proof.
  unfold compute_hazards, dedupe_hazards. destruct (dedupe_loop_spec (all_hazards ops) []) as [_ Hs].
  rewrite Hs, elem_of_all_hazards. setoid_rewrite elem_of_pair_hazards. split; [by intros [? _]|].
  intros H. split; [done|]. apply not_elem_of_nil.
Qed.

(** C28. [compute_hazards] returns, without duplicates, exactly the RAW, WAR
    and WAW conflicts of the pairs of operators in program order; in
    particular two operators that touch a common address of a storage, at
    least one of them writing it, always get a hazard: RAW or WAW when the
    earlier one writes, WAR when it reads and the later one writes. *)
Theorem compute_hazards_spec (ops : list Operator) :
  NoDup (compute_hazards ops)
  ∧ (∀ k p c sid,
      mk_hazard k p c sid ∈ compute_hazards ops ↔
      ∃ i j u v, (i < j)%nat ∧ ops !! i = Some u ∧ ops !! j = Some v
                 ∧ op_opid u = p ∧ op_opid v = c ∧ conflict k u v sid)
  ∧ (∀ i j u v ru rv a, (i < j)%nat → ops !! i = Some u → ops !! j = Some v →
      ru ∈ op_read_regions u ++ op_write_regions u → rv ∈ op_read_regions v ++ op_write_regions v →
      ru ∈ op_write_regions u ∨ rv ∈ op_write_regions v →
      region_ok ru → region_ok rv → rg_storage_id ru = rg_storage_id rv →
      region_addr ru a → region_addr rv a →
      ∃ k, mk_hazard k (op_opid u) (op_opid v) (rg_storage_id ru) ∈ compute_hazards ops).
Proof.
  split_and!.
  - apply dedupe_loop_spec.
  - apply elem_of_compute_hazards.
  - intros i j u v ru rv a Hij Hu Hv Hru Hrv Hwr Ho1 Ho2 Hs H1 H2.
    assert (Hov : overlaps ru rv = true).
    { apply overlaps_true. pose proof (storage_span_sound _ _ Ho1 H1).
      pose proof (storage_span_sound _ _ Ho2 H2). split; [done|lia]. }
    rewrite elem_of_app in Hru, Hrv.
    assert (ru ∈ op_write_regions u ∧ rv ∈ op_read_regions v ∨ ru ∈ op_read_regions u ∧ rv ∈ op_write_regions v
            ∨ ru ∈ op_write_regions u ∧ rv ∈ op_write_regions v) as [ [? ?]|[ [? ?]|[? ?] ] ] by tauto;
      [exists HAZARD_RAW|exists HAZARD_WAR|exists HAZARD_WAW];
      apply elem_of_compute_hazards; exists i, j, u, v; simpl; eauto 15.
Qed.

(** *** Limits of the layout rules *)

(** A [\[4, 2\]] window of a row-major [\[4, 8\]] pool: not dense. *)
Definition narrow_pool : TensorValue :=
  mk_tensor (Some 0) "pool" [4; 2] F32 [8; 1] 7 0 None.
Definition slot_table : TensorValue :=
  mk_tensor (Some 1) "slots" [2; 4] I32 [4; 1] 8 0 None.

(** The whole-pool span of an indirected region is computed from the
    element count of the view, so over a pool view that is not dense it
    misses conflicts: an indirected region and the last row of the same view
    share address 24 and do not overlap. *)
Theorem indirect_span_misses_strided_pool :
  ∃ r1 r2 a,
    region_indirect narrow_pool slot_table 0 None = Ok r1
    ∧ region_tile narrow_pool [(3, BInt 4); (0, BInt 2)] = Ok r2
    ∧ region_addr r1 a ∧ region_addr r2 a ∧ overlaps r1 r2 = false.
Proof.
  eexists _, _, 24. split_and!; [reflexivity | reflexivity | | | reflexivity].
  - exists [3; 0]. split; [repeat (constructor; [lia|]); constructor | reflexivity].
  - exists [3; 0]. split; [by vm_compute|reflexivity].
Qed.

(** A row broadcast over 3 rows: stride 0 on a non-unit axis. *)
Definition broadcast_row : TensorValue :=
  mk_tensor (Some 0) "bcast" [3; 4] F32 [0; 1] 7 0 None.

(** The reshape rewrites a broadcast stride as if it belonged to a unit
    dimension: the view of the second row leaves the storage of the first. *)
Lemma view_broadcast_inexact :
  ∃ tv', tensor_view broadcast_row "v" [3; 1; 4] = Ok tv'
    ∧ ravel [3; 4] [2; 0] = ravel [3; 1; 4] [2; 0; 0]
    ∧ view_addr tv' [2; 0; 0] ≠ view_addr broadcast_row [2; 0].
Proof. eexists. split_and!; reflexivity || (vm_compute; done). Qed.

(** [resolved_boxes] with no scalars does not default to the full extent:
    any region with a symbolic upper bound raises [KeyError]. *)
Theorem resolved_boxes_needs_scalars (view : TensorValue) (name : string) (n : Z) :
  tv_shape view = [n] →
  resolved_boxes (region_prefix view 0 (mk_valid_length (VStr name) None "positions")) None
  = Err (KeyError (default name (strip_plus1 name))).
Proof.
  intros E. unfold resolved_boxes. simpl. rewrite E. simpl. unfold resolve. simpl.
  destruct (strip_plus1 name); simpl; by rewrite lookup_empty.
Qed.

Lemma resolved_boxes_needs_scalars_witness :
  tv_shape (mk_tensor None "k" [16] F32 [1] 0 0 None) = [16]
  ∧ resolved_boxes (region_prefix (mk_tensor None "k" [16] F32 [1] 0 0 None) 0
                     (mk_valid_length (VStr "p+1") None "positions")) None
    = Err (KeyError "p").
Proof. split; [reflexivity|]. apply (resolved_boxes_needs_scalars _ "p+1" 16). reflexivity. Defined.

(** *** Witnesses *)
Definition ex_matrix : TensorValue :=
  mk_tensor (Some 0) "x" [4; 8] F32 [8; 1] 3 0 None.

Lemma overlaps_sound_witness :
  ∃ r1 r2, region_tile ex_matrix [(0, BInt 2); (0, BStr "p+1")] = Ok r1
    ∧ region_tile ex_matrix [(1, BInt 3); (4, BInt 8)] = Ok r2
    ∧ region_addr r1 12 ∧ region_addr r2 12 ∧ overlaps r1 r2 = true.
Proof.
  eexists _, _. split; [reflexivity|]. split; [reflexivity|].
  assert (H1 : region_addr (mk_region 3 ex_matrix [(0, BInt 2); (0, BStr "p+1")] None (-1)) 12)
    by (exists [1; 4]; split; [by vm_compute | reflexivity]).
  assert (H2 : region_addr (mk_region 3 ex_matrix [(1, BInt 3); (4, BInt 8)] None (-1)) 12)
    by (exists [1; 4]; split; [by vm_compute | reflexivity]).
  split; [exact H1|]. split; [exact H2|].
  apply (overlaps_sound _ _ 12); [intros [? [=]] | intros [? [=]] | reflexivity | exact H1 | exact H2].
Defined.

(** An operator that reads a window of the matrix, and a later one that
    writes an overlapping window: a write after read. *)
Definition ex_left : Region := mk_region 3 ex_matrix [(0, BInt 2); (0, BStr "p+1")] None (-1).
Definition ex_right : Region := mk_region 3 ex_matrix [(1, BInt 3); (4, BInt 8)] None (-1).
Definition ex_reader : Operator := mk_operator 0 "gelu" ["x"] [] ∅ [ex_left] [] "ex".
Definition ex_writer : Operator := mk_operator 1 "gelu" [] ["x"] ∅ [] [ex_right] "ex".

Lemma compute_hazards_spec_witness :
  compute_hazards [ex_reader; ex_writer] = [mk_hazard HAZARD_WAR 0 1 3]
  ∧ ∃ k, mk_hazard k 0 1 3 ∈ compute_hazards [ex_reader; ex_writer].
Proof.
  split; [vm_compute; reflexivity|].
  apply (proj2 (proj2 (compute_hazards_spec [ex_reader; ex_writer])) 0%nat 1%nat ex_reader ex_writer ex_left ex_right 12);
    [lia|reflexivity|reflexivity|left|left|right; left|intros [? [=]]|intros [? [=]]|reflexivity| |];
    (exists [1; 4]; split; [by vm_compute|reflexivity]).
Defined.

Lemma view_layout_exact_witness :
  ∃ tv', tensor_view ex_matrix "v" [4; 2; 4] = Ok tv'
    ∧ view_addr tv' [3; 1; 2] = view_addr ex_matrix [3; 6].
Proof.
  eexists. split; [reflexivity|].
  eapply (view_layout_exact ex_matrix _ "v" [4; 2; 4] [3; 6] [3; 1; 2]);
    [reflexivity | reflexivity | repeat (constructor; [lia|]); constructor
    | repeat (constructor; [lia|]); constructor
    | repeat (constructor; [lia|]); constructor | reflexivity].
Defined.
