(* ===== verification/Contracts.v ===== *)
(** * Operator contracts (compiler/contracts.py)

    The table that names, for each operator kind, its lowering, its task kind,
    its device template and the types of its checked attributes. *)

From S2P Require Import Prelude OperatorIR.
Local Open Scope Z_scope.

(** The attribute types the table uses: [str] and [bool]. *)
Inductive pytype : Type := PyStr | PyBool.

Record OperatorContract : Type := mk_contract {
  oc_kind : string;
  oc_lowering : string;
  oc_task_kind : string;
  oc_device_template : string;
  oc_attribute_types : dict string pytype
}.

Definition reference_body (c : OperatorContract) : string := "_body_" +:+ oc_task_kind c.

Definition isinstance (v : attr) (t : pytype) : bool :=
  match v, t with AStr _, PyStr => true | ABool _, PyBool => true | _, _ => false end.

Definition validate_attributes (c : OperatorContract) (attributes : attrs) : result unit :=
  fold_result (λ _ nt, match attributes !! nt.1 with
                       | Some v => require (isinstance v nt.2) (TypeError (oc_kind c +:+ "." +:+ nt.1))
                       | None => Ok tt
                       end) tt (oc_attribute_types c).

Definition CONTRACTS : dict string OperatorContract :=
  [("linear", mk_contract "linear" "lower_linear" "gemm" "linear_task" []);
   ("linear_fp8", mk_contract "linear_fp8" "lower_linear_fp8" "gemv_fp8" "linear_fp8_task" []);
   ("indexer_scores", mk_contract "indexer_scores" "lower_indexer_scores" "indexer_scores" "indexer_scores_task" []);
   ("index_topk", mk_contract "index_topk" "lower_index_topk" "index_topk" "index_topk_task" []);
   ("layer_norm", mk_contract "layer_norm" "lower_layer_norm" "layernorm" "layernorm_task" []);
   ("rms_norm", mk_contract "rms_norm" "lower_rms_norm" "rms_norm" "rms_norm_task" []);
   ("rms_norm_gated", mk_contract "rms_norm_gated" "lower_rms_norm_gated" "rms_norm_gated" "rms_norm_gated_task" [("activation", PyStr)]);
   ("rope", mk_contract "rope" "lower_rope" "rope" "rope_task" [("which", PyStr); ("position", PyStr); ("position_form", PyStr); ("convention", PyStr)]);
   ("gelu", mk_contract "gelu" "lower_gelu" "elementwise" "elementwise_task" []);
   ("swiglu", mk_contract "swiglu" "lower_swiglu" "elementwise" "elementwise_task" []);
   ("add", mk_contract "add" "lower_add" "elementwise" "elementwise_task" []);
   ("embedding", mk_contract "embedding" "lower_embedding" "embedding" "embedding_task" [("position", PyStr); ("position_form", PyStr)]);
   ("cache_append", mk_contract "cache_append" "lower_cache_append" "cache_append" "cache_append_task" [("position", PyStr); ("position_form", PyStr)]);
   ("gdn_conv", mk_contract "gdn_conv" "lower_gdn_conv" "gdn_conv" "gdn_conv_task" []);
   ("gdn_delta", mk_contract "gdn_delta" "lower_gdn_delta" "gdn_delta" "gdn_delta_task" []);
   ("kda_delta", mk_contract "kda_delta" "lower_kda_delta" "kda_delta" "task_kda_delta" []);
   ("kda_fused_decode", mk_contract "kda_fused_decode" "lower_kda_fused_decode" "kda_fused_decode" "task_kda_fused" []);
   ("cache_append_paged", mk_contract "cache_append_paged" "lower_cache_append_paged" "cache_append_paged" "cache_append_paged_task" [("position", PyStr); ("position_form", PyStr)]);
   ("mhc_pre", mk_contract "mhc_pre" "lower_mhc_pre" "mhc_pre" "mhc_pre_task" []);
   ("mhc_post", mk_contract "mhc_post" "lower_mhc_post" "mhc_post" "mhc_post_task" []);
   ("attention_scores", mk_contract "attention_scores" "lower_attention_scores" "attention_scores" "attention_scores_task" [("position", PyStr); ("position_form", PyStr)]);
   ("attention_scores_paged", mk_contract "attention_scores_paged" "lower_attention_scores_paged" "attention_scores_paged" "attention_scores_paged_task" [("position", PyStr); ("position_form", PyStr)]);
   ("mla_scores", mk_contract "mla_scores" "lower_mla_scores" "mla_scores" "mla_scores_task" [("position_form", PyStr)]);
   ("mla_values", mk_contract "mla_values" "lower_mla_values" "mla_values" "mla_values_task" [("position_form", PyStr)]);
   ("conjugate_rope", mk_contract "conjugate_rope" "lower_conjugate_rope" "conjugate_rope" "conjugate_rope_task" [("position_form", PyStr)]);
   ("softmax", mk_contract "softmax" "lower_softmax" "softmax" "softmax_task" [("position", PyStr); ("position_form", PyStr)]);
   ("attention_values", mk_contract "attention_values" "lower_attention_values" "attention_values" "attention_values_task" [("gated", PyBool); ("position", PyStr); ("position_form", PyStr)]);
   ("attention_values_paged", mk_contract "attention_values_paged" "lower_attention_values_paged" "attention_values_paged" "attention_values_paged_task" [("position", PyStr); ("position_form", PyStr)]);
   ("moe_route", mk_contract "moe_route" "lower_moe_route" "moe_route" "moe_route_task" []);
   ("moe_expert", mk_contract "moe_expert" "lower_moe_expert" "moe_expert" "moe_expert_task" []);
   ("moe_combine", mk_contract "moe_combine" "lower_moe_combine" "moe_combine" "moe_combine_task" []);
   ("compressor_append", mk_contract "compressor_append" "lower_compressor_append" "compressor_append" "compressor_append_task" [("position", PyStr); ("position_form", PyStr)])].
