(* ===== verification/Capture.v ===== *)
(** * The recording backend (compiler/capture.py, compiler/capture_types.py)

    The recorder's state, the registration of external and fresh tensors,
    aliasing views, the guarded recording of an operator, and position
    guards.  A method call is a computation of the state-and-exception monad
    over the recorder: what it did before raising stays done. *)

From S2P Require Import Prelude Indexing OperatorIR Contracts.
Local Open Scope Z_scope.

Record Recorder : Type := mk_recorder {
  rb_graph : OperatorGraph;
  rb_op_counter : Z;
  rb_externals : dict string TensorValue
}.

Definition new_recorder : Recorder := mk_recorder empty_graph 0 [].

Abbreviation R := (M Recorder).

(** A method of [self.graph]. *)
Definition on_graph {A} (m : M OperatorGraph A) : R A := λ r,
  let '(x, g) := m (rb_graph r) in (x, mk_recorder g (rb_op_counter r) (rb_externals r)).

Definition get_graph : R OperatorGraph := λ r, (Ok (rb_graph r), r).

(** [self._suffix()] *)
Definition op_suffix : R string := λ r, (Ok ("_t" +:+ fmt02 (rb_op_counter r)), r).

(** [__getattr__]: an unknown operation. *)
Definition unknown_op (name : string) : exn :=
  if String.prefix "_" name then AttributeError name
  else UnsupportedOperator "backend has no operation".

(** ** Python sequences with possibly negative indices *)
Definition norm_index (n : nat) (i : Z) : Z := if decide (i < 0) then i + Z.of_nat n else i.

(** [xs[i]] *)
Definition seq_get {A} (xs : list A) (i : Z) : result A :=
  let j := norm_index (length xs) i in
  if decide (0 ≤ j) then of_option (IndexError "index out of range") (xs !! Z.to_nat j)
  else Err (IndexError "index out of range").
(** [xs[:i]] and [xs[i:]] *)
Definition seq_to {A} (xs : list A) (i : Z) : list A :=
  take (Z.to_nat (norm_index (length xs) i)) xs.
Definition seq_from {A} (xs : list A) (i : Z) : list A :=
  drop (Z.to_nat (norm_index (length xs) i)) xs.

(** ** Scalars and tensors *)
Definition define_position (capacity : Z) : R SymbolicScalar :=
  on_graph (add_scalar (mk_scalar "p" 0 capacity)).

Definition external_tensor (name : string) (shape : list Z) (dtype : DType) (storage_id : Z)
    (strides : option (list Z)) (offset : Z) (register_storage : bool) : R TensorValue := λ r,
  match dict_get (rb_externals r) name with
  | Some existing =>
      if bool_decide (tv_shape existing = shape) && (tv_storage_id existing =? storage_id)
      then (Ok existing, r)
      else (Err (ValueError "external tensor re-registered with different identity"), r)
  | None =>
      (let strides := default (row_major_strides shape) strides in
       _ ← (if register_storage then on_graph (add_external_storage storage_id name (numel_of shape))
            else mret tt);
       tv ← on_graph (add_tensor name shape dtype storage_id strides offset None);
       _ ← modify (λ r, mk_recorder (rb_graph r) (rb_op_counter r)
                          (dict_set (rb_externals r) name tv));
       mret tv) r
  end.

(** [graph.row_position_tensors.add(name)] and its capacity. *)
Definition mark_row_positions (name : string) (capacity : Z) : M OperatorGraph unit := λ g,
  (Ok tt,
   mk_graph (g_tensors g) (g_storage_sizes g) (g_storage_names g) (g_scalars g) (g_ops g)
     (g_fresh_storages g) (g_storage_versions g) ({[name]} ∪ g_row_position_tensors g)
     (dict_set (g_row_position_capacity g) name capacity)
     (g_next_vid g) (g_next_opid g) (g_next_storage g)).

Definition define_row_positions (name : string) (batch capacity storage_id : Z) : R TensorValue :=
  _ ← guard_m (0 <? batch) (CaptureError "row-position tensor needs a static batch > 0");
  _ ← guard_m (0 <? capacity) (CaptureError "row-position tensor needs capacity > 0");
  sym ← external_tensor name [batch] I32 storage_id None 0 true;
  _ ← on_graph (mark_row_positions name capacity);
  mret sym.

Definition fresh_buffer (name : string) (shape : list Z) (dtype : DType) : R TensorValue :=
  sid ← on_graph (new_storage name (numel_of shape));
  on_graph (add_tensor name shape dtype sid (row_major_strides shape) 0 None).

(** Register a derived view under its name. *)
Definition add_view (tv : TensorValue) : R TensorValue :=
  on_graph (add_tensor (tv_name tv) (tv_shape tv) (tv_dtype tv) (tv_storage_id tv)
              (tv_strides tv) (tv_offset tv) None).

Definition view_of (base : TensorValue) (name : string) (shape : list Z) : R TensorValue :=
  tv ← lift (tensor_view base name shape); add_view tv.

Definition narrow (base : TensorValue) (name : string) (axis start length : Z) : R TensorValue :=
  d ← lift (if decide (0 ≤ start) then seq_get (tv_shape base) axis else Ok 0);
  _ ← guard_m ((0 <=? start) && (start + length <=? d)) (ValueError "narrow out of bounds");
  let shape := seq_to (tv_shape base) axis ++ [length] ++ seq_from (tv_shape base) (axis + 1) in
  s ← lift (seq_get (tv_strides base) axis);
  on_graph (add_tensor name shape (tv_dtype base) (tv_storage_id base) (tv_strides base)
              (tv_offset base + start * s) None).

Definition transpose_view (w : TensorValue) (name : option string) : R TensorValue :=
  let name := match name with
              | Some n => if decide (n = ""%string) then tv_name w +:+ ".T" else n
              | None => tv_name w +:+ ".T"
              end in
  tv ← lift (transposed w name); add_view tv.

(** ** Recording *)
Definition ARITHMETIC_OP_KINDS : list string := CONTRACTS.*1.

Definition bump_counter : R unit :=
  modify (λ r, mk_recorder (rb_graph r) (rb_op_counter r + 1) (rb_externals r)).

Definition record_op (kind : string) (inputs outputs : list TensorValue) (attributes : attrs)
    (reads writes : list Region) (source_location : string) : R Operator :=
  _ ← guard_m (bool_decide (kind ∈ ARITHMETIC_OP_KINDS))
        (UnsupportedOperator "operator kind is outside the supported subset");
  _ ← bump_counter;
  r ← get_state;
  let loc := if decide (source_location = ""%string)
             then "op#" +:+ fmt (rb_op_counter r) +:+ " " +:+ kind else source_location in
  on_graph (record kind (tv_name <$> inputs) (tv_name <$> outputs) attributes reads writes loc).

Definition regional_reads (view : TensorValue) : Region := region_whole view.

(** ** Positions *)

(** The [position] argument of an operation: the symbolic scalar, a tensor
    handle, or any other Python value. *)
Inductive Position : Type :=
  | PosScalar (sc : SymbolicScalar)
  | PosTensor (tv : TensorValue)
  | PosOther.

Definition require_position (position : Position) : R unit :=
  g ← get_graph;
  match position with
  | PosTensor tv =>
      _ ← guard_m (bool_decide (tv_name tv ∈ g_row_position_tensors g))
            (CaptureError "per-row position tensor not registered");
      guard_m (bool_decide (tv_dtype tv = I32) && bool_decide (length (tv_shape tv) = 1%nat))
        (CaptureError "per-row positions must be an i32 [B] tensor")
  | PosOther => raise (CaptureError "requires the symbolic decode position")
  | PosScalar sc =>
      guard_m (dict_mem (g_scalars g) (sc_name sc)) (CaptureError "unknown symbolic scalar")
  end.

Definition position_name (position : Position) : result string :=
  match position with
  | PosScalar sc => Ok (sc_name sc)
  | PosTensor tv => Ok (tv_name tv)
  | PosOther => Err (AssertionError "isinstance(position, ...)")
  end.

Definition position_form (position : Position) : attr :=
  match position with PosTensor _ => AStr "row" | _ => AStr "scalar" end.

Definition valid_plus_one (position : Position) : R ValidLength :=
  _ ← require_position position;
  p ← lift (position_name position);
  match position with
  | PosTensor _ => lift (from_positions p)
  | _ => lift (new_ValidLength (VStr (p +:+ "+1")) None "positions")
  end.

(** [out or self.fresh_buffer(f"{name}{self._suffix()}", shape)] *)
Definition out_or_fresh (out : option TensorValue) (name : string) (shape : list Z) : R TensorValue :=
  match out with
  | Some tv => mret tv
  | None => sfx ← op_suffix; fresh_buffer (name +:+ sfx) shape F32
  end.

(** ** Capturing a model body *)
Definition is_capture_error (e : exn) : bool :=
  match e with CaptureError _ | UnsupportedOperator _ => true | _ => false end.

(** [capture_model]: the body is any computation over the recorder. *)
Definition capture_model {A} (build_forward : R A) (backend : option Recorder)
    : result (OperatorGraph * Recorder) :=
  match build_forward (default new_recorder backend) with
  | (Ok _, r) => Ok (rb_graph r, r)
  | (Err e, _) => if is_capture_error e then Err e else Err (CaptureError "model body raised")
  end.

Definition attr_map (l : list (string * attr)) : attrs := list_to_map (reverse l).

(** ** The invariant of a recorded graph *)
Record graph_wf (g : OperatorGraph) : Prop := {
  gw_next_opid : g_next_opid g = Z.of_nat (length (g_ops g));
  gw_opids : op_opid <$> g_ops g = zrange (g_next_opid g);
  gw_kinds : ∀ op, op ∈ g_ops g → op_kind op ∈ ARITHMETIC_OP_KINDS;
  gw_names : NoDup (g_tensors g).*1;
  gw_tensors : ∀ name tv, (name, tv) ∈ g_tensors g →
                 tv_name tv = name ∧ Forall (λ s, 0 ≤ s) (tv_strides tv)
                 ∧ ∃ vid, tv_vid tv = Some vid ∧ 0 ≤ vid < g_next_vid g;
  gw_vid : 0 ≤ g_next_vid g;
  gw_fresh : ∀ sid, sid ∈ g_fresh_storages g → 0 ≤ sid < g_next_storage g;
  gw_storage : 0 ≤ g_next_storage g
}.

Lemma empty_graph_wf : graph_wf empty_graph.
Proof.
  split; simpl; try done; try lia.
  - intros op H. by apply not_elem_of_nil in H.
  - constructor.
  - intros name tv H. by apply not_elem_of_nil in H.
Qed.

(** A computation that registers tensors but records no operator. *)
Definition silent {A} (m : R A) : Prop := ∀ r,
  graph_wf (rb_graph r) →
  graph_wf (rb_graph (m r).2) ∧ g_ops (rb_graph (m r).2) = g_ops (rb_graph r).

(** A computation that, when it returns, has recorded exactly one operator,
    of kind [kind], after the existing ones. *)
Definition records {A} (kind : string) (m : R A) : Prop := ∀ r,
  graph_wf (rb_graph r) →
  graph_wf (rb_graph (m r).2)
  ∧ match (m r).1 with
    | Ok _ => ∃ op, g_ops (rb_graph (m r).2) = g_ops (rb_graph r) ++ [op] ∧ op_kind op = kind
    | Err _ => g_ops (rb_graph (m r).2) = g_ops (rb_graph r)
    end.

Section capture_rules.
Context {A B : Type}.

Lemma silent_ret (x : A) : silent (mret x).
Proof. intros r Hw. done. Qed.

Lemma silent_lift (x : result A) : silent (lift x).
Proof. intros r Hw. done. Qed.

Lemma silent_raise (e : exn) : silent (raise e : R A).
Proof. intros r Hw. done. Qed.

Lemma silent_bind (m : R A) (f : A → R B) :
  silent m → (∀ x, silent (f x)) → silent (m ≫= f).
Proof.
  intros Hm Hf r Hw. destruct (Hm r Hw) as [Hw1 Ho1].
  unfold mbind, M_bind. destruct (m r) as [[x|e] r1]; simpl in *; [|done].
  destruct (Hf x r1 Hw1) as [Hw2 Ho2]. split; [done|]. by rewrite Ho2.
Qed.

Lemma records_bind (kind : string) (m : R A) (f : A → R B) :
  silent m → (∀ x, records kind (f x)) → records kind (m ≫= f).
Proof.
  intros Hm Hf r Hw. destruct (Hm r Hw) as [Hw1 Ho1].
  unfold mbind, M_bind. destruct (m r) as [[x|e] r1]; simpl in *; [|done].
  destruct (Hf x r1 Hw1) as [Hw2 Hrec]. split; [done|].
  rewrite Ho1 in Hrec. done.
Qed.

Lemma records_then (kind : string) (m : R A) (f : A → R B) :
  records kind m → (∀ x r, (f x r).2 = r ∧ is_ok (f x r).1 = true) → records kind (m ≫= f).
Proof.
  intros Hm Hf r Hw. destruct (Hm r Hw) as [Hw1 Hrec].
  unfold mbind, M_bind. destruct (m r) as [[x|e] r1]; simpl in *; [|done].
  destruct (Hf x r1) as [Hr Hok]. destruct (f x r1) as [[y|e] r2]; simpl in *; [|done]. by subst.
Qed.
End capture_rules.

Lemma silent_guard (b : bool) (e : exn) : silent (guard_m b e).
Proof. apply silent_lift. Qed.

Lemma silent_get_state : silent get_state.
Proof. intros r Hw. done. Qed.

Lemma silent_get_graph : silent get_graph.
Proof. intros r Hw. done. Qed.

Lemma silent_suffix : silent op_suffix.
Proof. intros r Hw. done. Qed.

Lemma silent_modify (f : Recorder → Recorder) :
  (∀ r, rb_graph (f r) = rb_graph r) → silent (modify f).
Proof. intros Hf r Hw. simpl. by rewrite Hf. Qed.

Lemma silent_on_graph {A} (m : M OperatorGraph A) :
  (∀ g, graph_wf g → graph_wf (m g).2 ∧ g_ops (m g).2 = g_ops g) → silent (on_graph m).
Proof.
  intros Hm r Hw. unfold on_graph. specialize (Hm _ Hw). destruct (m (rb_graph r)) as [x g]. done.
Qed.

Lemma new_storage_wf (name : string) (n : Z) (g : OperatorGraph) :
  graph_wf g → graph_wf (new_storage name n g).2 ∧ g_ops (new_storage name n g).2 = g_ops g.
Proof.
  intros [? ? ? ? ? ? Hf ?]. split; [|done]. split; simpl; try done; [|lia].
  intros sid [->%elem_of_singleton|Hs]%elem_of_union; [lia|]. specialize (Hf sid Hs). lia.
Qed.

Lemma add_external_storage_wf (sid : Z) (name : string) (n : Z) (g : OperatorGraph) :
  graph_wf g →
  graph_wf (add_external_storage sid name n g).2 ∧ g_ops (add_external_storage sid name n g).2 = g_ops g.
Proof. intros []. split; [|done]. by split. Qed.

Lemma add_tensor_wf (name : string) (shape : list Z) (dtype : DType) (sid : Z) (strides : list Z)
    (offset : Z) (vl : option ValidLength) (g : OperatorGraph) :
  graph_wf g →
  let res := add_tensor name shape dtype sid strides offset vl g in
  graph_wf res.2 ∧ g_ops res.2 = g_ops g.
Proof.
  intros [Hn Ho Hk Hnd Ht Hv Hf Hs]. unfold add_tensor.
  destruct (dict_mem (g_tensors g) name) eqn:Em; [by split|].
  destruct (existsb _ _) eqn:Es; [by split|]. split; [|done].
  assert (Hfresh : name ∉ (g_tensors g).*1) by (rewrite <- dict_mem_true; congruence).
  split; simpl; try done; try lia.
  - rewrite dict_set_keys, decide_False by done. apply NoDup_app.
    split_and!; [done|set_solver|apply NoDup_singleton].
  - intros name' tv Hin. apply dict_get_NoDup in Hin.
    + rewrite dict_get_set in Hin. case_decide as E.
      * simplify_eq. simpl. split_and!; [done| |eexists; split; [done|lia]].
        apply Forall_forall. intros s Hin. destruct (decide (0 ≤ s)) as [|Hneg]; [done|].
        assert (existsb (λ s, s <? 0) strides = true); [|congruence].
        apply existsb_exists. exists s. split; [by apply list_elem_of_In|]. apply Z.ltb_lt. lia.
      * apply dict_get_elem in Hin. destruct (Ht _ _ Hin) as (? & ? & vid & ? & ?).
        split_and!; [done..|]. exists vid. split; [done|lia].
    + rewrite dict_set_keys, decide_False by done. apply NoDup_app.
      split_and!; [done|set_solver|apply NoDup_singleton].
Qed.

(** *** The tensor table only grows *)
Definition registered (g : OperatorGraph) (tv : TensorValue) : Prop :=
  dict_get (g_tensors g) (tv_name tv) = Some tv.

Definition grows (g g' : OperatorGraph) : Prop :=
  ∀ n tv, dict_get (g_tensors g) n = Some tv → dict_get (g_tensors g') n = Some tv.

#[export] Instance grows_preorder : PreOrder grows.
Proof. split; [by intros g n tv|]. intros g1 g2 g3 H1 H2 n tv Hn. by apply H2, H1. Qed.

Lemma registered_grows (g g' : OperatorGraph) (tv : TensorValue) :
  grows g g' → registered g tv → registered g' tv.
Proof. intros Hg. apply Hg. Qed.

Lemma add_tensor_grows (name : string) (shape : list Z) (dtype : DType) (sid : Z) (strides : list Z)
    (offset : Z) (vl : option ValidLength) (g : OperatorGraph) :
  let res := add_tensor name shape dtype sid strides offset vl g in
  grows g res.2 ∧ ∀ tv, res.1 = Ok tv → registered res.2 tv.
Proof.
  unfold add_tensor. destruct (dict_mem (g_tensors g) name) eqn:Em; [done|].
  destruct (existsb _ _); [done|]. simpl. split.
  - intros n tv Hn. simpl. rewrite dict_get_set. case_decide as E; [|done]. subst.
    unfold dict_mem in Em. rewrite Hn in Em. by rewrite bool_decide_true in Em by eauto.
  - intros tv [= <-]. unfold registered. simpl. by rewrite dict_get_set, decide_True.
Qed.

Lemma mark_row_positions_wf (name : string) (capacity : Z) (g : OperatorGraph) :
  graph_wf g →
  graph_wf (mark_row_positions name capacity g).2
  ∧ g_ops (mark_row_positions name capacity g).2 = g_ops g.
Proof. intros []. split; [|done]. by split. Qed.

Lemma add_scalar_wf (sc : SymbolicScalar) (g : OperatorGraph) :
  graph_wf g → graph_wf (add_scalar sc g).2 ∧ g_ops (add_scalar sc g).2 = g_ops g.
Proof. intros []. split; [|done]. by split. Qed.

Create HintDb capture.
#[export] Hint Resolve silent_ret silent_lift silent_raise silent_guard silent_get_state
  silent_get_graph silent_suffix : capture.

(** Decompose a computation into its steps, leaving calls to the hints. *)
Ltac silent_steps :=
  repeat first
    [ solve [auto with capture]
    | apply silent_bind; [|intros ?]
    | match goal with |- silent (match ?x with _ => _ end) => destruct x end
    | match goal with |- silent (let '_ := ?x in _) => destruct x end ].

Lemma silent_external_tensor (name : string) (shape : list Z) (dtype : DType) (sid : Z)
    (strides : option (list Z)) (offset : Z) (reg : bool) :
  silent (external_tensor name shape dtype sid strides offset reg).
Proof.
  intros r Hw. unfold external_tensor. destruct (dict_get (rb_externals r) name) as [tv|].
  - by destruct (_ && _).
  - revert r Hw. apply silent_bind; [destruct reg|intros _; apply silent_bind; [|intros tv]].
    + apply silent_on_graph. intros g. apply add_external_storage_wf.
    + auto with capture.
    + apply silent_on_graph. intros g. apply add_tensor_wf.
    + apply silent_bind; [by apply silent_modify|]. auto with capture.
Qed.

Lemma silent_fresh_buffer (name : string) (shape : list Z) (dtype : DType) :
  silent (fresh_buffer name shape dtype).
Proof.
  apply silent_bind; [apply silent_on_graph, new_storage_wf|].
  intros sid. apply silent_on_graph. intros g. apply add_tensor_wf.
Qed.

Lemma silent_add_view (tv : TensorValue) : silent (add_view tv).
Proof. apply silent_on_graph. intros g. apply add_tensor_wf. Qed.
#[export] Hint Resolve silent_external_tensor silent_fresh_buffer silent_add_view : capture.

Lemma silent_view_of (base : TensorValue) (name : string) (shape : list Z) :
  silent (view_of base name shape).
Proof. unfold view_of. silent_steps. Qed.

Lemma silent_narrow (base : TensorValue) (name : string) (axis start len : Z) :
  silent (narrow base name axis start len).
Proof. unfold narrow. silent_steps. apply silent_on_graph. intros g. apply add_tensor_wf. Qed.

Lemma silent_transpose_view (w : TensorValue) (name : option string) :
  silent (transpose_view w name).
Proof. unfold transpose_view. silent_steps. Qed.

Lemma silent_require_position (position : Position) : silent (require_position position).
Proof. unfold require_position. silent_steps. Qed.

Lemma silent_out_or_fresh (out : option TensorValue) (name : string) (shape : list Z) :
  silent (out_or_fresh out name shape).
Proof. unfold out_or_fresh. silent_steps. Qed.

Lemma silent_define_position (capacity : Z) : silent (define_position capacity).
Proof. apply silent_on_graph, add_scalar_wf. Qed.

Lemma silent_define_row_positions (name : string) (batch capacity sid : Z) :
  silent (define_row_positions name batch capacity sid).
Proof. unfold define_row_positions. silent_steps. apply silent_on_graph, mark_row_positions_wf. Qed.
#[export] Hint Resolve silent_view_of silent_narrow silent_transpose_view silent_require_position
  silent_out_or_fresh silent_define_position silent_define_row_positions : capture.

Lemma silent_valid_plus_one (position : Position) : silent (valid_plus_one position).
Proof. unfold valid_plus_one. silent_steps. Qed.
#[export] Hint Resolve silent_valid_plus_one : capture.

Lemma records_record (kind : string) (inputs outputs : list string) (attributes : attrs)
    (rs ws : list Region) (loc : string) :
  kind ∈ ARITHMETIC_OP_KINDS → records kind (on_graph (record kind inputs outputs attributes rs ws loc)).
Proof.
  intros Hkind r [Hn Ho Hk Hnd Ht Hv Hf Hs]. simpl. split.
  - split; simpl; try done.
    + rewrite length_app. simpl. lia.
    + rewrite fmap_app, Ho, Hn. simpl. rewrite <- zrange_S by lia. done.
    + intros op [Hin| ->%list_elem_of_singleton]%elem_of_app; [by apply Hk|done].
  - eexists. split; [done|done].
Qed.

Lemma records_record_op (kind : string) (inputs outputs : list TensorValue) (attributes : attrs)
    (rs ws : list Region) (loc : string) :
  kind ∈ ARITHMETIC_OP_KINDS → records kind (record_op kind inputs outputs attributes rs ws loc).
Proof.
  intros Hkind. unfold record_op. rewrite bool_decide_true by done.
  apply records_bind; [auto with capture|intros _].
  apply records_bind; [by apply silent_modify|intros _].
  apply records_bind; [auto with capture|intros r]. by apply records_record.
Qed.

(** Strip the silent steps in front of the recording one. *)
Ltac records_steps :=
  repeat first
    [ match goal with |- records _ (match ?x with _ => _ end) => destruct x end
    | apply records_bind; [solve [silent_steps]|intros ?] ].

(** ** Storage ids *)

(** Caller-chosen storage ids are not reserved: registering an external
    storage under the next fresh id leaves the counter where it is, so the
    next fresh buffer silently gets the same storage (its size entry
    replaces the external one). *)
Theorem external_storage_id_reused (g : OperatorGraph) (name1 name2 : string) (n1 n2 : Z) :
  let sid := g_next_storage g in
  let g1 := (add_external_storage sid name1 n1 g).2 in
  let '(res, g2) := new_storage name2 n2 g1 in
  res = Ok sid ∧ sid ∈ g_fresh_storages g2
  ∧ is_Some (dict_get (g_storage_sizes g1) sid) ∧ dict_get (g_storage_sizes g2) sid = Some n2.
Proof.
  simpl. split_and!; [done|set_solver| |by rewrite dict_get_set, decide_True].
  rewrite dict_get_setdefault, decide_True by done. eauto.
Qed.
