(* ===== verification/CaptureUpdates.v ===== *)
(** * Recorded updates of caller-owned state (compiler/capture_attention.py,
    compiler/capture_recurrent.py)

    The operations that mutate a cache or a state pool record write effects on
    its storage and return post-append views: the same layout over the same
    storage, under a name that carries the storage's new version.  This file
    holds that shared step and the rules that reason about it. *)

From S2P Require Import Prelude Indexing OperatorIR Contracts Capture.
Local Open Scope Z_scope.

(** [self.graph.add_tensor(f"{prefix}_v{versions[sid]}", base.shape, ...)] *)
Definition post_view (prefix : string) (base : TensorValue) (valid : option ValidLength) : R TensorValue :=
  g ← get_graph;
  v ← lift (of_option (KeyError "storage_versions") (dict_get (g_storage_versions g) (tv_storage_id base)));
  on_graph (add_tensor (prefix +:+ "_v" +:+ fmt v) (tv_shape base) (tv_dtype base)
              (tv_storage_id base) (tv_strides base) (tv_offset base) valid).

(** [out or self.fresh_buffer(f"{name}{self._suffix()}", shape, dtype)] *)
Definition out_or_fresh_as (out : option TensorValue) (name : string) (shape : list Z) (dtype : DType)
    : R TensorValue :=
  match out with
  | Some tv => mret tv
  | None => sfx ← op_suffix; fresh_buffer (name +:+ sfx) shape dtype
  end.

(** ** What an update promises *)

(** The same layout over the same storage. *)
Definition aliases (v base : TensorValue) : Prop :=
  tv_storage_id v = tv_storage_id base ∧ tv_shape v = tv_shape base
  ∧ tv_strides v = tv_strides base ∧ tv_offset v = tv_offset base ∧ tv_dtype v = tv_dtype base.

(** [op] writes the storage of [base], and [v] is a registered alias of
    [base] whose name was not taken before. *)
Definition post_state (g g' : OperatorGraph) (op : Operator) (base v : TensorValue) : Prop :=
  (∃ w, w ∈ op_write_regions op ∧ rg_storage_id w = tv_storage_id base)
  ∧ aliases v base ∧ dict_get (g_tensors g') (tv_name v) = Some v
  ∧ dict_get (g_tensors g) (tv_name v) = None.

(** The recorded operators, when [m] raises: none is added, or one (an
    exception after the recording does not undo it). *)
Definition at_most_one (kind : string) (g g' : OperatorGraph) : Prop :=
  g_ops g' = g_ops g ∨ ∃ op, g_ops g' = g_ops g ++ [op] ∧ op_kind op = kind.

(** [m] records one operator that updates the storages of [bases]; its
    result holds the post-append views [views]. *)
Definition updates {A} (kind : string) (m : R A) (bases : list TensorValue)
    (views : A → list TensorValue) : Prop := ∀ r,
  graph_wf (rb_graph r) →
  graph_wf (rb_graph (m r).2)
  ∧ match (m r).1 with
    | Ok x => ∃ op, g_ops (rb_graph (m r).2) = g_ops (rb_graph r) ++ [op] ∧ op_kind op = kind
                ∧ Forall2 (post_state (rb_graph r) (rb_graph (m r).2) op) bases (views x)
    | Err _ => at_most_one kind (rb_graph r) (rb_graph (m r).2)
    end.

(** ** Rules *)

(** A step that records nothing and keeps every registered tensor. *)
Record quiet {A} (m : R A) : Prop := {
  qu_silent : silent m;
  qu_grows : ∀ r, grows (rb_graph r) (rb_graph (m r).2)
}.

Section quiet_rules.
Context {A B : Type}.

Lemma quiet_bind (m : R A) (f : A → R B) : quiet m → (∀ x, quiet (f x)) → quiet (m ≫= f).
Proof.
  intros [Hs Hg] Hf. split; [apply silent_bind; [done|apply Hf]|]. intros r.
  specialize (Hg r). unfold mbind, M_bind. destruct (m r) as [[x|e] r1]; [|done].
  etrans; [exact Hg|]. apply (qu_grows _ (Hf x) r1).
Qed.

(** A step that leaves the graph alone. *)
Lemma quiet_pure (m : R A) : (∀ r, rb_graph (m r).2 = rb_graph r) → quiet m.
Proof.
  intros Hm. split.
  - intros r Hw. by rewrite Hm.
  - intros r. by rewrite Hm.
Qed.

Lemma quiet_on_graph (m : M OperatorGraph A) :
  (∀ g, graph_wf g → graph_wf (m g).2 ∧ g_ops (m g).2 = g_ops g) → (∀ g, grows g (m g).2) →
  quiet (on_graph m).
Proof.
  intros Hm Hg. split; [by apply silent_on_graph|]. intros r. specialize (Hg (rb_graph r)).
  unfold on_graph. by destruct (m (rb_graph r)).
Qed.

Lemma at_most_one_quiet (kind : string) (g1 g2 g3 : OperatorGraph) :
  g_ops g2 = g_ops g1 → at_most_one kind g2 g3 → at_most_one kind g1 g3.
Proof. intros E. unfold at_most_one. by rewrite E. Qed.

Lemma updates_bind (kind : string) (m : R A) (f : A → R B) (bases : list TensorValue)
    (views : B → list TensorValue) :
  quiet m → (∀ r x, (m r).1 = Ok x → updates kind (f x) bases views) →
  updates kind (m ≫= f) bases views.
Proof.
  intros [Hs Hg] Hf r Hw. destruct (Hs r Hw) as [Hw1 Ho1]. specialize (Hg r). specialize (Hf r).
  unfold mbind, M_bind. destruct (m r) as [[x|e] r1]; cbn [fst snd] in *; [|split; [done|by left]].
  destruct (Hf x eq_refl r1 Hw1) as [Hw2 Hrec]. split; [done|].
  destruct (f x r1) as [[y|e] r2]; cbn [fst snd] in *; [|by eapply at_most_one_quiet].
  destruct Hrec as (op & Hop & Hk & Hviews). exists op. rewrite Hop, Ho1. split_and!; [done|done|].
  eapply Forall2_impl; [exact Hviews|]. intros base v (Hwr & Hal & Hreg & Hnew). split_and!; try done.
  destruct (dict_get (g_tensors (rb_graph r)) (tv_name v)) as [tv|] eqn:E; [|done].
  apply Hg in E. congruence.
Qed.
End quiet_rules.

(** *** The recording step and the post-append views *)
Lemma record_op_spec (kind : string) (inputs outputs : list TensorValue) (attributes : attrs)
    (rs ws : list Region) (loc : string) (r : Recorder) :
  kind ∈ ARITHMETIC_OP_KINDS → graph_wf (rb_graph r) →
  ∃ op r', record_op kind inputs outputs attributes rs ws loc r = (Ok op, r')
    ∧ graph_wf (rb_graph r') ∧ g_tensors (rb_graph r') = g_tensors (rb_graph r)
    ∧ g_ops (rb_graph r') = g_ops (rb_graph r) ++ [op] ∧ op_kind op = kind
    ∧ op_write_regions op = ws.
Proof.
  intros Hk Hw.
  destruct (records_record_op kind inputs outputs attributes rs ws loc Hk r Hw) as [Hw' _].
  unfold record_op in *. rewrite bool_decide_true in * by done.
  eexists _, _. split; [reflexivity|]. by split_and!.
Qed.

Lemma quiet_post_view (prefix : string) (base : TensorValue) (valid : option ValidLength) :
  quiet (post_view prefix base valid).
Proof.
  apply quiet_bind; [by apply quiet_pure|intros g]. apply quiet_bind; [by apply quiet_pure|intros v].
  apply quiet_on_graph; intros; [by apply add_tensor_wf|apply add_tensor_grows].
Qed.

Lemma post_view_ok (prefix : string) (base : TensorValue) (valid : option ValidLength)
    (r r' : Recorder) (v : TensorValue) :
  post_view prefix base valid r = (Ok v, r') →
  aliases v base ∧ registered (rb_graph r') v
  ∧ dict_get (g_tensors (rb_graph r)) (tv_name v) = None.
Proof.
  unfold post_view, get_graph, lift, on_graph, mbind, M_bind.
  destruct (of_option _ _) as [n|e]; [|done]. unfold add_tensor.
  destruct (dict_mem _ _) eqn:Em; [done|]. destruct (existsb _ _); [done|]. intros [= <- <-].
  split_and!; try done.
  - unfold registered. simpl. by rewrite dict_get_set, decide_True.
  - unfold dict_mem in Em. apply bool_decide_eq_false in Em. simpl.
    destruct (dict_get _ _); [|done]. by destruct Em; eauto.
Qed.

Lemma post_state_grows (g g1 g2 : OperatorGraph) (op : Operator) (base v : TensorValue) :
  grows g1 g2 → post_state g g1 op base v → post_state g g2 op base v.
Proof. intros Hg (Hw & Ha & Hr & Hn). split_and!; try done. by apply Hg. Qed.

(** [m] runs after [op] was recorded on top of [g0]; the pairs [acc] of a
    pool and its view are done, [m] completes them to [bases] and [views]. *)
Definition finishes {B} (g0 : OperatorGraph) (op : Operator) (acc : list (TensorValue * TensorValue))
    (m : R B) (bases : list TensorValue) (views : B → list TensorValue) : Prop := ∀ r,
  graph_wf (rb_graph r) → grows g0 (rb_graph r) →
  Forall (λ bv, post_state g0 (rb_graph r) op bv.1 bv.2) acc →
  graph_wf (rb_graph (m r).2) ∧ g_ops (rb_graph (m r).2) = g_ops (rb_graph r)
  ∧ ∀ x, (m r).1 = Ok x → Forall2 (post_state g0 (rb_graph (m r).2) op) bases (views x).

Section finishing.
Context {B : Type} (g0 : OperatorGraph) (op : Operator).
Context (bases : list TensorValue) (views : B → list TensorValue).

Lemma finishes_ret (acc : list (TensorValue * TensorValue)) (x : B) :
  acc.*1 = bases → acc.*2 = views x → finishes g0 op acc (mret x) bases views.
Proof.
  intros Hb Hv r Hw Hg Hacc. split_and!; [done|done|]. intros y [= <-]. simpl. rewrite <- Hb, <- Hv.
  apply Forall2_fmap, Forall_Forall2_diag, Hacc.
Qed.

Lemma finishes_view (acc : list (TensorValue * TensorValue)) (prefix : string) (base : TensorValue)
    (valid : option ValidLength) (f : TensorValue → R B) :
  (∃ w, w ∈ op_write_regions op ∧ rg_storage_id w = tv_storage_id base) →
  (∀ v, finishes g0 op (acc ++ [(base, v)]) (f v) bases views) →
  finishes g0 op acc (post_view prefix base valid ≫= f) bases views.
Proof.
  intros Hws Hf r Hw Hg Hacc. destruct (quiet_post_view prefix base valid) as [Hs Hq].
  destruct (Hs r Hw) as [Hw1 Ho1]. specialize (Hq r). unfold mbind, M_bind.
  destruct (post_view prefix base valid r) as [[v|e] r1] eqn:Hv; cbn [fst snd] in *; [|done].
  destruct (post_view_ok _ _ _ _ _ _ Hv) as (Hal & Hreg & Hnew). rewrite <- Ho1.
  apply Hf; [done|by etrans|]. apply Forall_app. split.
  - eapply Forall_impl; [exact Hacc|]. intros bv. by apply post_state_grows.
  - repeat constructor; try apply Hal; [done|done|]. simpl.
    destruct (dict_get (g_tensors g0) (tv_name v)) as [tv|] eqn:E; [|done].
    apply Hg in E. congruence.
Qed.
End finishing.

Section recording.
Context {B : Type} (kind : string) (inputs outputs : list TensorValue) (attributes : attrs).
Context (rs ws : list Region) (loc : string) (views : B → list TensorValue).
Context (Hkind : kind ∈ ARITHMETIC_OP_KINDS).

Lemma updates_record (m : R B) (bases : list TensorValue) :
  (∀ g op, op_write_regions op = ws → finishes g op [] m bases views) →
  updates kind (_ ← record_op kind inputs outputs attributes rs ws loc; m) bases views.
Proof using Hkind.
  intros Hm r Hw.
  destruct (record_op_spec kind inputs outputs attributes rs ws loc r Hkind Hw)
    as (op & r1 & Hrec & Hw1 & Ht1 & Ho1 & Hk & Hwr).
  unfold mbind, M_bind. rewrite Hrec.
  destruct (Hm (rb_graph r) op Hwr r1 Hw1) as (Hw2 & Ho2 & Hviews); [|constructor|].
  { intros n tv. by rewrite Ht1. }
  split; [done|]. rewrite Ho2, Ho1. destruct (m r1) as [[x|e] r2]; cbn [fst snd] in *.
  - exists op. split_and!; [done|done|by apply Hviews].
  - right. rewrite Ho2, Ho1. by exists op.
Qed.
End recording.

(** ** Automation *)
Create HintDb quiet.
Lemma quiet_lift {A} (x : result A) : quiet (lift x). Proof. by apply quiet_pure. Qed.
Lemma quiet_guard (b : bool) (e : exn) : quiet (guard_m b e). Proof. by apply quiet_pure. Qed.
Lemma quiet_ret {A} (x : A) : quiet (mret x). Proof. by apply quiet_pure. Qed.
Lemma quiet_raise {A} (e : exn) : quiet (raise e : R A). Proof. by apply quiet_pure. Qed.
Lemma quiet_suffix : quiet op_suffix. Proof. by apply quiet_pure. Qed.
Lemma quiet_get_graph : quiet get_graph. Proof. by apply quiet_pure. Qed.
#[export] Hint Resolve quiet_lift quiet_guard quiet_ret quiet_raise quiet_suffix quiet_get_graph : quiet.

Ltac quiet_steps :=
  repeat first
    [ solve [auto with quiet]
    | apply quiet_bind; [|intros ?]
    | match goal with |- quiet (match ?x with _ => _ end) => destruct x end ].

Lemma quiet_fresh_buffer (name : string) (shape : list Z) (dtype : DType) :
  quiet (fresh_buffer name shape dtype).
Proof.
  apply quiet_bind; [apply quiet_on_graph; [apply new_storage_wf|by intros g n tv]|]. intros sid.
  apply quiet_on_graph; intros; [by apply add_tensor_wf|apply add_tensor_grows].
Qed.
#[export] Hint Resolve quiet_fresh_buffer : quiet.

Lemma quiet_require_position (position : Position) : quiet (require_position position).
Proof. unfold require_position. quiet_steps. Qed.
#[export] Hint Resolve quiet_require_position : quiet.

Lemma quiet_valid_plus_one (position : Position) : quiet (valid_plus_one position).
Proof. unfold valid_plus_one. quiet_steps. Qed.

Lemma quiet_out_or_fresh (out : option TensorValue) (name : string) (shape : list Z) :
  quiet (out_or_fresh out name shape).
Proof. unfold out_or_fresh. quiet_steps. Qed.

Lemma quiet_out_or_fresh_as (out : option TensorValue) (name : string) (shape : list Z) (dtype : DType) :
  quiet (out_or_fresh_as out name shape dtype).
Proof. unfold out_or_fresh_as. quiet_steps. Qed.
#[export] Hint Resolve quiet_valid_plus_one quiet_out_or_fresh quiet_out_or_fresh_as : quiet.
