(* ===== verification/CaptureDense.v ===== *)
(** * Dense capture rules (compiler/capture_dense.py)

    The methods of [DenseRecording]: shape checks, the output buffer, and the
    recorded operator with its regions. *)

From S2P Require Import Prelude Indexing OperatorIR Contracts Capture.
Local Open Scope Z_scope.

Definition opt_list {A} (o : option A) : list A := match o with Some x => [x] | None => [] end.

(** [a, b = shape] and [a, b, c = shape] *)
Definition shape2 (tv : TensorValue) : result (Z * Z) :=
  match tv_shape tv with [a; b] => Ok (a, b) | _ => Err (ValueError "unpack") end.
Definition shape3 (tv : TensorValue) : result (Z * Z * Z) :=
  match tv_shape tv with [a; b; c] => Ok (a, b, c) | _ => Err (ValueError "unpack") end.

(** The common ending of an operation with one output: every operand is read
    whole, the output is written whole. *)
Definition record_whole (kind : string) (inputs reads : list TensorValue) (out : TensorValue)
    (attributes : list (string * attr)) (source_location : string) : R TensorValue :=
  _ ← record_op kind inputs [out] (attr_map attributes)
        (regional_reads <$> reads) [regional_reads out] source_location;
  mret out.

Definition embedding (ids token : TensorValue) (position_emb : option TensorValue)
    (position : Position) (out : option TensorValue) : R TensorValue :=
  _ ← require_position position;
  o ← match out with
      | Some tv => mret tv
      | None => rows ← lift (py_index (tv_shape ids) 0);
                width ← lift (py_index (tv_shape token) 1);
                out_or_fresh None "hidden" [rows; width]
      end;
  p ← lift (position_name position);
  record_whole "embedding" ([ids; token] ++ opt_list position_emb)
    ([token; ids] ++ opt_list position_emb) o
    [("position", AStr p); ("position_form", position_form position);
     ("pos_table", ABool (bool_decide (is_Some position_emb)))] "embedding lookup".

Definition layer_norm (x gamma beta : TensorValue) (eps : pyfloat) (out : option TensorValue)
    (name : string) : R TensorValue :=
  o ← out_or_fresh out name (tv_shape x);
  record_whole "layer_norm" [x; gamma; beta] [x; gamma; beta] o [("eps", AFloat eps)] name.

Definition linear (x w : TensorValue) (b out : option TensorValue) (name : string)
    (grouped_heads : option Z) : R TensorValue :=
  m ← lift (py_index (tv_shape x) 0);
  n ← lift (py_index (tv_shape w) 1);
  xk ← (if decide (2 < length (tv_shape x))%nat then
          let k := numel_loop 1 (tail (tv_shape x)) in
          sfx ← op_suffix;
          x ← view_of x (name +:+ "_flat" +:+ sfx) [m; k];
          mret (x, k)
        else k ← lift (py_index (tv_shape x) 1); mret (x, k));
  let '(x, k) := xk in
  _ ← match grouped_heads with
      | None => mret tt
      | Some g => guard_m ((1 <=? g) && (k `mod` g =? 0) && (n `mod` g =? 0))
                    (ValueError "grouped linear requires grouped_heads to divide K and N")
      end;
  o ← out_or_fresh out name [m; n];
  record_whole "linear" ([x; w] ++ opt_list b) ([x; w] ++ opt_list b) o
    ([("bias", ABool (bool_decide (is_Some b)))]
     ++ match grouped_heads with Some g => [("grouped_heads", AInt g)] | None => [] end) name.

Definition linear_fp8 (x w scale : TensorValue) (out : option TensorValue) (name : string)
    (quant_block : Z) : R TensorValue :=
  '(m, k) ← lift (shape2 x);
  '(n, k_w) ← lift (shape2 w);
  _ ← guard_m (k_w =? k) (ValueError "linear_fp8 weight contraction mismatch");
  kr ← lift (py_mod k quant_block);
  _ ← guard_m (kr =? 0) (ValueError "linear_fp8 requires K divisible by the quant block");
  _ ← guard_m (n `mod` 16 =? 0) (ValueError "linear_fp8 requires N divisible by 16");
  _ ← guard_m (bool_decide (tv_shape scale = [- ((- n) / quant_block); k / quant_block]))
        (ValueError "linear_fp8 scale shape");
  o ← out_or_fresh out name [m; n];
  record_whole "linear_fp8" [x; w; scale] [x; w; scale] o
    [("weight_layout", AStr "fp8_block"); ("quant_block", AInt quant_block); ("bias", ABool false)] name.

Definition gelu (x : TensorValue) (out : option TensorValue) (name : string) : R TensorValue :=
  o ← out_or_fresh out name (tv_shape x);
  record_whole "gelu" [x] [x] o [("approximation", AStr "tanh")] name.

Definition add (a b : TensorValue) (name : string) : R TensorValue :=
  o ← out_or_fresh None name (tv_shape a);
  record_whole "add" [a; b] [a; b] o [] name.

Definition rms_norm (x gamma : TensorValue) (eps : pyfloat) (out : option TensorValue)
    (name : string) : R TensorValue :=
  o ← out_or_fresh out name (tv_shape x);
  record_whole "rms_norm" [x; gamma] [x; gamma] o [("eps", AFloat eps)] name.

Definition RMS_GATED_ACTIVATIONS : list string := ["sigmoid"].

Definition rms_norm_gated (x gate gamma : TensorValue) (eps : pyfloat) (activation : string)
    (out : option TensorValue) (name : string) : R TensorValue :=
  _ ← guard_m (bool_decide (activation ∈ RMS_GATED_ACTIVATIONS))
        (UnsupportedOperator "rms_norm_gated activation");
  _ ← guard_m (bool_decide (tv_shape gate = tv_shape x)) (CaptureError "rms_norm_gated gate shape");
  _ ← guard_m (bool_decide (length (tv_shape x) = 2%nat ∨ length (tv_shape x) = 3%nat))
        (CaptureError "rms_norm_gated input must be [B, C] or [B, H, D]");
  gw ← lift (py_last (tv_shape gate));
  ww ← lift (py_last (tv_shape gamma));
  _ ← guard_m ((gw =? ww) && bool_decide (length (tv_shape gamma) = 1%nat))
        (CaptureError "rms_norm_gated weight must be [width]");
  o ← out_or_fresh out name (tv_shape x);
  record_whole "rms_norm_gated" [x; gate; gamma] [x; gate; gamma] o
    [("eps", AFloat eps); ("activation", AStr activation)] name.

Definition ROPE_CONVENTIONS : list string := ["rotate_half"; "neox_partial"; "interleaved"].

(** [for t in (cos_table, sin_table)]: each must be [rotary_dim // 2] wide. *)
Definition check_rope_tables (rotary_dim : Z) (tables : list TensorValue) : result unit :=
  fold_result (λ _ t, d ← py_last (tv_shape t);
                      require (d =? rotary_dim / 2) (CaptureError "neox_partial rope tables")) tt tables.

Definition rope (x cos_table sin_table : TensorValue) (position : Position) (layer : Z)
    (which : string) (rotary_dim : option Z) (convention : string) : R TensorValue :=
  _ ← guard_m (bool_decide (convention ∈ ROPE_CONVENTIONS))
        (CaptureError "rope convention not supported");
  _ ← (if decide (convention = "rotate_half"%string) then mret tt
       else
         head_dim ← lift (py_last (tv_shape x));
         rd ← lift (of_option (CaptureError "neox_partial rope requires an even rotary_dim")
                (rd ← rotary_dim;
                 if (rd `mod` 2 =? 0) && (0 <? rd) && (rd <=? head_dim) then Some rd else None));
         lift (check_rope_tables rd [cos_table; sin_table]));
  _ ← require_position position;
  o ← out_or_fresh None ("rope_" +:+ which +:+ "_l" +:+ fmt layer) (tv_shape x);
  p ← lift (position_name position);
  record_whole "rope" [x; cos_table; sin_table] [x; cos_table; sin_table] o
    ([("layer", AInt layer); ("which", AStr which); ("position", AStr p);
      ("convention", AStr convention); ("position_form", position_form position)]
     ++ match rotary_dim with Some rd => [("rotary_dim", AInt rd)] | None => [] end)
    ("layer " +:+ fmt layer +:+ " rope " +:+ which).

Definition swiglu (gate up : TensorValue) (out : option TensorValue) (name : string) : R TensorValue :=
  o ← out_or_fresh out name (tv_shape gate);
  record_whole "swiglu" [gate; up] [gate; up] o [] name.

(** ** Mixture of experts *)

(** The family-specific checks of the router: the extra inputs (also its
    extra reads) and attributes. *)
Definition hash_route (tid2eid token_ids : option TensorValue) (b k : Z) (score_fn : string)
    : result (list TensorValue * list (string * attr)) :=
  '(tid, tok) ← of_option (ValueError "hash routing requires tid2eid and token_ids")
                  (t ← tid2eid; k ← token_ids; Some (t, k));
  _ ← (if decide (tv_dtype tid = I32) then
         d1 ← py_index (tv_shape tid) 1; require (d1 =? k) (ValueError "tid2eid must be i32 [V, k]")
       else Err (ValueError "tid2eid must be i32 [V, k]"));
  _ ← require (bool_decide (tv_dtype tok = I32) && bool_decide (tv_shape tok = [b]))
        (ValueError "token_ids must be i32 [B]");
  _ ← require (bool_decide (score_fn = "sqrtsoftplus"%string))
        (ValueError "hash routing uses the sqrtsoftplus score");
  Ok ([tid; tok], []).

Definition noaux_route (bias : option TensorValue) (e k n_group topk_group : Z) (norm_topk_prob : bool)
    : result (list TensorValue * list (string * attr)) :=
  bs ← of_option (ValueError "sigmoid_noaux_tc requires the e_score_correction_bias") bias;
  _ ← require (bool_decide (tv_shape bs = [e])) (ValueError "bias must be [E]");
  _ ← require ((1 <=? n_group) && (e `mod` n_group =? 0)) (ValueError "n_group must divide E");
  _ ← require ((1 <=? topk_group) && (topk_group <=? n_group)) (ValueError "topk_group");
  _ ← require (k <=? 2 * topk_group * (e / n_group)) (ValueError "top_k exceeds the selection pool");
  _ ← require (bool_decide (tv_dtype bs = F32)) (ValueError "bias must be f32");
  Ok ([bs], [("n_group", AInt n_group); ("topk_group", AInt topk_group);
             ("norm_topk_prob", ABool norm_topk_prob); ("routed_bias", ABool true)]).

Definition moe_route (x router_w ids weights : TensorValue) (mode score_fn : string)
    (top_k : option Z) (routed_scaling_factor : pyfloat) (bias : option TensorValue)
    (n_group topk_group : Z) (norm_topk_prob : bool) (tid2eid token_ids : option TensorValue)
    (name : string) : R (TensorValue * TensorValue) :=
  '(b, h) ← lift (shape2 x);
  '(e, h_w) ← lift (shape2 router_w);
  _ ← guard_m (h_w =? h) (ValueError "router weight contraction mismatch");
  k ← lift (match top_k with Some k => Ok k | None => py_index (tv_shape weights) 1 end);
  _ ← guard_m (bool_decide (tv_dtype ids = I32) && bool_decide (tv_dtype weights = F32))
        (ValueError "routing table must be i32 ids + f32 weights");
  _ ← guard_m (bool_decide (tv_shape ids = [b; k]) && bool_decide (tv_shape weights = [b; k]))
        (ValueError "routing table must be [B, k]");
  _ ← guard_m ((1 <=? k) && (k <=? e)) (ValueError "top_k outside [1, E]");
  fam ← lift (if decide (mode = "hash"%string) then hash_route tid2eid token_ids b k score_fn
              else if decide (mode = "learned"%string ∧ score_fn = "sigmoid_noaux_tc"%string)
              then noaux_route bias e k n_group topk_group norm_topk_prob
              else if decide (mode = "learned"%string ∧ score_fn = "sqrtsoftplus"%string)
              then Ok ([], [("norm_topk_prob", ABool true); ("routed_bias", ABool false)])
              else Err (ValueError "unsupported router family"));
  _ ← record_op "moe_route" ([x; router_w; ids; weights] ++ fam.1) [ids; weights]
        (attr_map ([("mode", AStr mode); ("score_fn", AStr score_fn); ("top_k", AInt k);
                    ("num_experts", AInt e); ("routed_scaling_factor", AFloat routed_scaling_factor)]
                   ++ fam.2))
        (regional_reads <$> ([x; router_w] ++ fam.1)) [regional_reads ids; regional_reads weights] name;
  mret (ids, weights).

Definition moe_expert (x gate_up down ids : TensorValue) (out : option TensorValue)
    (swiglu_limit : option pyfloat) (name : string) : R TensorValue :=
  '(b, h) ← lift (shape2 x);
  '(e, two_i, h_w) ← lift (shape3 gate_up);
  '(e_d, h_d, i_d) ← lift (shape3 down);
  k ← lift (py_index (tv_shape ids) 1);
  _ ← guard_m ((h_w =? h) && (e_d =? e) && (h_d =? h) && (two_i =? 2 * i_d))
        (ValueError "expert stack shape mismatch");
  _ ← guard_m (bool_decide (tv_dtype ids = I32)) (ValueError "routing ids must be i32");
  _ ← guard_m (bool_decide (tv_dtype gate_up = F32) && bool_decide (tv_dtype down = F32)
               && bool_decide (tv_dtype x = F32)) (ValueError "fp32 expert weights");
  o ← match out with
      | Some tv => mret tv
      | None => sfx ← op_suffix; fresh_buffer (name +:+ sfx +:+ "_partials") [b; k; h] F32
      end;
  _ ← guard_m (bool_decide (tv_shape o = [b; k; h])) (ValueError "partials must be [B, k, H]");
  record_whole "moe_expert" [x; gate_up; down; ids] [x; gate_up; down; ids] o
    ([("num_experts", AInt e); ("intermediate", AInt i_d); ("top_k", AInt k)]
     ++ match swiglu_limit with Some l => [("swiglu_limit", AFloat l)] | None => [] end) name.

Definition moe_combine (partials weights : TensorValue) (shared out : option TensorValue)
    (name : string) : R TensorValue :=
  '(b, k, h) ← lift (shape3 partials);
  _ ← guard_m (bool_decide (tv_dtype weights = F32) && bool_decide (tv_shape weights = [b; k]))
        (ValueError "weights must be f32 [B, k]");
  _ ← guard_m (match shared with Some s => bool_decide (tv_shape s = [b; h]) | None => true end)
        (ValueError "shared path must be [B, H]");
  o ← out_or_fresh out name [b; h];
  _ ← guard_m (bool_decide (tv_shape o = [b; h])) (ValueError "output must be [B, H]");
  record_whole "moe_combine" ([partials; weights] ++ opt_list shared)
    ([partials; weights] ++ opt_list shared) o
    [("top_k", AInt k); ("shared", ABool (bool_decide (is_Some shared)))] name.

(** ** Every operation records once *)
Lemma records_whole (kind : string) (inputs reads : list TensorValue) (out : TensorValue)
    (attributes : list (string * attr)) (loc : string) :
  kind ∈ ARITHMETIC_OP_KINDS → records kind (record_whole kind inputs reads out attributes loc).
Proof.
  intros Hk. unfold record_whole. apply records_then; [by apply records_record_op|]. done.
Qed.

Ltac records_done :=
  records_steps; first [apply records_whole | apply records_then; [apply records_record_op|done]];
  apply (bool_decide_unpack _); vm_compute; exact I.

Create HintDb capture.

Lemma embedding_records ids token position_emb position out : records "embedding" (embedding ids token position_emb position out).
Proof. unfold embedding. records_done. Qed.
Lemma layer_norm_records x gamma beta eps out name : records "layer_norm" (layer_norm x gamma beta eps out name).
Proof. unfold layer_norm. records_done. Qed.
Lemma linear_records x w b out name grouped_heads : records "linear" (linear x w b out name grouped_heads).
Proof. unfold linear. records_done. Qed.
Lemma linear_fp8_records x w scale out name quant_block : records "linear_fp8" (linear_fp8 x w scale out name quant_block).
Proof. unfold linear_fp8. records_done. Qed.
Lemma gelu_records x out name : records "gelu" (gelu x out name).
Proof. unfold gelu. records_done. Qed.
Lemma add_records a b name : records "add" (add a b name).
Proof. unfold add. records_done. Qed.
Lemma rms_norm_records x gamma eps out name : records "rms_norm" (rms_norm x gamma eps out name).
Proof. unfold rms_norm. records_done. Qed.
Lemma rms_norm_gated_records x gate gamma eps activation out name : records "rms_norm_gated" (rms_norm_gated x gate gamma eps activation out name).
Proof. unfold rms_norm_gated. records_done. Qed.
Lemma rope_records x cos_table sin_table position layer which rotary_dim convention : records "rope" (rope x cos_table sin_table position layer which rotary_dim convention).
Proof. unfold rope. records_done. Qed.
Lemma swiglu_records gate up out name : records "swiglu" (swiglu gate up out name).
Proof. unfold swiglu. records_done. Qed.
Lemma moe_route_records x router_w ids weights mode score_fn top_k routed_scaling_factor bias n_group topk_group norm_topk_prob tid2eid token_ids name : records "moe_route" (moe_route x router_w ids weights mode score_fn top_k routed_scaling_factor bias n_group topk_group norm_topk_prob tid2eid token_ids name).
Proof. unfold moe_route. records_done. Qed.
Lemma moe_expert_records x gate_up down ids out swiglu_limit name : records "moe_expert" (moe_expert x gate_up down ids out swiglu_limit name).
Proof. unfold moe_expert. records_done. Qed.
Lemma moe_combine_records partials weights shared out name : records "moe_combine" (moe_combine partials weights shared out name).
Proof. unfold moe_combine. records_done. Qed.
#[export] Hint Resolve embedding_records layer_norm_records linear_records linear_fp8_records gelu_records add_records rms_norm_records rms_norm_gated_records rope_records swiglu_records moe_route_records moe_expert_records moe_combine_records : capture.

(** Each dense operation, whatever its arguments, either raises and
    leaves the recorded operators as they were, or appends exactly one
    operator of its own kind; in both cases the graph stays well formed
    (consecutive operator ids, unique tensor names, supported kinds). *)
Theorem dense_ops_record_once (x w g1 g2 g3 : TensorValue) (o1 o2 o3 : option TensorValue)
    (pos : Position) (eps : pyfloat) (lim : option pyfloat) (name s1 s2 : string)
    (z1 z2 : Z) (oz : option Z) (flag : bool) :
  records "embedding" (embedding x w o1 pos o2)
  ∧ records "layer_norm" (layer_norm x w g1 eps o1 name)
  ∧ records "linear" (linear x w o1 o2 name oz)
  ∧ records "linear_fp8" (linear_fp8 x w g1 o1 name z1)
  ∧ records "gelu" (gelu x o1 name)
  ∧ records "add" (add x w name)
  ∧ records "rms_norm" (rms_norm x w eps o1 name)
  ∧ records "rms_norm_gated" (rms_norm_gated x w g1 eps s1 o1 name)
  ∧ records "rope" (rope x w g1 pos z1 s1 oz s2)
  ∧ records "swiglu" (swiglu x w o1 name)
  ∧ records "moe_route" (moe_route x w g1 g2 s1 s2 oz eps o1 z1 z2 flag o2 o3 name)
  ∧ records "moe_expert" (moe_expert x w g1 g2 o1 lim name)
  ∧ records "moe_combine" (moe_combine x w o1 o2 name).
Proof. split_and!; auto with capture. Qed.
