(* ===== verification/CaptureAttention.v ===== *)
(** * Attention capture rules (compiler/capture_attention.py)

    The methods of [AttentionRecording]: cache appends, scores, softmax and
    values over dense, paged and latent caches, and the indexer.  An
    expression evaluated only for the contract text is kept when it can raise. *)

From S2P Require Import Prelude Indexing OperatorIR Contracts Capture CaptureUpdates CaptureDense.
Local Open Scope Z_scope.

(** [tv.value.shape[i]] *)
Definition dim (tv : TensorValue) (i : nat) : R Z := lift (py_index (tv_shape tv) i).

Definition shape_is (tv : TensorValue) (shape : list Z) : bool := bool_decide (tv_shape tv = shape).
Definition dtype_is (tv : TensorValue) (d : DType) : bool := bool_decide (tv_dtype tv = d).

(** ** The indexer *)
Definition indexer_scores (q entries mix_w : TensorValue) (out : option TensorValue) (name : string)
    : R TensorValue :=
  '(b, h, d) ← lift (shape3 q);
  '(b_c, m, d_c) ← lift (shape3 entries);
  _ ← guard_m ((b_c =? b) && (d_c =? d)) (ValueError "indexer_scores shape mismatch");
  _ ← guard_m (shape_is mix_w [b; h]) (ValueError "indexer_scores mix weights must be [B, H]");
  o ← out_or_fresh out name [b; m];
  _ ← guard_m (negb (d =? 0)) (ZeroDivisionError "0 ** -0.5");
  record_whole "indexer_scores" [q; entries; mix_w] [q; entries; mix_w] o
    [("heads", AInt h); ("head_dim", AInt d); ("capacity", AInt m);
     ("scale", AFloat (FInvSqrt d)); ("activation", AStr "relu")] name.

Definition index_topk (scores valid_counts : TensorValue) (k : Z) (idx bias : option TensorValue)
    (name : string) : R (TensorValue * TensorValue) :=
  '(b, m) ← lift (shape2 scores);
  _ ← guard_m (dtype_is scores F32) (ValueError "index_topk scores must be f32");
  _ ← guard_m (shape_is valid_counts [b] && dtype_is valid_counts I32)
        (ValueError "index_topk valid_counts must be i32 [B]");
  _ ← guard_m ((1 <=? k) && (k <=? m)) (ValueError "index_topk requires 1 <= k <= capacity");
  i ← out_or_fresh_as idx (name +:+ "_idx") [b; k] I32;
  s ← out_or_fresh_as bias (name +:+ "_bias") [b; k] F32;
  _ ← record_op "index_topk" [scores; valid_counts] [i; s]
        (attr_map [("k", AInt k); ("capacity", AInt m); ("tie_break", AStr "lowest_index");
                   ("score_dtype", AStr "f32"); ("index_dtype", AStr "i32");
                   ("nan_policy", AStr "exclude");
                   ("pad", AStr "idx=-1, bias=0.0 beyond a row's valid count")])
        (regional_reads <$> [scores; valid_counts]) (regional_reads <$> [i; s]) name;
  mret (i, s).

(** ** Dense caches *)

(** ["row" if valid.is_row else "scalar"] *)
Definition valid_form (valid : ValidLength) : attr :=
  if is_row valid then AStr "row" else AStr "scalar".

Definition cache_append (k_cache v_cache k_new v_new : TensorValue) (position : Position) (layer : Z)
    : R (TensorValue * TensorValue) :=
  valid ← valid_plus_one position;
  p ← lift (position_name position);
  _ ← record_op "cache_append" [k_cache; v_cache; k_new; v_new] []
        (attr_map [("layer", AInt layer); ("position", AStr p); ("position_form", valid_form valid)])
        (regional_reads <$> [k_new; v_new])
        [region_prefix k_cache 2 valid; region_prefix v_cache 2 valid]
        ("layer " +:+ fmt layer +:+ " kv cache append");
  k_post ← post_view ("k_cache_l" +:+ fmt layer) k_cache (Some valid);
  v_post ← post_view ("v_cache_l" +:+ fmt layer) v_cache (Some valid);
  mret (k_post, v_post).

(** [k_regions] and [v_regions]: the prefix of the cache, one region per
    group of query heads when heads share keys. *)
Definition cache_regions (cache : TensorValue) (b h kvh : Z) (valid : ValidLength) (p : string)
    : result (list Region) :=
  if decide (kvh = h) then Ok [region_prefix cache 2 valid]
  else
    group ← py_floordiv h kvh;
    map_result (λ g,
      d ← py_index (tv_shape cache) 3;
      Ok (mk_region (tv_storage_id cache) cache
            [(0, BInt b); (g * group, BInt ((g + 1) * group));
             (0, if is_row valid then BRow valid else BStr (p +:+ "+1")); (0, BInt d)]
            None (-1))) (zrange kvh).

Definition attention_scores (q k_cache : TensorValue) (position : Position) (scale : pyfloat)
    (layer : Z) (kv_heads : option Z) : R TensorValue :=
  _ ← require_position position;
  b ← dim q 0;
  h ← dim q 1;
  s ← dim k_cache 2;
  out ← out_or_fresh None ("scores_l" +:+ fmt layer) [b; h; s];
  p ← lift (position_name position);
  valid ← valid_plus_one position;
  let kvh := default h kv_heads in
  reads ← lift (cache_regions k_cache b h kvh valid p);
  w ← lift (region_tile out [(0, BInt b); (0, BInt h); (0, BInt s)]);
  _ ← record_op "attention_scores" [q; k_cache] [out]
        (attr_map [("scale", AFloat scale); ("layer", AInt layer); ("position", AStr p);
                   ("position_form", valid_form valid); ("kv_heads", AInt kvh)])
        (regional_reads q :: reads) [w] ("layer " +:+ fmt layer +:+ " attention scores");
  mret out.

Definition softmax (scores : TensorValue) (position : Position) (layer : Z) : R TensorValue :=
  _ ← require_position position;
  out ← out_or_fresh None ("probs_l" +:+ fmt layer) (tv_shape scores);
  p ← lift (position_name position);
  valid ← valid_plus_one position;
  _ ← record_op "softmax" [scores] [out]
        (attr_map [("layer", AInt layer); ("position", AStr p); ("position_form", valid_form valid)])
        [region_prefix scores 2 valid] [regional_reads out]
        ("layer " +:+ fmt layer +:+ " softmax");
  mret out.

Definition attention_values (probs v_cache : TensorValue) (position : Position) (layer : Z)
    (kv_heads : option Z) (gate : option TensorValue) : R TensorValue :=
  _ ← require_position position;
  b ← dim probs 0;
  h ← dim probs 1;
  d ← dim v_cache 3;
  _ ← guard_m (match gate with Some g => shape_is g [b; h; d] | None => true end)
        (ValueError "attention_values gate must be [B, H, D]");
  out ← out_or_fresh None ("ctx_l" +:+ fmt layer) [b; h; d];
  p ← lift (position_name position);
  valid ← valid_plus_one position;
  let kvh := default h kv_heads in
  reads ← lift (cache_regions v_cache b h kvh valid p);
  _ ← record_op "attention_values" ([probs; v_cache] ++ opt_list gate) [out]
        (attr_map ([("layer", AInt layer); ("position", AStr p); ("position_form", valid_form valid);
                    ("kv_heads", AInt kvh)]
                   ++ match gate with Some _ => [("gated", ABool true)] | None => [] end))
        ([region_prefix probs 2 valid] ++ reads ++ (region_whole <$> opt_list gate))
        [regional_reads out] ("layer " +:+ fmt layer +:+ " attention values");
  mret out.

(** ** Paged caches *)
Definition cache_append_paged (k_pool v_pool slot_table k_new v_new : TensorValue)
    (position : Position) (layer : Z) : R (TensorValue * TensorValue) :=
  _ ← require_position position;
  p ← lift (position_name position);
  '(b_new, kvh_new, d_new) ← lift (shape3 k_new);
  slots ← dim k_pool 0;
  _ ← guard_m (shape_is k_pool [slots; kvh_new; d_new]) (CaptureError "paged pool does not match k_new");
  rows ← dim slot_table 0;
  _ ← guard_m (rows =? b_new) (CaptureError "slot table rows != batch");
  wk ← lift (region_indirect k_pool slot_table 0 None);
  wv ← lift (region_indirect v_pool slot_table 0 None);
  _ ← record_op "cache_append_paged" [k_pool; v_pool; slot_table; k_new; v_new] []
        (attr_map [("layer", AInt layer); ("position", AStr p);
                   ("position_form", position_form position)])
        (regional_reads <$> [k_new; v_new]) [wk; wv]
        ("layer " +:+ fmt layer +:+ " paged kv cache append");
  k_post ← post_view ("k_pool_l" +:+ fmt layer) k_pool None;
  v_post ← post_view ("v_pool_l" +:+ fmt layer) v_pool None;
  mret (k_post, v_post).

(** [h // kvh if kvh != h else ...], in the contract text. *)
Definition group_text (h kvh : Z) : result unit :=
  if decide (kvh = h) then Ok tt else _ ← py_floordiv h kvh; Ok tt.

Definition attention_scores_paged (q k_pool slot_table : TensorValue) (position : Position)
    (scale : pyfloat) (layer : Z) (kv_heads : option Z) : R TensorValue :=
  _ ← require_position position;
  b ← dim q 0;
  h ← dim q 1;
  s ← dim slot_table 1;
  out ← out_or_fresh None ("scores_l" +:+ fmt layer) [b; h; s];
  p ← lift (position_name position);
  let kvh := default h kv_heads in
  r ← lift (region_indirect k_pool slot_table 0 None);
  w ← lift (region_tile out [(0, BInt b); (0, BInt h); (0, BInt s)]);
  _ ← lift (group_text h kvh);
  _ ← record_op "attention_scores_paged" [q; k_pool; slot_table] [out]
        (attr_map [("scale", AFloat scale); ("layer", AInt layer); ("position", AStr p);
                   ("kv_heads", AInt kvh); ("position_form", position_form position)])
        [regional_reads q; r] [w] ("layer " +:+ fmt layer +:+ " paged attention scores");
  mret out.

Definition attention_values_paged (probs v_pool slot_table : TensorValue) (position : Position)
    (layer : Z) (kv_heads : option Z) : R TensorValue :=
  _ ← require_position position;
  b ← dim probs 0;
  h ← dim probs 1;
  d ← dim v_pool 2;
  out ← out_or_fresh None ("ctx_l" +:+ fmt layer) [b; h; d];
  p ← lift (position_name position);
  let kvh := default h kv_heads in
  valid ← lift (new_ValidLength (VStr (p +:+ "+1")) None "positions");
  r ← lift (region_indirect v_pool slot_table 0 None);
  _ ← lift (group_text h kvh);
  _ ← record_op "attention_values_paged" [probs; v_pool; slot_table] [out]
        (attr_map [("layer", AInt layer); ("position", AStr p); ("kv_heads", AInt kvh);
                   ("position_form", position_form position)])
        [region_prefix probs 2 valid; r] [regional_reads out]
        ("layer " +:+ fmt layer +:+ " paged attention values");
  mret out.

(** ** Output-side rotation *)
Definition conjugate_rope (x cos_table sin_table : TensorValue) (position : Position) (layer : Z)
    (which convention : string) (rotary_dim : option Z) (out : option TensorValue) : R TensorValue :=
  _ ← guard_m (bool_decide (convention ∈ ["interleaved"; "rotate_half"]%string))
        (CaptureError "conjugate_rope convention not supported");
  head_dim ← lift (py_last (tv_shape x));
  table_half ← lift (py_last (tv_shape cos_table));
  _ ← guard_m (shape_is sin_table (tv_shape cos_table)) (CaptureError "conjugate_rope cos/sin tables must match");
  let rot := default (table_half * 2) rotary_dim in
  _ ← guard_m ((rot `mod` 2 =? 0) && ((0 <? rot) && (rot <=? head_dim)))
        (CaptureError "conjugate_rope requires an even 0 < rotary_dim <= head_dim");
  _ ← guard_m (table_half =? rot / 2) (CaptureError "conjugate_rope tables");
  _ ← require_position position;
  o ← out_or_fresh out ("crope_" +:+ which +:+ "_l" +:+ fmt layer) (tv_shape x);
  _ ← guard_m (shape_is o (tv_shape x)) (ValueError "conjugate_rope out must match x");
  p ← lift (position_name position);
  record_whole "conjugate_rope" [x; cos_table; sin_table] [x; cos_table; sin_table] o
    [("layer", AInt layer); ("which", AStr which); ("position", AStr p);
     ("convention", AStr convention); ("rotary_dim", AInt rot);
     ("position_form", position_form position)]
    ("layer " +:+ fmt layer +:+ " conjugate rope " +:+ which).

(** ** Latent attention *)
Definition mla_scores (q latent_pool window_table comp_pool comp_idx sink : TensorValue)
    (position : Position) (scale : pyfloat) (layer window : Z) (bias : option TensorValue)
    : R TensorValue :=
  _ ← require_position position;
  '(b, h, d) ← lift (shape3 q);
  l0 ← dim latent_pool 0;
  _ ← guard_m (l0 =? b) (ValueError "mla_scores latent_pool must be [B, S, D]");
  l2 ← dim latent_pool 2;
  _ ← guard_m (l2 =? d) (ValueError "mla_scores latent_pool must be [B, S, D]");
  w0 ← dim window_table 0;
  _ ← guard_m ((w0 =? b) && dtype_is window_table I32)
        (ValueError "mla_scores window_table must be i32 [B, S_w]");
  l1 ← dim latent_pool 1;
  w1 ← dim window_table 1;
  _ ← guard_m (l1 =? w1) (ValueError "mla_scores latent_pool S must match window_table S_w");
  c0 ← dim comp_pool 0;
  _ ← guard_m (c0 =? b) (ValueError "mla_scores comp_pool must be [B, M, D]");
  c2 ← dim comp_pool 2;
  _ ← guard_m (c2 =? d) (ValueError "mla_scores comp_pool must be [B, M, D]");
  k ← dim comp_idx 1;
  i0 ← dim comp_idx 0;
  _ ← guard_m ((i0 =? b) && dtype_is comp_idx I32) (ValueError "mla_scores comp_idx must be i32 [B, K]");
  _ ← guard_m (shape_is sink [h] || shape_is sink [b; h]) (ValueError "mla_scores sink must be [H] or [B, H]");
  _ ← guard_m (match bias with Some t => shape_is t [b; k] && dtype_is t F32 | None => true end)
        (ValueError "mla_scores bias must be f32 [B, K]");
  _ ← guard_m (1 <=? window) (ValueError "mla_scores requires window >= 1");
  let width := window + k + 1 in
  out ← out_or_fresh None ("mla_probs_l" +:+ fmt layer) [b; h; width];
  p ← lift (position_name position);
  rl ← lift (region_indirect latent_pool window_table 1 None);
  _ ← record_op "mla_scores"
        ([q; latent_pool; window_table; comp_pool; comp_idx; sink] ++ opt_list bias) [out]
        (attr_map [("scale", AFloat scale); ("layer", AInt layer); ("position", AStr p);
                   ("window", AInt window); ("comp_slots", AInt k); ("width", AInt width);
                   ("sink", AStr "last"); ("position_form", position_form position)])
        ([regional_reads q; rl]
         ++ (regional_reads <$> [window_table; comp_pool; comp_idx; sink] ++ opt_list bias))
        [regional_reads out] ("layer " +:+ fmt layer +:+ " mla scores");
  mret out.

Definition mla_values (probs latent_pool window_table comp_pool comp_idx : TensorValue)
    (position : Position) (layer window : Z) (out : option TensorValue) : R TensorValue :=
  _ ← require_position position;
  '(b, h, width) ← lift (shape3 probs);
  d ← dim latent_pool 2;
  c2 ← dim comp_pool 2;
  _ ← guard_m (c2 =? d) (ValueError "mla_values comp_pool must share D with the latent pool");
  k ← dim comp_idx 1;
  c1 ← dim comp_pool 1;
  _ ← guard_m ((k =? c1) || dtype_is comp_idx I32) (ValueError "mla_values comp_idx must be i32 [B, K]");
  _ ← guard_m (width =? window + k + 1) (ValueError "mla_values probs width != window + K + 1");
  o ← out_or_fresh out ("mla_ctx_l" +:+ fmt layer) [b; h; d];
  _ ← guard_m (shape_is o [b; h; d]) (ValueError "mla_values out must be [B, H, D]");
  p ← lift (position_name position);
  rl ← lift (region_indirect latent_pool window_table 1 None);
  _ ← record_op "mla_values" [probs; latent_pool; window_table; comp_pool; comp_idx] [o]
        (attr_map [("layer", AInt layer); ("position", AStr p); ("window", AInt window);
                   ("comp_slots", AInt k); ("width", AInt width);
                   ("position_form", position_form position)])
        ([regional_reads probs; rl] ++ (regional_reads <$> [window_table; comp_pool; comp_idx]))
        [regional_reads o] ("layer " +:+ fmt layer +:+ " mla values");
  mret o.

(** ** What every attention operation records *)
Ltac kind_ok := apply (bool_decide_unpack _); vm_compute; exact I.

Ltac updates_steps :=
  repeat first
    [ match goal with |- updates _ (mbind _ _) _ _ =>
        apply updates_bind; [solve [quiet_steps]|intros ? ? ?; cbn beta iota] end
    | match goal with |- updates _ (let '(_, _) := ?x in _) _ _ => destruct x end ].

Lemma updates_whole (kind : string) (inputs reads : list TensorValue) (out : TensorValue)
    (attributes : list (string * attr)) (loc : string) :
  kind ∈ ARITHMETIC_OP_KINDS →
  updates kind (record_whole kind inputs reads out attributes loc) [] (λ _, []).
Proof.
  intros Hk. apply updates_record; [done|]. intros g op _. by apply finishes_ret.
Qed.

(** The recording step and its views; what is left: each base's storage is
    written. *)
Ltac updates_finish :=
  lazymatch goal with
  | |- updates _ (record_whole _ _ _ _ _ _) _ _ => apply updates_whole; kind_ok
  | |- _ =>
      apply updates_record; [kind_ok|]; intros g op Hwrites;
      repeat match goal with |- finishes _ _ _ (mbind _ _) _ _ =>
        apply finishes_view; [rewrite Hwrites|intros ?] end;
      [..|by apply finishes_ret]
  end.

Lemma region_indirect_storage (view table : TensorValue) (axis : Z) (valid : option ValidLength)
    (w : Region) :
  region_indirect view table axis valid = Ok w → rg_storage_id w = tv_storage_id view.
Proof. unfold region_indirect. intros H. by res_inv. Qed.

Lemma region_tile_storage (view : TensorValue) (tile : list (Z * bound)) (w : Region) :
  region_tile view tile = Ok w → rg_storage_id w = tv_storage_id view.
Proof. unfold region_tile. intros H. by res_inv. Qed.

Ltac storage_of :=
  first [ reflexivity
        | match goal with H : (lift ?m _).1 = Ok ?w |- rg_storage_id ?w = _ =>
            change (m = Ok w) in H;
            first [exact (region_indirect_storage _ _ _ _ _ H)|exact (region_tile_storage _ _ _ H)] end ].
Ltac writes_base :=
  first [ eexists; split; [apply list_elem_of_here|storage_of]
        | eexists; split; [apply list_elem_of_further, list_elem_of_here|storage_of] ].

Ltac updates_op := updates_steps; updates_finish; writes_base.

Lemma indexer_scores_updates q entries mix_w out name :
  updates "indexer_scores" (indexer_scores q entries mix_w out name) [] (λ _, []).
Proof. unfold indexer_scores, dim. updates_op. Qed.
Lemma index_topk_updates scores valid_counts k idx bias name :
  updates "index_topk" (index_topk scores valid_counts k idx bias name) [] (λ _, []).
Proof. unfold index_topk, dim. updates_op. Qed.
Lemma cache_append_updates k_cache v_cache k_new v_new position layer :
  updates "cache_append" (cache_append k_cache v_cache k_new v_new position layer) [k_cache; v_cache] (λ kv, [kv.1; kv.2]).
Proof. unfold cache_append, dim. updates_op. Qed.
Lemma attention_scores_updates q k_cache position scale layer kv_heads :
  updates "attention_scores" (attention_scores q k_cache position scale layer kv_heads) [] (λ _, []).
Proof. unfold attention_scores, dim. updates_op. Qed.
Lemma softmax_updates scores position layer :
  updates "softmax" (softmax scores position layer) [] (λ _, []).
Proof. unfold softmax, dim. updates_op. Qed.
Lemma attention_values_updates probs v_cache position layer kv_heads gate :
  updates "attention_values" (attention_values probs v_cache position layer kv_heads gate) [] (λ _, []).
Proof. unfold attention_values, dim. updates_op. Qed.
Lemma cache_append_paged_updates k_pool v_pool slot_table k_new v_new position layer :
  updates "cache_append_paged" (cache_append_paged k_pool v_pool slot_table k_new v_new position layer) [k_pool; v_pool] (λ kv, [kv.1; kv.2]).
Proof. unfold cache_append_paged, dim. updates_op. Qed.
Lemma attention_scores_paged_updates q k_pool slot_table position scale layer kv_heads :
  updates "attention_scores_paged" (attention_scores_paged q k_pool slot_table position scale layer kv_heads) [] (λ _, []).
Proof. unfold attention_scores_paged, dim. updates_op. Qed.
Lemma attention_values_paged_updates probs v_pool slot_table position layer kv_heads :
  updates "attention_values_paged" (attention_values_paged probs v_pool slot_table position layer kv_heads) [] (λ _, []).
Proof. unfold attention_values_paged, dim. updates_op. Qed.
Lemma conjugate_rope_updates x cos_table sin_table position layer which convention rotary_dim out :
  updates "conjugate_rope" (conjugate_rope x cos_table sin_table position layer which convention rotary_dim out) [] (λ _, []).
Proof. unfold conjugate_rope, dim. updates_op. Qed.
Lemma mla_scores_updates q latent_pool window_table comp_pool comp_idx sink position scale layer window bias :
  updates "mla_scores" (mla_scores q latent_pool window_table comp_pool comp_idx sink position scale layer window bias) [] (λ _, []).
Proof. unfold mla_scores, dim. updates_op. Qed.
Lemma mla_values_updates probs latent_pool window_table comp_pool comp_idx position layer window out :
  updates "mla_values" (mla_values probs latent_pool window_table comp_pool comp_idx position layer window out) [] (λ _, []).
Proof. unfold mla_values, dim. updates_op. Qed.
#[export] Hint Resolve indexer_scores_updates index_topk_updates cache_append_updates attention_scores_updates softmax_updates attention_values_updates cache_append_paged_updates attention_scores_paged_updates attention_values_paged_updates conjugate_rope_updates mla_scores_updates mla_values_updates : capture.

(** Attention operations, whatever their arguments: one that returns has
    recorded exactly one operator of its kind; the two appends return views
    of the caches they were given (same storage and layout, a name not used
    before), whose storages the recorded operator writes.  One that raises
    has recorded nothing, or its single operator.  The graph stays well
    formed. *)
Theorem attention_ops_update (x y z t u v : TensorValue) (o1 o2 : option TensorValue)
    (pos : Position) (f : pyfloat) (layer n : Z) (on : option Z) (s1 s2 : string) :
  let none {A} : A → list TensorValue := λ _, [] in
  updates "indexer_scores" (indexer_scores x y z o1 s1) [] none
  ∧ updates "index_topk" (index_topk x y n o1 o2 s1) [] none
  ∧ updates "cache_append" (cache_append x y z t pos layer) [x; y] (λ kv, [kv.1; kv.2])
  ∧ updates "attention_scores" (attention_scores x y pos f layer on) [] none
  ∧ updates "softmax" (softmax x pos layer) [] none
  ∧ updates "attention_values" (attention_values x y pos layer on o1) [] none
  ∧ updates "cache_append_paged" (cache_append_paged x y z t u pos layer) [x; y] (λ kv, [kv.1; kv.2])
  ∧ updates "attention_scores_paged" (attention_scores_paged x y z pos f layer on) [] none
  ∧ updates "attention_values_paged" (attention_values_paged x y z pos layer on) [] none
  ∧ updates "conjugate_rope" (conjugate_rope x y z pos layer s1 s2 on o1) [] none
  ∧ updates "mla_scores" (mla_scores x y z t u v pos f layer n o1) [] none
  ∧ updates "mla_values" (mla_values x y z t u pos layer n o1) [] none.
Proof. intros none. split_and!; auto with capture. Qed.
