(* ===== verification/CaptureRecurrent.v ===== *)
(** * Recurrent capture rules (compiler/capture_recurrent.py)

    The methods of [RecurrentRecording]: state pools that are read, modified
    and written once per step (compressor, convolution, delta rules), and the
    hyper-connection mixes, which only use fresh buffers. *)

From S2P Require Import Prelude Indexing OperatorIR Contracts Capture CaptureUpdates CaptureDense CaptureAttention.
Local Open Scope Z_scope.

(** [if len(shape) != n: raise e] followed by the unpacking. *)
Definition rank3 (tv : TensorValue) (e : exn) : result (Z * Z * Z) :=
  match tv_shape tv with [a; b; c] => Ok (a, b, c) | _ => Err e end.
Definition rank4 (tv : TensorValue) (e : exn) : result (Z * Z * Z * Z) :=
  match tv_shape tv with [a; b; c; d] => Ok (a, b, c, d) | _ => Err e end.
Definition shape5 (tv : TensorValue) : result (Z * Z * Z * Z * Z) :=
  match tv_shape tv with [a; b; c; d; e] => Ok (a, b, c, d, e) | _ => Err (ValueError "unpack") end.

(** The shape checks of an operation, in order: the first tensor that does
    not have the shape it is paired with raises. *)
Definition check_shapes (op : string) (checks : list (TensorValue * list Z)) : result unit :=
  fold_result (λ _ c, require (shape_is c.1 c.2) (CaptureError (op +:+ ": " +:+ tv_name c.1))) tt checks.

(** An optional float attribute. *)
Definition opt_float (f : option pyfloat) : attr :=
  match f with Some x => AFloat x | None => ANone end.

Definition compressor_append (entry_pool series_state window gates rms_weight cos sin : TensorValue)
    (position : Position) (m r : Z) (eps : pyfloat) (name : string) : R (TensorValue * TensorValue) :=
  _ ← guard_m ((0 <? m) && (0 <? r) && (r `mod` m =? 0)) (CaptureError "series rotation needs r % m == 0");
  '(b, mw, d) ← lift (shape3 window);
  _ ← guard_m (mw =? m) (CaptureError "window token axis != m");
  '(bg, mg) ← lift (shape2 gates);
  _ ← guard_m ((bg =? b) && (mg =? m)) (CaptureError "gates");
  let R := r / m in
  '(be, le, slots, re, de) ← lift (shape5 entry_pool);
  _ ← guard_m ((be =? b) && (slots =? 2) && (re =? R) && (de =? d)) (CaptureError "entry_pool");
  _ ← lift (check_shapes name [(series_state, [b; le; 2]); (rms_weight, [d])]);
  dh ← lift (py_last (tv_shape cos));
  _ ← guard_m (shape_is cos [b; dh] && shape_is sin [b; dh] && (2 * dh =? d))
        (CaptureError "cos/sin must be [B, D/2]");
  valid ← valid_plus_one position;
  p ← lift (position_name position);
  w1 ← lift (region_tile entry_pool
               [(0, BInt b); (0, BInt le); (0, BInt 2); (0, BInt R); (0, BInt d)]);
  w2 ← lift (region_tile series_state [(0, BInt b); (0, BInt le); (0, BInt 2)]);
  _ ← record_op "compressor_append" [entry_pool; series_state; window; gates; rms_weight; cos; sin] []
        (attr_map [("m", AInt m); ("r", AInt r); ("eps", AFloat eps); ("position", AStr p);
                   ("position_form", valid_form valid)])
        (regional_reads <$> [window; gates; rms_weight; cos; sin; series_state]) [w1; w2] name;
  pool_post ← post_view ("entry_pool_s" +:+ fmt (tv_storage_id entry_pool)) entry_pool (Some valid);
  state_post ← post_view ("series_state_s" +:+ fmt (tv_storage_id series_state)) series_state (Some valid);
  mret (pool_post, state_post).

Definition gdn_conv (conv_state x w : TensorValue) (layer : Z) : R (TensorValue * TensorValue) :=
  '(B, Km1, C) ← lift (rank3 conv_state (CaptureError "gdn_conv state pool must be [B, K-1, C]"));
  _ ← guard_m (bool_decide (length (tv_shape x) = 2%nat)) (CaptureError "gdn_conv input row must be [B, C]");
  let K := Km1 + 1 in
  _ ← lift (check_shapes "gdn_conv" [(x, [B; C]); (w, [C; K])]);
  out ← out_or_fresh_as None ("gdn_conv_l" +:+ fmt layer) [B; C] (tv_dtype x);
  _ ← record_op "gdn_conv" [conv_state; x; w] [out]
        (attr_map [("layer", AInt layer); ("conv_kernel", AInt K)])
        (regional_reads <$> [conv_state; x; w]) (regional_reads <$> [conv_state; out])
        ("layer " +:+ fmt layer +:+ " gdn conv");
  post ← post_view ("conv_state_l" +:+ fmt layer) conv_state None;
  mret (out, post).

Definition mhc_pre (streams fn base scale : TensorValue) (layer iters : Z) (eps rms_eps : pyfloat)
    : R (TensorValue * TensorValue * TensorValue) :=
  '(B, hc, C) ← lift (rank3 streams (CaptureError "mhc_pre streams must be [B, hc, C]"));
  let mix := (2 + hc) * hc in
  _ ← lift (check_shapes "mhc_pre" [(fn, [mix; hc * C]); (base, [mix]); (scale, [3])]);
  _ ← guard_m (1 <=? iters) (CaptureError "mhc_pre Sinkhorn iters must be >= 1");
  h_in ← out_or_fresh_as None ("mhc_h_in_l" +:+ fmt layer) [B; C] (tv_dtype streams);
  post ← out_or_fresh_as None ("mhc_post_w_l" +:+ fmt layer) [B; hc] F32;
  comb ← out_or_fresh_as None ("mhc_comb_l" +:+ fmt layer) [B; hc; hc] F32;
  _ ← record_op "mhc_pre" [streams; fn; base; scale] [h_in; post; comb]
        (attr_map [("layer", AInt layer); ("hc", AInt hc); ("iters", AInt iters); ("eps", AFloat eps);
                   ("rms_eps", AFloat rms_eps)])
        (regional_reads <$> [streams; fn; base; scale]) (regional_reads <$> [h_in; post; comb])
        ("layer " +:+ fmt layer +:+ " mhc pre-mix");
  mret (h_in, post, comb).

Definition mhc_post (streams body_out post comb : TensorValue) (layer : Z) : R TensorValue :=
  '(B, hc, C) ← lift (rank3 streams (CaptureError "mhc_post streams must be [B, hc, C]"));
  _ ← lift (check_shapes "mhc_post" [(body_out, [B; C]); (post, [B; hc]); (comb, [B; hc; hc])]);
  streams_post ← out_or_fresh_as None ("mhc_streams_l" +:+ fmt layer) [B; hc; C] (tv_dtype streams);
  _ ← record_op "mhc_post" [streams; body_out; post; comb] [streams_post]
        (attr_map [("layer", AInt layer); ("hc", AInt hc)])
        (regional_reads <$> [streams; body_out; post; comb]) [regional_reads streams_post]
        ("layer " +:+ fmt layer +:+ " mhc post-compose");
  mret streams_post.

(** ** Delta rules *)
Definition gdn_delta (ssm_state q k v z a b a_log dt_bias norm_w : TensorValue) (layer : Z)
    (scale eps : pyfloat) : R (TensorValue * TensorValue) :=
  '(B, NV, HV, HK) ← lift (rank4 ssm_state (CaptureError "gdn_delta state pool must be [B, NV, HV, HK]"));
  '(qb, NK, qk) ← lift (rank3 q (CaptureError "gdn_delta q rows must be [B, NK, HK]"));
  _ ← guard_m ((qb =? B) && (qk =? HK)) (CaptureError "gdn_delta q rows must be [B, NK, HK]");
  _ ← guard_m ((1 <=? NK) && (NV `mod` NK =? 0)) (CaptureError "gdn_delta head group must divide");
  _ ← lift (check_shapes "gdn_delta"
        [(k, [B; NK; HK]); (v, [B; NV; HV]); (z, [B; NV; HV]); (a, [B; NV]); (b, [B; NV]);
         (a_log, [NV]); (dt_bias, [NV]); (norm_w, [HV])]);
  out ← out_or_fresh_as None ("gdn_delta_l" +:+ fmt layer) [B; NV; HV] (tv_dtype v);
  _ ← record_op "gdn_delta" [ssm_state; q; k; v; z; a; b; a_log; dt_bias; norm_w] [out]
        (attr_map [("layer", AInt layer); ("scale", AFloat scale); ("eps", AFloat eps)])
        (regional_reads <$> [ssm_state; q; k; v; z; a; b; a_log; dt_bias; norm_w])
        (regional_reads <$> [ssm_state; out]) ("layer " +:+ fmt layer +:+ " gdn delta rule");
  post ← post_view ("ssm_state_l" +:+ fmt layer) ssm_state None;
  mret (out, post).

Definition kda_delta (ssm_state q k v f b dt_bias A_log : TensorValue) (layer : Z) (scale : pyfloat)
    (lower_bound : option pyfloat) : R (TensorValue * TensorValue) :=
  '(B, H, K, V) ← lift (rank4 ssm_state (CaptureError "kda_delta state pool must be [B, H, K, V]"));
  _ ← guard_m (K =? V) (CaptureError "kda_delta heads must be square");
  _ ← lift (check_shapes "kda_delta"
        [(q, [B; H; K]); (k, [B; H; K]); (v, [B; H; V]); (f, [B; H; K]); (b, [B; H]);
         (dt_bias, [H; K]); (A_log, [H])]);
  out ← out_or_fresh_as None ("kda_delta_l" +:+ fmt layer) [B; H; V] (tv_dtype v);
  _ ← record_op "kda_delta" [ssm_state; q; k; v; f; b; dt_bias; A_log] [out]
        (attr_map [("layer", AInt layer); ("scale", AFloat scale); ("lower_bound", opt_float lower_bound)])
        (regional_reads <$> [ssm_state; q; k; v; f; b; dt_bias; A_log])
        (regional_reads <$> [ssm_state; out]) ("layer " +:+ fmt layer +:+ " kda delta rule");
  post ← post_view ("kda_state_l" +:+ fmt layer) ssm_state None;
  mret (out, post).

Definition kda_fused_decode (conv_pool ssm_pool slot_ids qkv_raw f_raw b_raw g_raw taps dt_bias A_log
    o_norm : TensorValue) (layer : Z) (scale eps : pyfloat) (lower_bound : option pyfloat)
    : R (TensorValue * TensorValue * TensorValue) :=
  '(slots, Kw, Cc) ← lift (rank3 conv_pool (CaptureError "kda_fused_decode conv pool must be [slots, Kw, Cc]"));
  '(s_slots, H, V, K) ← lift (rank4 ssm_pool (CaptureError "kda_fused_decode ssm pool must be [slots, H, V, K]"));
  _ ← guard_m (s_slots =? slots) (CaptureError "kda_fused_decode pool slot counts disagree");
  _ ← guard_m (K =? V) (CaptureError "kda_fused_decode heads must be square");
  _ ← guard_m (Cc =? 3 * H * K) (CaptureError "kda_fused_decode conv channels != 3*H*D");
  _ ← guard_m (shape_is taps [Kw + 1; Cc]) (CaptureError "kda_fused_decode taps must be TIME-MAJOR");
  B ← dim qkv_raw 0;
  _ ← guard_m (dtype_is slot_ids I32 && shape_is slot_ids [B]) (CaptureError "kda_fused_decode slot_ids must be i32 [B]");
  _ ← lift (check_shapes "kda_fused_decode"
        [(qkv_raw, [B; Cc]); (f_raw, [B; H; K]); (b_raw, [B; H]); (g_raw, [B; H; V]);
         (dt_bias, [H; K]); (A_log, [H]); (o_norm, [V])]);
  out ← out_or_fresh_as None ("kda_fused_l" +:+ fmt layer) [B; H; V] (tv_dtype qkv_raw);
  conv_r ← lift (region_indirect conv_pool slot_ids 0 None);
  ssm_r ← lift (region_indirect ssm_pool slot_ids 0 None);
  _ ← record_op "kda_fused_decode"
        [conv_pool; ssm_pool; slot_ids; qkv_raw; f_raw; b_raw; g_raw; taps; dt_bias; A_log; o_norm] [out]
        (attr_map [("layer", AInt layer); ("scale", AFloat scale); ("eps", AFloat eps);
                   ("lower_bound", opt_float lower_bound)])
        ([conv_r; ssm_r] ++ (regional_reads <$>
           [slot_ids; qkv_raw; f_raw; b_raw; g_raw; taps; dt_bias; A_log; o_norm]))
        [conv_r; ssm_r; regional_reads out] ("layer " +:+ fmt layer +:+ " kda fused decode");
  conv_post ← post_view ("kda_conv_pool_l" +:+ fmt layer) conv_pool None;
  ssm_post ← post_view ("kda_ssm_pool_l" +:+ fmt layer) ssm_pool None;
  mret (out, conv_post, ssm_post).

Lemma compressor_append_updates entry_pool series_state window gates rms_weight cos sin position m r eps name :
  updates "compressor_append" (compressor_append entry_pool series_state window gates rms_weight cos sin position m r eps name) [entry_pool; series_state] (λ ps, [ps.1; ps.2]).
Proof. unfold compressor_append, dim. updates_op. Qed.
Lemma gdn_conv_updates conv_state x w layer :
  updates "gdn_conv" (gdn_conv conv_state x w layer) [conv_state] (λ os, [os.2]).
Proof. unfold gdn_conv, dim. updates_op. Qed.
Lemma mhc_pre_updates streams fn base scale layer iters eps rms_eps :
  updates "mhc_pre" (mhc_pre streams fn base scale layer iters eps rms_eps) [] (λ _, []).
Proof. unfold mhc_pre, dim. updates_op. Qed.
Lemma mhc_post_updates streams body_out post comb layer :
  updates "mhc_post" (mhc_post streams body_out post comb layer) [] (λ _, []).
Proof. unfold mhc_post, dim. updates_op. Qed.
Lemma gdn_delta_updates ssm_state q k v z a b a_log dt_bias norm_w layer scale eps :
  updates "gdn_delta" (gdn_delta ssm_state q k v z a b a_log dt_bias norm_w layer scale eps) [ssm_state] (λ os, [os.2]).
Proof. unfold gdn_delta, dim. updates_op. Qed.
Lemma kda_delta_updates ssm_state q k v f b dt_bias A_log layer scale lower_bound :
  updates "kda_delta" (kda_delta ssm_state q k v f b dt_bias A_log layer scale lower_bound) [ssm_state] (λ os, [os.2]).
Proof. unfold kda_delta, dim. updates_op. Qed.
Lemma kda_fused_decode_updates conv_pool ssm_pool slot_ids qkv_raw f_raw b_raw g_raw taps dt_bias A_log o_norm layer scale eps lower_bound :
  updates "kda_fused_decode" (kda_fused_decode conv_pool ssm_pool slot_ids qkv_raw f_raw b_raw g_raw taps dt_bias A_log o_norm layer scale eps lower_bound) [conv_pool; ssm_pool] (λ ocs, [ocs.1.2; ocs.2]).
Proof. unfold kda_fused_decode, dim. updates_op. Qed.
#[export] Hint Resolve compressor_append_updates gdn_conv_updates mhc_pre_updates mhc_post_updates gdn_delta_updates kda_delta_updates kda_fused_decode_updates : capture.

(** Recurrent operations, whatever their arguments: one that returns has
    recorded exactly one operator of its kind, and returns for each state
    pool it mutates a new view of the pool's storage and layout, which the
    recorded operator writes; the hyper-connection mixes mutate no pool.  One
    that raises has recorded nothing, or its single operator. *)
Theorem recurrent_ops_update (x1 x2 x3 x4 x5 x6 x7 x8 x9 x10 x11 : TensorValue)
    (pos : Position) (f1 f2 : pyfloat) (lb : option pyfloat) (layer n : Z) (name : string) :
  updates "compressor_append" (compressor_append x1 x2 x3 x4 x5 x6 x7 pos layer n f1 name) [x1; x2]
    (λ ps, [ps.1; ps.2])
  ∧ updates "gdn_conv" (gdn_conv x1 x2 x3 layer) [x1] (λ os, [os.2])
  ∧ updates "mhc_pre" (mhc_pre x1 x2 x3 x4 layer n f1 f2) [] (λ _, [])
  ∧ updates "mhc_post" (mhc_post x1 x2 x3 x4 layer) [] (λ _, [])
  ∧ updates "gdn_delta" (gdn_delta x1 x2 x3 x4 x5 x6 x7 x8 x9 x10 layer f1 f2) [x1] (λ os, [os.2])
  ∧ updates "kda_delta" (kda_delta x1 x2 x3 x4 x5 x6 x7 x8 layer f1 lb) [x1] (λ os, [os.2])
  ∧ updates "kda_fused_decode"
      (kda_fused_decode x1 x2 x3 x4 x5 x6 x7 x8 x9 x10 x11 layer f1 f2 lb) [x1; x2]
      (λ ocs, [ocs.1.2; ocs.2]).
Proof. split_and!; auto with capture. Qed.
