(* ===== verification/Legality.v ===== *)
(** * Legality of a recorded graph (compiler/legality.py)

    The checks repeated on a graph after capture; strict mode refuses a graph
    with any error. *)

From S2P Require Import Prelude OperatorIR Contracts Capture.
Local Open Scope Z_scope.

Definition POSITION_CONSUMERS : gset string :=
  list_to_set
    ["embedding"; "cache_append"; "compressor_append"; "attention_scores"; "softmax";
     "attention_values"; "rope"; "cache_append_paged"; "attention_scores_paged";
     "attention_values_paged"; "mla_scores"; "mla_values"; "conjugate_rope"]%string.

Inductive severity : Type := SevError | SevWarning | SevNote.
#[export] Instance severity_eq_dec : EqDecision severity.
Proof. solve_decision. Defined.

(** The message is abbreviated away; it is a function of the rest. *)
Record Diagnostic : Type := mk_diag {
  dg_severity : severity;
  dg_code : string;
  dg_location : string
}.

(** ** The checks, in the order of the report *)
Definition unsupported_operators (g : OperatorGraph) : list Diagnostic :=
  op ← g_ops g;
  if bool_decide (op_kind op ∈ ARITHMETIC_OP_KINDS) then []
  else [mk_diag SevError "unsupported-operator" (op_source_location op)].

Definition tensor_diagnostics (g : OperatorGraph) : list Diagnostic :=
  ntv ← g_tensors g;
  (if forallb (λ d, 0 <? d) (tv_shape ntv.2) then []
   else [mk_diag SevError "non-static-shape" ntv.1])
  ++ (if dict_mem (g_storage_sizes g) (tv_storage_id ntv.2) then []
      else [mk_diag SevError "unregistered-storage" ntv.1]).

(** Some attribute is a string of the given set. *)
Definition consumes (names : gset string) (op : Operator) : bool :=
  existsb (λ kv : string * attr, match kv.2 with AStr s => bool_decide (s ∈ names) | _ => false end)
    (map_to_list (op_attributes op)).

Definition scalar_consumers (g : OperatorGraph) : list Diagnostic :=
  op ← g_ops g;
  let illegal := bool_decide (op_kind op ∉ POSITION_CONSUMERS) in
  (if consumes (list_to_set (g_scalars g).*1) op && illegal
   then [mk_diag SevError "symbolic-scalar-consumer" (op_source_location op)] else [])
  ++ (if consumes (g_row_position_tensors g) op && illegal
      then [mk_diag SevError "row-position-consumer" (op_source_location op)] else []).

Definition effect_free (g : OperatorGraph) : list Diagnostic :=
  op ← g_ops g;
  match op_outputs op, op_write_regions op with
  | [], [] => [mk_diag SevError "effect-free-op" (op_source_location op)]
  | _, _ => []
  end.

Definition check_graph (g : OperatorGraph) : list Diagnostic :=
  unsupported_operators g ++ tensor_diagnostics g ++ scalar_consumers g ++ effect_free g
  ++ [mk_diag SevNote "numerical-contract" ""].

Definition is_error (d : Diagnostic) : bool := bool_decide (dg_severity d = SevError).

Definition enforce (g : OperatorGraph) : result unit :=
  let errors := filter (λ d, is_error d = true) (check_graph g) in
  match errors with [] => Ok tt | _ => Err (LegalityError (dg_code <$> errors)) end.

(** ** What strict mode accepts *)
Record legal (g : OperatorGraph) : Prop := {
  le_kinds : ∀ op, op ∈ g_ops g → op_kind op ∈ ARITHMETIC_OP_KINDS;
  le_shapes : ∀ n tv, (n, tv) ∈ g_tensors g → Forall (λ d, 0 < d) (tv_shape tv);
  le_storages : ∀ n tv, (n, tv) ∈ g_tensors g → is_Some (dict_get (g_storage_sizes g) (tv_storage_id tv));
  le_positions : ∀ op k s, op ∈ g_ops g → op_attributes op !! k = Some (AStr s) →
    s ∈ (g_scalars g).*1 ∨ s ∈ g_row_position_tensors g → op_kind op ∈ POSITION_CONSUMERS;
  le_effects : ∀ op, op ∈ g_ops g → op_outputs op ≠ [] ∨ op_write_regions op ≠ []
}.

Lemma consumes_true (names : gset string) (op : Operator) :
  consumes names op = true ↔ ∃ k s, op_attributes op !! k = Some (AStr s) ∧ s ∈ names.
Proof.
  unfold consumes. rewrite existsb_exists. split.
  - intros ([k v] & Hin & Hv). apply list_elem_of_In, elem_of_map_to_list in Hin.
    destruct v; try done. simpl in Hv. apply bool_decide_eq_true in Hv. eauto.
  - intros (k & s & Hk & Hs). exists (k, AStr s). split.
    + by apply list_elem_of_In, elem_of_map_to_list.
    + by apply bool_decide_eq_true.
Qed.

Lemma all_errors (l : list Diagnostic) :
  (∀ d, d ∈ l → dg_severity d = SevError) → filter (λ d, is_error d = true) l = l.
Proof. intros H. apply filter_all. intros d Hd. by apply bool_decide_eq_true, H. Qed.

(** The errors of a report: everything but the closing note. *)
Lemma check_graph_errors (g : OperatorGraph) :
  filter (λ d, is_error d = true) (check_graph g)
  = unsupported_operators g ++ tensor_diagnostics g ++ scalar_consumers g ++ effect_free g.
Proof.
  unfold check_graph. rewrite !app_assoc, filter_app.
  replace (filter _ [mk_diag SevNote "numerical-contract" ""]) with (@nil Diagnostic) by done.
  rewrite app_nil_r. apply all_errors. intros d.
  rewrite !elem_of_app. unfold unsupported_operators, tensor_diagnostics, scalar_consumers, effect_free.
  rewrite !list_elem_of_bind.
  intros [ [ [ (op & Hd & _)|(ntv & Hd & _)]|(op & Hd & _)]|(op & Hd & _)]; revert Hd;
    repeat first [rewrite elem_of_app | case_match]; rewrite ?list_elem_of_singleton, ?elem_of_nil;
    intros; destruct_or?; subst; try done.
Qed.

Lemma no_errors (g : OperatorGraph) :
  unsupported_operators g ++ tensor_diagnostics g ++ scalar_consumers g ++ effect_free g = [] ↔ legal g.
Proof.
  rewrite !app_nil. unfold unsupported_operators, tensor_diagnostics, scalar_consumers, effect_free.
  rewrite !bind_nil. split.
  - intros (Hk & Ht & Hs & He). split.
    + intros op Hop. specialize (Hk op Hop). by case_bool_decide.
    + intros n tv Htv. specialize (Ht _ Htv). apply app_nil in Ht as [Ht _]. simpl in Ht.
      destruct (forallb _ _) eqn:E; [|done]. apply Forall_forall. intros d Hd.
      rewrite forallb_forall in E. apply Z.ltb_lt, E. by apply list_elem_of_In.
    + intros n tv Htv. specialize (Ht _ Htv). apply app_nil in Ht as [_ Ht]. simpl in Ht.
      destruct (dict_mem _ _) eqn:E; [|done]. by apply bool_decide_eq_true in E.
    + intros op k s Hop Hks Hs'. specialize (Hs op Hop). apply app_nil in Hs as [Hs1 Hs2].
      destruct (decide (op_kind op ∈ POSITION_CONSUMERS)) as [|Hn]; [done|]. exfalso.
      rewrite (bool_decide_true (op_kind op ∉ _)), !andb_true_r in Hs1, Hs2 by done.
      destruct Hs' as [Hs'|Hs'].
      * rewrite (proj2 (consumes_true _ op)) in Hs1; [done|]. exists k, s. split; [done|].
        by apply elem_of_list_to_set.
      * rewrite (proj2 (consumes_true _ op)) in Hs2; [done|]. by exists k, s.
    + intros op Hop. specialize (He op Hop). destruct (op_outputs op); [|by left].
      destruct (op_write_regions op); [done|by right].
  - intros [Hk Hsh Hst Hpos Heff]. split_and!.
    + intros op Hop. by rewrite bool_decide_true by (by apply Hk).
    + intros [n tv] Htv. simpl. rewrite (proj2 (forallb_forall _ _)).
      2: { intros d Hd. apply Z.ltb_lt. specialize (Hsh n tv Htv). rewrite Forall_forall in Hsh.
           apply Hsh. by apply list_elem_of_In. }
      unfold dict_mem. by rewrite bool_decide_true by (by eapply Hst).
    + intros op Hop. destruct (decide (op_kind op ∈ POSITION_CONSUMERS)) as [Hin|Hn].
      { rewrite bool_decide_false by tauto. by rewrite !andb_false_r. }
      assert (Hno : ∀ names, (∀ s, s ∈ names → s ∈ (g_scalars g).*1 ∨ s ∈ g_row_position_tensors g) →
                consumes names op = false).
      { intros names Hsub. destruct (consumes names op) eqn:E; [|done]. exfalso.
        apply consumes_true in E as (k & s & Hk' & Hs'). by eapply Hn, Hpos, Hsub. }
      rewrite !Hno; [done|by right|]. intros s Hs. left. by apply elem_of_list_to_set in Hs.
    + intros op Hop. specialize (Heff op Hop). destruct (op_outputs op), (op_write_regions op); try done.
      by destruct Heff.
Qed.

(** Strict mode accepts exactly the legal graphs: supported kinds, static
    positive shapes, registered storages, runtime positions read by position
    consumers only, and an output or a write effect for every operator; any
    other graph is refused with the full list of its errors. *)
Theorem enforce_spec (g : OperatorGraph) :
  (enforce g = Ok tt ↔ legal g)
  ∧ (¬ legal g → ∃ codes, codes ≠ [] ∧ enforce g = Err (LegalityError codes)
       ∧ codes = dg_code <$> (unsupported_operators g ++ tensor_diagnostics g
                              ++ scalar_consumers g ++ effect_free g)).
Proof.
  unfold enforce. rewrite check_graph_errors, <- no_errors.
  destruct (unsupported_operators g ++ _) as [|d ds]; [by split|]. split; [by split|].
  intros _. exists (dg_code <$> (d :: ds)). by split_and!.
Qed.
