(* ===== verification/TaskIR.v ===== *)
(** * Task IR (compiler/task_ir.py)

    Tile domains — the regular grids of logical tiles — and task families,
    whose region callbacks declare what each task instance touches.  The
    theorems: decoding a task id is total exactly on the ids of the domain,
    and the boxes of the tasks partition the index space of the domain. *)

From S2P Require Import Prelude Indexing OperatorIR.
Local Open Scope Z_scope.

(** ** Tile domains *)
Record TileDomain : Type := mk_domain { td_dims : list (Z * Z) }.

#[export] Instance TileDomain_eq_dec : EqDecision TileDomain.
Proof. solve_decision. Defined.

Definition task_grid (d : TileDomain) : result (list Z) :=
  map_result (λ p, py_floordiv (p.1 + p.2 - 1) p.2) (td_dims d).

Fixpoint count_loop (n : Z) (grid : list Z) : Z :=
  match grid with [] => n | g :: gs => count_loop (n * g) gs end.

Definition task_count (d : TileDomain) : result Z :=
  grid ← task_grid d; Ok (count_loop 1 grid).

Definition domain_extent (d : TileDomain) : list Z := (td_dims d).*1.

(** The loop runs from the last dimension to the first. *)
Fixpoint coords_loop (grid : list Z) (rem : Z) : result (list Z * Z) :=
  match grid with
  | [] => Ok ([], rem)
  | g :: gs =>
      p ← coords_loop gs rem;
      c ← py_mod p.2 g;
      r ← py_floordiv p.2 g;
      Ok (c :: p.1, r)
  end.

Definition coords (d : TileDomain) (task_id : Z) : result (list Z) :=
  grid ← task_grid d;
  p ← coords_loop grid task_id;
  if decide (p.2 = 0) then Ok p.1 else Err (IndexError "task id outside domain").

Definition clip_box (dim : Z * Z) (c : Z) : Z * Z :=
  (c * dim.2, Z.min (c * dim.2 + dim.2) dim.1).

Definition box (d : TileDomain) (task_id : Z) : result (list (Z * Z)) :=
  cs ← coords d task_id; Ok (zip_with clip_box (td_dims d) cs).

(** ** Task families *)

(** A region callback may raise: a coordinate unpack, a tile of the wrong
    rank, or a division inside it. *)
Definition RegionFn : Type := list Z → result (list Region).

Record TaskFamily : Type := mk_family {
  tf_family_id : string;
  tf_kind : string;
  tf_op : Operator;
  tf_domain : TileDomain;
  tf_inputs : list string;
  tf_outputs : list string;
  tf_params : attrs;
  tf_threads : Z;
  tf_scratch_bytes : Z;
  tf_read_regions : option RegionFn;
  tf_write_regions : option RegionFn
}.

Definition family_task_count (f : TaskFamily) : result Z := task_count (tf_domain f).
Definition family_coords (f : TaskFamily) (task_id : Z) : result (list Z) :=
  coords (tf_domain f) task_id.
Definition family_box (f : TaskFamily) (task_id : Z) : result (list (Z * Z)) :=
  box (tf_domain f) task_id.

Definition reads (f : TaskFamily) (task_id : Z) : result (list Region) :=
  match tf_read_regions f with
  | None => Ok []
  | Some fn => cs ← family_coords f task_id; fn cs
  end.

Definition writes (f : TaskFamily) (task_id : Z) : result (list Region) :=
  match tf_write_regions f with
  | None => Ok []
  | Some fn => cs ← family_coords f task_id; fn cs
  end.

(** ** Well-formed domains *)

(** Non-negative extents and positive tiles: what every lowering builds from
    a tensor with positive dimensions. *)
Definition domain_ok (d : TileDomain) : Prop :=
  Forall (λ p, 0 ≤ p.1 ∧ 0 < p.2) (td_dims d).

Definition grid_of (dims : list (Z * Z)) : list Z := (λ p, ceil_div p.1 p.2) <$> dims.

Lemma task_grid_ok (d : TileDomain) : domain_ok d → task_grid d = Ok (grid_of (td_dims d)).
Proof.
  unfold domain_ok, task_grid, grid_of. generalize (td_dims d) as dims.
  induction 1 as [|[e t] dims [He Ht] _ IH]; [done|]. simpl in *.
  rewrite py_floordiv_nz by lia. simpl. by rewrite IH.
Qed.

Lemma count_loop_zprod (n : Z) (grid : list Z) : count_loop n grid = n * zprod grid.
Proof. revert n. induction grid as [|g gs IH]; intros n; simpl; [lia|]. rewrite IH. lia. Qed.

Lemma task_count_ok (d : TileDomain) :
  domain_ok d → task_count d = Ok (zprod (grid_of (td_dims d))).
Proof.
  intros Hd. unfold task_count. rewrite task_grid_ok by done. simpl.
  rewrite count_loop_zprod. f_equal. lia.
Qed.

Lemma grid_of_nonneg (d : TileDomain) :
  domain_ok d → Forall (λ g, 0 ≤ g) (grid_of (td_dims d)).
Proof.
  intros Hd. apply Forall_fmap. eapply Forall_impl; [exact Hd|].
  intros [e t] [??]. by apply ceil_div_nonneg.
Qed.

(** The loop keeps the quotient of the id by the size of the dimensions it
    has consumed; the digits are those of [unravel]. *)
Lemma coords_loop_ok (grid : list Z) (rem : Z) :
  Forall (λ g, 0 < g) grid →
  coords_loop grid rem = Ok (unravel grid (rem `mod` zprod grid), rem / zprod grid).
Proof.
  intros Hg. revert rem. induction Hg as [|g gs Hg Hgs IH]; intros rem.
  - simpl. by rewrite Z.div_1_r.
  - cbn [coords_loop]. rewrite IH. simpl.
    rewrite py_mod_nz, py_floordiv_nz by lia. simpl.
    pose proof (zprod_pos gs Hgs) as Hp. change (foldr Z.mul 1 gs) with (zprod gs).
    rewrite Z.div_div, (Z.mul_comm g), Z.rem_mul_r by lia.
    rewrite (Z.mul_comm (zprod gs) (_ `mod` g)), Z.div_add, Z.mod_add by lia.
    rewrite (Z.div_small (rem `mod` _)) by (by apply Z.mod_pos_bound).
    by rewrite Z.mod_mod by lia.
Qed.

Lemma coords_ok (d : TileDomain) (task_id : Z) :
  domain_ok d → Forall (λ g, 0 < g) (grid_of (td_dims d)) →
  coords d task_id =
    if decide (0 ≤ task_id < zprod (grid_of (td_dims d)))
    then Ok (unravel (grid_of (td_dims d)) task_id)
    else Err (IndexError "task id outside domain").
Proof.
  intros Hd Hg. unfold coords. rewrite task_grid_ok by done. simpl.
  rewrite coords_loop_ok by done. simpl.
  pose proof (zprod_pos _ Hg) as Hp. set (n := zprod (grid_of (td_dims d))) in *.
  destruct (decide (0 ≤ task_id < n)) as [Hin|Hout].
  - rewrite Z.div_small by done. simpl. by rewrite Z.mod_small.
  - rewrite decide_False; [done|]. intros E. apply Hout.
    pose proof (Z.div_mod task_id n ltac:(lia)). pose proof (Z.mod_pos_bound task_id n Hp). lia.
Qed.

(** A zero dimension has no task ids; [coords] then raises on the modulus. *)
Lemma zero_grid_no_tasks (d : TileDomain) :
  domain_ok d → ¬ Forall (λ g, 0 < g) (grid_of (td_dims d)) → task_count d = Ok 0.
Proof.
  intros Hd Hz. rewrite task_count_ok by done. f_equal. pose proof (grid_of_nonneg d Hd) as Hn.
  revert Hz. generalize dependent (grid_of (td_dims d)). intros grid Hn Hz.
  induction Hn as [|g gs Hg Hgs IH]; [destruct Hz; constructor|]. rewrite zprod_cons.
  destruct (decide (g = 0)) as [->|]; [lia|]. rewrite IH; [lia|].
  intros H. apply Hz. constructor; [lia|done].
Qed.

Lemma task_ids_positive (d : TileDomain) (n t : Z) :
  domain_ok d → task_count d = Ok n → 0 ≤ t < n → Forall (λ g, 0 < g) (grid_of (td_dims d)).
Proof.
  intros Hd Hn Ht. destruct (decide (Forall (λ g, 0 < g) (grid_of (td_dims d)))) as [|Hz]; [done|].
  rewrite (zero_grid_no_tasks d Hd Hz) in Hn. simplify_eq. lia.
Qed.

(** The tile that holds an index, and the containment of an index in a box. *)
Definition tile_of (dims : list (Z * Z)) (idx : list Z) : list Z :=
  zip_with (λ p i, i / p.2) dims idx.

Definition box_contains (b : list (Z * Z)) (idx : list Z) : Prop :=
  Forall2 (λ p i, p.1 ≤ i < p.2) b idx.

Definition task_holds (d : TileDomain) (n : Z) (idx : list Z) (t : Z) : Prop :=
  0 ≤ t < n ∧ ∃ b, box d t = Ok b ∧ box_contains b idx.

Lemma tile_of_in_range (dims : list (Z * Z)) (idx : list Z) :
  Forall (λ p, 0 ≤ p.1 ∧ 0 < p.2) dims → in_range dims.*1 idx →
  in_range (grid_of dims) (tile_of dims idx).
Proof.
  intros Hd. revert idx. unfold in_range, grid_of.
  induction Hd as [|[e t] dims [He Ht] _ IH]; intros idx Hr; inversion Hr; subst; simpl in *;
    constructor; auto.
  split; [apply Z.div_pos; lia|]. apply ceil_div_bounds; [done|].
  pose proof (Z.mul_div_le y t Ht). lia.
Qed.

Lemma clip_box_contains (e t c i : Z) :
  0 < t → 0 ≤ c → (clip_box (e, t) c).1 ≤ i < (clip_box (e, t) c).2 ↔ 0 ≤ i < e ∧ c = i / t.
Proof.
  intros Ht Hc. simpl. split.
  - intros Hi. split; [nia|]. apply (Z.div_unique_pos i t c (i - c * t)); lia.
  - intros [Hi ->]. pose proof (Z.div_mod i t ltac:(lia)).
    pose proof (Z.mod_pos_bound i t Ht). lia.
Qed.

Lemma box_contains_tile (dims : list (Z * Z)) (cs idx : list Z) :
  Forall (λ p, 0 ≤ p.1 ∧ 0 < p.2) dims → in_range (grid_of dims) cs →
  box_contains (zip_with clip_box dims cs) idx ↔ in_range dims.*1 idx ∧ cs = tile_of dims idx.
Proof.
  intros Hd. revert cs idx. unfold in_range, grid_of, box_contains, tile_of.
  induction Hd as [|[e t] dims [He Ht] _ IH]; intros cs idx Hc; inversion Hc as [|? c ? cs' Hlt Hcs]; subst.
  - simpl. split; [inversion 1; subst; by split|]. intros [H _]. inversion H; subst. constructor.
  - simpl zip_with. rewrite fmap_cons. split.
    + intros H. inversion H as [|? i ? idx' Hi Hidx]; subst.
      apply clip_box_contains in Hi as [Hi ->]; [|done|lia].
      apply (IH cs' idx' Hcs) in Hidx as [Hidx ->]. split; [by constructor|done].
    + intros [H E]. inversion H as [|? i ? idx' Hi Hidx]; subst. simpl in E. simplify_eq.
      constructor; [apply clip_box_contains; [done|lia|done]|]. by apply IH.
Qed.

(** Decoding a task id is the row-major decoding of the tile grid: it
    succeeds exactly on the ids of the domain, is inverted by [ravel], and
    raises [IndexError] on every other id of a non-empty domain. *)
Theorem coords_spec (d : TileDomain) (grid : list Z) (n : Z) :
  domain_ok d → task_grid d = Ok grid → task_count d = Ok n →
  (∀ t, 0 ≤ t < n → ∃ cs, coords d t = Ok cs ∧ in_range grid cs ∧ ravel grid cs = t)
  ∧ (∀ cs, in_range grid cs → 0 ≤ ravel grid cs < n ∧ coords d (ravel grid cs) = Ok cs)
  ∧ (∀ t, 0 < n → ¬ 0 ≤ t < n → coords d t = Err (IndexError "task id outside domain")).
Proof.
  intros Hd Hg Hn. pose proof (task_ids_positive d n) as Hpos.
  rewrite task_grid_ok in Hg by done. rewrite task_count_ok in Hn by done. simplify_eq.
  split_and!.
  - intros t Ht. assert (Hp := Hpos t Hd (task_count_ok d Hd) Ht).
    rewrite coords_ok, decide_True by done. eexists; split; [done|].
    split; [by apply unravel_in_range | by apply ravel_unravel].
  - intros cs Hcs. pose proof (ravel_bound _ _ Hcs) as Hb. split; [done|].
    rewrite coords_ok, decide_True by eauto with py. by rewrite unravel_ravel.
  - intros t H0 Ht. assert (Hp := Hpos 0 Hd (task_count_ok d Hd) ltac:(lia)).
    by rewrite coords_ok, decide_False.
Qed.

(** C29. The boxes of the tasks partition the index space of the domain:
    every index of the extent lies in the box of exactly one task id, and no
    box reaches outside the extent. *)
Theorem boxes_partition (d : TileDomain) (n : Z) (idx : list Z) :
  domain_ok d → task_count d = Ok n →
  (in_range (domain_extent d) idx →
     ∃ t, task_holds d n idx t ∧ ∀ t', task_holds d n idx t' → t' = t)
  ∧ (∀ t b, 0 ≤ t < n → box d t = Ok b → box_contains b idx → in_range (domain_extent d) idx).
Proof.
  intros Hd Hn. pose proof (λ t, task_ids_positive d n t Hd Hn) as Hpos.
  rewrite task_count_ok in Hn by done. simplify_eq.
  assert (Hbox : ∀ t, 0 ≤ t < zprod (grid_of (td_dims d)) →
    ∃ cs, box d t = Ok (zip_with clip_box (td_dims d) cs) ∧ in_range (grid_of (td_dims d)) cs
          ∧ ravel (grid_of (td_dims d)) cs = t).
  { intros t Ht. assert (Hp := Hpos t Ht). unfold box. rewrite coords_ok, decide_True by done.
    eexists. split; [done|]. split; [by apply unravel_in_range | by apply ravel_unravel]. }
  split.
  - intros Hi. pose proof (tile_of_in_range _ _ Hd Hi) as Ht.
    exists (ravel (grid_of (td_dims d)) (tile_of (td_dims d) idx)).
    pose proof (ravel_bound _ _ Ht) as Hb. split.
    + split; [done|]. destruct (Hbox _ Hb) as (cs & -> & Hcs & E). eexists; split; [done|].
      apply box_contains_tile; [done..|]. split; [done|]. by eapply ravel_inj.
    + intros t (Hr & b & Hb' & Hin). destruct (Hbox _ Hr) as (cs & Hb'' & Hcs & <-).
      rewrite Hb'' in Hb'. injection Hb' as <-. by apply box_contains_tile in Hin as [_ ->].
  - intros t b Ht Hb Hin. destruct (Hbox t Ht) as (cs & Hb' & Hcs & _).
    rewrite Hb in Hb'. injection Hb' as ->.
    by apply box_contains_tile in Hin as [? _].
Qed.

(** ** Witnesses *)
Definition ex_domain : TileDomain := mk_domain [(50, 16); (33, 16)].

Lemma ex_domain_ok : domain_ok ex_domain.
Proof. repeat (constructor; [simpl; lia|]). constructor. Qed.

Lemma coords_spec_witness :
  coords ex_domain 11 = Ok [3; 2] ∧ coords ex_domain 12 = Err (IndexError "task id outside domain").
Proof.
  split; [reflexivity|].
  apply (coords_spec ex_domain [4; 3] 12 ex_domain_ok eq_refl eq_refl); lia.
Defined.

Lemma boxes_partition_witness :
  box ex_domain 11 = Ok [(48, 50); (32, 33)]
  ∧ ∃ t, task_holds ex_domain 12 [49; 32] t ∧ ∀ t', task_holds ex_domain 12 [49; 32] t' → t' = t.
Proof.
  split; [reflexivity|].
  apply (boxes_partition ex_domain 12 [49; 32] ex_domain_ok eq_refl).
  repeat (constructor; [simpl; lia|]). constructor.
Defined.
