(* ===== verification/SchedulePhase.v ===== *)
(** * Phase-synchronous schedule (compiler/schedule_phase.py)

    One phase per recorded operator; worker [w] of [P] executes the task ids
    [w, w+P, w+2P, ...] of each phase and joins a grid barrier.  The theorems
    are the coverage argument of the module's documentation: every task of a
    phase belongs to exactly one worker, so the explicit check accepts every
    schedule with at least one worker; and a linear task id addresses the
    concatenation of the phase's families. *)

From S2P Require Import Prelude Indexing OperatorIR TaskIR.
Local Open Scope Z_scope.

(** ** Phases *)
Record PhasePlan : Type := mk_phase {
  pp_index : Z;
  pp_families : list TaskFamily
}.

(** Python's [sum] over a generator of task counts. *)
Definition sum_counts {A} (count : A → result Z) (xs : list A) : result Z :=
  fold_result (λ acc x, n ← count x; Ok (acc + n)) 0 xs.

Definition phase_task_count (p : PhasePlan) : result Z :=
  sum_counts family_task_count (pp_families p).

Fixpoint family_of_loop (fams : list TaskFamily) (task_id : Z) : result TaskFamily :=
  match fams with
  | [] => Err (IndexError "task id outside phase")
  | f :: fams =>
      n ← family_task_count f;
      if task_id <? n then Ok f else family_of_loop fams (task_id - n)
  end.
Definition family_of (p : PhasePlan) (task_id : Z) : result TaskFamily :=
  family_of_loop (pp_families p) task_id.

Fixpoint local_id_loop (fams : list TaskFamily) (task_id : Z) : result Z :=
  match fams with
  | [] => Err (IndexError "task id outside phase")
  | f :: fams =>
      n ← family_task_count f;
      if task_id <? n then Ok task_id else local_id_loop fams (task_id - n)
  end.
Definition local_id (p : PhasePlan) (task_id : Z) : result Z :=
  local_id_loop (pp_families p) task_id.

Definition worker_task_ids (p : PhasePlan) (worker workers : Z) : result (list Z) :=
  n ← phase_task_count p; py_range worker n workers.

(** ** The schedule *)
Record PhaseSchedule : Type := mk_schedule {
  ps_phases : list PhasePlan;
  ps_workers : Z
}.

Definition num_phases (s : PhaseSchedule) : Z := Z.of_nat (length (ps_phases s)).
Definition total_tasks (s : PhaseSchedule) : result Z :=
  sum_counts phase_task_count (ps_phases s).

(** [for tid in ...: if tid in assigned: raise; assigned.add(tid)] *)
Fixpoint assign_ids (assigned : gset Z) (tids : list Z) : result (gset Z) :=
  match tids with
  | [] => Ok assigned
  | tid :: tids =>
      if decide (tid ∈ assigned)
      then Err (ScheduleInvariantError "task assigned to more than one worker")
      else assign_ids ({[tid]} ∪ assigned) tids
  end.

Definition check_phase (P : Z) (p : PhasePlan) : result unit :=
  n ← phase_task_count p;
  assigned ← fold_result (λ acc w, tids ← worker_task_ids p w P; assign_ids acc tids)
               ∅ (zrange P);
  if decide ((list_to_set (zrange n) : gset Z) ∖ assigned = ∅) then Ok tt
  else Err (ScheduleInvariantError "tasks never assigned").

(** The barriers one worker meets: one per phase, after its share of it. *)
Definition check_barriers (s : PhaseSchedule) (w : Z) : result unit :=
  barriers ← fold_result (λ acc p, _ ← worker_task_ids p w (ps_workers s); Ok (acc + 1))
               0 (ps_phases s);
  require (barriers =? num_phases s) (ScheduleInvariantError "barrier count").

Definition check_invariants (s : PhaseSchedule) : result unit :=
  if ps_workers s <? 1 then Err (ScheduleInvariantError "worker count must be >= 1")
  else
    _ ← fold_result (λ _ p, check_phase (ps_workers s) p) tt (ps_phases s);
    fold_result (λ _ w, check_barriers s w) tt (zrange (ps_workers s)).

(** Group the families by operator id, in order of first appearance. *)
Definition group_step (acc : dict Z (list TaskFamily) * list Z) (fam : TaskFamily)
    : dict Z (list TaskFamily) * list Z :=
  let '(by_op, order) := acc in
  let opid := op_opid (tf_op fam) in
  let '(by_op, order) :=
    if dict_mem by_op opid then (by_op, order) else (dict_set by_op opid [], order ++ [opid]) in
  (dict_set by_op opid (default [] (dict_get by_op opid) ++ [fam]), order).

Definition group_families (families : list TaskFamily) : dict Z (list TaskFamily) * list Z :=
  foldl group_step ([], []) families.

Definition from_families (families : list TaskFamily) (workers : Z) : result PhaseSchedule :=
  let '(by_op, order) := group_families families in
  let phases := imap (λ i opid, mk_phase (Z.of_nat i) (default [] (dict_get by_op opid))) order in
  let sched := mk_schedule phases workers in
  _ ← check_invariants sched;
  Ok sched.

(** ** Coverage of the strided assignment *)

(** The ids worker [w] of [P] owns among [0 .. n). *)
Definition stride_ids (w n P : Z) : list Z :=
  (λ i, w + i * P) <$> zrange (ceil_div (n - w) P).

Lemma elem_of_stride_ids (w n P t : Z) :
  0 < P → 0 ≤ w < P → t ∈ stride_ids w n P ↔ 0 ≤ t < n ∧ t `mod` P = w.
Proof.
  intros HP Hw. unfold stride_ids. rewrite list_elem_of_fmap. split.
  - intros (i & -> & Hi). rewrite elem_of_zrange in Hi. destruct Hi as [Hi Hlt].
    apply ceil_div_bounds in Hlt; [|done]. split; [nia|].
    rewrite Z.mod_add, Z.mod_small; lia.
  - intros [Ht Hm]. exists (t / P). pose proof (Z.div_mod t P ltac:(lia)). split; [lia|].
    rewrite elem_of_zrange. split; [apply Z.div_pos; lia|]. apply ceil_div_bounds; lia.
Qed.

Lemma NoDup_stride_ids (w n P : Z) : 0 < P → NoDup (stride_ids w n P).
Proof.
  intros HP. apply NoDup_fmap_2_strong; [|apply NoDup_zrange].
  intros i j _ _ E. nia.
Qed.

Lemma worker_task_ids_stride (p : PhasePlan) (n w P : Z) :
  phase_task_count p = Ok n → 0 < P → worker_task_ids p w P = Ok (stride_ids w n P).
Proof. intros E HP. unfold worker_task_ids. rewrite E. simpl. by rewrite py_range_pos. Qed.

(** What the workers [0 .. k) own together. *)
Lemma assigned_workers (n P k : Z) :
  0 < P → 0 ≤ k ≤ P →
  NoDup (w ← zrange k; stride_ids w n P)
  ∧ ∀ t, t ∈ (w ← zrange k; stride_ids w n P) ↔ 0 ≤ t < n ∧ t `mod` P < k.
Proof.
  intros HP Hk. split.
  - apply NoDup_bind; [| |apply NoDup_zrange].
    + intros w1 w2 t Hw1 Hw2. rewrite elem_of_zrange in Hw1, Hw2.
      rewrite !elem_of_stride_ids by lia. lia.
    + intros w _. by apply NoDup_stride_ids.
  - intros t. rewrite list_elem_of_bind. split.
    + intros (w & Ht & Hw). rewrite elem_of_zrange in Hw.
      rewrite elem_of_stride_ids in Ht by lia. lia.
    + intros [Ht Hm]. exists (t `mod` P). pose proof (Z.mod_pos_bound t P HP).
      rewrite elem_of_zrange, elem_of_stride_ids by lia. lia.
Qed.

Lemma assign_ids_app (tids1 tids2 : list Z) (acc : gset Z) :
  assign_ids acc (tids1 ++ tids2) = acc' ← assign_ids acc tids1; assign_ids acc' tids2.
Proof.
  revert acc. induction tids1 as [|t tids IH]; intros acc; simpl; [done|].
  case_decide; [done|]. apply IH.
Qed.

Lemma assign_ids_fresh (tids : list Z) (acc : gset Z) :
  NoDup tids → (∀ t, t ∈ tids → t ∉ acc) → assign_ids acc tids = Ok (list_to_set tids ∪ acc).
Proof.
  intros Hnd. revert acc. induction Hnd as [|t tids Ht Hnd IH]; intros acc Hf; simpl.
  - f_equal. set_solver.
  - rewrite decide_False by (apply Hf; set_solver). rewrite IH by set_solver.
    f_equal. set_solver.
Qed.

Lemma assign_workers_fold (p : PhasePlan) (n P : Z) (ws : list Z) (acc : gset Z) :
  phase_task_count p = Ok n → 0 < P →
  fold_result (λ acc w, tids ← worker_task_ids p w P; assign_ids acc tids) acc ws
  = assign_ids acc (w ← ws; stride_ids w n P).
Proof.
  intros En HP. revert acc. induction ws as [|w ws IH]; intros acc; [done|].
  cbn [fold_result]. rewrite (worker_task_ids_stride p n) by done. simpl.
  rewrite assign_ids_app. destruct (assign_ids _ _); [apply IH|done].
Qed.

Lemma check_phase_ok (p : PhasePlan) (n P : Z) :
  phase_task_count p = Ok n → 0 < P → check_phase P p = Ok tt.
Proof.
  intros En HP. unfold check_phase. rewrite (assign_workers_fold p n) by done.
  rewrite En. simpl. destruct (assigned_workers n P P HP ltac:(lia)) as [Hnd Hin].
  rewrite assign_ids_fresh by set_solver. simpl. rewrite decide_True; [done|].
  apply set_eq. intros t. rewrite elem_of_difference, elem_of_union, !elem_of_list_to_set.
  rewrite Hin, elem_of_zrange. pose proof (Z.mod_pos_bound t P HP). set_solver by lia.
Qed.

Lemma fold_check_ok {A} (f : A → result unit) (xs : list A) :
  Forall (λ x, f x = Ok tt) xs → fold_result (λ _ x, f x) tt xs = Ok tt.
Proof. induction 1 as [|x xs E _ IH]; simpl; [done|]. by rewrite E. Qed.

Lemma barriers_fold (s : PhaseSchedule) (w acc : Z) (phases : list PhasePlan) :
  0 < ps_workers s → Forall (λ p, is_ok (phase_task_count p) = true) phases →
  fold_result (λ acc p, _ ← worker_task_ids p w (ps_workers s); Ok (acc + 1)) acc phases
  = Ok (acc + Z.of_nat (length phases)).
Proof.
  intros HP Hp. revert acc. induction Hp as [|p phases Hc _ IH]; intros acc.
  - simpl. f_equal. lia.
  - cbn [fold_result]. destruct (phase_task_count p) as [n|] eqn:En; [|done].
    rewrite (worker_task_ids_stride p n) by done. simpl. rewrite IH. f_equal. lia.
Qed.

(** The workers' shares are a permutation of all ids. *)
Lemma stride_shares (n P : Z) : 1 ≤ P → (w ← zrange P; stride_ids w n P) ≡ₚ zrange n.
Proof.
  intros HP. destruct (assigned_workers n P P ltac:(lia) ltac:(lia)) as [Hnd Hin].
  apply NoDup_Permutation; [done|apply NoDup_zrange|].
  intros t. rewrite Hin, elem_of_zrange. pose proof (Z.mod_pos_bound t P). lia.
Qed.

(** Within a phase the strided assignment gives every task id to exactly
    one worker: worker [w]'s list is duplicate-free, task [t] is in it exactly
    when [t mod P = w], and the lists together are a permutation of all ids. *)
Theorem worker_coverage (p : PhasePlan) (n P : Z) :
  phase_task_count p = Ok n → 1 ≤ P →
  ∃ lists, map_result (λ w, worker_task_ids p w P) (zrange P) = Ok lists
    ∧ concat lists ≡ₚ zrange n
    ∧ (∀ w, 0 ≤ w < P → ∃ ids, worker_task_ids p w P = Ok ids ∧ NoDup ids
              ∧ ∀ t, t ∈ ids ↔ 0 ≤ t < n ∧ t `mod` P = w).
Proof.
  intros En HP. exists ((λ w, stride_ids w n P) <$> zrange P). split_and!.
  - induction (zrange P) as [|w ws IH]; [done|]. cbn [map_result].
    rewrite (worker_task_ids_stride p n) by (done || lia). simpl. by rewrite IH.
  - rewrite <- bind_concat. by apply stride_shares.
  - intros w Hw. eexists. split; [apply worker_task_ids_stride; [done|lia]|].
    split; [apply NoDup_stride_ids; lia|]. intros t. apply elem_of_stride_ids; lia.
Qed.

(** The check never rejects a strided schedule. *)
Lemma check_invariants_aux (s : PhaseSchedule) :
  Forall (λ p, is_ok (phase_task_count p) = true) (ps_phases s) →
  check_invariants s =
    if decide (1 ≤ ps_workers s) then Ok tt
    else Err (ScheduleInvariantError "worker count must be >= 1").
Proof.
  intros Hp. unfold check_invariants. destruct (decide (1 ≤ ps_workers s)) as [HP|HP].
  - rewrite (proj2 (Z.ltb_ge _ _)) by lia.
    rewrite (fold_check_ok (check_phase (ps_workers s))); simpl.
    + apply fold_check_ok, Forall_forall. intros w _. unfold check_barriers.
      rewrite barriers_fold by (done || lia). simpl. unfold num_phases, require.
      by rewrite Z.eqb_refl.
    + eapply Forall_impl; [exact Hp|]. intros p Hc. simpl in Hc.
      destruct (phase_task_count p) as [n|] eqn:En; [|done].
      apply (check_phase_ok p n); [done|lia].
  - by rewrite (proj2 (Z.ltb_lt _ _)) by lia.
Qed.

(** ** Linear task ids *)

(** The tasks of a phase in linear order: the families one after another. *)
Definition flat_tasks (fams : list TaskFamily) (counts : list Z) : list (TaskFamily * Z) :=
  concat (zip_with (λ f n, (λ i, (f, i)) <$> zrange n) fams counts).

Lemma lookup_zrange_pair {A} (x : A) (n t : Z) :
  0 ≤ t → ((λ i, (x, i)) <$> zrange n) !! Z.to_nat t = if decide (t < n) then Some (x, t) else None.
Proof.
  intros Ht. unfold zrange. rewrite !list_lookup_fmap. case_decide.
  - rewrite lookup_seq_lt by lia. simpl. do 2 f_equal. lia.
  - rewrite lookup_seq_ge by lia. done.
Qed.

(** A linear task id of a phase addresses the concatenation of its
    families: [family_of] and [local_id] return the family and the
    family-local id found there, and raise [IndexError] past the end. *)
Theorem linear_task_ids (p : PhasePlan) (counts : list Z) (t : Z) :
  Forall2 (λ f n, family_task_count f = Ok n ∧ 0 ≤ n) (pp_families p) counts → 0 ≤ t →
  match flat_tasks (pp_families p) counts !! Z.to_nat t with
  | Some (f, i) => family_of p t = Ok f ∧ local_id p t = Ok i
                   ∧ ∃ n, family_task_count f = Ok n ∧ 0 ≤ i < n
  | None => family_of p t = Err (IndexError "task id outside phase")
            ∧ local_id p t = Err (IndexError "task id outside phase")
  end.
Proof.
  unfold family_of, local_id. intros Hc. revert t. unfold flat_tasks.
  induction Hc as [|f n fams counts [En Hn] _ IH]; intros t Ht; simpl; [done|].
  rewrite En. simpl. destruct (decide (t < n)) as [Hlt|Hge].
  - rewrite lookup_app_l by (rewrite length_fmap, length_zrange; lia).
    rewrite lookup_zrange_pair, decide_True by done. rewrite (proj2 (Z.ltb_lt _ _)) by done. eauto 10.
  - rewrite lookup_app_r by (rewrite length_fmap, length_zrange; lia).
    rewrite length_fmap, length_zrange, (proj2 (Z.ltb_ge _ _)) by lia.
    replace (Z.to_nat t - Z.to_nat n)%nat with (Z.to_nat (t - n)) by lia. apply IH. lia.
Qed.

(** ** Grouping families into phases *)
Definition fam_opid (f : TaskFamily) : Z := op_opid (tf_op f).

(** The distinct values of a list in order of first appearance. *)
Definition first_seen (l : list Z) : list Z :=
  foldl (λ acc x, if decide (x ∈ acc) then acc else acc ++ [x]) [] l.

Lemma first_seen_snoc (l : list Z) (x : Z) :
  first_seen (l ++ [x]) = if decide (x ∈ first_seen l) then first_seen l else first_seen l ++ [x].
Proof. unfold first_seen. by rewrite foldl_app. Qed.

Lemma first_seen_spec (l : list Z) :
  NoDup (first_seen l) ∧ ∀ x, x ∈ first_seen l ↔ x ∈ l.
Proof.
  induction l as [|x l [Hnd Hin]] using rev_ind; [split; [constructor|done]|].
  rewrite first_seen_snoc. case_decide as Hx.
  - split; [done|]. intros y. rewrite Hin, elem_of_app, list_elem_of_singleton.
    split; [auto|]. intros [?| ->]; [done|]. by apply Hin.
  - split; [apply NoDup_app; split_and!; [done|set_solver|apply NoDup_singleton]|].
    intros y. by rewrite !elem_of_app, Hin.
Qed.

Lemma first_seen_NoDup (l : list Z) : NoDup l → first_seen l = l.
Proof.
  induction l as [|x l IH] using rev_ind; [done|]. intros [Hl [Hx _]]%NoDup_app.
  rewrite first_seen_snoc, IH by done. rewrite decide_False; [done|].
  intros H. apply (Hx x H). set_solver.
Qed.

Lemma filter_none_fams (fams : list TaskFamily) (o : Z) :
  o ∉ first_seen (fam_opid <$> fams) → filter (λ f, fam_opid f = o) fams = [].
Proof.
  rewrite (proj2 (first_seen_spec _)). intros H. apply filter_none. intros f Hf <-. apply H. by apply list_elem_of_fmap_2.
Qed.

(** The state of the grouping loop after a prefix of the families. *)
Lemma group_families_spec (families : list TaskFamily) :
  let '(by_op, order) := group_families families in
  order = first_seen (fam_opid <$> families)
  ∧ ∀ o, dict_get by_op o =
         if decide (o ∈ order) then Some (filter (λ f, fam_opid f = o) families) else None.
Proof.
  induction families as [|f fams IH] using rev_ind; [by split|].
  unfold group_families in *. rewrite foldl_app. simpl.
  destruct (foldl group_step ([], []) fams) as [by_op order]. destruct IH as [-> Hget].
  unfold group_step. fold (fam_opid f). rewrite fmap_app. simpl.
  rewrite first_seen_snoc. unfold dict_mem. rewrite Hget.
  destruct (decide (fam_opid f ∈ _)) as [Hin|Hout].
  - rewrite bool_decide_true by eauto. split; [done|]. intros o.
    rewrite dict_get_set, !Hget, filter_app, filter_cons, filter_nil.
    destruct (decide (o = fam_opid f)) as [->|Ho].
    + by rewrite !decide_True by done.
    + rewrite (decide_False (P := fam_opid f = o)) by done. by rewrite app_nil_r.
  - rewrite bool_decide_false by (by intros [? [=]]). split; [done|]. intros o.
    rewrite !dict_get_set, Hget, filter_app, filter_cons, filter_nil.
    destruct (decide (o = fam_opid f)) as [->|Ho].
    + rewrite (filter_none_fams fams) by done. rewrite !decide_True by set_solver. done.
    + rewrite (decide_False (P := fam_opid f = o)) by done. rewrite app_nil_r.
      rewrite Hget. apply decide_ext. set_solver.
Qed.

(** The phases a grouping builds. *)
Definition phases_of (families : list TaskFamily) : list PhasePlan :=
  imap (λ i o, mk_phase (Z.of_nat i) (filter (λ f, fam_opid f = o) families))
    (first_seen (fam_opid <$> families)).

Lemma from_families_eq (families : list TaskFamily) (workers : Z) :
  from_families families workers =
    _ ← check_invariants (mk_schedule (phases_of families) workers);
    Ok (mk_schedule (phases_of families) workers).
Proof.
  unfold from_families. pose proof (group_families_spec families) as H.
  destruct (group_families families) as [by_op order]. destruct H as [-> Hget].
  replace (imap _ _) with (phases_of families); [done|].
  apply imap_ext. intros i o Ho. apply list_elem_of_lookup_2 in Ho.
  by rewrite Hget, decide_True.
Qed.

Lemma phases_of_families (families : list TaskFamily) :
  pp_families <$> phases_of families =
  (λ o, filter (λ f, fam_opid f = o) families) <$> first_seen (fam_opid <$> families).
Proof. 
  unfold phases_of. rewrite fmap_imap. generalize (first_seen (fam_opid <$> families)) as os.
  intros os. rewrite <- imap_const. by apply imap_ext.
Qed.

Lemma filter_unique_key (families : list TaskFamily) (f : TaskFamily) :
  NoDup (fam_opid <$> families) → f ∈ families →
  filter (λ f', fam_opid f' = fam_opid f) families = [f].
Proof.
  induction families as [|g fams IH]; [by intros _ ?%not_elem_of_nil|].
  rewrite fmap_cons. intros [Hg Hnd]%NoDup_cons [->|Hf]%elem_of_cons.
  - rewrite filter_cons_True by done. f_equal. apply filter_none. intros f' Hf' E.
    apply Hg. rewrite <- E. by apply list_elem_of_fmap_2.
  - rewrite filter_cons_False; [by apply IH|]. intros E. apply Hg. rewrite E.
    by apply list_elem_of_fmap_2.
Qed.

Lemma sum_counts_ok {A} (count : A → result Z) (xs : list A) (ns : list Z) (acc : Z) :
  Forall2 (λ x n, count x = Ok n) xs ns →
  fold_result (λ acc x, n ← count x; Ok (acc + n)) acc xs = Ok (acc + zsum ns).
Proof.
  intros H. revert acc. induction H as [|x n xs ns E _ IH]; intros acc; simpl.
  - f_equal. lia.
  - rewrite E. simpl. rewrite IH. f_equal. unfold zsum. lia.
Qed.

Lemma phase_count_is_ok (p : PhasePlan) :
  Forall (λ f, is_ok (family_task_count f) = true) (pp_families p) →
  is_ok (phase_task_count p) = true.
Proof.
  intros H. unfold phase_task_count, sum_counts.
  rewrite (sum_counts_ok _ _ ((λ f, ok_default 0 (family_task_count f)) <$> pp_families p)); [done|].
  induction H as [|f fams Hf _ IH]; constructor; [|done]. by destruct (family_task_count f).
Qed.

(** With distinct operator ids each phase is one family. *)
Lemma phases_of_distinct (families : list TaskFamily) :
  NoDup (fam_opid <$> families) → pp_families <$> phases_of families = (λ f, [f]) <$> families.
Proof.
  intros Hd. rewrite phases_of_families, first_seen_NoDup by done.
  rewrite <- list_fmap_compose. apply list_fmap_ext. intros i f Hf.
  apply list_elem_of_lookup_2 in Hf. by apply filter_unique_key.
Qed.

(** [from_families] succeeds exactly with at least one worker; its
    phases are numbered in order, hold every family exactly once, one phase
    per operator id in order of first appearance; with distinct operator ids
    (what lowering produces) phase [i] is exactly family [i]. *)
Theorem from_families_spec (families : list TaskFamily) (workers : Z) :
  Forall (λ f, is_ok (family_task_count f) = true) families →
  if decide (1 ≤ workers) then
    ∃ s, from_families families workers = Ok s ∧ ps_workers s = workers
      ∧ (∀ i p, ps_phases s !! i = Some p → pp_index p = Z.of_nat i)
      ∧ concat (pp_families <$> ps_phases s) ≡ₚ families
      ∧ (∀ i j p q f g, ps_phases s !! i = Some p → ps_phases s !! j = Some q →
           f ∈ pp_families p → g ∈ pp_families q → fam_opid f = fam_opid g ↔ i = j)
      ∧ (NoDup (fam_opid <$> families) → pp_families <$> ps_phases s = (λ f, [f]) <$> families)
  else from_families families workers
       = Err (ScheduleInvariantError "worker count must be >= 1").
Proof.
  intros Hc. rewrite from_families_eq. destruct (first_seen_spec (fam_opid <$> families)) as [Hnd Hin].
  assert (Hlk : ∀ i p, phases_of families !! i = Some p →
    ∃ o, first_seen (fam_opid <$> families) !! i = Some o
         ∧ p = mk_phase (Z.of_nat i) (filter (λ f, fam_opid f = o) families)).
  { intros i p. unfold phases_of. rewrite list_lookup_imap, fmap_Some. eauto. }
  rewrite check_invariants_aux.
  2: { apply Forall_lookup. intros i p (o & _ & ->)%Hlk. apply phase_count_is_ok, Forall_forall.
       intros f [_ Hf]%list_elem_of_filter. rewrite Forall_forall in Hc. by apply Hc. }
  simpl. destruct (decide (1 ≤ workers)); [|done]. simpl.
  eexists; split_and!; [done|done|..]; simpl.
  - by intros i p (o & _ & ->)%Hlk.
  - rewrite phases_of_families. apply concat_filter_key; [done|]. intros f Hf.
    apply Hin. by apply list_elem_of_fmap_2.
  - intros i j p q f g (o & Ho & ->)%Hlk (o' & Ho' & ->)%Hlk; simpl.
    intros [<- _]%list_elem_of_filter [<- _]%list_elem_of_filter. split.
    + intros E. rewrite E in Ho. by eapply NoDup_lookup.
    + intros ->. congruence.
  - apply phases_of_distinct.
Qed.

(** ** Witnesses *)
Definition ex_op (opid : Z) : Operator := mk_operator opid "add" [] [] ∅ [] [] "ex".
Definition ex_family (opid rows : Z) : TaskFamily :=
  mk_family ("f" +:+ fmt opid) "elementwise" (ex_op opid) (mk_domain [(rows, 16)]) [] [] ∅ 256 0 None None.
Definition ex_phase : PhasePlan := mk_phase 0 [ex_family 0 50; ex_family 0 33].

Lemma worker_coverage_witness :
  ∃ lists, map_result (λ w, worker_task_ids ex_phase w 3) (zrange 3) = Ok lists
    ∧ concat lists ≡ₚ zrange 7.
Proof.
  destruct (worker_coverage ex_phase 7 3 eq_refl ltac:(lia)) as (lists & H1 & H2 & _). eauto.
Defined.

Lemma linear_task_ids_witness :
  family_of ex_phase 5 = Ok (ex_family 0 33) ∧ local_id ex_phase 5 = Ok 1.
Proof.
  assert (H := linear_task_ids ex_phase [4; 3] 5).
  destruct H as (H1 & H2 & _); [|lia|by split].
  repeat (constructor; [split; [reflexivity|lia]|]). constructor.
Defined.

Lemma from_families_spec_witness :
  ∃ s, from_families [ex_family 0 50; ex_family 1 33] 2 = Ok s
    ∧ pp_families <$> ps_phases s = [[ex_family 0 50]; [ex_family 1 33]].
Proof.
  destruct (from_families_spec [ex_family 0 50; ex_family 1 33] 2) as (s & Hs & _ & _ & _ & _ & Hd).
  - repeat (constructor; [reflexivity|]). constructor.
  - exists s. split; [exact Hs|]. apply Hd. vm_compute. repeat constructor; set_solver.
Defined.
