(* ===== verification/Kahn.v ===== *)
(** * Kahn's algorithm and the ready-task discipline

    The queue-driven traversal that [schedule_static.py] uses three times
    ([check_acyclic], [check_augmented_acyclic], the topological sort of
    [build_static_worker_schedule]) and [runtime/task_queue.py] once more,
    over dictionaries of sets, and the invariant shared with the ready-task
    queue, in which a claimed task may be in flight for a while. *)

From S2P Require Import Prelude.
Local Open Scope Z_scope.

Section loop.
Context {K : Type} `{SetIter K}.

(** [succ[p].add(k)] *)
Definition add_edge (succ : dict K (gset K)) (e : K * K) : result (dict K (gset K)) :=
  X ← of_option (KeyError "succ") (dict_get succ e.1);
  Ok (dict_set succ e.1 ({[e.2]} ∪ X)).

(** The pairs [(p, k)] that [for k, ps in preds.items(): for p in ps]
    enumerates. *)
Definition dict_edges (preds : dict K (gset K)) : list (K * K) :=
  kp ← preds; p ← set_iter kp.1 kp.2; [(p, kp.1)].

(** [{k: v for k in ks}] *)
Definition dict_fromkeys {V} (ks : list K) (v : V) : dict K V :=
  foldl (λ d k, dict_set d k v) [] ks.

(** [succ = {k: set() for k in preds}] and the loop that fills it. *)
Definition build_succ (preds : dict K (gset K)) : result (dict K (gset K)) :=
  fold_result add_edge (dict_fromkeys preds.*1 ∅) (dict_edges preds).

(** [indeg = {k: len(ps) for k, ps in preds.items()}] *)
Definition pred_counts (preds : dict K (gset K)) : dict K Z :=
  (λ kp, (kp.1, Z.of_nat (size kp.2))) <$> preds.

(** [(k for k, d in indeg.items() if d == 0)] *)
Definition roots (indeg : dict K Z) : list K := (filter (λ kd, kd.2 = 0) indeg).*1.

(** [indeg[s] -= 1; if indeg[s] == 0: q.append(s)] *)
Definition notify_step (st : dict K Z * list K) (s : K) : result (dict K Z * list K) :=
  d ← of_option (KeyError "indeg") (dict_get st.1 s);
  Ok (dict_set st.1 s (d - 1), if decide (d - 1 = 0) then st.2 ++ [s] else st.2).

Definition notify (indeg : dict K Z) (q : list K) (ss : list K) : result (dict K Z * list K) :=
  fold_result notify_step (indeg, q) ss.

(** [while q: k = q.popleft(); <visit k>; for s in succ[k]: ...] *)
Fixpoint kahn_loop {A} (visit : A → K → A) (succ : dict K (gset K)) (fuel : nat)
    (indeg : dict K Z) (q : list K) (acc : A) : result A :=
  match q with
  | [] => Ok acc
  | k :: q =>
      match fuel with
      | O => Err OutOfFuel
      | S fuel =>
          ss ← of_option (KeyError "succ") (dict_get succ k);
          st ← notify indeg q (set_iter k ss);
          kahn_loop visit succ fuel st.1 st.2 (visit acc k)
      end
  end.

(** Each node is visited at most once, so one unit of fuel per node is
    enough ([kahn_loop_ok]). *)
Definition loop_fuel {A} (nodes : list A) : nat := S (length nodes).
End loop.

(** ** Filling the edge sets *)
Section edges.
Context {K : Type} `{SetIter K}.

Lemma elem_of_dict_edges (preds : dict K (gset K)) (p k : K) :
  (p, k) ∈ dict_edges preds ↔ ∃ ps, (k, ps) ∈ preds ∧ p ∈ ps.
Proof.
  unfold dict_edges. rewrite list_elem_of_bind. split.
  - intros ([k' ps] & Hp & Hin). simpl in Hp. apply list_elem_of_bind in Hp as (p' & Hp & Hp').
    apply list_elem_of_singleton in Hp. simplify_eq. rewrite elem_of_set_iter in Hp'. eauto.
  - intros (ps & Hin & Hp). exists (k, ps). split; [|done]. simpl. apply list_elem_of_bind.
    exists p. rewrite elem_of_set_iter. by rewrite list_elem_of_singleton.
Qed.

Lemma dict_get_fromkeys {V} (ks : list K) (v : V) (k : K) :
  dict_get (dict_fromkeys ks v) k = if decide (k ∈ ks) then Some v else None.
Proof.
  unfold dict_fromkeys. induction ks as [|k0 ks IH] using rev_ind; [done|].
  rewrite foldl_app. simpl. rewrite dict_get_set, IH.
  destruct (decide (k = k0)) as [->|]; [by rewrite decide_True by set_solver|].
  apply decide_ext. rewrite elem_of_app, list_elem_of_singleton. tauto.
Qed.

Lemma dict_fromkeys_keys {V} (ks : list K) (v : V) :
  NoDup ks → (dict_fromkeys ks v).*1 = ks.
Proof.
  unfold dict_fromkeys. induction ks as [|k ks IH] using rev_ind; [done|].
  intros (Hnd & Hk & _)%NoDup_app. rewrite foldl_app. simpl. rewrite dict_set_keys, IH by done.
  rewrite decide_False; [done|]. intros Hin. apply (Hk k Hin). by left.
Qed.

Lemma add_edge_keys (succ succ' : dict K (gset K)) (e : K * K) :
  add_edge succ e = Ok succ' → succ'.*1 = succ.*1.
Proof.
  unfold add_edge. intros Hs. res_inv. rewrite dict_set_keys, decide_True; [done|].
  apply dict_get_Some_key. eauto.
Qed.

(** Adding edges from known sources never fails; the sets grow by exactly
    those edges. *)
Lemma add_edges_ok (es : list (K * K)) (succ : dict K (gset K)) :
  (∀ e, e ∈ es → e.1 ∈ succ.*1) →
  ∃ succ', fold_result add_edge succ es = Ok succ' ∧ succ'.*1 = succ.*1
    ∧ ∀ p, (λ X : gset K, X ∪ list_to_set (filter (λ e, e.1 = p) es).*2) <$> dict_get succ p
           = dict_get succ' p.
Proof.
  revert succ. induction es as [|[p k] es IH]; intros succ Hk.
  - exists succ. split_and!; [done|done|]. intros p. simpl. destruct (dict_get succ p); simpl; [|done].
    f_equal. set_solver.
  - destruct (proj2 (dict_get_Some_key succ p)) as [X HX]; [apply (Hk (p, k)); left|].
    assert (Ha : add_edge succ (p, k) = Ok (dict_set succ p ({[k]} ∪ X)))
      by (unfold add_edge; simpl; by rewrite HX).
    destruct (IH (dict_set succ p ({[k]} ∪ X))) as (succ' & Hs & Hkeys & Hget).
    { intros e He. rewrite (add_edge_keys _ _ _ Ha). apply Hk. by right. }
    exists succ'. cbn [fold_result]. rewrite Ha. simpl. split_and!; [done| |].
    + by rewrite Hkeys, (add_edge_keys _ _ _ Ha).
    + intros p'. rewrite <- Hget, dict_get_set. destruct (decide (p' = p)) as [->|Hne].
      * rewrite HX, filter_cons_True by done. simpl. f_equal. set_solver.
      * rewrite filter_cons_False by (simpl; congruence). done.
Qed.
End edges.

(** ** One notification round *)
Section notify.
Context {K : Type} `{SetIter K}.

Lemma notify_ok (ss : list K) (indeg : dict K Z) (q : list K) :
  NoDup ss → (∀ s, s ∈ ss → s ∈ indeg.*1) →
  ∃ indeg' q', notify indeg q ss = Ok (indeg', q ++ q')
    ∧ indeg'.*1 = indeg.*1
    ∧ (∀ s, dict_get indeg' s = (λ d, if decide (s ∈ ss) then d - 1 else d) <$> dict_get indeg s)
    ∧ q' = filter (λ s, dict_get indeg s = Some 1) ss.
Proof.
  unfold notify. intros Hnd. revert indeg q. induction Hnd as [|s ss Hs Hnd IH]; intros indeg q Hk.
  - exists indeg, []. split_and!; [by rewrite app_nil_r|done| |done].
    intros s. by destruct (dict_get indeg s).
  - destruct (proj2 (dict_get_Some_key indeg s)) as [d Hd]; [apply Hk; left|].
    set (indeg1 := dict_set indeg s (d - 1)).
    set (q1 := if decide (d - 1 = 0) then q ++ [s] else q).
    assert (Hkeys : indeg1.*1 = indeg.*1)
      by (unfold indeg1; rewrite dict_set_keys, decide_True; [done|apply Hk; left]).
    destruct (IH indeg1 q1) as (indeg' & q' & Hf & Hk' & Hget & Hq).
    { intros s' Hs'. rewrite Hkeys. apply Hk. by right. }
    exists indeg', ((if decide (d - 1 = 0) then [s] else []) ++ q'). cbn [fold_result].
    assert (Hstep : notify_step (indeg, q) s = Ok (indeg1, q1))
      by (unfold notify_step; simpl; by rewrite Hd).
    rewrite Hstep. simpl. rewrite Hf. split_and!.
    + unfold q1. case_decide; rewrite <- ?(assoc_L (++)); done.
    + by rewrite Hk'.
    + intros s'. rewrite Hget. unfold indeg1. rewrite dict_get_set.
      destruct (decide (s' = s)) as [->|Hne].
      * rewrite Hd. simpl. rewrite decide_False, decide_True by (done || left). done.
      * destruct (dict_get indeg s'); simpl; [|done]. f_equal. apply decide_ext.
        rewrite elem_of_cons. tauto.
    + subst q'. rewrite filter_cons. rewrite Hd.
      replace (filter (λ s0, dict_get indeg1 s0 = Some 1) ss)
        with (filter (λ s0, dict_get indeg s0 = Some 1) ss).
      * destruct (decide (d = 1)) as [->|]; [done|].
        rewrite !decide_False by (lia || congruence). done.
      * apply filter_ext_elem. intros s' Hs'. unfold indeg1. rewrite dict_get_set.
        rewrite decide_False; [done|]. by intros ->.
Qed.
End notify.

(** ** The invariant of the ready-task discipline

    [nodes] are the tasks, [preds] their predecessors, [succ] the successor
    sets the program iterates.  A task is completed, in flight, or queued. *)
Section invariant.
Context {K : Type} `{SetIter K}.
Context (nodes : list K) (preds : K → gset K) (succ : dict K (gset K)).

Record graph_ok : Prop := {
  go_nodup : NoDup nodes;
  go_closed : ∀ k p, k ∈ nodes → p ∈ preds k → p ∈ nodes;
  go_succ : ∀ p, p ∈ nodes → ∃ X, dict_get succ p = Some X
              ∧ ∀ k, k ∈ X ↔ k ∈ nodes ∧ p ∈ preds k
}.

(** Every element comes after all its predecessors. *)
Definition topological (order : list K) : Prop :=
  ∀ i k p, order !! i = Some k → p ∈ preds k → ∃ j, (j < i)%nat ∧ order !! j = Some p.

Record kahn_inv (indeg : dict K Z) (queue inflight done : list K) : Prop := {
  ki_nodup : NoDup (done ++ inflight ++ queue);
  ki_nodes : ∀ k, k ∈ done ++ inflight ++ queue → k ∈ nodes;
  ki_keys : ∀ k, k ∈ nodes → dict_get indeg k = Some (Z.of_nat (size (preds k ∖ list_to_set done)));
  ki_ready : ∀ k, k ∈ nodes → k ∈ done ++ inflight ++ queue ↔ preds k ⊆ list_to_set done;
  ki_topo : topological done
}.

Lemma topological_snoc (order : list K) (k : K) :
  topological order → preds k ⊆ list_to_set order → topological (order ++ [k]).
Proof.
  intros Ht Hp i k' p Hi Hin. destruct (decide (i < length order)%nat) as [Hlt|Hge].
  - rewrite lookup_app_l in Hi by done. destruct (Ht i k' p Hi Hin) as (j & Hj & Hjp).
    exists j. split; [done|]. by rewrite lookup_app_l by lia.
  - assert (Hlast : i = length order).
    { apply lookup_lt_Some in Hi as Hi'. rewrite length_app in Hi'. simpl in Hi'. lia. }
    subst i. rewrite list_lookup_middle in Hi by done. simplify_eq.
    specialize (Hp p Hin). rewrite elem_of_list_to_set in Hp.
    apply list_elem_of_lookup in Hp as [j Hj]. exists j.
    pose proof (lookup_lt_Some _ _ _ Hj). split; [done|]. by rewrite lookup_app_l.
Qed.

Lemma kahn_inv_perm (indeg : dict K Z) (q1 q2 i1 i2 done : list K) :
  i1 ++ q1 ≡ₚ i2 ++ q2 → kahn_inv indeg q1 i1 done → kahn_inv indeg q2 i2 done.
Proof.
  intros Hp [Hnd Hno Hk Hr Ht]. assert (E : done ++ i1 ++ q1 ≡ₚ done ++ i2 ++ q2) by (by rewrite Hp).
  split; [by rewrite <- E | intros k; rewrite <- E; auto | done | | done].
  intros k Hk'. rewrite <- E. auto.
Qed.

Lemma kahn_inv_init (indeg : dict K Z) (queue : list K) :
  (∀ k, k ∈ nodes → dict_get indeg k = Some (Z.of_nat (size (preds k)))) →
  NoDup queue → (∀ k, k ∈ queue ↔ k ∈ nodes ∧ preds k = ∅) →
  kahn_inv indeg queue [] [].
Proof.
  intros Hd Hnd Hq. split; simpl.
  - done.
  - intros k Hk. by apply Hq.
  - intros k Hk. rewrite Hd by done. do 3 f_equal. set_solver.
  - intros k Hk. rewrite Hq. set_solver.
  - intros i k p Hi. by rewrite lookup_nil in Hi.
Qed.

Lemma roots_inv (indeg : dict K Z) :
  NoDup nodes → indeg.*1 = nodes →
  (∀ k, k ∈ nodes → dict_get indeg k = Some (Z.of_nat (size (preds k)))) →
  kahn_inv indeg (roots indeg) [] [].
Proof.
  intros Hnd Hk Hdeg. apply kahn_inv_init; [done| |].
  - unfold roots. eapply sublist_NoDup; [|apply fmap_sublist, sublist_filter]. by rewrite Hk.
  - intros k. unfold roots. rewrite list_elem_of_fmap. split.
    + intros ([k' n] & -> & [E Hin]%list_elem_of_filter). simpl in *. subst n.
      pose proof Hin as Hin'. apply (list_elem_of_fmap_2 fst) in Hin'. rewrite Hk in Hin'.
      split; [done|]. apply dict_get_NoDup in Hin; [|by rewrite Hk].
      rewrite Hdeg in Hin by done. simplify_eq/=. apply leibniz_equiv, size_empty_inv. lia.
    + intros [Hin Hz]. exists (k, 0). split; [done|]. apply list_elem_of_filter.
      split; [done|]. apply dict_get_elem. by rewrite Hdeg, Hz, size_empty by done.
Qed.

Lemma remaining_completed (done : list K) (k s : K) :
  k ∉ done →
  Z.of_nat (size (preds s ∖ list_to_set (done ++ [k]))) =
  Z.of_nat (size (preds s ∖ list_to_set done)) - (if decide (k ∈ preds s) then 1 else 0).
Proof.
  intros Hk. case_decide as Hin.
  - replace (preds s ∖ list_to_set done)
      with ({[k]} ∪ preds s ∖ list_to_set (done ++ [k]) : gset K).
    + rewrite (size_union (C := gset K) {[k]}) by set_solver. rewrite (size_singleton (C := gset K)). lia.
    + apply set_eq. intros x. destruct (decide (x = k)) as [->|]; set_solver.
  - replace (preds s ∖ list_to_set (done ++ [k])) with (preds s ∖ list_to_set done : gset K);
      [lia|]. set_solver.
Qed.

Context (Hg : graph_ok).

(** Completing an in-flight task: the notification round cannot fail, and
    it queues exactly the tasks that have just become ready. *)
Lemma kahn_inv_complete (indeg : dict K Z) (queue inflight inflight' done : list K) (k : K)
    (X : gset K) :
  kahn_inv indeg queue inflight done → inflight ≡ₚ k :: inflight' → dict_get succ k = Some X →
  ∃ indeg' q', notify indeg queue (set_iter k X) = Ok (indeg', queue ++ q')
    ∧ q' = filter (λ s, dict_get indeg s = Some 1) (set_iter k X)
    ∧ (∀ s, s ∈ q' → s ∉ done ++ inflight ++ queue)
    ∧ kahn_inv indeg' (queue ++ q') inflight' (done ++ [k]).
Proof using Hg.
  intros [Hnd Hno Hkeys Hr Ht] Hp HX.
  assert (Hk : k ∈ nodes) by (apply Hno; rewrite Hp; set_solver).
  assert (Hkd : k ∉ done) by (intros Hd; apply NoDup_app in Hnd as (_ & Hdis & _);
    apply (Hdis k Hd); rewrite Hp; set_solver).
  assert (Hready : preds k ⊆ list_to_set done) by (apply Hr; [done|]; rewrite Hp; set_solver).
  destruct (go_succ Hg k Hk) as (X' & HX' & Hsucc). rewrite HX in HX'. injection HX' as <-.
  destruct (notify_ok (set_iter k X) indeg queue) as (indeg' & q' & Hn & Hk' & Hget & Hq');
    [apply NoDup_set_iter| |].
  { intros s Hs%elem_of_set_iter. apply Hsucc in Hs as [Hs _]. apply dict_get_Some_key.
    rewrite Hkeys by done. eauto. }
  assert (Hq : ∀ s, s ∈ q' ↔ s ∈ nodes ∧ k ∈ preds s ∧ preds s ⊆ list_to_set (done ++ [k])).
  { intros s. rewrite Hq', list_elem_of_filter, elem_of_set_iter, Hsucc. split.
    - intros (H1 & Hs & Hks). split_and!; [done..|]. rewrite Hkeys in H1 by done.
      injection H1 as H1. pose proof (remaining_completed done k s Hkd) as Hrem.
      rewrite decide_True in Hrem by done.
      assert (size (preds s ∖ list_to_set (done ++ [k])) = 0%nat) as Hz by lia.
      apply size_empty_inv in Hz. intros x Hx. destruct (decide (x ∈ done ++ [k])); set_solver.
    - intros (Hs & Hks & Hsub). split; [|done]. rewrite Hkeys by done. f_equal.
      pose proof (remaining_completed done k s Hkd) as Hrem. rewrite decide_True in Hrem by done.
      assert (preds s ∖ list_to_set (done ++ [k]) = ∅) as Hz by set_solver.
      rewrite Hz, size_empty in Hrem. lia. }
  assert (Hfresh : ∀ s, s ∈ q' → s ∉ done ++ inflight ++ queue).
  { intros s (Hs & Hks & _)%Hq Hin. apply Hr in Hin; [|done]. set_solver. }
  exists indeg', q'. split_and!; [done..|]. split.
  - assert (E : (done ++ [k]) ++ inflight' ++ queue ++ q' ≡ₚ (done ++ inflight ++ queue) ++ q')
      by (rewrite Hp; solve_Permutation).
    rewrite E. apply NoDup_app. split_and!; [done| |rewrite Hq'; apply NoDup_filter, NoDup_set_iter].
    intros s Hs Hs'. by apply (Hfresh s).
  - intros s Hs. destruct (decide (s ∈ q')) as [Hs'|Hs']; [by apply Hq in Hs' as [? _]|].
    apply Hno. rewrite Hp. set_solver.
  - intros s Hs. rewrite Hget, Hkeys by done. simpl. f_equal. rewrite remaining_completed by done.
    rewrite (decide_ext (s ∈ set_iter k X) (k ∈ preds s)); [case_decide; lia|].
    rewrite elem_of_set_iter, Hsucc. tauto.
  - intros s Hs. assert (E : s ∈ (done ++ [k]) ++ inflight' ++ queue ++ q'
                             ↔ s ∈ done ++ inflight ++ queue ∨ s ∈ q') by (rewrite Hp; set_solver).
    rewrite E, Hr, Hq by done. destruct (decide (k ∈ preds s)); set_solver.
  - by apply topological_snoc.
Qed.

(** *** Acyclicity *)
Definition waits (k p : K) : Prop := k ∈ nodes ∧ p ∈ preds k.
Definition acyclic : Prop := ∀ k, ¬ tc waits k k.

Lemma topological_tc (order : list K) (i : nat) (k p : K) :
  topological order → order !! i = Some k → tc waits k p →
  ∃ j, (j < i)%nat ∧ order !! j = Some p.
Proof.
  intros Ht Hi Htc. revert i Hi.
  induction Htc as [k p [_ Hp] | k m p [_ Hm] _ IH]; intros i Hi; [by eapply Ht|].
  destruct (Ht i k m Hi Hm) as (j & Hj & Hjm). destruct (IH j Hjm) as (l & Hl & Hlp).
  exists l. split; [lia|done].
Qed.

Lemma topological_acyclic (order : list K) :
  NoDup order → topological order → (∀ k, k ∈ nodes → k ∈ order) → acyclic.
Proof.
  intros Hnd Ht Hall k Htc.
  assert (Hk : k ∈ nodes) by (by inversion Htc as [? ? [? _]|? ? ? [? _]]).
  apply Hall, list_elem_of_lookup in Hk as [i Hi].
  destruct (topological_tc _ _ _ _ Ht Hi Htc) as (j & Hj & Hjk).
  pose proof (NoDup_lookup _ _ _ _ Hnd Hi Hjk). lia.
Qed.

Lemma acyclic_sn (k : K) : acyclic → sn waits k.
Proof using Hg.
  intros Ha. apply tc_finite_sn; [exact Ha|]. exists nodes. intros p Htc.
  clear Ha. induction Htc as [k p [Hk Hp]|k m p _ _ IH]; [|done]. by apply (go_closed Hg k).
Qed.

(** With nothing queued or in flight, an acyclic graph is exhausted. *)
Lemma kahn_inv_exhausted (indeg : dict K Z) (done : list K) :
  kahn_inv indeg [] [] done → acyclic → done ≡ₚ nodes.
Proof using Hg.
  intros [Hnd Hno _ Hr _] Ha. simpl in *. setoid_rewrite app_nil_r in Hno.
  setoid_rewrite app_nil_r in Hr. rewrite app_nil_r in Hnd.
  apply NoDup_Permutation; [done|apply (go_nodup Hg)|]. intros k. split; [auto|]. intros Hk.
  pose proof (acyclic_sn k Ha) as Hsn. induction Hsn as [k _ IH].
  apply Hr; [done|]. intros p Hp. rewrite elem_of_list_to_set.
  apply IH; [by split|]. by apply (go_closed Hg k).
Qed.

Lemma kahn_inv_acyclic (indeg : dict K Z) (done : list K) :
  kahn_inv indeg [] [] done → length done = length nodes ↔ acyclic.
Proof using Hg.
  intros Hi. split.
  - intros Hl. pose proof Hi as [Hnd Hno _ _ Ht]. simpl in *.
    setoid_rewrite app_nil_r in Hno. rewrite app_nil_r in Hnd.
    apply (topological_acyclic done); [done..|]. intros k Hk.
    assert (Hp : done ≡ₚ nodes); [|by rewrite Hp].
    apply submseteq_length_Permutation; [by apply NoDup_submseteq|lia].
  - intros Ha. by rewrite (kahn_inv_exhausted _ _ Hi Ha).
Qed.

(** *** The loop *)
Lemma kahn_loop_ok (fuel : nat) (indeg : dict K Z) (queue done : list K) :
  kahn_inv indeg queue [] done → (length nodes < fuel + length done)%nat →
  ∃ indeg' rest,
    (∀ A (visit : A → K → A) acc,
       kahn_loop visit succ fuel indeg queue acc = Ok (foldl visit acc rest))
    ∧ kahn_inv indeg' [] [] (done ++ rest).
Proof using Hg.
  revert indeg queue done. induction fuel as [|fuel IH]; intros indeg queue done Hi Hf.
  - pose proof Hi as [Hnd Hno _ _ _]. apply NoDup_app in Hnd as (Hnd & _ & _).
    assert (length done ≤ length nodes)%nat; [|lia].
    apply submseteq_length, NoDup_submseteq; [done|]. intros k Hk. apply Hno. set_solver.
  - destruct queue as [|k queue]; [exists indeg, []; by rewrite app_nil_r|].
    assert (Hk : k ∈ nodes) by (apply (ki_nodes _ _ _ _ Hi); set_solver).
    destruct (go_succ Hg k Hk) as (X & HX & _).
    destruct (kahn_inv_complete indeg queue [k] [] done k X) as (indeg' & q' & Hn & _ & _ & Hi');
      [by eapply kahn_inv_perm; [|exact Hi]|done|done|].
    destruct (IH indeg' (queue ++ q') (done ++ [k])) as (ind & rest & Hl & Hend);
      [done|rewrite length_app; simpl; lia|].
    exists ind, (k :: rest). split; [|by rewrite <- (assoc_L (++)) in Hend].
    intros A visit acc. simpl. rewrite HX. simpl. rewrite Hn. apply Hl.
Qed.
End invariant.

(** ** Graphs given by a dictionary of predecessor sets *)
Section dict_graph.
Context {K : Type} `{SetIter K}.
Implicit Types d : dict K (gset K).

Definition preds_of d (k : K) : gset K := default ∅ (dict_get d k).

(** Every predecessor is itself a key. *)
Definition dict_closed d : Prop := ∀ k p, k ∈ d.*1 → p ∈ preds_of d k → p ∈ d.*1.

Lemma elem_of_preds_of d (p k : K) :
  NoDup d.*1 → (∃ ps, (k, ps) ∈ d ∧ p ∈ ps) ↔ k ∈ d.*1 ∧ p ∈ preds_of d k.
Proof.
  intros Hnd. unfold preds_of. split.
  - intros (ps & Hin & Hp). rewrite (dict_get_NoDup d k ps Hnd Hin). split; [|done].
    by apply (list_elem_of_fmap_2 fst) in Hin.
  - intros [Hk Hp]. apply dict_get_Some_key in Hk as [ps Hps]. rewrite Hps in Hp.
    exists ps. split; [by apply dict_get_elem|done].
Qed.

Lemma elem_of_edges_from (es : list (K * K)) (p k : K) :
  k ∈ (list_to_set (filter (λ e, e.1 = p) es).*2 : gset K) ↔ (p, k) ∈ es.
Proof.
  rewrite elem_of_list_to_set, list_elem_of_fmap. split.
  - intros ([p' k'] & -> & [E Hin]%list_elem_of_filter). simpl in *. by subst.
  - intros Hin. exists (p, k). split; [done|]. by apply list_elem_of_filter.
Qed.

Lemma build_succ_graph d :
  NoDup d.*1 → dict_closed d →
  ∃ succ, build_succ d = Ok succ ∧ graph_ok d.*1 (preds_of d) succ.
Proof.
  intros Hnd Hcl. unfold build_succ.
  pose proof (dict_fromkeys_keys d.*1 (∅ : gset K) Hnd) as Hkeys.
  destruct (add_edges_ok (dict_edges d) (dict_fromkeys d.*1 (∅ : gset K))) as (succ & Hs & Hk & Hget).
  { intros [p k] Hin. rewrite Hkeys. apply elem_of_dict_edges, elem_of_preds_of in Hin; [|done].
    simpl. by apply (Hcl k); apply Hin. }
  exists succ. split; [done|]. split; [done|done|]. intros p Hp.
  rewrite <- Hget, dict_get_fromkeys, decide_True by done. simpl. eexists; split; [done|].
  intros k. rewrite elem_of_union, elem_of_edges_from, elem_of_dict_edges, elem_of_preds_of by done.
  set_solver.
Qed.

(** A predecessor that is not a task makes the construction raise. *)
Lemma build_succ_dangling d :
  NoDup d.*1 → ¬ dict_closed d → build_succ d = Err (KeyError "succ").
Proof.
  intros Hnd Hcl. unfold build_succ.
  pose proof (dict_fromkeys_keys d.*1 (∅ : gset K) Hnd) as Hkeys.
  assert (Hbad : ∃ e, e ∈ dict_edges d ∧ e.1 ∉ (dict_fromkeys d.*1 (∅ : gset K)).*1).
  { destruct (decide (Exists (λ e, e.1 ∉ (dict_fromkeys d.*1 (∅ : gset K)).*1) (dict_edges d))) as [He|Hne];
      [by apply Exists_exists in He|].
    exfalso. apply Hcl. intros k p Hk Hp. destruct (decide (p ∈ d.*1)) as [|Hn]; [done|].
    destruct Hne. apply Exists_exists. exists (p, k). rewrite Hkeys. split; [|done].
    apply elem_of_dict_edges, elem_of_preds_of; [done|]. by split. }
  clear Hkeys. revert Hbad. generalize (dict_edges d) as es, (dict_fromkeys d.*1 (∅ : gset K)) as succ0.
  induction es as [|e es IH]; intros succ0 (e' & He & Hn); [by apply not_elem_of_nil in He|].
  cbn [fold_result]. destruct (add_edge succ0 e) as [succ1|] eqn:Ha.
  - simpl. apply IH. exists e'. rewrite (add_edge_keys _ _ _ Ha). split; [|done].
    apply elem_of_cons in He as [->|]; [|done]. exfalso. unfold add_edge in Ha.
    apply dict_get_None in Hn. by rewrite Hn in Ha.
  - unfold add_edge in Ha. destruct (dict_get succ0 e.1); simpl in *; by simplify_eq.
Qed.

Lemma dict_get_pred_counts d (k : K) :
  dict_get (pred_counts d) k = (λ ps, Z.of_nat (size ps)) <$> dict_get d k.
Proof.
  unfold pred_counts. induction d as [|[k0 ps] d IH]; [done|]. rewrite fmap_cons. simpl.
  by case_decide.
Qed.

Lemma dict_roots_inv d :
  NoDup d.*1 → kahn_inv d.*1 (preds_of d) (pred_counts d) (roots (pred_counts d)) [] [].
Proof.
  intros Hnd. assert (Hk : (pred_counts d).*1 = d.*1).
  { unfold pred_counts. rewrite <- list_fmap_compose. by apply list_fmap_ext. }
  apply roots_inv; [done|done|].
  intros k [ps Hps]%dict_get_Some_key. unfold preds_of. by rewrite dict_get_pred_counts, Hps.
Qed.

(** Traversing a closed dictionary from its roots, in any order: the
    visited nodes are in topological order, and they are all the keys
    exactly on acyclic graphs. *)
Lemma dict_kahn d (succ : dict K (gset K)) (q : list K) (fuel : nat) :
  NoDup d.*1 → build_succ d = Ok succ → graph_ok d.*1 (preds_of d) succ →
  q ≡ₚ roots (pred_counts d) → (length d < fuel)%nat →
  ∃ order,
    (∀ A (visit : A → K → A) acc,
       kahn_loop visit succ fuel (pred_counts d) q acc = Ok (foldl visit acc order))
    ∧ NoDup order ∧ topological (preds_of d) order
    ∧ (length order = length d ↔ acyclic d.*1 (preds_of d))
    ∧ (acyclic d.*1 (preds_of d) → order ≡ₚ d.*1).
Proof.
  intros Hnd Hs Hg Hq Hf.
  assert (Hi : kahn_inv d.*1 (preds_of d) (pred_counts d) q [] []).
  { eapply kahn_inv_perm; [|by apply dict_roots_inv]. by rewrite Hq. }
  assert (Hf' : (length d.*1 < fuel + length (@nil K))%nat) by (rewrite length_fmap; simpl; lia).
  destruct (kahn_loop_ok _ _ _ Hg fuel _ _ [] Hi Hf') as (ind & order & Hl & He).
  exists order. pose proof He as [Hnd' _ _ _ Ht]. rewrite !app_nil_r in Hnd'. simpl in *.
  split_and!; [done|done|done| |].
  - rewrite <- (length_fmap fst d). apply (kahn_inv_acyclic _ _ _ Hg _ _ He).
  - apply (kahn_inv_exhausted _ _ _ Hg _ _ He).
Qed.
End dict_graph.

Lemma foldl_count {A} (l : list A) (n : Z) : foldl (λ n _, n + 1) n l = n + Z.of_nat (length l).
Proof. revert n. induction l as [|x l IH]; intros n; simpl; [lia|]. rewrite IH. lia. Qed.

Lemma foldl_snoc {A} (l acc : list A) : foldl (λ order k, order ++ [k]) acc l = acc ++ l.
Proof.
  revert acc. induction l as [|x l IH]; intros acc; simpl; [by rewrite app_nil_r|].
  by rewrite IH, <- (assoc_L (++)).
Qed.

Arguments kahn_loop : simpl never.
