(* ===== verification/ScheduleStatic.v ===== *)
(** * Static fine-grained scheduling (compiler/schedule_static.py)

    Task-level dependencies derived from tile regions, and fixed per-worker
    task sequences.  The theorems: the cycle check accepts exactly the acyclic
    graphs; the round-robin schedule of an acyclic graph is a topological
    order that covers every task once, so its worker-order check never
    raises; and workers that run their sequences in order, each waiting for
    its producers, can always make progress. *)

From S2P Require Import Prelude Indexing OperatorIR TaskIR SchedulePhase Kahn.
Local Open Scope Z_scope.

(** [(family_id, task_id)] *)
Definition TaskKey : Type := string * Z.
#[export] Instance TaskKey_eq_dec : EqDecision TaskKey := _.
#[export] Instance TaskKey_countable : Countable TaskKey := _.

(** Python's order on the keys: strings first, then ids. *)
Definition taskkey_le (a b : TaskKey) : Prop :=
  String.ltb a.1 b.1 = true ∨ a.1 = b.1 ∧ a.2 ≤ b.2.
#[export] Instance taskkey_le_dec : RelDecision taskkey_le.
Proof. unfold taskkey_le. intros a b. apply _. Defined.

Record TaskDependencyGraph : Type := mk_deps {
  dg_tasks : dict TaskKey Z;
  dg_preds : dict TaskKey (gset TaskKey)
}.

Section static.
Context `{!SetIter TaskKey}.

Definition check_acyclic (g : TaskDependencyGraph) : result unit :=
  let indeg := pred_counts (dg_preds g) in
  succ ← build_succ (dg_preds g);
  seen ← kahn_loop (λ n _, n + 1) succ (loop_fuel (dg_preds g)) indeg (roots indeg) 0;
  require (seen =? Z.of_nat (length (dg_preds g)))
    (CyclicScheduleError "tile dependency graph contains a cycle").

Definition edges (g : TaskDependencyGraph) : Z :=
  zsum ((λ kp, Z.of_nat (size kp.2)) <$> dg_preds g).

(** ** Static worker schedules *)
Record StaticWorkerSchedule : Type := mk_static {
  ss_workers : Z;
  ss_order : list TaskKey;
  ss_assignment : dict TaskKey Z;
  ss_deps : TaskDependencyGraph
}.

Fixpoint sequence_loop (assignment : dict TaskKey Z) (w : Z) (order : list TaskKey)
    : result (list TaskKey) :=
  match order with
  | [] => Ok []
  | k :: order =>
      a ← of_option (KeyError "assignment") (dict_get assignment k);
      rest ← sequence_loop assignment w order;
      Ok (if decide (a = w) then k :: rest else rest)
  end.
Definition worker_sequence (s : StaticWorkerSchedule) (w : Z) : result (list TaskKey) :=
  sequence_loop (ss_assignment s) w (ss_order s).

(** [zip(seq, seq[1:])] *)
Definition consecutive {A} (seq : list A) : list (A * A) := zip seq (tail seq).

Definition add_worker_edges (s : StaticWorkerSchedule) (es : dict TaskKey (gset TaskKey)) (w : Z)
    : result (dict TaskKey (gset TaskKey)) :=
  seq ← worker_sequence s w;
  fold_result add_edge es (consecutive seq).

Definition augmented_edges (s : StaticWorkerSchedule) : result (dict TaskKey (gset TaskKey)) :=
  es ← fold_result add_edge (dict_fromkeys (ss_order s) ∅) (dict_edges (dg_preds (ss_deps s)));
  fold_result (add_worker_edges s) es (zrange (ss_workers s)).

(** [for k, outs in edges.items(): for o in outs: indeg[o] += 1] *)
Definition edge_targets (es : dict TaskKey (gset TaskKey)) : list TaskKey :=
  kp ← es; set_iter kp.1 kp.2.
Definition bump_indeg (indeg : dict TaskKey Z) (o : TaskKey) : result (dict TaskKey Z) :=
  d ← of_option (KeyError "indeg") (dict_get indeg o);
  Ok (dict_set indeg o (d + 1)).
Definition in_degrees (es : dict TaskKey (gset TaskKey)) : result (dict TaskKey Z) :=
  fold_result bump_indeg (dict_fromkeys es.*1 0) (edge_targets es).

Definition check_augmented_acyclic (s : StaticWorkerSchedule) : result unit :=
  es ← augmented_edges s;
  indeg ← in_degrees es;
  seen ← kahn_loop (λ n _, n + 1) es (loop_fuel es) indeg (roots indeg) 0;
  require (seen =? Z.of_nat (length es))
    (CyclicScheduleError "static schedule infeasible").

(** The sort key [(deps.tasks[k], k)], compared as Python tuples. *)
Definition key_le (a b : Z * TaskKey) : Prop :=
  a.1 < b.1 ∨ a.1 = b.1 ∧ taskkey_le a.2 b.2.
#[local] Instance key_le_dec : RelDecision key_le.
Proof. unfold key_le. intros a b. apply _. Defined.

Definition sorted_roots (g : TaskDependencyGraph) (ks : list TaskKey) : result (list TaskKey) :=
  keyed ← map_result (λ k, ph ← of_option (KeyError "tasks") (dict_get (dg_tasks g) k);
                           Ok (ph, k)) ks;
  Ok (merge_sort key_le keyed).*2.

(** [{k: i % workers for i, k in enumerate(order)}] *)
Definition round_robin (order : list TaskKey) (workers : Z) : result (dict TaskKey Z) :=
  pairs ← map_result (λ ik, w ← py_mod ik.1 workers; Ok (ik.2, w))
            (imap (λ i k, (Z.of_nat i, k)) order);
  Ok (foldl (λ d kw, dict_set d kw.1 kw.2) [] pairs).

Definition build_static_worker_schedule (deps : TaskDependencyGraph) (workers : Z)
    : result StaticWorkerSchedule :=
  _ ← check_acyclic deps;
  succ ← build_succ (dg_preds deps);
  let indeg := pred_counts (dg_preds deps) in
  q ← sorted_roots deps (roots indeg);
  order ← kahn_loop (λ order k, order ++ [k]) succ (loop_fuel (dg_preds deps)) indeg q [];
  _ ← require (length order =? length (dg_preds deps))%nat
        (CyclicScheduleError "dependency cycle during topological sort");
  assignment ← round_robin order workers;
  let sched := mk_static workers order assignment deps in
  _ ← check_augmented_acyclic sched;
  Ok sched.
End static.

(** ** The cycle check *)
Section check.
Context `{!SetIter TaskKey}.

(** A dependency graph as the builders make it: the keys are distinct and
    every predecessor is a key. *)
Definition deps_closed (g : TaskDependencyGraph) : Prop :=
  NoDup (dg_preds g).*1 ∧ dict_closed (dg_preds g).

Definition deps_acyclic (g : TaskDependencyGraph) : Prop :=
  acyclic (dg_preds g).*1 (preds_of (dg_preds g)).

Lemma check_acyclic_cases (g : TaskDependencyGraph) :
  deps_closed g →
  ∃ b, (b = true ↔ deps_acyclic g)
    ∧ check_acyclic g = require b (CyclicScheduleError "tile dependency graph contains a cycle").
Proof.
  intros [Hnd Hcl]. unfold check_acyclic.
  destruct (build_succ_graph _ Hnd Hcl) as (succ & Hs & Hg).
  destruct (dict_kahn (dg_preds g) succ _ (loop_fuel (dg_preds g)) Hnd Hs Hg (Permutation_refl _))
    as (order & Hl & _ & _ & Ha & _); [unfold loop_fuel; lia|].
  rewrite Hs. simpl. rewrite Hl. simpl. rewrite foldl_count.
  eexists; split; [|done]. unfold deps_acyclic. rewrite <- Ha, Z.eqb_eq. lia.
Qed.

(** The cycle check of the tile dependency graph: [Ok] exactly on
    acyclic graphs, [CyclicScheduleError] on cyclic ones, and [KeyError]
    when a predecessor is not a task. *)
Theorem check_acyclic_spec (g : TaskDependencyGraph) :
  NoDup (dg_preds g).*1 →
  (dict_closed (dg_preds g) →
     (check_acyclic g = Ok tt ↔ deps_acyclic g)
     ∧ (check_acyclic g = Err (CyclicScheduleError "tile dependency graph contains a cycle")
        ↔ ¬ deps_acyclic g))
  ∧ (¬ dict_closed (dg_preds g) → check_acyclic g = Err (KeyError "succ")).
Proof.
  intros Hnd. split.
  - intros Hcl. destruct (check_acyclic_cases g (conj Hnd Hcl)) as (b & Hb & ->).
    rewrite <- Hb. by destruct b.
  - intros Hcl. unfold check_acyclic. by rewrite (build_succ_dangling _ Hnd Hcl).
Qed.
End check.

(** ** The worker-order-augmented graph *)
Section augmented.
Context `{!SetIter TaskKey}.
Implicit Types es : dict TaskKey (gset TaskKey).

(** The predecessors read off successor sets. *)
Definition rev_preds es (k : TaskKey) : gset TaskKey :=
  list_to_set (filter (λ p, k ∈ preds_of es p) es.*1).

Lemma elem_of_rev_preds es (k p : TaskKey) :
  p ∈ rev_preds es k ↔ p ∈ es.*1 ∧ k ∈ preds_of es p.
Proof. unfold rev_preds. rewrite elem_of_list_to_set, list_elem_of_filter. tauto. Qed.

Lemma rev_preds_graph es : NoDup es.*1 → dict_closed es → graph_ok es.*1 (rev_preds es) es.
Proof.
  intros Hnd Hcl. split; [done| |].
  - intros k p _ [Hp _]%elem_of_rev_preds. done.
  - intros p Hp. pose proof Hp as [X HX]%dict_get_Some_key. exists X. split; [done|].
    intros k. rewrite elem_of_rev_preds.
    assert (HX' : preds_of es p = X) by (unfold preds_of; by rewrite HX). rewrite HX'.
    split; [|tauto]. intros Hk. split; [|done]. apply (Hcl p); [done|]. by rewrite HX'.
Qed.

Lemma bump_indeg_keys (indeg indeg' : dict TaskKey Z) (o : TaskKey) :
  bump_indeg indeg o = Ok indeg' → indeg'.*1 = indeg.*1.
Proof.
  unfold bump_indeg. intros Hb. res_inv. rewrite dict_set_keys, decide_True; [done|].
  apply dict_get_Some_key. eauto.
Qed.

Lemma bump_all (os : list TaskKey) (indeg : dict TaskKey Z) :
  (∀ o, o ∈ os → o ∈ indeg.*1) →
  ∃ indeg', fold_result bump_indeg indeg os = Ok indeg' ∧ indeg'.*1 = indeg.*1
    ∧ ∀ k, dict_get indeg' k =
           (λ d, d + Z.of_nat (length (filter (λ o, o = k) os))) <$> dict_get indeg k.
Proof.
  revert indeg. induction os as [|o os IH]; intros indeg Hos.
  - exists indeg. split_and!; [done|done|]. intros k. destruct (dict_get indeg k); simpl; [|done].
    f_equal. lia.
  - destruct (proj2 (dict_get_Some_key indeg o)) as [d Hd]; [apply Hos; left|].
    assert (Hb : bump_indeg indeg o = Ok (dict_set indeg o (d + 1)))
      by (unfold bump_indeg; by rewrite Hd).
    pose proof (bump_indeg_keys _ _ _ Hb) as Hk.
    destruct (IH (dict_set indeg o (d + 1))) as (indeg' & Hf & Hk' & Hget).
    { intros o' Ho'. rewrite Hk. apply Hos. by right. }
    exists indeg'. cbn [fold_result]. rewrite Hb. simpl. split_and!; [done|by rewrite Hk'|].
    intros k. rewrite Hget, dict_get_set, filter_cons.
    destruct (decide (k = o)) as [->|Hne].
    + rewrite decide_True by done. rewrite Hd. simpl. f_equal. lia.
    + rewrite decide_False by done. done.
Qed.

Lemma count_targets es (k : TaskKey) :
  NoDup es.*1 →
  length (filter (λ o, o = k) (edge_targets es)) = size (rev_preds es k).
Proof.
  intros Hnd. unfold rev_preds. rewrite size_list_to_set by (by apply NoDup_filter).
  assert (Heq : filter (λ p, k ∈ preds_of es p) es.*1 = (filter (λ kp, k ∈ kp.2) es).*1).
  { rewrite filter_fmap. f_equal. apply filter_ext_elem. intros [p X] Hin.
    simpl. unfold preds_of. by rewrite (dict_get_NoDup es p X). }
  rewrite Heq, length_fmap. clear Heq Hnd. unfold edge_targets.
  change (dict TaskKey (gset TaskKey)) with (list (TaskKey * gset TaskKey)) in *.
  induction es as [|[p X] es IH]; [done|]. cbn [mbind list_bind].
  rewrite filter_app, length_app, IH, filter_cons. simpl.
  destruct (decide (k ∈ X)) as [Hin|Hout]; simpl.
  - assert (Hc : filter (λ o, o = k) (set_iter p X) ≡ₚ [k]); [|by rewrite Hc].
    apply NoDup_Permutation; [apply NoDup_filter, NoDup_set_iter|apply NoDup_singleton|].
    intros x. rewrite list_elem_of_filter, elem_of_set_iter, list_elem_of_singleton. set_solver.
  - rewrite filter_none; [done|]. intros x Hx%elem_of_set_iter ->. done.
Qed.

Lemma in_degrees_ok es :
  NoDup es.*1 → dict_closed es →
  ∃ indeg, in_degrees es = Ok indeg
    ∧ kahn_inv es.*1 (rev_preds es) indeg (roots indeg) [] [].
Proof.
  intros Hnd Hcl. pose proof (dict_fromkeys_keys es.*1 0 Hnd) as Hk0. unfold in_degrees.
  destruct (bump_all (edge_targets es) (dict_fromkeys es.*1 0)) as (indeg & Hf & Hk & Hget).
  { intros o Ho. rewrite Hk0. unfold edge_targets in Ho.
    apply list_elem_of_bind in Ho as ([p X] & Ho & Hin). apply elem_of_set_iter in Ho.
    apply (Hcl p); [by apply (list_elem_of_fmap_2 fst) in Hin|].
    unfold preds_of. by rewrite (dict_get_NoDup es p X). }
  rewrite Hk0 in Hk. exists indeg. split; [done|].
  assert (Hdeg : ∀ k, k ∈ es.*1 → dict_get indeg k = Some (Z.of_nat (size (rev_preds es k)))).
  { intros k Hin. rewrite Hget, dict_get_fromkeys, decide_True by done. simpl.
    by rewrite count_targets. }
  by apply roots_inv.
Qed.
End augmented.

(** ** The static schedule *)
Section static_ok.
Context `{!SetIter TaskKey}.

(** A schedule whose tables cover its order. *)
Record static_wf (s : StaticWorkerSchedule) : Prop := {
  sw_order : NoDup (ss_order s);
  sw_assigned : ∀ k, k ∈ ss_order s → k ∈ (ss_assignment s).*1;
  sw_preds : NoDup (dg_preds (ss_deps s)).*1;
  sw_keys : ∀ k, k ∈ (dg_preds (ss_deps s)).*1 → k ∈ ss_order s;
  sw_closed : dict_closed (dg_preds (ss_deps s))
}.

Definition worker_tasks (s : StaticWorkerSchedule) (w : Z) : list TaskKey :=
  filter (λ k, dict_get (ss_assignment s) k = Some w) (ss_order s).

Lemma worker_sequence_filter (s : StaticWorkerSchedule) (w : Z) :
  static_wf s → worker_sequence s w = Ok (worker_tasks s w).
Proof.
  intros [_ Has _ _ _]. unfold worker_sequence, worker_tasks. revert Has.
  induction (ss_order s) as [|k order IH]; intros Has; [done|].
  destruct (proj2 (dict_get_Some_key (ss_assignment s) k)) as [a Ha]; [apply Has; left|].
  simpl. rewrite Ha. simpl. rewrite IH by (intros; apply Has; by right). simpl.
  rewrite filter_cons, Ha. f_equal. apply decide_ext. split; congruence.
Qed.

Lemma elem_of_consecutive {A} (l : list A) (a b : A) :
  (a, b) ∈ consecutive l ↔ ∃ i, l !! i = Some a ∧ l !! S i = Some b.
Proof.
  unfold consecutive. rewrite list_elem_of_lookup. split.
  - intros [i Hi]. apply lookup_zip_with_Some in Hi as (x & y & E & Hx & Hy). simplify_eq.
    exists i. split; [done|]. by destruct l.
  - intros (i & Ha & Hb). exists i. apply lookup_zip_with_Some. exists a, b.
    split_and!; [done..|]. by destruct l.
Qed.

(** [k] waits for [p]: a dependency, or [p] precedes [k] on its worker. *)
Definition aug_waits (s : StaticWorkerSchedule) (k p : TaskKey) : Prop :=
  (k ∈ (dg_preds (ss_deps s)).*1 ∧ p ∈ preds_of (dg_preds (ss_deps s)) k)
  ∨ ∃ w, 0 ≤ w < ss_workers s ∧ (p, k) ∈ consecutive (worker_tasks s w).

Lemma consecutive_in {A} (l : list A) (a b : A) :
  (a, b) ∈ consecutive l → a ∈ l ∧ b ∈ l.
Proof.
  intros (i & Ha & Hb)%elem_of_consecutive. split; by eapply list_elem_of_lookup_2.
Qed.

Lemma worker_edges_fold (s : StaticWorkerSchedule) (ws : list Z)
    (es : dict TaskKey (gset TaskKey)) :
  static_wf s →
  fold_result (add_worker_edges s) es ws
  = fold_result add_edge es (w ← ws; consecutive (worker_tasks s w)).
Proof.
  intros Hs. revert es. induction ws as [|w ws IH]; intros es; [done|].
  cbn [mbind list_bind]. rewrite fold_result_app. cbn [fold_result].
  assert (Hw : add_worker_edges s es w = fold_result add_edge es (consecutive (worker_tasks s w)))
    by (unfold add_worker_edges; by rewrite worker_sequence_filter).
  rewrite Hw. destruct (fold_result _ _ _); simpl; [apply IH|done].
Qed.

Lemma augmented_edges_ok (s : StaticWorkerSchedule) :
  static_wf s →
  ∃ es, augmented_edges s = Ok es ∧ es.*1 = ss_order s
    ∧ (∀ p k, p ∈ ss_order s → k ∈ preds_of es p ↔ aug_waits s k p).
Proof.
  intros Hs. pose proof Hs as [Hnd Has Hndp Hkeys Hcl].
  set (dep_es := dict_edges (dg_preds (ss_deps s))).
  set (work_es := w ← zrange (ss_workers s); consecutive (worker_tasks s w)).
  assert (Hin : ∀ p k, (p, k) ∈ dep_es ++ work_es ↔ aug_waits s k p).
  { intros p k. unfold aug_waits. rewrite elem_of_app. unfold dep_es, work_es.
    rewrite elem_of_dict_edges, elem_of_preds_of by done. rewrite list_elem_of_bind.
    f_equiv. f_equiv. intros w. rewrite elem_of_zrange. tauto. }
  destruct (add_edges_ok (dep_es ++ work_es) (dict_fromkeys (ss_order s) ∅))
    as (es & Hf & Hk & Hget).
  { intros [p k] Hpk. rewrite dict_fromkeys_keys by done. simpl.
    apply Hin in Hpk as [[Hk Hp]|(w & _ & Hc)].
    - apply Hkeys. by apply (Hcl k).
    - apply consecutive_in in Hc as [Hc _]. by apply list_elem_of_filter in Hc as [_ ?]. }
  exists es. rewrite dict_fromkeys_keys in Hk by done. split_and!; [|done|].
  - unfold augmented_edges. fold dep_es. rewrite fold_result_app in Hf.
    destruct (fold_result add_edge _ dep_es) as [es1|] eqn:E; [|done].
    simpl in *. by rewrite worker_edges_fold.
  - intros p k Hp. rewrite <- Hin. unfold preds_of.
    rewrite <- Hget, dict_get_fromkeys, decide_True by done. simpl.
    rewrite elem_of_union, elem_of_edges_from. set_solver.
Qed.

Lemma aug_waits_nodes (s : StaticWorkerSchedule) (k p : TaskKey) :
  static_wf s → aug_waits s k p → k ∈ ss_order s ∧ p ∈ ss_order s.
Proof.
  intros [_ _ _ Hkeys Hcl] [[Hk Hp]|(w & _ & Hc)].
  - split; [auto|]. apply Hkeys. by apply (Hcl k).
  - apply consecutive_in in Hc as [Hp Hk]. unfold worker_tasks in *.
    apply list_elem_of_filter in Hp as [_ ?], Hk as [_ ?]. done.
Qed.

Lemma check_augmented_cases (s : StaticWorkerSchedule) :
  static_wf s →
  ∃ b, (b = true ↔ ∀ k, ¬ tc (aug_waits s) k k)
    ∧ check_augmented_acyclic s = require b (CyclicScheduleError "static schedule infeasible").
Proof.
  intros Hs. destruct (augmented_edges_ok s Hs) as (es & He & Hk & Hin).
  assert (Hnd : NoDup es.*1) by (rewrite Hk; apply (sw_order _ Hs)).
  assert (Hcl : dict_closed es).
  { intros p k. rewrite Hk. intros Hp Hpk%Hin; [|done]. by apply aug_waits_nodes in Hpk as [? _]. }
  assert (Hw : ∀ k p, waits es.*1 (rev_preds es) k p ↔ aug_waits s k p).
  { intros k p. unfold waits. rewrite elem_of_rev_preds, Hk. split.
    - intros (_ & Hp & Hpk). by apply Hin.
    - intros Ha. pose proof (aug_waits_nodes _ _ _ Hs Ha) as [? ?]. rewrite Hin; auto. }
  destruct (in_degrees_ok es Hnd Hcl) as (indeg & Hd & Hi).
  pose proof (rev_preds_graph es Hnd Hcl) as Hg.
  destruct (kahn_loop_ok _ _ _ Hg (loop_fuel es) _ _ [] Hi) as (ind & order & Hl & Hend);
    [unfold loop_fuel; rewrite length_fmap; simpl; lia|].
  pose proof (kahn_inv_acyclic _ _ _ Hg _ _ Hend) as Ha. rewrite length_fmap in Ha.
  unfold check_augmented_acyclic. rewrite He. simpl. rewrite Hd. simpl. rewrite Hl. simpl.
  rewrite foldl_count. eexists; split; [|done]. rewrite Z.eqb_eq.
  transitivity (length ([] ++ order) = length es); [simpl; lia|]. rewrite Ha.
  split; intros Hc k Htc; apply (Hc k); revert Htc; apply (tc_congruence id);
    intros ? ?; apply Hw.
Qed.

(** Whatever runs along a topological order cannot wait in a circle. *)
Lemma topological_augmented (s : StaticWorkerSchedule) :
  static_wf s → topological (preds_of (dg_preds (ss_deps s))) (ss_order s) →
  ∀ k, ¬ tc (aug_waits s) k k.
Proof.
  intros Hs Ht. pose proof (sw_order _ Hs) as Hnd.
  assert (Hstep : ∀ k p i, aug_waits s k p → ss_order s !! i = Some k →
            ∃ j, (j < i)%nat ∧ ss_order s !! j = Some p).
  { intros k p i [[_ Hp]|(w & _ & Hc)] Hi; [by eapply Ht|].
    apply elem_of_consecutive in Hc as (n & Hn & Hn').
    destruct (sublist_lookup_lt (worker_tasks s w) (ss_order s) n (S n) p k)
      as (j & i' & Hlt & Hj & Hi'); [apply sublist_filter|lia|done|done|].
    exists j. rewrite (NoDup_lookup _ _ _ _ Hnd Hi Hi'). done. }
  assert (Htc : ∀ k p, tc (aug_waits s) k p → ∀ i, ss_order s !! i = Some k →
            ∃ j, (j < i)%nat ∧ ss_order s !! j = Some p).
  { induction 1 as [k p Hw|k m p Hw _ IH]; intros i Hi; [by eapply Hstep|].
    destruct (Hstep _ _ _ Hw Hi) as (j & Hj & Hjm). destruct (IH _ Hjm) as (l & ? & ?).
    exists l. split; [lia|done]. }
  assert (Hdom : ∀ k p, tc (aug_waits s) k p → k ∈ ss_order s).
  { intros k p [? ? Hw|? ? ? Hw _]; by apply (aug_waits_nodes s _ _ Hs) in Hw as [? _]. }
  intros k Hk. pose proof (Hdom k k Hk) as Hin.
  apply list_elem_of_lookup in Hin as [i Hi]. destruct (Htc _ _ Hk i Hi) as (j & Hj & Hjk).
  pose proof (NoDup_lookup _ _ _ _ Hnd Hi Hjk). lia.
Qed.

Lemma sorted_roots_perm (g : TaskDependencyGraph) (ks : list TaskKey) :
  (∀ k, k ∈ ks → k ∈ (dg_tasks g).*1) → ∃ q, sorted_roots g ks = Ok q ∧ q ≡ₚ ks.
Proof.
  intros Hk. unfold sorted_roots.
  rewrite (map_result_ok _ (λ k, (default 0 (dict_get (dg_tasks g) k), k))).
  - eexists; split; [done|]. rewrite merge_sort_Permutation, <- list_fmap_compose.
    by rewrite list_fmap_id.
  - intros k [ph Hph]%Hk%dict_get_Some_key. by rewrite Hph.
Qed.

Lemma round_robin_ok (order : list TaskKey) (workers : Z) :
  NoDup order → workers ≠ 0 →
  ∃ a, round_robin order workers = Ok a ∧ a.*1 = order
    ∧ ∀ i k, order !! i = Some k → dict_get a k = Some (Z.of_nat i `mod` workers).
Proof.
  intros Hnd Hw. unfold round_robin.
  rewrite (map_result_ok _ (λ ik, (ik.2, ik.1 `mod` workers))).
  2: { intros [i k] _. by rewrite py_mod_nz. }
  simpl. set (pairs := _ <$> _).
  assert (Hp : pairs = imap (λ i k, (k, Z.of_nat i `mod` workers)) order)
    by (unfold pairs; rewrite fmap_imap; done).
  assert (Hk : pairs.*1 = order).
  { rewrite Hp, fmap_imap. trans (imap (const (λ k : TaskKey, k)) order); [done|].
    by rewrite imap_const, list_fmap_id. }
  exists pairs. rewrite foldl_dict_set by (simpl; by rewrite Hk). split_and!; [done|done|].
  intros i k Hi. apply dict_get_NoDup; [by rewrite Hk|]. rewrite Hp.
  apply (list_elem_of_lookup_2 _ i). rewrite list_lookup_imap, Hi. done.
Qed.

(** The tables a dependency graph comes with. *)
Definition deps_ok (g : TaskDependencyGraph) : Prop :=
  deps_closed g ∧ ∀ k, k ∈ (dg_preds g).*1 → k ∈ (dg_tasks g).*1.

(** What the builder returns for an acyclic graph. *)
Record static_result (g : TaskDependencyGraph) (workers : Z) (s : StaticWorkerSchedule) : Prop := {
  sr_workers : ss_workers s = workers;
  sr_deps : ss_deps s = g;
  sr_perm : ss_order s ≡ₚ (dg_preds g).*1;
  sr_topo : topological (preds_of (dg_preds g)) (ss_order s);
  sr_assign : ∀ i k, ss_order s !! i = Some k →
                dict_get (ss_assignment s) k = Some (Z.of_nat i `mod` workers)
}.

Lemma static_result_wf (g : TaskDependencyGraph) (workers : Z) (s : StaticWorkerSchedule) :
  deps_closed g → static_result g workers s → static_wf s.
Proof.
  intros [Hnd Hcl] [_ <- Hp _ Ha]. split; try done.
  - by rewrite Hp.
  - intros k [i Hi]%list_elem_of_lookup. apply dict_get_Some_key. rewrite (Ha i k Hi). eauto.
  - intros k. by rewrite Hp.
Qed.

Lemma build_static_ok (g : TaskDependencyGraph) (workers : Z) :
  deps_ok g → workers ≠ 0 → deps_acyclic g →
  ∃ s, build_static_worker_schedule g workers = Ok s ∧ static_result g workers s.
Proof.
  intros [Hclosed Htasks] Hw Ha. pose proof Hclosed as [Hnd Hcl].
  unfold build_static_worker_schedule.
  destruct (check_acyclic_cases g Hclosed) as (b & Hb & ->). rewrite (proj2 Hb Ha). simpl.
  destruct (build_succ_graph _ Hnd Hcl) as (succ & Hs & Hg). rewrite Hs. simpl.
  destruct (sorted_roots_perm g (roots (pred_counts (dg_preds g)))) as (q & Hq & Hperm).
  { intros k Hk. apply Htasks. apply (ki_nodes _ _ _ _ _ _ (dict_roots_inv _ Hnd)).
    set_solver. }
  rewrite Hq. simpl.
  destruct (dict_kahn (dg_preds g) succ q (loop_fuel (dg_preds g)) Hnd Hs Hg Hperm)
    as (order & Hl & Hndo & Ht & Hlen & Hp); [unfold loop_fuel; lia|].
  rewrite Hl, foldl_snoc. simpl. rewrite (proj2 Hlen Ha), Nat.eqb_refl. simpl.
  destruct (round_robin_ok order workers Hndo Hw) as (a & Hrr & Hk & Hget). rewrite Hrr. simpl.
  set (s := mk_static workers order a g).
  assert (Hres : static_result g workers s) by (split; auto).
  destruct (check_augmented_cases s (static_result_wf _ _ _ Hclosed Hres)) as (b' & Hb' & ->).
  rewrite (proj2 Hb'); [by exists s|]. apply topological_augmented; [|done].
  by eapply static_result_wf.
Qed.

(** The sequences of the workers. *)
Lemma worker_sequence_spec (g : TaskDependencyGraph) (workers : Z) (s : StaticWorkerSchedule) (w : Z) :
  deps_closed g → static_result g workers s →
  worker_sequence s w = Ok (worker_tasks s w) ∧ sublist (worker_tasks s w) (ss_order s)
  ∧ ∀ i k, ss_order s !! i = Some k → k ∈ worker_tasks s w ↔ Z.of_nat i `mod` workers = w.
Proof.
  intros Hcl Hr. split; [by eapply worker_sequence_filter, static_result_wf|]. split; [apply sublist_filter|].
  intros i k Hi. unfold worker_tasks. rewrite list_elem_of_filter, (sr_assign _ _ _ Hr i k Hi).
  split; [by intros [[= ?] _]|intros <-]. split; [done|by eapply list_elem_of_lookup_2].
Qed.

Lemma worker_sequences_partition (g : TaskDependencyGraph) (workers : Z) (s : StaticWorkerSchedule) :
  deps_closed g → 1 ≤ workers → static_result g workers s →
  ∃ seqs, map_result (worker_sequence s) (zrange workers) = Ok seqs ∧ concat seqs ≡ₚ ss_order s.
Proof.
  intros Hcl Hw Hr. pose proof (static_result_wf _ _ _ Hcl Hr) as Hwf.
  exists (worker_tasks s <$> zrange workers). split.
  { induction (zrange workers) as [|w ws IH]; [done|]. cbn. by rewrite worker_sequence_filter, IH. }
  rewrite <- bind_concat. apply NoDup_Permutation.
  - apply NoDup_bind; [|intros w _; apply NoDup_filter, Hwf|apply NoDup_zrange]. intros w1 w2 k _ _.
    unfold worker_tasks. rewrite !list_elem_of_filter. intros [E1 _] [E2 _]. congruence.
  - apply Hwf.
  - intros k. rewrite list_elem_of_bind. unfold worker_tasks. setoid_rewrite list_elem_of_filter. split.
    + by intros (w & [_ Hk] & _).
    + intros Hk. pose proof Hk as [i Hi]%list_elem_of_lookup. exists (Z.of_nat i `mod` workers).
      rewrite elem_of_zrange, (sr_assign _ _ _ Hr i k Hi). split_and!; try done; apply Z.mod_pos_bound; lia.
Qed.

(** C18. On an acyclic dependency graph the builder always returns: its
    order is a topological permutation of the tasks, task [i] of the order
    goes to worker [i mod P], the sequence of a worker is the part of the
    order that went to it, so that the sequences partition the tasks, and the
    worker-order-augmented graph has no wait cycle (its check never raises);
    on a cyclic graph it raises [CyclicScheduleError]. *)
Theorem build_static_worker_schedule_spec (g : TaskDependencyGraph) (workers : Z) :
  deps_ok g → 1 ≤ workers →
  (deps_acyclic g →
     ∃ s, build_static_worker_schedule g workers = Ok s
       ∧ ss_order s ≡ₚ (dg_preds g).*1
       ∧ topological (preds_of (dg_preds g)) (ss_order s)
       ∧ (∀ i k, ss_order s !! i = Some k →
            dict_get (ss_assignment s) k = Some (Z.of_nat i `mod` workers))
       ∧ (∀ w, ∃ seq, worker_sequence s w = Ok seq ∧ sublist seq (ss_order s)
            ∧ ∀ i k, ss_order s !! i = Some k → k ∈ seq ↔ Z.of_nat i `mod` workers = w)
       ∧ (∃ seqs, map_result (worker_sequence s) (zrange workers) = Ok seqs ∧ concat seqs ≡ₚ ss_order s)
       ∧ check_augmented_acyclic s = Ok tt ∧ ∀ k, ¬ tc (aug_waits s) k k)
  ∧ (¬ deps_acyclic g →
     build_static_worker_schedule g workers
     = Err (CyclicScheduleError "tile dependency graph contains a cycle")).
Proof.
  intros Hok Hw. pose proof Hok as [Hclosed _]. split.
  - intros Ha. destruct (build_static_ok g workers Hok ltac:(lia) Ha) as (s & Hs & Hr).
    exists s. pose proof (static_result_wf _ _ _ Hclosed Hr) as Hwf.
    destruct (check_augmented_cases s Hwf) as (b & Hb & Hc).
    assert (Hac : ∀ k, ¬ tc (aug_waits s) k k).
    { apply topological_augmented; [done|]. rewrite (sr_deps _ _ _ Hr). apply Hr. }
    rewrite Hc, (proj2 Hb Hac). split_and!; [done|apply Hr|apply Hr|apply Hr| |by eapply worker_sequences_partition|done|done].
    intros w. eexists. by apply (worker_sequence_spec g).
  - intros Ha. unfold build_static_worker_schedule.
    destruct (check_acyclic_cases g Hclosed) as ([] & Hb & ->); [by destruct Ha; apply Hb|done].
Qed.

(** ** Running the schedule *)

(** A worker runs the first unfinished task of its sequence once all its
    producers have finished; [done] is the set of finished tasks. *)
Inductive worker_step (s : StaticWorkerSchedule) (done : gset TaskKey) : gset TaskKey → Prop :=
  | step_run (w : Z) (seq : list TaskKey) (i : nat) (k : TaskKey) :
      0 ≤ w < ss_workers s → worker_sequence s w = Ok seq → seq !! i = Some k →
      (∀ k', k' ∈ take i seq → k' ∈ done) → k ∉ done →
      preds_of (dg_preds (ss_deps s)) k ⊆ done →
      worker_step s done ({[k]} ∪ done).

Lemma first_unfinished (order : list TaskKey) (done : gset TaskKey) :
  ¬ (list_to_set order ⊆ done) →
  ∃ i k, order !! i = Some k ∧ (k ∉ done)
    ∧ (∀ j k', (j < i)%nat → order !! j = Some k' → k' ∈ done).
Proof.
  induction order as [|k order IH]; intros Hn; [set_solver|].
  destruct (decide (k ∈ done)) as [Hk|Hk].
  - destruct IH as (i & k' & Hi & Hk' & Hlt); [set_solver|]. exists (S i), k'.
    split_and!; [done..|]. intros [|j] k'' Hj Hj'; simplify_eq/=; [done|]. apply (Hlt j); [lia|done].
  - exists 0%nat, k. split_and!; [done..|]. intros; lia.
Qed.

Lemma steps_invariant (s : StaticWorkerSchedule) (n : nat) (done : gset TaskKey) :
  static_wf s → nsteps (worker_step s) n ∅ done →
  size done = n ∧ (∀ k, k ∈ done → preds_of (dg_preds (ss_deps s)) k ⊆ done)
  ∧ done ⊆ list_to_set (ss_order s).
Proof.
  intros Hwf. revert done. induction n as [|n IH]; intros done Hn.
  - inversion Hn; subst. rewrite size_empty. set_solver.
  - apply nsteps_inv_r in Hn as (d & Hn & Hstep). destruct (IH d Hn) as (Hsz & Hcl & Hsub).
    destruct Hstep as [w seq i k Hw Hseq Hi _ Hk Hp].
    rewrite size_union, size_singleton, Hsz by set_solver. split_and!; [lia|set_solver|].
    rewrite worker_sequence_filter in Hseq by done. injection Hseq as <-.
    apply list_elem_of_lookup_2, list_elem_of_filter in Hi as [_ Hi]. set_solver.
Qed.

(** The earliest unfinished task of the order can run on its worker. *)
Lemma earliest_can_run (g : TaskDependencyGraph) (workers : Z) (s : StaticWorkerSchedule)
    (done : gset TaskKey) (i : nat) (k : TaskKey) :
  deps_closed g → 1 ≤ workers → static_result g workers s →
  ss_order s !! i = Some k → k ∉ done →
  (∀ j k', (j < i)%nat → ss_order s !! j = Some k' → k' ∈ done) →
  worker_step s done ({[k]} ∪ done).
Proof.
  intros Hcl Hw Hr Hi Hk Hlt. pose proof (static_result_wf _ _ _ Hcl Hr) as Hwf.
  destruct Hr as [Hws Hdeps Hp Ht Has]. set (w := Z.of_nat i `mod` workers).
  assert (Hin : k ∈ worker_tasks s w).
  { apply list_elem_of_filter. split; [by apply Has|]. by eapply list_elem_of_lookup_2. }
  apply list_elem_of_lookup in Hin as [m Hm].
  apply (step_run s done w (worker_tasks s w) m k).
  - rewrite Hws. apply Z.mod_pos_bound. lia.
  - by apply worker_sequence_filter.
  - done.
  - intros k' (j & Hj & Hjm)%elem_of_take.
    destruct (sublist_lookup_lt (worker_tasks s w) (ss_order s) j m k' k) as (a & b & Hab & Ha & Hb);
      [apply sublist_filter|lia|done|done|].
    rewrite (NoDup_lookup _ _ _ _ (sw_order _ Hwf) Hb Hi) in Hab. by eapply Hlt.
  - done.
  - rewrite Hdeps. intros p Hp'. destruct (Ht i k p Hi Hp') as (j & Hj & Hjp). by eapply Hlt.
Qed.

(** C15. A built schedule cannot deadlock: in every state the workers can
    reach, some worker can run its next task unless all tasks are finished;
    a run of [n] steps has finished exactly [n] tasks, and a finished task
    has all its producers finished. *)
Theorem static_schedule_progress (g : TaskDependencyGraph) (workers : Z)
    (s : StaticWorkerSchedule) (n : nat) (done : gset TaskKey) :
  deps_ok g → 1 ≤ workers → deps_acyclic g → build_static_worker_schedule g workers = Ok s →
  nsteps (worker_step s) n ∅ done →
  size done = n
  ∧ (∀ k, k ∈ done → preds_of (dg_preds g) k ⊆ done)
  ∧ (done = list_to_set (dg_preds g).*1 ∨ ∃ done', worker_step s done done').
Proof.
  intros Hok Hw Ha Hs Hn. pose proof Hok as [Hclosed _].
  destruct (build_static_ok g workers Hok ltac:(lia) Ha) as (s' & Hs' & Hr).
  rewrite Hs in Hs'. injection Hs' as <-. pose proof (static_result_wf _ _ _ Hclosed Hr) as Hwf.
  destruct (steps_invariant s n done Hwf Hn) as (Hsz & Hcl & Hsub).
  rewrite (sr_deps _ _ _ Hr) in Hcl. split_and!; [done..|].
  destruct (decide (list_to_set (ss_order s) ⊆ done)) as [Hall|Hne].
  - left. rewrite <- (sr_perm _ _ _ Hr). set_solver.
  - right. destruct (first_unfinished _ _ Hne) as (i & k & Hi & Hk & Hlt).
    eexists. by eapply earliest_can_run.
Qed.
End static_ok.

(** ** Witnesses *)
Section witnesses.
#[local] Instance ex_iter : SetIter TaskKey := elements_iter TaskKey.

Definition ex_a0 : TaskKey := ("ph00_linear", 0).
Definition ex_a1 : TaskKey := ("ph00_linear", 1).
Definition ex_b0 : TaskKey := ("ph01_gelu", 0).
Definition ex_deps : TaskDependencyGraph :=
  mk_deps [(ex_a0, 0); (ex_a1, 0); (ex_b0, 1)]
          [(ex_b0, {[ex_a0; ex_a1]}); (ex_a0, ∅); (ex_a1, ∅)].

Lemma ex_deps_ok : deps_ok ex_deps.
Proof.
  split; [split|].
  - apply (bool_decide_unpack _). by vm_compute.
  - intros k p Hk Hp. unfold preds_of, ex_deps in Hp. simpl in *.
    repeat case_decide; set_solver.
  - intros k. unfold ex_deps. simpl. set_solver.
Qed.

Lemma ex_deps_acyclic : deps_acyclic ex_deps.
Proof.
  apply (topological_acyclic _ _ [ex_a0; ex_a1; ex_b0]).
  - apply (bool_decide_unpack _). by vm_compute.
  - intros i k p Hi Hp. unfold preds_of, ex_deps in Hp. simpl in Hp.
    repeat case_decide; subst; simpl in Hp; try set_solver.
    assert (i = 2%nat) as -> by (do 3 (destruct i as [|i]; [simplify_eq/=; try done|]); done).
    apply elem_of_union in Hp as [->%elem_of_singleton| ->%elem_of_singleton];
      [exists 0%nat|exists 1%nat]; split; [lia|done|lia|done].
  - intros k. unfold ex_deps. simpl. set_solver.
Qed.

Lemma check_acyclic_spec_witness :
  check_acyclic ex_deps = Ok tt.
Proof.
  apply (check_acyclic_spec ex_deps (proj1 (proj1 ex_deps_ok)));
    [apply ex_deps_ok | apply ex_deps_acyclic].
Defined.

Lemma build_static_worker_schedule_spec_witness :
  ∃ s seqs, build_static_worker_schedule ex_deps 2 = Ok s ∧ check_augmented_acyclic s = Ok tt
    ∧ map_result (worker_sequence s) (zrange 2) = Ok seqs ∧ concat seqs ≡ₚ ss_order s
    ∧ worker_sequence s 0 = Ok [ex_a0; ex_b0].
Proof.
  destruct (proj1 (build_static_worker_schedule_spec ex_deps 2 ex_deps_ok ltac:(lia)) ex_deps_acyclic)
    as (s & Hs & _ & _ & _ & _ & (seqs & Hseqs & Hperm) & Hc & _).
  exists s, seqs. split; [exact Hs|]. split; [exact Hc|]. split; [exact Hseqs|]. split; [exact Hperm|].
  vm_compute in Hs. injection Hs as <-. reflexivity.
Defined.

Lemma static_schedule_progress_witness :
  ∃ s done', build_static_worker_schedule ex_deps 2 = Ok s ∧ worker_step s ∅ done'.
Proof.
  destruct (build_static_worker_schedule ex_deps 2) as [s|e] eqn:Hs;
    [|exfalso; vm_compute in Hs; discriminate].
  destruct (static_schedule_progress ex_deps 2 s 0 ∅ ex_deps_ok ltac:(lia) ex_deps_acyclic Hs
              (nsteps_O _ _)) as (_ & _ & [H|[d H]]).
  - exfalso. assert (Hin : ex_a0 ∈ (∅ : gset TaskKey)); [|set_solver].
    rewrite H. unfold ex_deps. simpl. set_solver.
  - exists s, d. split; [reflexivity|exact H].
Defined.
End witnesses.
