(* ===== verification/TileDependencies.v ===== *)
(** * Tile dependencies (compiler/schedule_static.py)

    Expansion of whole-operator hazards into task-level edges.  The theorems:
    the expansion returns exactly the pairs of tasks whose declared tile
    regions conflict under a recorded operator hazard, the graph it builds is
    well formed and acyclic, and — when every tile region lies inside a
    region its operator declares — any two tasks of different operators that
    touch a common address, one of them writing, are ordered by an edge. *)

From S2P Require Import Prelude Indexing OperatorIR TaskIR SchedulePhase Kahn ScheduleStatic.
Local Open Scope Z_scope.

(** [any(a.overlaps(b) for a in us for b in vs())]: the inner regions are
    evaluated again for each outer region, and not at all without one. *)
Fixpoint any_overlap (us : list Region) (vs : result (list Region)) : result bool :=
  match us with
  | [] => Ok false
  | ru :: us =>
      rvs ← vs;
      if existsb (overlaps ru) rvs then Ok true else any_overlap us vs
  end.

Definition task_pair_hazard (kind : hazard_kind) (u : TaskFamily) (tu : Z) (v : TaskFamily) (tv : Z)
    : result bool :=
  match kind with
  | HAZARD_RAW => us ← writes u tu; any_overlap us (reads v tv)
  | HAZARD_WAR => us ← reads u tu; any_overlap us (writes v tv)
  | HAZARD_WAW => us ← writes u tu; any_overlap us (writes v tv)
  end.

(** The body of the registration loop for one task of a family. *)
Definition register_task (index : Z) (fid : string) (g : TaskDependencyGraph) (tid : Z)
    : TaskDependencyGraph :=
  mk_deps (dict_set (dg_tasks g) (fid, tid) index)
          (dict_setdefault (dg_preds g) (fid, tid) ∅).

Definition register_family (index : Z) (st : dict Z Z * TaskDependencyGraph) (fam : TaskFamily)
    : result (dict Z Z * TaskDependencyGraph) :=
  let phase_of := dict_set st.1 (op_opid (tf_op fam)) index in
  n ← family_task_count fam;
  Ok (phase_of, foldl (register_task index (tf_family_id fam)) st.2 (zrange n)).

Definition register_phase (st : dict Z Z * TaskDependencyGraph) (p : PhasePlan)
    : result (dict Z Z * TaskDependencyGraph) :=
  fold_result (register_family (pp_index p)) st (pp_families p).

(** [graph_dep.preds[(v.family_id, tv)].add((u.family_id, tu))] *)
Definition add_pred (g : TaskDependencyGraph) (k p : TaskKey) : result TaskDependencyGraph :=
  ps ← of_option (KeyError "preds") (dict_get (dg_preds g) k);
  Ok (mk_deps (dg_tasks g) (dict_set (dg_preds g) k ({[p]} ∪ ps))).

Definition link_tasks (kind : hazard_kind) (u v : TaskFamily) (tu : Z) (g : TaskDependencyGraph)
    (tv : Z) : result TaskDependencyGraph :=
  b ← task_pair_hazard kind u tu v tv;
  if (b : bool) then add_pred g (tf_family_id v, tv) (tf_family_id u, tu) else Ok g.

Definition link_families (kind : hazard_kind) (u v : TaskFamily) (g : TaskDependencyGraph)
    : result TaskDependencyGraph :=
  nu ← family_task_count u;
  fold_result (λ g tu, nv ← family_task_count v;
                       fold_result (link_tasks kind u v tu) g (zrange nv)) g (zrange nu).

Definition too_far (max_span : option Z) (phase_of : dict Z Z) (u v : TaskFamily) : result bool :=
  match max_span with
  | None => Ok false
  | Some m =>
      pv ← of_option (KeyError "phase_of") (dict_get phase_of (op_opid (tf_op v)));
      pu ← of_option (KeyError "phase_of") (dict_get phase_of (op_opid (tf_op u)));
      Ok (m <? pv - pu)
  end.

Definition expand_hazard (max_span : option Z) (phase_of : dict Z Z)
    (fam_by_opid : dict Z TaskFamily) (g : TaskDependencyGraph) (hz : Hazard)
    : result TaskDependencyGraph :=
  u ← of_option (KeyError "fam_by_opid") (dict_get fam_by_opid (hz_producer hz));
  v ← of_option (KeyError "fam_by_opid") (dict_get fam_by_opid (hz_consumer hz));
  far ← too_far max_span phase_of u v;
  if (far : bool) then Ok g else link_families (hz_kind hz) u v g.

Definition schedule_families (s : PhaseSchedule) : list TaskFamily :=
  p ← ps_phases s; pp_families p.

Definition build_tile_dependencies (schedule : PhaseSchedule) (max_span : option Z)
    : result TaskDependencyGraph :=
  let families := schedule_families schedule in
  let fam_by_opid := foldl (λ d f, dict_set d (op_opid (tf_op f)) f) [] families in
  st ← fold_result register_phase ([], mk_deps [] []) (ps_phases schedule);
  let hazards := compute_hazards (tf_op <$> families) in
  fold_result (expand_hazard max_span st.1 fam_by_opid) st.2 hazards.

(** ** Registration *)

(** The tables after registering the tasks [ks]: no edges yet. *)
Record registered (ks : list TaskKey) (g : TaskDependencyGraph) : Prop := {
  rg_nodup : NoDup (dg_preds g).*1;
  rg_keys : ∀ k, k ∈ (dg_preds g).*1 ↔ k ∈ ks;
  rg_none : ∀ k, preds_of (dg_preds g) k = ∅;
  rg_tasks : ∀ k, k ∈ (dg_tasks g).*1 ↔ k ∈ ks
}.

Lemma elem_of_dict_set_keys {V} (d : dict TaskKey V) (k k' : TaskKey) (v : V) :
  k' ∈ (dict_set d k v).*1 ↔ k' ∈ d.*1 ∨ k' = k.
Proof. rewrite dict_set_keys. case_decide; set_solver. Qed.

Lemma register_task_ok (index : Z) (fid : string) (tid : Z) (ks : list TaskKey)
    (g : TaskDependencyGraph) :
  registered ks g → registered (ks ++ [(fid, tid)]) (register_task index fid g tid).
Proof.
  intros [Hnd Hk Hn Ht]. unfold register_task. split; simpl.
  - unfold dict_setdefault. destruct (dict_get _ _) eqn:E; [done|].
    rewrite fmap_app. apply NoDup_app. split_and!; [done| |apply NoDup_singleton].
    intros x Hx Hx'. apply dict_get_None in E. set_solver.
  - intros k. rewrite <- dict_get_Some_key, dict_get_setdefault, elem_of_app, list_elem_of_singleton.
    rewrite <- Hk, <- dict_get_Some_key. destruct (decide (k = (fid, tid))); [|tauto].
    split; [auto|]. eauto.
  - intros k. unfold preds_of. rewrite dict_get_setdefault. specialize (Hn k).
    unfold preds_of in Hn. case_decide; [subst; simpl|done].
    by destruct (dict_get (dg_preds g) (fid, tid)).
  - intros k. rewrite elem_of_dict_set_keys, Ht. set_solver.
Qed.

Definition task_keys (fid : string) (n : Z) : list TaskKey := (λ t, (fid, t)) <$> zrange n.

Lemma register_tasks_ok (index : Z) (fid : string) (tids : list Z) (ks : list TaskKey)
    (g : TaskDependencyGraph) :
  registered ks g →
  registered (ks ++ ((λ t, (fid, t)) <$> tids)) (foldl (register_task index fid) g tids).
Proof.
  revert ks g. induction tids as [|t tids IH]; intros ks g Hr; [by rewrite app_nil_r|].
  simpl foldl. rewrite fmap_cons. change (?x :: ?l) with ([x] ++ l).
  rewrite (assoc_L (++)). by apply IH, register_task_ok.
Qed.

(** ** Adding edges *)

(** [g'] is [g] with exactly the edges [E] (predecessor first) added. *)
Record extends (E : TaskKey → TaskKey → Prop) (g g' : TaskDependencyGraph) : Prop := {
  ex_tasks : dg_tasks g' = dg_tasks g;
  ex_keys : (dg_preds g').*1 = (dg_preds g).*1;
  ex_preds : ∀ k p, p ∈ preds_of (dg_preds g') k ↔ p ∈ preds_of (dg_preds g) k ∨ E p k
}.

Lemma extends_iff (E E' : TaskKey → TaskKey → Prop) (g g' : TaskDependencyGraph) :
  (∀ p k, E p k ↔ E' p k) → extends E g g' → extends E' g g'.
Proof. intros HE [Ht Hk Hp]. split; [done..|]. intros k p. by rewrite Hp, HE. Qed.

Lemma extends_refl (g : TaskDependencyGraph) : extends (λ _ _, False) g g.
Proof. split; [done..|]. tauto. Qed.

Lemma fold_extends {A} (f : TaskDependencyGraph → A → result TaskDependencyGraph)
    (E : A → TaskKey → TaskKey → Prop) (keys : list TaskKey) (l : list A) (g : TaskDependencyGraph) :
  (∀ x g, x ∈ l → (dg_preds g).*1 = keys → ∃ g', f g x = Ok g' ∧ extends (E x) g g') →
  (dg_preds g).*1 = keys →
  ∃ g', fold_result f g l = Ok g' ∧ extends (λ p k, ∃ x, x ∈ l ∧ E x p k) g g'.
Proof.
  revert g. induction l as [|x l IH]; intros g Hf Hk.
  - exists g. split; [done|]. eapply extends_iff; [|apply extends_refl].
    intros p k. split; [done|]. intros (x & Hx & _). by apply not_elem_of_nil in Hx.
  - destruct (Hf x g ltac:(left) Hk) as (g1 & H1 & [Ht1 Hk1 Hp1]).
    destruct (IH g1) as (g2 & H2 & [Ht2 Hk2 Hp2]); [intros; apply Hf; [by right|done]|congruence|].
    exists g2. cbn [fold_result]. rewrite H1. split; [done|]. split; [congruence..|].
    intros k p. rewrite Hp2, Hp1. setoid_rewrite elem_of_cons. split.
    + intros [[H|H]|(y & Hy & H)]; eauto 10.
    + intros [H|(y & [->|Hy] & H)]; eauto 10.
Qed.

Lemma add_pred_ok (g : TaskDependencyGraph) (k p : TaskKey) :
  k ∈ (dg_preds g).*1 →
  ∃ g', add_pred g k p = Ok g' ∧ extends (λ p' k', p' = p ∧ k' = k) g g'.
Proof.
  intros [ps Hps]%dict_get_Some_key. unfold add_pred. rewrite Hps. simpl.
  eexists; split; [done|]. split; simpl; [done| |].
  - rewrite dict_set_keys, decide_True; [done|]. apply dict_get_Some_key. eauto.
  - intros k' p'. unfold preds_of. rewrite dict_get_set. case_decide as E; [subst|set_solver].
    rewrite Hps. simpl. set_solver.
Qed.

(** ** The expansion *)

(** What a compiled schedule provides: distinct family and operator ids, and
    region callbacks that do not raise on the ids of their family. *)
Record tiles_ok (fams : list TaskFamily) (count : TaskFamily → Z) : Prop := {
  to_ids : NoDup (tf_family_id <$> fams);
  to_ops : NoDup (fam_opid <$> fams);
  to_count : ∀ f, f ∈ fams → family_task_count f = Ok (count f);
  to_regions : ∀ f t, f ∈ fams → 0 ≤ t < count f →
                 is_ok (reads f t) = true ∧ is_ok (writes f t) = true
}.

Definition all_keys (fams : list TaskFamily) (count : TaskFamily → Z) : list TaskKey :=
  f ← fams; task_keys (tf_family_id f) (count f).

Lemma elem_of_all_keys (fams : list TaskFamily) (count : TaskFamily → Z) (k : TaskKey) :
  k ∈ all_keys fams count ↔
  ∃ f, f ∈ fams ∧ k.1 = tf_family_id f ∧ 0 ≤ k.2 < count f.
Proof.
  unfold all_keys, task_keys. rewrite list_elem_of_bind. split.
  - intros (f & Hk & Hf). apply list_elem_of_fmap in Hk as (t & -> & Ht%elem_of_zrange). eauto.
  - intros (f & Hf & Hid & Ht). exists f. split; [|done]. apply list_elem_of_fmap.
    exists k.2. rewrite elem_of_zrange. destruct k; simpl in *. by subst.
Qed.

Section expansion.
Context (fams : list TaskFamily) (count : TaskFamily → Z) (Hok : tiles_ok fams count).

Lemma any_overlap_ok (us : list Region) (vs : result (list Region)) :
  is_ok vs = true → is_ok (any_overlap us vs) = true.
Proof using Type.
  destruct vs as [rvs|]; [|done]. intros _. induction us as [|r us IH]; [done|].
  simpl. by destruct (existsb _ _).
Qed.

Lemma task_pair_hazard_ok (kind : hazard_kind) (u v : TaskFamily) (tu tv : Z) :
  u ∈ fams → v ∈ fams → 0 ≤ tu < count u → 0 ≤ tv < count v →
  is_ok (task_pair_hazard kind u tu v tv) = true.
Proof using Hok.
  intros Hu Hv Htu Htv. destruct (to_regions _ _ Hok u tu Hu Htu) as [Hru Hwu].
  destruct (to_regions _ _ Hok v tv Hv Htv) as [Hrv Hwv]. unfold task_pair_hazard.
  destruct kind; [destruct (writes u tu)|destruct (reads u tu)|destruct (writes u tu)];
    simpl; try done; by apply any_overlap_ok.
Qed.

Definition pair_edge (kind : hazard_kind) (u v : TaskFamily) (tu tv : Z) (p k : TaskKey) : Prop :=
  task_pair_hazard kind u tu v tv = Ok true ∧ p = (tf_family_id u, tu) ∧ k = (tf_family_id v, tv).

Lemma link_tasks_ok (kind : hazard_kind) (u v : TaskFamily) (tu tv : Z) (g : TaskDependencyGraph) :
  u ∈ fams → v ∈ fams → 0 ≤ tu < count u → 0 ≤ tv < count v →
  (∀ k, k ∈ (dg_preds g).*1 ↔ k ∈ all_keys fams count) →
  ∃ g', link_tasks kind u v tu g tv = Ok g' ∧ extends (pair_edge kind u v tu tv) g g'.
Proof using Hok.
  intros Hu Hv Htu Htv Hk. pose proof (task_pair_hazard_ok kind u v tu tv Hu Hv Htu Htv) as Hb.
  unfold link_tasks, pair_edge. destruct (task_pair_hazard kind u tu v tv) as [[]|]; simpl; [| |done].
  - destruct (add_pred_ok g (tf_family_id v, tv) (tf_family_id u, tu)) as (g' & Hg & He).
    { apply Hk, elem_of_all_keys. eauto. }
    exists g'. split; [done|]. eapply extends_iff; [|exact He]. intros p k. simpl. tauto.
  - exists g. split; [done|]. eapply extends_iff; [|apply extends_refl].
    intros p k. split; [done|]. by intros [[=] _].
Qed.

Lemma link_families_ok (kind : hazard_kind) (u v : TaskFamily) (g : TaskDependencyGraph) :
  u ∈ fams → v ∈ fams → (∀ k, k ∈ (dg_preds g).*1 ↔ k ∈ all_keys fams count) →
  ∃ g', link_families kind u v g = Ok g'
    ∧ extends (λ p k, ∃ tu, tu ∈ zrange (count u) ∧ ∃ tv, tv ∈ zrange (count v)
                      ∧ pair_edge kind u v tu tv p k) g g'.
Proof using Hok.
  intros Hu Hv Hk. unfold link_families. rewrite (to_count _ _ Hok u Hu). simpl.
  apply (fold_extends _ (λ tu p k, ∃ tv, tv ∈ zrange (count v) ∧ pair_edge kind u v tu tv p k)
           (dg_preds g).*1); [|done].
  intros tu g1 Htu%elem_of_zrange Hk1. rewrite (to_count _ _ Hok v Hv). simpl.
  apply (fold_extends _ (λ tv, pair_edge kind u v tu tv) (dg_preds g).*1); [|done].
  intros tv g2 Htv%elem_of_zrange Hk2. apply link_tasks_ok; [done..|]. by rewrite Hk2.
Qed.

Lemma fam_by_opid_get (f : TaskFamily) :
  f ∈ fams →
  dict_get (foldl (λ d f, dict_set d (op_opid (tf_op f)) f) [] fams) (fam_opid f) = Some f.
Proof using Hok.
  intros Hf. pose proof (to_ops _ _ Hok) as Hnd.
  assert (E : foldl (λ d f, dict_set d (op_opid (tf_op f)) f) [] fams
              = (λ f, (fam_opid f, f)) <$> fams).
  { pose proof (foldl_dict_set ((λ f, (fam_opid f, f)) <$> fams) []) as H.
    rewrite foldl_fmap in H. apply H. simpl. by rewrite <- list_fmap_compose. }
  rewrite E. apply dict_get_NoDup; [by rewrite <- list_fmap_compose|].
  by apply (list_elem_of_fmap_2 (λ f, (fam_opid f, f))).
Qed.

(** The edge from task [p] to task [k]: their operators are ordered and in
    conflict, and so are their tile regions. *)
Definition tile_edge (p k : TaskKey) : Prop :=
  ∃ i j u v kind sid, (i < j)%nat ∧ fams !! i = Some u ∧ fams !! j = Some v
    ∧ p.1 = tf_family_id u ∧ k.1 = tf_family_id v ∧ 0 ≤ p.2 < count u ∧ 0 ≤ k.2 < count v
    ∧ conflict kind (tf_op u) (tf_op v) sid ∧ task_pair_hazard kind u p.2 v k.2 = Ok true.

Definition hazard_edge (hz : Hazard) (p k : TaskKey) : Prop :=
  ∃ u v, u ∈ fams ∧ v ∈ fams ∧ fam_opid u = hz_producer hz ∧ fam_opid v = hz_consumer hz
    ∧ ∃ tu, tu ∈ zrange (count u) ∧ ∃ tv, tv ∈ zrange (count v)
    ∧ pair_edge (hz_kind hz) u v tu tv p k.

Lemma opid_inj (u v : TaskFamily) : u ∈ fams → v ∈ fams → fam_opid u = fam_opid v → u = v.
Proof using Hok.
  intros Hu Hv E. pose proof (fam_by_opid_get u Hu) as Hgu. pose proof (fam_by_opid_get v Hv) as Hgv.
  rewrite E in Hgu. congruence.
Qed.

(** The families behind a recorded hazard. *)
Lemma hazard_families (kind : hazard_kind) (pr co sid : Z) :
  mk_hazard kind pr co sid ∈ compute_hazards (tf_op <$> fams) ↔
  ∃ i j u v, (i < j)%nat ∧ fams !! i = Some u ∧ fams !! j = Some v
    ∧ fam_opid u = pr ∧ fam_opid v = co ∧ conflict kind (tf_op u) (tf_op v) sid.
Proof using Type.
  rewrite elem_of_compute_hazards. split.
  - intros (i & j & ou & ov & Hij & Hi & Hj & Hpr & Hco & Hc).
    rewrite list_lookup_fmap in Hi, Hj. apply fmap_Some in Hi as (u & Hu & ->), Hj as (v & Hv & ->).
    exists i, j, u, v. done.
  - intros (i & j & u & v & Hij & Hi & Hj & Hpr & Hco & Hc).
    exists i, j, (tf_op u), (tf_op v). rewrite !list_lookup_fmap, Hi, Hj. done.
Qed.

Lemma hazard_edges_tile (p k : TaskKey) :
  (∃ hz, hz ∈ compute_hazards (tf_op <$> fams) ∧ hazard_edge hz p k) ↔ tile_edge p k.
Proof using Hok.
  split.
  - intros ([kind pr co sid] & Hhz & u & v & Hu & Hv & Hpu & Hpv & tu & Htu & tv & Htv & Hh & -> & ->).
    apply hazard_families in Hhz as (i & j & u' & v' & Hij & Hi & Hj & <- & <- & Hc). simpl in *.
    apply opid_inj in Hpu; [|done|by eapply list_elem_of_lookup_2].
    apply opid_inj in Hpv; [|done|by eapply list_elem_of_lookup_2]. subst u' v'.
    rewrite elem_of_zrange in Htu, Htv. exists i, j, u, v, kind, sid. done.
  - intros (i & j & u & v & kind & sid & Hij & Hi & Hj & Hp & Hk & Htp & Htk & Hc & Hh).
    exists (mk_hazard kind (fam_opid u) (fam_opid v) sid). split.
    + apply hazard_families. exists i, j, u, v. done.
    + exists u, v. apply list_elem_of_lookup_2 in Hi, Hj. split_and!; [done..|].
      exists p.2. rewrite elem_of_zrange. split; [done|]. exists k.2. rewrite elem_of_zrange.
      split; [done|]. split_and!; [done| |]; [destruct p|destruct k]; simpl in *; by subst.
Qed.

Lemma expand_all_ok (phase_of : dict Z Z) (g : TaskDependencyGraph) :
  (∀ k, k ∈ (dg_preds g).*1 ↔ k ∈ all_keys fams count) →
  ∃ g', fold_result (expand_hazard None phase_of
                       (foldl (λ d f, dict_set d (op_opid (tf_op f)) f) [] fams)) g
          (compute_hazards (tf_op <$> fams)) = Ok g'
    ∧ extends tile_edge g g'.
Proof using Hok.
  intros Hk.
  destruct (fold_extends
    (expand_hazard None phase_of (foldl (λ d f, dict_set d (op_opid (tf_op f)) f) [] fams))
    hazard_edge (dg_preds g).*1 (compute_hazards (tf_op <$> fams)) g) as (g' & Hg' & He); [|done|].
  - intros [kind pr co sid] g1 Hhz Hk1.
    apply hazard_families in Hhz as (i & j & u & v & Hij & Hu & Hv & <- & <- & _).
    apply list_elem_of_lookup_2 in Hu, Hv. unfold expand_hazard. simpl.
    rewrite !fam_by_opid_get by done. simpl.
    destruct (link_families_ok kind u v g1 Hu Hv) as (g2 & Hl & He2); [by rewrite Hk1|].
    exists g2. split; [done|]. eapply extends_iff; [|exact He2]. intros p k. split.
    + intros (tu & Htu & tv & Htv & Hpe). exists u, v. eauto 15.
    + intros (u' & v' & Hu' & Hv' & Hpu & Hpv & Hrest). simpl in *.
      apply opid_inj in Hpu, Hpv; [|done..]. by subst.
  - exists g'. split; [done|]. eapply extends_iff; [|exact He]. apply hazard_edges_tile.
Qed.

(** Edges go from an earlier family to a later one. *)
Lemma tile_edge_forward (p k : TaskKey) :
  tile_edge p k →
  ∃ i j u v, (i < j)%nat ∧ fams !! i = Some u ∧ fams !! j = Some v
    ∧ p.1 = tf_family_id u ∧ k.1 = tf_family_id v.
Proof using Type. intros (i & j & u & v & _ & _ & Hij & Hi & Hj & Hp & Hk & _). eauto 10. Qed.

Lemma tile_edges_acyclic (k p : TaskKey) :
  tc (λ k p, tile_edge p k) k p →
  ∃ i j u v, (i < j)%nat ∧ fams !! i = Some u ∧ fams !! j = Some v
    ∧ p.1 = tf_family_id u ∧ k.1 = tf_family_id v.
Proof using Hok.
  induction 1 as [k p H|k m p H _ (i' & j' & u' & v' & Hij' & Hi' & Hj' & Hp' & Hm')];
    [by apply tile_edge_forward|].
  apply tile_edge_forward in H as (i & j & u & v & Hij & Hi & Hj & Hp & Hk).
  exists i', j, u', v. split_and!; try done.
  assert (j' = i); [|lia]. apply (NoDup_lookup (tf_family_id <$> fams) j' i (tf_family_id u));
    [apply (to_ids _ _ Hok)|..]; rewrite list_lookup_fmap; [rewrite Hj'|rewrite Hi]; simpl; congruence.
Qed.
End expansion.

Lemma register_families_ok (index : Z) (count : TaskFamily → Z) (fams : list TaskFamily)
    (ks : list TaskKey) (st : dict Z Z * TaskDependencyGraph) :
  (∀ f, f ∈ fams → family_task_count f = Ok (count f)) → registered ks st.2 →
  ∃ st', fold_result (register_family index) st fams = Ok st'
    ∧ registered (ks ++ all_keys fams count) st'.2.
Proof.
  revert ks st. induction fams as [|f fams IH]; intros ks st Hc Hr.
  - exists st. split; [done|]. by rewrite app_nil_r.
  - cbn [fold_result]. assert (Hreg : register_family index st f =
      Ok (dict_set st.1 (op_opid (tf_op f)) index,
          foldl (register_task index (tf_family_id f)) st.2 (zrange (count f))))
      by (unfold register_family; rewrite (Hc f) by left; done).
    rewrite Hreg. simpl.
    destruct (IH (ks ++ task_keys (tf_family_id f) (count f)) (dict_set st.1 (op_opid (tf_op f)) index,
          foldl (register_task index (tf_family_id f)) st.2 (zrange (count f)))) as (st' & Hf & Hr').
    + intros f' Hf'. apply Hc. by right.
    + simpl. by apply register_tasks_ok.
    + exists st'. split; [done|]. rewrite <- (assoc_L (++)) in Hr'. exact Hr'.
Qed.

Lemma register_phases_ok (count : TaskFamily → Z) (phases : list PhasePlan)
    (ks : list TaskKey) (st : dict Z Z * TaskDependencyGraph) :
  (∀ f, f ∈ (p ← phases; pp_families p) → family_task_count f = Ok (count f)) → registered ks st.2 →
  ∃ st', fold_result register_phase st phases = Ok st'
    ∧ registered (ks ++ all_keys (p ← phases; pp_families p) count) st'.2.
Proof.
  revert ks st. induction phases as [|p phases IH]; intros ks st Hc Hr.
  - exists st. split; [done|]. by rewrite app_nil_r.
  - cbn [fold_result mbind list_bind] in *.
    destruct (register_families_ok (pp_index p) count (pp_families p) ks st) as (st1 & H1 & Hr1);
      [intros f Hf; apply Hc; set_solver|done|].
    change (register_phase st p = Ok st1) in H1. rewrite H1. simpl.
    destruct (IH _ st1 ltac:(intros f Hf; apply Hc; set_solver) Hr1) as (st' & H2 & Hr2).
    exists st'. split; [done|]. unfold all_keys in *. rewrite bind_app, (assoc_L (++)). exact Hr2.
Qed.

Lemma registered_nil : registered [] (mk_deps [] []).
Proof. split; simpl; [constructor|done..]. Qed.

(** What the expansion returns. *)
Record tile_graph (fams : list TaskFamily) (count : TaskFamily → Z) (g : TaskDependencyGraph) : Prop := {
  tg_nodup : NoDup (dg_preds g).*1;
  tg_keys : ∀ k, k ∈ (dg_preds g).*1 ↔ k ∈ all_keys fams count;
  tg_tasks : ∀ k, k ∈ (dg_tasks g).*1 ↔ k ∈ all_keys fams count;
  tg_preds : ∀ k p, p ∈ preds_of (dg_preds g) k ↔ tile_edge fams count p k
}.

Lemma build_tile_ok (s : PhaseSchedule) (count : TaskFamily → Z) :
  tiles_ok (schedule_families s) count →
  ∃ g, build_tile_dependencies s None = Ok g ∧ tile_graph (schedule_families s) count g.
Proof.
  intros Hok. unfold build_tile_dependencies.
  destruct (register_phases_ok count (ps_phases s) [] ([], mk_deps [] [])) as (st & Hst & Hr);
    [apply (to_count _ _ Hok)|apply registered_nil|].
  rewrite Hst. simpl in *. fold (schedule_families s) in Hr. destruct Hr as [Hnd Hk Hn Ht].
  destruct (expand_all_ok _ _ Hok st.1 st.2 Hk) as (g & Hg & [Et Ek Ep]).
  exists g. split; [done|]. split; [by rewrite Ek|by rewrite Ek|by rewrite Et|].
  intros k p. rewrite Ep, Hn. set_solver.
Qed.

Lemma tile_edge_keys (fams : list TaskFamily) (count : TaskFamily → Z) (p k : TaskKey) :
  tile_edge fams count p k → p ∈ all_keys fams count ∧ k ∈ all_keys fams count.
Proof.
  intros (i & j & u & v & kind & sid & _ & Hi & Hj & Hp & Hk & Htp & Htk & _).
  apply list_elem_of_lookup_2 in Hi, Hj. split; apply elem_of_all_keys; eauto.
Qed.

Lemma tile_graph_ok (fams : list TaskFamily) (count : TaskFamily → Z) (g : TaskDependencyGraph) :
  tiles_ok fams count → tile_graph fams count g → deps_ok g ∧ deps_acyclic g.
Proof.
  intros Hok [Hnd Hk Ht Hp]. split; [split; [split|]|].
  - done.
  - intros k p _ Hpk%Hp. apply Hk. by apply (tile_edge_keys _ _ _ _ Hpk).
  - intros k Hk'%Hk. by apply Ht.
  - intros k Htc. destruct (tile_edges_acyclic fams count Hok k k) as (i & j & u & v & Hij & Hi & Hj & Hu & Hv).
    { revert Htc. apply (tc_congruence id). intros a b [_ Hab]. by apply Hp. }
    assert (i = j); [|lia]. apply (NoDup_lookup (tf_family_id <$> fams) i j (tf_family_id u));
      [apply (to_ids _ _ Hok)|..]; rewrite list_lookup_fmap; [by rewrite Hi|rewrite Hj; simpl; congruence].
Qed.


(** ** Conflicting tasks are ordered *)

(** With distinct operator ids the phases hold one family each. *)
Lemma from_families_distinct (fams : list TaskFamily) (workers : Z) (s : PhaseSchedule) :
  NoDup (fam_opid <$> fams) → from_families fams workers = Ok s →
  schedule_families s = fams ∧ ps_workers s = workers
  ∧ pp_families <$> ps_phases s = (λ f, [f]) <$> fams.
Proof.
  intros Hnd. rewrite from_families_eq. intros H. res_inv.
  pose proof (phases_of_distinct _ Hnd) as Hp. split_and!; [|done|done].
  unfold schedule_families. cbn [ps_phases]. rewrite bind_concat, Hp. clear.
  induction fams as [|f fs IH]; [done|]. rewrite fmap_cons. simpl. by rewrite IH.
Qed.

(** The tile regions of a family stay inside the regions its operator
    declares: the obligation a lowering owes to the scheduler. *)
Definition span_within (r R : Region) : Prop :=
  rg_storage_id r = rg_storage_id R
  ∧ (storage_span R).1 ≤ (storage_span r).1 ∧ (storage_span r).2 ≤ (storage_span R).2.

Class TilesCovered (fams : list TaskFamily) (count : TaskFamily → Z) : Prop := {
  tc_reads : ∀ f t rs r, f ∈ fams → 0 ≤ t < count f → reads f t = Ok rs → r ∈ rs →
               ∃ R, R ∈ op_read_regions (tf_op f) ∧ span_within r R;
  tc_writes : ∀ f t rs r, f ∈ fams → 0 ≤ t < count f → writes f t = Ok rs → r ∈ rs →
               ∃ R, R ∈ op_write_regions (tf_op f) ∧ span_within r R
}.

Lemma overlaps_within (r1 r2 R1 R2 : Region) :
  span_within r1 R1 → span_within r2 R2 → overlaps r1 r2 = true → overlaps R1 R2 = true.
Proof.
  intros (Hs1 & Hl1 & Hh1) (Hs2 & Hl2 & Hh2) (Hs & Ha & Hb)%overlaps_true.
  apply overlaps_true. split; [congruence|]. lia.
Qed.

Lemma any_overlap_true (us vs : list Region) (ru rv : Region) :
  ru ∈ us → rv ∈ vs → overlaps ru rv = true → any_overlap us (Ok vs) = Ok true.
Proof.
  intros Hu Hv Ho. induction us as [|r us IH]; [by apply not_elem_of_nil in Hu|]. simpl.
  destruct (existsb (overlaps r) vs) eqn:E; [done|]. apply elem_of_cons in Hu as [<-|Hu]; [|by apply IH].
  exfalso. assert (existsb (overlaps ru) vs = true); [|congruence].
  apply existsb_exists. exists rv. split; [by apply list_elem_of_In|done].
Qed.

(** The regions a task declares in one role. *)
Definition task_regions (w : bool) (f : TaskFamily) (t : Z) : result (list Region) :=
  if w then writes f t else reads f t.

Lemma conflicting_tiles_edge (fams : list TaskFamily) (count : TaskFamily → Z) `{!TilesCovered fams count}
    (i j : nat) (u v : TaskFamily) (tu tv : Z) (wu wv : bool) (rus rvs : list Region) (ru rv : Region) :
  (i < j)%nat → fams !! i = Some u → fams !! j = Some v → 0 ≤ tu < count u → 0 ≤ tv < count v →
  wu || wv = true → task_regions wu u tu = Ok rus → task_regions wv v tv = Ok rvs →
  ru ∈ rus → rv ∈ rvs → overlaps ru rv = true →
  tile_edge fams count (tf_family_id u, tu) (tf_family_id v, tv).
Proof.
  intros Hij Hi Hj Htu Htv Hw Hrus Hrvs Hru Hrv Ho.
  pose proof Hi as Hu. pose proof Hj as Hv. apply list_elem_of_lookup_2 in Hu, Hv.
  assert (HRu : ∃ R, R ∈ (if wu then op_write_regions else op_read_regions) (tf_op u) ∧ span_within ru R)
    by (destruct wu; [by eapply tc_writes|by eapply tc_reads]).
  assert (HRv : ∃ R, R ∈ (if wv then op_write_regions else op_read_regions) (tf_op v) ∧ span_within rv R)
    by (destruct wv; [by eapply tc_writes|by eapply tc_reads]).
  destruct HRu as (Ru & HRu & Hwu), HRv as (Rv & HRv & Hwv).
  pose proof (overlaps_within _ _ _ _ Hwu Hwv Ho) as HO.
  pose proof (any_overlap_true rus rvs ru rv Hru Hrv Ho) as Hany.
  exists i, j, u, v, (if wu then if wv then HAZARD_WAW else HAZARD_RAW else HAZARD_WAR), (rg_storage_id Ru).
  unfold task_regions in *.
  destruct wu, wv; try discriminate Hw; split_and!; try done; try (by exists Ru, Rv);
    try (cbn [snd]; lia); unfold task_pair_hazard; cbn [snd]; rewrite Hrus; cbn [mbind result_bind]; by rewrite Hrvs.
Qed.

(** No data race: under the lowering obligation, any two tasks of
    different operators that may touch a common address of a storage, one of
    them writing, are ordered by a tile dependency. *)
Theorem tile_dependencies_race_free (s : PhaseSchedule) (count : TaskFamily → Z)
    `{!TilesCovered (schedule_families s) count}
    (i j : nat) (u v : TaskFamily) (tu tv : Z) (wu wv : bool) (rus rvs : list Region)
    (ru rv : Region) (a : Z) :
  tiles_ok (schedule_families s) count →
  (i < j)%nat → schedule_families s !! i = Some u → schedule_families s !! j = Some v →
  0 ≤ tu < count u → 0 ≤ tv < count v → wu || wv = true →
  task_regions wu u tu = Ok rus → task_regions wv v tv = Ok rvs → ru ∈ rus → rv ∈ rvs →
  region_ok ru → region_ok rv → rg_storage_id ru = rg_storage_id rv →
  region_addr ru a → region_addr rv a →
  ∃ g, build_tile_dependencies s None = Ok g
    ∧ (tf_family_id u, tu) ∈ preds_of (dg_preds g) (tf_family_id v, tv).
Proof.
  intros Hok Hij Hi Hj Htu Htv Hw Hrus Hrvs Hru Hrv Ho1 Ho2 Hs H1 H2.
  destruct (build_tile_ok s count Hok) as (g & Hg & Hgraph). exists g. split; [done|].
  apply (tg_preds _ _ _ Hgraph). eapply conflicting_tiles_edge; try done.
  apply overlaps_true. pose proof (storage_span_sound _ _ Ho1 H1).
  pose proof (storage_span_sound _ _ Ho2 H2). split; [done|lia].
Qed.

(** ** Witnesses *)
Section witnesses.
#[local] Instance tile_iter : SetIter TaskKey := elements_iter TaskKey.

(** [y = f(x)] then [z = g(y)], each in tiles of 16 of 32 elements. *)
Definition ex_vec (name : string) (sid : Z) : TensorValue :=
  mk_tensor (Some sid) name [32] F32 [1] sid 0 None.
Definition ex_tiles (tv : TensorValue) : option RegionFn :=
  Some (λ cs, match cs with
              | [c] => r ← region_tile tv [(c * 16, BInt (c * 16 + 16))]; Ok [r]
              | _ => Err (ValueError "unpack")
              end).
Definition ex_map_family (opid : Z) (fid : string) (x y : TensorValue) : TaskFamily :=
  mk_family fid "elementwise"
    (mk_operator opid "gelu" [tv_name x] [tv_name y] ∅ [region_whole x] [region_whole y] "ex")
    (mk_domain [(32, 16)]) [tv_name x] [tv_name y] ∅ 256 0 (ex_tiles x) (ex_tiles y).
Definition ex_schedule : PhaseSchedule :=
  mk_schedule [mk_phase 0 [ex_map_family 0 "ph00_gelu" (ex_vec "x" 0) (ex_vec "y" 1)];
               mk_phase 1 [ex_map_family 1 "ph01_gelu" (ex_vec "y" 1) (ex_vec "z" 2)]] 2.

Lemma ex_tiles_ok : tiles_ok (schedule_families ex_schedule) (λ _, 2).
Proof.
  split.
  - apply (bool_decide_unpack _). by vm_compute.
  - apply (bool_decide_unpack _). by vm_compute.
  - intros f Hf. unfold schedule_families in Hf. simpl in Hf.
    apply elem_of_cons in Hf as [->| ->%list_elem_of_singleton]; reflexivity.
  - intros f t Hf Ht. unfold schedule_families in Hf. simpl in Hf.
    assert (t = 0 ∨ t = 1) as [->| ->] by lia;
      apply elem_of_cons in Hf as [->| ->%list_elem_of_singleton]; by vm_compute.
Qed.


Lemma ex_covered : TilesCovered (schedule_families ex_schedule) (λ _, 2).
Proof.
  split; intros f t rs r Hf Ht Hrs Hr; unfold schedule_families in Hf; simpl in Hf;
    assert (t = 0 ∨ t = 1) as [->| ->] by lia;
    apply elem_of_cons in Hf as [->| ->%list_elem_of_singleton]; vm_compute in Hrs;
    injection Hrs as <-; apply list_elem_of_singleton in Hr as ->; simpl;
    eexists; (split; [by left|]); by vm_compute.
Qed.

Lemma tile_dependencies_race_free_witness :
  ∃ g, build_tile_dependencies ex_schedule None = Ok g
    ∧ ("ph00_gelu", 1) ∈ preds_of (dg_preds g) ("ph01_gelu", 1).
Proof.
  pose proof ex_covered as Hcov.
  eapply (tile_dependencies_race_free ex_schedule (λ _, 2) 0 1
            (ex_map_family 0 "ph00_gelu" (ex_vec "x" 0) (ex_vec "y" 1))
            (ex_map_family 1 "ph01_gelu" (ex_vec "y" 1) (ex_vec "z" 2)) 1 1 true false _ _ _ _ 20 ex_tiles_ok);
    [lia|reflexivity|reflexivity|lia|lia|reflexivity|reflexivity|reflexivity|by left|by left
    |intros [? [=]]|intros [? [=]]|reflexivity| |].
  - exists [20]. split; [by vm_compute|reflexivity].
  - exists [20]. split; [by vm_compute|reflexivity].
Defined.
End witnesses.
