(* ===== verification/TaskQueue.v ===== *)
(** * The ready-task queue (compiler/runtime/task_queue.py)

    Remaining-predecessor counts, a FIFO of ready tasks, and the simulated
    dispatch loop.  The theorems are the finite-DAG progress argument: on an
    acyclic graph the dispatch loop retires every task; and for any
    interleaving of claims and completions by any number of workers, a task
    is claimed at most once, only after its predecessors have completed, and
    an unfinished graph is never stuck. *)

From S2P Require Import Prelude Kahn ScheduleStatic.
Local Open Scope Z_scope.

Section queue.
Context `{!SetIter TaskKey}.

(** [TaskDeps.preds] *)
Definition TaskDeps : Type := dict TaskKey (gset TaskKey).

Definition successors (deps : TaskDeps) : result (dict TaskKey (gset TaskKey)) :=
  build_succ deps.

Definition deps_tasks (deps : TaskDeps) : list TaskKey := deps.*1.

Definition check_deps_acyclic (deps : TaskDeps) : result unit :=
  let indeg := pred_counts deps in
  succ ← successors deps;
  seen ← kahn_loop (λ n _, n + 1) succ (loop_fuel deps) indeg (roots indeg) 0;
  require (seen =? Z.of_nat (length deps)) (ProgressError "dependency graph contains a cycle").

Record ReadyTaskState : Type := mk_ready {
  rt_deps : TaskDeps;
  rt_remaining : dict TaskKey Z;
  rt_ready : list TaskKey;
  rt_retired : Z;
  rt_enqueued : gset TaskKey
}.

Definition enqueue (st : ReadyTaskState) (key : TaskKey) : ReadyTaskState :=
  if decide (key ∈ rt_enqueued st) then st
  else mk_ready (rt_deps st) (rt_remaining st) (rt_ready st ++ [key]) (rt_retired st)
         ({[key]} ∪ rt_enqueued st).

Definition init_step (st : ReadyTaskState) (kp : TaskKey * gset TaskKey) : ReadyTaskState :=
  let st := mk_ready (rt_deps st) (dict_set (rt_remaining st) kp.1 (Z.of_nat (size kp.2)))
              (rt_ready st) (rt_retired st) (rt_enqueued st) in
  if decide (kp.2 = ∅) then enqueue st kp.1 else st.

(** [ReadyTaskState(deps=deps).initialize()] *)
Definition initialize (deps : TaskDeps) : ReadyTaskState :=
  foldl init_step (mk_ready deps [] [] 0 ∅) deps.

Definition claim (st : ReadyTaskState) : option TaskKey * ReadyTaskState :=
  match rt_ready st with
  | [] => (None, st)
  | k :: q => (Some k, mk_ready (rt_deps st) (rt_remaining st) q (rt_retired st) (rt_enqueued st))
  end.

Definition finished (st : ReadyTaskState) : bool :=
  rt_retired st =? Z.of_nat (length (rt_deps st)).

Definition complete_step (st : ReadyTaskState) (s : TaskKey) : result ReadyTaskState :=
  d ← of_option (KeyError "remaining") (dict_get (rt_remaining st) s);
  let st := mk_ready (rt_deps st) (dict_set (rt_remaining st) s (d - 1)) (rt_ready st)
              (rt_retired st) (rt_enqueued st) in
  Ok (if decide (d - 1 = 0) then enqueue st s else st).

(** The sorted successors and the new state. *)
Definition complete (st : ReadyTaskState) (key : TaskKey) : result (list TaskKey * ReadyTaskState) :=
  succs ← successors (rt_deps st);
  succ ← of_option (KeyError "succ") (dict_get succs key);
  st ← fold_result complete_step st (set_iter key succ);
  Ok (merge_sort taskkey_le (elements succ),
      mk_ready (rt_deps st) (rt_remaining st) (rt_ready st) (rt_retired st + 1) (rt_enqueued st)).

(** One pass over the workers: each claims, executes and completes. *)
Definition worker_turn (acc : ReadyTaskState * bool * Z) (_ : Z)
    : result (ReadyTaskState * bool * Z) :=
  let '(st, progressed, spins) := acc in
  match claim st with
  | (None, st) => Ok (st, progressed, spins + 1)
  | (Some key, st) => c ← complete st key; Ok (c.2, true, spins)
  end.

Fixpoint dispatch_loop (fuel : nat) (num_workers max_spins spins : Z) (st : ReadyTaskState)
    : result ReadyTaskState :=
  if finished st then Ok st
  else match fuel with
  | O => Err OutOfFuel
  | S fuel =>
      turn ← fold_result worker_turn (st, false, spins) (zrange num_workers);
      let '(st, progressed, _) := turn in
      if negb progressed then
        if finished st then Ok st
        else Err (ProgressError "ready queue empty with unfinished tasks")
      else if 0 >? max_spins then Err (ProgressError "runaway spin")
      else dispatch_loop fuel num_workers max_spins 0 st
  end.

(** [(retired, total)] *)
Definition simulate_fifo_execution (deps : TaskDeps) (num_workers : Z) : result (Z * Z) :=
  _ ← check_deps_acyclic deps;
  let st := initialize deps in
  let max_spins := Z.of_nat (length deps) * num_workers + 16 in
  st ← dispatch_loop (loop_fuel deps) num_workers max_spins 0 st;
  Ok (rt_retired st, Z.of_nat (length deps)).
End queue.

(** ** The invariant *)
Section progress.
Context `{!SetIter TaskKey}.
Context (deps : TaskDeps).

Definition task_preds : TaskKey → gset TaskKey := preds_of deps.
Definition tasks_closed : Prop := NoDup (deps_tasks deps) ∧ dict_closed deps.
Definition tasks_acyclic : Prop := acyclic (deps_tasks deps) task_preds.

(** The queue state with the tasks claimed but not completed ([inflight])
    and those completed, in completion order. *)
Record queue_inv (st : ReadyTaskState) (inflight completed : list TaskKey) : Prop := {
  qi_deps : rt_deps st = deps;
  qi_kahn : kahn_inv (deps_tasks deps) task_preds (rt_remaining st) (rt_ready st) inflight completed;
  qi_enqueued : rt_enqueued st = list_to_set (completed ++ inflight ++ rt_ready st);
  qi_retired : rt_retired st = Z.of_nat (length completed)
}.

Lemma roots_cons (k : TaskKey) (ps : gset TaskKey) (l : TaskDeps) :
  roots (pred_counts ((k, ps) :: l)) = (if decide (ps = ∅) then [k] else []) ++ roots (pred_counts l).
Proof.
  unfold roots, pred_counts. rewrite fmap_cons, filter_cons. cbn [fst snd].
  destruct (decide (ps = ∅)) as [->|Hne].
  - rewrite size_empty. done.
  - rewrite decide_False; [done|]. intros Hz. apply Hne, leibniz_equiv, size_empty_inv. lia.
Qed.

Lemma init_step_prefix (l : TaskDeps) (st : ReadyTaskState) :
  NoDup ((rt_remaining st).*1 ++ l.*1) → rt_enqueued st = list_to_set (rt_ready st) →
  (∀ k, k ∈ rt_ready st → k ∈ (rt_remaining st).*1) →
  let st' := foldl init_step st l in
  rt_deps st' = rt_deps st ∧ rt_retired st' = rt_retired st
  ∧ rt_remaining st' = rt_remaining st ++ pred_counts l
  ∧ rt_ready st' = rt_ready st ++ roots (pred_counts l)
  ∧ rt_enqueued st' = list_to_set (rt_ready st').
Proof.
  revert st. induction l as [|[k ps] l IH]; intros st Hnd Henq Hr; cbn [foldl].
  - unfold roots. simpl. by rewrite !app_nil_r.
  - assert (Hk : k ∉ (rt_remaining st).*1).
    { apply NoDup_app in Hnd as (_ & Hd & _). intros Hin. apply (Hd k Hin). by left. }
    assert (Hset : dict_set (rt_remaining st) k (Z.of_nat (size ps))
                   = rt_remaining st ++ [(k, Z.of_nat (size ps))]).
    { pose proof (foldl_dict_set [(k, Z.of_nat (size ps))] (rt_remaining st)) as H. simpl in H.
      apply H. rewrite fmap_app. simpl. apply NoDup_app. split_and!.
      - by apply NoDup_app in Hnd as (? & _).
      - set_solver.
      - apply NoDup_singleton. }
    assert (Hstep : init_step st (k, ps) =
      mk_ready (rt_deps st) (rt_remaining st ++ [(k, Z.of_nat (size ps))])
        (rt_ready st ++ (if decide (ps = ∅) then [k] else [])) (rt_retired st)
        (list_to_set (rt_ready st ++ (if decide (ps = ∅) then [k] else [])))).
    { unfold init_step, enqueue. simpl. rewrite Hset. case_decide; simpl.
      - rewrite decide_False by (rewrite Henq, elem_of_list_to_set; intros ?%Hr; done).
        f_equal. rewrite Henq, list_to_set_app_L. set_solver.
      - rewrite app_nil_r. by rewrite Henq. }
    rewrite Hstep. edestruct IH as (H1 & H2 & H3 & H4 & H5); [..|split_and!; [exact H1|exact H2| | |exact H5]].
    + simpl. rewrite fmap_app, <- (assoc_L (++)). done.
    + done.
    + intros x. simpl. rewrite fmap_app, !elem_of_app. intros [Hx|Hx]; [auto|].
      right. case_decide; set_solver.
    + rewrite H3. simpl. by rewrite <- (assoc_L (++)).
    + rewrite H4, roots_cons. simpl. by rewrite <- (assoc_L (++)).
Qed.

Lemma initialize_inv : tasks_closed → queue_inv (initialize deps) [] [].
Proof.
  intros [Hnd Hcl]. unfold initialize.
  destruct (init_step_prefix deps (mk_ready deps [] [] 0 ∅)) as (H1 & H2 & H3 & H4 & H5);
    [done|done|set_solver|]. simpl in *.
  split; [done| |by rewrite H5|done]. rewrite H3, H4. by apply dict_roots_inv.
Qed.

(** The notification loop of [complete] is a Kahn notification: the
    at-most-once guard never fires. *)
Lemma complete_steps (ss : list TaskKey) (indeg' : dict TaskKey Z) (q' : list TaskKey)
    (st : ReadyTaskState) :
  NoDup ss → notify (rt_remaining st) (rt_ready st) ss = Ok (indeg', q') →
  (∀ s, s ∈ ss → dict_get (rt_remaining st) s = Some 1 → s ∉ rt_enqueued st) →
  fold_result complete_step st ss
  = Ok (mk_ready (rt_deps st) indeg' q' (rt_retired st)
          (rt_enqueued st ∪ list_to_set (filter (λ s, dict_get (rt_remaining st) s = Some 1) ss))).
Proof.
  intros Hnd. revert st. induction Hnd as [|s ss Hs Hnd IH]; intros st Hn Hf.
  - unfold notify in Hn. simpl in Hn. simplify_eq. destruct st. simpl. do 2 f_equal. set_solver.
  - unfold notify in Hn. cbn [fold_result] in Hn.
    destruct (notify_step (rt_remaining st, rt_ready st) s) as [[rem1 q1]|] eqn:Hstep; [|done].
    simpl in Hn. unfold notify_step in Hstep. simpl in Hstep.
    destruct (dict_get (rt_remaining st) s) as [d|] eqn:Hd; [|done]. simpl in Hstep.
    injection Hstep as <- <-.
    set (st1 := mk_ready (rt_deps st) (dict_set (rt_remaining st) s (d - 1))
                  (if decide (d - 1 = 0) then rt_ready st ++ [s] else rt_ready st) (rt_retired st)
                  (if decide (d - 1 = 0) then {[s]} ∪ rt_enqueued st else rt_enqueued st)).
    assert (Hc : complete_step st s = Ok st1).
    { unfold complete_step, enqueue, st1. rewrite Hd. simpl. case_decide as Hz; [|done]. simpl.
      rewrite decide_False; [done|]. apply Hf; [by left|]. rewrite Hd. f_equal. lia. }
    assert (Hsame : ∀ s', s' ∈ ss → dict_get (rt_remaining st1) s' = dict_get (rt_remaining st) s').
    { intros s' Hs'. unfold st1. simpl. rewrite dict_get_set, decide_False; [done|]. by intros ->. }
    cbn [fold_result]. rewrite Hc. cbn [mbind result_bind]. rewrite IH; [|done|].
    + do 2 f_equal. rewrite (filter_ext_elem _ (λ s, dict_get (rt_remaining st) s = Some 1));
        [|intros s' Hs'; by rewrite Hsame].
      rewrite filter_cons, Hd. unfold st1. simpl. destruct (decide (d = 1)) as [->|Hne].
      * simpl. set_solver.
      * rewrite !decide_False by (lia || congruence). done.
    + intros s' Hs' H1. rewrite Hsame in H1 by done. pose proof (Hf s' ltac:(by right) H1).
      unfold st1. simpl. case_decide; [|done]. rewrite not_elem_of_union, not_elem_of_singleton.
      split; [|done]. by intros ->.
Qed.

Lemma claim_inv (st : ReadyTaskState) (inflight completed : list TaskKey) (k : TaskKey)
    (st' : ReadyTaskState) :
  queue_inv st inflight completed → claim st = (Some k, st') →
  queue_inv st' (k :: inflight) completed
  ∧ k ∈ deps_tasks deps ∧ (k ∉ completed ++ inflight)
  ∧ task_preds k ⊆ list_to_set completed.
Proof.
  intros [Hd Hk He Hr] Hc. unfold claim in Hc.
  destruct (rt_ready st) as [|k' q] eqn:Eq; [done|]. simplify_eq.
  assert (Hin : k ∈ deps_tasks deps) by (apply (ki_nodes _ _ _ _ _ _ Hk); set_solver).
  split_and!; [|done| |].
  - split; simpl; [done| | |done].
    + eapply kahn_inv_perm; [|exact Hk]. simpl. by rewrite Permutation_middle.
    + rewrite He. apply set_eq. set_solver.
  - pose proof (ki_nodup _ _ _ _ _ _ Hk) as Hnd. rewrite (assoc_L (++)) in Hnd.
    apply NoDup_app in Hnd as (_ & Hdis & _). intros Hx. apply (Hdis k Hx). by left.
  - apply (ki_ready _ _ _ _ _ _ Hk k Hin). set_solver.
Qed.

Lemma complete_inv (st : ReadyTaskState) (inflight inflight' completed : list TaskKey) (k : TaskKey) :
  tasks_closed → queue_inv st inflight completed → inflight ≡ₚ k :: inflight' →
  ∃ succ st', complete st k = Ok (succ, st') ∧ queue_inv st' inflight' (completed ++ [k]).
Proof.
  intros [Hnd Hcl] [Hd Hk He Hr] Hp. destruct (build_succ_graph deps Hnd Hcl) as (succs & Hs & Hg).
  assert (Hin : k ∈ deps_tasks deps) by (apply (ki_nodes _ _ _ _ _ _ Hk); rewrite Hp; set_solver).
  destruct (go_succ _ _ _ Hg k Hin) as (X & HX & _).
  destruct (kahn_inv_complete _ _ _ Hg _ _ _ _ _ _ _ Hk Hp HX) as (indeg' & q' & Hn & Hq & Hfresh & Hi).
  assert (Hc : fold_result complete_step st (set_iter k X) =
    Ok (mk_ready (rt_deps st) indeg' (rt_ready st ++ q') (rt_retired st)
          (rt_enqueued st ∪ list_to_set q'))).
  { rewrite Hq. apply complete_steps; [apply NoDup_set_iter|by rewrite <- Hq|].
    intros s Hs' H1. rewrite He, elem_of_list_to_set. apply Hfresh. rewrite Hq.
    by apply list_elem_of_filter. }
  unfold complete, successors. rewrite Hd, Hs. simpl. rewrite HX. simpl. rewrite Hc. simpl.
  eexists _, _. split; [done|]. split; simpl; [done|done| |].
  - rewrite He. apply set_eq. intros x. rewrite elem_of_union, !elem_of_list_to_set.
    rewrite Hp. set_solver.
  - rewrite Hr, length_app. simpl. lia.
Qed.

(** Nothing queued and nothing in flight: an acyclic graph is finished. *)
Lemma idle_finished (st : ReadyTaskState) (completed : list TaskKey) :
  tasks_closed → tasks_acyclic → queue_inv st [] completed → rt_ready st = [] →
  completed ≡ₚ deps_tasks deps ∧ finished st = true.
Proof using SetIter0.
  intros [Hnd Hcl] Ha [Hd Hk He Hr] Hq. destruct (build_succ_graph deps Hnd Hcl) as (succs & _ & Hg).
  rewrite Hq in Hk. pose proof (kahn_inv_exhausted _ _ _ Hg _ _ Hk Ha) as Hp. split; [done|].
  unfold finished. rewrite Hr, Hd, Hp. unfold deps_tasks. rewrite length_fmap. by apply Z.eqb_eq.
Qed.

Lemma finished_completed (st : ReadyTaskState) (inflight completed : list TaskKey) :
  tasks_closed → queue_inv st inflight completed → finished st = true →
  completed ≡ₚ deps_tasks deps.
Proof.
  intros [Hnd _] [Hd Hk He Hr] Hf. unfold finished in Hf. rewrite Z.eqb_eq, Hr, Hd in Hf.
  pose proof Hk as [Hnd' Hno _ _ _]. apply NoDup_app in Hnd' as (Hnd' & _ & _).
  apply submseteq_length_Permutation.
  - apply NoDup_submseteq; [done|]. intros k Hk'. apply Hno. set_solver.
  - unfold deps_tasks. rewrite length_fmap. lia.
Qed.

(** ** Interleavings of claims and completions *)
Inductive queue_step : ReadyTaskState * list TaskKey → ReadyTaskState * list TaskKey → Prop :=
  | step_claim (st st' : ReadyTaskState) (inflight : list TaskKey) (k : TaskKey) :
      claim st = (Some k, st') → queue_step (st, inflight) (st', k :: inflight)
  | step_complete (st st' : ReadyTaskState) (pre post : list TaskKey) (k : TaskKey)
      (succ : list TaskKey) :
      complete st k = Ok (succ, st') → queue_step (st, pre ++ k :: post) (st', pre ++ post).

Lemma queue_reachable (s : ReadyTaskState * list TaskKey) :
  tasks_closed → rtc queue_step (initialize deps, []) s → ∃ completed, queue_inv s.1 s.2 completed.
Proof.
  intros Hcl Hr. remember (initialize deps, []) as s0 eqn:E0.
  assert (H0 : ∃ completed, queue_inv s0.1 s0.2 completed)
    by (subst; exists []; by apply initialize_inv).
  clear E0. induction Hr as [|s1 s2 s3 Hstep _ IH]; [done|]. apply IH. clear IH.
  destruct H0 as [completed Hi]. destruct Hstep as [st st' infl k Hc|st st' pre post k succ Hc]; simpl in *.
  - exists completed. by apply (claim_inv _ _ _ _ _ Hi Hc).
  - destruct (complete_inv st (pre ++ k :: post) (pre ++ post) completed k Hcl Hi) as (succ' & st'' & Hc' & Hi');
      [by rewrite Permutation_middle|]. rewrite Hc in Hc'. simplify_eq. eauto.
Qed.

(** C23. Under every interleaving of claims and completions, by any number
    of workers: the counters are exact; a claimed task is new and all its
    predecessors have completed; completing an in-flight task never raises;
    and while the graph is unfinished some task is ready or in flight. *)
Theorem queue_progress (st : ReadyTaskState) (inflight : list TaskKey) :
  tasks_closed → tasks_acyclic → rtc queue_step (initialize deps, []) (st, inflight) →
  ∃ completed,
    NoDup (completed ++ inflight) ∧ topological task_preds completed
    ∧ rt_retired st = Z.of_nat (length completed)
    ∧ (∀ k st', claim st = (Some k, st') →
         (k ∉ completed ++ inflight) ∧ task_preds k ⊆ list_to_set completed)
    ∧ (∀ k, k ∈ inflight → is_ok (complete st k) = true)
    ∧ (finished st = true ↔ completed ≡ₚ deps_tasks deps)
    ∧ (finished st = false → inflight = [] → ∃ k st', claim st = (Some k, st')).
Proof.
  intros Hcl Ha Hr. destruct (queue_reachable _ Hcl Hr) as (completed & Hi). simpl in Hi.
  exists completed. pose proof Hi as [Hd Hk He Hret]. split_and!.
  - pose proof (ki_nodup _ _ _ _ _ _ Hk) as Hnd. rewrite (assoc_L (++)) in Hnd.
    by apply NoDup_app in Hnd as (? & _).
  - apply Hk.
  - done.
  - intros k st' Hc. destruct (claim_inv _ _ _ _ _ Hi Hc) as (_ & _ & ? & ?). done.
  - intros k (pre & post & ->)%list_elem_of_split.
    destruct (complete_inv st (pre ++ k :: post) (pre ++ post) completed k Hcl Hi)
      as (succ & st' & -> & _); [by rewrite Permutation_middle|done].
  - split; [by eapply finished_completed|]. intros Hp. unfold finished. rewrite Hret, Hd, Hp.
    unfold deps_tasks. rewrite length_fmap. by apply Z.eqb_eq.
  - intros Hf ->. unfold claim. destruct (rt_ready st) as [|k q] eqn:Eq; [|eauto].
    destruct (idle_finished st completed Hcl Ha Hi Eq). congruence.
Qed.

(** ** The dispatch loop *)

(** One worker turn: idle on an empty queue, one completion otherwise. *)
Lemma worker_turn_inv (st : ReadyTaskState) (completed : list TaskKey) (progressed : bool)
    (spins w : Z) :
  tasks_closed → queue_inv st [] completed →
  (rt_ready st = [] ∧ worker_turn (st, progressed, spins) w = Ok (st, progressed, spins + 1))
  ∨ ∃ st' k, worker_turn (st, progressed, spins) w = Ok (st', true, spins)
             ∧ queue_inv st' [] (completed ++ [k]).
Proof.
  intros Hcl Hi. unfold worker_turn. destruct (claim st) as [[k|] st'] eqn:Hc.
  - right. destruct (claim_inv _ _ _ _ _ Hi Hc) as (Hi' & _).
    destruct (complete_inv st' [k] [] completed k Hcl Hi') as (succ & st'' & Hcomp & Hi''); [done|].
    exists st'', k. by rewrite Hcomp.
  - left. unfold claim in Hc. destruct (rt_ready st) eqn:Eq; simplify_eq. done.
Qed.

Lemma worker_turns_inv (ws : list Z) (st : ReadyTaskState) (completed : list TaskKey)
    (progressed : bool) (spins : Z) :
  tasks_closed → queue_inv st [] completed →
  ∃ st' more progressed' spins',
    fold_result worker_turn (st, progressed, spins) ws = Ok (st', progressed', spins')
    ∧ queue_inv st' [] (completed ++ more)
    ∧ (progressed' = true ↔ progressed = true ∨ more ≠ [])
    ∧ (ws ≠ [] → rt_ready st ≠ [] → more ≠ []).
Proof.
  intros Hcl. revert st completed progressed spins.
  induction ws as [|w ws IH]; intros st completed progressed spins Hi.
  - exists st, [], progressed, spins. rewrite app_nil_r. split_and!; [done|done|tauto|done].
  - cbn [fold_result].
    destruct (worker_turn_inv st completed progressed spins w Hcl Hi) as [[Hq ->]|(st1 & k & -> & Hi1)].
    + destruct (IH st completed progressed (spins + 1) Hi) as (st' & more & pr & sp & Hf & Hi' & Hpr & _).
      exists st', more, pr, sp. split_and!; [done..|]. intros _ Hne. done.
    + destruct (IH st1 _ true spins Hi1) as (st' & more & pr & sp & Hf & Hi' & Hpr & _).
      exists st', (k :: more), pr, sp. split_and!; [done| | |done].
      * by rewrite <- (assoc_L (++)) in Hi'.
      * rewrite Hpr. split; [intros _; by right|by left].
Qed.

Lemma dispatch_loop_ok (fuel : nat) (num_workers max_spins spins : Z) (st : ReadyTaskState)
    (completed : list TaskKey) :
  tasks_closed → tasks_acyclic → 1 ≤ num_workers → 0 ≤ max_spins →
  queue_inv st [] completed → (length deps < fuel + length completed)%nat →
  ∃ st' completed', dispatch_loop fuel num_workers max_spins spins st = Ok st'
    ∧ queue_inv st' [] completed' ∧ finished st' = true.
Proof.
  intros Hcl Ha Hw Hm. revert spins st completed.
  induction fuel as [|fuel IH]; intros spins st completed Hi Hf; cbn [dispatch_loop];
    destruct (finished st) eqn:Hfin; [by eauto| |by eauto|].
  - pose proof Hi as [_ Hk _ _]. pose proof (ki_nodup _ _ _ _ _ _ Hk) as Hnd.
    apply NoDup_app in Hnd as (Hnd & _ & _). exfalso.
    assert (length completed ≤ length (deps_tasks deps))%nat as Hle.
    { apply submseteq_length, NoDup_submseteq; [done|]. intros k Hk'.
      apply (ki_nodes _ _ _ _ _ _ Hk). set_solver. }
    unfold deps_tasks in Hle. rewrite length_fmap in Hle. lia.
  - destruct (worker_turns_inv (zrange num_workers) st completed false spins Hcl Hi)
      as (st' & more & pr & sp & -> & Hi' & Hpr & Hmore). cbn [mbind result_bind].
    assert (Hne : more ≠ []).
    { apply Hmore.
      - intros E. apply (f_equal length) in E. rewrite length_zrange in E. simpl in E. lia.
      - intros Hq. destruct (idle_finished st completed Hcl Ha Hi Hq). congruence. }
    rewrite (proj2 Hpr) by auto. simpl.
    assert (Hms : (0 >? max_spins) = false) by (rewrite Z.gtb_ltb, Z.ltb_ge; lia).
    rewrite Hms. apply (IH 0 st' (completed ++ more)); [done|].
    destruct more; [done|]. rewrite length_app. simpl. lia.
Qed.

Lemma check_deps_cases :
  tasks_closed →
  ∃ b, (b = true ↔ tasks_acyclic)
    ∧ check_deps_acyclic deps = require b (ProgressError "dependency graph contains a cycle").
Proof.
  intros [Hnd Hcl]. unfold check_deps_acyclic, successors.
  destruct (build_succ_graph _ Hnd Hcl) as (succ & Hs & Hg).
  destruct (dict_kahn deps succ _ (loop_fuel deps) Hnd Hs Hg (Permutation_refl _))
    as (order & Hl & _ & _ & Ha & _); [unfold loop_fuel; lia|].
  rewrite Hs. simpl. rewrite Hl. simpl. rewrite foldl_count.
  eexists; split; [|done]. unfold tasks_acyclic, task_preds, deps_tasks. rewrite <- Ha, Z.eqb_eq. lia.
Qed.

(** C24. The simulated dispatch loop: on an acyclic graph with at least one
    worker it returns with every task retired; a cyclic graph is refused;
    and without workers a non-empty graph raises instead of spinning. *)
Theorem simulate_fifo_execution_spec (num_workers : Z) :
  tasks_closed →
  (tasks_acyclic → 1 ≤ num_workers →
     simulate_fifo_execution deps num_workers
     = Ok (Z.of_nat (length deps), Z.of_nat (length deps)))
  ∧ (tasks_acyclic → num_workers < 1 → deps ≠ [] →
     simulate_fifo_execution deps num_workers
     = Err (ProgressError "ready queue empty with unfinished tasks"))
  ∧ (¬ tasks_acyclic → simulate_fifo_execution deps num_workers
                       = Err (ProgressError "dependency graph contains a cycle")).
Proof.
  intros Hcl. pose proof (initialize_inv Hcl) as Hi. unfold simulate_fifo_execution.
  destruct (check_deps_cases Hcl) as (b & Hb & ->). split_and!.
  - intros Ha Hw. rewrite (proj2 Hb Ha). cbn [require mbind result_bind].
    destruct (dispatch_loop_ok (loop_fuel deps) num_workers
      (Z.of_nat (length deps) * num_workers + 16) 0 _ [] Hcl Ha Hw ltac:(lia) Hi)
      as (st' & completed & -> & [Hd _ _ Hr] & Hfin); [unfold loop_fuel; simpl; lia|]. simpl.
    unfold finished in Hfin. rewrite Hd, Z.eqb_eq in Hfin. by rewrite Hfin.
  - intros Ha Hw Hne. rewrite (proj2 Hb Ha). simpl.
    assert (Hfin : finished (initialize deps) = false).
    { unfold finished. rewrite (qi_deps _ _ _ Hi), (qi_retired _ _ _ Hi). simpl.
      by destruct deps. }
    rewrite Hfin, zrange_nonpos by lia. simpl. by rewrite Hfin.
  - intros Ha. destruct b; [by destruct Ha; apply Hb|done].
Qed.
End progress.

(** ** Witnesses *)
Section witnesses.
#[local] Instance queue_iter : SetIter TaskKey := elements_iter TaskKey.

Lemma ex_tasks_closed : tasks_closed (dg_preds ex_deps).
Proof. apply ex_deps_ok. Qed.

Lemma simulate_fifo_execution_spec_witness :
  simulate_fifo_execution (dg_preds ex_deps) 4 = Ok (3, 3).
Proof.
  apply (simulate_fifo_execution_spec (dg_preds ex_deps) 4 ex_tasks_closed);
    [apply ex_deps_acyclic|lia].
Defined.

Lemma queue_progress_witness :
  ∃ k st', claim (initialize (dg_preds ex_deps)) = (Some k, st').
Proof.
  destruct (queue_progress (dg_preds ex_deps) (initialize (dg_preds ex_deps)) [] ex_tasks_closed
              ex_deps_acyclic (rtc_refl _ _)) as (completed & _ & _ & _ & _ & _ & _ & H).
  apply H; [vm_compute|]; reflexivity.
Defined.
End witnesses.
