(* ===== verification/Runtime.v ===== *)
(** * Launch and grid synchronization (compiler/runtime)

    The simulated grid barrier (runtime/synchronization.py), the choice of the
    worker count and the launch manifest (runtime/launch.py), and the
    residency bound (runtime/residency.py).  The device queries (SM count,
    occupancy of the compiled kernel) belong to torch and the vendor drivers:
    they are arguments. *)

From S2P Require Import Prelude.
Local Open Scope Z_scope.

(** ** Grid synchronization *)

(** [GRID_SYNC_BACKEND_VERIFIED] is a module global. *)
Definition mark_grid_sync_verified : M bool unit := λ _, (Ok tt, true).
Definition require_grid_sync_backend : M bool unit := λ verified,
  (require verified (CapabilityError "grid synchronization backend not verified"), verified).

Record SimulatedGridBarrier : Type := mk_barrier {
  gb_workers : Z;
  gb_generation : Z;
  gb_arrivals : gset Z
}.

Definition new_barrier (workers : Z) : SimulatedGridBarrier := mk_barrier workers 0 ∅.

Definition arrive (worker : Z) : M SimulatedGridBarrier unit := λ b,
  if decide (worker ∈ gb_arrivals b) then (Err (BarrierError "worker arrived twice"), b)
  else if negb ((0 <=? worker) && (worker <? gb_workers b))
  then (Err (BarrierError "unknown worker"), b)
  else (Ok tt, mk_barrier (gb_workers b) (gb_generation b) ({[worker]} ∪ gb_arrivals b)).

Definition missing_workers (b : SimulatedGridBarrier) : gset Z :=
  list_to_set (zrange (gb_workers b)) ∖ gb_arrivals b.

Definition release : M SimulatedGridBarrier Z := λ b,
  if decide (missing_workers b = ∅)
  then (Ok (gb_generation b), mk_barrier (gb_workers b) (gb_generation b + 1) ∅)
  else (Err (BarrierError "released with missing workers"), b).

Definition sync : M SimulatedGridBarrier Z := release.

(** *** The participation contract *)

(** Calls on one barrier, an exception leaving it as it was; the trace keeps
    the worker of each successful arrival. *)
Inductive barrier_step (b : SimulatedGridBarrier) : option Z → SimulatedGridBarrier → Prop :=
  | step_arrive w b' : arrive w b = (Ok tt, b') → barrier_step b (Some w) b'
  | step_release gen b' : release b = (Ok gen, b') → barrier_step b None b'
  | step_arrive_error w e b' : arrive w b = (Err e, b') → barrier_step b None b'
  | step_release_error e b' : release b = (Err e, b') → barrier_step b None b'.

Inductive barrier_history (workers : Z) : list Z → SimulatedGridBarrier → Prop :=
  | history_new : barrier_history workers [] (new_barrier workers)
  | history_step h b o b' :
      barrier_history workers h b → barrier_step b o b' →
      barrier_history workers (option_list o ++ h) b'.

(** How often a worker arrived. *)
Definition arrival_count (w : Z) (h : list Z) : Z := Z.of_nat (count_occ Z.eq_dec h w).

Lemma missing_empty (b : SimulatedGridBarrier) :
  missing_workers b = ∅ ↔ ∀ w, 0 ≤ w < gb_workers b → w ∈ gb_arrivals b.
Proof.
  unfold missing_workers. split.
  - intros H w Hw. destruct (decide (w ∈ gb_arrivals b)) as [|Hn]; [done|]. exfalso.
    assert (Hin : w ∈ (list_to_set (zrange (gb_workers b)) ∖ gb_arrivals b : gset Z)).
    { apply elem_of_difference. rewrite elem_of_list_to_set, elem_of_zrange. done. }
    rewrite H in Hin. set_solver.
  - intros H. apply set_eq. intros w. rewrite elem_of_difference, elem_of_list_to_set, elem_of_zrange.
    split; [|set_solver]. intros [Hw Hn]. by destruct Hn; apply H.
Qed.

Record barrier_inv (workers : Z) (h : list Z) (b : SimulatedGridBarrier) : Prop := {
  bi_workers : gb_workers b = workers;
  bi_range : ∀ w, w ∈ gb_arrivals b → 0 ≤ w < workers;
  bi_count : ∀ w, arrival_count w h =
    if decide (0 ≤ w < workers) then gb_generation b + (if decide (w ∈ gb_arrivals b) then 1 else 0)
    else 0
}.

Lemma barrier_inv_step (workers : Z) (h : list Z) (b : SimulatedGridBarrier) (o : option Z)
    (b' : SimulatedGridBarrier) :
  barrier_inv workers h b → barrier_step b o b' → barrier_inv workers (option_list o ++ h) b'.
Proof.
  intros [Hw Hr Hc] Hs. destruct Hs as [w b' H|gen b' H|w e b' H|e b' H]; unfold arrive, release in H.
  - case_decide as Hin; [done|]. destruct (negb _) eqn:E; [done|]. zbool. simplify_eq.
    split; simpl; [done|set_solver by lia|]. intros w'. unfold arrival_count. simpl.
    specialize (Hc w'). unfold arrival_count in Hc.
    destruct (Z.eq_dec w w') as [->|Hne].
    + rewrite Nat2Z.inj_succ, Hc, !(decide_True (P := 0 ≤ w' < _)) by lia.
      rewrite (decide_False (P := w' ∈ gb_arrivals b)), decide_True by set_solver. lia.
    + rewrite Hc. case_decide; [|done]. f_equal. apply decide_ext. set_solver.
  - case_decide as Hm; [|done]. simplify_eq. split; simpl; [done|set_solver|]. intros w.
    rewrite Hc. case_decide as Hin; [|done]. rewrite missing_empty in Hm.
    rewrite decide_True by (by apply Hm). rewrite decide_False by set_solver. lia.
  - case_decide; simplify_eq; [by split|]. destruct (negb _); simplify_eq. by split.
  - case_decide; simplify_eq. by split.
Qed.

(** C31. The participation contract of the grid barrier, over every history of
    calls: only workers of the grid arrive; each worker of the grid has
    arrived exactly once per released generation, plus once when it is
    waiting in the current one; and the barrier releases exactly when every
    worker of the grid is waiting. *)
Theorem barrier_participation (workers : Z) (h : list Z) (b : SimulatedGridBarrier) :
  barrier_history workers h b →
  (∀ w, w ∈ h → 0 ≤ w < workers)
  ∧ (∀ w, 0 ≤ w < workers →
       arrival_count w h = gb_generation b + (if decide (w ∈ gb_arrivals b) then 1 else 0))
  ∧ (if decide (Forall (λ w, w ∈ gb_arrivals b) (zrange workers))
     then release b = (Ok (gb_generation b), mk_barrier workers (gb_generation b + 1) ∅)
     else release b = (Err (BarrierError "released with missing workers"), b)).
Proof.
  intros Hh. assert (Hinv : barrier_inv workers h b).
  { induction Hh as [|h b o b' _ IH Hs]; [|by eapply barrier_inv_step].
    split; [done|set_solver|]. intros w. simpl. repeat case_decide; set_solver. }
  destruct Hinv as [Hw Hr Hc]. split_and!.
  - intros w Hin. destruct (decide (0 ≤ w < workers)) as [|Hn]; [done|]. exfalso.
    specialize (Hc w). rewrite decide_False in Hc by done. unfold arrival_count in Hc.
    apply list_elem_of_In, (count_occ_In Z.eq_dec) in Hin. lia.
  - intros w Hin. rewrite Hc, decide_True by done. done.
  - unfold release. pose proof (missing_empty b) as Hm. rewrite Hw in Hm.
    case_decide as Hall.
    + rewrite Forall_forall in Hall. rewrite decide_True; [by rewrite Hw|]. apply Hm.
      intros w Hin. by apply Hall, elem_of_zrange.
    + rewrite decide_False; [done|]. intros He. apply Hall, Forall_forall.
      intros w Hin%elem_of_zrange. by apply Hm.
Qed.

(** ** Launch *)
Definition choose_worker_count (requested num_sms : option Z) (device_sms max_tasks : Z) : result Z :=
  let sms := default device_sms num_sms in
  let upper := Z.max 1 sms in
  let requested := match requested with Some r => r | None => Z.min upper (Z.max 1 max_tasks) end in
  _ ← require (1 <=? requested) (ValueError "worker count must be >= 1");
  Ok (Z.min requested upper).

(** The chosen worker count is legal: it is at least one and at most one
    block per SM; a request is only ever lowered to that bound, and refused
    exactly when it is below one; the default never fails and never exceeds
    the widest phase. *)
Theorem choose_worker_count_spec (requested num_sms : option Z) (device_sms max_tasks : Z) :
  let upper := Z.max 1 (default device_sms num_sms) in
  match requested with
  | Some r => if decide (1 ≤ r)
              then choose_worker_count requested num_sms device_sms max_tasks = Ok (Z.min r upper)
                   ∧ 1 ≤ Z.min r upper ≤ upper
              else choose_worker_count requested num_sms device_sms max_tasks
                   = Err (ValueError "worker count must be >= 1")
  | None => ∃ p, choose_worker_count None num_sms device_sms max_tasks = Ok p
                 ∧ 1 ≤ p ≤ upper ∧ p ≤ Z.max 1 max_tasks
  end.
Proof.
  cbn zeta. unfold choose_worker_count, require. destruct requested as [r|].
  - case_decide as Hr.
    + rewrite (proj2 (Z.leb_le 1 r)) by done. simpl. split; [done|lia].
    + rewrite (proj2 (Z.leb_gt 1 r)) by lia. done.
  - eexists. rewrite (proj2 (Z.leb_le 1 _)) by lia. simpl. split; [done|]. lia.
Qed.

Record LaunchManifest : Type := mk_manifest {
  lm_workers : Z;
  lm_threads_per_worker : Z;
  lm_cooperative : bool;
  lm_shared_scratch_bytes : Z;
  lm_workspace_bytes : Z;
  lm_num_sms : Z;
  lm_capability_notes : list string
}.

Definition launch_grid (m : LaunchManifest) : Z * Z * Z := (lm_workers m, 1, 1).
Definition launch_block (m : LaunchManifest) : Z * Z * Z := (lm_threads_per_worker m, 1, 1).

(** ** Residency of the compiled kernel *)

(** The attributes of the compiled kernel that are read; [warp_size] may be
    absent. *)
Record KernelMetadata : Type := mk_metadata {
  km_num_warps : Z;
  km_warp_size : option Z
}.

Definition warp_size (k : KernelMetadata) : Z :=
  match km_warp_size k with Some w => if decide (w = 0) then 32 else w | None => 32 end.
Definition block_size (k : KernelMetadata) : Z := km_num_warps k * warp_size k.

(** [occupancy] is the driver's answer for a block size: the active blocks
    per multiprocessor, or the failure of the query. *)
Definition validate_residency (occupancy : Z → result Z) (num_sms : Z) (k : KernelMetadata)
    (workers blocks_per_sm : Z) : result Z :=
  _ ← require (1 <=? workers) (ValueError "workers must be positive");
  _ ← require (1 <=? blocks_per_sm) (ValueError "blocks_per_sm must be positive");
  active_blocks ← occupancy (block_size k);
  _ ← require (blocks_per_sm <=? active_blocks) (ValueError "blocks_per_sm exceeds compiled occupancy");
  let bound := num_sms * blocks_per_sm in
  _ ← require (workers <=? bound) (ValueError "workers exceeds compiled persistent residency bound");
  Ok bound.

(** A validated launch is co-resident: the workers fit in the blocks the
    compiled kernel can keep active on all multiprocessors at once, for the
    block size it was compiled with. *)
Theorem validate_residency_sound (occupancy : Z → result Z) (num_sms : Z) (k : KernelMetadata)
    (workers blocks_per_sm bound : Z) :
  0 ≤ num_sms → validate_residency occupancy num_sms k workers blocks_per_sm = Ok bound →
  ∃ active, occupancy (block_size k) = Ok active ∧ 1 ≤ workers ≤ bound
    ∧ bound = num_sms * blocks_per_sm ∧ bound ≤ num_sms * active.
Proof.
  unfold validate_residency. intros Hs H. res_inv. zbool. eexists. split_and!; [done|lia|lia|done|nia].
Qed.

(** *** Witnesses *)
Lemma barrier_participation_witness :
  ∃ b, barrier_history 2 [1; 0] b ∧ arrival_count 1 [1; 0] = 1
    ∧ (release b).1 = Ok 0.
Proof.
  assert (Hh : barrier_history 2 [1; 0] (mk_barrier 2 0 ({[1]} ∪ {[0]} ∪ ∅))).
  { change [1; 0] with (option_list (Some 1) ++ option_list (Some 0) ++ []).
    eapply history_step; [eapply history_step; [apply history_new|]|].
    - apply step_arrive. reflexivity.
    - apply step_arrive. vm_compute. reflexivity. }
  eexists. split; [exact Hh|].
  destruct (barrier_participation _ _ _ Hh) as (_ & Hc & Hr). split.
  - rewrite (Hc 1); [vm_compute; reflexivity|lia].
  - rewrite decide_True in Hr; [by rewrite Hr|]. repeat constructor; set_solver.
Defined.

Definition ex_occupancy (size : Z) : result Z :=
  if decide (size = 256) then Ok 3 else Err (ValueError "query").

Lemma validate_residency_sound_witness :
  validate_residency ex_occupancy 48 (mk_metadata 8 None) 96 2 = Ok 96
  ∧ ∃ active, ex_occupancy 256 = Ok active ∧ 96 ≤ 48 * active.
Proof.
  assert (Hv : validate_residency ex_occupancy 48 (mk_metadata 8 None) 96 2 = Ok 96)
    by (vm_compute; reflexivity).
  split; [exact Hv|].
  destruct (validate_residency_sound ex_occupancy 48 (mk_metadata 8 None) 96 2 96 ltac:(lia) Hv)
    as (active & Ha & _ & _ & H).
  exists active. split; [exact Ha|exact H].
Defined.
