(* ===== verification/Memory.v ===== *)
(** * Memory planning (compiler/memory.py)

    Lifetimes of the compiler-planned buffers from operator effects, and the
    first-fit packing of the buffers into one workspace.  The theorems: the
    packing loop terminates; buffers whose lifetimes overlap get disjoint,
    aligned ranges inside the workspace; reuse never costs more than the sum
    of the aligned sizes; and a lifetime covers every phase that touches its
    storage, so no operator can clobber a live buffer. *)

From S2P Require Import Prelude Indexing OperatorIR TaskIR SchedulePhase.
Local Open Scope Z_scope.

Definition ALIGN_ELEMENTS : Z := 64.
Definition RUNTIME_SCRATCH_BYTES : Z := 256.

(** The alignments passed are the positive constants 64 and 128. *)
Definition align_up (x a : Z) : Z := (x + a - 1) / a * a.

Record BufferPlan : Type := mk_buffer {
  bp_name : string;
  bp_storage_id : Z;
  bp_numel : Z;
  bp_first_phase : Z;
  bp_last_phase : Z;
  bp_offset : Z;
  bp_live_at_end : bool
}.

Definition overlaps_lifetime (a b : BufferPlan) : bool :=
  (bp_first_phase a <=? bp_last_phase b) && (bp_first_phase b <=? bp_last_phase a).

Record WorkspacePlan : Type := mk_workspace {
  wp_buffers : list BufferPlan;
  wp_total_elements : Z;
  wp_element_size : Z
}.

Definition total_bytes (p : WorkspacePlan) : Z := wp_total_elements p * wp_element_size p.
Definition naive_bytes (p : WorkspacePlan) : Z :=
  zsum (bp_numel <$> wp_buffers p) * wp_element_size p.

Record ScratchPlan : Type := mk_scratch {
  sp_runtime_bytes : Z;
  sp_max_task_scratch : Z
}.

Definition per_worker_bytes (s : ScratchPlan) : Z :=
  align_up (sp_runtime_bytes s + sp_max_task_scratch s) 128.

Definition region_overlaps_storage (regions : list Region) (storage_id : Z) : bool :=
  existsb (λ r, rg_storage_id r =? storage_id) regions.

(** ** Lifetimes *)
Definition phase_table (schedule : PhaseSchedule) : dict Z Z :=
  foldl (λ d p, foldl (λ d f, dict_set d (op_opid (tf_op f)) (pp_index p)) d (pp_families p))
    [] (ps_phases schedule).

(** The fresh storages, each with its first tensor's name and size. *)
Definition fresh_table (graph : OperatorGraph) : dict Z (string * Z) :=
  foldl (λ d nt, if decide (tv_storage_id nt.2 ∈ g_fresh_storages graph)
                 then dict_setdefault d (tv_storage_id nt.2) (nt.1, numel nt.2) else d)
    [] (g_tensors graph).

Definition touches (op : Operator) (sid : Z) : bool :=
  region_overlaps_storage (op_read_regions op) sid
  || region_overlaps_storage (op_write_regions op) sid.

(** [lifetimes[sid].append(ph)] for every fresh storage the operator touches. *)
Definition touch_step (phase_of_op : dict Z Z) (lifetimes : dict Z (list Z)) (op : Operator)
    : result (dict Z (list Z)) :=
  ph ← of_option (KeyError "phase_of_op") (dict_get phase_of_op (op_opid op));
  Ok ((λ sl, (sl.1, if touches op sl.1 then sl.2 ++ [ph] else sl.2)) <$> lifetimes).

Definition make_buffer (final_phase : Z) (lifetimes : dict Z (list Z)) (f : Z * (string * Z))
    : BufferPlan :=
  let touched := default [] (dict_get lifetimes f.1) in
  let touched := if decide (touched = []) then [0] else touched in
  let first := zmin_list (default 0 (head touched)) touched in
  let last := zmax_list (default 0 (head touched)) touched in
  mk_buffer f.2.1 f.1 f.2.2 first last 0 (last =? final_phase).

(** ** First-fit packing *)
Definition buffer_end (p : BufferPlan) : Z := bp_offset p + align_up (bp_numel p) ALIGN_ELEMENTS.

(** The first already placed buffer the candidate range collides with. *)
Fixpoint find_conflict (colliding : list BufferPlan) (candidate size : Z) : option BufferPlan :=
  match colliding with
  | [] => None
  | p :: ps =>
      if (candidate <? buffer_end p) && (bp_offset p <? candidate + size) then Some p
      else find_conflict ps candidate size
  end.

(** The [while True] search; every conflict moves the candidate past one more
    buffer, so one iteration per buffer is enough ([first_fit_ok]). *)
Fixpoint first_fit (fuel : nat) (colliding : list BufferPlan) (size candidate : Z) : result Z :=
  match fuel with
  | O => Err OutOfFuel
  | S fuel =>
      let candidate := align_up candidate ALIGN_ELEMENTS in
      match find_conflict colliding candidate size with
      | None => Ok candidate
      | Some p => first_fit fuel colliding size (buffer_end p)
      end
  end.

Definition set_offset (b : BufferPlan) (offset : Z) : BufferPlan :=
  mk_buffer (bp_name b) (bp_storage_id b) (bp_numel b) (bp_first_phase b) (bp_last_phase b)
    offset (bp_live_at_end b).

Definition place_buffer (placed : list BufferPlan) (buf : BufferPlan) : result (list BufferPlan) :=
  let colliding := filter (λ p, overlaps_lifetime p buf = true) placed in
  offset ← first_fit (S (length colliding)) colliding (align_up (bp_numel buf) ALIGN_ELEMENTS) 0;
  Ok (placed ++ [set_offset buf offset]).

(** The sort key [(first_phase, -numel)]. *)
Definition buffer_le (a b : BufferPlan) : Prop :=
  bp_first_phase a < bp_first_phase b
  ∨ bp_first_phase a = bp_first_phase b ∧ - bp_numel a ≤ - bp_numel b.
#[export] Instance buffer_le_dec : RelDecision buffer_le.
Proof. unfold buffer_le. intros a b. apply _. Defined.

Definition pack_buffers (buffers : list BufferPlan) : result (list BufferPlan) :=
  fold_result place_buffer [] (stable_sort buffer_le buffers).

Definition workspace_total (placed : list BufferPlan) : Z :=
  foldl (λ total b, Z.max total (bp_offset b + bp_numel b)) 0 placed.

Definition plan_memory (graph : OperatorGraph) (schedule : PhaseSchedule) (families : list TaskFamily)
    : result (WorkspacePlan * ScratchPlan) :=
  let phase_of_op := phase_table schedule in
  let fresh := fresh_table graph in
  lifetimes ← fold_result (touch_step phase_of_op) ((λ f, (f.1, [])) <$> fresh) (g_ops graph);
  let final_phase := num_phases schedule - 1 in
  let buffers := make_buffer final_phase lifetimes <$> fresh in
  placed ← pack_buffers buffers;
  let scratch := match tf_scratch_bytes <$> families with
                 | [] => 0
                 | x :: xs => zmax_list x xs
                 end in
  Ok (mk_workspace placed (workspace_total placed) 4, mk_scratch RUNTIME_SCRATCH_BYTES scratch).

Definition kv_cache_bytes (layers batch capacity hidden element_size : Z) : Z :=
  2 * layers * batch * capacity * hidden * element_size.

(** ** Alignment *)
Lemma align_up_spec (x a : Z) :
  0 < a → x ≤ align_up x a < x + a ∧ (a | align_up x a).
Proof.
  intros Ha. unfold align_up. pose proof (Z.div_mod (x + a - 1) a ltac:(lia)).
  pose proof (Z.mod_pos_bound (x + a - 1) a Ha). split; [lia|]. by exists ((x + a - 1) / a).
Qed.

Lemma align_up_id (x a : Z) : 0 < a → (a | x) → align_up x a = x.
Proof.
  intros Ha [k ->]. unfold align_up.
  replace (k * a + a - 1) with ((a - 1) + k * a) by lia.
  rewrite Z.div_add, Z.div_small by lia. lia.
Qed.

Definition aligned (x : Z) : Prop := (ALIGN_ELEMENTS | x).

Lemma aligned_end (p : BufferPlan) : aligned (bp_offset p) → aligned (buffer_end p).
Proof.
  intros Ha. apply Z.divide_add_r; [done|]. by apply align_up_spec.
Qed.

(** ** The search for an offset *)
Lemma find_conflict_some (colliding : list BufferPlan) (candidate size : Z) (p : BufferPlan) :
  find_conflict colliding candidate size = Some p →
  p ∈ colliding ∧ candidate < buffer_end p ∧ bp_offset p < candidate + size.
Proof.
  induction colliding as [|q qs IH]; simpl; [done|].
  destruct (_ && _) eqn:E; intros Hf.
  - simplify_eq. zbool. split_and!; [by left|done|done].
  - destruct (IH Hf) as (? & ? & ?). split_and!; [by right|done|done].
Qed.

Lemma find_conflict_none (colliding : list BufferPlan) (candidate size : Z) :
  find_conflict colliding candidate size = None →
  ∀ p, p ∈ colliding → buffer_end p ≤ candidate ∨ candidate + size ≤ bp_offset p.
Proof.
  induction colliding as [|q qs IH]; simpl; intros Hf p Hp; [by apply not_elem_of_nil in Hp|].
  destruct (_ && _) eqn:E; [done|]. apply elem_of_cons in Hp as [->|Hp]; [|by apply IH].
  apply andb_false_iff in E as [E|E]; zbool; lia.
Qed.

(** The buffers still ahead of the candidate. *)
Definition ahead (colliding : list BufferPlan) (candidate : Z) : nat :=
  length (filter (λ p, candidate < buffer_end p) colliding).

Lemma ahead_decreases (colliding : list BufferPlan) (c c' : Z) (p : BufferPlan) :
  p ∈ colliding → c < buffer_end p → c' = buffer_end p →
  (ahead colliding c' < ahead colliding c)%nat.
Proof.
  intros Hp Hc ->. unfold ahead.
  assert (Hle : ∀ l, (length (filter (λ q, (buffer_end p < buffer_end q)%Z) l)
                      ≤ length (filter (λ q, (c < buffer_end q)%Z) l))%nat).
  { intros l. induction l as [|q l IH]; [done|]. rewrite !filter_cons.
    repeat case_decide; simpl; try lia. }
  apply list_elem_of_split in Hp as (l1 & l2 & ->).
  rewrite !filter_app, !length_app, !filter_cons.
  rewrite decide_False, decide_True by lia. simpl. pose proof (Hle l1). pose proof (Hle l2). lia.
Qed.

Lemma first_fit_ok (fuel : nat) (colliding : list BufferPlan) (size candidate : Z) :
  Forall (λ p, aligned (bp_offset p)) colliding → aligned candidate →
  (ahead colliding candidate < fuel)%nat →
  ∃ off, first_fit fuel colliding size candidate = Ok off ∧ aligned off ∧ candidate ≤ off
    ∧ (∀ p, p ∈ colliding → buffer_end p ≤ off ∨ off + size ≤ bp_offset p)
    ∧ (off = candidate ∨ ∃ p, p ∈ colliding ∧ off = buffer_end p).
Proof.
  intros Hal. revert candidate. induction fuel as [|fuel IH]; intros c Hc Hf; [lia|].
  cbn [first_fit]. rewrite align_up_id by done.
  destruct (find_conflict colliding c size) as [p|] eqn:E.
  - apply find_conflict_some in E as (Hp & Hlt & _).
    destruct (IH (buffer_end p)) as (off & Ho & Ha & Hle & Hdis & Hor).
    + apply aligned_end. rewrite Forall_forall in Hal. by apply Hal.
    + pose proof (ahead_decreases colliding c _ p Hp Hlt eq_refl). lia.
    + exists off. split_and!; [done|done|lia|done|]. right. destruct Hor as [->|?]; eauto.
  - exists c. split_and!; [done|done|lia|by apply find_conflict_none|by left].
Qed.

(** ** The packing *)
Definition disjoint_buffers (p q : BufferPlan) : Prop :=
  buffer_end p ≤ bp_offset q ∨ buffer_end q ≤ bp_offset p.

Definition aligned_sizes (bufs : list BufferPlan) : Z :=
  zsum ((λ b, align_up (bp_numel b) ALIGN_ELEMENTS) <$> bufs).

Record packed (placed : list BufferPlan) : Prop := {
  pk_offsets : ∀ p, p ∈ placed → 0 ≤ bp_offset p ∧ aligned (bp_offset p);
  pk_disjoint : ∀ i j p q, i ≠ j → placed !! i = Some p → placed !! j = Some q →
                  overlaps_lifetime p q = true → disjoint_buffers p q;
  pk_total : Forall (λ p, 0 ≤ bp_numel p) placed →
             ∀ p, p ∈ placed → buffer_end p ≤ aligned_sizes placed
}.

Lemma overlaps_lifetime_comm (p q : BufferPlan) : overlaps_lifetime p q = overlaps_lifetime q p.
Proof. unfold overlaps_lifetime. apply andb_comm. Qed.

Lemma aligned_sizes_snoc (bufs : list BufferPlan) (b : BufferPlan) :
  aligned_sizes (bufs ++ [b]) = aligned_sizes bufs + align_up (bp_numel b) ALIGN_ELEMENTS.
Proof. unfold aligned_sizes. rewrite fmap_app, zsum_app. simpl. lia. Qed.

Lemma aligned_sizes_nonneg (bufs : list BufferPlan) :
  Forall (λ p, 0 ≤ bp_numel p) bufs → 0 ≤ aligned_sizes bufs.
Proof.
  induction 1 as [|b bufs Hb _ IH]; [done|]. unfold aligned_sizes in *. rewrite fmap_cons, zsum_cons.
  pose proof (align_up_spec (bp_numel b) ALIGN_ELEMENTS ltac:(done)). lia.
Qed.

Lemma place_buffer_ok (placed : list BufferPlan) (buf : BufferPlan) :
  packed placed →
  ∃ off, place_buffer placed buf = Ok (placed ++ [set_offset buf off])
         ∧ packed (placed ++ [set_offset buf off]).
Proof.
  intros [Hoff Hdis Htot]. unfold place_buffer.
  set (coll := filter (λ p, overlaps_lifetime p buf = true) placed).
  assert (Hcoll : ∀ p, p ∈ coll → p ∈ placed) by (by intros p [_ ?]%list_elem_of_filter).
  destruct (first_fit_ok (S (length coll)) coll (align_up (bp_numel buf) ALIGN_ELEMENTS) 0)
    as (off & Ho & Ha & Hle & Hfree & Hor).
  { apply Forall_forall. intros p Hp. by apply Hoff, Hcoll. }
  { by exists 0. }
  { unfold ahead. pose proof (length_filter (λ p, 0 < buffer_end p) coll). lia. }
  exists off. rewrite Ho. split; [done|]. split.
  - intros p [Hp| ->%list_elem_of_singleton]%elem_of_app; [by apply Hoff|]. simpl. done.
  - assert (Hnew : ∀ i p, placed !! i = Some p → overlaps_lifetime p buf = true →
                     disjoint_buffers p (set_offset buf off)).
    { intros i p Hi Hov. apply Hfree. apply list_elem_of_filter. split; [done|].
      by eapply list_elem_of_lookup_2. }
    intros i j p q Hij Hi Hj Hov.
    apply lookup_app_Some in Hi as [Hi|[Hgi [Ei <-]%list_lookup_singleton_Some]];
      apply lookup_app_Some in Hj as [Hj|[Hgj [Ej <-]%list_lookup_singleton_Some]].
    + by eapply Hdis.
    + by eapply Hnew.
    + rewrite overlaps_lifetime_comm in Hov. destruct (Hnew _ _ Hj Hov); [by right|by left].
    + lia.
  - intros Hpos. apply Forall_app in Hpos as [Hpos Hb].
    assert (0 ≤ bp_numel buf) by (by inversion Hb).
    pose proof (aligned_sizes_nonneg placed Hpos).
    pose proof (align_up_spec (bp_numel buf) ALIGN_ELEMENTS ltac:(done)) as [Hsz _].
    rewrite aligned_sizes_snoc. simpl.
    intros p [Hp| ->%list_elem_of_singleton]%elem_of_app.
    + specialize (Htot Hpos p Hp). lia.
    + unfold buffer_end. simpl. destruct Hor as [->|(q & Hq & ->)]; [lia|].
      specialize (Htot Hpos q (Hcoll q Hq)). lia.
Qed.

Lemma pack_loop_ok (bufs placed : list BufferPlan) :
  packed placed →
  ∃ placed', fold_result place_buffer placed bufs = Ok placed' ∧ packed placed'
    ∧ (λ b, set_offset b 0) <$> placed' = (λ b, set_offset b 0) <$> (placed ++ bufs).
Proof.
  revert placed. induction bufs as [|b bufs IH]; intros placed Hp.
  - exists placed. by rewrite app_nil_r.
  - destruct (place_buffer_ok placed b Hp) as (off & Hb & Hp'). cbn [fold_result]. rewrite Hb.
    destruct (IH _ Hp') as (placed' & Hf & Hp'' & Heq). exists placed'. split_and!; [done..|].
    rewrite Heq, <- (assoc_L (++)), !fmap_app. done.
Qed.

Lemma pack_buffers_ok (bufs : list BufferPlan) :
  ∃ placed, pack_buffers bufs = Ok placed ∧ packed placed
    ∧ (λ b, set_offset b 0) <$> placed ≡ₚ (λ b, set_offset b 0) <$> bufs.
Proof.
  destruct (pack_loop_ok (stable_sort buffer_le bufs) []) as (placed & Hf & Hp & Heq).
  { split; [intros p Hp; by apply not_elem_of_nil in Hp|intros ???? _ H; by rewrite lookup_nil in H
           |intros _ p Hp; by apply not_elem_of_nil in Hp]. }
  exists placed. split_and!; [done..|]. rewrite Heq. simpl. by rewrite stable_sort_perm.
Qed.

Lemma workspace_total_bound (placed : list BufferPlan) (acc : Z) :
  let t := foldl (λ total b, Z.max total (bp_offset b + bp_numel b)) acc placed in
  acc ≤ t ∧ (∀ b, b ∈ placed → bp_offset b + bp_numel b ≤ t)
  ∧ ∀ m, acc ≤ m → (∀ b, b ∈ placed → bp_offset b + bp_numel b ≤ m) → t ≤ m.
Proof.
  revert acc. induction placed as [|b placed IH]; intros acc; simpl.
  - split_and!; [lia|intros b Hb; by apply not_elem_of_nil in Hb|auto].
  - destruct (IH (acc `max` (bp_offset b + bp_numel b))) as (H1 & H2 & H3). split_and!.
    + lia.
    + intros b' [->|Hb']%elem_of_cons; [lia|by apply H2].
    + intros m Hm Hb. apply H3; [|intros; apply Hb; by right].
      specialize (Hb b ltac:(left)). lia.
Qed.

(** First-fit packing always returns; it places every buffer, at a
    non-negative aligned offset inside the workspace; two buffers whose
    lifetimes overlap get disjoint aligned ranges; and the workspace is never
    larger than the sum of the aligned sizes. *)
Theorem pack_buffers_spec (bufs : list BufferPlan) :
  Forall (λ b, 0 ≤ bp_numel b) bufs →
  ∃ placed, pack_buffers bufs = Ok placed
    ∧ (λ b, set_offset b 0) <$> placed ≡ₚ (λ b, set_offset b 0) <$> bufs
    ∧ (∀ b, b ∈ placed → 0 ≤ bp_offset b ∧ aligned (bp_offset b)
                         ∧ bp_offset b + bp_numel b ≤ workspace_total placed)
    ∧ (∀ i j p q, i ≠ j → placed !! i = Some p → placed !! j = Some q →
         overlaps_lifetime p q = true → disjoint_buffers p q)
    ∧ workspace_total placed ≤ aligned_sizes bufs.
Proof.
  intros Hpos. destruct (pack_buffers_ok bufs) as (placed & Hf & Hp & Hperm). exists placed.
  destruct (workspace_total_bound placed 0) as (H1 & H2 & H3). destruct Hp as [Hoff Hdis Htot].
  assert (Hpos' : Forall (λ b, 0 ≤ bp_numel b) placed).
  { assert (H : Forall (λ b, 0 ≤ bp_numel b) ((λ b, set_offset b 0) <$> placed))
      by (rewrite Hperm; by apply Forall_fmap).
    rewrite Forall_forall in H. apply Forall_forall. intros b Hb. apply (H (set_offset b 0)).
    by apply (list_elem_of_fmap_2 (λ b, set_offset b 0)). }
  assert (Hsz : aligned_sizes placed = aligned_sizes bufs).
  { unfold aligned_sizes.
    assert (E : ∀ l, (λ b, align_up (bp_numel b) ALIGN_ELEMENTS) <$> l
      = (λ b, align_up (bp_numel b) ALIGN_ELEMENTS) <$> ((λ b, set_offset b 0) <$> l))
      by (intros l; by rewrite <- list_fmap_compose).
    rewrite E, (E bufs). by rewrite Hperm. }
  split_and!; [done|done| |done|].
  - intros b Hb. destruct (Hoff b Hb). split_and!; auto.
  - apply H3; [rewrite <- Hsz; by apply aligned_sizes_nonneg|]. intros b Hb.
    specialize (Htot Hpos' b Hb). rewrite <- Hsz.
    pose proof (align_up_spec (bp_numel b) ALIGN_ELEMENTS ltac:(done)). unfold buffer_end in Htot. lia.
Qed.

(** ** Lifetimes *)
Lemma touch_fold (phase_of_op : dict Z Z) (ops : list Operator) (lifetimes : dict Z (list Z)) :
  (∀ op, op ∈ ops → is_Some (dict_get phase_of_op (op_opid op))) →
  ∃ lt, fold_result (touch_step phase_of_op) lifetimes ops = Ok lt
    ∧ lt.*1 = lifetimes.*1
    ∧ (∀ sid ps, dict_get lifetimes sid = Some ps →
         ∃ ps', dict_get lt sid = Some ps' ∧ (∀ ph, ph ∈ ps → ph ∈ ps')
           ∧ ∀ op ph, op ∈ ops → touches op sid = true →
               dict_get phase_of_op (op_opid op) = Some ph → ph ∈ ps').
Proof.
  revert lifetimes. induction ops as [|op ops IH]; intros lifetimes Hop.
  - exists lifetimes. split_and!; [done|done|]. intros sid ps Hps. exists ps. split_and!; [done|done|].
    intros op ph H. by apply not_elem_of_nil in H.
  - destruct (Hop op ltac:(left)) as [ph Hph].
    set (lt1 := (λ sl : Z * list Z, (sl.1, if touches op sl.1 then sl.2 ++ [ph] else sl.2)) <$> lifetimes).
    assert (Hstep : touch_step phase_of_op lifetimes op = Ok lt1)
      by (unfold touch_step; by rewrite Hph).
    assert (Hk1 : lt1.*1 = lifetimes.*1) by (unfold lt1; rewrite <- list_fmap_compose; done).
    assert (Hg1 : ∀ sid, dict_get lt1 sid =
      (λ ps, if touches op sid then ps ++ [ph] else ps) <$> dict_get lifetimes sid).
    { intros sid. unfold lt1. clear. induction lifetimes as [|[s ps] l IH]; [done|].
      rewrite fmap_cons. simpl. case_decide; [by subst|done]. }
    destruct (IH lt1 ltac:(intros; apply Hop; by right)) as (lt & Hf & Hk & Hget).
    exists lt. cbn [fold_result]. rewrite Hstep. split_and!; [done|by rewrite Hk|].
    intros sid ps Hps. destruct (Hget sid (if touches op sid then ps ++ [ph] else ps)) as (ps' & Hps' & Hold & Hnew);
      [by rewrite Hg1, Hps|].
    exists ps'. split_and!; [done| |].
    + intros x Hx. apply Hold. destruct (touches op sid); set_solver.
    + intros op' ph' [->|Hin]%elem_of_cons Ht Hph'; [|by eapply Hnew].
      rewrite Hph in Hph'. simplify_eq. apply Hold. rewrite Ht. set_solver.
Qed.

Lemma make_buffer_covers (final_phase : Z) (lt : dict Z (list Z)) (f : Z * (string * Z))
    (ps : list Z) (ph : Z) :
  dict_get lt f.1 = Some ps → ph ∈ ps →
  bp_first_phase (make_buffer final_phase lt f) ≤ ph ≤ bp_last_phase (make_buffer final_phase lt f).
Proof.
  intros Hps Hph. unfold make_buffer. rewrite Hps.
  destruct ps as [|x ps]; [by apply not_elem_of_nil in Hph|]. cbn [default].
  rewrite decide_False by done. cbn [head default bp_first_phase bp_last_phase].
  destruct (zmin_list_spec x (x :: ps)) as [_ Hmin], (zmax_list_spec x (x :: ps)) as [_ Hmax].
  split; [apply Hmin|apply Hmax]; by right.
Qed.

(** A fresh storage that some tensor views is planned with its first size. *)
Lemma fresh_table_elem (graph : OperatorGraph) (sid : Z) (e : string * Z) :
  dict_get (fresh_table graph) sid = Some e →
  ∃ tv, (e.1, tv) ∈ g_tensors graph ∧ tv_storage_id tv = sid ∧ e.2 = numel tv.
Proof.
  unfold fresh_table.
  assert (H : ∀ ts (d : dict Z (string * Z)),
    (∀ s e, dict_get d s = Some e → ∃ tv, (e.1, tv) ∈ g_tensors graph ∧ tv_storage_id tv = s ∧ e.2 = numel tv) →
    (∀ t, t ∈ ts → t ∈ g_tensors graph) →
    ∀ s e, dict_get (foldl (λ d nt, if decide (tv_storage_id nt.2 ∈ g_fresh_storages graph)
                 then dict_setdefault d (tv_storage_id nt.2) (nt.1, numel nt.2) else d) d ts) s = Some e →
      ∃ tv, (e.1, tv) ∈ g_tensors graph ∧ tv_storage_id tv = s ∧ e.2 = numel tv).
  { induction ts as [|[n t] ts IH]; intros d Hd Hts; [exact Hd|]. cbn [foldl]. apply IH.
    - intros s e'. case_decide; [|by apply Hd]. rewrite dict_get_setdefault. case_decide as E; [|by apply Hd].
      destruct (dict_get d _) as [e0|] eqn:Ed; intros [= <-]; simpl; [subst s; by apply Hd|].
      exists t. split_and!; [apply Hts; by left|done|done].
    - intros; apply Hts; by right. }
  apply H; [done|done].
Qed.

(** What the planner returns. *)
Lemma plan_memory_ok (graph : OperatorGraph) (schedule : PhaseSchedule) (families : list TaskFamily) :
  (∀ op, op ∈ g_ops graph → is_Some (dict_get (phase_table schedule) (op_opid op))) →
  ∃ lt placed scratch,
    plan_memory graph schedule families = Ok (mk_workspace placed (workspace_total placed) 4, scratch)
    ∧ pack_buffers (make_buffer (num_phases schedule - 1) lt <$> fresh_table graph) = Ok placed
    ∧ (∀ op sid ph, op ∈ g_ops graph → touches op sid = true → is_Some (dict_get (fresh_table graph) sid) →
         dict_get (phase_table schedule) (op_opid op) = Some ph →
         ∃ ps, dict_get lt sid = Some ps ∧ ph ∈ ps).
Proof.
  intros Hops. unfold plan_memory.
  set (lt0 := (λ f : Z * (string * Z), (f.1, @nil Z)) <$> fresh_table graph).
  destruct (touch_fold (phase_table schedule) (g_ops graph) lt0 Hops) as (lt & Hlt & Hk & Hget).
  destruct (pack_buffers_ok (make_buffer (num_phases schedule - 1) lt <$> fresh_table graph))
    as (placed & Hpack & _ & _).
  eexists lt, placed, _. rewrite Hlt. cbn [mbind result_bind]. rewrite Hpack.
  split_and!; [done|done|]. intros op sid ph Hop Ht Hs Hph.
  assert (H0 : dict_get lt0 sid = Some []).
  { unfold lt0. revert Hs. clear. induction (fresh_table graph) as [|[s e] l IH]; [by intros [? ?]|].
    rewrite fmap_cons. simpl. by case_decide. }
  destruct (Hget sid [] H0) as (ps & Hps & _ & Hin). exists ps. split; [done|]. by eapply Hin.
Qed.

Lemma region_touches (op : Operator) (r : Region) :
  r ∈ op_read_regions op ++ op_write_regions op → touches op (rg_storage_id r) = true.
Proof.
  unfold touches, region_overlaps_storage. intros [Hr|Hr]%elem_of_app; apply orb_true_iff;
    [left|right]; apply existsb_exists; exists r; split; try apply Z.eqb_refl; by apply list_elem_of_In.
Qed.

(** Every region an operator touches has its own live, disjoint buffer. *)
Lemma plan_memory_buffers (graph : OperatorGraph) (schedule : PhaseSchedule)
    (families : list TaskFamily) :
  (∀ op, op ∈ g_ops graph → is_Some (dict_get (phase_table schedule) (op_opid op))) →
  ∃ plan scratch, plan_memory graph schedule families = Ok (plan, scratch)
    ∧ ∀ op r ph, op ∈ g_ops graph → r ∈ op_read_regions op ++ op_write_regions op →
        is_Some (dict_get (fresh_table graph) (rg_storage_id r)) →
        dict_get (phase_table schedule) (op_opid op) = Some ph →
        ∃ b, b ∈ wp_buffers plan ∧ bp_storage_id b = rg_storage_id r
          ∧ bp_first_phase b ≤ ph ≤ bp_last_phase b
          ∧ 0 ≤ bp_offset b ∧ bp_offset b + bp_numel b ≤ wp_total_elements plan
          ∧ (∃ tv, (bp_name b, tv) ∈ g_tensors graph ∧ tv_storage_id tv = rg_storage_id r
                   ∧ bp_numel b = numel tv)
          ∧ ∀ b', b' ∈ wp_buffers plan → b' ≠ b →
              bp_first_phase b' ≤ ph ≤ bp_last_phase b' → disjoint_buffers b b'.
Proof.
  intros Hops. destruct (plan_memory_ok graph schedule families Hops) as (lt & placed & scratch & -> & Hpack & Hlt).
  eexists _, scratch. split; [done|]. intros op r ph Hop Ht%region_touches Hs Hph. simpl.
  set (sid := rg_storage_id r) in *.
  set (bufs := make_buffer (num_phases schedule - 1) lt <$> fresh_table graph) in *.
  destruct (pack_buffers_ok bufs) as (placed' & Hpack' & [Hoff Hdis _] & Hperm).
  rewrite Hpack in Hpack'. injection Hpack' as <-.
  destruct Hs as [e He]. destruct (Hlt op sid ph Hop Ht ltac:(eauto) Hph) as (ps & Hps & Hin).
  set (b0 := make_buffer (num_phases schedule - 1) lt (sid, e)).
  assert (Hb0 : b0 ∈ (λ b, set_offset b 0) <$> placed).
  { rewrite Hperm. change b0 with (set_offset b0 0). apply (list_elem_of_fmap_2 (λ b, set_offset b 0)).
    apply (list_elem_of_fmap_2 (make_buffer (num_phases schedule - 1) lt)). by apply dict_get_elem. }
  apply list_elem_of_fmap in Hb0 as (b & Eb & Hb).
  assert (Hlife : bp_first_phase b ≤ ph ≤ bp_last_phase b ∧ bp_storage_id b = sid).
  { pose proof (make_buffer_covers (num_phases schedule - 1) lt (sid, e) ps ph Hps Hin) as Hc.
    fold b0 in Hc. rewrite Eb in Hc. split; [exact Hc|].
    apply (f_equal bp_storage_id) in Eb. simpl in Eb. done. }
  exists b. destruct Hlife as [Hlife Hsid]. split_and!; try done; try lia.
  - by apply Hoff.
  - by apply workspace_total_bound.
  - destruct (fresh_table_elem graph sid e He) as (tv & Hin' & Hst & Hsz). exists tv.
    pose proof (f_equal bp_name Eb) as En. pose proof (f_equal bp_numel Eb) as Ez. simpl in En, Ez.
    rewrite <- En, <- Ez. done.
  - intros b' Hb' Hne Hlife'. apply list_elem_of_lookup in Hb as [i Hi], Hb' as [j Hj].
    apply (Hdis i j b b'); [|done|done|].
    + intros ->. congruence.
    + unfold overlaps_lifetime. apply andb_true_iff. rewrite !Z.leb_le. lia.
Qed.

(** C25. The plan is safe for every operator: with all operators scheduled,
    [plan_memory] returns; the storage of each region an operator reads or
    writes, if fresh, has a buffer of the size of a tensor over it, live in
    the operator's phase and inside the workspace, and the range of that
    buffer, from its non-negative offset on, is disjoint from the range of
    every other buffer live in that phase. *)
Theorem plan_memory_safe (graph : OperatorGraph) (schedule : PhaseSchedule)
    (families : list TaskFamily) :
  (∀ op, op ∈ g_ops graph → is_Some (dict_get (phase_table schedule) (op_opid op))) →
  ∃ plan scratch, plan_memory graph schedule families = Ok (plan, scratch)
    ∧ ∀ op r ph, op ∈ g_ops graph → r ∈ op_read_regions op ++ op_write_regions op →
        is_Some (dict_get (fresh_table graph) (rg_storage_id r)) →
        dict_get (phase_table schedule) (op_opid op) = Some ph →
        ∃ b, b ∈ wp_buffers plan ∧ bp_storage_id b = rg_storage_id r
          ∧ bp_first_phase b ≤ ph ≤ bp_last_phase b
          ∧ 0 ≤ bp_offset b ∧ bp_offset b + bp_numel b ≤ wp_total_elements plan
          ∧ (∃ tv, (bp_name b, tv) ∈ g_tensors graph ∧ tv_storage_id tv = rg_storage_id r
                   ∧ bp_numel b = numel tv)
          ∧ ∀ b', b' ∈ wp_buffers plan → b' ≠ b →
              bp_first_phase b' ≤ ph ≤ bp_last_phase b' → disjoint_buffers b b'.
Proof. apply plan_memory_buffers. Qed.

(** ** Witnesses *)
Definition ex_buffer (name : string) (sid n first last : Z) : BufferPlan :=
  mk_buffer name sid n first last 0 false.

Lemma pack_buffers_spec_witness :
  ∃ placed, pack_buffers [ex_buffer "a" 0 100 0 1; ex_buffer "b" 1 10 1 2; ex_buffer "c" 2 70 2 3] = Ok placed
    ∧ bp_offset <$> placed = [0; 128; 0] ∧ workspace_total placed ≤ 320.
Proof.
  destruct (pack_buffers_spec [ex_buffer "a" 0 100 0 1; ex_buffer "b" 1 10 1 2; ex_buffer "c" 2 70 2 3])
    as (placed & Hp & _ & _ & _ & Ht).
  - repeat (constructor; [simpl; lia|]). constructor.
  - exists placed. split; [exact Hp|]. split; [|exact Ht].
    vm_compute in Hp. injection Hp as <-. reflexivity.
Defined.

(** [t = f(x)], [y = g(t)]: [t] and [y] are fresh. *)
Definition ex_tensor (name : string) (sid : Z) : TensorValue :=
  mk_tensor (Some sid) name [100] F32 [1] sid 0 None.
Definition ex_call (opid : Z) (x y : TensorValue) : Operator :=
  mk_operator opid "gelu" [tv_name x] [tv_name y] ∅ [region_whole x] [region_whole y] "ex".
Definition ex_graph : OperatorGraph :=
  mk_graph [("x", ex_tensor "x" 0); ("t", ex_tensor "t" 1); ("y", ex_tensor "y" 2)]
    [] [] [] [ex_call 0 (ex_tensor "x" 0) (ex_tensor "t" 1); ex_call 1 (ex_tensor "t" 1) (ex_tensor "y" 2)]
    {[1; 2]} [] ∅ [] 3 2 3.
Definition ex_plan_families : list TaskFamily :=
  [mk_family "ph00" "elementwise" (ex_call 0 (ex_tensor "x" 0) (ex_tensor "t" 1)) (mk_domain [(100, 64)])
     [] [] ∅ 256 16 None None;
   mk_family "ph01" "elementwise" (ex_call 1 (ex_tensor "t" 1) (ex_tensor "y" 2)) (mk_domain [(100, 64)])
     [] [] ∅ 256 32 None None].
Definition ex_plan_schedule : PhaseSchedule := mk_schedule (phases_of ex_plan_families) 2.

Lemma plan_memory_safe_witness :
  ∃ plan scratch, plan_memory ex_graph ex_plan_schedule ex_plan_families = Ok (plan, scratch)
    ∧ ∃ b, b ∈ wp_buffers plan ∧ bp_storage_id b = 1 ∧ bp_first_phase b ≤ 1 ≤ bp_last_phase b ∧ 0 ≤ bp_offset b.
Proof.
  destruct (plan_memory_safe ex_graph ex_plan_schedule ex_plan_families) as (plan & scratch & Hp & Hsafe).
  - intros op [->|[->|Hn]%elem_of_cons]%elem_of_cons;
      [vm_compute; eauto|vm_compute; eauto|by apply not_elem_of_nil in Hn].
  - exists plan, scratch. split; [exact Hp|].
    destruct (Hsafe (ex_call 1 (ex_tensor "t" 1) (ex_tensor "y" 2)) (region_whole (ex_tensor "t" 1)) 1) as (b & ? & ? & ? & ? & _);
      [right; left|left|vm_compute; eauto|reflexivity|].
    exists b. split; [assumption|]. split; [assumption|]. split; assumption.
Defined.
