(* ===== verification/Execution.v ===== *)
(** * The reference executor (compiler/reference_exec.py, reference_types.py)

    Executes a phase schedule: every worker runs its strided share of each
    phase and then arrives at the grid barrier.  Device memory and the task
    bodies are numpy code; they are parameters: a type of memories, one
    function per task kind, and the two array operations of the canary. *)

From S2P Require Import Prelude Indexing OperatorIR Contracts TaskIR SchedulePhase Memory Runtime.
Local Open Scope Z_scope.

Abbreviation scalars := (gmap string Z).

(** [PhasePlan.kind]: the distinct task kinds, sorted and joined by a plus. *)
Definition phase_kind (p : PhasePlan) : string :=
  String.concat "+" (stable_sort String.le
    (elements (list_to_set (tf_kind <$> pp_families p) : gset string))).

Record PhaseStat : Type := mk_stat {
  st_index : Z;
  st_kind : string;
  st_tasks : Z;
  st_per_worker : list Z;
  st_barrier_generation : Z
}.

Definition idle_workers (s : PhaseStat) : Z :=
  Z.of_nat (length (filter (λ c, c = 0) (st_per_worker s))).
Definition max_tasks_per_worker (s : PhaseStat) : result Z :=
  match st_per_worker s with
  | [] => Err (ValueError "max() arg is an empty sequence")
  | c :: cs => Ok (zmax_list c cs)
  end.

Record ExecutionTrace : Type := mk_trace {
  tr_kernel_launches : Z;
  tr_grid_barriers : Z;
  tr_phases : list PhaseStat;
  tr_task_executions : Z
}.
Definition new_trace : ExecutionTrace := mk_trace 0 0 [] 0.

(** A call on the barrier object, in the executor. *)
Definition on_barrier {A} (m : M SimulatedGridBarrier A) (b : SimulatedGridBarrier)
    : result (A * SimulatedGridBarrier) :=
  match m b with (Ok x, b') => Ok (x, b') | (Err e, _) => Err e end.

Section executor.
Context {D : Type}.
(** [body kind family coords scalars]: the numpy task body of a task kind. *)
Context (body : string → TaskFamily → list Z → scalars → D → result D).
(** [storage_arrays[sid].fill(nan)] and [isnan(storage_arrays[sid]).all()]. *)
Context (fill_nan : Z → D → D) (all_nan : Z → D → bool).

(** [self._bodies.get(kind)]: one entry per task kind of the contracts. *)
Definition body_of (kind : string) : option (TaskFamily → list Z → scalars → D → result D) :=
  if bool_decide (kind ∈ (λ kc : string * OperatorContract, oc_task_kind kc.2) <$> CONTRACTS)
  then Some (body kind) else None.

Definition execute_task (phase : PhasePlan) (sc : scalars) (mem : D) (task_id : Z) : result D :=
  family ← family_of phase task_id;
  local ← local_id phase task_id;
  cs ← family_coords family local;
  b ← of_option (ExecutorError "no reference body for task kind") (body_of (tf_kind family));
  b family cs sc mem.

(** One worker's share of a phase: the memory after it and the task count. *)
Definition worker_share (phase : PhasePlan) (workers : Z) (sc : scalars) (mem : D) (w : Z)
    : result (D * Z) :=
  tids ← worker_task_ids phase w workers;
  fold_result (λ mc tid, mem' ← execute_task phase sc mc.1 tid; Ok (mem', mc.2 + 1)) (mem, 0) tids.

Definition worker_step (phase : PhasePlan) (workers : Z) (sc : scalars)
    (st : D * list Z * SimulatedGridBarrier) (w : Z) : result (D * list Z * SimulatedGridBarrier) :=
  let '(mem, per_worker, barrier) := st in
  '(mem', count) ← worker_share phase workers sc mem w;
  '(_, barrier') ← on_barrier (arrive w) barrier;
  Ok (mem', per_worker ++ [count], barrier').

(** ** The canary *)
Definition has_live_cooccupant (bufs : list BufferPlan) (i : nat) (buf : BufferPlan) (phase_index : Z)
    : bool :=
  existsb (λ jo : nat * BufferPlan,
    let other := jo.2 in
    negb (bool_decide (jo.1 = i))
    && ((bp_first_phase other <=? phase_index) && (phase_index <=? bp_last_phase other))
    && ((bp_offset buf <? bp_offset other + bp_numel other)
        && (bp_offset other <? bp_offset buf + bp_numel buf))) (imap pair bufs).

Definition canary_step (bufs : list BufferPlan) (index : Z) (mem : D) (ib : nat * BufferPlan) : result D :=
  let '(i, buf) := ib in
  if index <? bp_first_phase buf then
    if has_live_cooccupant bufs i buf index then Ok mem
    else _ ← require (all_nan (bp_storage_id buf) mem)
               (ExecutorError "phase wrote into buffer before its lifetime starts");
         Ok mem
  else if (bp_last_phase buf =? index) && negb (bp_live_at_end buf)
  then Ok (fill_nan (bp_storage_id buf) mem) else Ok mem.

Definition canary_check (canary : bool) (plan : option WorkspacePlan) (phase : PhasePlan) (mem : D)
    : result D :=
  match plan with
  | Some ws => if canary then fold_result (canary_step (wp_buffers ws) (pp_index phase)) mem
                                (imap pair (wp_buffers ws))
               else Ok mem
  | None => Ok mem
  end.

(** [__init__]: re-arm every canary, then materialize every tensor over its
    storage ([storages]: the keys of [storage_arrays]). *)
Definition init_executor (storages : gset Z) (canary : bool) (plan : option WorkspacePlan)
    (graph : OperatorGraph) (mem : D) : result D :=
  mem ← match plan with
        | Some ws => if canary then
            fold_result (λ mem buf,
              _ ← require (bool_decide (bp_storage_id buf ∈ storages)) (KeyError "storage_arrays");
              Ok (fill_nan (bp_storage_id buf) mem)) mem (wp_buffers ws)
            else Ok mem
        | None => Ok mem
        end;
  _ ← map_result (λ ntv : string * TensorValue,
        require (bool_decide (tv_storage_id ntv.2 ∈ storages)) (ExecutorError "no storage array for tensor"))
        (g_tensors graph);
  Ok mem.

(** ** One invocation *)
Definition run_phase (workers : Z) (canary : bool) (plan : option WorkspacePlan) (sc : scalars)
    (st : D * ExecutionTrace * SimulatedGridBarrier) (phase : PhasePlan)
    : result (D * ExecutionTrace * SimulatedGridBarrier) :=
  let '(mem, tr, barrier) := st in
  '(mem', per_worker, barrier') ←
    fold_result (worker_step phase workers sc) (mem, [], barrier) (zrange workers);
  '(gen, barrier'') ← on_barrier release barrier';
  tasks ← phase_task_count phase;
  let tr' := mk_trace (tr_kernel_launches tr) (tr_grid_barriers tr + 1)
               (tr_phases tr ++ [mk_stat (pp_index phase) (phase_kind phase) tasks per_worker gen])
               (tr_task_executions tr + zsum per_worker) in
  mem'' ← canary_check canary plan phase mem';
  Ok (mem'', tr', barrier'').

Definition run (workers : Z) (canary : bool) (plan : option WorkspacePlan) (schedule : PhaseSchedule)
    (sc : scalars) (mem : D) (tr : ExecutionTrace) : result (D * ExecutionTrace) :=
  let tr := mk_trace (tr_kernel_launches tr + 1) (tr_grid_barriers tr) (tr_phases tr)
              (tr_task_executions tr) in
  '(mem', tr', _) ← fold_result (run_phase workers canary plan sc) (mem, tr, new_barrier workers)
                      (ps_phases schedule);
  Ok (mem', tr').
End executor.

(** ** Independent tasks commute *)
Section commuting.
Context {S A : Type} (f : S → A → result S).

Definition commute (x y : A) : Prop :=
  ∀ s, (s' ← f s x; f s' y) = (s' ← f s y; f s' x).

Lemma fold_result_perm (l1 l2 : list A) (s : S) :
  l1 ≡ₚ l2 → (∀ x y, x ∈ l1 → y ∈ l1 → x ≠ y → commute x y) → NoDup l1 →
  fold_result f s l1 = fold_result f s l2.
Proof.
  intros Hp. revert s. induction Hp as [|x l1 l2 Hp IH|x y l|l1 l2 l3 H12 IH12 H23 IH23]; intros s Hc Hnd.
  - done.
  - apply NoDup_cons in Hnd as [_ Hnd]. cbn [fold_result]. destruct (f s x) as [s'|]; [|done]. simpl.
    apply IH; [|done]. intros a b Ha Hb. apply Hc; by right.
  - apply NoDup_cons in Hnd as [Hx _]. cbn [fold_result].
    assert (Hyx : commute y x) by (apply Hc; [left|right; left|intros ->; apply Hx; left]).
    specialize (Hyx s). destruct (f s y) as [s1|], (f s x) as [s2|]; simpl in *; [by rewrite Hyx|..].
    + by rewrite Hyx.
    + by rewrite <- Hyx.
    + congruence.
  - rewrite IH12, IH23; [done|..|done|done]; [|by rewrite <- H12].
    intros a b Ha Hb. apply Hc; by rewrite H12.
Qed.
End commuting.

(** ** The shares of a phase *)
(** The statistics of one phase, for a number of workers. *)
Definition share_sizes (n workers : Z) : list Z :=
  (λ w, Z.of_nat (length (stride_ids w n workers))) <$> zrange workers.

Definition phase_stat (workers : Z) (i : nat) (p : PhasePlan) : PhaseStat :=
  let n := ok_default 0 (phase_task_count p) in
  mk_stat (pp_index p) (phase_kind p) n (share_sizes n workers) (Z.of_nat i).

Lemma share_sizes_total (n workers : Z) : 0 ≤ n → 1 ≤ workers → zsum (share_sizes n workers) = n.
Proof.
  intros Hn Hw. pose proof (stride_shares n workers Hw) as Hp. apply Permutation_length in Hp.
  rewrite bind_concat in Hp. unfold zrange in Hp at 2. rewrite length_fmap, length_seq in Hp.
  assert (Hl : ∀ ws, zsum ((λ w, Z.of_nat (length (stride_ids w n workers))) <$> ws)
                     = Z.of_nat (length (concat ((λ w, stride_ids w n workers) <$> ws)))).
  { induction ws as [|w ws IH]; [done|]. rewrite !fmap_cons. simpl.
    rewrite length_app, Nat2Z.inj_add, <- IH. done. }
  unfold share_sizes. rewrite Hl, Hp. lia.
Qed.

Section shares.
Context {D : Type} (body : string → TaskFamily → list Z → scalars → D → result D) (sc : scalars).
Abbreviation exec := (execute_task body).

(** A worker's share is a fold of its tasks. *)
Lemma worker_share_fold (phase : PhasePlan) (workers n w : Z) (mem : D) :
  phase_task_count phase = Ok n → 1 ≤ workers →
  worker_share body phase workers sc mem w =
    mem' ← fold_result (exec phase sc) mem (stride_ids w n workers);
    Ok (mem', Z.of_nat (length (stride_ids w n workers))).
Proof.
  intros Hn Hw. unfold worker_share. rewrite (worker_task_ids_stride phase n) by (done || lia).
  cbn [mbind result_bind]. generalize (stride_ids w n workers) as tids. intros tids.
  replace (Z.of_nat (length tids)) with (0 + Z.of_nat (length tids)) by lia. generalize 0 as c.
  revert mem. induction tids as [|t tids IH]; intros mem c; cbn [fold_result].
  - simpl. do 2 f_equal. lia.
  - cbn [fst snd]. destruct (exec phase sc mem t) as [mem'|]; [|done]. cbn [mbind result_bind].
    rewrite IH. cbn [length]. destruct (fold_result _ mem' tids); [|done]. simpl. do 2 f_equal. lia.
Qed.

(** The workers of a phase, one after the other, each arriving once. *)
Lemma workers_fold (phase : PhasePlan) (workers n k gen : Z) (mem : D) :
  phase_task_count phase = Ok n → 1 ≤ workers → 0 ≤ k ≤ workers →
  fold_result (worker_step body phase workers sc) (mem, [], mk_barrier workers gen ∅) (zrange k) =
    mem' ← fold_result (exec phase sc) mem (w ← zrange k; stride_ids w n workers);
    Ok (mem', (λ w, Z.of_nat (length (stride_ids w n workers))) <$> zrange k,
        mk_barrier workers gen (list_to_set (zrange k))).
Proof.
  intros Hn Hw Hk. destruct Hk as [Hk Hkw]. revert Hkw. pattern k. apply natlike_ind; [done| |done].
  clear k Hk. intros k Hk IH Hkw. rewrite <- Z.add_1_r in *. rewrite zrange_S by done.
  rewrite fold_result_app, IH by lia. clear IH. rewrite bind_app, fold_result_app.
  destruct (fold_result (exec phase sc) mem _) as [mem'|]; [|done].
  cbn [mbind result_bind fold_result]. unfold worker_step at 1.
  rewrite (worker_share_fold phase workers n) by done. simpl. rewrite app_nil_r.
  destruct (fold_result _ mem' _) as [mem''|]; [|done]. simpl.
  unfold on_barrier, arrive. cbn [gb_arrivals gb_workers gb_generation].
  rewrite decide_False.
  2: { rewrite elem_of_list_to_set, elem_of_zrange. lia. }
  rewrite (proj2 (Z.leb_le 0 k)), (proj2 (Z.ltb_lt k workers)) by lia. simpl.
  rewrite fmap_app. do 3 f_equal. rewrite list_to_set_app_L. simpl. set_solver.
Qed.
End shares.

Lemma barrier_release (workers gen : Z) :
  on_barrier release (mk_barrier workers gen (list_to_set (zrange workers)))
  = Ok (gen, mk_barrier workers (gen + 1) ∅).
Proof.
  unfold on_barrier, release, missing_workers. simpl. by rewrite decide_True by set_solver.
Qed.

(** ** What an invocation computes *)
Section invocation.
Context {D : Type} (body : string → TaskFamily → list Z → scalars → D → result D).
Context (fill_nan : Z → D → D) (all_nan : Z → D → bool).
Context (canary : bool) (plan : option WorkspacePlan) (sc : scalars).

Abbreviation exec := (execute_task body).
Abbreviation check := (canary_check fill_nan all_nan canary plan).

(** The reference: all tasks of a phase in id order, phase after phase. *)
Definition reference_phase (mem : D) (phase : PhasePlan) : result D :=
  n ← phase_task_count phase;
  mem' ← fold_result (exec phase sc) mem (zrange n);
  check phase mem'.

Definition reference_run (schedule : PhaseSchedule) (mem : D) : result D :=
  fold_result reference_phase mem (ps_phases schedule).

(** Distinct tasks of one phase commute. *)
Definition independent (phase : PhasePlan) : Prop := ∀ n t1 t2,
  phase_task_count phase = Ok n → 0 ≤ t1 < n → 0 ≤ t2 < n → t1 ≠ t2 →
  commute (exec phase sc) t1 t2.

Lemma run_phase_ok (workers gen n : Z) (mem : D) (tr : ExecutionTrace) (phase : PhasePlan) :
  phase_task_count phase = Ok n → 0 ≤ n → 1 ≤ workers → independent phase →
  run_phase body fill_nan all_nan workers canary plan sc (mem, tr, mk_barrier workers gen ∅) phase =
    mem' ← reference_phase mem phase;
    Ok (mem', mk_trace (tr_kernel_launches tr) (tr_grid_barriers tr + 1)
                (tr_phases tr ++ [mk_stat (pp_index phase) (phase_kind phase) n (share_sizes n workers) gen])
                (tr_task_executions tr + n),
        mk_barrier workers (gen + 1) ∅).
Proof.
  intros Hn Hpos Hw Hind. unfold run_phase, reference_phase. rewrite Hn.
  rewrite (workers_fold body sc phase workers n workers gen mem Hn Hw) by lia.
  rewrite (fold_result_perm (exec phase sc) _ (zrange n)).
  - cbn [mbind result_bind]. destruct (fold_result _ mem (zrange n)) as [mem'|]; [|done].
    cbn [mbind result_bind]. rewrite barrier_release. cbn [mbind result_bind].
    change (_ <$> zrange workers) with (share_sizes n workers). rewrite share_sizes_total by done.
    by destruct (check phase mem').
  - by apply stride_shares.
  - intros x y Hx Hy. rewrite stride_shares in Hx, Hy by done. apply elem_of_zrange in Hx, Hy.
    by eapply Hind.
  - rewrite stride_shares by done. apply NoDup_zrange.
Qed.

Lemma run_phases_ok (workers : Z) (phases : list PhasePlan) (i : nat) (mem : D) (tr : ExecutionTrace) :
  1 ≤ workers →
  (∀ p, p ∈ phases → independent p ∧ ∃ n, phase_task_count p = Ok n ∧ 0 ≤ n) →
  fold_result (run_phase body fill_nan all_nan workers canary plan sc)
    (mem, tr, mk_barrier workers (Z.of_nat i) ∅) phases =
    mem' ← fold_result reference_phase mem phases;
    Ok (mem', mk_trace (tr_kernel_launches tr) (tr_grid_barriers tr + Z.of_nat (length phases))
                (tr_phases tr ++ imap (λ j, phase_stat workers (i + j)) phases)
                (tr_task_executions tr + zsum ((λ p, ok_default 0 (phase_task_count p)) <$> phases)),
        mk_barrier workers (Z.of_nat i + Z.of_nat (length phases)) ∅).
Proof.
  intros Hw. revert i mem tr. induction phases as [|p phases IH]; intros i mem tr Hp.
  - simpl. rewrite app_nil_r. destruct tr. simpl. do 4 f_equal; lia.
  - destruct (Hp p ltac:(left)) as [Hind (n & Hn & Hpos)]. cbn [fold_result].
    rewrite (run_phase_ok workers (Z.of_nat i) n) by done.
    destruct (reference_phase mem p) as [mem'|]; [|done]. cbn [mbind result_bind].
    replace (Z.of_nat i + 1) with (Z.of_nat (S i)) by lia. rewrite IH by (intros; apply Hp; by right).
    destruct (fold_result reference_phase mem' phases) as [mem''|]; [|done]. cbn [mbind result_bind].
    cbn [tr_kernel_launches tr_grid_barriers tr_phases tr_task_executions length].
    assert (Hst : mk_stat (pp_index p) (phase_kind p) n (share_sizes n workers) (Z.of_nat i)
                  = phase_stat workers (i + 0) p).
    { unfold phase_stat. rewrite Hn, Nat.add_0_r. done. }
    rewrite Hst, <- app_assoc, fmap_cons, Hn. cbn [app imap ok_default].
    assert (Him : imap (λ j, phase_stat workers (S i + j)) phases
                  = imap ((λ j, phase_stat workers (i + j)) ∘ S) phases).
    { apply imap_ext. intros j q _. simpl. f_equal. lia. }
    rewrite Him, zsum_cons, !Z.add_assoc.
    replace (Z.of_nat (S i) + Z.of_nat (length phases))
      with (Z.of_nat i + Z.of_nat (S (length phases))) by lia.
    replace (tr_grid_barriers tr + 1 + Z.of_nat (length phases))
      with (tr_grid_barriers tr + Z.of_nat (S (length phases))) by lia.
    done.
Qed.
End invocation.

(** Every invocation that returns is one launch and one barrier per phase. *)
Lemma run_phases_trace {D : Type} (body : string → TaskFamily → list Z → scalars → D → result D)
    (fill_nan : Z → D → D) (all_nan : Z → D → bool) (canary : bool) (plan : option WorkspacePlan)
    (sc : scalars) (workers : Z) (phases : list PhasePlan) (st st' : D * ExecutionTrace * SimulatedGridBarrier) :
  fold_result (run_phase body fill_nan all_nan workers canary plan sc) st phases = Ok st' →
  tr_kernel_launches st'.1.2 = tr_kernel_launches st.1.2
  ∧ tr_grid_barriers st'.1.2 = tr_grid_barriers st.1.2 + Z.of_nat (length phases).
Proof.
  revert st. induction phases as [|p phases IH]; intros [[mem tr] b] H; cbn [fold_result] in H.
  - injection H as <-. cbn. lia.
  - destruct (run_phase _ _ _ _ _ _ _ _ p) as [st1|] eqn:E; [|done]. cbn in H. destruct (IH _ H) as [-> ->].
    unfold run_phase in E. res_inv. cbn. lia.
Qed.

Lemma run_trace {D : Type} (body : string → TaskFamily → list Z → scalars → D → result D)
    (fill_nan : Z → D → D) (all_nan : Z → D → bool) (workers : Z) (canary : bool) (plan : option WorkspacePlan)
    (schedule : PhaseSchedule) (sc : scalars) (mem mem' : D) (tr : ExecutionTrace) :
  run body fill_nan all_nan workers canary plan schedule sc mem new_trace = Ok (mem', tr) →
  tr_kernel_launches tr = 1 ∧ tr_grid_barriers tr = num_phases schedule.
Proof.
  unfold run. destruct (fold_result _ _ _) as [ [ [m t] b]|] eqn:E; [|done]. intros [= _ <-].
  by apply run_phases_trace in E.
Qed.

(** The executor against the sequential reference. *)
Lemma run_refines {D : Type}
    (body : string → TaskFamily → list Z → scalars → D → result D)
    (fill_nan : Z → D → D) (all_nan : Z → D → bool) (canary : bool) (plan : option WorkspacePlan)
    (sc : scalars) (schedule : PhaseSchedule) (workers : Z) (mem : D) (tr : ExecutionTrace) :
  1 ≤ workers →
  (∀ p, p ∈ ps_phases schedule →
     independent body sc p ∧ ∃ n, phase_task_count p = Ok n ∧ 0 ≤ n) →
  run body fill_nan all_nan workers canary plan schedule sc mem tr =
    mem' ← reference_run body fill_nan all_nan canary plan sc schedule mem;
    Ok (mem', mk_trace (tr_kernel_launches tr + 1) (tr_grid_barriers tr + num_phases schedule)
                (tr_phases tr ++ imap (phase_stat workers) (ps_phases schedule))
                (tr_task_executions tr
                 + zsum ((λ p, ok_default 0 (phase_task_count p)) <$> ps_phases schedule))).
Proof.
  intros Hw Hp. unfold run, new_barrier, reference_run.
  rewrite (run_phases_ok body fill_nan all_nan canary plan sc workers (ps_phases schedule) 0) by done.
  by destruct (fold_result _ mem _).
Qed.

(** C19. One invocation of the executor is one kernel launch, one grid barrier
    per phase and exactly the tasks of the schedule; when the tasks of each
    phase are independent it leaves the memory (or raises the exception) of
    running the tasks one by one in id order, whatever the worker count: no
    barrier error can occur and the strided distribution is unobservable. *)
Theorem run_refines_reference {D : Type}
    (body : string → TaskFamily → list Z → scalars → D → result D)
    (fill_nan : Z → D → D) (all_nan : Z → D → bool) (canary : bool) (plan : option WorkspacePlan)
    (sc : scalars) (schedule : PhaseSchedule) (workers : Z) (mem : D) (tr : ExecutionTrace) :
  1 ≤ workers →
  (∀ p, p ∈ ps_phases schedule →
     independent body sc p ∧ ∃ n, phase_task_count p = Ok n ∧ 0 ≤ n) →
  run body fill_nan all_nan workers canary plan schedule sc mem tr =
    mem' ← reference_run body fill_nan all_nan canary plan sc schedule mem;
    Ok (mem', mk_trace (tr_kernel_launches tr + 1) (tr_grid_barriers tr + num_phases schedule)
                (tr_phases tr ++ imap (phase_stat workers) (ps_phases schedule))
                (tr_task_executions tr
                 + zsum ((λ p, ok_default 0 (phase_task_count p)) <$> ps_phases schedule))).
Proof. apply run_refines. Qed.

(** *** Witness: the memory counts the elements written *)
Definition ex_body_count (kind : string) (f : TaskFamily) (cs : list Z) (sc : scalars) (mem : Z)
    : result Z := Ok (mem + 1 + zsum cs).

Lemma ex_independent : independent ex_body_count ∅ ex_phase.
Proof.
  intros n t1 t2 Hn H1 H2 _ mem. vm_compute in Hn. injection Hn as <-.
  assert (Hex : ∀ t, 0 ≤ t < 7 → ∃ k, ∀ m, execute_task ex_body_count ex_phase ∅ m t = Ok (m + k)).
  { intros t Ht. assert (Hin : t ∈ zrange 7) by (by apply elem_of_zrange).
    change (zrange 7) with [0; 1; 2; 3; 4; 5; 6] in Hin.
    repeat (apply elem_of_cons in Hin as [->|Hin]); [..|by apply not_elem_of_nil in Hin];
      eexists; intros m; unfold execute_task, ex_body_count; simpl; rewrite <- Z.add_assoc; reflexivity. }
  destruct (Hex t1 H1) as [k1 E1], (Hex t2 H2) as [k2 E2].
  rewrite E1, E2. simpl. rewrite E1, E2. f_equal. lia.
Qed.

Lemma run_refines_reference_witness :
  run ex_body_count (λ _ m, m) (λ _ _, true) 3 true None (mk_schedule [ex_phase] 3) ∅ 0 new_trace
  = Ok (16, mk_trace 1 1 [mk_stat 0 "elementwise" 7 [3; 2; 2] 0] 7).
Proof.
  rewrite (run_refines_reference ex_body_count (λ _ m, m) (λ _ _, true) true None ∅
    (mk_schedule [ex_phase] 3) 3 0 new_trace).
  - vm_compute. reflexivity.
  - lia.
  - intros p Hp. apply list_elem_of_singleton in Hp as ->. split; [apply ex_independent|].
    exists 7. split; [vm_compute; reflexivity|lia].
Defined.
