(* ===== verification/Arrays.v ===== *)
(** * Arrays of the reference executor

    The numerical task bodies are numpy code over views of flat storage
    arrays.  This file has the arrays: index expressions, broadcasting and
    views with their loads and stores, as numpy documents them.  The
    arithmetic of numpy scalars is a parameter, the class [Numpy]; so are the
    reductions, whose order of accumulation numpy does not fix. *)

From S2P Require Import Prelude Indexing OperatorIR.
Local Open Scope Z_scope.

(** ** Scalars *)

(** The dtypes the bodies name, and that of a storage array. *)
Inductive npdtype : Type := float64 | float32 | int64 | int32 | storage_dtype (name : string).

Class Numpy (V : Type) : Type := {
  np_undef : V;        (* memory outside the arrays *)
  np_nan : V; np_neg_inf : V; np_pi : V;
  np_int : Z → V; np_float : pyfloat → V;
  np_astype : npdtype → V → V;
  np_toint : V → result Z;    (* [int(x)], which raises on a NaN *)
  np_add : V → V → V; np_sub : V → V → V; np_mul : V → V → V; np_div : V → V → V;
  np_power : V → Z → V; np_maximum : V → V → V; np_minimum : V → V → V; np_logaddexp : V → V → V;
  np_negative : V → V; np_exp : V → V; np_exp2 : V → V; np_log : V → V; np_log1p : V → V;
  np_sqrt : V → V; np_tanh : V → V; np_reciprocal : V → V;
  np_lt : V → V → bool; np_le : V → V → bool; np_eq : V → V → bool;
  np_isfinite : V → bool; np_isnan : V → bool;
  np_floating : npdtype → bool;       (* [dtype.kind == 'f'] *)
  np_sum : list V → V; np_mean : list V → V; np_max : list V → V;
  np_dot : list V → list V → V; np_einsum : list V → list V → V;
  np_argsort : list V → list Z;       (* [kind="stable"] *)
  np_sort : list V → list V;
  np_f32_bits : V → Z; np_of_f32_bits : Z → V   (* [.view(np.uint32)] and back *)
}.

(** ** Index expressions *)
Inductive index : Type :=
  | At (i : Z)
  | Slice (lo hi : option Z) (step : Z)
  | Fancy (l : list Z).

Definition All : index := Slice None None 1.
Definition Span (lo hi : Z) : index := Slice (Some lo) (Some hi) 1.
Definition From (lo : Z) : index := Slice (Some lo) None 1.
Definition Upto (hi : Z) : index := Slice None (Some hi) 1.

(** A negative index counts from the end. *)
Definition norm_index (n i : Z) : result Z :=
  if (0 <=? i) && (i <? n) then Ok i
  else if (- n <=? i) && (i <? 0) then Ok (i + n)
  else Err (IndexError "index is out of bounds for axis").

(** [slice(lo, hi, step).indices(n)] *)
Definition slice_positions (n : Z) (lo hi : option Z) (step : Z) : result (list Z) :=
  let '(lower, upper) := if step <? 0 then (-1, n - 1) else (0, n) in
  let clamp x := Z.max lower (Z.min upper (if x <? 0 then x + n else x)) in
  let start := match lo with Some x => clamp x | None => if step <? 0 then upper else lower end in
  let stop := match hi with Some x => clamp x | None => if step <? 0 then lower else upper end in
  py_range start stop step.

(** The positions an index selects on an axis, and whether the axis stays. *)
Definition resolve_index (ix : index) (n : Z) : result (list Z * bool) :=
  match ix with
  | At i => k ← norm_index n i; Ok ([k], false)
  | Slice lo hi step => ks ← slice_positions n lo hi step; Ok (ks, true)
  | Fancy l => ks ← map_result (norm_index n) l; Ok (ks, true)
  end.

(** Axes without an index are selected whole. *)
Fixpoint resolve (ixs : list index) (shape : list Z) : result (list (list Z * bool)) :=
  match ixs, shape with
  | ix :: ixs, n :: shape => s ← resolve_index ix n; ss ← resolve ixs shape; Ok (s :: ss)
  | [], n :: shape => s ← resolve_index All n; ss ← resolve [] shape; Ok (s :: ss)
  | [], [] => Ok []
  | _ :: _, [] => Err (IndexError "too many indices for array")
  end.

(** The index vectors of a product of axes, the last varying fastest. *)
Fixpoint cart (axes : list (list Z)) : list (list Z) :=
  match axes with
  | [] => [[]]
  | l :: axes => i ← l; cons i <$> cart axes
  end.
Definition indices (shape : list Z) : list (list Z) := cart (zrange <$> shape).

Definition sel_shape (sel : list (list Z * bool)) : list Z :=
  (λ s : list Z * bool, Z.of_nat (length s.1)) <$> filter (λ s, s.2 = true) sel.
Definition sel_cells (sel : list (list Z * bool)) : list (list Z) := cart sel.*1.

(** ** Broadcasting *)

(** The shape of a binary operation, from the last axes. *)
Fixpoint broadcast_rev (s1 s2 : list Z) : result (list Z) :=
  match s1, s2 with
  | [], _ => Ok s2
  | _, [] => Ok s1
  | d1 :: s1, d2 :: s2 =>
      d ← (if (d1 =? d2) || (d2 =? 1) then Ok d1
           else if d1 =? 1 then Ok d2
           else Err (ValueError "operands could not be broadcast together"));
      ds ← broadcast_rev s1 s2; Ok (d :: ds)
  end.
Definition broadcast (s1 s2 : list Z) : result (list Z) :=
  reverse <$> broadcast_rev (reverse s1) (reverse s2).

(** The element of an operand of shape [s] that a result index uses. *)
Definition bidx (s idx : list Z) : list Z :=
  zip_with (λ d i, if d =? 1 then 0 else i) s (drop (length idx - length s) idx).

(** ** Arrays *)
Section arrays.
Context {V : Type} `{!Numpy V}.

Record nd : Type := mk_nd { nd_shape : list Z; nd_data : list V }.

Definition nd_at (a : nd) (idx : list Z) : V :=
  default np_undef (nd_data a !! Z.to_nat (ravel (nd_shape a) idx)).
Definition tab (shape : list Z) (f : list Z → V) : nd := mk_nd shape (f <$> indices shape).
Definition scalar (x : V) : nd := mk_nd [] [x].
Definition vec (l : list V) : nd := mk_nd [Z.of_nat (length l)] l.
Definition full (shape : list Z) (x : V) : nd := tab shape (λ _, x).
Definition nd_item (a : nd) : V := nd_at a [].
Definition nd_map (f : V → V) (a : nd) : nd := mk_nd (nd_shape a) (f <$> nd_data a).

(** [a[ixs]] *)
Definition nd_get (a : nd) (ixs : list index) : result nd :=
  sel ← resolve ixs (nd_shape a); Ok (mk_nd (sel_shape sel) (nd_at a <$> sel_cells sel)).

Definition nd_binop (f : V → V → V) (a b : nd) : result nd :=
  s ← broadcast (nd_shape a) (nd_shape b);
  Ok (tab s (λ idx, f (nd_at a (bidx (nd_shape a) idx)) (nd_at b (bidx (nd_shape b) idx)))).

(** The values assigned to a selection: broadcast to its shape. *)
Definition broadcast_to (a : nd) (s : list Z) : result nd :=
  s' ← broadcast (nd_shape a) s;
  if decide (s' = s) then Ok (tab s (λ idx, nd_at a (bidx (nd_shape a) idx)))
  else Err (ValueError "could not broadcast input array").

(** [a[ixs] = b] on an array of its own. *)
Definition nd_set (a : nd) (ixs : list index) (b : nd) : result nd :=
  sel ← resolve ixs (nd_shape a);
  vals ← broadcast_to b (sel_shape sel);
  Ok (mk_nd (nd_shape a)
        (foldl (λ data iv, <[Z.to_nat (ravel (nd_shape a) iv.1) := iv.2]> data) (nd_data a)
           (zip (sel_cells sel) (nd_data vals)))).

(** [a @ b] for one- and two-dimensional operands. *)
Definition dims2 (a : nd) : result (Z * Z) :=
  match nd_shape a with [m; n] => Ok (m, n) | _ => Err (ValueError "matmul: 2-d operand") end.
Definition nd_row (a : nd) (i n : Z) : list V := (λ k, nd_at a [i; k]) <$> zrange n.
Definition nd_col (a : nd) (j n : Z) : list V := (λ k, nd_at a [k; j]) <$> zrange n.

Definition nd_matmul (a b : nd) : result nd :=
  let mismatch := ValueError "matmul: size mismatch" in
  match nd_shape a, nd_shape b with
  | [k], [k'] => if k =? k' then Ok (scalar (np_dot (nd_data a) (nd_data b))) else Err mismatch
  | [m; k], [k'] =>
      if k =? k' then Ok (vec ((λ i, np_dot (nd_row a i k) (nd_data b)) <$> zrange m)) else Err mismatch
  | [k], [k'; n] =>
      if k =? k' then Ok (vec ((λ j, np_dot (nd_data a) (nd_col b j k)) <$> zrange n)) else Err mismatch
  | [m; k], [k'; n] =>
      if k =? k' then Ok (tab [m; n] (λ idx, np_dot (nd_row a (nth 0 idx 0) k) (nd_col b (nth 1 idx 0) k)))
      else Err mismatch
  | _, _ => Err mismatch
  end.

(** Reductions: of the whole array, or along one axis of a matrix. *)
Definition nd_reduce (f : list V → V) (a : nd) : nd := scalar (f (nd_data a)).
Definition nd_reduce0 (f : list V → V) (a : nd) : result nd :=
  '(m, n) ← dims2 a; Ok (vec ((λ j, f (nd_col a j m)) <$> zrange n)).
Definition nd_reduce1 (f : list V → V) (a : nd) : result nd :=
  '(m, n) ← dims2 a; Ok (vec ((λ i, f (nd_row a i n)) <$> zrange m)).

(** [a.max()], which raises on an empty array. *)
Definition nd_max (a : nd) : result nd :=
  match nd_data a with
  | [] => Err (ValueError "zero-size array to reduction operation maximum")
  | _ => Ok (nd_reduce np_max a)
  end.

(** [a[None, :]] and [a[:, None]] of a vector, [a.T] of a matrix. *)
Definition nd_row_of (a : nd) : nd := mk_nd (1 :: nd_shape a) (nd_data a).
Definition nd_col_of (a : nd) : nd := mk_nd (nd_shape a ++ [1]) (nd_data a).
Definition nd_transpose (a : nd) : result nd :=
  '(m, n) ← dims2 a; Ok (tab [n; m] (λ idx, nd_at a [nth 1 idx 0; nth 0 idx 0])).
Definition nd_reshape (a : nd) (shape : list Z) : result nd :=
  if numel_of (nd_shape a) =? numel_of shape then Ok (mk_nd shape (nd_data a))
  else Err (ValueError "cannot reshape array").

(** [np.concatenate] along the first axis. *)
Definition nd_concat (a b : nd) : result nd :=
  match nd_shape a, nd_shape b with
  | d1 :: s1, d2 :: s2 =>
      if decide (s1 = s2) then Ok (mk_nd (d1 + d2 :: s1) (nd_data a ++ nd_data b))
      else Err (ValueError "all the input array dimensions must match")
  | _, _ => Err (ValueError "zero-dimensional arrays cannot be concatenated")
  end.
End arrays.
Arguments nd V : clear implicits.
Arguments mk_nd {V}.

(** ** Expressions over arrays

    Operands are results, so an expression raises what its first failing
    operand or operation raises. *)
Declare Scope np_scope.
Delimit Scope np_scope with np.

Section expressions.
Context {V : Type} `{!Numpy V}.
Abbreviation expr := (result (nd V)).

Definition e_bin (f : V → V → V) (a b : expr) : expr := x ← a; y ← b; nd_binop f x y.
Definition e_map (f : V → V) (a : expr) : expr := nd_map f <$> a.
Definition e_matmul (a b : expr) : expr := x ← a; y ← b; nd_matmul x y.
Definition e_get (a : expr) (ixs : list index) : expr := x ← a; nd_get x ixs.
Definition e_reduce (f : list V → V) (a : expr) : expr := nd_reduce f <$> a.
Definition e_reduce0 (f : list V → V) (a : expr) : expr := x ← a; nd_reduce0 f x.
Definition e_reduce1 (f : list V → V) (a : expr) : expr := x ← a; nd_reduce1 f x.
Definition e_max (a : expr) : expr := x ← a; nd_max x.
Definition e_const (x : V) : expr := Ok (scalar x).
Definition e_float (m e : Z) : expr := e_const (np_float (FLit m e)).
Definition e_int (z : Z) : expr := e_const (np_int z).
End expressions.

Notation "a + b" := (e_bin np_add a b) : np_scope.
Notation "a - b" := (e_bin np_sub a b) : np_scope.
Notation "a * b" := (e_bin np_mul a b) : np_scope.
Notation "a / b" := (e_bin np_div a b) : np_scope.
Notation "- a" := (e_map np_negative a) : np_scope.
Infix "@@" := e_matmul (at level 40, left associativity) : np_scope.

(** ** Views of storage *)

(** An address: storage id and element. *)
Abbreviation addr := (Z * Z)%type.

(** What [as_strided] makes of a tensor of the graph: no bound is checked
    when an element is accessed. *)
Record view : Type := mk_view {
  vw_storage : Z;
  vw_offset : Z;
  vw_shape : list Z;
  vw_strides : list Z;
  vw_dtype : npdtype
}.

Definition view_of (dtype : npdtype) (tv : TensorValue) : view :=
  mk_view (tv_storage_id tv) (tv_offset tv) (tv_shape tv) (tv_strides tv) dtype.

Definition cell_addr (v : view) (idx : list Z) : addr := (vw_storage v, vw_offset v + zdot idx (vw_strides v)).
Definition vw_ndim (v : view) : nat := length (vw_shape v).

(** Whether [reshape(-1)] is a view, not a copy: the axes can be merged. *)
Fixpoint mergeable (dims : list (Z * Z)) : bool :=
  match dims with
  | (_, s) :: ((d', s') :: _) as rest => (s =? d' * s') && mergeable rest
  | _ => true
  end.
Definition flattens (v : view) : bool :=
  mergeable (filter (λ p : Z * Z, p.1 ≠ 1) (zip (vw_shape v) (vw_strides v))).

Section memory.
Context {V : Type} `{!Numpy V}.
Abbreviation mem := (gmap addr V).

Definition m_read (m : mem) (a : addr) : V := default np_undef (m !! a).

Definition load_cells (v : view) (shape : list Z) (cells : list (list Z)) : M mem (nd V) := λ m,
  (Ok (mk_nd shape ((λ idx, m_read m (cell_addr v idx)) <$> cells)), m).

Definition write_cells (v : view) (ivs : list (list Z * V)) (m : mem) : mem :=
  foldl (λ m iv, <[cell_addr v iv.1 := np_astype (vw_dtype v) iv.2]> m) m ivs.
Definition store_cells (v : view) (cells : list (list Z)) (vals : nd V) : M mem unit := λ m,
  (Ok tt, write_cells v (zip cells (nd_data vals)) m).

(** [v[ixs]] and [v[ixs] = a] *)
Definition load (v : view) (ixs : list index) : M mem (nd V) :=
  sel ← lift (resolve ixs (vw_shape v)); load_cells v (sel_shape sel) (sel_cells sel).
Definition store (v : view) (ixs : list index) (a : nd V) : M mem unit :=
  sel ← lift (resolve ixs (vw_shape v));
  vals ← lift (broadcast_to a (sel_shape sel));
  store_cells v (sel_cells sel) vals.

(** [v[ixs].astype(np.float64)] *)
Definition load_f64 (v : view) (ixs : list index) : M mem (nd V) :=
  a ← load v ixs; mret (nd_map (np_astype float64) a).
(** [int(v[ixs])] and [float(v[ixs])] *)
Definition load_int (v : view) (ixs : list index) : M mem Z :=
  a ← load v ixs; lift (np_toint (nd_item a)).

(** [v.reshape(-1)[lo:hi]]; an assignment to a copy is lost. *)
Definition flat_cells (v : view) (lo hi : Z) : result (list (list Z)) :=
  ks ← slice_positions (numel_of (vw_shape v)) (Some lo) (Some hi) 1;
  Ok (map (unravel (vw_shape v)) ks).
Definition load_flat (v : view) (lo hi : Z) : M mem (nd V) :=
  cells ← lift (flat_cells v lo hi); load_cells v [Z.of_nat (length cells)] cells.
Definition store_flat (v : view) (lo hi : Z) (a : nd V) : M mem unit :=
  cells ← lift (flat_cells v lo hi);
  vals ← lift (broadcast_to a [Z.of_nat (length cells)]);
  if flattens v then store_cells v cells vals else mret tt.
End memory.
