(* ===== verification/Effects.v ===== *)
(** * What a computation on memory touches

    The task bodies are computations on a finite map of addresses.  [stays R W p]
    says that [p] depends on the addresses of [R] only and changes addresses
    of [W] only; computations that do not touch each other's addresses
    commute. *)

From S2P Require Import Prelude Indexing OperatorIR Arrays Execution.
Local Open Scope Z_scope.

(** ** Results up to the exception *)
Definition same {A} (r1 r2 : result A) : Prop := ∀ x, r1 = Ok x ↔ r2 = Ok x.

#[export] Instance same_equivalence {A} : Equivalence (same (A := A)).
Proof. split; [by intros r x|by intros r1 r2 H x; rewrite (H x)|intros r1 r2 r3 H1 H2 x; by rewrite (H1 x)]. Qed.

Lemma same_eq {A} (r1 r2 : result A) : r1 = r2 → same r1 r2.
Proof. by intros ->. Qed.

Lemma same_err {A} (e1 e2 : exn) : same (A := A) (Err e1) (Err e2).
Proof. by intros x. Qed.

Lemma same_ok {A} (x : A) (r : result A) : same (Ok x) r → r = Ok x.
Proof. intros H. by apply (H x). Qed.

Lemma same_cases {A} (r1 r2 : result A) :
  same r1 r2 → (∃ x, r1 = Ok x ∧ r2 = Ok x) ∨ (∃ e1 e2, r1 = Err e1 ∧ r2 = Err e2).
Proof.
  intros H. destruct r1 as [x|e1]; [left; exists x; split; [done|by apply same_ok]|].
  destruct r2 as [y|e2]; [|right; eauto]. specialize (H y). destruct H as [_ H]. by specialize (H eq_refl).
Qed.

Lemma same_bind {A B} (r1 r2 : result A) (k1 k2 : A → result B) :
  same r1 r2 → (∀ x, same (k1 x) (k2 x)) → same (r1 ≫= k1) (r2 ≫= k2).
Proof. intros [(x & -> & ->)|(e1 & e2 & -> & ->)]%same_cases Hk; [apply Hk|apply same_err]. Qed.

Lemma same_fold {A S} (f g : S → A → result S) (s : S) (l : list A) :
  (∀ s x, same (f s x) (g s x)) → same (fold_result f s l) (fold_result g s l).
Proof.
  intros H. revert s. induction l as [|x l IH]; intros s; cbn [fold_result]; [done|].
  apply same_bind; [apply H|apply IH].
Qed.

(** Forget which exception it is. *)
Definition hide {A} (r : result A) : result A := match r with Ok x => Ok x | Err _ => Err OutOfFuel end.

Lemma hide_same {A} (r : result A) : same (hide r) r.
Proof. by destruct r. Qed.

Lemma same_hide {A} (r1 r2 : result A) : same r1 r2 → hide r1 = hide r2.
Proof. by intros [(x & -> & ->)|(e1 & e2 & -> & ->)]%same_cases. Qed.

(** ** Computations *)
Section effects.
Context {V : Type}.
Abbreviation mem := (gmap addr V).

Definition agree (R : addr → Prop) (m1 m2 : mem) : Prop := ∀ a, R a → m1 !! a = m2 !! a.
Definition writes_in (W : addr → Prop) (upd : mem) : Prop := ∀ a, is_Some (upd !! a) → W a.

Definition stays (R W : addr → Prop) {A} (p : M mem A) : Prop := ∀ m1 m2, agree R m1 m2 →
  ∃ r upd, writes_in W upd ∧ p m1 = (r, upd ∪ m1) ∧ p m2 = (r, upd ∪ m2).

Lemma stays_weaken (R W R' W' : addr → Prop) {A : Type} (p : M mem A) :
  stays R W p → (∀ a, R a → R' a) → (∀ a, W a → W' a) → stays R' W' p.
Proof.
  intros H HR HW m1 m2 Hm. destruct (H m1 m2) as (r & upd & Hu & H1 & H2); [intros a Ha; by apply Hm, HR|].
  exists r, upd. split; [|done]. intros a Ha. by apply HW, Hu.
Qed.

Lemma stays_lift (R W : addr → Prop) {A} (r : result A) : stays R W (lift r).
Proof.
  intros m1 m2 _. exists r, ∅. split_and!; [by intros a [? Ha]; rewrite lookup_empty in Ha|..];
    by rewrite (left_id_L ∅ (∪)).
Qed.

Lemma stays_ret (R W : addr → Prop) {A} (x : A) : stays R W (mret x : M mem A).
Proof. apply (stays_lift R W (Ok x)). Qed.

Lemma stays_guard (R W : addr → Prop) (b : bool) (e : exn) : stays R W (guard_m b e).
Proof. apply stays_lift. Qed.

Lemma agree_overlay (R : addr → Prop) (upd m1 m2 : mem) : agree R m1 m2 → agree R (upd ∪ m1) (upd ∪ m2).
Proof. intros H a Ha. rewrite !lookup_union. by rewrite (H a Ha). Qed.

Lemma stays_bind (R W : addr → Prop) {A B : Type} (p : M mem A) (k : A → M mem B) :
  stays R W p → (∀ x, stays R W (k x)) → stays R W (p ≫= k).
Proof.
  intros Hp Hk m1 m2 Hm. destruct (Hp m1 m2 Hm) as (r & u & Hu & E1 & E2).
  unfold mbind, M_bind. rewrite E1, E2. destruct r as [x|e]; [|by exists (Err e), u].
  destruct (Hk x _ _ (agree_overlay R u m1 m2 Hm)) as (r' & u' & Hu' & E1' & E2').
  exists r', (u' ∪ u). rewrite E1', E2', !(assoc_L (∪)). split_and!; [|done|done].
  intros a [v Ha]. apply lookup_union_Some_raw in Ha as [Ha|[_ Ha]]; [apply Hu'|apply Hu]; by exists v.
Qed.

Lemma stays_for (R W : addr → Prop) {A B : Type} (f : B → A → M mem B) (x : B) (l : list A) :
  (∀ y a, a ∈ l → stays R W (f y a)) → stays R W (for_m f x l).
Proof.
  revert x. induction l as [|a l IH]; intros x H; cbn [for_m]; [apply stays_ret|].
  apply stays_bind; [apply H; left|]. intros y. apply IH. intros z b Hb. apply H. by right.
Qed.

(** A body as a step on memory. *)
Definition run_m {A} (p : M mem A) (m : mem) : result mem :=
  match p m with (Ok _, m') => Ok m' | (Err e, _) => Err e end.

(** [step] returns or raises depending on the addresses of [R] only, and so
    do the values it stores, to addresses of [W]. *)
Definition local_effect (step : mem → result mem) (R W : addr → Prop) : Prop := ∀ m1 m2, agree R m1 m2 →
  (∃ upd, writes_in W upd ∧ step m1 = Ok (upd ∪ m1) ∧ step m2 = Ok (upd ∪ m2))
  ∨ (∃ e, step m1 = Err e ∧ step m2 = Err e).

Lemma stays_local (R W : addr → Prop) {A} (p : M mem A) : stays R W p → local_effect (run_m p) R W.
Proof.
  intros H m1 m2 Hm. destruct (H m1 m2 Hm) as (r & u & Hu & E1 & E2). unfold run_m. rewrite E1, E2.
  destruct r; [left; eauto|right; eauto].
Qed.

Lemma local_effect_weaken (step : mem → result mem) (R W R' W' : addr → Prop) :
  local_effect step R W → (∀ a, R a → R' a) → (∀ a, W a → W' a) → local_effect step R' W'.
Proof.
  intros H HR HW m1 m2 Hm. destruct (H m1 m2) as [(u & Hu & E)|]; [intros a Ha; by apply Hm, HR| |by right].
  left. exists u. split; [|done]. intros a Ha. by apply HW, Hu.
Qed.

(** Neither writes what the other touches. *)
Definition no_conflict (R1 W1 R2 W2 : addr → Prop) : Prop :=
  ∀ a, (W1 a → ¬ R2 a ∧ ¬ W2 a) ∧ (W2 a → ¬ R1 a ∧ ¬ W1 a).

Lemma no_conflict_sym (R1 W1 R2 W2 : addr → Prop) : no_conflict R1 W1 R2 W2 → no_conflict R2 W2 R1 W1.
Proof. intros H a. destruct (H a) as [H1 H2]. tauto. Qed.

Lemma agree_after (R1 W1 R2 W2 : addr → Prop) (u m : mem) :
  no_conflict R1 W1 R2 W2 → writes_in W1 u → agree R2 m (u ∪ m).
Proof.
  intros Hn Hu a Ha. rewrite lookup_union_r; [done|]. destruct (u !! a) as [v|] eqn:E; [|done].
  destruct (Hn a) as [H _]. destruct (H (Hu a ltac:(by exists v))). tauto.
Qed.

Lemma local_effects_commute (x y : mem → result mem) (R1 W1 R2 W2 : addr → Prop) (m : mem) :
  local_effect x R1 W1 → local_effect y R2 W2 → no_conflict R1 W1 R2 W2 →
  same (m' ← x m; y m') (m' ← y m; x m').
Proof.
  intros Hx Hy Hn. pose proof (no_conflict_sym _ _ _ _ Hn) as Hn'.
  destruct (Hx m m ltac:(by intros a)) as [(u & Hu & E & _)|(e & E & _)].
  - rewrite E. cbn [mbind result_bind].
    destruct (Hy m (u ∪ m) (agree_after _ _ _ _ _ _ Hn Hu)) as [(w & Hw & E1 & E2)|(e & E1 & E2)].
    + rewrite E1, E2. cbn [mbind result_bind].
      destruct (Hx m (w ∪ m) (agree_after _ _ _ _ _ _ Hn' Hw)) as [(u' & Hu' & E3 & E4)|(e & E3 & _)]; [|congruence].
      rewrite E4. apply same_eq. f_equal. rewrite E in E3. injection E3 as E3.
      rewrite !(assoc_L (∪)). apply map_eq. intros a. destruct (Hn a) as [H1 H2].
      assert (Ea : (u ∪ m) !! a = (u' ∪ m) !! a) by (by rewrite E3).
      rewrite !lookup_union in *.
      destruct (w !! a) as [v|] eqn:Ew.
      * destruct (H2 (Hw a ltac:(by exists v))) as [_ H2'].
        assert (u !! a = None) as -> by (apply eq_None_not_Some; auto).
        assert (u' !! a = None) as -> by (apply eq_None_not_Some; auto). done.
      * by rewrite (left_id_L None (∪)), (right_id_L None (∪)).
    + rewrite E1, E2. apply same_err.
  - rewrite E. cbn [mbind result_bind].
    destruct (Hy m m ltac:(by intros a)) as [(w & Hw & E1 & _)|(e' & E1 & _)]; rewrite E1; [|apply same_err].
    cbn [mbind result_bind].
    destruct (Hx m (w ∪ m) (agree_after _ _ _ _ _ _ Hn' Hw)) as [(u' & Hu' & E3 & _)|(e' & _ & E4)]; [congruence|].
    rewrite E4. apply same_err.
Qed.
End effects.
