(* ===== verification/Equivalence.v ===== *)
(** * Two ways to execute a program

    The reference executor runs a schedule phase by phase, with a barrier of
    all workers after each phase.  The static worker schedule has no
    barriers: a worker runs the tasks of its sequence in order, each once its
    producers have finished.  For task bodies that stay inside the regions
    their tasks declare, both leave the same memory. *)

From S2P Require Import Prelude Indexing OperatorIR TaskIR SchedulePhase Kahn ScheduleStatic.
From S2P Require Import TileDependencies Memory Runtime Execution Arrays Effects.
Local Open Scope Z_scope.

(** ** Reordering along a partial order *)
Section reorder.
Context {S A : Type} (f : S → A → result S) (E : A → A → Prop).

(** Related elements appear in the order of the relation. *)
Definition respects (l : list A) : Prop :=
  ∀ i j x y, l !! i = Some x → l !! j = Some y → E x y → (i < j)%nat.

Definition unordered_commute (l : list A) : Prop := ∀ x y,
  x ∈ l → y ∈ l → x ≠ y → ¬ E x y → ¬ E y x → commute f x y.

Lemma respects_tail (x : A) (l : list A) : respects (x :: l) → respects l.
Proof. intros H i j y z Hi Hj Hyz. apply (H (Datatypes.S i) (Datatypes.S j) y z) in Hyz; [lia|done..]. Qed.

Lemma respects_delete (l1 l2 : list A) (x : A) : respects (l1 ++ x :: l2) → respects (l1 ++ l2).
Proof.
  intros H i j y z Hi Hj Hyz. set (n := length l1).
  set (up := λ k : nat, if decide (k < n)%nat then k else Datatypes.S k).
  assert (Hup : ∀ k w, (l1 ++ l2) !! k = Some w → (l1 ++ x :: l2) !! up k = Some w).
  { intros k w Hk. unfold up. case_decide.
    - rewrite lookup_app_l in * by done. done.
    - rewrite lookup_app_r in Hk by (unfold n in *; lia). rewrite lookup_app_r by (unfold n in *; lia).
      replace (Datatypes.S k - length l1)%nat with (Datatypes.S (k - length l1)) by (unfold n in *; lia). done. }
  pose proof (H (up i) (up j) y z (Hup _ _ Hi) (Hup _ _ Hj) Hyz) as Hlt. unfold up in Hlt.
  repeat case_decide; lia.
Qed.

(** An element that commutes with those before it can go first. *)
Lemma fold_result_front (x : A) (l1 l2 : list A) (s : S) :
  (∀ y, y ∈ l1 → commute f y x) → fold_result f s (l1 ++ x :: l2) = fold_result f s (x :: l1 ++ l2).
Proof.
  revert s. induction l1 as [|y l1 IH]; intros s Hc; [done|].
  cbn [app fold_result]. assert (Hyx : commute f y x) by (apply Hc; left). specialize (Hyx s).
  transitivity (s1 ← f s y; s2 ← f s1 x; fold_result f s2 (l1 ++ l2)).
  { destruct (f s y) as [s1|]; [|done]. simpl. rewrite IH by (intros; apply Hc; by right). done. }
  destruct (f s y) as [s1|], (f s x) as [s2|]; simpl in *; [by rewrite Hyx|by rewrite Hyx| |congruence].
  by rewrite <- Hyx.
Qed.

(** Two linear extensions of the relation compute the same. *)
Lemma fold_linear_extension (l1 l2 : list A) (s : S) :
  NoDup l1 → l1 ≡ₚ l2 → respects l1 → respects l2 → unordered_commute l1 →
  fold_result f s l1 = fold_result f s l2.
Proof.
  revert l2 s. induction l1 as [|x l1 IH]; intros l2 s Hnd Hp H1 H2 Hc.
  { by apply Permutation_nil_l in Hp as ->. }
  assert (Hx : x ∈ l2) by (rewrite <- Hp; left).
  apply list_elem_of_split in Hx as (a & b & ->). apply NoDup_cons in Hnd as [Hx Hnd].
  assert (Hp' : l1 ≡ₚ a ++ b) by (apply (Permutation_cons_inv (a := x)); rewrite Hp; by rewrite Permutation_middle).
  rewrite fold_result_front.
  - cbn [fold_result]. destruct (f s x) as [s'|]; [|done]. cbn [mbind result_bind]. apply IH; try done.
    + by eapply respects_tail.
    + by eapply respects_delete.
    + intros y z Hy Hz. apply Hc; by right.
  - intros y Hy. assert (Hyl : y ∈ l1) by (rewrite Hp'; apply elem_of_app; by left).
    assert (Hne : y ≠ x) by (by intros ->).
    apply list_elem_of_lookup in Hy as [j Hj]. pose proof (lookup_lt_Some _ _ _ Hj) as Hlt.
    assert (Hyx : ¬ E y x).
    { apply list_elem_of_lookup in Hyl as [i Hi]. intros He.
      pose proof (H1 (Datatypes.S i) 0%nat y x Hi eq_refl He). lia. }
    assert (Hxy : ¬ E x y).
    { intros He. assert (Hjx : (a ++ x :: b) !! j = Some y) by (by rewrite lookup_app_l).
      pose proof (H2 (length a) j x y (list_lookup_middle _ _ _ _ eq_refl) Hjx He). lia. }
    apply Hc; [by right|left|done..].
Qed.
End reorder.

(** ** Up to the exception *)
Section commuting.
Context {S A : Type} (f : S → A → result S).

(** Either order returns the same state, or raises. *)
Definition commutes (x y : A) : Prop := ∀ s, same (s' ← f s x; f s' y) (s' ← f s y; f s' x).

Definition hidden (s : S) (x : A) : result S := hide (f s x).

Lemma commutes_hidden (x y : A) : commutes x y → commute hidden x y.
Proof.
  intros H s. unfold hidden. specialize (H s). destruct (f s x) as [s1|], (f s y) as [s2|]; simpl in *.
  - by apply same_hide.
  - by apply same_hide in H.
  - by apply same_hide in H.
  - done.
Qed.

Lemma fold_hidden (s : S) (l : list A) : fold_result hidden s l = hide (fold_result f s l).
Proof.
  revert s. induction l as [|x l IH]; intros s; cbn [fold_result]; [done|].
  change (hidden s x) with (hide (f s x)). destruct (f s x); [apply IH|done].
Qed.

Lemma fold_extension_same (E : A → A → Prop) (l1 l2 : list A) (s : S) :
  NoDup l1 → l1 ≡ₚ l2 → respects E l1 → respects E l2 →
  (∀ x y, x ∈ l1 → y ∈ l1 → x ≠ y → ¬ E x y → ¬ E y x → commutes x y) →
  same (fold_result f s l1) (fold_result f s l2).
Proof.
  intros Hnd Hp H1 H2 Hc. rewrite <- (hide_same (fold_result f s l1)), <- (hide_same (fold_result f s l2)).
  rewrite <- !fold_hidden. apply same_eq. apply (fold_linear_extension _ E); [done..|].
  intros x y Hx Hy Hne Hxy Hyx. by apply commutes_hidden, Hc.
Qed.
End commuting.

(** ** Executing tasks by key *)
Section execution.
Context {V : Type}.
Abbreviation mem := (gmap addr V).
Context (body : string → TaskFamily → list Z → scalars → mem → result mem) (sc : scalars).

(** One task: decode its id, dispatch on the kind of its family. *)
Definition exec_task (f : TaskFamily) (t : Z) (m : mem) : result mem :=
  cs ← family_coords f t;
  b ← of_option (ExecutorError "no reference body for task kind") (body_of body (tf_kind f));
  b f cs sc m.

Definition exec_key (fams : list TaskFamily) (m : mem) (k : TaskKey) : result mem :=
  match list_find (λ f, tf_family_id f = k.1) fams with
  | Some (_, f) => exec_task f k.2 m
  | None => Err (KeyError "task")
  end.

(** The addresses a task declares to read, respectively to write. *)
Definition task_touches (w : bool) (f : TaskFamily) (t : Z) (a : addr) : Prop :=
  ∃ rs r, task_regions w f t = Ok rs ∧ r ∈ rs ∧ rg_storage_id r = a.1 ∧ region_addr r a.2.

(** Bodies stay inside the regions of their tasks and of read-only control
    tensors [C] (slot tables, row positions), and distinct tasks of one family
    commute. *)
Record bodies_local (C : addr → Prop) (fams : list TaskFamily) (count : TaskFamily → Z) : Prop := {
  bl_coords : ∀ f t, f ∈ fams → 0 ≤ t < count f → is_ok (family_coords f t) = true;
  bl_effect : ∀ f t, f ∈ fams → 0 ≤ t < count f →
    local_effect (exec_task f t) (λ a, task_touches false f t a ∨ C a) (task_touches true f t);
  bl_control : ∀ f t a, f ∈ fams → 0 ≤ t < count f → task_touches true f t a → ¬ C a;
  bl_regions : ∀ w f t rs r, f ∈ fams → 0 ≤ t < count f → task_regions w f t = Ok rs → r ∈ rs → region_ok r;
  bl_family : ∀ f t1 t2, f ∈ fams → 0 ≤ t1 < count f → 0 ≤ t2 < count f → t1 ≠ t2 →
    commutes (λ m t, exec_task f t m) t1 t2
}.

Section families.
Context (fams : list TaskFamily) (count : TaskFamily → Z) `{!TilesCovered fams count}.
Context (C : addr → Prop) (Hok : tiles_ok fams count) (Hlocal : bodies_local C fams count).

Lemma exec_key_family (i : nat) (f : TaskFamily) (t : Z) (m : mem) :
  fams !! i = Some f → exec_key fams m (tf_family_id f, t) = exec_task f t m.
Proof using Hok.
  intros Hi. unfold exec_key. cbn [fst snd].
  assert (E : list_find (λ f', tf_family_id f' = tf_family_id f) fams = Some (i, f)); [|by rewrite E].
  apply list_find_Some. split_and!; [done|done|]. intros j g Hj Hlt E.
  assert (j = i); [|lia]. eapply (NoDup_lookup _ j i (tf_family_id f) (to_ids _ _ Hok)).
  - rewrite list_lookup_fmap, Hj. simpl. congruence.
  - by rewrite list_lookup_fmap, Hi.
Qed.

(** Tasks of different families without a tile edge do not conflict. *)
Lemma no_edge_no_conflict (i j : nat) (u v : TaskFamily) (tu tv : Z) :
  (i < j)%nat → fams !! i = Some u → fams !! j = Some v → 0 ≤ tu < count u → 0 ≤ tv < count v →
  ¬ tile_edge fams count (tf_family_id u, tu) (tf_family_id v, tv) →
  no_conflict (λ a, task_touches false u tu a ∨ C a) (task_touches true u tu)
              (λ a, task_touches false v tv a ∨ C a) (task_touches true v tv).
Proof using TilesCovered0 Hlocal.
  intros Hij Hi Hj Htu Htv Hne.
  assert (Hno : ∀ wu wv a, wu || wv = true → task_touches wu u tu a → task_touches wv v tv a → False).
  { intros wu wv a Hw (rus & ru & Hrus & Hru & Hsu & Hau) (rvs & rv & Hrvs & Hrv & Hsv & Hav).
    apply Hne. eapply conflicting_tiles_edge; try done. apply overlaps_true.
    pose proof (bl_regions _ _ _ Hlocal wu u tu rus ru (list_elem_of_lookup_2 _ _ _ Hi) Htu Hrus Hru) as Ho1.
    pose proof (bl_regions _ _ _ Hlocal wv v tv rvs rv (list_elem_of_lookup_2 _ _ _ Hj) Htv Hrvs Hrv) as Ho2.
    pose proof (storage_span_sound _ _ Ho1 Hau). pose proof (storage_span_sound _ _ Ho2 Hav).
    split; [congruence|lia]. }
  pose proof (bl_control _ _ _ Hlocal u tu) as Hcu. pose proof (bl_control _ _ _ Hlocal v tv) as Hcv.
  intros a. split; intros Hwr; split; [intros [Hto|Hto]|intros Hto|intros [Hto|Hto]|intros Hto].
  - by apply (Hno true false a).
  - apply (Hcu a); [by eapply list_elem_of_lookup_2|done..].
  - by apply (Hno true true a).
  - by apply (Hno false true a).
  - apply (Hcv a); [by eapply list_elem_of_lookup_2|done..].
  - by apply (Hno true true a).
Qed.

Lemma exec_key_bind (i j : nat) (u v : TaskFamily) (tu tv : Z) (m : mem) :
  fams !! i = Some u → fams !! j = Some v →
  (m' ← exec_key fams m (tf_family_id u, tu); exec_key fams m' (tf_family_id v, tv))
  = (m' ← exec_task u tu m; exec_task v tv m').
Proof using Hok.
  intros Hi Hj. rewrite (exec_key_family i) by done. destruct (exec_task u tu m) as [m'|]; [|done].
  by apply (exec_key_family j).
Qed.

Lemma unordered_tasks_commute (x y : TaskKey) :
  x ∈ all_keys fams count → y ∈ all_keys fams count → x ≠ y →
  ¬ tile_edge fams count x y → ¬ tile_edge fams count y x → commutes (exec_key fams) x y.
Proof using Hok TilesCovered0 Hlocal.
  destruct x as [xi xt], y as [yi yt]. intros Hx Hy Hne Hxy Hyx m. apply elem_of_all_keys in Hx, Hy.
  destruct Hx as (u & Hu & Ex & Htu), Hy as (v & Hv & Ey & Htv). cbn [fst snd] in *. subst xi yi.
  apply list_elem_of_lookup in Hu as [i Hi]. apply list_elem_of_lookup in Hv as [j Hj].
  rewrite (exec_key_bind i j), (exec_key_bind j i) by done.
  destruct (decide (i = j)) as [->|Hij].
  { rewrite Hi in Hj. injection Hj as <-.
    apply (bl_family _ _ _ Hlocal u xt yt (list_elem_of_lookup_2 _ _ _ Hi)); [done..|]. by intros ->. }
  pose proof (bl_effect _ _ _ Hlocal u xt (list_elem_of_lookup_2 _ _ _ Hi) Htu) as Hlu.
  pose proof (bl_effect _ _ _ Hlocal v yt (list_elem_of_lookup_2 _ _ _ Hj) Htv) as Hlv.
  eapply local_effects_commute; [done|done|]. destruct (decide (i < j)%nat).
  - by eapply (no_edge_no_conflict i j).
  - apply no_conflict_sym. eapply (no_edge_no_conflict j i); try done. lia.
Qed.
End families.
End execution.

(** ** The two orders *)
Lemma topological_respects (preds : TaskKey → gset TaskKey) (order : list TaskKey) :
  NoDup order → topological preds order → respects (λ p k, p ∈ preds k) order.
Proof.
  intros Hnd Ht i j p k Hi Hj Hp. destruct (Ht j k p Hj Hp) as (i' & Hlt & Hi').
  by rewrite (NoDup_lookup _ _ _ _ Hnd Hi Hi').
Qed.

(** The tasks in program order: family after family, ids ascending. *)
Lemma all_keys_respects (fams : list TaskFamily) (count : TaskFamily → Z) :
  NoDup (tf_family_id <$> fams) → respects (tile_edge fams count) (all_keys fams count).
Proof.
  intros Hnd a b p k Ha Hb (i & j & u & v & _ & _ & Hij & Hi & Hj & Hpu & Hkv & _).
  revert a b i j Ha Hb Hij Hi Hj. induction fams as [|f fs IH]; [done|].
  intros a b i j Ha Hb Hij Hi Hj. rewrite fmap_cons in Hnd. apply NoDup_cons in Hnd as [Hf Hnd].
  change (all_keys (f :: fs) count) with (task_keys (tf_family_id f) (count f) ++ all_keys fs count) in *.
  assert (Hhead : ∀ c q, task_keys (tf_family_id f) (count f) !! c = Some q → q.1 = tf_family_id f).
  { intros c q Hq. unfold task_keys in Hq. by apply list_lookup_fmap_Some in Hq as (t & -> & _). }
  assert (Htail : ∀ q, q ∈ all_keys fs count → q.1 ≠ tf_family_id f).
  { intros q (g & Hg & Eg & _)%elem_of_all_keys E. apply Hf. rewrite <- E, Eg. by apply list_elem_of_fmap_2. }
  destruct j as [|j]; [lia|]. simpl in Hj.
  assert (Hk : k.1 ≠ tf_family_id f).
  { rewrite Hkv. intros E. apply Hf. rewrite <- E. by eapply list_elem_of_fmap_2, list_elem_of_lookup_2. }
  apply lookup_app_Some in Hb as [Hb|[Hlb Hb]]; [by apply Hhead in Hb|].
  apply lookup_app_Some in Ha as [Ha|[Hla Ha]]; [apply lookup_lt_Some in Ha; lia|].
  destruct i as [|i].
  - exfalso. simpl in Hi. injection Hi as ->. apply (Htail p); [|done]. by eapply list_elem_of_lookup_2.
  - simpl in Hi. assert (a - length (task_keys (tf_family_id f) (count f))
      < b - length (task_keys (tf_family_id f) (count f)))%nat; [|lia]. apply (IH Hnd _ _ i j); [done|done|lia|done|done].
Qed.

Lemma all_keys_NoDup (fams : list TaskFamily) (count : TaskFamily → Z) :
  NoDup (tf_family_id <$> fams) → NoDup (all_keys fams count).
Proof.
  induction fams as [|f fs IH]; intros Hnd; [constructor|]. rewrite fmap_cons in Hnd.
  apply NoDup_cons in Hnd as [Hf Hnd].
  change (all_keys (f :: fs) count) with (task_keys (tf_family_id f) (count f) ++ all_keys fs count).
  apply NoDup_app. split_and!; [|intros k Hk Hk'|by apply IH].
  - unfold task_keys. apply NoDup_fmap_2; [by intros ?? [= ->]|apply NoDup_zrange].
  - unfold task_keys in Hk. apply list_elem_of_fmap in Hk as (t & -> & _).
    apply elem_of_all_keys in Hk' as (g & Hg & E & _). apply Hf. simpl in E. rewrite E.
    by apply list_elem_of_fmap_2.
Qed.

(** *** Runs of the worker schedule *)

(** The tasks run so far, in the order in which the workers took them. *)
Inductive worker_trace (s : StaticWorkerSchedule) : list TaskKey → Prop :=
  | trace_nil : worker_trace s []
  | trace_snoc (tr : list TaskKey) (k : TaskKey) :
      worker_trace s tr → k ∉ tr →
      ScheduleStatic.worker_step s (list_to_set tr) ({[k]} ∪ list_to_set tr) →
      worker_trace s (tr ++ [k]).

Definition complete_run (s : StaticWorkerSchedule) (tr : list TaskKey) : Prop :=
  worker_trace s tr ∧ ∀ k, k ∈ ss_order s → k ∈ tr.

Lemma worker_trace_spec (s : StaticWorkerSchedule) (tr : list TaskKey) :
  static_wf s → worker_trace s tr →
  NoDup tr ∧ (∀ k, k ∈ tr → k ∈ ss_order s) ∧ topological (preds_of (dg_preds (ss_deps s))) tr.
Proof.
  intros Hwf. induction 1 as [|tr k Htr (Hnd & Hsub & Htop) Hk Hstep].
  { split_and!; [constructor|set_solver|]. intros i k p Hi. by rewrite lookup_nil in Hi. }
  inversion Hstep as [w seq i k' Hw Hseq Hi _ Hk' Hp Heq].
  assert (k' = k) as -> by set_solver.
  rewrite worker_sequence_filter in Hseq by done. injection Hseq as <-.
  apply list_elem_of_lookup_2, list_elem_of_filter in Hi as [_ Hi]. split_and!.
  - apply NoDup_app. split_and!; [done|set_solver|apply NoDup_singleton].
  - intros q [Hq| ->%list_elem_of_singleton]%elem_of_app; auto.
  - intros j q p Hj Hpq. apply lookup_app_Some in Hj as [Hj|[Hlen Hj]].
    + destruct (Htop j q p Hj Hpq) as (j' & Hlt & Hj'). exists j'. split; [done|].
      rewrite lookup_app_l; [done|]. by eapply lookup_lt_Some.
    + apply list_lookup_singleton_Some in Hj as [Hj ->]. specialize (Hp p Hpq).
      apply elem_of_list_to_set, list_elem_of_lookup in Hp as [j' Hj']. exists j'.
      pose proof (lookup_lt_Some _ _ _ Hj'). split; [lia|]. by rewrite lookup_app_l.
Qed.

(** The order of the schedule is itself a run. *)
Lemma order_is_run (g : TaskDependencyGraph) (workers : Z) (s : StaticWorkerSchedule) :
  deps_closed g → 1 ≤ workers → static_result g workers s → complete_run s (ss_order s).
Proof.
  intros Hcl Hw Hr. split; [|done]. pose proof (static_result_wf _ _ _ Hcl Hr) as Hwf.
  pose proof (sw_order _ Hwf) as Hnd.
  assert (H : ∀ n, (n ≤ length (ss_order s))%nat → worker_trace s (take n (ss_order s))).
  { induction n as [|n IH]; intros Hn; [constructor|].
    destruct (lookup_lt_is_Some_2 (ss_order s) n ltac:(lia)) as [k Hk].
    rewrite (take_S_r _ _ k) by done.
    assert (Hnot : k ∉ take n (ss_order s)).
    { intros (j & Hj & Hlt)%elem_of_take. assert (j = n); [|lia]. by eapply NoDup_lookup. }
    constructor; [apply IH; lia|done|].
    eapply earliest_can_run; [done|done|exact Hr|exact Hk|set_solver|].
    intros j k' Hlt Hj. apply elem_of_list_to_set, elem_of_take. eauto. }
  rewrite <- (firstn_all (ss_order s)). apply H. done.
Qed.

(** *** The phases *)
Lemma fold_result_map {S A B} (f : S → A → result S) (g : S → B → result S) (h : A → B) (s : S) (l : list A) :
  (∀ s x, x ∈ l → f s x = g s (h x)) → fold_result f s l = fold_result g s (h <$> l).
Proof.
  revert s. induction l as [|x l IH]; intros s H; [done|]. rewrite fmap_cons. cbn [fold_result].
  rewrite (H s x) by left. destruct (g s (h x)) as [s'|]; [|done]. simpl. apply IH.
  intros. apply H. by right.
Qed.

(** A phase of one family. *)
Lemma single_family_task (p : PhasePlan) (f : TaskFamily) (n t : Z) :
  pp_families p = [f] → family_task_count f = Ok n → 0 ≤ t < n →
  family_of p t = Ok f ∧ local_id p t = Ok t.
Proof.
  intros Hp Hn Ht. unfold family_of, local_id. rewrite Hp. simpl. rewrite Hn. simpl.
  by rewrite (proj2 (Z.ltb_lt t n)) by lia.
Qed.

Lemma single_family_count (p : PhasePlan) (f : TaskFamily) (n : Z) :
  pp_families p = [f] → family_task_count f = Ok n → phase_task_count p = Ok n.
Proof. intros Hp Hn. unfold phase_task_count, sum_counts. rewrite Hp. simpl. rewrite Hn. done. Qed.

(** *** Bodies that agree up to the exception *)
Section hidden_body.
Context {V : Type}.
Abbreviation mem := (gmap addr V).
Context (body : string → TaskFamily → list Z → scalars → mem → result mem) (sc : scalars).
Context (fill_nan : Z → mem → mem) (all_nan : Z → mem → bool).

Definition hidden_body (kind : string) (f : TaskFamily) (cs : list Z) (sc : scalars) (m : mem) : result mem :=
  hide (body kind f cs sc m).

Lemma body_of_hidden (kind : string) (f : TaskFamily) (cs : list Z) (m : mem) :
  same (b ← of_option (ExecutorError "no reference body for task kind") (body_of hidden_body kind); b f cs sc m)
       (b ← of_option (ExecutorError "no reference body for task kind") (body_of body kind); b f cs sc m).
Proof. unfold body_of. case_bool_decide; [apply hide_same|done]. Qed.

Lemma execute_task_hidden (p : PhasePlan) (m : mem) (t : Z) :
  same (execute_task hidden_body p sc m t) (execute_task body p sc m t).
Proof.
  unfold execute_task. repeat (apply same_bind; [done|intros ?]). apply body_of_hidden.
Qed.

Lemma exec_key_hidden (fams : list TaskFamily) (m : mem) (k : TaskKey) :
  same (exec_key hidden_body sc fams m k) (exec_key body sc fams m k).
Proof.
  unfold exec_key. destruct (list_find _ _) as [[i f]|]; [|done]. unfold exec_task.
  apply same_bind; [done|intros cs]. apply body_of_hidden.
Qed.

Lemma worker_step_hidden (p : PhasePlan) (workers : Z) st (w : Z) :
  same (Execution.worker_step hidden_body p workers sc st w) (Execution.worker_step body p workers sc st w).
Proof.
  destruct st as [[m ws] b]. unfold Execution.worker_step. apply same_bind.
  - unfold worker_share. apply same_bind; [done|intros tids]. apply same_fold. intros s t.
    apply same_bind; [apply execute_task_hidden|done].
  - by intros [].
Qed.

Lemma run_hidden (workers : Z) (canary : bool) (plan : option WorkspacePlan) (s : PhaseSchedule)
    (m : mem) (t : ExecutionTrace) :
  same (run hidden_body fill_nan all_nan workers canary plan s sc m t)
       (run body fill_nan all_nan workers canary plan s sc m t).
Proof.
  unfold run. apply same_bind; [|done]. apply same_fold. intros [[m1 t1] b1] p. unfold run_phase.
  apply same_bind; [|done]. apply same_fold. intros st w. apply worker_step_hidden.
Qed.

(** Tasks with the same body commute exactly once exceptions are hidden. *)
Lemma hidden_commute (f : TaskFamily) (t1 t2 : Z) :
  is_ok (family_coords f t1) = true → is_ok (family_coords f t2) = true →
  commutes (λ m t, exec_task body sc f t m) t1 t2 → commute (λ m t, exec_task hidden_body sc f t m) t1 t2.
Proof.
  intros H1 H2 Hc. destruct (body_of body (tf_kind f)) as [b|] eqn:Hb.
  - assert (E : ∀ m t, is_ok (family_coords f t) = true →
      exec_task hidden_body sc f t m = hidden (λ m t, exec_task body sc f t m) m t).
    { intros m t Ht. unfold hidden, exec_task. destruct (family_coords f t) as [cs|]; [|done].
      unfold body_of in *. by case_bool_decide. }
    intros m. pose proof (commutes_hidden _ t1 t2 Hc m) as H. rewrite !E by done.
    destruct (hidden _ m t1) as [m1|] eqn:E1, (hidden _ m t2) as [m2|] eqn:E2; simpl in *; rewrite ?E by done; exact H.
  - assert (E : ∀ m t, is_ok (family_coords f t) = true →
      exec_task hidden_body sc f t m = Err (ExecutorError "no reference body for task kind")).
    { intros m t Ht. unfold exec_task. destruct (family_coords f t) as [cs|]; [|done].
      unfold body_of in *. by case_bool_decide. }
    intros m. by rewrite !E.
Qed.
End hidden_body.

Section phases.
Context {V : Type}.
Abbreviation mem := (gmap addr V).
Context (body : string → TaskFamily → list Z → scalars → mem → result mem) (sc : scalars).
Context (fill_nan : Z → mem → mem) (all_nan : Z → mem → bool).
Context (fams : list TaskFamily) (count : TaskFamily → Z).
Context (Hok : tiles_ok fams count).

Lemma execute_task_single (p : PhasePlan) (f : TaskFamily) (t : Z) (m : mem) :
  f ∈ fams → pp_families p = [f] → 0 ≤ t < count f → execute_task body p sc m t = exec_task body sc f t m.
Proof using Hok.
  intros Hf Hp Ht. unfold execute_task.
  by destruct (single_family_task p f _ t Hp (to_count _ _ Hok f Hf) Ht) as [-> ->].
Qed.

Lemma single_independent (p : PhasePlan) (f : TaskFamily) :
  (∀ t1 t2, 0 ≤ t1 < count f → 0 ≤ t2 < count f → t1 ≠ t2 → commute (λ m t, exec_task body sc f t m) t1 t2) →
  f ∈ fams → pp_families p = [f] → independent body sc p.
Proof using Hok.
  intros Hfam Hf Hp n t1 t2 Hn Ht1 Ht2 Hne m.
  rewrite (single_family_count p f _ Hp (to_count _ _ Hok f Hf)) in Hn. injection Hn as <-.
  transitivity (m' ← exec_task body sc f t1 m; exec_task body sc f t2 m').
  { rewrite (execute_task_single p f) by done. destruct (exec_task _ _ _ _ _) as [m'|]; [|done].
    simpl. by apply execute_task_single. }
  transitivity (m' ← exec_task body sc f t2 m; exec_task body sc f t1 m').
  2: { rewrite (execute_task_single p f t2) by done. destruct (exec_task _ _ _ _ _) as [m'|]; [|done].
       simpl. symmetry. by apply execute_task_single. }
  by apply Hfam.
Qed.

(** Phase by phase, without a workspace plan, is program order. *)
Lemma reference_run_keys (phases : list PhasePlan) (gs : list TaskFamily) (workers : Z) (m : mem) :
  gs ⊆ fams → pp_families <$> phases = (λ f, [f]) <$> gs →
  fold_result (reference_phase body fill_nan all_nan false None sc) m phases
  = fold_result (exec_key body sc fams) m (all_keys gs count).
Proof using Hok.
  revert gs m. induction phases as [|p phases IH]; intros [|f gs] m Hsub Hp; try done.
  rewrite !fmap_cons in Hp. injection Hp as Hpf Hp.
  change (all_keys (f :: gs) count) with (task_keys (tf_family_id f) (count f) ++ all_keys gs count).
  rewrite fold_result_app. cbn [fold_result]. assert (Hf : f ∈ fams) by (apply Hsub; left).
  assert (E : reference_phase body fill_nan all_nan false None sc m p
              = fold_result (exec_key body sc fams) m (task_keys (tf_family_id f) (count f))).
  { unfold reference_phase. rewrite (single_family_count p f _ Hpf (to_count _ _ Hok f Hf)).
    cbn [mbind result_bind]. unfold task_keys.
    rewrite (fold_result_map _ (exec_key body sc fams) (λ t, (tf_family_id f, t))).
    - by destruct (fold_result _ m _).
    - intros m' t Ht%elem_of_zrange. pose proof Hf as [i Hi]%list_elem_of_lookup.
      rewrite (exec_key_family body sc fams count Hok i f) by done. by apply execute_task_single. }
  rewrite E. destruct (fold_result _ m _) as [m'|]; [|done]. cbn [mbind result_bind].
  apply IH; [|done]. intros g Hg. apply Hsub. by right.
Qed.
End phases.

(** The executor runs the tasks in program order, up to independent tasks. *)
Lemma run_in_program_order {V : Type}
    (body : string → TaskFamily → list Z → scalars → gmap addr V → result (gmap addr V)) (sc : scalars)
    (fill_nan : Z → gmap addr V → gmap addr V) (all_nan : Z → gmap addr V → bool)
    (fams : list TaskFamily) (count : TaskFamily → Z) (Hok : tiles_ok fams count)
    (Hpos : ∀ f, f ∈ fams → 0 ≤ count f) (C : addr → Prop) (Hlocal : bodies_local body sc C fams count)
    (s : PhaseSchedule) (Hphases : pp_families <$> ps_phases s = (λ f, [f]) <$> fams)
    (m : gmap addr V) (t : ExecutionTrace) (workers : Z) :
  1 ≤ workers →
  same (fst <$> run body fill_nan all_nan workers false None s sc m t)
       (fold_result (exec_key body sc fams) m (all_keys fams count)).
Proof.
  intros Hw. transitivity (fst <$> run (hidden_body body) fill_nan all_nan workers false None s sc m t).
  { pose proof (run_hidden body sc fill_nan all_nan workers false None s m t) as H.
    by apply same_cases in H as [(x & -> & ->)|(e1 & e2 & -> & ->)]. }
  transitivity (fold_result (exec_key (hidden_body body) sc fams) m (all_keys fams count)).
  2: { apply same_fold. intros. apply exec_key_hidden. }
  apply same_eq. unfold run, new_barrier.
  rewrite (run_phases_ok (hidden_body body) fill_nan all_nan false None sc workers (ps_phases s) 0); [|done|].
  - rewrite (reference_run_keys (hidden_body body) sc fill_nan all_nan fams count Hok (ps_phases s) fams) by done.
    by destruct (fold_result _ m _).
  - intros p Hp. apply (list_elem_of_fmap_2 pp_families) in Hp as Hpf. rewrite Hphases in Hpf.
    apply list_elem_of_fmap in Hpf as (f & Hpf & Hf). split.
    { eapply single_independent; [done| |done..]. intros t1 t2 H1 H2 Hne.
      apply hidden_commute; [by apply (bl_coords _ _ _ _ _ Hlocal)..|by apply (bl_family _ _ _ _ _ Hlocal)]. }
   
    exists (count f). split; [|by apply Hpos]. by apply (single_family_count p f), (to_count _ _ Hok).
Qed.

Section complete.
Context (fams : list TaskFamily) (count : TaskFamily → Z) (deps : TaskDependencyGraph).
Context (Hgraph : tile_graph fams count deps) (Hclosed : deps_closed deps).
Context (workers : Z) (sched : StaticWorkerSchedule) (Hres : static_result deps workers sched).

Lemma complete_run_perm (tr : list TaskKey) : NoDup (all_keys fams count) →
  complete_run sched tr → all_keys fams count ≡ₚ tr.
Proof using Hgraph Hclosed Hres.
  intros Hnd [Htr Hall]. pose proof (static_result_wf _ _ _ Hclosed Hres) as Hwf.
  destruct (worker_trace_spec _ _ Hwf Htr) as (Hndt & Hsub & _). apply NoDup_Permutation; [done..|].
  intros k. rewrite <- (tg_keys _ _ _ Hgraph), <- (sr_perm _ _ _ Hres). split; auto.
Qed.

Lemma complete_run_respects (tr : list TaskKey) :
  complete_run sched tr → respects (tile_edge fams count) tr.
Proof using Hgraph Hclosed Hres.
  intros [Htr _]. pose proof (static_result_wf _ _ _ Hclosed Hres) as Hwf.
  destruct (worker_trace_spec _ _ Hwf Htr) as (Hnd & _ & Htop). rewrite (sr_deps _ _ _ Hres) in Htop.
  intros i j p k Hi Hj He. apply (topological_respects _ _ Hnd Htop i j p k Hi Hj).
  by apply (tg_preds _ _ _ Hgraph).
Qed.
End complete.

(** A program executed with barriers and without.  When task bodies stay
    inside the regions their tasks declare (and read-only control tensors) and
    the tasks of one family commute, tile dependencies and a static schedule
    exist, the workers of the schedule have a complete run, and every complete
    run of theirs, in whatever order they interleave, leaves the memory that
    the executor leaves when it runs the phases one after the other with a grid
    barrier after each, on any number of workers; it raises when the executor
    raises (which exception comes first may differ). *)
Theorem barriers_unobservable {V : Type} `{!SetIter TaskKey}
    (body : string → TaskFamily → list Z → scalars → gmap addr V → result (gmap addr V)) (sc : scalars)
    (fill_nan : Z → gmap addr V → gmap addr V) (all_nan : Z → gmap addr V → bool)
    (C : addr → Prop) (fams : list TaskFamily) (count : TaskFamily → Z) `{!TilesCovered fams count}
    (workers : Z) (s : PhaseSchedule) :
  tiles_ok fams count → (∀ f, f ∈ fams → 0 ≤ count f) → bodies_local body sc C fams count →
  from_families fams workers = Ok s →
  1 ≤ workers →
  ∃ deps sched, build_tile_dependencies s None = Ok deps
    ∧ build_static_worker_schedule deps workers = Ok sched
    ∧ (∃ tr, complete_run sched tr)
    ∧ ∀ tr m t workers', complete_run sched tr → 1 ≤ workers' →
        same (fst <$> run body fill_nan all_nan workers' false None s sc m t)
             (fold_result (exec_key body sc fams) m tr).
Proof.
  intros Hok Hpos Hlocal Hs Hw.
  destruct (from_families_distinct fams workers s (to_ops _ _ Hok) Hs) as (Hfams & _ & Hphases).
  destruct (build_tile_ok s count) as (deps & Hdeps & Hgraph); [by rewrite Hfams|].
  rewrite Hfams in Hgraph. destruct (tile_graph_ok _ _ _ Hok Hgraph) as [Hdok Hac].
  destruct (build_static_ok deps workers Hdok ltac:(lia) Hac) as (sched & Hsched & Hres).
  exists deps, sched. split_and!; [done|done| |].
  { exists (ss_order sched). eapply order_is_run; [|done|done]. by apply Hdok. }
  intros tr m t workers' Hrun Hw'.
  rewrite (run_in_program_order body sc fill_nan all_nan fams count Hok Hpos C Hlocal s Hphases) by done.
  apply (fold_extension_same _ (tile_edge fams count)).
  - apply all_keys_NoDup, Hok.
  - eapply complete_run_perm; [exact Hgraph|apply Hdok|exact Hres|apply all_keys_NoDup, Hok|exact Hrun].
  - apply all_keys_respects, Hok.
  - eapply complete_run_respects; [exact Hgraph|apply Hdok|exact Hres|exact Hrun].
  - by eapply unordered_tasks_commute.
Qed.

(** *** Witness: [y = x + 1] then [z = y + 1] at the first element of each tile *)
Section witness.
#[local] Instance key_iter : SetIter TaskKey := elements_iter TaskKey.

Definition ex_first (f : TaskFamily) (cs : list Z) : Z := 16 * default 0 (head cs).
Definition ex_bump (kind : string) (f : TaskFamily) (cs : list Z) (sc : scalars) (m : gmap addr Z)
    : result (gmap addr Z) :=
  let o := op_opid (tf_op f) in
  Ok (<[(o + 1, ex_first f cs) := default 0 (m !! (o, ex_first f cs)) + 1]> m).

Definition ex_fams : list TaskFamily := schedule_families ex_schedule.

Lemma insert_local (src dst : addr) (g : option Z → Z) (step : gmap addr Z → result (gmap addr Z))
    (R W : addr → Prop) :
  (∀ m, step m = Ok (<[dst := g (m !! src)]> m)) → R src → W dst → local_effect step R W.
Proof.
  intros Hs HR HW m1 m2 Hm. left. exists {[dst := g (m1 !! src)]}. split_and!.
  - intros a [v [<- _]%lookup_singleton_Some]. done.
  - by rewrite Hs, insert_union_singleton_l.
  - by rewrite Hs, (Hm src HR), insert_union_singleton_l.
Qed.

(** The regions of a task of the example: one tile of one vector. *)
Lemma ex_regions (w : bool) (f : TaskFamily) (t : Z) (rs : list Region) :
  f ∈ ex_fams → 0 ≤ t < 2 → task_regions w f t = Ok rs →
  ∃ name, rs = [mk_region (op_opid (tf_op f) + if w then 1 else 0)
                  (ex_vec name (op_opid (tf_op f) + if w then 1 else 0))
                  [(t * 16, BInt (t * 16 + 16))] None (-1)].
Proof.
  intros Hf Ht Hrs. unfold ex_fams, schedule_families in Hf. simpl in Hf.
  assert (t = 0 ∨ t = 1) as [->| ->] by lia; destruct w;
    apply elem_of_cons in Hf as [->| ->%list_elem_of_singleton]; vm_compute in Hrs;
    injection Hrs as <-; eexists; reflexivity.
Qed.

Lemma ex_touches (w : bool) (f : TaskFamily) (t : Z) (a : addr) :
  f ∈ ex_fams → 0 ≤ t < 2 → task_touches w f t a →
  a.1 = op_opid (tf_op f) + (if w then 1 else 0) ∧ t * 16 ≤ a.2 < t * 16 + 16.
Proof.
  intros Hf Ht (rs & r & Hrs & Hr & Hs & idx & Hidx & Ha).
  destruct (ex_regions w f t rs Hf Ht Hrs) as (name & ->). apply list_elem_of_singleton in Hr as ->.
  split; [done|]. unfold region_contains in Hidx. simpl in Hidx.
  destruct idx as [|i [|] ]; try tauto. rewrite Ha. unfold view_addr. simpl. lia.
Qed.

Lemma ex_effect (f : TaskFamily) (t : Z) : f ∈ ex_fams → 0 ≤ t < 2 →
  local_effect (exec_task ex_bump ∅ f t) (task_touches false f t) (task_touches true f t).
Proof.
  intros Hf Ht.
  assert (Hstep : ∀ m, exec_task ex_bump ∅ f t m
    = Ok (<[(op_opid (tf_op f) + 1, t * 16) := default 0 (m !! (op_opid (tf_op f), t * 16)) + 1]> m)).
  { intros m. unfold ex_fams, schedule_families in Hf. simpl in Hf.
    assert (t = 0 ∨ t = 1) as [->| ->] by lia;
      apply elem_of_cons in Hf as [->| ->%list_elem_of_singleton]; reflexivity. }
  assert (Htouch : ∀ w : bool, task_touches w f t (op_opid (tf_op f) + (if w then 1 else 0), t * 16)).
  { intros w. assert (∃ rs, task_regions w f t = Ok rs) as [rs Hrs].
    { destruct (to_regions _ _ ex_tiles_ok f t Hf Ht) as [Hr Hw].
      destruct w; simpl; [destruct (writes f t)|destruct (reads f t)]; eauto; done. }
    destruct (ex_regions w f t rs Hf Ht Hrs) as (name & ->).
    eexists _, _. split_and!; [exact Hrs|left|done|]. exists [t * 16]. simpl. unfold region_contains. simpl.
    split; [|unfold view_addr; simpl; lia]. split; [|done]. lia. }
  eapply (insert_local _ _ (λ v, default 0 v + 1)); [exact Hstep| |apply (Htouch true)].
  pose proof (Htouch false) as H. simpl in H. by rewrite Z.add_0_r in H.
Qed.

Lemma ex_local : bodies_local ex_bump ∅ (λ _, False) ex_fams (λ _, 2).
Proof.
  split.
  - intros f t Hf Ht. unfold ex_fams, schedule_families in Hf. simpl in Hf.
    assert (t = 0 ∨ t = 1) as [->| ->] by lia; apply elem_of_cons in Hf as [->| ->%list_elem_of_singleton]; reflexivity.
  - intros f t Hf Ht. eapply local_effect_weaken; [|intros a Ha; left; exact Ha|done].
    by apply ex_effect.
  - by intros f t a _ _ _ [].
  - intros w f t rs r Hf Ht Hrs Hr. destruct (ex_regions w f t rs Hf Ht Hrs) as (name & ->).
    apply list_elem_of_singleton in Hr as ->. by intros [? [=]].
  - intros f t1 t2 Hf H1 H2 Hne. intros m. eapply local_effects_commute; [by apply ex_effect..|].
    intros a. split; intros Hw; split; intros Ht;
      apply ex_touches in Hw as [Ew Hw]; try done; apply ex_touches in Ht as [Et Ht]; try done; lia.
Qed.

Lemma barriers_unobservable_witness :
  ∃ deps sched tr, build_tile_dependencies ex_schedule None = Ok deps
    ∧ build_static_worker_schedule deps 2 = Ok sched ∧ complete_run sched tr
    ∧ (m ← fold_result (exec_key ex_bump ∅ ex_fams) {[(0, 16) := 5]} tr; Ok (m !! (2, 16))) = Ok (Some 7).
Proof.
  pose proof ex_covered as Hcov.
  destruct (@barriers_unobservable Z key_iter ex_bump ∅ (λ _ m, m) (λ _ _, true) (λ _, False) ex_fams (λ _, 2) Hcov 2
    ex_schedule ex_tiles_ok ltac:(intros; lia) ex_local ltac:(vm_compute; reflexivity) ltac:(lia))
    as (deps & sched & Hdeps & Hsched & (tr & Htr) & Heq).
  exists deps, sched, tr. split_and!; [done..|].
  assert (Hrun : ∃ m, fst <$> run ex_bump (λ _ m, m) (λ _ _, true) 3 false None ex_schedule ∅ {[(0, 16) := 5]} new_trace
    = Ok m ∧ m !! (2, 16) = Some 7) by (eexists; split; vm_compute; reflexivity).
  destruct Hrun as (m & Hm & Hv). apply (Heq tr _ _ 3 Htr ltac:(lia)) in Hm. rewrite Hm. simpl. by rewrite Hv.
Defined.
End witness.
