(* ===== verification/LoweringsCommon.v ===== *)
(** * Shared rules of the lowerings (compiler/lowerings/common.py)

    Tile constants, box geometry, and the Python idioms the lowerings use:
    unpacking a shape, reading an attribute, building a tuple of regions. *)

From S2P Require Import Prelude Indexing OperatorIR TaskIR.
Local Open Scope Z_scope.

Definition GEMM_TILE_M : Z := 16.
Definition GEMM_TILE_N : Z := 16.
Definition ELEM_TILE : Z := 1024.
Definition EMBED_TILE_C : Z := 256.
Definition THREADS_PER_WORKER : Z := 256.
Definition GEMV_FP8_TILE_N : Z := 16.
Definition INDEXER_TILE_M : Z := 64.

(** ** Python idioms *)

(** [a, b = xs], raising on the wrong length. *)
Definition unpack1 {A} (xs : list A) : result A :=
  match xs with [a] => Ok a | _ => Err (ValueError "unpack") end.
Definition unpack2 {A} (xs : list A) : result (A * A) :=
  match xs with [a; b] => Ok (a, b) | _ => Err (ValueError "unpack") end.
Definition unpack3 {A} (xs : list A) : result (A * A * A) :=
  match xs with [a; b; c] => Ok (a, b, c) | _ => Err (ValueError "unpack") end.
Definition unpack4 {A} (xs : list A) : result (A * A * A * A) :=
  match xs with [a; b; c; d] => Ok (a, b, c, d) | _ => Err (ValueError "unpack") end.
Definition unpack5 {A} (xs : list A) : result (A * A * A * A * A) :=
  match xs with [a; b; c; d; e] => Ok (a, b, c, d, e) | _ => Err (ValueError "unpack") end.

(** [graph.tensor(op.inputs[i])] and [graph.tensor(op.outputs[i])] *)
Definition tensor_in (op : Operator) (graph : OperatorGraph) (i : nat) : result TensorValue :=
  name ← py_index (op_inputs op) i; graph_tensor graph name.
Definition tensor_out (op : Operator) (graph : OperatorGraph) (i : nat) : result TensorValue :=
  name ← py_index (op_outputs op) i; graph_tensor graph name.

(** [graph.tensor(op.inputs[i]) if len(op.inputs) > i else None] *)
Definition tensor_in_opt (op : Operator) (graph : OperatorGraph) (i : nat)
    : result (option TensorValue) :=
  if decide (i < length (op_inputs op))%nat then Some <$> tensor_in op graph i else Ok None.

(** [op.attributes[k]], [op.attributes.get(k)] and [op.attributes.get(k, d)] *)
Definition attr_req (op : Operator) (k : string) : result attr :=
  of_option (KeyError k) (op_attributes op !! k).
Definition attr_or (op : Operator) (k : string) (d : attr) : attr :=
  default d (op_attributes op !! k).

(** [isinstance(v, int)] (a Python bool is an int). *)
Definition is_int (v : attr) : option Z :=
  match v with AInt z => Some z | ABool b => Some (if b then 1 else 0) | _ => None end.
(** An attribute used in integer arithmetic. *)
Definition as_int (v : attr) : result Z :=
  of_option (TypeError "unsupported operand type") (is_int v).

(** Python truthiness. *)
Definition truthy (v : attr) : bool :=
  match v with
  | AInt z => negb (z =? 0)
  | AStr s => negb (bool_decide (s = ""%string))
  | ABool b => b
  | AFloat (FLit m _) => negb (m =? 0)
  | AFloat (FInvSqrt _ | FRecipSqrt _) => true
  | ANone => false
  end.

(** [float(v)] for the numeric attributes. *)
Definition to_float (v : attr) : result attr :=
  match v with
  | AInt z => Ok (AFloat (FLit z 0))
  | ABool b => Ok (AFloat (FLit (if b then 1 else 0) 0))
  | AFloat f => Ok (AFloat f)
  | AStr _ => Err (ValueError "could not convert string to float")
  | ANone => Err (TypeError "float() argument must be a string or a real number")
  end.

(** The position attribute of an operator whose contract requires a [str]
    there ([validate_attributes] has already run). *)
Definition position_text (v : attr) : result string :=
  match v with AStr s => Ok s | _ => Err (TypeError "position must be str") end.

(** ** Boxes and regions *)
Definition span (lo hi : Z) : Z * bound := (lo, BInt hi).
Definition cell (i : Z) : Z * bound := (i, BInt (i + 1)).
(** [(0, f"{p}+1")] *)
Definition upto (p : string) : Z * bound := (0, BStr (p +:+ "+1")).

Definition whole (view : TensorValue) : Region := region_whole view.
Definition tile_region (view : TensorValue) (tile : list (Z * bound)) : result Region :=
  region_tile view tile.

(** A tuple display of regions, evaluated left to right. *)
Definition regions (rs : list (result Region)) : result (list Region) := map_result id rs.

Definition gemm_domain (x w : TensorValue) : result TileDomain :=
  m ← py_index (tv_shape x) 0;
  n ← py_index (tv_shape w) 1;
  Ok (mk_domain [(m, GEMM_TILE_M); (n, GEMM_TILE_N)]).

Definition pair_box (domain : TileDomain) (cs : list Z) : result ((Z * Z) * (Z * Z)) :=
  '(m_idx, n_idx) ← unpack2 cs;
  '((m_extent, m_tile), (n_extent, n_tile)) ← unpack2 (td_dims domain);
  let m0 := m_idx * m_tile in
  let n0 := n_idx * n_tile in
  Ok ((m0, Z.min (m0 + m_tile) m_extent), (n0, Z.min (n0 + n_tile) n_extent)).

(** [[lo, hi)] as a box on a contiguous row-major view. *)
Definition flat_box (view : TensorValue) (lo hi : Z) : result (list (Z * bound)) :=
  if negb (is_contiguous view)
  then Err (ValueError "elementwise tiling requires contiguous views")
  else
    if decide (length (tv_shape view) = 1%nat) then Ok [span lo hi]
    else
      cols ← py_last (tv_shape view);
      r0 ← py_floordiv lo cols;
      c0 ← py_mod lo cols;
      r1 ← py_floordiv (hi - 1) cols;
      c1 ← py_mod (hi - 1) cols;
      Ok [span r0 (r1 + 1);
          if decide (r0 = r1) then span c0 (c1 + 1) else span 0 cols].

(** [while C % tile: tile //= 2] from [ELEM_TILE]: at most ten halvings. *)
Fixpoint gdn_tile_loop (fuel : nat) (C tile : Z) : result Z :=
  r ← py_mod C tile;
  if decide (r = 0) then Ok tile
  else match fuel with
       | O => Err OutOfFuel
       | S fuel => gdn_tile_loop fuel C (tile / 2)
       end.
Definition gdn_tile (C : Z) : result Z := gdn_tile_loop 10 C ELEM_TILE.

(** [f"ph{op.opid:02d}_<suffix>"] *)
Definition family_name (op : Operator) (suffix : string) : string :=
  "ph" +:+ fmt02 (op_opid op) +:+ "_" +:+ suffix.

Definition attr_dict (l : list (string * attr)) : attrs := list_to_map (reverse l).

(** ** Family names determine the operator id *)

(** The character compared with is the underscore. *)
Fixpoint no_underscore (s : string) : Prop :=
  match s with EmptyString => True | String c s => Ascii.eqb c (Ascii.Ascii true true true true true false true false) = false ∧ no_underscore s end.

Lemma no_underscore_split (d1 d2 s1 s2 : string) :
  no_underscore d1 → no_underscore d2 → d1 +:+ "_" +:+ s1 = d2 +:+ "_" +:+ s2 → d1 = d2.
Proof.
  revert d2. induction d1 as [|c1 d1 IH]; intros [|c2 d2] H1 H2 E; try done; simpl in *.
  - injection E as <- _. by destruct H2.
  - injection E as -> _. by destruct H1.
  - injection E as -> E. destruct H1, H2. f_equal. by apply IH.
Qed.

Lemma pretty_N_go_no_underscore (n : N) (s : string) :
  no_underscore s → no_underscore (pretty_N_go n s).
Proof.
  revert s. induction (N.lt_wf_0 n) as [n _ IH]; intros s Hs.
  destruct (decide (n = 0)%N) as [->|Hn]; [by rewrite pretty_N_go_0|].
  rewrite pretty_N_go_step by lia. apply IH; [apply N.div_lt; lia|]. split; [|done].
  unfold pretty_N_char. by repeat case_match.
Qed.

(** Reading decimal digits back. *)
Definition digit_value (c : Ascii.ascii) : N := (Ascii.N_of_ascii c - 48)%N.
Fixpoint read_digits (acc : N) (s : string) : N :=
  match s with EmptyString => acc | String c s => read_digits (acc * 10 + digit_value c) s end.

Lemma digit_value_char (n : N) : (n < 10)%N → digit_value (pretty_N_char n) = n.
Proof.
  intros Hn. assert (n = 0 ∨ n = 1 ∨ n = 2 ∨ n = 3 ∨ n = 4 ∨ n = 5 ∨ n = 6 ∨ n = 7 ∨ n = 8 ∨ n = 9)%N
    as H by lia. by destruct_or! H; subst.
Qed.

Lemma read_pretty_go (n : N) (s : string) : read_digits 0 (pretty_N_go n s) = read_digits n s.
Proof.
  revert s. induction (N.lt_wf_0 n) as [n _ IH]; intros s.
  destruct (decide (n = 0)%N) as [->|Hn]; [by rewrite pretty_N_go_0|].
  rewrite pretty_N_go_step by lia. rewrite IH by (apply N.div_lt; lia). simpl.
  rewrite digit_value_char by (by apply N.mod_lt). f_equal.
  rewrite (N.div_mod n 10) at 3 by done. lia.
Qed.

Lemma read_pretty (n : Z) : 0 ≤ n → read_digits 0 (pretty n) = Z.to_N n.
Proof.
  intros Hn. destruct n as [|p|p]; [done| |lia]. simpl.
  change (pretty (Z.pos p)) with (pretty_N_go (N.pos p) ""). by rewrite read_pretty_go.
Qed.

Lemma pretty_no_underscore (n : Z) : 0 ≤ n → no_underscore (pretty n).
Proof.
  intros Hn. destruct n as [|p|p]; [done| |lia].
  change (pretty (Z.pos p)) with (pretty_N_go (N.pos p) ""). by apply pretty_N_go_no_underscore.
Qed.

Lemma fmt02_no_underscore (n : Z) : 0 ≤ n → no_underscore (fmt02 n).
Proof.
  intros Hn. unfold fmt02. case_decide; [split; [done|]|]; by apply pretty_no_underscore.
Qed.

Lemma read_fmt02 (n : Z) : 0 ≤ n → read_digits 0 (fmt02 n) = Z.to_N n.
Proof.
  intros Hn. unfold fmt02. case_decide; [|by apply read_pretty].
  change (read_digits 0 (pretty n) = Z.to_N n). by apply read_pretty.
Qed.

Lemma family_name_opid (op1 op2 : Operator) (s1 s2 : string) :
  0 ≤ op_opid op1 → 0 ≤ op_opid op2 → family_name op1 s1 = family_name op2 s2 →
  op_opid op1 = op_opid op2.
Proof.
  unfold family_name. intros H1 H2 E. simpl in E. injection E as E.
  apply no_underscore_split in E; [|by apply fmt02_no_underscore..].
  apply (f_equal (read_digits 0)) in E. rewrite !read_fmt02 in E by done. lia.
Qed.

(** ** The channel tile *)
Lemma gdn_tile_loop_ok (fuel : nat) (C : Z) :
  ∃ k, (k ≤ fuel)%nat ∧ gdn_tile_loop fuel C (2 ^ Z.of_nat fuel) = Ok (2 ^ Z.of_nat k)
    ∧ (2 ^ Z.of_nat k | C) ∧ ∀ j, (k < j ≤ fuel)%nat → ¬ (2 ^ Z.of_nat j | C).
Proof.
  induction fuel as [|fuel IH]; cbn [gdn_tile_loop].
  - exists 0%nat. change (2 ^ Z.of_nat 0) with 1. rewrite py_mod_nz by lia. cbn [mbind result_bind].
    rewrite Z.mod_1_r. split_and!; [lia|done|apply Z.divide_1_l|lia].
  - assert (Hp : 0 < 2 ^ Z.of_nat (S fuel)) by (apply Z.pow_pos_nonneg; lia).
    rewrite py_mod_nz by lia. cbn [mbind result_bind]. case_decide as E.
    + exists (S fuel). split_and!; [lia|done|by apply Z.mod_divide; [lia|]|lia].
    + replace (2 ^ Z.of_nat (S fuel) / 2) with (2 ^ Z.of_nat fuel).
      * destruct IH as (k & Hk & -> & Hd & Hmax). exists k. split_and!; [lia|done|done|].
        intros j Hj. destruct (decide (j = S fuel)) as [->|]; [|apply Hmax; lia].
        intros Hdiv. apply E, Z.mod_divide; [lia|done].
      * rewrite Nat2Z.inj_succ, Z.pow_succ_r by lia. rewrite Z.mul_comm, Z.div_mul; lia.
Qed.

(** The channel tile of [gdn_conv]: the loop always stops within its ten
    halvings, at the largest power of two up to [ELEM_TILE] that divides the
    channel count, so the channel tiling is exact. *)
Theorem gdn_tile_spec (C : Z) :
  ∃ k, (k ≤ 10)%nat ∧ gdn_tile C = Ok (2 ^ Z.of_nat k) ∧ (2 ^ Z.of_nat k | C)
    ∧ ∀ j, (j ≤ 10)%nat → (2 ^ Z.of_nat j | C) → 2 ^ Z.of_nat j ≤ 2 ^ Z.of_nat k.
Proof.
  destruct (gdn_tile_loop_ok 10 C) as (k & Hk & Hl & Hd & Hmax). exists k. split_and!; [done|done|done|].
  intros j Hj Hdj. destruct (decide (k < j)%nat); [by destruct (Hmax j)|].
  apply Z.pow_le_mono_r; lia.
Qed.
