(* ===== verification/Operands.v ===== *)
(** * Operands of an operator

    How an operator declares an operand in its recorded regions, and what a
    tile of a lowered family may touch of it: the common vocabulary of the
    capture rules, which declare, and of the lowerings, which stay inside the
    declaration.  Three forms: the whole operand (up to run-time bounds), a
    pool addressed through a slot table, and a cache shared by groups of
    heads. *)

From S2P Require Import Prelude Indexing OperatorIR TaskIR SchedulePhase.
From S2P Require Import ScheduleStatic TileDependencies LoweringsCommon.
Local Open Scope Z_scope.

(** ** Tiles stay inside the view *)

(** [r] is a tile of [tv] that starts at non-negative indices. *)
Definition in_extent (tv : TensorValue) (r : Region) : Prop :=
  rg_view r = tv ∧ rg_storage_id r = tv_storage_id tv ∧ rg_indirect_table r = None
  ∧ Forall (λ b, 0 ≤ b.1) (rg_boxes r).

Definition whole_boxes (shape : list Z) : list (Z * bound) := (λ d, (0, BInt d)) <$> shape.

Lemma whole_loop_grows (shape strides : list Z) (lo hi : Z) :
  Forall (λ s, 0 ≤ s) strides →
  (span_loop (whole_boxes shape) strides shape lo hi).1 = lo
  ∧ hi ≤ (span_loop (whole_boxes shape) strides shape lo hi).2.
Proof.
  revert strides lo hi. induction shape as [|d shape IH]; intros strides lo hi Hs; simpl; [lia|].
  destruct strides as [|s strides]; simpl; [lia|]. apply Forall_cons in Hs as [Hs0 Hs].
  rewrite Z.min_id. destruct (0 <? d) eqn:Hd; zbool.
  - destruct (IH strides (lo + Z.min (0 * s) ((d - 1) * s)) (hi + Z.max (0 * s) ((d - 1) * s)) Hs).
    nia.
  - destruct (IH strides (lo + Z.min 0 0) (hi + Z.max 0 0) Hs). lia.
Qed.

Lemma span_loop_within (shape strides : list Z) (boxes : list (Z * bound)) (lo hi lo' hi' : Z) :
  Forall (λ s, 0 ≤ s) strides → Forall (λ b, 0 ≤ b.1) boxes → lo' ≤ lo → hi ≤ hi' →
  let tile := span_loop boxes strides shape lo hi in
  let all := span_loop (whole_boxes shape) strides shape lo' hi' in
  all.1 ≤ tile.1 ∧ tile.2 ≤ all.2.
Proof.
  revert strides boxes lo hi lo' hi'.
  induction shape as [|d shape IH]; intros strides boxes lo hi lo' hi' Hs Hb Hlo Hhi; simpl.
  { destruct boxes as [|[] ], strides; simpl; lia. }
  destruct boxes as [|[b e] boxes].
  { destruct (whole_loop_grows (d :: shape) strides lo' hi' Hs) as [H1 H2]. simpl in *. lia. }
  destruct strides as [|s strides]; simpl; [lia|].
  apply Forall_cons in Hs as [Hs0 Hs]. apply Forall_cons in Hb as [Hb0 Hb]. simpl in Hb0.
  assert (He : hi_eff e d ≤ d) by (destruct e; simpl; lia).
  rewrite Z.min_id. destruct (0 <? d) eqn:Hd, (b <? hi_eff e d) eqn:Hbe; zbool; try lia.
  all: apply IH; [done|done|nia|nia].
Qed.

Lemma span_loop_ordered (boxes : list (Z * bound)) (strides shape : list Z) (lo hi : Z) :
  lo ≤ hi →
  (span_loop boxes strides shape lo hi).1 ≤ (span_loop boxes strides shape lo hi).2.
Proof.
  revert strides shape lo hi. induction boxes as [|[b e] boxes IH]; intros strides shape lo hi H;
    [done|]. destruct strides as [|s strides], shape as [|d shape]; simpl; try done.
  destruct (b <? hi_eff e d); apply IH; lia.
Qed.

Lemma in_extent_whole (tv : TensorValue) : in_extent tv (whole tv).
Proof.
  split_and!; try done. cbn [whole region_whole rg_boxes]. apply Forall_fmap, Forall_forall.
  intros d _. simpl. lia.
Qed.

(** A tile is covered by the whole region of its view. *)
Lemma in_extent_within (tv : TensorValue) (r : Region) :
  Forall (λ s, 0 ≤ s) (tv_strides tv) → in_extent tv r → span_within r (region_whole tv).
Proof.
  intros Hs (Hv & Hsid & Hi & Hb). split; [done|]. unfold storage_span. rewrite Hi, Hv.
  cbn [region_whole rg_indirect_table rg_view rg_boxes].
  pose proof (span_loop_within (tv_shape tv) (tv_strides tv) (rg_boxes r) (tv_offset tv)
    (tv_offset tv) (tv_offset tv) (tv_offset tv) Hs Hb ltac:(lia) ltac:(lia)) as Hw.
  pose proof (span_loop_ordered (rg_boxes r) (tv_strides tv) (tv_shape tv) (tv_offset tv)
    (tv_offset tv) ltac:(lia)) as Ho.
  unfold whole_boxes in Hw. cbn zeta in Hw.
  destruct (span_loop (rg_boxes r) _ _ _ _) as [l h], (span_loop (_ <$> _) _ _ _ _) as [l' h'].
  simpl in *. lia.
Qed.

(** ** Regions with the span of the whole view *)
Definition covers_whole (tv : TensorValue) (R : Region) : Prop := span_within (region_whole tv) R.

#[export] Instance span_within_preorder : PreOrder span_within.
Proof.
  split; [intros r; split; [done|lia]|]. intros r1 r2 r3 (? & ? & ?) (? & ? & ?).
  split; [congruence|lia].
Qed.

Lemma span_loop_ext (bs Bs : list (Z * bound)) (strides shape : list Z) (lo hi : Z) :
  length bs = length Bs →
  (∀ i b B d, bs !! i = Some b → Bs !! i = Some B → shape !! i = Some d →
     b.1 = B.1 ∧ hi_eff b.2 d = hi_eff B.2 d) →
  span_loop bs strides shape lo hi = span_loop Bs strides shape lo hi.
Proof.
  revert Bs strides shape lo hi.
  induction bs as [|[l h] bs IH]; intros [|[L H] Bs] strides shape lo hi Hl He; try done.
  destruct strides as [|s strides], shape as [|d shape]; try done. simpl.
  destruct (He 0%nat _ _ d eq_refl eq_refl eq_refl) as [E1 E2]. simpl in E1, E2. rewrite E1, E2.
  assert (Hnext : ∀ lo hi, span_loop bs strides shape lo hi = span_loop Bs strides shape lo hi).
  { intros. apply IH; [by simpl in Hl; lia|]. intros i b B d' Hb HB Hd.
    exact (He (S i) b B d' Hb HB Hd). }
  destruct (L <? hi_eff H d); apply Hnext.
Qed.

(** A run-time bound: the analysis takes the full extent. *)
Definition unbounded (u : bound) : Prop := match u with BInt _ => False | _ => True end.

Lemma covers_whole_refl (tv : TensorValue) : covers_whole tv (region_whole tv).
Proof. unfold covers_whole. reflexivity. Qed.

Lemma covers_whole_prefix (tv : TensorValue) (axis : Z) (valid : ValidLength) :
  unbounded (if is_row valid then BRow valid else bound_of_expr (vl_expr valid)) →
  covers_whole tv (region_prefix tv axis valid).
Proof.
  intros Hu. split; [done|]. unfold storage_span. cbn [region_whole region_prefix rg_indirect_table rg_view rg_boxes].
  rewrite (span_loop_ext ((λ d, (0, BInt d)) <$> tv_shape tv)
    (imap (λ i d, if decide (Z.of_nat i = axis)
                  then (0, if is_row valid then BRow valid else bound_of_expr (vl_expr valid))
                  else (0, BInt d)) (tv_shape tv))).
  - destruct (span_loop _ _ _ _ _). simpl. lia.
  - by rewrite length_fmap, length_imap.
  - intros i b B d Hb HB Hd. rewrite list_lookup_fmap, Hd in Hb. rewrite list_lookup_imap, Hd in HB.
    simplify_eq/=. case_decide; simpl; [|done]. split; [done|].
    destruct (if is_row valid then _ else _); simpl in *; by rewrite ?Z.min_id.
Qed.

(** ** Pools behind a slot table *)
Definition pool_region (tv : TensorValue) (r : Region) : Prop :=
  rg_storage_id r = tv_storage_id tv ∧ rg_view r = tv ∧ is_Some (rg_indirect_table r).

(** A pool as the layout contract wants it: row-major, no empty dimension. *)
Definition pool_ok (tv : TensorValue) : Prop := dense tv ∧ Forall (λ d, 0 < d) (tv_shape tv).

Lemma whole_span_dense (shape strides : list Z) (lo hi : Z) :
  row_major shape strides → Forall (λ d, 0 < d) shape →
  span_loop (whole_boxes shape) strides shape lo hi = (lo, hi + (zprod shape - 1)).
Proof.
  revert strides lo hi. induction shape as [|d ds IH]; intros [|s ss] lo hi Hr Hp; try done.
  { simpl. f_equal. unfold zprod. simpl. lia. }
  destruct Hr as [Hs Hr]. apply Forall_cons in Hp as [Hd Hp]. pose proof (zprod_pos ds Hp).
  cbn [whole_boxes fmap list_fmap span_loop]. fold (whole_boxes ds). cbn [hi_eff]. rewrite Z.min_id.
  rewrite (proj2 (Z.ltb_lt 0 d)) by done. cbv iota beta zeta.
  assert (Hc : (d - 1) * s = zprod (d :: ds) - zprod ds).
  { rewrite zprod_cons. destruct Hs as [->| ->]; lia. }
  rewrite (IH ss _ _ Hr Hp), Hc, zprod_cons. f_equal; nia.
Qed.

Lemma pool_span (tv : TensorValue) (r : Region) :
  pool_ok tv → pool_region tv r → storage_span r = storage_span (region_whole tv).
Proof.
  intros [Hd Hp] (_ & Hv & [t Ht]). unfold storage_span. rewrite Ht, Hv.
  cbn [region_whole rg_indirect_table rg_view rg_boxes]. fold (whole_boxes (tv_shape tv)).
  rewrite whole_span_dense by auto using is_contiguous_row_major.
  pose proof (zprod_pos _ Hp). unfold numel. rewrite numel_of_zprod. f_equal. lia.
Qed.

Lemma covers_whole_pool (tv : TensorValue) (r : Region) :
  pool_ok tv → pool_region tv r → covers_whole tv r ∧ span_within r (region_whole tv).
Proof.
  intros Hp Hr. pose proof (pool_span _ _ Hp Hr) as E. destruct Hr as (Hs & _).
  unfold covers_whole, span_within. rewrite E. split; (split; [by rewrite Hs|lia]).
Qed.

(** ** Caches shared by groups of heads *)

(** The region capture records for the heads [[lo, hi)] of a cache, for a
    batch of [B] rows. *)
Definition head_slab (tv : TensorValue) (B lo hi : Z) (u : bound) (d : Z) : Region :=
  mk_region (tv_storage_id tv) tv [(0, BInt B); (lo, BInt hi); (0, u); (0, BInt d)] None (-1).

(** A tile over one row of the batch and one head. *)
Definition head_tile_at (tv : TensorValue) (bb hd : Z) (u : bound) (d : Z) (r : Region) : Prop :=
  rg_boxes r = [cell bb; cell hd; (0, u); (0, BInt d)].

(** What one dimension contributes to a span. *)
Definition contrib (s d : Z) (b : Z * bound) : Z * Z :=
  let h := hi_eff b.2 d in if b.1 <? h then (b.1 * s, (h - 1) * s) else (0, 0).

(** [b] contributes nothing outside [B]: it is a non-empty part of [B], or
    it is empty and [B] starts at zero. *)
Definition tight (d : Z) (b B : Z * bound) : Prop :=
  0 ≤ B.1 ∧ if decide (b.1 < hi_eff b.2 d) then B.1 ≤ b.1 ∧ hi_eff b.2 d ≤ hi_eff B.2 d else B.1 = 0.

Lemma tight_contrib (s d : Z) (b B : Z * bound) :
  0 ≤ s → tight d b B →
  Z.min (contrib s d B).1 (contrib s d B).2 ≤ Z.min (contrib s d b).1 (contrib s d b).2
  ∧ Z.max (contrib s d b).1 (contrib s d b).2 ≤ Z.max (contrib s d B).1 (contrib s d B).2.
Proof.
  intros Hs (Hl & Hz). unfold contrib. case_decide;
    destruct (b.1 <? hi_eff b.2 d) eqn:Eb, (B.1 <? hi_eff B.2 d) eqn:EB; zbool; simpl; nia.
Qed.

Lemma span_loop_step (b : Z * bound) (bs : list (Z * bound)) (s : Z) (ss : list Z) (d : Z)
    (ds : list Z) (lo hi : Z) :
  span_loop (b :: bs) (s :: ss) (d :: ds) lo hi =
  span_loop bs ss ds (lo + Z.min (contrib s d b).1 (contrib s d b).2)
    (hi + Z.max (contrib s d b).1 (contrib s d b).2).
Proof. destruct b as [l h]. unfold contrib. simpl. by destruct (l <? hi_eff h d). Qed.

Lemma span_loop_tight (bs Bs : list (Z * bound)) (strides shape : list Z) (lo hi lo' hi' : Z) :
  Forall (λ s, 0 ≤ s) strides → lo' ≤ lo → hi ≤ hi' → length bs = length Bs →
  (∀ i b B d, bs !! i = Some b → Bs !! i = Some B → shape !! i = Some d → tight d b B) →
  (span_loop Bs strides shape lo' hi').1 ≤ (span_loop bs strides shape lo hi).1
  ∧ (span_loop bs strides shape lo hi).2 ≤ (span_loop Bs strides shape lo' hi').2.
Proof.
  revert Bs strides shape lo hi lo' hi'.
  induction bs as [|b bs IH]; intros [|B Bs] strides shape lo hi lo' hi' Hs Hlo Hhi Hl Ht; try done.
  destruct strides as [|s ss]; [by destruct b, B|]. destruct shape as [|d ds]; [by destruct b, B|].
  rewrite !span_loop_step. apply Forall_cons in Hs as [Hs0 Hs].
  destruct (tight_contrib s d b B Hs0 (Ht 0%nat _ _ _ eq_refl eq_refl eq_refl)).
  apply IH; [done|lia|lia|by simpl in Hl; lia|]. intros i b' B' d' Hb HB Hd.
  exact (Ht (S i) _ _ _ Hb HB Hd).
Qed.

(** A tile of one head lies in a slab that contains the head, and, when the
    cache has no such head, in any slab from the first head on. *)
Lemma head_tile_within (tv : TensorValue) (B bb hd lo hi dr : Z) (u ut : bound) (r : Region) (d e : Z) :
  Forall (λ s, 0 ≤ s) (tv_strides tv) → in_extent tv r → head_tile_at tv bb hd ut dr r →
  py_index (tv_shape tv) 3 = Ok d → tv_shape tv !! 1%nat = Some e → unbounded u → 0 ≤ bb < B →
  (if decide (hd < e) then 0 ≤ lo ≤ hd ∧ hd < hi else lo = 0) →
  span_within r (head_slab tv B lo hi u d).
Proof.
  intros Hs (Hv & Hsid & Hi & _) Hb Hd He Hu Hbb Hhd. split; [done|]. unfold head_tile_at in Hb.
  unfold storage_span. rewrite Hi, Hv, Hb. cbn [head_slab rg_indirect_table rg_view rg_boxes].
  assert (Ht := span_loop_tight [cell bb; cell hd; (0, ut); (0, BInt dr)]
    [(0, BInt B); (lo, BInt hi); (0, u); (0, BInt d)] (tv_strides tv) (tv_shape tv)
    (tv_offset tv) (tv_offset tv) (tv_offset tv) (tv_offset tv) Hs ltac:(lia) ltac:(lia) eq_refl).
  destruct Ht as [Hslo Hshi].
  { assert (Hd' : tv_shape tv !! 3%nat = Some d) by (unfold py_index in Hd; by res_inv).
    intros [|[|[|[|i] ] ] ] b B' e' H1 H2 H3; simplify_eq/=; unfold tight; cbn [fst snd cell hi_eff].
    - split; [lia|]. repeat case_decide; lia.
    - repeat case_decide; lia.
    - split; [lia|]. clear Hhd. case_decide; [|done]. destruct u, ut; simpl in *; try done; lia.
    - split; [lia|]. repeat case_decide; lia. }
  pose proof (span_loop_ordered [cell bb; cell hd; (0, ut); (0, BInt dr)] (tv_strides tv) (tv_shape tv)
    (tv_offset tv) (tv_offset tv) ltac:(lia)).
  destruct (span_loop _ _ _ _ _) as [l h], (span_loop _ _ _ _ _) as [l' h']. simpl in *. lia.
Qed.

(** ** Operand positions *)
Section positions.
Local Open Scope string_scope.
Local Open Scope nat_scope.

(** Inputs a lowering does not declare to read: the routing tables of
    [moe_route] and the caches of the appends are only written, and slot
    tables are not declared. *)
Definition unread_inputs (kind : string) : list nat :=
  default [] (dict_get
    [("moe_route", [2; 3]); ("cache_append", [0; 1]); ("cache_append_paged", [0; 1; 2]);
     ("attention_scores_paged", [2]); ("attention_values_paged", [2]); ("compressor_append", [0])] kind).

(** Inputs an operator mutates. *)
Definition updated_inputs (kind : string) : list nat :=
  default [] (dict_get
    [("moe_route", [2; 3]); ("cache_append", [0; 1]); ("cache_append_paged", [0; 1]);
     ("compressor_append", [0; 1]); ("gdn_conv", [0]); ("gdn_delta", [0]); ("kda_delta", [0]);
     ("kda_fused_decode", [0; 1])] kind).

(** Inputs addressed through a slot table. *)
Definition pool_inputs (kind : string) : list nat :=
  default [] (dict_get
    [("cache_append_paged", [0; 1]); ("attention_scores_paged", [1]); ("attention_values_paged", [1]);
     ("mla_scores", [1]); ("mla_values", [1]); ("kda_fused_decode", [0; 1])] kind).

(** Caches whose heads may be shared by groups of query heads. *)
Definition head_inputs (kind : string) : list nat :=
  default [] (dict_get [("attention_scores", [1]); ("attention_values", [1])] kind).
End positions.

(** ** Declaration and use of an operand *)
Section operands.
Context (kind : string) (op : Operator) (graph : OperatorGraph).

(** The batch and head count of the first operand. *)
Definition q_dims (B Hq : Z) : Prop :=
  ∃ q, tensor_in op graph 0 = Ok q ∧ py_index (tv_shape q) 0 = Ok B ∧ py_index (tv_shape q) 1 = Ok Hq.

(** The recorded number of key-value heads. *)
Definition kv_heads_attr (n : Z) : Prop := op_attributes op !! "kv_heads"%string = Some (AInt n).

Definition covers_heads (tv : TensorValue) (rs : list Region) : Prop :=
  (∃ R, R ∈ rs ∧ covers_whole tv R)
  ∨ ∃ B Hq n u, q_dims B Hq ∧ kv_heads_attr n ∧ unbounded u
    ∧ ∀ h, 0 ≤ h < n → ∃ d, py_index (tv_shape tv) 3 = Ok d
                         ∧ head_slab tv B (h * (Hq / n)) ((h + 1) * (Hq / n)) u d ∈ rs.

(** How the recorded regions [rs] declare the operand [tv] at input [i]. *)
Definition operand_declared (i : nat) (tv : TensorValue) (rs : list Region) : Prop :=
  if decide (i ∈ pool_inputs kind) then ∃ R, R ∈ rs ∧ pool_region tv R
  else if decide (i ∈ head_inputs kind) then covers_heads tv rs
  else ∃ R, R ∈ rs ∧ covers_whole tv R.

(** A tile over one head that the lowering derives from a query head. *)
Definition head_use (tv : TensorValue) (r : Region) : Prop :=
  ∃ B Hq bb h u d, q_dims B Hq ∧ 0 ≤ bb < B ∧ 0 ≤ h < Hq
    ∧ (∀ n, kv_heads_attr n → 0 < n → 0 < Hq / n ∧ head_tile_at tv bb (h / (Hq / n)) u d r).

(** What a tile may touch of the operand at input [i]. *)
Definition operand_use (i : nat) (tv : TensorValue) (r : Region) : Prop :=
  (in_extent tv r ∧ (i ∈ head_inputs kind → head_use tv r))
  ∨ (i ∈ pool_inputs kind ∧ pool_region tv r).

(** Grouped heads divide the query heads. *)
Definition heads_ok : Prop := ∀ n, kv_heads_attr n → 0 < n ∧ ∀ B Hq, q_dims B Hq → (n | Hq).

Lemma declared_whole (i : nat) (tv : TensorValue) (rs : list Region) :
  i ∉ pool_inputs kind → (∃ R, R ∈ rs ∧ covers_whole tv R) → operand_declared i tv rs.
Proof.
  intros Hi HR. unfold operand_declared. rewrite decide_False by done. case_decide; [by left|done].
Qed.

Lemma declared_pool (i : nat) (tv : TensorValue) (rs : list Region) :
  i ∈ pool_inputs kind → (∃ R, R ∈ rs ∧ pool_region tv R) → operand_declared i tv rs.
Proof. intros Hi HR. unfold operand_declared. by rewrite decide_True. Qed.

Lemma q_dims_unique (B Hq B' Hq' : Z) : q_dims B Hq → q_dims B' Hq' → B = B' ∧ Hq = Hq'.
Proof.
  intros (q & Hq1 & H1 & H2) (q' & Hq1' & H1' & H2'). rewrite Hq1 in Hq1'. simplify_eq.
  rewrite H1 in H1'. rewrite H2 in H2'. by simplify_eq.
Qed.

Lemma head_covered (tv : TensorValue) (r : Region) (rs : list Region) :
  Forall (λ s, 0 ≤ s) (tv_strides tv) → heads_ok → covers_heads tv rs → in_extent tv r →
  head_use tv r → ∃ R, R ∈ rs ∧ span_within r R.
Proof.
  intros Hs Hok [(R & HR & Hc)|(B & Hq & n & u & Hq1 & Hn & Hu & Hall)] Hin
    (B' & Hq' & bb & h & ut & dt & Hq2 & Hbb & Hh & Htile).
  { exists R. split; [done|]. etrans; [by apply in_extent_within|done]. }
  destruct (q_dims_unique _ _ _ _ Hq1 Hq2) as [<- <-]. destruct (Hok _ Hn) as [Hpos Hdiv]. specialize (Hdiv _ _ Hq1).
  destruct (Htile n Hn Hpos) as [Hg Hat]. clear Htile.
  set (group := Hq / n) in *. assert (Hqn : Hq = n * group).
  { unfold group. rewrite <- Z.divide_div_mul_exact, Z.mul_comm, Z.div_mul; [done|lia|lia|done]. }
  set (hd := h / group) in *. assert (Hhd : 0 ≤ hd < n).
  { unfold hd. split; [by apply Z.div_pos; lia|]. apply Z.div_lt_upper_bound; [lia|].
    rewrite Hqn in Hh. lia. }
  pose proof (Z.div_mod hd group ltac:(lia)) as Hdm. pose proof (Z.mod_pos_bound hd group Hg) as Hmb.
  assert (Hgn : 0 ≤ hd / group < n).
  { split; [by apply Z.div_pos; lia|]. apply Z.div_lt_upper_bound; [lia|]. nia. }
  destruct (Hall 0 ltac:(lia)) as (d & Hd & H0).
  assert (Hext : ∃ e, tv_shape tv !! 1%nat = Some e).
  { apply lookup_lt_is_Some_2. unfold py_index in Hd.
    destruct (tv_shape tv !! 3%nat) eqn:E; [|done]. apply lookup_lt_Some in E. lia. }
  destruct Hext as [e He]. destruct (decide (hd < e)) as [Hlt|Hge].
  - exists (head_slab tv B (hd / group * group) ((hd / group + 1) * group) u d).
    destruct (Hall (hd / group) Hgn) as (d' & Hd' & Hin'). assert (d' = d) as -> by congruence.
    split; [done|]. eapply head_tile_within; [done..|]. rewrite decide_True by done. nia.
  - exists (head_slab tv B (0 * group) ((0 + 1) * group) u d). split; [done|].
    eapply head_tile_within; [done..|]. by rewrite decide_False.
Qed.

(** A tile within its use of a declared operand is covered. *)
Lemma tile_covered (i : nat) (tv : TensorValue) (r : Region) (rs : list Region) :
  Forall (λ s, 0 ≤ s) (tv_strides tv) → heads_ok → (i ∈ pool_inputs kind → pool_ok tv) →
  operand_declared i tv rs → operand_use i tv r → ∃ R, R ∈ rs ∧ span_within r R.
Proof.
  intros Hs Hh Hp Hdecl Huse. unfold operand_declared in Hdecl.
  destruct (decide (i ∈ pool_inputs kind)) as [Hi|Hi].
  { destruct Hdecl as (R & HR & Hpr). exists R. split; [done|].
    destruct (covers_whole_pool tv R (Hp Hi) Hpr) as [Hc _].
    etrans; [|exact Hc]. destruct Huse as [[Hin _]|[_ Hr]]; [by apply in_extent_within|].
    by apply (covers_whole_pool tv r (Hp Hi) Hr). }
  destruct Huse as [[Hin Hhd]|[? _]]; [|done].
  destruct (decide (i ∈ head_inputs kind)) as [Hih|_]; [by eapply head_covered; eauto|].
  destruct Hdecl as (R & HR & Hc). exists R. split; [done|]. etrans; [by apply in_extent_within|done].
Qed.
End operands.
