(* ===== verification/LoweringsDense.v ===== *)
(** * Dense lowerings (compiler/lowerings/dense.py)

    One definition per operator: its tile domain, the regions each task reads
    and writes, and the parameters of its body. *)

From S2P Require Import Prelude Indexing OperatorIR TaskIR LoweringsCommon.
Local Open Scope Z_scope.

(** ** linear *)

(** The diagonal blocks a tile of columns [[n0, n1)] of a grouped projection
    touches, one pair of regions per head. *)
Definition grouped_regions (x w : TensorValue) (m0 m1 n0 n1 k_g n_g gh : Z)
    : result (list Region) :=
  h0 ← py_floordiv n0 n_g;
  h1 ← py_floordiv (n1 + n_g - 1) n_g;
  hs ← py_range h0 (Z.min gh h1) 1;
  fold_result (λ regs h,
    let h_n0 := Z.max n0 (h * n_g) in
    let h_n1 := Z.min n1 ((h + 1) * n_g) in
    rx ← tile_region x [span m0 m1; span (h * k_g) ((h + 1) * k_g)];
    rw ← tile_region w [span (h * k_g) ((h + 1) * k_g);
                        span (h * n_g + (h_n0 - h * n_g)) (h * n_g + (h_n1 - h * n_g))];
    Ok (regs ++ [rx; rw])) [] hs.

Definition bias_regions (bias : option TensorValue) (n0 n1 : Z) : result (list Region) :=
  match bias with
  | None => Ok []
  | Some b => r ← tile_region b [span n0 n1]; Ok [r]
  end.

Definition linear_reads (x w : TensorValue) (bias : option TensorValue) (k : Z) (gh : attr)
    (domain : TileDomain) : RegionFn := λ cs,
  '((m0, m1), (n0, n1)) ← pair_box domain cs;
  if truthy gh then
    g ← as_int gh;
    k_g ← py_floordiv k g;
    wn ← py_index (tv_shape w) 1;
    n_g ← py_floordiv wn g;
    regs ← grouped_regions x w m0 m1 n0 n1 k_g n_g g;
    bs ← bias_regions bias n0 n1;
    Ok (regs ++ bs)
  else
    regs ← regions [tile_region x [span m0 m1; span 0 k]; tile_region w [span 0 k; span n0 n1]];
    bs ← bias_regions bias n0 n1;
    Ok (regs ++ bs).

Definition gemm_writes (y : TensorValue) (domain : TileDomain) : RegionFn := λ cs,
  '((m0, m1), (n0, n1)) ← pair_box domain cs;
  regions [tile_region y [span m0 m1; span n0 n1]].

Definition lower_linear (op : Operator) (graph : OperatorGraph) : result TaskFamily :=
  x ← tensor_in op graph 0;
  w ← tensor_in op graph 1;
  bias ← tensor_in_opt op graph 2;
  y ← tensor_out op graph 0;
  k ← py_index (tv_shape x) 1;
  let gh := attr_or op "grouped_heads" ANone in
  domain ← gemm_domain x w;
  grouped ← (if truthy gh then
               g ← as_int gh;
               k_g ← py_floordiv k g;
               wn ← py_index (tv_shape w) 1;
               n_g ← py_floordiv wn g;
               Ok [("k_g", AInt k_g); ("n_g", AInt n_g)]
             else Ok []);
  Ok (mk_family (family_name op "linear") "gemm" op domain
        ([tv_name x; tv_name w] ++ (match bias with Some b => [tv_name b] | None => [] end))
        [tv_name y]
        (attr_dict ([("bias", ABool (bool_decide (is_Some bias))); ("tile_m", AInt GEMM_TILE_M);
                     ("tile_n", AInt GEMM_TILE_N); ("grouped_heads", gh)] ++ grouped))
        THREADS_PER_WORKER (2 * GEMM_TILE_M * 16 * 4)
        (Some (linear_reads x w bias k gh domain)) (Some (gemm_writes y domain))).

(** ** linear_fp8 *)
Definition linear_fp8_reads (x w scale : TensorValue) (k qb kb : Z) (domain : TileDomain)
    : RegionFn := λ cs,
  '((m0, m1), (n0, n1)) ← pair_box domain cs;
  sb ← py_floordiv n0 qb;
  regions [tile_region x [span m0 m1; span 0 k];
           tile_region w [span n0 n1; span 0 k];
           tile_region scale [span sb (sb + 1); span 0 kb]].

Definition lower_linear_fp8 (op : Operator) (graph : OperatorGraph) : result TaskFamily :=
  x ← tensor_in op graph 0;
  w ← tensor_in op graph 1;
  scale ← tensor_in op graph 2;
  y ← tensor_out op graph 0;
  _ ← require (bool_decide (attr_or op "weight_layout" ANone = AStr "fp8_block"))
        (ValueError "linear_fp8: unsupported weight_layout");
  qb ← as_int (attr_or op "quant_block" (AInt 128));
  '(m, k) ← unpack2 (tv_shape x);
  '(n, k_w) ← unpack2 (tv_shape w);
  _ ← require (k_w =? k) (ValueError "linear_fp8: weight contraction mismatch");
  kr ← py_mod k qb;
  _ ← require ((kr =? 0) && (n `mod` GEMV_FP8_TILE_N =? 0) && is_contiguous w)
        (ValueError "linear_fp8: K, N or layout");
  _ ← require (bool_decide (tv_dtype scale = F32) && bool_decide (tv_dtype w = F8_E4M3))
        (ValueError "linear_fp8: dtypes must be e4m3 weights + fp32 scales");
  let domain := mk_domain [(m, GEMM_TILE_M); (n, GEMV_FP8_TILE_N)] in
  kb ← py_floordiv k qb;
  Ok (mk_family (family_name op "linear_fp8") "gemv_fp8" op domain
        [tv_name x; tv_name w; tv_name scale] [tv_name y]
        (attr_dict [("bias", ABool false); ("tile_m", AInt GEMM_TILE_M);
                    ("tile_n", AInt GEMV_FP8_TILE_N); ("quant_block", AInt qb)])
        THREADS_PER_WORKER ((GEMV_FP8_TILE_N + 1) * qb * 4)
        (Some (linear_fp8_reads x w scale k qb kb domain)) (Some (gemm_writes y domain))).

(** ** Normalisations *)

(** [(coords[0], coords[0] + 1)] then the whole row. *)
Definition row_tile (view : TensorValue) (width : Z) (cs : list Z) : result Region :=
  r ← py_index cs 0; tile_region view [cell r; span 0 width].

(** [b, h = coords]: one head row of a 3-D view. *)
Definition head_tile (view : TensorValue) (D : Z) (cs : list Z) : result Region :=
  '(b, h) ← unpack2 cs; tile_region view [cell b; cell h; span 0 D].

Definition lower_layer_norm (op : Operator) (graph : OperatorGraph) : result TaskFamily :=
  x ← tensor_in op graph 0;
  gamma ← tensor_in op graph 1;
  beta ← tensor_in op graph 2;
  y ← tensor_out op graph 0;
  '(rows, width) ← unpack2 (tv_shape x);
  let domain := mk_domain [(rows, 1); (width, width)] in
  let reads : RegionFn := λ cs, regions [row_tile x width cs; Ok (whole gamma); Ok (whole beta)] in
  let writes : RegionFn := λ cs, regions [row_tile y width cs] in
  Ok (mk_family (family_name op "layernorm") "layernorm" op domain
        [tv_name x; tv_name gamma; tv_name beta] [tv_name y]
        (attr_dict [("eps", attr_or op "eps" (AFloat (FLit 1 (-5))))])
        THREADS_PER_WORKER (2 * width * 4) (Some reads) (Some writes)).

Definition lower_rms_norm (op : Operator) (graph : OperatorGraph) : result TaskFamily :=
  x ← tensor_in op graph 0;
  gamma ← tensor_in op graph 1;
  y ← tensor_out op graph 0;
  '(domain, reads, writes, width) ←
    (if decide (length (tv_shape x) = 3%nat) then
       '(B, H, D) ← unpack3 (tv_shape x);
       Ok (mk_domain [(B, 1); (H, 1)],
           (λ cs, regions [head_tile x D cs; Ok (whole gamma)]) : RegionFn,
           (λ cs, regions [head_tile y D cs]) : RegionFn, D)
     else
       '(rows, width) ← unpack2 (tv_shape x);
       Ok (mk_domain [(rows, 1); (width, width)],
           (λ cs, regions [row_tile x width cs; Ok (whole gamma)]) : RegionFn,
           (λ cs, regions [row_tile y width cs]) : RegionFn, width));
  Ok (mk_family (family_name op "rmsnorm") "rms_norm" op domain
        [tv_name x; tv_name gamma] [tv_name y]
        (attr_dict [("eps", attr_or op "eps" (AFloat (FLit 1 (-6))))])
        THREADS_PER_WORKER (width * 4) (Some reads) (Some writes)).

Definition lower_rms_norm_gated (op : Operator) (graph : OperatorGraph) : result TaskFamily :=
  x ← tensor_in op graph 0;
  gate ← tensor_in op graph 1;
  gamma ← tensor_in op graph 2;
  y ← tensor_out op graph 0;
  let activation := attr_or op "activation" (AStr "sigmoid") in
  _ ← require (bool_decide (activation = AStr "sigmoid"))
        (ValueError "rms_norm_gated: unsupported activation");
  _ ← require (bool_decide (tv_shape gate = tv_shape x)) (ValueError "rms_norm_gated: gate != x");
  '(domain, reads, writes, width) ←
    (if decide (length (tv_shape x) = 3%nat) then
       '(B, H, D) ← unpack3 (tv_shape x);
       _ ← require (bool_decide (tv_shape gamma = [D])) (ValueError "rms_norm_gated: weight");
       Ok (mk_domain [(B, 1); (H, 1)],
           (λ cs, regions [head_tile x D cs; head_tile gate D cs; Ok (whole gamma)]) : RegionFn,
           (λ cs, regions [head_tile y D cs]) : RegionFn, D)
     else
       '(rows, width) ← unpack2 (tv_shape x);
       _ ← require (bool_decide (tv_shape gamma = [width])) (ValueError "rms_norm_gated: weight");
       Ok (mk_domain [(rows, 1); (width, width)],
           (λ cs, regions [row_tile x width cs; row_tile gate width cs; Ok (whole gamma)]) : RegionFn,
           (λ cs, regions [row_tile y width cs]) : RegionFn, width));
  Ok (mk_family (family_name op "rmsnorm_gated") "rms_norm_gated" op domain
        [tv_name x; tv_name gate; tv_name gamma] [tv_name y]
        (attr_dict [("eps", attr_or op "eps" (AFloat (FLit 1 (-6)))); ("activation", activation)])
        THREADS_PER_WORKER (2 * width * 4) (Some reads) (Some writes)).

Definition lower_rope (op : Operator) (graph : OperatorGraph) : result TaskFamily :=
  x ← tensor_in op graph 0;
  cos_t ← tensor_in op graph 1;
  sin_t ← tensor_in op graph 2;
  y ← tensor_out op graph 0;
  '(B, H, D) ← unpack3 (tv_shape x);
  let domain := mk_domain [(B, 1); (H, 1)] in
  let reads : RegionFn := λ cs,
    regions [head_tile x D cs; Ok (whole cos_t); Ok (whole sin_t)] in
  let writes : RegionFn := λ cs, regions [head_tile y D cs] in
  Ok (mk_family (family_name op "rope") "rope" op domain
        [tv_name x; tv_name cos_t; tv_name sin_t] [tv_name y]
        (attr_dict [("layer", attr_or op "layer" (AInt 0)); ("which", attr_or op "which" (AStr "q"));
                    ("position", attr_or op "position" (AStr "p"));
                    ("position_form", attr_or op "position_form" (AStr "scalar"));
                    ("convention", attr_or op "convention" (AStr "rotate_half"));
                    ("rotary_dim", attr_or op "rotary_dim" (AInt D))])
        THREADS_PER_WORKER (D * 4) (Some reads) (Some writes)).

(** ** Elementwise operators *)

(** Task [c] covers the elements [[c * ELEM_TILE, min((c+1) * ELEM_TILE, n))]. *)
Definition elem_box (view : TensorValue) (n : Z) (cs : list Z) : result (list (Z * bound)) :=
  c ← py_index cs 0;
  flat_box view (c * ELEM_TILE) (Z.min ((c + 1) * ELEM_TILE) n).

Definition lower_gelu (op : Operator) (graph : OperatorGraph) : result TaskFamily :=
  x ← tensor_in op graph 0;
  y ← tensor_out op graph 0;
  let domain := mk_domain [(numel x, ELEM_TILE)] in
  let reads : RegionFn := λ cs,
    regions [box ← elem_box x (numel x) cs; tile_region x box] in
  let writes : RegionFn := λ cs,
    regions [box ← elem_box y (numel y) cs; tile_region y box] in
  Ok (mk_family (family_name op "gelu") "elementwise" op domain
        [tv_name x] [tv_name y] (attr_dict [("op", AStr "gelu")])
        THREADS_PER_WORKER 0 (Some reads) (Some writes)).

Definition lower_swiglu (op : Operator) (graph : OperatorGraph) : result TaskFamily :=
  gate ← tensor_in op graph 0;
  up ← tensor_in op graph 1;
  y ← tensor_out op graph 0;
  let domain := mk_domain [(numel gate, ELEM_TILE)] in
  let reads : RegionFn := λ cs,
    box ← elem_box gate (numel gate) cs;
    regions [tile_region gate box; tile_region up box] in
  let writes : RegionFn := λ cs,
    box ← elem_box y (numel y) cs; regions [tile_region y box] in
  Ok (mk_family (family_name op "swiglu") "elementwise" op domain
        [tv_name gate; tv_name up] [tv_name y] (attr_dict [("op", AStr "swiglu")])
        THREADS_PER_WORKER 0 (Some reads) (Some writes)).

Definition lower_add (op : Operator) (graph : OperatorGraph) : result TaskFamily :=
  a ← tensor_in op graph 0;
  b ← tensor_in op graph 1;
  y ← tensor_out op graph 0;
  let domain := mk_domain [(numel a, ELEM_TILE)] in
  let reads : RegionFn := λ cs,
    box ← elem_box a (numel a) cs;
    regions [tile_region a box; tile_region b box] in
  let writes : RegionFn := λ cs,
    box ← elem_box y (numel y) cs; regions [tile_region y box] in
  Ok (mk_family (family_name op "add") "elementwise" op domain
        [tv_name a; tv_name b] [tv_name y] (attr_dict [("op", AStr "add")])
        THREADS_PER_WORKER 0 (Some reads) (Some writes)).

(** ** embedding *)

(** The columns of task [coords[1]]: all of them when one tile covers them. *)
Definition embed_cols (domain : TileDomain) (width : Z) (cs : list Z) : result (Z * Z) :=
  grid ← task_grid domain;
  g1 ← py_index grid 1;
  if decide (g1 = 1) then Ok (0, width)
  else c ← py_index cs 1; Ok (c * EMBED_TILE_C, Z.min ((c + 1) * EMBED_TILE_C) width).

Definition lower_embedding (op : Operator) (graph : OperatorGraph) : result TaskFamily :=
  ids ← tensor_in op graph 0;
  token ← tensor_in op graph 1;
  pos ← tensor_in_opt op graph 2;
  y ← tensor_out op graph 0;
  '(rows, width) ← unpack2 (tv_shape y);
  let domain := mk_domain [(rows, 1); (width, Z.min EMBED_TILE_C width)] in
  let reads : RegionFn := λ cs,
    b ← py_index cs 0;
    _ ← embed_cols domain width cs;
    rs ← regions [tile_region ids [cell b]; Ok (whole token)];
    Ok (rs ++ match pos with Some p => [whole p] | None => [] end) in
  let writes : RegionFn := λ cs,
    b ← py_index cs 0;
    '(c0, c1) ← embed_cols domain width cs;
    regions [tile_region y [cell b; span c0 c1]] in
  Ok (mk_family (family_name op "embedding") "embedding" op domain
        ([tv_name ids; tv_name token] ++ match pos with Some p => [tv_name p] | None => [] end)
        [tv_name y]
        (attr_dict [("position", attr_or op "position" (AStr "p"));
                    ("position_form", attr_or op "position_form" (AStr "scalar"));
                    ("pos_table", ABool (bool_decide (is_Some pos)))])
        THREADS_PER_WORKER 0 (Some reads) (Some writes)).

(** ** Mixture of experts *)
Definition lower_moe_route (op : Operator) (graph : OperatorGraph) : result TaskFamily :=
  x ← tensor_in op graph 0;
  router_w ← tensor_in op graph 1;
  ids ← tensor_in op graph 2;
  weights ← tensor_in op graph 3;
  '(b, h) ← unpack2 (tv_shape x);
  '(e, h_w) ← unpack2 (tv_shape router_w);
  k ← py_index (tv_shape ids) 1;
  _ ← require (h_w =? h) (ValueError "moe_route: contraction mismatch");
  mode ← attr_req op "mode";
  score_fn ← attr_req op "score_fn";
  extra ← (if decide (mode = AStr "hash") then
             e4 ← py_index (op_inputs op) 4; e5 ← py_index (op_inputs op) 5; Ok [e4; e5]
           else if decide (score_fn = AStr "sigmoid_noaux_tc") then
             e4 ← py_index (op_inputs op) 4; Ok [e4]
           else Ok []);
  let domain := mk_domain [(b, 1)] in
  let reads : RegionFn := λ cs,
    rs ← regions [row_tile x h cs; Ok (whole router_w)];
    es ← map_result (λ name, whole <$> graph_tensor graph name) extra;
    Ok (rs ++ es) in
  let writes : RegionFn := λ cs, regions [row_tile ids k cs; row_tile weights k cs] in
  Ok (mk_family (family_name op "moe_route") "moe_route" op domain
        ([tv_name x; tv_name router_w; tv_name ids; tv_name weights] ++ extra)
        [tv_name ids; tv_name weights] (op_attributes op)
        THREADS_PER_WORKER (e * 4) (Some reads) (Some writes)).

Definition lower_moe_expert (op : Operator) (graph : OperatorGraph) : result TaskFamily :=
  x ← tensor_in op graph 0;
  gate_up ← tensor_in op graph 1;
  down ← tensor_in op graph 2;
  ids ← tensor_in op graph 3;
  partials ← tensor_out op graph 0;
  '(b, h) ← unpack2 (tv_shape x);
  '(e, two_i, h_w) ← unpack3 (tv_shape gate_up);
  let inter := two_i / 2 in
  k ← py_index (tv_shape ids) 1;
  _ ← require ((h_w =? h) && bool_decide (tv_shape down = [e; h; inter]))
        (ValueError "moe_expert: expert stack shape mismatch");
  let domain := mk_domain [(b, 1); (k, 1)] in
  let reads : RegionFn := λ cs,
    '(r, s) ← unpack2 cs;
    regions [tile_region x [cell r; span 0 h]; Ok (whole gate_up); Ok (whole down); Ok (whole ids)] in
  let writes : RegionFn := λ cs,
    '(r, s) ← unpack2 cs; regions [tile_region partials [cell r; cell s; span 0 h]] in
  Ok (mk_family (family_name op "moe_expert") "moe_expert" op domain
        [tv_name x; tv_name gate_up; tv_name down; tv_name ids] [tv_name partials]
        (op_attributes op) THREADS_PER_WORKER ((two_i + h) * 4) (Some reads) (Some writes)).

Definition lower_moe_combine (op : Operator) (graph : OperatorGraph) : result TaskFamily :=
  partials ← tensor_in op graph 0;
  weights ← tensor_in op graph 1;
  shared ← tensor_in_opt op graph 2;
  y ← tensor_out op graph 0;
  '(b, k, h) ← unpack3 (tv_shape partials);
  let domain := mk_domain [(b, 1)] in
  let reads : RegionFn := λ cs,
    Ok ([whole partials; whole weights] ++ match shared with Some s => [whole s] | None => [] end) in
  let writes : RegionFn := λ cs, regions [row_tile y h cs] in
  Ok (mk_family (family_name op "moe_combine") "moe_combine" op domain
        ([tv_name partials; tv_name weights] ++ match shared with Some s => [tv_name s] | None => [] end)
        [tv_name y] (op_attributes op) THREADS_PER_WORKER 0 (Some reads) (Some writes)).
