(* ===== verification/LoweringsAttention.v ===== *)
(** * Attention lowerings (compiler/lowerings/attention.py)

    One definition per operator, as in [LoweringsDense]; symbolic bounds of
    the cache regions come from the position the operator recorded. *)

From S2P Require Import Prelude Indexing OperatorIR TaskIR LoweringsCommon LoweringsDense.
Local Open Scope Z_scope.

(** The entries [[t * 64, min(t * 64 + 64, m))] of an indexer tile. *)
Definition indexer_span (m t : Z) : Z * bound :=
  span (t * INDEXER_TILE_M) (Z.min (t * INDEXER_TILE_M + INDEXER_TILE_M) m).

Definition lower_indexer_scores (op : Operator) (graph : OperatorGraph) : result TaskFamily :=
  q ← tensor_in op graph 0;
  c ← tensor_in op graph 1;
  w ← tensor_in op graph 2;
  s ← tensor_out op graph 0;
  '(b, h, d) ← unpack3 (tv_shape q);
  m ← py_index (tv_shape c) 1;
  _ ← require (bool_decide (attr_or op "activation" ANone = AStr "relu"))
        (ValueError "indexer_scores: unsupported activation");
  _ ← require (is_contiguous c) (ValueError "indexer_scores: entries must be row-major contiguous");
  let domain := mk_domain [(b, 1); (m, INDEXER_TILE_M)] in
  let reads : RegionFn := λ cs,
    '(bi, t) ← unpack2 cs;
    regions [tile_region q [cell bi; span 0 h; span 0 d];
             tile_region c [cell bi; indexer_span m t; span 0 d];
             tile_region w [cell bi; span 0 h]] in
  let writes : RegionFn := λ cs,
    '(bi, t) ← unpack2 cs; regions [tile_region s [cell bi; indexer_span m t]] in
  scale ← attr_req op "scale";
  Ok (mk_family (family_name op "indexer_scores") "indexer_scores" op domain
        [tv_name q; tv_name c; tv_name w] [tv_name s]
        (attr_dict [("heads", AInt h); ("head_dim", AInt d); ("capacity", AInt m); ("scale", scale);
                    ("tile_m", AInt INDEXER_TILE_M)])
        THREADS_PER_WORKER ((INDEXER_TILE_M + 1) * d * 4) (Some reads) (Some writes)).

Definition lower_index_topk (op : Operator) (graph : OperatorGraph) : result TaskFamily :=
  s ← tensor_in op graph 0;
  valid ← tensor_in op graph 1;
  idx ← tensor_out op graph 0;
  bias ← tensor_out op graph 1;
  '(b, m) ← unpack2 (tv_shape s);
  let k_attr := attr_or op "k" ANone in
  k ← of_option (ValueError "index_topk: k must be an int in [1, M]")
        (k ← is_int k_attr; if (1 <=? k) && (k <=? m) then Some k else None);
  _ ← require (bool_decide (attr_or op "tie_break" ANone = AStr "lowest_index"))
        (ValueError "index_topk: unsupported tie_break");
  let domain := mk_domain [(b, 1)] in
  let reads : RegionFn := λ cs,
    bi ← unpack1 cs;
    regions [tile_region s [cell bi; span 0 m]; tile_region valid [cell bi]] in
  let writes : RegionFn := λ cs,
    bi ← unpack1 cs;
    regions [tile_region idx [cell bi; span 0 k]; tile_region bias [cell bi; span 0 k]] in
  Ok (mk_family (family_name op "index_topk") "index_topk" op domain
        [tv_name s; tv_name valid] [tv_name idx; tv_name bias]
        (attr_dict [("k", k_attr); ("capacity", AInt m); ("tie_break", AStr "lowest_index")])
        THREADS_PER_WORKER 0 (Some reads) (Some writes)).

(** [{"layer": ..., "position": p, "position_form": ...}] *)
Definition position_params (op : Operator) : list (string * attr) :=
  [("layer", attr_or op "layer" (AInt 0)); ("position", attr_or op "position" (AStr "p"));
   ("position_form", attr_or op "position_form" (AStr "scalar"))].

Definition lower_cache_append (op : Operator) (graph : OperatorGraph) : result TaskFamily :=
  k_cache ← tensor_in op graph 0;
  v_cache ← tensor_in op graph 1;
  k_new ← tensor_in op graph 2;
  v_new ← tensor_in op graph 3;
  '(B, H, Scap, D) ← unpack4 (tv_shape k_cache);
  let domain := mk_domain [(B, 1); (H, 1)] in
  let p := attr_or op "position" (AStr "p") in
  let reads : RegionFn := λ cs, regions [head_tile k_new D cs; head_tile v_new D cs] in
  let writes : RegionFn := λ cs,
    '(b, h) ← unpack2 cs;
    pt ← position_text p;
    let prefix := [cell b; cell h; upto pt; span 0 D] in
    regions [tile_region k_cache prefix; tile_region v_cache prefix] in
  Ok (mk_family (family_name op "cache_append") "cache_append" op domain
        [tv_name k_cache; tv_name v_cache; tv_name k_new; tv_name v_new] []
        (attr_dict (position_params op)) THREADS_PER_WORKER 0 (Some reads) (Some writes)).

(** The whole of a 3-D pool, written out dimension by dimension. *)
Definition pool_tile (pool : TensorValue) : result Region :=
  d0 ← py_index (tv_shape pool) 0;
  d1 ← py_index (tv_shape pool) 1;
  d2 ← py_index (tv_shape pool) 2;
  tile_region pool [span 0 d0; span 0 d1; span 0 d2].

Definition lower_cache_append_paged (op : Operator) (graph : OperatorGraph) : result TaskFamily :=
  k_pool ← tensor_in op graph 0;
  v_pool ← tensor_in op graph 1;
  slot_table ← tensor_in op graph 2;
  k_new ← tensor_in op graph 3;
  v_new ← tensor_in op graph 4;
  '(B, KVH, D) ← unpack3 (tv_shape k_new);
  let domain := mk_domain [(B, 1); (KVH, 1)] in
  let reads : RegionFn := λ cs, regions [head_tile k_new D cs; head_tile v_new D cs] in
  let writes : RegionFn := λ cs, regions [pool_tile k_pool; pool_tile v_pool] in
  Ok (mk_family (family_name op "cache_append_paged") "cache_append_paged" op domain
        [tv_name k_pool; tv_name v_pool; tv_name slot_table; tv_name k_new; tv_name v_new] []
        (attr_dict (position_params op)) THREADS_PER_WORKER 0 (Some reads) (Some writes)).

(** [kvh = op.attributes.get("kv_heads", Hq) or Hq; group = Hq // kvh] *)
Definition head_group (op : Operator) (Hq : Z) : result (attr * Z) :=
  let v := attr_or op "kv_heads" (AInt Hq) in
  let kvh := if truthy v then v else AInt Hq in
  n ← as_int kvh;
  group ← py_floordiv Hq n;
  Ok (kvh, group).

(** [float(op.attributes.get("scale") or 0.0)] *)
Definition scale_param (op : Operator) : result attr :=
  let v := attr_or op "scale" ANone in
  to_float (if truthy v then v else AFloat (FLit 0 0)).

Definition lower_attention_scores (op : Operator) (graph : OperatorGraph) : result TaskFamily :=
  q ← tensor_in op graph 0;
  k_cache ← tensor_in op graph 1;
  y ← tensor_out op graph 0;
  B ← py_index (tv_shape q) 0;
  Hq ← py_index (tv_shape q) 1;
  Scap ← py_index (tv_shape k_cache) 2;
  D ← py_index (tv_shape k_cache) 3;
  '(kvh, group) ← head_group op Hq;
  let domain := mk_domain [(B, 1); (Hq, 1)] in
  let p := attr_or op "position" (AStr "p") in
  let reads : RegionFn := λ cs,
    '(b, h) ← unpack2 cs;
    pt ← position_text p;
    rq ← tile_region q [cell b; cell h; span 0 D];
    hg ← py_floordiv h group;
    rk ← tile_region k_cache [cell b; cell hg; upto pt; span 0 D];
    Ok [rq; rk] in
  let writes : RegionFn := λ cs,
    '(b, h) ← unpack2 cs;
    pt ← position_text p;
    regions [tile_region y [cell b; cell h; upto pt]] in
  scale ← scale_param op;
  Ok (mk_family (family_name op "attn_scores") "attention_scores" op domain
        [tv_name q; tv_name k_cache] [tv_name y]
        (attr_dict (("scale", scale) :: position_params op
                    ++ [("kv_heads", kvh); ("group", AInt group)]))
        THREADS_PER_WORKER (Scap * 4) (Some reads) (Some writes)).

Definition lower_attention_scores_paged (op : Operator) (graph : OperatorGraph) : result TaskFamily :=
  q ← tensor_in op graph 0;
  k_pool ← tensor_in op graph 1;
  slot_table ← tensor_in op graph 2;
  y ← tensor_out op graph 0;
  B ← py_index (tv_shape q) 0;
  Hq ← py_index (tv_shape q) 1;
  Scap ← py_index (tv_shape slot_table) 1;
  '(kvh, group) ← head_group op Hq;
  let domain := mk_domain [(B, 1); (Hq, 1)] in
  let p := attr_or op "position" (AStr "p") in
  let reads : RegionFn := λ cs,
    '(b, h) ← unpack2 cs;
    d2 ← py_index (tv_shape q) 2;
    regions [tile_region q [cell b; cell h; span 0 d2]; pool_tile k_pool] in
  let writes : RegionFn := λ cs,
    '(b, h) ← unpack2 cs;
    pt ← position_text p;
    regions [tile_region y [cell b; cell h; upto pt]] in
  scale ← scale_param op;
  Ok (mk_family (family_name op "attn_scores_paged") "attention_scores_paged" op domain
        [tv_name q; tv_name k_pool; tv_name slot_table] [tv_name y]
        (attr_dict (("scale", scale) :: position_params op
                    ++ [("kv_heads", kvh); ("group", AInt group)]))
        THREADS_PER_WORKER (Scap * 4) (Some reads) (Some writes)).

(** ** Latent attention *)
Definition lower_mla_scores (op : Operator) (graph : OperatorGraph) : result TaskFamily :=
  q ← tensor_in op graph 0;
  latent ← tensor_in op graph 1;
  window_table ← tensor_in op graph 2;
  comp_pool ← tensor_in op graph 3;
  comp_idx ← tensor_in op graph 4;
  sink ← tensor_in op graph 5;
  bias ← tensor_in_opt op graph 6;
  probs ← tensor_out op graph 0;
  '(b, h, _) ← unpack3 (tv_shape q);
  W ← attr_req op "window";
  K ← attr_req op "comp_slots";
  let domain := mk_domain [(b, 1); (h, 1)] in
  let names := (tv_name <$> [q; latent; window_table; comp_pool; comp_idx; sink])
               ++ match bias with Some t => [tv_name t] | None => [] end in
  let reads : RegionFn := λ cs,
    '(bb, hh) ← unpack2 cs;
    q2 ← py_index (tv_shape q) 2;
    rq ← tile_region q [cell bb; cell hh; span 0 q2];
    l1 ← py_index (tv_shape latent) 1;
    l2 ← py_index (tv_shape latent) 2;
    rl ← tile_region latent [cell bb; span 0 l1; span 0 l2];
    w1 ← py_index (tv_shape window_table) 1;
    rw ← tile_region window_table [cell bb; span 0 w1];
    c1 ← py_index (tv_shape comp_pool) 1;
    c2 ← py_index (tv_shape comp_pool) 2;
    rc ← tile_region comp_pool [cell bb; span 0 c1; span 0 c2];
    k ← as_int K;
    ri ← tile_region comp_idx [cell bb; span 0 k];
    rs ← (if decide (length (tv_shape sink) = 2%nat) then tile_region sink [cell bb; cell hh]
          else tile_region sink [cell hh]);
    match bias with
    | None => Ok [rq; rl; rw; rc; ri; rs]
    | Some t => rb ← tile_region t [cell bb; span 0 k]; Ok [rq; rl; rw; rc; ri; rs; rb]
    end in
  let writes : RegionFn := λ cs,
    '(bb, hh) ← unpack2 cs;
    w ← as_int W;
    k ← as_int K;
    regions [tile_region probs [cell bb; cell hh; span 0 (w + k + 1)]] in
  scale_attr ← attr_req op "scale";
  scale ← to_float scale_attr;
  layer ← attr_req op "layer";
  position ← attr_req op "position";
  Ok (mk_family (family_name op "mla_scores") "mla_scores" op domain names [tv_name probs]
        (attr_dict [("scale", scale); ("layer", layer); ("position", position); ("window", W);
                    ("comp_slots", K); ("position_form", attr_or op "position_form" (AStr "scalar"))])
        THREADS_PER_WORKER 0 (Some reads) (Some writes)).

Definition lower_mla_values (op : Operator) (graph : OperatorGraph) : result TaskFamily :=
  probs ← tensor_in op graph 0;
  latent ← tensor_in op graph 1;
  window_table ← tensor_in op graph 2;
  comp_pool ← tensor_in op graph 3;
  comp_idx ← tensor_in op graph 4;
  ctx ← tensor_out op graph 0;
  '(b, h, _) ← unpack3 (tv_shape probs);
  W ← attr_req op "window";
  K ← attr_req op "comp_slots";
  let domain := mk_domain [(b, 1); (h, 1)] in
  d ← py_index (tv_shape latent) 2;
  let reads : RegionFn := λ cs,
    '(bb, hh) ← unpack2 cs;
    w ← as_int W;
    k ← as_int K;
    rp ← tile_region probs [cell bb; cell hh; span 0 (w + k + 1)];
    l1 ← py_index (tv_shape latent) 1;
    rl ← tile_region latent [cell bb; span 0 l1; span 0 d];
    w1 ← py_index (tv_shape window_table) 1;
    rw ← tile_region window_table [cell bb; span 0 w1];
    c1 ← py_index (tv_shape comp_pool) 1;
    rc ← tile_region comp_pool [cell bb; span 0 c1; span 0 d];
    ri ← tile_region comp_idx [cell bb; span 0 k];
    Ok [rp; rl; rw; rc; ri] in
  let writes : RegionFn := λ cs, regions [head_tile ctx d cs] in
  layer ← attr_req op "layer";
  position ← attr_req op "position";
  Ok (mk_family (family_name op "mla_values") "mla_values" op domain
        [tv_name probs; tv_name latent; tv_name window_table; tv_name comp_pool; tv_name comp_idx]
        [tv_name ctx]
        (attr_dict [("layer", layer); ("position", position); ("window", W); ("comp_slots", K);
                    ("position_form", attr_or op "position_form" (AStr "scalar"))])
        THREADS_PER_WORKER 0 (Some reads) (Some writes)).

(** [((0, t.shape[0]), (0, t.shape[1]))] *)
Definition table_tile (t : TensorValue) : result Region :=
  d0 ← py_index (tv_shape t) 0;
  d1 ← py_index (tv_shape t) 1;
  tile_region t [span 0 d0; span 0 d1].

Definition lower_conjugate_rope (op : Operator) (graph : OperatorGraph) : result TaskFamily :=
  x ← tensor_in op graph 0;
  cos_t ← tensor_in op graph 1;
  sin_t ← tensor_in op graph 2;
  y ← tensor_out op graph 0;
  b ← py_index (tv_shape x) 0;
  h ← py_index (tv_shape x) 1;
  let row (view : TensorValue) : RegionFn := λ cs,
    '(bb, hh) ← unpack2 cs;
    d ← py_index (tv_shape x) 2;
    regions [tile_region view [cell bb; cell hh; span 0 d]] in
  let reads : RegionFn := λ cs,
    rx ← row x cs; rc ← table_tile cos_t; rs ← table_tile sin_t; Ok (rx ++ [rc; rs]) in
  let writes : RegionFn := λ cs, row y cs in
  layer ← attr_req op "layer";
  which ← attr_req op "which";
  position ← attr_req op "position";
  convention ← attr_req op "convention";
  rotary_dim ← attr_req op "rotary_dim";
  Ok (mk_family (family_name op "conjugate_rope") "conjugate_rope" op (mk_domain [(b, 1); (h, 1)])
        [tv_name x; tv_name cos_t; tv_name sin_t] [tv_name y]
        (attr_dict [("layer", layer); ("which", which); ("position", position);
                    ("convention", convention); ("rotary_dim", rotary_dim);
                    ("position_form", attr_or op "position_form" (AStr "scalar"))])
        THREADS_PER_WORKER 0 (Some reads) (Some writes)).

(** ** Softmax and values *)
Definition lower_softmax (op : Operator) (graph : OperatorGraph) : result TaskFamily :=
  x ← tensor_in op graph 0;
  y ← tensor_out op graph 0;
  '(B, H, Scap) ← unpack3 (tv_shape x);
  let domain := mk_domain [(B, 1); (H, 1)] in
  let p := attr_or op "position" (AStr "p") in
  let reads : RegionFn := λ cs,
    '(b, h) ← unpack2 cs;
    pt ← position_text p;
    regions [tile_region x [cell b; cell h; upto pt]] in
  let writes : RegionFn := λ cs, regions [head_tile y Scap cs] in
  Ok (mk_family (family_name op "softmax") "softmax" op domain [tv_name x] [tv_name y]
        (attr_dict (position_params op)) THREADS_PER_WORKER (2 * Scap * 4) (Some reads) (Some writes)).

Definition lower_attention_values (op : Operator) (graph : OperatorGraph) : result TaskFamily :=
  let gated := attr_or op "gated" (ABool false) in
  probs ← tensor_in op graph 0;
  v_cache ← tensor_in op graph 1;
  gate ← (if truthy gated then Some <$> tensor_in op graph 2 else Ok None);
  y ← tensor_out op graph 0;
  B ← py_index (tv_shape probs) 0;
  Hq ← py_index (tv_shape probs) 1;
  D ← py_index (tv_shape v_cache) 3;
  '(kvh, group) ← head_group op Hq;
  let domain := mk_domain [(B, 1); (Hq, 1)] in
  let p := attr_or op "position" (AStr "p") in
  let reads : RegionFn := λ cs,
    '(b, h) ← unpack2 cs;
    pt ← position_text p;
    rp ← tile_region probs [cell b; cell h; upto pt];
    hg ← py_floordiv h group;
    rv ← tile_region v_cache [cell b; cell hg; upto pt; span 0 D];
    match gate with
    | None => Ok [rp; rv]
    | Some g => rg ← tile_region g [cell b; cell h; span 0 D]; Ok [rp; rv; rg]
    end in
  let writes : RegionFn := λ cs, regions [head_tile y D cs] in
  Ok (mk_family (family_name op "attn_values") "attention_values" op domain
        ([tv_name probs; tv_name v_cache] ++ match gate with Some g => [tv_name g] | None => [] end)
        [tv_name y]
        (attr_dict (position_params op
                    ++ [("kv_heads", kvh); ("group", AInt group); ("gated", gated)]))
        THREADS_PER_WORKER (D * 4) (Some reads) (Some writes)).

Definition lower_attention_values_paged (op : Operator) (graph : OperatorGraph) : result TaskFamily :=
  probs ← tensor_in op graph 0;
  v_pool ← tensor_in op graph 1;
  slot_table ← tensor_in op graph 2;
  y ← tensor_out op graph 0;
  B ← py_index (tv_shape probs) 0;
  Hq ← py_index (tv_shape probs) 1;
  D ← py_index (tv_shape v_pool) 2;
  '(kvh, group) ← head_group op Hq;
  let domain := mk_domain [(B, 1); (Hq, 1)] in
  let p := attr_or op "position" (AStr "p") in
  let reads : RegionFn := λ cs,
    '(b, h) ← unpack2 cs;
    pt ← position_text p;
    regions [tile_region probs [cell b; cell h; upto pt]; pool_tile v_pool] in
  let writes : RegionFn := λ cs, regions [head_tile y D cs] in
  Ok (mk_family (family_name op "attn_values_paged") "attention_values_paged" op domain
        [tv_name probs; tv_name v_pool; tv_name slot_table] [tv_name y]
        (attr_dict (position_params op ++ [("kv_heads", kvh); ("group", AInt group)]))
        THREADS_PER_WORKER (D * 4) (Some reads) (Some writes)).
