(* ===== verification/LoweringsRecurrent.v ===== *)
(** * Recurrent lowerings (compiler/lowerings/recurrent.py)

    One definition per operator, as in [LoweringsDense]; the state tensors
    are both read and written by the tasks. *)

From S2P Require Import Prelude Indexing OperatorIR TaskIR LoweringsCommon LoweringsDense.
Local Open Scope Z_scope.

Definition lower_gdn_conv (op : Operator) (graph : OperatorGraph) : result TaskFamily :=
  state ← tensor_in op graph 0;
  x ← tensor_in op graph 1;
  w ← tensor_in op graph 2;
  out ← tensor_out op graph 0;
  '(B, Km1, C) ← unpack3 (tv_shape state);
  let K := Km1 + 1 in
  _ ← require (bool_decide (tv_shape w = [C; K])) (ValueError "gdn_conv FIR weights");
  tile ← gdn_tile C;
  let domain := mk_domain [(B, 1); (C, tile)] in
  let cols (c : Z) := span (c * tile) (Z.min ((c + 1) * tile) C) in
  let reads : RegionFn := λ cs,
    '(b, c) ← unpack2 cs;
    regions [tile_region state [cell b; span 0 Km1; cols c];
             tile_region x [cell b; cols c];
             tile_region w [cols c; span 0 K]] in
  let writes : RegionFn := λ cs,
    '(b, c) ← unpack2 cs;
    regions [tile_region state [cell b; span 0 Km1; cols c]; tile_region out [cell b; cols c]] in
  Ok (mk_family (family_name op "gdn_conv") "gdn_conv" op domain
        [tv_name state; tv_name x; tv_name w] [tv_name out]
        (attr_dict [("layer", attr_or op "layer" (AInt 0)); ("conv_kernel", AInt K); ("tile", AInt tile)])
        THREADS_PER_WORKER (tile * 4) (Some reads) (Some writes)).

Definition lower_gdn_delta (op : Operator) (graph : OperatorGraph) : result TaskFamily :=
  state ← tensor_in op graph 0;
  q ← tensor_in op graph 1;
  k ← tensor_in op graph 2;
  v ← tensor_in op graph 3;
  z ← tensor_in op graph 4;
  a ← tensor_in op graph 5;
  b ← tensor_in op graph 6;
  a_log ← tensor_in op graph 7;
  dt_bias ← tensor_in op graph 8;
  norm_w ← tensor_in op graph 9;
  out ← tensor_out op graph 0;
  '(B, NV, HV, HK) ← unpack4 (tv_shape state);
  NK ← py_index (tv_shape q) 1;
  r ← py_mod NV NK;
  _ ← require (r =? 0) (ValueError "gdn_delta head group must divide");
  let domain := mk_domain [(B, 1); (NV, 1)] in
  let reads : RegionFn := λ cs,
    '(bb, h) ← unpack2 cs;
    group ← py_floordiv NV NK;
    kh ← py_floordiv h group;
    regions [tile_region state [cell bb; cell h; span 0 HV; span 0 HK];
             tile_region q [cell bb; cell kh; span 0 HK];
             tile_region k [cell bb; cell kh; span 0 HK];
             tile_region v [cell bb; cell h; span 0 HV];
             tile_region z [cell bb; cell h; span 0 HV];
             tile_region a [cell bb; cell h];
             tile_region b [cell bb; cell h];
             Ok (whole a_log); Ok (whole dt_bias); Ok (whole norm_w)] in
  let writes : RegionFn := λ cs,
    '(bb, h) ← unpack2 cs;
    regions [tile_region state [cell bb; cell h; span 0 HV; span 0 HK];
             tile_region out [cell bb; cell h; span 0 HV]] in
  Ok (mk_family (family_name op "gdn_delta") "gdn_delta" op domain
        (tv_name <$> [state; q; k; v; z; a; b; a_log; dt_bias; norm_w]) [tv_name out]
        (attr_dict [("layer", attr_or op "layer" (AInt 0));
                    ("scale", attr_or op "scale" (AFloat (FLit 1 0)));
                    ("eps", attr_or op "eps" (AFloat (FLit 1 (-6))))])
        THREADS_PER_WORKER (HV * HK * 4) (Some reads) (Some writes)).

Definition lower_kda_delta (op : Operator) (graph : OperatorGraph) : result TaskFamily :=
  state ← tensor_in op graph 0;
  q ← tensor_in op graph 1;
  k ← tensor_in op graph 2;
  v ← tensor_in op graph 3;
  f ← tensor_in op graph 4;
  b ← tensor_in op graph 5;
  dt_bias ← tensor_in op graph 6;
  A_log ← tensor_in op graph 7;
  out ← tensor_out op graph 0;
  '(B, H, K, V) ← unpack4 (tv_shape state);
  let domain := mk_domain [(B, 1); (H, 1)] in
  let reads : RegionFn := λ cs,
    '(bb, h) ← unpack2 cs;
    regions [tile_region state [cell bb; cell h; span 0 K; span 0 V];
             tile_region q [cell bb; cell h; span 0 K];
             tile_region k [cell bb; cell h; span 0 K];
             tile_region v [cell bb; cell h; span 0 V];
             tile_region f [cell bb; cell h; span 0 K];
             tile_region b [cell bb; cell h];
             Ok (whole dt_bias); Ok (whole A_log)] in
  let writes : RegionFn := λ cs,
    '(bb, h) ← unpack2 cs;
    regions [tile_region state [cell bb; cell h; span 0 K; span 0 V];
             tile_region out [cell bb; cell h; span 0 V]] in
  Ok (mk_family (family_name op "kda_delta") "kda_delta" op domain
        (tv_name <$> [state; q; k; v; f; b; dt_bias; A_log]) [tv_name out]
        (attr_dict [("layer", attr_or op "layer" (AInt 0));
                    ("scale", attr_or op "scale" (AFloat (FLit 1 0)));
                    ("lower_bound", attr_or op "lower_bound" ANone)])
        THREADS_PER_WORKER (K * V * 4) (Some reads) (Some writes)).

(** [Region.indirect(pool, slot_ids, axis=0)] *)
Definition slot_region (pool slot_ids : TensorValue) : result Region :=
  region_indirect pool slot_ids 0 None.

Definition lower_kda_fused_decode (op : Operator) (graph : OperatorGraph) : result TaskFamily :=
  conv ← tensor_in op graph 0;
  ssm ← tensor_in op graph 1;
  slot_ids ← tensor_in op graph 2;
  qkv_raw ← tensor_in op graph 3;
  f_raw ← tensor_in op graph 4;
  b_raw ← tensor_in op graph 5;
  g_raw ← tensor_in op graph 6;
  taps ← tensor_in op graph 7;
  dt_bias ← tensor_in op graph 8;
  A_log ← tensor_in op graph 9;
  o_norm ← tensor_in op graph 10;
  out ← tensor_out op graph 0;
  Kw ← py_index (tv_shape conv) 1;
  Cc ← py_index (tv_shape conv) 2;
  '(H, V, K) ← unpack3 (tail (tv_shape ssm));
  B ← py_index (tv_shape out) 0;
  let seg := Cc / 3 in
  let domain := mk_domain [(B, 1); (H, 1)] in
  let reads : RegionFn := λ cs,
    '(bb, h) ← unpack2 cs;
    regions [slot_region conv slot_ids;
             slot_region ssm slot_ids;
             tile_region slot_ids [cell bb];
             tile_region qkv_raw [cell bb; span (h * K) ((h + 1) * K)];
             tile_region qkv_raw [cell bb; span (seg + h * K) (seg + (h + 1) * K)];
             tile_region qkv_raw [cell bb; span (2 * seg + h * K) (2 * seg + (h + 1) * K)];
             tile_region f_raw [cell bb; cell h; span 0 K];
             tile_region b_raw [cell bb; cell h];
             tile_region g_raw [cell bb; cell h; span 0 V];
             Ok (whole taps); Ok (whole dt_bias); Ok (whole A_log); Ok (whole o_norm)] in
  let writes : RegionFn := λ cs,
    '(bb, h) ← unpack2 cs;
    regions [slot_region conv slot_ids; slot_region ssm slot_ids;
             tile_region out [cell bb; cell h; span 0 V]] in
  Ok (mk_family (family_name op "kda_fused") "kda_fused_decode" op domain
        (tv_name <$> [conv; ssm; slot_ids; qkv_raw; f_raw; b_raw; g_raw; taps; dt_bias; A_log; o_norm])
        [tv_name out]
        (attr_dict [("layer", attr_or op "layer" (AInt 0));
                    ("scale", attr_or op "scale" (AFloat (FLit 1 0)));
                    ("eps", attr_or op "eps" (AFloat (FLit 1 (-6))));
                    ("lower_bound", attr_or op "lower_bound" ANone);
                    ("head_dim", AInt K); ("conv_taps", AInt (Kw + 1)); ("conv_dim", AInt Cc)])
        THREADS_PER_WORKER (V * K * 4 + 3 * K * 4) (Some reads) (Some writes)).

(** ** Multi-stream mixing *)
Definition lower_mhc_pre (op : Operator) (graph : OperatorGraph) : result TaskFamily :=
  streams ← tensor_in op graph 0;
  fn ← tensor_in op graph 1;
  base ← tensor_in op graph 2;
  scale ← tensor_in op graph 3;
  h_in ← tensor_out op graph 0;
  post_w ← tensor_out op graph 1;
  comb ← tensor_out op graph 2;
  '(B, hc, C) ← unpack3 (tv_shape streams);
  let mix := (2 + hc) * hc in
  _ ← require (bool_decide (tv_shape fn = [mix; hc * C])) (ValueError "mhc_pre fn");
  let domain := mk_domain [(B, 1)] in
  let reads : RegionFn := λ cs,
    bb ← unpack1 cs;
    regions [tile_region streams [cell bb; span 0 hc; span 0 C];
             Ok (whole fn); Ok (whole base); Ok (whole scale)] in
  let writes : RegionFn := λ cs,
    bb ← unpack1 cs;
    regions [tile_region h_in [cell bb; span 0 C];
             tile_region post_w [cell bb; span 0 hc];
             tile_region comb [cell bb; span 0 hc; span 0 hc]] in
  eps ← to_float (attr_or op "eps" (AFloat (FLit 1 (-6))));
  rms_eps ← to_float (attr_or op "rms_eps" (AFloat (FLit 1 (-6))));
  Ok (mk_family (family_name op "mhc_pre") "mhc_pre" op domain
        [tv_name streams; tv_name fn; tv_name base; tv_name scale]
        [tv_name h_in; tv_name post_w; tv_name comb]
        (attr_dict [("layer", attr_or op "layer" (AInt 0)); ("hc", AInt hc);
                    ("iters", attr_or op "iters" (AInt 1)); ("eps", eps); ("rms_eps", rms_eps)])
        THREADS_PER_WORKER (hc * C * 4) (Some reads) (Some writes)).

Definition lower_mhc_post (op : Operator) (graph : OperatorGraph) : result TaskFamily :=
  streams ← tensor_in op graph 0;
  body_out ← tensor_in op graph 1;
  post_w ← tensor_in op graph 2;
  comb ← tensor_in op graph 3;
  streams_post ← tensor_out op graph 0;
  '(B, hc, C) ← unpack3 (tv_shape streams);
  let domain := mk_domain [(B, 1); (hc, 1)] in
  let reads : RegionFn := λ cs,
    '(bb, j) ← unpack2 cs;
    regions [tile_region streams [cell bb; span 0 hc; span 0 C];
             tile_region body_out [cell bb; span 0 C];
             tile_region post_w [cell bb; cell j];
             tile_region comb [cell bb; span 0 hc; cell j]] in
  let writes : RegionFn := λ cs, regions [head_tile streams_post C cs] in
  Ok (mk_family (family_name op "mhc_post") "mhc_post" op domain
        [tv_name streams; tv_name body_out; tv_name post_w; tv_name comb] [tv_name streams_post]
        (attr_dict [("layer", attr_or op "layer" (AInt 0)); ("hc", AInt hc)])
        THREADS_PER_WORKER (C * 4) (Some reads) (Some writes)).

Definition lower_compressor_append (op : Operator) (graph : OperatorGraph) : result TaskFamily :=
  pool ← tensor_in op graph 0;
  state ← tensor_in op graph 1;
  window ← tensor_in op graph 2;
  gates ← tensor_in op graph 3;
  rms_w ← tensor_in op graph 4;
  cos ← tensor_in op graph 5;
  sin ← tensor_in op graph 6;
  '(b, mw, d) ← unpack3 (tv_shape window);
  let m_attr := attr_or op "m" ANone in
  let r_attr := attr_or op "r" ANone in
  '(m, r) ← of_option (ValueError "compressor_append: needs r % m == 0")
              (m ← is_int m_attr; r ← is_int r_attr;
               if (0 <? m) && (0 <? r) && (r `mod` m =? 0) then Some (m, r) else None);
  _ ← require (mw =? m) (ValueError "compressor_append: window token axis");
  '(_, layers, _, _, _) ← unpack5 (tv_shape pool);
  let domain := mk_domain [(b, 1); (layers, 1)] in
  let p := attr_or op "position" (AStr "p") in
  let reads : RegionFn := λ cs,
    '(bi, _) ← unpack2 cs;
    regions [tile_region window [cell bi; span 0 m; span 0 d];
             tile_region gates [cell bi; span 0 m];
             tile_region rms_w [span 0 d];
             tile_region cos [cell bi; span 0 (d / 2)];
             tile_region sin [cell bi; span 0 (d / 2)];
             tile_region state [cell bi; span 0 layers; span 0 2]] in
  let writes : RegionFn := λ cs,
    '(bi, _) ← unpack2 cs;
    regions [tile_region pool [cell bi; span 0 layers; span 0 2; span 0 (r / m); span 0 d];
             tile_region state [cell bi; span 0 layers; span 0 2]] in
  Ok (mk_family (family_name op "compressor_append") "compressor_append" op domain
        (tv_name <$> [pool; state; window; gates; rms_w; cos; sin]) []
        (attr_dict [("m", m_attr); ("r", r_attr); ("eps", attr_or op "eps" (AFloat (FLit 1 (-6))));
                    ("position", p); ("position_form", attr_or op "position_form" (AStr "scalar"))])
        THREADS_PER_WORKER 0 (Some reads) (Some writes)).
