(* ===== verification/Lowerings.v ===== *)
(** * The lowering registry (compiler/lowerings/__init__.py)

    Dispatch of an operator to its lowering, and what every lowering of the
    registry guarantees. *)

From S2P Require Import Prelude Indexing OperatorIR TaskIR Contracts.
From S2P Require Import LoweringsCommon LoweringsDense LoweringsAttention LoweringsRecurrent.
Local Open Scope Z_scope.

(** ** The registry *)
Definition Factory : Type := Operator → OperatorGraph → result TaskFamily.

(** [globals()[spec.lowering]] *)
Definition lowering_named (name : string) : option Factory :=
  match name with
  | "lower_linear" => Some lower_linear
  | "lower_linear_fp8" => Some lower_linear_fp8
  | "lower_indexer_scores" => Some lower_indexer_scores
  | "lower_index_topk" => Some lower_index_topk
  | "lower_layer_norm" => Some lower_layer_norm
  | "lower_rms_norm" => Some lower_rms_norm
  | "lower_rms_norm_gated" => Some lower_rms_norm_gated
  | "lower_rope" => Some lower_rope
  | "lower_gelu" => Some lower_gelu
  | "lower_swiglu" => Some lower_swiglu
  | "lower_add" => Some lower_add
  | "lower_embedding" => Some lower_embedding
  | "lower_cache_append" => Some lower_cache_append
  | "lower_gdn_conv" => Some lower_gdn_conv
  | "lower_gdn_delta" => Some lower_gdn_delta
  | "lower_kda_delta" => Some lower_kda_delta
  | "lower_kda_fused_decode" => Some lower_kda_fused_decode
  | "lower_cache_append_paged" => Some lower_cache_append_paged
  | "lower_mhc_pre" => Some lower_mhc_pre
  | "lower_mhc_post" => Some lower_mhc_post
  | "lower_attention_scores" => Some lower_attention_scores
  | "lower_attention_scores_paged" => Some lower_attention_scores_paged
  | "lower_mla_scores" => Some lower_mla_scores
  | "lower_mla_values" => Some lower_mla_values
  | "lower_conjugate_rope" => Some lower_conjugate_rope
  | "lower_softmax" => Some lower_softmax
  | "lower_attention_values" => Some lower_attention_values
  | "lower_attention_values_paged" => Some lower_attention_values_paged
  | "lower_moe_route" => Some lower_moe_route
  | "lower_moe_expert" => Some lower_moe_expert
  | "lower_moe_combine" => Some lower_moe_combine
  | "lower_compressor_append" => Some lower_compressor_append
  | _ => None
  end%string.

Definition LOWERINGS : dict string (option Factory) :=
  (λ kc, (kc.1, lowering_named (oc_lowering kc.2))) <$> CONTRACTS.

(** [LOWERINGS.get(kind)]; a name missing from the module is an import error
    in the source, [registry_ok] below shows that there is none. *)
Definition factory_of (kind : string) : option Factory := mjoin (dict_get LOWERINGS kind).

Definition lower_op (op : Operator) (graph : OperatorGraph) : result TaskFamily :=
  _ ← match dict_get CONTRACTS (op_kind op) with
      | Some c => validate_attributes c (op_attributes op)
      | None => Ok tt
      end;
  match factory_of (op_kind op) with
  | None => Err (KeyError "no task lowering registered for operator kind")
  | Some factory => factory op graph
  end.

Definition lower_graph (graph : OperatorGraph) : result (list TaskFamily) :=
  map_result (λ op, lower_op op graph) (g_ops graph).

(** The number of distinct thread counts decides: an empty diagnostic list
    when there is exactly one. *)
Definition check_thread_contract (families : list TaskFamily) : list string :=
  let threads : gset Z := list_to_set (tf_threads <$> families) in
  if decide (size threads = 1%nat) then [] else ["thread-group contract mismatch"%string].

(** ** What every lowering guarantees *)

(** A lowering keeps the operator, uses the common thread count, names the
    family after the operator, and builds tasks of the given kind. *)
Definition lowers (task_kind : string) (factory : Factory) : Prop := ∀ op graph f,
  factory op graph = Ok f →
  tf_op f = op ∧ tf_threads f = THREADS_PER_WORKER ∧ tf_kind f = task_kind
  ∧ ∃ suffix, tf_family_id f = family_name op suffix.

Ltac lowers_tac :=
  intros op graph f H; repeat (progress (res_inv; cbn beta iota in *)); simpl; eauto.

(** The registry agrees with the contract table: each contract names a
    lowering that exists and builds tasks of the contract's task kind. *)
Definition registered_ok (kc : string * OperatorContract) : Prop :=
  oc_kind kc.2 = kc.1 ∧ ∃ factory, lowering_named (oc_lowering kc.2) = Some factory
                                   ∧ lowers (oc_task_kind kc.2) factory.

Lemma registry_ok : Forall registered_ok CONTRACTS.
Proof.
  unfold CONTRACTS.
  repeat (apply Forall_cons; split; [split; [reflexivity|eexists; split; [reflexivity|]]|]);
    [..|constructor]; cbn [oc_task_kind snd].
  - unfold lower_linear. lowers_tac.
  - unfold lower_linear_fp8. lowers_tac.
  - unfold lower_indexer_scores. lowers_tac.
  - unfold lower_index_topk. lowers_tac.
  - unfold lower_layer_norm. lowers_tac.
  - unfold lower_rms_norm. lowers_tac.
  - unfold lower_rms_norm_gated. lowers_tac.
  - unfold lower_rope. lowers_tac.
  - unfold lower_gelu. lowers_tac.
  - unfold lower_swiglu. lowers_tac.
  - unfold lower_add. lowers_tac.
  - unfold lower_embedding. lowers_tac.
  - unfold lower_cache_append. lowers_tac.
  - unfold lower_gdn_conv. lowers_tac.
  - unfold lower_gdn_delta. lowers_tac.
  - unfold lower_kda_delta. lowers_tac.
  - unfold lower_kda_fused_decode. lowers_tac.
  - unfold lower_cache_append_paged. lowers_tac.
  - unfold lower_mhc_pre. lowers_tac.
  - unfold lower_mhc_post. lowers_tac.
  - unfold lower_attention_scores. lowers_tac.
  - unfold lower_attention_scores_paged. lowers_tac.
  - unfold lower_mla_scores. lowers_tac.
  - unfold lower_mla_values. lowers_tac.
  - unfold lower_conjugate_rope. lowers_tac.
  - unfold lower_softmax. lowers_tac.
  - unfold lower_attention_values. lowers_tac.
  - unfold lower_attention_values_paged. lowers_tac.
  - unfold lower_moe_route. lowers_tac.
  - unfold lower_moe_expert. lowers_tac.
  - unfold lower_moe_combine. lowers_tac.
  - unfold lower_compressor_append. lowers_tac.
Qed.

Lemma factory_of_contract (kind : string) (c : OperatorContract) :
  dict_get CONTRACTS kind = Some c → factory_of kind = lowering_named (oc_lowering c).
Proof.
  unfold factory_of, LOWERINGS. intros Hc.
  assert (E : dict_get ((λ kc : string * OperatorContract, (kc.1, lowering_named (oc_lowering kc.2)))
              <$> CONTRACTS) kind = Some (lowering_named (oc_lowering c))); [|by rewrite E].
  revert Hc. generalize CONTRACTS as cs. induction cs as [|[k c'] cs IH]; [done|].
  rewrite fmap_cons. simpl. case_decide; [|done]. by intros [= ->].
Qed.

Lemma lowering_of_contract (kind : string) (c : OperatorContract) :
  dict_get CONTRACTS kind = Some c →
  oc_kind c = kind ∧ ∃ factory, factory_of kind = Some factory
                                ∧ lowers (oc_task_kind c) factory.
Proof.
  intros Hc. pose proof registry_ok as Hr. rewrite Forall_forall in Hr.
  destruct (Hr (kind, c) (dict_get_elem _ _ _ Hc)) as (Hk & factory & Hn & Hl).
  cbn [fst snd] in *. split; [done|].
  exists factory. by rewrite (factory_of_contract _ _ Hc).
Qed.

Lemma lowering_of_unknown (kind : string) :
  dict_get CONTRACTS kind = None → factory_of kind = None.
Proof.
  unfold factory_of, LOWERINGS. generalize CONTRACTS as cs. intros cs Hc.
  assert (E : dict_get ((λ kc : string * OperatorContract, (kc.1, lowering_named (oc_lowering kc.2)))
              <$> cs) kind = None); [|by rewrite E].
  revert Hc. induction cs as [|[k c'] cs IH]; [done|]. rewrite fmap_cons. simpl. by case_decide.
Qed.

Lemma lower_op_ok (op : Operator) (graph : OperatorGraph) (f : TaskFamily) :
  lower_op op graph = Ok f →
  ∃ c, dict_get CONTRACTS (op_kind op) = Some c ∧ validate_attributes c (op_attributes op) = Ok tt
    ∧ tf_op f = op ∧ tf_threads f = THREADS_PER_WORKER ∧ tf_kind f = oc_task_kind c
    ∧ ∃ suffix, tf_family_id f = family_name op suffix.
Proof.
  unfold lower_op. destruct (dict_get CONTRACTS (op_kind op)) as [c|] eqn:Hc.
  - destruct (lowering_of_contract _ _ Hc) as (_ & factory & -> & Hl).
    destruct (validate_attributes c (op_attributes op)) as [[]|] eqn:Hv; [|done]. intros Hf.
    exists c. split; [done|]. split; [done|]. by apply (Hl op graph f Hf).
  - by rewrite (lowering_of_unknown _ Hc).
Qed.

(** Some checked attribute with a wrong type makes the validation raise. *)
Lemma validate_attributes_error (c : OperatorContract) (attributes : attrs) (name : string)
    (ty : pytype) (v : attr) :
  (name, ty) ∈ oc_attribute_types c → attributes !! name = Some v → isinstance v ty = false →
  ∃ bad, bad ∈ (oc_attribute_types c).*1
    ∧ validate_attributes c attributes = Err (TypeError (oc_kind c +:+ "." +:+ bad)).
Proof.
  unfold validate_attributes. generalize (oc_attribute_types c) as l.
  induction l as [|[n t] l IH]; [by intros ?%elem_of_nil|]. intros Hin Hv Hi.
  rewrite fmap_cons. cbn [fold_result fst snd]. unfold require.
  destruct (attributes !! n) as [w|] eqn:Hw; [destruct (isinstance w t) eqn:Hwt|].
  2: { exists n. split; [left|done]. }
  all: apply elem_of_cons in Hin as [[= -> ->]|Hin];
    [congruence|destruct (IH Hin Hv Hi) as (bad & ? & ?); exists bad; split; [by right|done]].
Qed.

Lemma threads_uniform (families : list TaskFamily) :
  families ≠ [] → Forall (λ f, tf_threads f = THREADS_PER_WORKER) families →
  check_thread_contract families = [].
Proof.
  intros Hne Hf. unfold check_thread_contract.
  assert (E : (list_to_set (tf_threads <$> families) : gset Z) = {[THREADS_PER_WORKER]}).
  { apply set_eq. intros t. rewrite elem_of_list_to_set, list_elem_of_fmap, elem_of_singleton.
    rewrite Forall_forall in Hf. split.
    - intros (f & -> & Hin). by apply Hf.
    - intros ->. destruct families as [|f fs]; [done|]. exists f. split; [|left].
      symmetry. apply Hf. left. }
  rewrite E, size_singleton. done.
Qed.

(** Lowering a graph yields, in program order, one family per operator:
    it keeps the operator, its task kind is the one the contract table
    declares for the operator's kind, and the common thread count makes the
    thread contract of a non-empty graph hold. *)
Theorem lower_graph_spec (graph : OperatorGraph) (families : list TaskFamily) :
  lower_graph graph = Ok families →
  Forall2 (λ op f, tf_op f = op
             ∧ ∃ c, dict_get CONTRACTS (op_kind op) = Some c ∧ tf_kind f = oc_task_kind c
                    ∧ validate_attributes c (op_attributes op) = Ok tt)
    (g_ops graph) families
  ∧ (g_ops graph ≠ [] → check_thread_contract families = []).
Proof.
  unfold lower_graph. intros Hm%map_result_Forall2. split.
  - eapply Forall2_impl; [exact Hm|]. intros op f Hf. simpl in Hf.
    destruct (lower_op_ok _ _ _ Hf) as (c & ? & ? & ? & ? & ? & ?). eauto.
  - intros Hne. apply threads_uniform.
    + intros ->. apply Forall2_nil_inv_r in Hm. done.
    + apply Forall_forall. intros f Hin. apply list_elem_of_lookup in Hin as [i Hi].
      destruct (Forall2_lookup_r _ _ _ _ _ Hm Hi) as (op & _ & Hf). simpl in Hf.
      by destruct (lower_op_ok _ _ _ Hf) as (c & ? & ? & ? & ? & ? & ?).
Qed.

(** An operator is refused before any lowering runs when its kind has no
    contract ([KeyError]) or one of its checked attributes has the wrong type
    ([TypeError], naming a checked attribute of the kind). *)
Theorem lower_op_errors (op : Operator) (graph : OperatorGraph) :
  (dict_get CONTRACTS (op_kind op) = None →
     lower_op op graph = Err (KeyError "no task lowering registered for operator kind"))
  ∧ (∀ c name ty v, dict_get CONTRACTS (op_kind op) = Some c →
       (name, ty) ∈ oc_attribute_types c → op_attributes op !! name = Some v →
       isinstance v ty = false →
       ∃ bad, bad ∈ (oc_attribute_types c).*1
         ∧ lower_op op graph = Err (TypeError (op_kind op +:+ "." +:+ bad))).
Proof.
  split.
  - intros Hc. unfold lower_op. by rewrite Hc, (lowering_of_unknown _ Hc).
  - intros c name ty v Hc Hin Hv Hi. unfold lower_op. rewrite Hc.
    destruct (lowering_of_contract _ _ Hc) as (Hk & _).
    destruct (validate_attributes_error c _ _ _ _ Hin Hv Hi) as (bad & ? & ->).
    exists bad. by rewrite Hk.
Qed.

(** *** Witnesses *)
Definition ex_vector (name : string) (storage : Z) : TensorValue :=
  mk_tensor (Some storage) name [2; 600] F32 [600; 1] storage 0 None.

Definition ex_add_graph (op : Operator) : OperatorGraph :=
  mk_graph [("a", ex_vector "a" 0); ("b", ex_vector "b" 1); ("y", ex_vector "y" 2)]%string
    [] [] [] [op] ∅ [] ∅ [] 3 1 3.

Definition ex_add : Operator := mk_operator 0 "add" ["a"; "b"]%string ["y"]%string ∅ [] [] "".
Definition ex_bad_append : Operator :=
  mk_operator 0 "compressor_append" [] [] {["position" := AInt 3]} [] [] "".

Lemma lower_graph_spec_witness : ∃ families,
  lower_graph (ex_add_graph ex_add) = Ok families ∧ length families = 1%nat
  ∧ check_thread_contract families = [].
Proof.
  destruct (lower_graph (ex_add_graph ex_add)) as [families|] eqn:E; [|vm_compute in E; discriminate].
  exists families. split; [done|].
  destruct (lower_graph_spec _ _ E) as [H Hthreads]. split.
  - by rewrite <- (Forall2_length _ _ _ H).
  - by apply Hthreads.
Defined.

Lemma lower_op_errors_witness :
  lower_op (mk_operator 0 "conv2d" [] [] ∅ [] [] "") empty_graph
    = Err (KeyError "no task lowering registered for operator kind")
  ∧ is_ok (lower_op ex_bad_append empty_graph) = false.
Proof.
  split.
  - apply lower_op_errors. vm_compute. reflexivity.
  - destruct (proj2 (lower_op_errors ex_bad_append empty_graph)
      (mk_contract "compressor_append" "lower_compressor_append" "compressor_append"
         "compressor_append_task" [("position", PyStr); ("position_form", PyStr)]%string)
      "position" PyStr (AInt 3)) as (bad & _ & ->).
    + vm_compute. reflexivity.
    + left.
    + vm_compute. reflexivity.
    + reflexivity.
    + reflexivity.
Defined.
