(* ===== verification/ReferenceTypes.v ===== *)
(** * Numerical helpers of the task bodies (compiler/reference_types.py)

    The scalar functions the bodies share, and what every body starts with:
    the views of its operands, its parameters, its row's position and its tile
    (the helpers of [ReferenceExecutor] in compiler/reference_exec.py). *)

From S2P Require Import Prelude OperatorIR TaskIR LoweringsCommon Arrays.
Local Open Scope Z_scope.

(** ** Scalar functions *)
Section scalars.
Context {V : Type} `{!Numpy V}.

Abbreviation lit z := (np_float (FLit z 0)).

Definition np_gt (a b : V) : bool := np_lt b a.
Definition np_ge (a b : V) : bool := np_le b a.

(** [1.0 / (1.0 + np.exp(-g))] on the non-negative elements, [eg / (1.0 + eg)]
    on the others. *)
Definition stable_sigmoid (g : V) : V :=
  if np_ge g (lit 0) then np_div (lit 1) (np_add (lit 1) (np_exp (np_negative g)))
  else let eg := np_exp g in np_div eg (np_add (lit 1) eg).

(** The 32 bits of a float, rounded to the upper 16. *)
Definition bf16_round_bits (u : Z) : Z :=
  let r := u + 32767 + Z.land (Z.shiftr u 16) 1 in
  Z.land r 4294901760 mod 4294967296.
(** Of an element of an array of dtype [want]. *)
Definition bf16_round (want : npdtype) (x : V) : V :=
  np_astype (if np_floating want then want else float64)
    (np_of_f32_bits (bf16_round_bits (np_f32_bits (np_astype float32 x)))).

(** Sign, exponent and mantissa of an e4m3 byte. *)
Definition e4m3_sign (b : Z) : bool := negb (Z.land b 128 =? 0).
Definition e4m3_exp (b : Z) : Z := Z.land (Z.shiftr b 3) 15.
Definition e4m3_mant (b : Z) : Z := Z.land b 7.

Definition decode_e4m3_byte (b : Z) : V :=
  let sign := np_float (FLit (if e4m3_sign b then -1 else 1) 0) in
  let exp := e4m3_exp b in
  let mant := e4m3_mant b in
  let normal := np_mul (np_exp2 (np_astype float64 (np_int (exp - 7))))
                  (np_add (lit 1) (np_div (np_int mant) (lit 8))) in
  let sub := np_mul (np_exp2 (lit (-6))) (np_div (np_int mant) (lit 8)) in
  let val := np_mul sign (if exp =? 0 then sub else normal) in
  if (exp =? 15) && (mant =? 7) then np_nan else val.

(** Of an array of bytes. *)
Definition decode_e4m3 (a : nd V) : result (nd V) :=
  bs ← map_result np_toint (nd_data a); Ok (mk_nd (nd_shape a) (decode_e4m3_byte <$> bs)).
End scalars.

(** ** Tensors of an execution *)

(** [_materialize_tensors]: a view per tensor of the graph, over the storage
    arrays, here given by their dtypes. *)
Definition materialize_tensors (arrays : gmap Z npdtype) (graph : OperatorGraph) : result (dict string view) :=
  fold_result (λ out ntv,
    dtype ← of_option (ExecutorError "no storage array for tensor") (arrays !! tv_storage_id ntv.2);
    Ok (dict_set out ntv.1 (view_of dtype ntv.2))) [] (g_tensors graph).

(** ** What a body starts with *)

(** [fam.params[k]] and [fam.params.get(k, d)] *)
Definition param (fam : TaskFamily) (k : string) : result attr := of_option (KeyError k) (tf_params fam !! k).
Definition param_or (fam : TaskFamily) (k : string) (d : attr) : attr := default d (tf_params fam !! k).
Definition param_int (fam : TaskFamily) (k : string) : result Z := v ← param fam k; as_int v.

Definition gemm_box (fam : TaskFamily) (cs : list Z) : result ((Z * Z) * (Z * Z)) :=
  '((m_extent, m_tile), (n_extent, n_tile)) ← unpack2 (td_dims (tf_domain fam));
  c0 ← py_index cs 0; let m0 := c0 * m_tile in
  c1 ← py_index cs 1; let n0 := c1 * n_tile in
  Ok ((m0, Z.min (m0 + m_tile) m_extent), (n0, Z.min (n0 + n_tile) n_extent)).

Section bodies.
Context {V : Type} `{!Numpy V} (tensors : dict string view).
Abbreviation mem := (gmap addr V).

(** A numeric parameter, and [float(fam.params[k])]. *)
Definition num_of (v : attr) : result V :=
  match v with
  | AInt z => Ok (np_int z)
  | ABool b => Ok (np_int (if b then 1 else 0))
  | AFloat f => Ok (np_float f)
  | AStr _ | ANone => Err (TypeError "unsupported operand type")
  end.
Definition param_num (fam : TaskFamily) (k : string) : result V := v ← param fam k; num_of v.
Definition param_float (fam : TaskFamily) (k : string) : result V := v ← param fam k; f ← to_float v; num_of f.

Definition tensor (name : string) : M mem view := lift (of_option (KeyError name) (dict_get tensors name)).
(** [self.tensor(fam.inputs[i])], [self.tensor(fam.outputs[i])] *)
Definition input (fam : TaskFamily) (i : nat) : M mem view := name ← lift (py_index (tf_inputs fam) i); tensor name.
Definition output (fam : TaskFamily) (i : nat) : M mem view := name ← lift (py_index (tf_outputs fam) i); tensor name.

(** An operand that is there under a condition. *)
Definition input_if (c : bool) (fam : TaskFamily) (i : nat) : M mem (option view) :=
  if c then v ← input fam i; mret (Some v) else mret None.

(** [v[ixs] = e] of an expression, computed first. *)
Definition assign (v : view) (ixs : list index) (e : result (nd V)) : M mem unit := a ← lift e; store v ixs a.

(** Row [b]'s position: the scalar, or read from the row tensor. *)
Definition row_pos_value (fam : TaskFamily) (b : Z) (sc : gmap string Z) : M mem Z :=
  if bool_decide (param_or fam "position_form" (AStr "scalar") = AStr "row") then
    name ← lift (v ← param fam "position"; match v with AStr s => Ok s | _ => Err (KeyError "tensor") end);
    pos_t ← tensor name;
    load_int pos_t [At b]
  else lift (of_option (KeyError "p") (sc !! "p"%string)).

Definition valid_len (fam : TaskFamily) (b : Z) (sc : gmap string Z) : M mem Z :=
  p ← row_pos_value fam b sc; mret (p + 1).

(** [h // fam.params["group"] if fam.params.get("group", 1) > 1 else h] *)
Definition kv_head (fam : TaskFamily) (h : Z) : result Z :=
  g ← as_int (param_or fam "group" (AInt 1));
  if 1 <? g then py_floordiv h g else Ok h.
End bodies.
