(* ===== verification/ReferenceDense.v ===== *)
(** * Dense task bodies (compiler/reference_dense.py)

    One definition per body.  Where the source converts a whole operand to
    float64 and then indexes it, the model converts the elements it loads. *)

From S2P Require Import Prelude OperatorIR TaskIR LoweringsCommon Arrays ReferenceTypes.
Local Open Scope Z_scope.

Section dense.
Context {V : Type} `{!Numpy V} (tensors : dict string view).
Abbreviation mem := (gmap addr V).
Abbreviation input := (input tensors).
Abbreviation output := (output tensors).
Abbreviation tensor := (tensor tensors).
Abbreviation row_pos_value := (row_pos_value tensors).
Abbreviation expr := (result (nd V)).

Definition body : Type := TaskFamily → list Z → gmap string Z → M mem unit.

(** ** Matrix products *)

(** [acc + bias[n0:n1]] if there is a bias. *)
Definition add_bias (bias : option view) (n0 n1 : Z) (acc : nd V) : M mem (nd V) :=
  match bias with
  | None => mret acc
  | Some bv => b ← load bv [Span n0 n1]; lift (Ok acc + Ok b)%np
  end.

(** The diagonal block of one head of a grouped projection. *)
Definition grouped_head (x w : view) (m0 m1 n0 n1 k_g n_g : Z) (acc : nd V) (h : Z) : M mem (nd V) :=
  let h_n0 := Z.max n0 (h * n_g) in
  let h_n1 := Z.min n1 ((h + 1) * n_g) in
  x_blk ← load_f64 x [Span m0 m1; Span (h * k_g) ((h + 1) * k_g)];
  w_blk ← load_f64 w [Span (h * k_g) ((h + 1) * k_g);
                      Span (h * n_g + (h_n0 - h * n_g)) (h * n_g + (h_n1 - h * n_g))];
  prod ← lift (Ok x_blk @@ Ok w_blk)%np;
  lift (nd_set acc [All; Span (h_n0 - n0) (h_n1 - n0)] prod).

Definition body_gemm : body := λ fam cs sc,
  x ← input fam 0;
  w ← input fam 1;
  y ← output fam 0;
  has_bias ← lift (param fam "bias");
  bias ← input_if tensors (truthy has_bias) fam 2;
  '((m0, m1), (n0, n1)) ← lift (gemm_box fam cs);
  let gh := param_or fam "grouped_heads" ANone in
  if truthy gh then
    g ← lift (as_int gh);
    x1 ← lift (py_index (vw_shape x) 1);
    k_g ← lift (py_floordiv x1 g);
    w1 ← lift (py_index (vw_shape w) 1);
    n_g ← lift (py_floordiv w1 g);
    let acc := full [m1 - m0; n1 - n0] (np_float (FLit 0 0)) in
    h0 ← lift (py_floordiv n0 n_g);
    h1 ← lift (py_floordiv (n1 + n_g - 1) n_g);
    hs ← lift (py_range h0 (Z.min g h1) 1);
    acc ← for_m (grouped_head x w m0 m1 n0 n1 k_g n_g) acc hs;
    acc ← add_bias bias n0 n1 acc;
    store y [Span m0 m1; Span n0 n1] acc
  else
    xt ← load_f64 x [Span m0 m1; All];
    wt ← load_f64 w [All; Span n0 n1];
    acc ← lift (Ok xt @@ Ok wt)%np;
    acc ← add_bias bias n0 n1 acc;
    store y [Span m0 m1; Span n0 n1] acc.

(** [np.repeat(v, n)[:k]] *)
Definition np_repeat (v : nd V) (n : Z) : nd V := vec (x ← nd_data v; replicate (Z.to_nat n) x).

Definition body_gemv_fp8 : body := λ fam cs sc,
  x ← input fam 0;
  w ← input fam 1;
  scale ← input fam 2;
  y ← output fam 0;
  qb ← lift (as_int (param_or fam "quant_block" (AInt 128)));
  '((m0, m1), (n0, n1)) ← lift (gemm_box fam cs);
  w_bytes ← load w [Span n0 n1; All];
  wt ← lift (decode_e4m3 w_bytes);
  k ← lift (py_index (nd_shape wt) 1);
  sb ← lift (py_floordiv n0 qb);
  srow ← load_f64 scale [At sb; All];
  s ← lift (nd_get (np_repeat srow qb) [Upto k]);
  xt ← load_f64 x [Span m0 m1; All];
  assign y [Span m0 m1; Span n0 n1]
    (ws ← (Ok wt * Ok (nd_row_of s))%np; Ok xt @@ nd_transpose ws)%np.

(** ** Normalisations *)
Definition body_layernorm : body := λ fam cs sc,
  x ← input fam 0;
  g ← input fam 1;
  b ← input fam 2;
  y ← output fam 0;
  eps ← lift (param_num fam "eps");
  r ← lift (py_index cs 0);
  row ← load_f64 x [At r];
  gv ← load g [];
  bv ← load b [];
  let mean := e_reduce np_mean (Ok row) in
  let dev := (Ok row - mean)%np in
  let var := e_reduce np_mean (e_map (λ d, np_power d 2) dev) in
  assign y [At r] (dev / e_map np_sqrt (var + e_const eps) * Ok gv + Ok bv)%np.

(** [row * np.reciprocal(np.sqrt((row * row).mean() + eps))] *)
Definition rms_scaled (row : nd V) (eps : V) : expr :=
  (Ok row * e_map np_reciprocal (e_map np_sqrt (e_reduce np_mean (Ok row * Ok row) + e_const eps)))%np.

(** The index of a task's row: [b, h = coords] of a three-dimensional operand,
    [r = coords[0]] otherwise. *)
Definition row_index (x : view) (cs : list Z) : result (list index) :=
  if decide (vw_ndim x = 3%nat) then '(b, h) ← unpack2 cs; Ok [At b; At h]
  else r ← py_index cs 0; Ok [At r].

Definition body_rms_norm : body := λ fam cs sc,
  x ← input fam 0;
  g ← input fam 1;
  y ← output fam 0;
  eps ← lift (param_num fam "eps");
  at_row ← lift (row_index x cs);
  row ← load_f64 x at_row;
  gv ← load g [];
  assign y at_row (rms_scaled row eps * Ok gv)%np.

Definition body_rms_norm_gated : body := λ fam cs sc,
  x ← input fam 0;
  gate ← input fam 1;
  g ← input fam 2;
  y ← output fam 0;
  eps ← lift (param_num fam "eps");
  at_row ← lift (row_index x cs);
  row ← load_f64 x at_row;
  g_row ← load_f64 gate at_row;
  gv ← load g [];
  assign y at_row (rms_scaled row eps * Ok gv * e_map stable_sigmoid (Ok g_row))%np.

(** ** Rotary embedding *)

(** The row rotated by the angles of [c] and [s]: the NeoX halves, the
    interleaved pairs, and the full-width rotate-half form. *)
Definition rope_neox (row c s : nd V) (rot : Z) : expr :=
  let half := (rot / 2)%Z in
  let x1 := e_get (Ok row) [Upto half] in
  let x2 := e_get (Ok row) [Span half rot] in
  y1 ← (x1 * Ok c - x2 * Ok s)%np;
  out ← nd_set row [Upto half] y1;
  y2 ← (x2 * Ok c + x1 * Ok s)%np;
  nd_set out [Span half rot] y2.

Definition evens (rot : Z) : index := Slice (Some 0) (Some rot) 2.
Definition odds (rot : Z) : index := Slice (Some 1) (Some rot) 2.

Definition rope_interleaved (row c s : nd V) (rot : Z) : expr :=
  let x_even := e_get (Ok row) [evens rot] in
  let x_odd := e_get (Ok row) [odds rot] in
  y1 ← (x_even * Ok c - x_odd * Ok s)%np;
  out ← nd_set row [evens rot] y1;
  y2 ← (x_odd * Ok c + x_even * Ok s)%np;
  nd_set out [odds rot] y2.

(** [np.concatenate((-row[half:], row[:half]))] *)
Definition rotate_half (row : nd V) : expr :=
  d ← py_last (nd_shape row);
  let half := (d / 2)%Z in
  hi ← (- e_get (Ok row) [From half])%np;
  lo ← e_get (Ok row) [Upto half];
  nd_concat hi lo.

Definition rope_rotate_half (row c s : nd V) : expr := (Ok row * Ok c + rotate_half row * Ok s)%np.

Definition body_rope : body := λ fam cs sc,
  x ← input fam 0;
  cos_t ← input fam 1;
  sin_t ← input fam 2;
  y ← output fam 0;
  '(b, h) ← lift (unpack2 cs);
  p ← row_pos_value fam b sc;
  row ← load_f64 x [At b; At h];
  let convention := param_or fam "convention" (AStr "rotate_half") in
  if bool_decide (convention = AStr "neox_partial" ∨ convention = AStr "interleaved") then
    rot ← lift (param_int fam "rotary_dim");
    c_row ← load_f64 cos_t [At p];
    c ← lift (nd_get c_row [Upto (rot / 2)]);
    s_row ← load_f64 sin_t [At p];
    s ← lift (nd_get s_row [Upto (rot / 2)]);
    assign y [At b; At h]
      (if bool_decide (convention = AStr "neox_partial") then rope_neox row c s rot
       else rope_interleaved row c s rot)
  else
    c ← load_f64 cos_t [At p];
    s ← load_f64 sin_t [At p];
    assign y [At b; At h] (rope_rotate_half row c s).

(** ** Elementwise operators *)
Definition gelu (x : V) : V :=
  let t := np_mul (np_sqrt (np_div (np_float (FLit 2 0)) np_pi))
             (np_add x (np_mul (np_float (FLit 44715 (-6))) (np_power x 3))) in
  np_mul (np_mul (np_float (FLit 5 (-1))) x) (np_add (np_float (FLit 1 0)) (np_tanh t)).
Definition silu (g : V) : V :=
  np_div g (np_add (np_float (FLit 1 0)) (np_exp (np_negative g))).

(** [view.reshape(-1)[lo:hi]] of an operand converted to float64. *)
Definition load_flat_f64 (v : view) (lo hi : Z) : M mem (nd V) :=
  a ← load_flat v lo hi; mret (nd_map (np_astype float64) a).

Definition body_elementwise : body := λ fam cs sc,
  op ← lift (param fam "op");
  d ← lift (of_option (IndexError "list index out of range") (head (td_dims (tf_domain fam))));
  c0 ← lift (py_index cs 0);
  x0 ← input fam 0;
  let lo := c0 * d.2 in
  let hi := Z.min (lo + d.2) (numel_of (vw_shape x0)) in
  if bool_decide (op = AStr "gelu") then
    y ← output fam 0;
    flat_x ← load_flat_f64 x0 lo hi;
    store_flat y lo hi (nd_map gelu flat_x)
  else if bool_decide (op = AStr "swiglu") then
    up ← input fam 1;
    out ← output fam 0;
    g ← load_flat_f64 x0 lo hi;
    u ← load_flat_f64 up lo hi;
    r ← lift (e_map silu (Ok g) * Ok u)%np;
    store_flat out lo hi r
  else
    bv ← input fam 1;
    out ← output fam 0;
    a ← load_flat x0 lo hi;
    b ← load_flat bv lo hi;
    r ← lift (Ok a + Ok b)%np;
    store_flat out lo hi r.

(** ** Embedding *)

(** The columns of the task: all of them when one tile covers them. *)
Definition tile_cols (fam : TaskFamily) (cs : list Z) (width : Z) : result (Z * Z) :=
  d1 ← of_option (IndexError "list index out of range") (td_dims (tf_domain fam) !! 1%nat);
  grid ← task_grid (tf_domain fam);
  g1 ← py_index grid 1;
  if decide (g1 = 1) then Ok (0, width)
  else c ← py_index cs 1; Ok (c * d1.2, Z.min (c * d1.2 + d1.2) width).

Definition body_embedding : body := λ fam cs sc,
  ids ← input fam 0;
  token ← input fam 1;
  pos ← input_if tensors (2 <? Z.of_nat (length (tf_inputs fam))) fam 2;
  y ← output fam 0;
  b ← lift (py_index cs 0);
  width ← lift (py_last (vw_shape y));
  '(c0, c1) ← lift (tile_cols fam cs width);
  id ← load_int ids [At b];
  row ← load_f64 token [At id; Span c0 c1];
  row ← match pos with
        | None => mret row
        | Some pv =>
            p ← row_pos_value fam b sc;
            pr ← load_f64 pv [At p; Span c0 c1];
            lift (Ok row + Ok pr)%np
        end;
  store y [At b; Span c0 c1] row.
End dense.
