(* ===== verification/ReferenceMoe.v ===== *)
(** * Mixture-of-experts task bodies (compiler/reference_dense.py)

    The router, the experts and their weighted sum. *)

From S2P Require Import Prelude OperatorIR TaskIR LoweringsCommon Arrays ReferenceTypes ReferenceDense.
Local Open Scope Z_scope.

Section moe.
Context {V : Type} `{!Numpy V} (tensors : dict string view).
Abbreviation mem := (gmap addr V).
Abbreviation input := (input tensors).
Abbreviation output := (output tensors).
Abbreviation tensor := (tensor tensors).
Abbreviation expr := (result (nd V)).
Abbreviation lit z := (np_float (FLit z 0)).

(** Stable sigmoid, or the square root of the softplus. *)
Definition moe_scores (fam : TaskFamily) (logits : nd V) : result (nd V) :=
  score_fn ← param fam "score_fn";
  Ok (if bool_decide (score_fn = AStr "sigmoid_noaux_tc")
      then nd_map (λ l, np_exp (np_negative (np_logaddexp (lit 0) (np_negative l)))) logits
      else nd_map (λ l, np_sqrt (np_logaddexp (lit 0) l)) logits).

(** [np.argsort(-choice, kind="stable")[:k]] *)
Definition moe_topk_stable (choice : list V) (k : Z) : result (list Z) :=
  let order := np_argsort (np_negative <$> choice) in
  ps ← slice_positions (Z.of_nat (length order)) None (Some k) 1;
  map_result (λ p, of_option (IndexError "index is out of bounds") (order !! Z.to_nat p)) ps.

(** [w / (w.sum() + 1e-20)] *)
Definition renormalised (w : nd V) : expr :=
  (Ok w / (e_reduce np_sum (Ok w) + e_float 1 (-20)))%np.

(** [np.sort(groups, axis=1)[:, ::-1][:, :2].sum(axis=1)] *)
Definition group_scores (groups : nd V) : result (list V) :=
  '(n, _) ← dims2 groups;
  map_result (λ i,
    row ← nd_get groups [At i];
    desc ← nd_get (vec (np_sort (nd_data row))) [Slice None None (-1)];
    top2 ← nd_get desc [Upto 2];
    Ok (np_sum (nd_data top2))) (zrange n).

(** The scores outside the best groups become minus infinity. *)
Definition group_mask (fam : TaskFamily) (choice : nd V) : expr :=
  n_group ← param_int fam "n_group";
  topk_group ← param_int fam "topk_group";
  e ← py_index (nd_shape choice) 0;
  size ← py_floordiv e n_group;
  groups ← nd_reshape choice [n_group; size];
  scores ← group_scores groups;
  g_order ← moe_topk_stable scores topk_group;
  mask ← fold_result (λ mask g, nd_set mask [Span (g * size) ((g + 1) * size)] (scalar (lit 0)))
           (full [e] np_neg_inf) g_order;
  (Ok choice + Ok mask)%np.

(** The experts of a learned router, and their unbiased weights. *)
Definition learned_choice (fam : TaskFamily) (scores : nd V) (k : Z) : M mem (list Z * nd V) :=
  choice ← (if truthy (param_or fam "routed_bias" ANone) then
              bv ← input fam 4;
              bias ← load_f64 bv [];
              lift (Ok scores + Ok bias)%np
            else mret scores);
  score_fn ← lift (param fam "score_fn");
  grouped ← (if bool_decide (score_fn = AStr "sigmoid_noaux_tc") then
               n_group ← lift (param_int fam "n_group"); mret (1 <? n_group)
             else mret false : M mem bool);
  choice ← (if grouped : bool then lift (group_mask fam choice) else mret choice);
  sel ← lift (moe_topk_stable (nd_data choice) k);
  w ← lift (nd_get scores [Fancy sel]);
  w ← (if truthy (param_or fam "norm_topk_prob" (ABool false)) then lift (renormalised w) else mret w);
  mret (sel, w).

(** The experts a frozen table gives to the row's token. *)
Definition hashed_choice (fam : TaskFamily) (scores : nd V) (r : Z) : M mem (list Z * nd V) :=
  tid2eid ← input fam 4;
  token_ids ← input fam 5;
  tok ← load_int token_ids [At r];
  row ← load tid2eid [At tok; All];
  sel ← lift (map_result np_toint (nd_data row));
  w ← lift (nd_get scores [Fancy sel]);
  w ← lift (renormalised w);
  mret (sel, w).

Definition body_moe_route : body (V := V) := λ fam cs sc,
  x ← input fam 0;
  router_w ← input fam 1;
  ids ← input fam 2;
  weights ← input fam 3;
  r ← lift (py_index cs 0);
  k ← lift (param_int fam "top_k");
  rsf ← lift (param_float fam "routed_scaling_factor");
  rw ← load_f64 router_w [];
  xr ← load_f64 x [At r];
  logits ← lift (Ok rw @@ Ok xr)%np;
  scores ← lift (moe_scores fam logits);
  mode ← lift (param fam "mode");
  '(sel, w) ← (if bool_decide (mode = AStr "hash") then hashed_choice fam scores r
               else learned_choice fam scores k);
  store ids [At r; All] (vec (np_int <$> sel));;
  assign weights [At r; All] (Ok w * e_const rsf)%np.

(** [np.minimum(g, limit)] and [np.clip(u, -limit, limit)] *)
Definition clamped (fam : TaskFamily) (g u : nd V) : result (nd V * nd V) :=
  match param_or fam "swiglu_limit" ANone with
  | ANone => Ok (g, u)
  | _ =>
      l ← param_float fam "swiglu_limit";
      Ok (nd_map (λ x, np_minimum x l) g,
          nd_map (λ x, np_minimum (np_maximum x (np_negative l)) l) u)
  end.

Definition body_moe_expert : body (V := V) := λ fam cs sc,
  x ← input fam 0;
  gate_up ← input fam 1;
  down ← input fam 2;
  ids ← input fam 3;
  partials ← output fam 0;
  '(r, s) ← lift (unpack2 cs);
  e ← load_int ids [At r; At s];
  gu_w ← load_f64 gate_up [At e];
  xr ← load_f64 x [At r];
  gu ← lift (Ok gu_w @@ Ok xr)%np;
  d ← lift (py_index (nd_shape gu) 0);
  let inter := d / 2 in
  g ← lift (nd_get gu [Upto inter]);
  u ← lift (nd_get gu [From inter]);
  '(g, u) ← lift (clamped fam g u);
  act ← lift (e_map silu (Ok g) * Ok u)%np;
  dw ← load_f64 down [At e];
  assign partials [At r; At s; All] (Ok dw @@ Ok act)%np.

Definition body_moe_combine : body (V := V) := λ fam cs sc,
  partials ← input fam 0;
  weights ← input fam 1;
  y ← output fam 0;
  r ← lift (py_index cs 0);
  k ← lift (py_index (vw_shape partials) 1);
  d ← lift (py_index (vw_shape partials) 2);
  acc ← for_m (λ acc s,
    w ← load_f64 weights [At r; At s];
    p ← load_f64 partials [At r; At s];
    lift (Ok acc + Ok w * Ok p)%np) (full [d] (lit 0)) (zrange k);
  acc ← (if decide (2 < length (tf_inputs fam))%nat then
           shared ← input fam 2;
           sh ← load_f64 shared [At r];
           lift (Ok acc + Ok sh)%np
         else mret acc);
  store y [At r; All] acc.
End moe.
