(* ===== verification/ReferenceAttention.v ===== *)
(** * Attention task bodies (compiler/reference_attention.py)

    One definition per body, with the conventions of [ReferenceDense]. *)

From S2P Require Import Prelude OperatorIR TaskIR LoweringsCommon Arrays ReferenceTypes ReferenceDense.
Local Open Scope Z_scope.

Section attention.
Context {V : Type} `{!Numpy V} (tensors : dict string view).
Abbreviation mem := (gmap addr V).
Abbreviation input := (input tensors).
Abbreviation output := (output tensors).
Abbreviation row_pos_value := (row_pos_value tensors).
Abbreviation valid_len := (valid_len tensors).
Abbreviation expr := (result (nd V)).
Abbreviation body := (body (V := V)).
Abbreviation lit z := (np_float (FLit z 0)).

(** ** Output-side rotation *)
Definition conjugate_interleaved (row c s : nd V) (rot : Z) : expr :=
  let x_even := e_get (Ok row) [evens rot] in
  let x_odd := e_get (Ok row) [odds rot] in
  y1 ← (x_even * Ok c + x_odd * Ok s)%np;
  out ← nd_set row [evens rot] y1;
  y2 ← (x_odd * Ok c - x_even * Ok s)%np;
  nd_set out [odds rot] y2.

Definition conjugate_rotate_half (row c s : nd V) : expr := (Ok row * Ok c - rotate_half row * Ok s)%np.

Definition body_conjugate_rope : body := λ fam cs sc,
  x ← input fam 0;
  cos_t ← input fam 1;
  sin_t ← input fam 2;
  y ← output fam 0;
  '(b, h) ← lift (unpack2 cs);
  p ← row_pos_value fam b sc;
  rot ← lift (param_int fam "rotary_dim");
  c_row ← load_f64 cos_t [At p];
  s_row ← load_f64 sin_t [At p];
  row ← load_f64 x [At b; At h];
  assign y [At b; At h]
    (if bool_decide (param_or fam "convention" (AStr "interleaved") = AStr "interleaved") then
       c ← nd_get c_row [Upto (rot / 2)];
       s ← nd_get s_row [Upto (rot / 2)];
       conjugate_interleaved row c s rot
     else conjugate_rotate_half row c_row s_row).

(** ** Latent attention *)

(** The steps [i] of the window whose cache position lies in it. *)
Definition window_position (p W i : Z) : option Z :=
  let t := p - W + 1 + i in
  if (Z.max 0 (p - W + 1) <=? t) && (t <=? p) then Some t else None.

Definition body_mla_scores : body := λ fam cs sc,
  q ← input fam 0;
  latent ← input fam 1;
  window_table ← input fam 2;
  comp_pool ← input fam 3;
  comp_idx ← input fam 4;
  sink ← input fam 5;
  bias ← input_if tensors (6 <? Z.of_nat (length (tf_inputs fam))) fam 6;
  y ← output fam 0;
  '(b, h) ← lift (unpack2 cs);
  p ← row_pos_value fam b sc;
  W ← lift (param_int fam "window");
  K ← lift (param_int fam "comp_slots");
  scale ← lift (param_num fam "scale");
  qb ← load_f64 q [At b; At h];
  logits ← for_m (λ logits i,
    match window_position p W i with
    | None => mret logits
    | Some t =>
        e ← load_int window_table [At b; At t];
        row ← load_f64 latent [At b; At e];
        lg ← lift ((Ok row @@ Ok qb) * e_const scale)%np;
        lift (nd_set logits [At i] lg)
    end) (full [W + K + 1] np_neg_inf) (zrange W);
  logits ← for_m (λ logits j,
    e ← load_int comp_idx [At b; At j];
    if 0 <=? e then
      entry ← load_f64 comp_pool [At b; At e];
      lg ← lift ((Ok entry @@ Ok qb) * e_const scale)%np;
      lg ← match bias with
           | None => mret lg
           | Some bv => bj ← load_f64 bv [At b; At j]; lift (Ok lg + Ok bj)%np
           end;
      lift (nd_set logits [At (W + j)] lg)
    else mret logits) logits (zrange K);
  sk ← (if decide (vw_ndim sink = 2%nat) then load_f64 sink [At b; At h] else load_f64 sink [At h]);
  logits ← lift (nd_set logits [At (W + K)] sk);
  m ← lift (nd_max logits);
  e ← lift (e_map np_exp (Ok logits - Ok m))%np;
  e ← lift (nd_binop (λ l x, if np_isfinite l then x else lit 0) logits e);
  assign y [At b; At h; All] (Ok e / e_reduce np_sum (Ok e))%np.

Definition body_mla_values : body := λ fam cs sc,
  probs ← input fam 0;
  latent ← input fam 1;
  window_table ← input fam 2;
  comp_pool ← input fam 3;
  comp_idx ← input fam 4;
  y ← output fam 0;
  '(b, h) ← lift (unpack2 cs);
  p ← row_pos_value fam b sc;
  W ← lift (param_int fam "window");
  K ← lift (param_int fam "comp_slots");
  d ← lift (py_index (vw_shape y) 2);
  acc ← for_m (λ acc i,
    match window_position p W i with
    | None => mret acc
    | Some t =>
        w ← load_f64 probs [At b; At h; At i];
        e ← load_int window_table [At b; At t];
        row ← load_f64 latent [At b; At e];
        lift (Ok acc + Ok w * Ok row)%np
    end) (full [d] (lit 0)) (zrange W);
  acc ← for_m (λ acc j,
    e ← load_int comp_idx [At b; At j];
    if 0 <=? e then
      w ← load_f64 probs [At b; At h; At (W + j)];
      entry ← load_f64 comp_pool [At b; At e];
      lift (Ok acc + Ok w * Ok entry)%np
    else mret acc) acc (zrange K);
  store y [At b; At h; All] acc.

(** ** The indexer *)
Definition body_indexer_scores : body := λ fam cs sc,
  q ← input fam 0;
  c ← input fam 1;
  w ← input fam 2;
  s ← output fam 0;
  scale ← lift (param_num fam "scale");
  d1 ← lift (of_option (IndexError "list index out of range") (td_dims (tf_domain fam) !! 1%nat));
  '(b, t) ← lift (unpack2 cs);
  let m0 := t * d1.2 in
  let m1 := Z.min (t * d1.2 + d1.2) d1.1 in
  qv ← load_f64 q [At b];
  cv ← load_f64 c [At b; Span m0 m1];
  wv ← load_f64 w [At b];
  scores ← lift (e_map (λ x, np_maximum x (lit 0)) (Ok qv @@ nd_transpose cv) * e_const scale)%np;
  assign s [At b; Span m0 m1] (e_reduce0 np_sum (Ok scores * Ok (nd_col_of wv)))%np.

(** How many of the positions satisfy a test. *)
Definition count_of (P : Z → bool) (m : Z) : Z := Z.of_nat (length (filter (λ i, P i = true) (zrange m))).

(** The rank of entry [j]: the candidates with a higher score, and those with
    the same score and a lower index. *)
Definition rank_of (row : Z → V) (cand : Z → bool) (m j : Z) : Z :=
  count_of (λ i, np_gt (row i) (row j) && cand i) m
  + count_of (λ i, np_eq (row i) (row j) && cand i && (i <? j)) m.

(** The entries selected, with their ranks. *)
Definition selected (row : Z → V) (cand : Z → bool) (m k : Z) : list (Z * Z) :=
  (λ j, (j, rank_of row cand m j)) <$> filter (λ j, (cand j && (rank_of row cand m j <? k)) = true) (zrange m).

(** [out[rank[sel_idx]] = values] *)
Definition scatter (out : nd V) (sel : list (Z * Z)) (f : Z → V) : result (nd V) :=
  nd_set out [Fancy sel.*2] (vec ((λ jr : Z * Z, f jr.1) <$> sel)).

Definition body_index_topk : body := λ fam cs sc,
  s ← input fam 0;
  valid ← input fam 1;
  idx ← output fam 0;
  bias ← output fam 1;
  k ← lift (param_int fam "k");
  b ← lift (unpack1 cs);
  srow ← load_f64 s [At b];
  m ← lift (py_index (nd_shape srow) 0);
  v ← load_int valid [At b];
  let vc := Z.max 0 (Z.min v m) in
  let row j := nd_at srow [j] in
  let cand j := (j <? vc) && np_isfinite (row j) in
  let sel := selected row cand m k in
  let idx_row := full [k] (np_astype int32 (np_int (-1))) in
  idx_row ← lift (scatter idx_row sel (λ j, np_astype int32 (np_int j)));
  let valid_finite := filter (λ x, np_isfinite x = true) (row <$> zrange vc) in
  let norm := match valid_finite with
              | [] => lit 0
              | _ => np_sqrt (np_sum ((λ x, np_power x 2) <$> valid_finite))
              end in
  let bias_row := full [k] (np_astype (vw_dtype bias) (lit 0)) in
  bias_row ← (if np_gt norm (lit 0) then
                lift (scatter bias_row sel (λ j, np_astype (vw_dtype bias) (np_div (row j) norm)))
              else mret bias_row);
  store idx [At b; All] idx_row;;
  store bias [At b; All] bias_row.

(** ** Caches *)
Definition body_cache_append : body := λ fam cs sc,
  k_cache ← input fam 0;
  v_cache ← input fam 1;
  k_new ← input fam 2;
  v_new ← input fam 3;
  '(b, h) ← lift (unpack2 cs);
  p ← row_pos_value fam b sc;
  kn ← load k_new [At b; At h; All];
  store k_cache [At b; At h; At p; All] kn;;
  vn ← load v_new [At b; At h; All];
  store v_cache [At b; At h; At p; All] vn.

Definition body_cache_append_paged : body := λ fam cs sc,
  k_pool ← input fam 0;
  v_pool ← input fam 1;
  table ← input fam 2;
  k_new ← input fam 3;
  v_new ← input fam 4;
  '(b, h) ← lift (unpack2 cs);
  p ← row_pos_value fam b sc;
  slot ← load_int table [At b; At p];
  kn ← load k_new [At b; At h; All];
  store k_pool [At slot; At h; All] kn;;
  vn ← load v_new [At b; At h; All];
  store v_pool [At slot; At h; All] vn.

(** [table[b, : p + 1].astype(np.int64)] *)
Definition gather_slots (table : view) (b p : Z) : M mem (list Z) :=
  t ← load table [At b; Upto (p + 1)]; lift (map_result np_toint (nd_data t)).

Definition body_attention_scores_paged : body := λ fam cs sc,
  q ← input fam 0;
  k_pool ← input fam 1;
  table ← input fam 2;
  y ← output fam 0;
  '(b, h) ← lift (unpack2 cs);
  kvh ← lift (kv_head fam h);
  p ← row_pos_value fam b sc;
  scale ← lift (param_num fam "scale");
  slots ← gather_slots table b p;
  ks ← load_f64 k_pool [Fancy slots; At kvh; All];
  qv ← load_f64 q [At b; At h; All];
  assign y [At b; At h; Upto (p + 1)] ((Ok ks @@ Ok qv) * e_const scale)%np.

Definition body_attention_values_paged : body := λ fam cs sc,
  probs ← input fam 0;
  v_pool ← input fam 1;
  table ← input fam 2;
  y ← output fam 0;
  '(b, h) ← lift (unpack2 cs);
  kvh ← lift (kv_head fam h);
  p ← row_pos_value fam b sc;
  slots ← gather_slots table b p;
  pr ← load_f64 probs [At b; At h; Upto (p + 1)];
  vs ← load_f64 v_pool [Fancy slots; At kvh; All];
  assign y [At b; At h; All] (Ok pr @@ Ok vs)%np.

Definition body_attention_scores : body := λ fam cs sc,
  q ← input fam 0;
  k_cache ← input fam 1;
  y ← output fam 0;
  '(b, h) ← lift (unpack2 cs);
  kvh ← lift (kv_head fam h);
  vlen ← valid_len fam b sc;
  scale ← lift (param_num fam "scale");
  ks ← load_f64 k_cache [At b; At kvh; Upto vlen; All];
  qv ← load_f64 q [At b; At h; All];
  assign y [At b; At h; Upto vlen] ((Ok ks @@ Ok qv) * e_const scale)%np.

Definition body_softmax : body := λ fam cs sc,
  x ← input fam 0;
  y ← output fam 0;
  '(b, h) ← lift (unpack2 cs);
  vlen ← valid_len fam b sc;
  row ← load_f64 x [At b; At h; Upto vlen];
  m ← lift (nd_max row);
  e ← lift (e_map np_exp (Ok row - Ok m))%np;
  assign y [At b; At h; Upto vlen] (Ok e / e_reduce np_sum (Ok e))%np;;
  store y [At b; At h; From vlen] (scalar (lit 0)).

Definition body_attention_values : body := λ fam cs sc,
  probs ← input fam 0;
  v_cache ← input fam 1;
  y ← output fam 0;
  '(b, h) ← lift (unpack2 cs);
  kvh ← lift (kv_head fam h);
  vlen ← valid_len fam b sc;
  pr ← load_f64 probs [At b; At h; Upto vlen];
  vs ← load_f64 v_cache [At b; At kvh; Upto vlen; All];
  acc ← lift (Ok pr @@ Ok vs)%np;
  acc ← (if truthy (param_or fam "gated" (ABool false)) then
           gate ← input fam 2;
           g ← load_f64 gate [At b; At h; All];
           lift (Ok acc * e_map stable_sigmoid (Ok g))%np
         else mret acc);
  store y [At b; At h; All] acc.
End attention.
