(* ===== verification/ReferenceRecurrent.v ===== *)
(** * Recurrent task bodies (compiler/reference_recurrent.py)

    One definition per body, with the conventions of [ReferenceDense].  The
    state pools are read and written in place. *)

From S2P Require Import Prelude OperatorIR TaskIR LoweringsCommon Arrays ReferenceTypes ReferenceDense.
Local Open Scope Z_scope.

Section recurrent.
Context {V : Type} `{!Numpy V} (tensors : dict string view).
Abbreviation mem := (gmap addr V).
Abbreviation input := (input tensors).
Abbreviation output := (output tensors).
Abbreviation row_pos_value := (row_pos_value tensors).
Abbreviation expr := (result (nd V)).
Abbreviation body := (body (V := V)).
Abbreviation lit z := (np_float (FLit z 0)).

(** [1.0 / (1.0 + np.exp(-x))] *)
Definition logistic (x : V) : V := np_div (lit 1) (np_add (lit 1) (np_exp (np_negative x))).
(** [x / sqrt(x . x + 1e-6)] *)
Definition l2_normalised (x : nd V) : expr :=
  (Ok x / e_map np_sqrt ((Ok x @@ Ok x) + e_float 1 (-6)))%np.

(** ** The compressor *)
Definition body_compressor_append : body := λ fam cs sc,
  pool ← input fam 0;
  state ← input fam 1;
  window ← input fam 2;
  gates ← input fam 3;
  rms_w ← input fam 4;
  cos ← input fam 5;
  sin ← input fam 6;
  '(b, l) ← lift (unpack2 cs);
  p ← row_pos_value fam b sc;
  m ← lift (param_int fam "m");
  pm ← lift (py_mod p m);
  if negb (pm =? m - 1) then mret tt else
  r ← lift (param_int fam "r");
  R ← lift (py_floordiv r m);
  eps ← lift (param_num fam "eps");
  slot ← load_int state [At b; At l; At 0];
  cb_len ← load_int state [At b; At l; At 1];
  g ← load_f64 gates [At b];
  gmax ← lift (nd_max g);
  ex ← lift (e_map np_exp (Ok g - Ok gmax))%np;
  w ← lift (Ok ex / e_reduce np_sum (Ok ex))%np;
  win ← load_f64 window [At b];
  e ← lift (e_reduce0 np_sum (Ok (nd_col_of w) * Ok win))%np;
  rw ← load_f64 rms_w [];
  e ← lift (rms_scaled e eps * Ok rw)%np;
  d ← lift (py_index (nd_shape e) 0);
  let half := d / 2 in
  ch ← load_f64 cos [At b];
  sh ← load_f64 sin [At b];
  e1 ← lift (nd_get e [Upto half]);
  e2 ← lift (nd_get e [From half]);
  y1 ← lift (Ok e1 * Ok ch - Ok e2 * Ok sh)%np;
  y2 ← lift (Ok e2 * Ok ch + Ok e1 * Ok sh)%np;
  assign pool [At b; At l; At slot; At cb_len; All] (nd_concat y1 y2);;
  let cb_len := cb_len + 1 in
  if cb_len =? R then
    store state [At b; At l; At 0] (scalar (np_int (1 - slot)));;
    store state [At b; At l; At 1] (scalar (np_int 0))
  else store state [At b; At l; At 1] (scalar (np_int cb_len)).

(** ** The gated delta network *)
Definition body_gdn_conv : body := λ fam cs sc,
  state ← input fam 0;
  x ← input fam 1;
  w ← input fam 2;
  out ← output fam 0;
  '(b, c) ← lift (unpack2 cs);
  tile ← lift (param_int fam "tile");
  K ← lift (param_int fam "conv_kernel");
  C ← lift (py_last (vw_shape state));
  let c0 := c * tile in
  let c1 := Z.min ((c + 1) * tile) C in
  st ← load_f64 state [At b; All; Span c0 c1];
  xs ← load_f64 x [At b; Span c0 c1];
  ws ← load_f64 w [Span c0 c1; All];
  past ← lift (nd_get ws [All; Upto (-1)]);
  '(km1, t) ← lift (dims2 st);
  '(t', km1') ← lift (dims2 past);
  _ ← guard_m ((t =? t') && (km1 =? km1')) (ValueError "einsum: operands could not be broadcast");
  let fir := vec ((λ i, np_einsum (nd_col st i km1) (nd_row past i km1)) <$> zrange t) in
  last_tap ← lift (nd_get ws [All; At (K - 1)]);
  acc ← lift (Ok fir + Ok xs * Ok last_tap)%np;
  assign out [At b; Span c0 c1] (Ok acc / (e_float 1 0 + e_map np_exp (- Ok acc)))%np;;
  rest ← lift (nd_get st [From 1]);
  assign state [At b; All; Span c0 c1] (nd_concat rest (nd_row_of xs)).

Definition body_gdn_delta : body := λ fam cs sc,
  state ← input fam 0;
  q ← input fam 1;
  k ← input fam 2;
  v ← input fam 3;
  z ← input fam 4;
  a ← input fam 5;
  b ← input fam 6;
  a_log ← input fam 7;
  dt_bias ← input fam 8;
  norm_w ← input fam 9;
  out ← output fam 0;
  '(bb, h) ← lift (unpack2 cs);
  NV ← lift (py_index (vw_shape state) 1);
  NK ← lift (py_index (vw_shape q) 1);
  group ← lift (py_floordiv NV NK);
  kh ← lift (py_floordiv h group);
  scale ← lift (param_num fam "scale");
  eps ← lift (param_num fam "eps");
  s ← load_f64 state [At bb; At h];
  qf ← load_f64 q [At bb; At kh];
  kf ← load_f64 k [At bb; At kh];
  vf ← load_f64 v [At bb; At h];
  zf ← load_f64 z [At bb; At h];
  a_v ← load_f64 a [At bb; At h];
  dt ← load_f64 dt_bias [At h];
  let x_dt := np_add (nd_item a_v) (nd_item dt) in
  let softplus_x := if np_le x_dt (lit 20) then np_log (np_add (lit 1) (np_exp x_dt)) else x_dt in
  al ← load a_log [At h];
  let decay := np_exp (np_mul (np_negative (np_astype float64 (np_exp (nd_item al)))) softplus_x) in
  b_v ← load_f64 b [At bb; At h];
  let beta := logistic (nd_item b_v) in
  qn ← lift (l2_normalised qf * e_const scale)%np;
  kn ← lift (l2_normalised kf);
  s ← lift (Ok s * e_const decay)%np;
  sk ← lift (Ok s @@ Ok kn)%np;
  upd ← lift (e_const beta * (Ok vf - Ok sk))%np;
  s ← lift (Ok s + Ok (nd_col_of upd) * Ok (nd_row_of kn))%np;
  store state [At bb; At h] s;;
  o ← lift (Ok s @@ Ok qn)%np;
  let var := e_reduce np_mean (Ok o * Ok o)%np in
  nw ← load_f64 norm_w [];
  on ← lift (Ok o / e_map np_sqrt (var + e_const eps) * Ok nw)%np;
  assign out [At bb; At h] (Ok on * (Ok zf / (e_float 1 0 + e_map np_exp (- Ok zf))))%np.

(** ** Multi-stream mixing *)

(** One division by the column or row sums, [eps] in the denominator. *)
Definition sinkhorn_columns (comb : nd V) (eps : V) : expr :=
  (s ← e_reduce0 np_sum (Ok comb); Ok comb / (Ok (nd_row_of s) + e_const eps))%np.
Definition sinkhorn_rows (comb : nd V) (eps : V) : expr :=
  (s ← e_reduce1 np_sum (Ok comb); Ok comb / (Ok (nd_col_of s) + e_const eps))%np.

Definition sinkhorn (logits : nd V) (iters : Z) (eps : V) : expr :=
  '(_, n) ← dims2 logits;
  _ ← require (0 <? n) (ValueError "zero-size array to reduction operation maximum");
  m ← e_reduce1 np_max (Ok logits);
  comb ← e_map np_exp (Ok logits - Ok (nd_col_of m))%np;
  s ← e_reduce1 np_sum (Ok comb);
  comb ← (Ok comb / Ok (nd_col_of s) + e_const eps)%np;
  comb ← sinkhorn_columns comb eps;
  fold_result (λ comb _, comb ← sinkhorn_rows comb eps; sinkhorn_columns comb eps) comb (zrange (iters - 1)).

Definition body_mhc_pre : body := λ fam cs sc,
  streams ← input fam 0;
  fn ← input fam 1;
  base ← input fam 2;
  scale ← input fam 3;
  h_in ← output fam 0;
  post_o ← output fam 1;
  comb_out ← output fam 2;
  bb ← lift (unpack1 cs);
  hc ← lift (py_index (vw_shape streams) 1);
  iters ← lift (param_int fam "iters");
  eps ← lift (param_float fam "eps");
  rms_eps ← lift (param_float fam "rms_eps");
  st ← load_f64 streams [At bb];
  flat ← lift (nd_reshape st [numel_of (nd_shape st)]);
  flat ← lift (Ok flat / e_map np_sqrt (e_reduce np_mean (Ok flat * Ok flat) + e_const rms_eps))%np;
  fnv ← load_f64 fn [];
  logits ← lift (Ok fnv @@ Ok flat)%np;
  pre_w ← lift (nd_get logits [Upto hc]);
  post_w ← lift (nd_get logits [Span hc (2 * hc)]);
  comb_flat ← lift (nd_get logits [From (2 * hc)]);
  comb_w ← lift (nd_reshape comb_flat [hc; hc]);
  pre_s ← load_f64 scale [At 0];
  post_s ← load_f64 scale [At 1];
  comb_s ← load_f64 scale [At 2];
  bv ← load_f64 base [];
  pre_b ← lift (nd_get bv [Upto hc]);
  post_b ← lift (nd_get bv [Span hc (2 * hc)]);
  base_flat ← lift (nd_get bv [From (2 * hc)]);
  comb_b ← lift (nd_reshape base_flat [hc; hc]);
  pre ← lift (e_map logistic (Ok pre_w * Ok pre_s + Ok pre_b) + e_const eps)%np;
  post ← lift (e_float 2 0 / (e_float 1 0 + e_map np_exp (- (Ok post_w * Ok post_s + Ok post_b))))%np;
  comb_logits ← lift (Ok comb_w * Ok comb_s + Ok comb_b)%np;
  comb ← lift (sinkhorn comb_logits iters eps);
  assign h_in [At bb] (e_reduce0 np_sum (Ok (nd_col_of pre) * Ok st))%np;;
  store post_o [At bb] post;;
  store comb_out [At bb] comb.

Definition body_mhc_post : body := λ fam cs sc,
  streams ← input fam 0;
  body_out ← input fam 1;
  post_w ← input fam 2;
  comb ← input fam 3;
  streams_post ← output fam 0;
  '(bb, j) ← lift (unpack2 cs);
  cj ← load_f64 comb [At bb; All; At j];
  st ← load_f64 streams [At bb];
  acc ← lift (e_reduce0 np_sum (Ok (nd_col_of cj) * Ok st))%np;
  pw ← load_f64 post_w [At bb; At j];
  bo ← load_f64 body_out [At bb];
  assign streams_post [At bb; At j] (Ok acc + Ok pw * Ok bo)%np.

(** ** Key-delta attention *)
Definition body_kda_delta : body := λ fam cs sc,
  state ← input fam 0;
  q ← input fam 1;
  k ← input fam 2;
  v ← input fam 3;
  f ← input fam 4;
  b ← input fam 5;
  dt_bias ← input fam 6;
  a_log ← input fam 7;
  out ← output fam 0;
  '(bb, h) ← lift (unpack2 cs);
  scale ← lift (param_num fam "scale");
  s ← load_f64 state [At bb; At h];
  qf ← load_f64 q [At bb; At h];
  kf ← load_f64 k [At bb; At h];
  vf ← load_f64 v [At bb; At h];
  ff ← load_f64 f [At bb; At h];
  dt ← load_f64 dt_bias [At h];
  al ← load a_log [At h];
  let A := np_astype float64 (np_exp (nd_item al)) in
  x_dt ← lift (Ok ff + Ok dt)%np;
  g ← lift (match param_or fam "lower_bound" ANone with
            | ANone =>
                let sp x := if np_le x (lit 20) then np_log (np_add (lit 1) (np_exp x)) else x in
                e_const (np_negative A) * e_map sp (Ok x_dt)
            | lb => l ← num_of lb;
                    e_const l / (e_float 1 0 + e_map np_exp (e_const (np_negative A) * Ok x_dt))
            end)%np;
  b_v ← load_f64 b [At bb; At h];
  let beta := logistic (nd_item b_v) in
  qn ← lift (l2_normalised qf * e_const scale)%np;
  kn ← lift (l2_normalised kf);
  decay ← lift (e_map np_exp (Ok g));
  s ← lift (Ok s * Ok (nd_col_of decay))%np;
  kv_mem ← lift (e_reduce0 np_sum (Ok s * Ok (nd_col_of kn)))%np;
  upd ← lift (e_const beta * (Ok vf - Ok kv_mem))%np;
  s ← lift (Ok s + Ok (nd_col_of kn) * Ok (nd_row_of upd))%np;
  store state [At bb; At h] s;;
  assign out [At bb; At h] (e_reduce0 np_sum (Ok s * Ok (nd_col_of qn)))%np.

(** [x / sqrt((x * x).sum() + 1e-6)] *)
Definition sum_normalised (x : nd V) : expr :=
  (Ok x / e_map np_sqrt (e_reduce np_sum (Ok x * Ok x) + e_float 1 (-6)))%np.

(** The decay of the fused form: on the row rounded at entry. *)
Definition fused_decay (fam : TaskFamily) (A : V) (xx : nd V) : expr :=
  match param_or fam "lower_bound" ANone with
  | ANone =>
      let sp x := if np_le x (lit 20) then np_log1p (np_exp (np_minimum x (lit 20))) else x in
      e_map np_exp (e_const (np_negative A) * e_map sp (Ok xx))
  | lb =>
      l ← num_of lb;
      e_map np_exp (e_const l * e_map (λ x, np_div (lit 1) (np_add (lit 1) (np_exp x)))
                                       (e_const (np_negative A) * Ok xx))
  end%np.

(** The channels of head [h]: its stripes of q, k and v. *)
Definition head_channels (K seg h : Z) : list Z :=
  let stripe := (λ i, h * K + i) <$> zrange K in
  stripe ++ (Z.add seg <$> stripe) ++ (Z.add (2 * seg) <$> stripe).

Definition body_kda_fused_decode : body := λ fam cs sc,
  conv ← input fam 0;
  ssm ← input fam 1;
  slot_ids ← input fam 2;
  qkv_raw ← input fam 3;
  f_raw ← input fam 4;
  b_raw ← input fam 5;
  g_raw ← input fam 6;
  taps ← input fam 7;
  dt_bias ← input fam 8;
  a_log ← input fam 9;
  o_norm ← input fam 10;
  out ← output fam 0;
  '(bb, h) ← lift (unpack2 cs);
  scale ← lift (param_num fam "scale");
  eps ← lift (param_num fam "eps");
  slot ← load_int slot_ids [At bb];
  if slot <? 0 then store out [At bb; At h] (scalar (lit 0)) else
  K ← lift (py_last (vw_shape ssm));
  Kw ← lift (py_index (vw_shape conv) 1);
  Cc ← lift (py_last (vw_shape conv));
  let seg := Cc / 3 in
  let cols := Fancy (head_channels K seg h) in
  x_raw ← load_f64 qkv_raw [At bb; cols];
  let x := nd_map (bf16_round float64) x_raw in
  w ← load_f64 taps [All; cols];
  st ← load_f64 conv [At slot; All; cols];
  w_past ← lift (nd_get w [Upto Kw]);
  '(kw, c) ← lift (dims2 st);
  '(kw', c') ← lift (dims2 w_past);
  _ ← guard_m ((kw =? kw') && (c =? c')) (ValueError "einsum: operands could not be broadcast");
  let fir := vec ((λ i, np_einsum (nd_col w_past i kw) (nd_col st i kw)) <$> zrange c) in
  w_last ← lift (nd_get w [At Kw]);
  acc ← lift (Ok fir + Ok w_last * Ok x)%np;
  y ← lift (Ok acc * e_map logistic (Ok acc))%np;
  rest ← lift (nd_get st [From 1]);
  assign conv [At slot; All; cols] (nd_concat rest (nd_row_of x));;
  q ← lift (nd_get y [Upto K]);
  k ← lift (nd_get y [Span K (2 * K)]);
  v ← lift (nd_get y [From (2 * K)]);
  f_v ← load_f64 f_raw [At bb; At h];
  dt ← load_f64 dt_bias [At h];
  xx ← lift (e_map (bf16_round float64) (Ok f_v) + Ok dt)%np;
  al ← load a_log [At h];
  decay ← lift (fused_decay fam (np_astype float64 (np_exp (nd_item al))) xx);
  b_v ← load b_raw [At bb; At h];
  let beta := logistic (np_astype float64 (bf16_round (vw_dtype b_raw) (nd_item b_v))) in
  qn ← lift (sum_normalised q * e_const scale)%np;
  kn ← lift (sum_normalised k);
  s ← load_f64 ssm [At slot; At h];
  s ← lift (Ok s * Ok (nd_row_of decay))%np;
  t ← lift (e_reduce1 np_sum (Ok s * Ok (nd_row_of kn)))%np;
  upd ← lift (e_const beta * (Ok v - Ok t))%np;
  s ← lift (Ok s + Ok (nd_col_of upd) * Ok (nd_row_of kn))%np;
  store ssm [At slot; At h] s;;
  o ← lift (e_reduce1 np_sum (Ok s * Ok (nd_row_of qn)))%np;
  rstd ← lift (e_float 1 0 / e_map np_sqrt (e_reduce np_mean (Ok o * Ok o) + e_const eps))%np;
  g_v ← load_f64 g_raw [At bb; At h];
  let gate := nd_map logistic (nd_map (bf16_round float64) g_v) in
  nw ← load_f64 o_norm [];
  yv ← lift (Ok o * Ok rstd * Ok nw * Ok gate)%np;
  store out [At bb; At h] (nd_map (bf16_round float64) yv).
End recurrent.
