(* ===== verification/ReferenceBodies.v ===== *)
(** * The reference executor's dispatch (compiler/reference_exec.py)

    The class of the executor: the task bodies of its three bases, the table
    [_bodies] its constructor builds from the contracts, and a task body as the
    step on memory that the executor of Execution.v runs. *)

From S2P Require Import Prelude OperatorIR Contracts TaskIR Arrays Execution Effects.
From S2P Require Import ReferenceTypes ReferenceDense ReferenceMoe ReferenceAttention ReferenceRecurrent.
Local Open Scope Z_scope.
Local Open Scope string_scope.

Section bodies.
Context {V : Type} `{!Numpy V} (tensors : dict string view).
Abbreviation mem := (gmap addr V).

(** The methods a class gives its instances. *)
Definition DenseReference : dict string body :=
  [("_body_gemm", body_gemm tensors); ("_body_gemv_fp8", body_gemv_fp8 tensors);
   ("_body_layernorm", body_layernorm tensors); ("_body_rms_norm", body_rms_norm tensors);
   ("_body_rms_norm_gated", body_rms_norm_gated tensors); ("_body_rope", body_rope tensors);
   ("_body_elementwise", body_elementwise tensors); ("_body_embedding", body_embedding tensors);
   ("_body_moe_route", body_moe_route tensors); ("_body_moe_expert", body_moe_expert tensors);
   ("_body_moe_combine", body_moe_combine tensors)].

Definition AttentionReference : dict string body :=
  [("_body_conjugate_rope", body_conjugate_rope tensors); ("_body_mla_scores", body_mla_scores tensors);
   ("_body_mla_values", body_mla_values tensors); ("_body_indexer_scores", body_indexer_scores tensors);
   ("_body_index_topk", body_index_topk tensors); ("_body_cache_append", body_cache_append tensors);
   ("_body_cache_append_paged", body_cache_append_paged tensors);
   ("_body_attention_scores_paged", body_attention_scores_paged tensors);
   ("_body_attention_values_paged", body_attention_values_paged tensors);
   ("_body_attention_scores", body_attention_scores tensors); ("_body_softmax", body_softmax tensors);
   ("_body_attention_values", body_attention_values tensors)].

Definition RecurrentReference : dict string body :=
  [("_body_compressor_append", body_compressor_append tensors); ("_body_gdn_conv", body_gdn_conv tensors);
   ("_body_mhc_pre", body_mhc_pre tensors); ("_body_mhc_post", body_mhc_post tensors);
   ("_body_gdn_delta", body_gdn_delta tensors); ("_body_kda_delta", body_kda_delta tensors);
   ("_body_kda_fused_decode", body_kda_fused_decode tensors)].

(** [getattr(self, name)], the bases in their method resolution order. *)
Definition getattr (name : string) : result body :=
  of_option (AttributeError name) (dict_get (DenseReference ++ AttentionReference ++ RecurrentReference) name).

(** [{spec.task_kind: getattr(self, spec.reference_body) for spec in CONTRACTS.values()}] *)
Definition task_bodies : result (dict string body) :=
  fold_result (λ out kc, b ← getattr (reference_body kc.2); Ok (dict_set out (oc_task_kind kc.2) b)) [] CONTRACTS.

(** [self._bodies[kind](family, coords, scalars)] *)
Definition execute_body (kind : string) (fam : TaskFamily) (cs : list Z) (sc : scalars) (m : mem) : result mem :=
  bodies ← task_bodies;
  b ← of_option (KeyError kind) (dict_get bodies kind);
  run_m (b fam cs sc) m.
End bodies.

(** ** Storages of the canary *)
Section canary.
Context {V : Type} `{!Numpy V} (length_of : Z → Z).

(** [storage_arrays[sid].fill(np.nan)] and [np.isnan(storage_arrays[sid]).all()] *)
Definition fill_nan (sid : Z) (m : gmap addr V) : gmap addr V :=
  foldl (λ m i, <[(sid, i) := np_nan]> m) m (zrange (length_of sid)).
Definition all_nan (sid : Z) (m : gmap addr V) : bool :=
  forallb (λ i, np_isnan (default np_undef (m !! (sid, i)))) (zrange (length_of sid)).
End canary.
