(* ===== verification/Cells.v ===== *)
(** * The addresses of array accesses

    Which elements a load or a store of the task bodies touches, and how they
    relate to the regions the lowerings declare. *)

From S2P Require Import Prelude Indexing OperatorIR TaskIR LoweringsCommon Arrays ReferenceTypes Execution Effects.
Local Open Scope Z_scope.

(** ** Positions *)
Lemma norm_index_bounds (n i k : Z) : norm_index n i = Ok k → 0 ≤ k < n.
Proof.
  unfold norm_index. destruct ((0 <=? i) && (i <? n)) eqn:E1; [intros [= <-]; zbool; lia|].
  destruct ((- n <=? i) && (i <? 0)) eqn:E2; [intros [= <-]; zbool; lia|done].
Qed.

Lemma norm_index_nonneg (n i k : Z) : 0 ≤ i → norm_index n i = Ok k → k = i.
Proof.
  intros Hi. unfold norm_index. destruct ((0 <=? i) && (i <? n)); [by intros [= <-]|].
  destruct ((- n <=? i) && (i <? 0)) eqn:E; [zbool; lia|done].
Qed.

Lemma py_range_up (start stop step x : Z) (xs : list Z) :
  0 < step → py_range start stop step = Ok xs → x ∈ xs → start ≤ x < stop.
Proof.
  intros Hs. rewrite py_range_pos by done. intros [= <-] (i & -> & Hi)%list_elem_of_fmap.
  apply elem_of_zrange in Hi. assert (H : i < ceil_div (stop - start) step) by lia.
  apply ceil_div_bounds in H; [nia|done].
Qed.

Lemma py_range_down (start stop step x : Z) (xs : list Z) :
  step < 0 → py_range start stop step = Ok xs → x ∈ xs → stop < x ≤ start.
Proof.
  intros Hs. unfold py_range. rewrite decide_False by lia. rewrite decide_False by lia.
  intros [= <-] (i & -> & Hi)%list_elem_of_fmap. apply elem_of_zrange in Hi.
  assert (H : i < ceil_div (start - stop) (- step)) by (unfold ceil_div; replace (start - stop + - step - 1) with (start - stop - step - 1) by lia; lia).
  apply ceil_div_bounds in H; [nia|lia].
Qed.

(** A selected position is a position of the axis. *)
Lemma slice_positions_bounds (n : Z) (lo hi : option Z) (step k : Z) (ks : list Z) :
  slice_positions n lo hi step = Ok ks → k ∈ ks → 0 ≤ k < n.
Proof.
  unfold slice_positions. destruct (step <? 0) eqn:Hs; cbn iota beta zeta; intros H Hk.
  - zbool. apply (py_range_down _ _ _ _ _ Hs H) in Hk.
    destruct lo as [x|], hi as [y|]; try destruct (x <? 0); try destruct (y <? 0); lia.
  - zbool. destruct (decide (step = 0)) as [->|]; [done|].
    apply (py_range_up _ _ step _ _ ltac:(lia) H) in Hk.
    destruct lo as [x|], hi as [y|]; try destruct (x <? 0); try destruct (y <? 0); lia.
Qed.

Lemma resolve_index_bounds (ix : index) (n k : Z) (s : list Z * bool) :
  resolve_index ix n = Ok s → k ∈ s.1 → 0 ≤ k < n.
Proof.
  destruct ix as [i|lo hi step|l]; cbn [resolve_index].
  - destruct (norm_index n i) as [k'|] eqn:E; [|done]. intros [= <-] ->%list_elem_of_singleton.
    by eapply norm_index_bounds.
  - destruct (slice_positions n lo hi step) as [ks|] eqn:E; [|done]. intros [= <-] Hk.
    by eapply slice_positions_bounds.
  - destruct (map_result (norm_index n) l) as [ks|] eqn:E; [|done]. intros [= <-] Hk. simpl in Hk.
    apply map_result_Forall2 in E. apply list_elem_of_lookup in Hk as [j Hj].
    destruct (Forall2_lookup_r _ _ _ _ _ E Hj) as (i & _ & Hi). by eapply norm_index_bounds.
Qed.

(** A plain slice with non-negative ends. *)
Lemma span_positions (n lo hi k : Z) (s : list Z * bool) :
  0 ≤ lo → 0 ≤ hi → resolve_index (Span lo hi) n = Ok s → k ∈ s.1 → lo ≤ k < hi ∧ k < n.
Proof.
  intros Hlo Hhi. cbn [resolve_index Span]. unfold slice_positions. change (1 <? 0) with false.
  cbn beta iota zeta. rewrite (proj2 (Z.ltb_ge lo 0)), (proj2 (Z.ltb_ge hi 0)) by lia.
  destruct (py_range _ _ _) as [ks|] eqn:E; [|done]. intros [= <-] Hk. simpl in Hk.
  apply (py_range_up _ _ 1 _ _ ltac:(lia) E) in Hk. lia.
Qed.

(** ** Selections *)
Lemma elem_of_cart (axes : list (list Z)) (idx : list Z) :
  idx ∈ cart axes ↔ Forall2 (λ l i, i ∈ l) axes idx.
Proof.
  revert idx. induction axes as [|l axes IH]; intros idx; cbn [cart].
  - rewrite list_elem_of_singleton. split; [by intros ->|]. by inversion 1.
  - rewrite list_elem_of_bind. split.
    + intros (i & (js & -> & Hjs)%list_elem_of_fmap & Hi). constructor; [done|]. by apply IH.
    + inversion 1 as [|? i ? js Hi Hjs]; subst. exists i. split; [|done].
      apply list_elem_of_fmap. exists js. split; [done|]. by apply IH.
Qed.

(** The indices of a selection, one axis at a time. *)
Inductive selects : list index → list Z → list Z → Prop :=
  | selects_nil : selects [] [] []
  | selects_ix (ix : index) (ixs : list index) (n k : Z) (shape idx : list Z) (s : list Z * bool) :
      resolve_index ix n = Ok s → k ∈ s.1 → selects ixs shape idx → selects (ix :: ixs) (n :: shape) (k :: idx)
  | selects_rest (n k : Z) (shape idx : list Z) :
      0 ≤ k < n → selects [] shape idx → selects [] (n :: shape) (k :: idx).

Lemma resolve_selects (ixs : list index) (shape : list Z) (sel : list (list Z * bool)) (idx : list Z) :
  resolve ixs shape = Ok sel → idx ∈ sel_cells sel → selects ixs shape idx.
Proof.
  unfold sel_cells. rewrite elem_of_cart. revert ixs sel idx.
  induction shape as [|n shape IH]; intros [|ix ixs] sel idx H Hi; cbn [resolve] in H.
  - injection H as <-. apply Forall2_nil_inv_l in Hi as ->. constructor.
  - done.
  - destruct (resolve_index All n) as [s|] eqn:E; [|done]. cbn in H.
    destruct (resolve [] shape) as [ss|] eqn:E'; [|done]. cbn in H. injection H as <-.
    apply Forall2_cons_inv_l in Hi as (k & js & Hk & Hjs & ->).
    constructor; [by eapply resolve_index_bounds|]. by eapply IH.
  - destruct (resolve_index ix n) as [s|] eqn:E; [|done]. cbn in H.
    destruct (resolve ixs shape) as [ss|] eqn:E'; [|done]. cbn in H. injection H as <-.
    apply Forall2_cons_inv_l in Hi as (k & js & Hk & Hjs & ->). econstructor; [done..|]. by eapply IH.
Qed.

Lemma selects_in_range (ixs : list index) (shape idx : list Z) : selects ixs shape idx → in_range shape idx.
Proof.
  induction 1 as [|ix ixs n k shape idx s Hs Hk _ IH|n k shape idx Hk _ IH]; constructor; try done.
  by eapply resolve_index_bounds.
Qed.

(** The addresses of [v[ixs]]. *)
Definition cells (v : view) (ixs : list index) (a : addr) : Prop :=
  ∃ idx, selects ixs (vw_shape v) idx ∧ a = cell_addr v idx.

(** The addresses of [v.reshape(-1)[lo:hi]]. *)
Definition flat_addrs (v : view) (lo hi : Z) (a : addr) : Prop :=
  ∃ k, lo ≤ k < hi ∧ 0 ≤ k < numel_of (vw_shape v) ∧ a = cell_addr v (unravel (vw_shape v) k).

(** ** What loads and stores touch *)
Section touching.
Context {V : Type} `{!Numpy V} (R W : addr → Prop).
Abbreviation mem := (gmap addr V).

Lemma stays_lift_bind {A B : Type} (r : result A) (k : A → M mem B) :
  (∀ x, r = Ok x → stays R W (k x)) → stays R W (lift r ≫= k).
Proof.
  intros H. destruct r as [x|e].
  - exact (H x eq_refl).
  - exact (stays_lift R W (Err e)).
Qed.

Lemma stays_load_cells (v : view) (shape : list Z) (cs : list (list Z)) :
  (∀ idx, idx ∈ cs → R (cell_addr v idx)) → stays R W (load_cells (V := V) v shape cs).
Proof.
  intros H m1 m2 Hm. exists (Ok (mk_nd shape ((λ idx, m_read m1 (cell_addr v idx)) <$> cs))), ∅.
  rewrite !(left_id_L ∅ (∪)). split_and!; [by intros a [? Ha]; rewrite lookup_empty in Ha|done|].
  unfold load_cells. do 3 f_equal. apply list_fmap_ext. intros i idx Hi. unfold m_read. f_equal.
  symmetry. apply Hm, H. by eapply list_elem_of_lookup_2.
Qed.

Lemma write_cells_overlay (v : view) (ivs : list (list Z * V)) : (∀ iv, iv ∈ ivs → W (cell_addr v iv.1)) →
  ∃ upd, writes_in W upd ∧ ∀ m, write_cells v ivs m = upd ∪ m.
Proof.
  unfold write_cells. induction ivs as [|iv ivs IH] using rev_ind; intros H.
  - exists ∅. split; [by intros a [? Ha]; rewrite lookup_empty in Ha|]. intros m. by rewrite (left_id_L ∅ (∪)).
  - destruct IH as (u & Hu & E); [intros; apply H, elem_of_app; by left|].
    exists (<[cell_addr v iv.1 := np_astype (vw_dtype v) iv.2]> u). split.
    + intros a [x [[<- _]|[_ Ha]]%lookup_insert_Some]; [|apply Hu; by exists x].
      apply H, elem_of_app. right. left.
    + intros m. rewrite foldl_app. cbn [foldl]. rewrite E. by rewrite insert_union_l.
Qed.

Lemma stays_store_cells (v : view) (cs : list (list Z)) (vals : nd V) :
  (∀ idx, idx ∈ cs → W (cell_addr v idx)) → stays R W (store_cells v cs vals).
Proof.
  intros H. destruct (write_cells_overlay v (zip cs (nd_data vals))) as (u & Hu & E).
  { intros [idx x] Hin. apply H. by apply elem_of_zip_l in Hin. }
  intros m1 m2 _. exists (Ok tt), u. unfold store_cells. by rewrite !E.
Qed.

Lemma stays_load (v : view) (ixs : list index) : (∀ a, cells v ixs a → R a) → stays R W (load (V := V) v ixs).
Proof.
  intros H. apply stays_lift_bind. intros sel Hsel. apply stays_load_cells. intros idx Hi. apply H.
  exists idx. split; [by eapply resolve_selects|done].
Qed.

Lemma stays_load_f64 (v : view) (ixs : list index) :
  (∀ a, cells v ixs a → R a) → stays R W (load_f64 (V := V) v ixs).
Proof. intros H. apply stays_bind; [by apply stays_load|]. intros. apply stays_ret. Qed.

Lemma stays_load_int (v : view) (ixs : list index) :
  (∀ a, cells v ixs a → R a) → stays R W (load_int (V := V) v ixs).
Proof. intros H. apply stays_bind; [by apply stays_load|]. intros. apply stays_lift. Qed.

Lemma stays_store (v : view) (ixs : list index) (x : nd V) :
  (∀ a, cells v ixs a → W a) → stays R W (store v ixs x).
Proof.
  intros H. apply stays_lift_bind. intros sel Hsel. apply stays_lift_bind. intros vals _.
  apply stays_store_cells. intros idx Hi. apply H. exists idx. split; [by eapply resolve_selects|done].
Qed.

Lemma stays_assign (v : view) (ixs : list index) (e : result (nd V)) :
  (∀ a, cells v ixs a → W a) → stays R W (assign v ixs e).
Proof. intros H. apply stays_lift_bind. intros x _. by apply stays_store. Qed.

Lemma flat_cells_addr (v : view) (lo hi : Z) (cs : list (list Z)) (idx : list Z) :
  0 ≤ lo → 0 ≤ hi → flat_cells v lo hi = Ok cs → idx ∈ cs → flat_addrs v lo hi (cell_addr v idx).
Proof.
  intros Hlo Hhi. unfold flat_cells. destruct (slice_positions _ _ _ _) as [ks|] eqn:E; [|done].
  intros [= <-] (k & -> & Hk)%list_elem_of_fmap. exists k.
  assert (H : resolve_index (Span lo hi) (numel_of (vw_shape v)) = Ok (ks, true)) by (unfold resolve_index, Span; by rewrite E).
  pose proof (span_positions _ _ _ k _ Hlo Hhi H Hk). pose proof (slice_positions_bounds _ _ _ _ k _ E Hk).
  split_and!; [lia|lia|lia|lia|done].
Qed.

Lemma stays_load_flat (v : view) (lo hi : Z) : 0 ≤ lo → 0 ≤ hi →
  (∀ a, flat_addrs v lo hi a → R a) → stays R W (load_flat (V := V) v lo hi).
Proof.
  intros Hlo Hhi H. apply stays_lift_bind. intros cs Hcs. apply stays_load_cells. intros idx Hi.
  by apply H, (flat_cells_addr v lo hi cs).
Qed.

Lemma stays_store_flat (v : view) (lo hi : Z) (x : nd V) : 0 ≤ lo → 0 ≤ hi →
  (∀ a, flat_addrs v lo hi a → W a) → stays R W (store_flat v lo hi x).
Proof.
  intros Hlo Hhi H. apply stays_lift_bind. intros cs Hcs. apply stays_lift_bind. intros vals _.
  destruct (flattens v); [|apply stays_ret]. apply stays_store_cells. intros idx Hi.
  by apply H, (flat_cells_addr v lo hi cs).
Qed.
End touching.
