(* ===== verification/Vectors.v ===== *)
(** * One-dimensional arrays

    A vector as a function of its positions, and what indexing, arithmetic
    and assignment make of it. *)

From S2P Require Import Prelude Indexing OperatorIR Arrays Cells.
Local Open Scope Z_scope.

Section vectors.
Context {V : Type} `{!Numpy V}.

Definition arr (n : Z) (f : Z → V) : nd V := mk_nd [n] (f <$> zrange n).

Lemma arr_ext (n : Z) (f g : Z → V) : (∀ i, 0 ≤ i < n → f i = g i) → arr n f = arr n g.
Proof.
  intros H. unfold arr. f_equal. apply list_fmap_ext. intros i x [_ Hx]%zrange_lookup_Some. by apply H.
Qed.

Lemma nd_at1 (n i : Z) (l : list V) : nd_at (mk_nd [n] l) [i] = default np_undef (l !! Z.to_nat i).
Proof. unfold nd_at. cbn [nd_shape nd_data ravel]. do 3 f_equal. unfold zprod. simpl. lia. Qed.

Lemma arr_at (n : Z) (f : Z → V) (i : Z) : 0 ≤ i < n → nd_at (arr n f) [i] = f i.
Proof. intros Hi. unfold arr. rewrite nd_at1, list_lookup_fmap, zrange_lookup by done. done. Qed.

(** A vector of values, and an array with one axis. *)
Lemma vec_arr (l : list V) : vec l = arr (Z.of_nat (length l)) (λ i, default np_undef (l !! Z.to_nat i)).
Proof.
  unfold vec, arr. f_equal. apply list_eq. intros j. rewrite list_lookup_fmap.
  destruct (zrange _ !! j) as [i|] eqn:E.
  - apply zrange_lookup_Some in E as [-> Hi]. simpl. rewrite Nat2Z.id.
    destruct (lookup_lt_is_Some_2 l j) as [v ->]; [lia|done].
  - apply lookup_ge_None in E. rewrite length_zrange in E. apply lookup_ge_None. lia.
Qed.

Lemma full_arr (n : Z) (x : V) : full [n] x = arr n (λ _, x).
Proof.
  unfold full, tab, arr, indices. f_equal. cbn [fmap list_fmap cart].
  induction (zrange n) as [|i l IH]; [done|]. cbn in *. by rewrite IH.
Qed.

(** ** Elements *)
Lemma cart1 (ps : list Z) : cart [ps] = (λ i, [i]) <$> ps.
Proof. cbn. induction ps as [|i ps IH]; [done|]. cbn in *. by rewrite IH. Qed.

Lemma sel_shape1 (ps : list Z) : sel_shape [(ps, true)] = [Z.of_nat (length ps)].
Proof. done. Qed.

(** [a[ix]] where [ix] selects the positions [g 0, ..., g (k - 1)]. *)
Definition picks (ix : index) (n k : Z) (g : Z → Z) : Prop :=
  0 ≤ k ∧ resolve_index ix n = Ok (g <$> zrange k, true) ∧ ∀ i, 0 ≤ i < k → 0 ≤ g i < n.

Lemma arr_get (n k : Z) (f : Z → V) (g : Z → Z) (ix : index) :
  picks ix n k g → nd_get (arr n f) [ix] = Ok (arr k (f ∘ g)).
Proof.
  intros (Hk & Hr & Hg). unfold nd_get. cbn [arr nd_shape resolve]. rewrite Hr. cbn [mbind result_bind]. f_equal.
  rewrite sel_shape1. unfold sel_cells. cbn [fmap list_fmap fst snd]. rewrite cart1. unfold arr at 2. f_equal.
  - rewrite length_fmap, length_zrange. f_equal. lia.
  - rewrite <- !list_fmap_compose. apply list_fmap_ext. intros j i [_ Hi]%zrange_lookup_Some. cbn.
    apply arr_at. by apply Hg.
Qed.

(** ** Arithmetic *)
Lemma bidx1 (n i : Z) : 0 ≤ i < n → bidx [n] [i] = [i].
Proof. intros Hi. unfold bidx. cbn. case_match; zbool; [|done]. do 2 f_equal. lia. Qed.

Lemma tab1 (n : Z) (F : list Z → V) : tab [n] F = arr n (λ i, F [i]).
Proof. unfold tab, arr, indices. f_equal. cbn [fmap list_fmap]. by rewrite cart1, <- list_fmap_compose. Qed.

Lemma broadcast1 (n : Z) : broadcast [n] [n] = Ok [n].
Proof. unfold broadcast. cbn. by rewrite Z.eqb_refl. Qed.

Lemma arr_binop (op : V → V → V) (n : Z) (f g : Z → V) : 
  nd_binop op (arr n f) (arr n g) = Ok (arr n (λ i, op (f i) (g i))).
Proof.
  unfold nd_binop. cbn [arr nd_shape]. rewrite broadcast1. cbn [mbind result_bind]. f_equal. rewrite tab1.
  apply arr_ext. intros i Hi. by rewrite bidx1, !arr_at by done.
Qed.

Lemma arr_map (h : V → V) (n : Z) (f : Z → V) : nd_map h (arr n f) = arr n (λ i, h (f i)).
Proof. unfold nd_map, arr. cbn. f_equal. by rewrite <- list_fmap_compose. Qed.

Lemma arr_concat (n k : Z) (f g : Z → V) : 0 ≤ n → 0 ≤ k →
  nd_concat (arr n f) (arr k g) = Ok (arr (n + k) (λ i, if i <? n then f i else g (i - n))).
Proof.
  intros Hn Hk. unfold nd_concat. cbn [arr nd_shape nd_data]. rewrite decide_True by done. f_equal. unfold arr. f_equal.
  apply list_eq. intros j. rewrite lookup_app, !list_lookup_fmap.
  destruct (zrange n !! j) as [i|] eqn:E.
  - apply zrange_lookup_Some in E as [-> Hi]. cbn [fmap option_fmap option_map].
    replace j with (Z.to_nat (Z.of_nat j)) at 2 by lia. rewrite zrange_lookup by lia. cbn.
    by rewrite (proj2 (Z.ltb_lt _ _)) by lia.
  - apply lookup_ge_None in E. rewrite length_zrange in E. cbn [fmap option_fmap option_map].
    rewrite length_fmap, length_zrange. destruct (decide (Z.of_nat j < n + k)).
    + replace (j - Z.to_nat n)%nat with (Z.to_nat (Z.of_nat j - n)) by lia.
      replace j with (Z.to_nat (Z.of_nat j)) at 2 by lia. rewrite !zrange_lookup by lia. cbn.
      by rewrite (proj2 (Z.ltb_ge _ _)) by lia.
    + rewrite !lookup_ge_None_2; [done|rewrite length_zrange; lia..].
Qed.

(** ** Assignment *)

(** Values assigned one by one to distinct positions. *)
Lemma fold_insert (l : list (nat * V)) (data : list V) (i : nat) :
  (∀ v, (i, v) ∉ l) → foldl (λ d iv, <[iv.1 := iv.2]> d) data l !! i = data !! i.
Proof.
  revert data. induction l as [|[j v] l IH]; intros data H; cbn [foldl fst snd]; [done|].
  rewrite IH by (intros w Hw; by apply (H w); right). apply list_lookup_insert_ne. intros ->. apply (H v). left.
Qed.

Lemma length_fold_insert (l : list (nat * V)) (data : list V) :
  length (foldl (λ d iv, <[iv.1 := iv.2]> d) data l) = length data.
Proof. revert data. induction l as [|[j v] l IH]; intros data; cbn [foldl]; [done|]. by rewrite IH, length_insert. Qed.

Lemma fold_insert_elem (l : list (nat * V)) (data : list V) (i : nat) (v : V) :
  NoDup l.*1 → (i < length data)%nat → (i, v) ∈ l → foldl (λ d iv, <[iv.1 := iv.2]> d) data l !! i = Some v.
Proof.
  revert data. induction l as [|[j w] l IH]; intros data Hnd Hi Hin; [by apply not_elem_of_nil in Hin|].
  cbn [foldl fst snd]. cbn in Hnd. apply NoDup_cons in Hnd as [Hj Hnd].
  apply elem_of_cons in Hin as [[= <- <-]|Hin].
  - rewrite fold_insert; [by apply list_lookup_insert_eq|].
    intros w Hw. apply Hj. by apply (list_elem_of_fmap_2 fst) in Hw.
  - apply IH; [done|by rewrite length_insert|done].
Qed.

Lemma broadcast_to_vec (vals : list V) : broadcast_to (vec vals) [Z.of_nat (length vals)] = Ok (vec vals).
Proof.
  unfold broadcast_to. cbn [vec nd_shape]. rewrite broadcast1. cbn [mbind result_bind]. rewrite decide_True by done.
  f_equal. rewrite tab1. rewrite (vec_arr vals). apply arr_ext. intros i Hi. cbn [arr nd_shape].
  rewrite bidx1 by done. rewrite <- vec_arr. unfold vec. by rewrite nd_at1.
Qed.

(** [a[ix] = vals] where [ix] selects the distinct positions [ps]. *)
Lemma arr_set (n : Z) (f f' : Z → V) (ix : index) (ps : list Z) (vals : list V) :
  resolve_index ix n = Ok (ps, true) → (∀ i, i ∈ ps → 0 ≤ i < n) → NoDup ps → length vals = length ps →
  (∀ j i v, ps !! j = Some i → vals !! j = Some v → f' i = v) → (∀ i, 0 ≤ i < n → i ∉ ps → f' i = f i) →
  nd_set (arr n f) [ix] (vec vals) = Ok (arr n f').
Proof.
  intros Hr Hps Hnd Hl Hin Hout. unfold nd_set. cbn [arr nd_shape resolve]. rewrite Hr. cbn [mbind result_bind].
  rewrite sel_shape1, <- Hl, broadcast_to_vec. cbn [mbind result_bind]. f_equal. unfold sel_cells. cbn [fmap list_fmap fst].
  rewrite cart1. unfold arr. f_equal. cbn [vec nd_data].
  set (l := zip (Z.to_nat <$> ps) vals).
  assert (E : foldl (λ data iv, <[Z.to_nat (ravel [n] iv.1) := iv.2]> data) (f <$> zrange n) (zip ((λ i, [i]) <$> ps) vals)
    = foldl (λ d iv, <[iv.1 := iv.2]> d) (f <$> zrange n) l).
  { unfold l. generalize (f <$> zrange n) as data. clear. revert vals.
    induction ps as [|i ps IH]; intros [|v vals] data; cbn [fmap list_fmap zip zip_with foldl fst snd]; try done.
    rewrite IH. do 3 f_equal. cbn. unfold zprod. simpl. lia. }
  cbn [nd_shape]. rewrite E. clear E.
  apply list_eq. intros j. destruct (decide (j < Z.to_nat n)%nat) as [Hj|Hj].
  2: { rewrite !lookup_ge_None_2; [done|rewrite length_fmap, length_zrange; lia|].
       rewrite length_fold_insert, length_fmap, length_zrange. lia. }
  rewrite list_lookup_fmap. replace j with (Z.to_nat (Z.of_nat j)) at 2 by lia. rewrite zrange_lookup by lia. cbn [fmap option_fmap option_map].
  assert (Hl1 : l.*1 = Z.to_nat <$> ps) by (unfold l; apply fst_zip; rewrite length_fmap; lia).
  assert (Hin' : ∀ q v, (q, v) ∈ l → ∃ k i, q = Z.to_nat i ∧ ps !! k = Some i ∧ vals !! k = Some v).
  { intros q v (k & Hk)%list_elem_of_lookup. unfold l in Hk. apply lookup_zip_Some in Hk as [Hk1 Hk2].
    rewrite list_lookup_fmap in Hk1. apply fmap_Some in Hk1 as (i & Hi & ->). by exists k, i. }
  destruct (decide (Z.of_nat j ∈ ps)) as [Hmem|Hmem].
  - apply list_elem_of_lookup in Hmem as (k & Hk). destruct (lookup_lt_is_Some_2 vals k) as [v Hv].
    { rewrite Hl. by eapply lookup_lt_Some. }
    rewrite (fold_insert_elem l _ j v); [by erewrite Hin by done|..].
    + rewrite Hl1. apply NoDup_fmap_2_strong; [|done]. intros x y Hx Hy. apply Hps in Hx, Hy. lia.
    + by rewrite length_fmap, length_zrange.
    + apply list_elem_of_lookup. exists k. unfold l. apply lookup_zip_Some. rewrite list_lookup_fmap, Hk. cbn.
      split; [f_equal; lia|done].
  - rewrite fold_insert.
    + rewrite list_lookup_fmap. replace j with (Z.to_nat (Z.of_nat j)) at 1 by lia. rewrite zrange_lookup by lia.
      cbn. rewrite Hout by (lia || done). done.
    + intros v Hv. destruct (Hin' j v Hv) as (k & i & -> & Hk & _). apply Hmem.
      apply list_elem_of_lookup_2 in Hk. pose proof (Hps i Hk). by rewrite Z2Nat.id by lia.
Qed.

Lemma arr_assign (n k : Z) (f f' h : Z → V) (g : Z → Z) (ix : index) :
  picks ix n k g → (∀ i j, 0 ≤ i < k → 0 ≤ j < k → g i = g j → i = j) →
  (∀ j, 0 ≤ j < k → f' (g j) = h j) → (∀ i, 0 ≤ i < n → (∀ j, 0 ≤ j < k → g j ≠ i) → f' i = f i) →
  nd_set (arr n f) [ix] (arr k h) = Ok (arr n f').
Proof.
  intros (Hk & Hr & Hg) Hinj Hin Hout.
  assert (arr k h = vec (h <$> zrange k)) as ->.
  { unfold arr, vec. rewrite length_fmap, length_zrange. f_equal. f_equal. lia. }
  eapply arr_set; [exact Hr|..].
  - intros i (j & -> & Hj%elem_of_zrange)%list_elem_of_fmap. by apply Hg.
  - apply NoDup_fmap_2_strong; [|apply NoDup_zrange]. intros x y Hx%elem_of_zrange Hy%elem_of_zrange. by apply Hinj.
  - by rewrite !length_fmap.
  - intros j i v. rewrite !list_lookup_fmap. intros (a & Ha & ->)%fmap_Some (b & Hb & ->)%fmap_Some.
    assert (a = b) as -> by congruence. apply zrange_lookup_Some in Hb as [_ Hb]. by apply Hin.
  - intros i Hi Hn. apply Hout; [done|]. intros j Hj <-. apply Hn. apply list_elem_of_fmap. exists j. split; [done|].
    by apply elem_of_zrange.
Qed.

(** ** Slices of a vector *)
Lemma picks_step (n lo hi step k : Z) :
  0 ≤ lo → lo ≤ hi ≤ n → 0 < step → hi - lo = k * step → 
  picks (Slice (Some lo) (Some hi) step) n k (λ i, lo + i * step).
Proof.
  intros Hlo Hhi Hs Hk. split; [nia|]. split; [|intros i Hi; nia]. cbn [resolve_index]. unfold slice_positions.
  rewrite (proj2 (Z.ltb_ge step 0)) by lia. cbn beta iota zeta.
  rewrite (proj2 (Z.ltb_ge lo 0)), (proj2 (Z.ltb_ge hi 0)) by lia.
  rewrite (Z.min_r n lo), (Z.min_r n hi), (Z.max_r 0 lo), (Z.max_r 0 hi) by lia.
  rewrite py_range_pos by done. cbn [mbind result_bind]. do 4 f_equal.
  unfold ceil_div. rewrite Hk. symmetry. apply (Z.div_unique_pos _ _ _ (step - 1)); nia.
Qed.

Lemma picks_odds (n hi k : Z) : 2 * k = hi → hi ≤ n → 0 ≤ k → picks (Slice (Some 1) (Some hi) 2) n k (λ i, 1 + i * 2).
Proof.
  intros Hk Hhi Hk0. split; [done|]. split; [|intros i Hi; lia]. cbn [resolve_index]. unfold slice_positions.
  change (2 <? 0) with false. change (1 <? 0) with false. cbn beta iota zeta. rewrite (proj2 (Z.ltb_ge hi 0)) by lia.
  rewrite py_range_pos by done. cbn [mbind result_bind]. f_equal. f_equal.
  rewrite (Z.min_r n hi), (Z.max_r 0 hi) by lia. destruct (decide (k = 0)) as [->|].
  - rewrite !zrange_nonpos; [done|lia|]. unfold ceil_div. assert (0 ≤ Z.max 0 (n `min` 1)) by lia.
    apply Z.lt_succ_r. apply Z.div_lt_upper_bound; lia.
  - rewrite (Z.min_r n 1), (Z.max_r 0 1) by lia. do 2 f_equal. unfold ceil_div. symmetry.
    apply (Z.div_unique_pos _ _ _ 0); lia.
Qed.

Lemma picks_upto (n hi : Z) : 0 ≤ hi ≤ n → picks (Upto hi) n hi id.
Proof.
  intros Hhi. split; [lia|]. split; [|unfold id; lia]. cbn [resolve_index Upto]. unfold slice_positions.
  change (1 <? 0) with false. cbn beta iota zeta. rewrite (proj2 (Z.ltb_ge hi 0)) by lia.
  rewrite (Z.min_r n hi), (Z.max_r 0 hi) by lia. rewrite py_range_pos by done. cbn [mbind result_bind]. do 2 f_equal.
  replace (ceil_div (hi - 0) 1) with hi by (unfold ceil_div; rewrite Z.div_1_r; lia).
  apply list_fmap_ext. intros j i _. unfold id. lia.
Qed.

Lemma picks_from (n lo : Z) : 0 ≤ lo ≤ n → picks (From lo) n (n - lo) (λ i, lo + i).
Proof.
  intros Hlo. split; [lia|]. split; [|lia]. cbn [resolve_index From]. unfold slice_positions.
  change (1 <? 0) with false. cbn beta iota zeta. rewrite (proj2 (Z.ltb_ge lo 0)) by lia.
  rewrite (Z.min_r n lo), (Z.max_r 0 lo) by lia. rewrite py_range_pos by done. cbn [mbind result_bind]. do 2 f_equal.
  replace (ceil_div (n - lo) 1) with (n - lo) by (unfold ceil_div; rewrite Z.div_1_r; lia).
  apply list_fmap_ext. intros j i _. lia.
Qed.
End vectors.

(** ** Scalars of the examples

    Integers: division rounds down, the square root is the integer one and the
    transcendental functions are step functions. *)
Definition ex_numpy : Numpy Z := {|
  np_undef := 0; np_nan := 0; np_neg_inf := -1000000; np_pi := 3;
  np_int := id; np_float := λ f, match f with FLit z _ => z | _ => 0 end;
  np_astype := λ _, id; np_toint := Ok;
  np_add := Z.add; np_sub := Z.sub; np_mul := Z.mul; np_div := Z.div;
  np_power := Z.pow; np_maximum := Z.max; np_minimum := Z.min; np_logaddexp := Z.max;
  np_negative := Z.opp; np_exp := λ x, if x =? 0 then 1 else 0; np_exp2 := λ x, 2 ^ x; np_log := Z.log2; np_log1p := id;
  np_sqrt := Z.sqrt; np_tanh := Z.sgn; np_reciprocal := λ x, 1 / x;
  np_lt := Z.ltb; np_le := Z.leb; np_eq := Z.eqb;
  np_isfinite := λ _, true; np_isnan := λ _, false; np_floating := λ _, true;
  np_sum := zsum; np_mean := λ l, zsum l / Z.of_nat (length l); np_max := λ l, foldr Z.max (-1000000) l;
  np_dot := λ a b, zsum (zip_with Z.mul a b); np_einsum := λ a b, zsum (zip_with Z.mul a b);
  np_argsort := λ l, zrange (Z.of_nat (length l)); np_sort := id; np_f32_bits := id; np_of_f32_bits := id
|}.

