(* ===== verification/ReferenceSpec.v ===== *)
(** * What the numerical bodies compute

    The rotations undo each other, the indexer selects the best entries, and
    the rounding to bf16 is to nearest even. *)

From Stdlib Require Import Ring_theory Ring Sorted.
From stdpp Require Import sorting.
From S2P Require Import Prelude Indexing OperatorIR Arrays Cells Vectors ReferenceTypes ReferenceDense ReferenceAttention.
Local Open Scope Z_scope.

(** ** Rotations *)
Section rotations.
Context {V : Type} `{num : !Numpy V} (zero one : V).

(** Exact arithmetic: numpy's operations on numbers without rounding. *)
Context (exact : ring_theory zero one np_add np_mul np_sub np_negative eq).
Add Ring exact_ring : exact.

(** Rows of cosines and sines of the same angles. *)
Definition unit_angles (n : Z) (c s : Z → V) : Prop :=
  ∀ i, 0 ≤ i < n → np_add (np_mul (c i) (c i)) (np_mul (s i) (s i)) = one.

Lemma unit_rotation (c s x y : V) : np_add (np_mul c c) (np_mul s s) = one →
  np_add (np_mul (np_sub (np_mul x c) (np_mul y s)) c) (np_mul (np_add (np_mul y c) (np_mul x s)) s) = x
  ∧ np_sub (np_mul (np_add (np_mul y c) (np_mul x s)) c) (np_mul (np_sub (np_mul x c) (np_mul y s)) s) = y.
Proof using exact.
  intros H. split.
  - transitivity (np_mul x (np_add (np_mul c c) (np_mul s s))); [ring|rewrite H; ring].
  - transitivity (np_mul y (np_add (np_mul c c) (np_mul s s))); [ring|rewrite H; ring].
Qed.

(** The even and the odd positions of the rotated part. *)
Definition paired (h : Z) (f0 f1 f : Z → V) (i : Z) : V :=
  if i <? 2 * h then if i mod 2 =? 0 then f0 (i / 2) else f1 (i / 2) else f i.

Ltac halves := Z.to_euclidean_division_equations; lia.

Lemma paired_even (h j : Z) (f0 f1 f : Z → V) : 0 ≤ j < h → paired h f0 f1 f (0 + j * 2) = f0 j.
Proof using Type.
  intros Hj. unfold paired. rewrite (proj2 (Z.ltb_lt _ _)), (proj2 (Z.eqb_eq _ _)) by halves. f_equal. halves.
Qed.

Lemma paired_odd (h j : Z) (f0 f1 f : Z → V) : 0 ≤ j < h → paired h f0 f1 f (1 + j * 2) = f1 j.
Proof using Type.
  intros Hj. unfold paired. rewrite (proj2 (Z.ltb_lt _ _)), (proj2 (Z.eqb_neq _ _)) by halves. f_equal. halves.
Qed.

Lemma set_pairs (n h : Z) (f f0 f1 : Z → V) : 0 ≤ h → 2 * h ≤ n →
  (out ← nd_set (arr n f) [evens (2 * h)] (arr h f0); nd_set out [odds (2 * h)] (arr h f1))
  = Ok (arr n (paired h f0 f1 f)).
Proof using Type.
  intros Hh Hn. rewrite (arr_assign n h f (paired h f0 (λ j, f (1 + j * 2)) f) f0 (λ i, 0 + i * 2)).
  - cbn [mbind result_bind]. apply (arr_assign n h _ _ _ (λ i, 1 + i * 2)); [by apply picks_odds; lia|lia|..].
    + intros j Hj. by apply paired_odd.
    + intros i Hi Hne. unfold paired. destruct (i <? 2 * h) eqn:E; [|done]. zbool. destruct (i mod 2 =? 0) eqn:Ev; [done|].
      zbool. exfalso. apply (Hne (i / 2)); halves.
  - apply picks_step; lia.
  - lia.
  - intros j Hj. by apply paired_even.
  - intros i Hi Hne. unfold paired. destruct (i <? 2 * h) eqn:E; [|done]. zbool. destruct (i mod 2 =? 0) eqn:Ev; zbool.
    + exfalso. apply (Hne (i / 2)); halves.
    + f_equal. halves.
Qed.

(** The two rotations of interleaved pairs. *)
Lemma rope_interleaved_arr (n h : Z) (f c s : Z → V) : 0 ≤ h → 2 * h ≤ n →
  rope_interleaved (arr n f) (arr h c) (arr h s) (2 * h) = Ok (arr n (paired h
    (λ j, np_sub (np_mul (f (0 + j * 2)) (c j)) (np_mul (f (1 + j * 2)) (s j)))
    (λ j, np_add (np_mul (f (1 + j * 2)) (c j)) (np_mul (f (0 + j * 2)) (s j))) f)).
Proof using Type.
  intros Hh Hn. unfold rope_interleaved, e_bin, e_get. cbn [mbind result_bind].
  rewrite (arr_get n h f (λ i, 0 + i * 2)) by (apply picks_step; lia).
  rewrite (arr_get n h f (λ i, 1 + i * 2)) by (apply picks_odds; lia).
  cbn [mbind result_bind]. rewrite !arr_binop. cbn [mbind result_bind]. rewrite !arr_binop. cbn [mbind result_bind].
  apply set_pairs; done.
Qed.

Lemma conjugate_interleaved_arr (n h : Z) (f c s : Z → V) : 0 ≤ h → 2 * h ≤ n →
  conjugate_interleaved (arr n f) (arr h c) (arr h s) (2 * h) = Ok (arr n (paired h
    (λ j, np_add (np_mul (f (0 + j * 2)) (c j)) (np_mul (f (1 + j * 2)) (s j)))
    (λ j, np_sub (np_mul (f (1 + j * 2)) (c j)) (np_mul (f (0 + j * 2)) (s j))) f)).
Proof using Type.
  intros Hh Hn. unfold conjugate_interleaved, e_bin, e_get. cbn [mbind result_bind].
  rewrite (arr_get n h f (λ i, 0 + i * 2)) by (apply picks_step; lia).
  rewrite (arr_get n h f (λ i, 1 + i * 2)) by (apply picks_odds; lia).
  cbn [mbind result_bind]. rewrite !arr_binop. cbn [mbind result_bind]. rewrite !arr_binop. cbn [mbind result_bind].
  apply set_pairs; done.
Qed.

(** [rotate_half] of a row of even width. *)
Definition half_turn (h : Z) (f : Z → V) (i : Z) : V := if i <? h then np_negative (f (h + i)) else f (i - h).

Lemma rotate_half_arr (h : Z) (f : Z → V) : 0 ≤ h → rotate_half (arr (2 * h) f) = Ok (arr (2 * h) (half_turn h f)).
Proof using Type.
  intros Hh. unfold rotate_half, e_map, e_get, py_last. cbn [arr nd_shape last mbind result_bind of_option].
  assert ((2 * h) / 2 = h) as -> by halves.
  rewrite (arr_get (2 * h) (2 * h - h) f (λ i, h + i) (From h)) by (apply picks_from; lia).
  rewrite (arr_get (2 * h) h f id (Upto h)) by (apply picks_upto; lia).
  cbn [fmap result_fmap mbind result_bind]. rewrite arr_map, arr_concat by lia. f_equal.
  replace (2 * h - h + h) with (2 * h) by lia. apply arr_ext. intros i Hi. unfold half_turn.
  replace (2 * h - h) with h by lia. done.
Qed.

Lemma rope_rotate_half_arr (h : Z) (f c s : Z → V) : 0 ≤ h →
  rope_rotate_half (arr (2 * h) f) (arr (2 * h) c) (arr (2 * h) s)
  = Ok (arr (2 * h) (λ i, np_add (np_mul (f i) (c i)) (np_mul (half_turn h f i) (s i)))).
Proof using Type.
  intros Hh. unfold rope_rotate_half, e_bin. rewrite rotate_half_arr by done. cbn [mbind result_bind].
  rewrite !arr_binop. cbn [mbind result_bind]. by rewrite arr_binop.
Qed.

Lemma conjugate_rotate_half_arr (h : Z) (f c s : Z → V) : 0 ≤ h →
  conjugate_rotate_half (arr (2 * h) f) (arr (2 * h) c) (arr (2 * h) s)
  = Ok (arr (2 * h) (λ i, np_sub (np_mul (f i) (c i)) (np_mul (half_turn h f i) (s i)))).
Proof using Type.
  intros Hh. unfold conjugate_rotate_half, e_bin. rewrite rotate_half_arr by done. cbn [mbind result_bind].
  rewrite !arr_binop. cbn [mbind result_bind]. by rewrite arr_binop.
Qed.

(** C20. In exact arithmetic the output-side rotation undoes the rotation of
    the queries and keys, in both conventions that have both sides: the
    interleaved one on the first [2 h] channels of a row of [n], with a table of
    [h] angles, and the rotate-half one on a row of [2 h] channels, with a
    table that repeats its [h] angles. *)
Theorem conjugate_rope_inverts (n h : Z) (f c s : Z → V) :
  0 ≤ h → 2 * h ≤ n → unit_angles (2 * h) c s → (∀ i, 0 ≤ i < h → c (h + i) = c i ∧ s (h + i) = s i) →
  (y ← rope_interleaved (arr n f) (arr h c) (arr h s) (2 * h); conjugate_interleaved y (arr h c) (arr h s) (2 * h))
    = Ok (arr n f)
  ∧ (y ← rope_rotate_half (arr (2 * h) f) (arr (2 * h) c) (arr (2 * h) s);
     conjugate_rotate_half y (arr (2 * h) c) (arr (2 * h) s)) = Ok (arr (2 * h) f).
Proof using exact.
  intros Hh Hn Hu Hper. split.
  - rewrite rope_interleaved_arr by done. cbn [mbind result_bind]. rewrite conjugate_interleaved_arr by done. f_equal.
    apply arr_ext. intros i Hi. unfold paired at 1. destruct (i <? 2 * h) eqn:E; zbool.
    + assert (Hj : 0 ≤ i / 2 < h) by halves. destruct (unit_rotation (c (i / 2)) (s (i / 2)) (f (0 + i / 2 * 2)) (f (1 + i / 2 * 2)))
        as [H0 H1]; [apply Hu; lia|].
      rewrite paired_even, paired_odd by done. destruct (i mod 2 =? 0) eqn:Ev; zbool.
      * rewrite H0. f_equal. halves.
      * rewrite H1. f_equal. halves.
    + unfold paired. rewrite (proj2 (Z.ltb_ge _ _)) by lia. done.
  - rewrite rope_rotate_half_arr by done. cbn [mbind result_bind]. rewrite conjugate_rotate_half_arr by done. f_equal.
    apply arr_ext. intros i Hi. unfold half_turn. destruct (i <? h) eqn:E; zbool.
    + rewrite (proj2 (Z.ltb_ge (h + i) h)) by lia. replace (h + i - h) with i by lia.
      destruct (Hper i) as [-> ->]; [lia|].
      transitivity (np_mul (f i) (np_add (np_mul (c i) (c i)) (np_mul (s i) (s i)))); [ring|rewrite Hu by lia; ring].
    + rewrite (proj2 (Z.ltb_lt (i - h) h)) by lia. replace (h + (i - h)) with i by lia.
      destruct (Hper (i - h)) as [E1 E2]; [lia|]. replace (h + (i - h)) with i in * by lia. rewrite <- E1, <- E2.
      transitivity (np_mul (f i) (np_add (np_mul (c i) (c i)) (np_mul (s i) (s i)))); [ring|rewrite Hu by lia; ring].
Qed.
End rotations.

Lemma conjugate_rope_inverts_witness :
  (y ← @rope_interleaved Z ex_numpy (vec [5; 7; 9]) (vec [0]) (vec [1]) 2;
   @conjugate_interleaved Z ex_numpy y (vec [0]) (vec [1]) 2) = Ok (vec [5; 7; 9])
  ∧ @rope_interleaved Z ex_numpy (vec [5; 7; 9]) (vec [0]) (vec [1]) 2 = Ok (vec [-7; 5; 9]).
Proof.
  split; [|vm_compute; reflexivity].
  pose proof (proj1 (conjugate_rope_inverts (num := ex_numpy) 0 1 Zth 3 1 (λ i, 5 + 2 * i) (λ _, 0) (λ _, 1) ltac:(lia) ltac:(lia)
    ltac:(intros ? ?; reflexivity) ltac:(intros ? ?; split; reflexivity))) as H. exact H.
Defined.

(** ** Selection of the best entries *)
Section ranks.
Context {V : Type} `{num : !Numpy V} (row : Z → V) (cand : Z → bool) (m : Z) (val : V → Z).

(** Numpy compares the scores of the candidates, which are finite, as the
    numbers they stand for (here counted in units of the least float64). *)
Definition compares_values : Prop := ∀ i j, cand i = true → cand j = true →
  (np_gt (row i) (row j) = true ↔ val (row j) < val (row i))
  ∧ (np_eq (row i) (row j) = true ↔ val (row i) = val (row j)).
Context (Hcmp : compares_values).

(** A higher score, or the same score and a lower index. *)
Definition better (i j : Z) : Prop := val (row j) < val (row i) ∨ (val (row i) = val (row j) ∧ i < j).
Definition no_worse (i j : Z) : Prop := better i j ∨ i = j.

#[local] Instance better_decision i j : Decision (better i j).
Proof. unfold better. apply _. Defined.
#[local] Instance no_worse_decision i j : Decision (no_worse i j).
Proof. unfold no_worse. apply _. Defined.
#[local] Instance no_worse_total : Total no_worse.
Proof. intros i j. unfold no_worse, better. lia. Qed.
#[local] Instance no_worse_trans : Transitive no_worse.
Proof. unfold no_worse, better. intros i j k [H1|<-] [H2|<-]; [left; lia|by left|by left|by right]. Qed.

Definition candidates : list Z := filter (λ j, cand j = true) (zrange m).
(** The candidates, best first. *)
Definition ranking : list Z := merge_sort no_worse candidates.

Lemma ranking_perm : ranking ≡ₚ candidates.
Proof using Type. apply merge_sort_Permutation. Qed.

Lemma ranking_NoDup : NoDup ranking.
Proof using Type. rewrite ranking_perm. apply NoDup_filter, NoDup_zrange. Qed.

Lemma ranking_sorted : StronglySorted no_worse ranking.
Proof using Type. apply StronglySorted_merge_sort; apply _. Qed.

Lemma elem_of_ranking (j : Z) : j ∈ ranking ↔ cand j = true ∧ 0 ≤ j < m.
Proof using Type. rewrite ranking_perm. unfold candidates. rewrite list_elem_of_filter, elem_of_zrange. done. Qed.

Lemma rank_count (j : Z) : cand j = true →
  rank_of row cand m j = Z.of_nat (length (filter (λ i, better i j) candidates)).
Proof using Hcmp.
  intros Hj. unfold rank_of, count_of, candidates. induction (zrange m) as [|i l IH]; [done|]. rewrite !filter_cons.
  destruct (cand i) eqn:Hi; rewrite ?andb_false_r, ?andb_true_r.
  - destruct (Hcmp i j Hi Hj) as [Hg He]. rewrite (decide_True (P := true = true)), filter_cons by done.
    assert (Hb : better i j ↔ np_gt (row i) (row j) = true ∨ (np_eq (row i) (row j) && (i <? j))%bool = true).
    { unfold better. rewrite andb_true_iff, Z.ltb_lt, Hg, He. done. }
    assert (¬ (np_gt (row i) (row j) = true ∧ (np_eq (row i) (row j) && (i <? j))%bool = true)).
    { rewrite andb_true_iff, Hg, He. lia. }
    repeat case_decide; cbn [length]; try lia; tauto.
  - rewrite !(decide_False (P := false = true)) by done. exact IH.
Qed.

(** The position of a candidate in the ranking is its rank. *)
Lemma ranking_rank (i : nat) (j : Z) : ranking !! i = Some j → rank_of row cand m j = Z.of_nat i.
Proof using Hcmp.
  intros Hi. assert (Hj : cand j = true) by (apply elem_of_ranking; by eapply list_elem_of_lookup_2).
  rewrite rank_count by done. f_equal.
  assert (filter (λ k, better k j) candidates ≡ₚ filter (λ k, better k j) ranking) as ->
    by (by rewrite ranking_perm).
  pose proof ranking_sorted as Hs. pose proof ranking_NoDup as Hnd. revert i Hi Hs Hnd. generalize ranking as l.
  induction l as [|x l IH]; intros i Hi Hs Hnd; [done|]. apply StronglySorted_inv in Hs as [Hs Hx]. apply NoDup_cons in Hnd as [Hn Hnd].
  rewrite filter_cons. destruct i as [|i]; simpl in Hi.
  - injection Hi as ->. rewrite decide_False by (unfold better; lia).
    assert (filter (λ k, better k j) l = []) as ->; [|done].
    apply elem_of_nil_inv. intros k [Hk Hl]%list_elem_of_filter. rewrite Forall_forall in Hx.
    destruct (Hx k Hl) as [Hb| ->]; unfold better in *; lia.
  - rewrite decide_True; [cbn [length]; f_equal; by apply IH|].
    rewrite Forall_forall in Hx. destruct (Hx j) as [|E]; [by eapply list_elem_of_lookup_2|done|].
    subst x. exfalso. apply Hn. by eapply list_elem_of_lookup_2.
Qed.

Lemma selected_spec (k j r : Z) :
  (j, r) ∈ selected row cand m k ↔ 0 ≤ r < k ∧ ranking !! Z.to_nat r = Some j.
Proof using Hcmp.
  unfold selected. rewrite list_elem_of_fmap. split.
  - intros (j' & [= <- ->] & [[Hj Hr]%andb_true_iff Hin%elem_of_zrange]%list_elem_of_filter).
    assert (Hl : j ∈ ranking) by (by apply elem_of_ranking). apply list_elem_of_lookup in Hl as [i Hi].
    rewrite (ranking_rank i j Hi) in *. zbool. rewrite Nat2Z.id. split; [lia|done].
  - intros [Hr Hi]. exists j. rewrite (ranking_rank _ j Hi). split; [f_equal; lia|].
    assert (Hj : j ∈ ranking) by (by eapply list_elem_of_lookup_2). apply elem_of_ranking in Hj as [Hj Hin].
    apply list_elem_of_filter. rewrite elem_of_zrange. split; [|done]. apply andb_true_iff. split; [done|].
    rewrite (ranking_rank _ j Hi). apply Z.ltb_lt. lia.
Qed.

Lemma selected_NoDup (k : Z) : NoDup (selected row cand m k).*2.
Proof using Hcmp.
  apply NoDup_fmap_2_strong.
  - intros [j1 r1] [j2 r2] [_ H1]%selected_spec [_ H2]%selected_spec E. simpl in E. subst r2. congruence.
  - unfold selected. apply NoDup_fmap_2; [|apply NoDup_filter, NoDup_zrange]. by intros x y [= ? _].
Qed.

(** C21. The selection of the sparse-attention indexer: ranks by counting give
    the candidates in a stable order, higher scores first and lower indices
    first among equal scores.  The [k] slots of the task (indices, and
    normalised scores) hold the best candidates in that order, and the slots
    past the last candidate keep their fill. *)
Theorem index_topk_selects (k : Z) : ∃ l,
  l ≡ₚ candidates ∧ StronglySorted no_worse l
  ∧ ∀ (g : Z → V) (out : V), scatter (full [k] out) (selected row cand m k) g
      = Ok (arr k (λ r, match l !! Z.to_nat r with Some j => g j | None => out end)).
Proof using Hcmp.
  exists ranking. split; [apply ranking_perm|]. split; [apply ranking_sorted|]. intros g out.
  unfold scatter. rewrite full_arr. apply (arr_set k _ _ _ (selected row cand m k).*2).
  - cbn [resolve_index]. rewrite (map_result_ok (norm_index k) id); [by rewrite list_fmap_id|].
    intros r ([j r'] & -> & [Hr _]%selected_spec)%list_elem_of_fmap. unfold norm_index. cbn [snd].
    rewrite (proj2 (Z.leb_le 0 r')), (proj2 (Z.ltb_lt r' k)) by lia. done.
  - intros r ([j r'] & -> & [Hr _]%selected_spec)%list_elem_of_fmap. done.
  - apply selected_NoDup.
  - by rewrite !length_fmap.
  - intros i r v. rewrite !list_lookup_fmap. intros ([j r'] & Hi & ->)%fmap_Some ([j' r''] & Hi' & ->)%fmap_Some.
    rewrite Hi in Hi'. injection Hi' as <- <-. apply list_elem_of_lookup_2, selected_spec in Hi as [_ Hl].
    cbn [fst snd]. by rewrite Hl.
  - intros r Hr Hn. destruct (ranking !! Z.to_nat r) as [j|] eqn:E; [|done]. exfalso. apply Hn.
    apply list_elem_of_fmap. exists (j, r). split; [done|]. by apply selected_spec.
Qed.
End ranks.

Lemma index_topk_selects_witness : ∃ l : list Z,
  l ≡ₚ [0; 1; 2; 3] ∧ @scatter Z ex_numpy (full [6] (-1)) (@selected Z ex_numpy
    (λ j, default 0 ([3; 9; 3; 5] !! Z.to_nat j)) (λ j, j <? 4) 4 6) id = Ok (mk_nd [6] [1; 3; 0; 2; -1; -1]).
Proof.
  destruct (index_topk_selects (num := ex_numpy) (λ j, default 0 ([3; 9; 3; 5] !! Z.to_nat j)) (λ j, j <? 4) 4 id
    ltac:(intros i j _ _; split; [apply Z.ltb_lt|apply Z.eqb_eq]) 6) as (l & Hl & _ & _).
  exists l. split; [exact Hl|vm_compute; reflexivity].
Defined.

(** ** Rounding to bf16 *)

(** The mask keeps the upper half of a word. *)
Lemma land_upper (r : Z) : Z.land r 4294901760 = (r / 65536) mod 65536 * 65536.
Proof.
  change 4294901760 with (Z.shiftl (Z.ones 16) 16). change 65536 with (2 ^ 16).
  rewrite <- Z.land_ones, <- Z.shiftr_div_pow2, <- Z.shiftl_mul_pow2 by lia. apply Z.bits_inj'. intros n Hn.
  rewrite Z.land_spec. destruct (decide (n < 16)) as [H|H].
  - rewrite !Z.shiftl_spec_low by lia. apply andb_false_r.
  - rewrite !Z.shiftl_spec, Z.land_spec, Z.shiftr_spec by lia. by replace (n - 16 + 16) with n by lia.
Qed.

Lemma bf16_bits (u : Z) : 0 ≤ u < 4294934528 →
  bf16_round_bits u = (u + 32767 + (u / 65536) mod 2) / 65536 * 65536.
Proof.
  intros Hu. unfold bf16_round_bits. rewrite Z.shiftr_div_pow2 by lia.
  change (Z.land (u / 2 ^ 16) 1) with (Z.land (u / 65536) (Z.ones 1)). rewrite Z.land_ones by lia. change (2 ^ 1) with 2.
  rewrite land_upper.
  assert (Hb : 0 ≤ (u + 32767 + (u / 65536) mod 2) / 65536 < 65536) by (Z.to_euclidean_division_equations; lia).
  rewrite (Z.mod_small _ 65536) by done. apply Z.mod_small. lia.
Qed.

(** C22. [bf16_round] on the bits of a number: for every pattern below the
    last half step, the result keeps the upper half only, no pattern with an
    empty lower half is nearer to the argument, and of two nearest ones it is
    the one whose upper half is even. *)
Theorem bf16_rounds_to_nearest_even (u : Z) : 0 ≤ u < 4294934528 →
  (65536 | bf16_round_bits u)
  ∧ (∀ v, (65536 | v) → Z.abs (bf16_round_bits u - u) ≤ Z.abs (v - u))
  ∧ (∀ v, (65536 | v) → v ≠ bf16_round_bits u → Z.abs (v - u) = Z.abs (bf16_round_bits u - u) →
       Z.even (bf16_round_bits u / 65536) = true).
Proof.
  intros Hu. rewrite bf16_bits by done. set (q := (u + 32767 + (u / 65536) mod 2) / 65536).
  assert (Hq : (u mod 65536 < 32768 ∧ q = u / 65536) ∨ (u mod 65536 > 32768 ∧ q = u / 65536 + 1)
             ∨ (u mod 65536 = 32768 ∧ q = u / 65536 + (u / 65536) mod 2))
    by (unfold q; Z.to_euclidean_division_equations; lia).
  clearbody q. split; [by exists q|]. split.
  - intros v [w ->]. Z.to_euclidean_division_equations. lia.
  - intros v [w ->] Hne Ht. rewrite Z.div_mul by done. rewrite Z.even_spec.
    exists (q / 2). Z.to_euclidean_division_equations. lia.
Qed.

Lemma bf16_rounds_to_nearest_even_witness :
  bf16_round_bits 1065385984 = 1065353216 ∧ (65536 | bf16_round_bits 1065385984).
Proof.
  split; [vm_compute; reflexivity|]. exact (proj1 (bf16_rounds_to_nearest_even 1065385984 ltac:(lia))).
Defined.

(** A NaN need not survive [bf16_round]: the increment of a NaN whose
    payload is small clears it, which leaves an infinity, and that of a NaN
    whose payload is large carries out of the exponent, which leaves a zero. *)
Theorem bf16_round_loses_nans (u : Z) :
  (2139095040 < u ≤ 2139127808 → bf16_round_bits u = 2139095040)
  ∧ (2147450880 ≤ u < 2147483648 → bf16_round_bits u = 2147483648)
  ∧ (4286578688 < u ≤ 4286611456 → bf16_round_bits u = 4286578688)
  ∧ (4294934528 ≤ u < 4294967296 → bf16_round_bits u = 0).
Proof.
  split_and!; intros Hu; [rewrite bf16_bits by lia; Z.to_euclidean_division_equations; lia..|].
  unfold bf16_round_bits. rewrite Z.shiftr_div_pow2 by lia. assert (u / 2 ^ 16 = 65535) as ->.
  { symmetry. apply (Z.div_unique_pos _ _ _ (u - 4294901760)); lia. }
  change (Z.land 65535 1) with 1. rewrite land_upper.
  assert ((u + 32767 + 1) / 65536 = 65536) as ->; [|done].
  symmetry. apply (Z.div_unique_pos _ _ _ (u + 32768 - 4294967296)); lia.
Qed.

Lemma bf16_round_loses_nans_witness : bf16_round_bits 2139095041 = 2139095040 ∧ bf16_round_bits 4294967295 = 0.
Proof.
  split; [apply (proj1 (bf16_round_loses_nans 2139095041)); lia
         |apply (proj2 (proj2 (proj2 (bf16_round_loses_nans 4294967295)))); lia].
Defined.
