(* ===== verification/Declared.v ===== *)
(** * Captured operators declare their operands

    Every operator the capture rules record names tensors that are registered
    in the graph, and its recorded regions declare each operand its lowering
    touches.  [safe] is a small program logic over the recorder: it threads
    the tensors known to be registered.  The dense capture rules are here,
    the stateful ones in [DeclaredState]. *)

From S2P Require Import Prelude Indexing OperatorIR Contracts TaskIR SchedulePhase ScheduleStatic.
From S2P Require Import TileDependencies LoweringsCommon Operands Capture CaptureUpdates CaptureDense.
Local Open Scope Z_scope.

(** ** Declared operators *)

(** The attributes have the types the contract of the kind checks. *)
Definition attributes_typed (kind : string) (attributes : attrs) : Prop :=
  match dict_get CONTRACTS kind with
  | Some c => validate_attributes c attributes = Ok tt
  | None => False
  end.

Record declared (g : OperatorGraph) (op : Operator) : Prop := {
  de_reads : ∀ i n, (i ∉ unread_inputs (op_kind op)) → op_inputs op !! i = Some n →
    ∃ tv, dict_get (g_tensors g) n = Some tv
      ∧ operand_declared (op_kind op) op g i tv (op_read_regions op);
  de_updates : ∀ i n, i ∈ updated_inputs (op_kind op) → op_inputs op !! i = Some n →
    ∃ tv, dict_get (g_tensors g) n = Some tv
      ∧ operand_declared (op_kind op) op g i tv (op_write_regions op);
  de_writes : ∀ n, n ∈ op_outputs op →
    ∃ tv, dict_get (g_tensors g) n = Some tv ∧ ∃ R, R ∈ op_write_regions op ∧ covers_whole tv R;
  de_typed : attributes_typed (op_kind op) (op_attributes op)
}.

(** A graph whose operators are all declared. *)
Record program_wf (g : OperatorGraph) : Prop := {
  pw_graph : graph_wf g;
  pw_declared : ∀ op, op ∈ g_ops g → declared g op
}.

Lemma empty_program_wf : program_wf empty_graph.
Proof. split; [apply empty_graph_wf|]. intros op H. by apply not_elem_of_nil in H. Qed.

Lemma tensor_in_grows (g g' : OperatorGraph) (op : Operator) (i : nat) (tv : TensorValue) :
  grows g g' → tensor_in op g i = Ok tv → tensor_in op g' i = Ok tv.
Proof.
  unfold tensor_in, graph_tensor. intros Hg. destruct (py_index _ _) as [n|]; [|done]. simpl.
  destruct (dict_get (g_tensors g) n) as [tv'|] eqn:E; [|done]. by rewrite (Hg _ _ E).
Qed.

Lemma operand_declared_grows (kind : string) (g g' : OperatorGraph) (op : Operator) (i : nat)
    (tv : TensorValue) (rs : list Region) :
  grows g g' → operand_declared kind op g i tv rs → operand_declared kind op g' i tv rs.
Proof.
  intros Hg. unfold operand_declared, covers_heads. repeat case_decide; try done.
  intros [?|(B & Hq & n & u & (q & Hin & Hdims) & ?)]; [by left|right].
  exists B, Hq, n, u. split; [|done]. exists q. split; [|done]. by eapply tensor_in_grows.
Qed.

Lemma declared_grows (g g' : OperatorGraph) (op : Operator) :
  grows g g' → declared g op → declared g' op.
Proof.
  intros Hg [Hr Hu Hw Ht]. split; [..|done].
  - intros i n Hi Hn. destruct (Hr i n Hi Hn) as (tv & ? & ?). eauto using operand_declared_grows.
  - intros i n Hi Hn. destruct (Hu i n Hi Hn) as (tv & ? & ?). eauto using operand_declared_grows.
  - intros n Hn. destruct (Hw n Hn) as (tv & ? & ?). eauto.
Qed.

(** ** The program logic *)

(** From registered tensors [known], [m] keeps the program well formed and
    the registered tensors registered; when it returns [x], the tensors
    [gives x] are registered too. *)
Definition safe {C} (known : list TensorValue) (m : R C) (gives : C → list TensorValue) : Prop :=
  ∀ r, program_wf (rb_graph r) → Forall (registered (rb_graph r)) known →
    program_wf (rb_graph (m r).2) ∧ grows (rb_graph r) (rb_graph (m r).2)
    ∧ ∀ x, (m r).1 = Ok x → Forall (registered (rb_graph (m r).2)) (gives x).

Section safe_rules.
Context {A B : Type}.

Lemma safe_bind_ok (known : list TensorValue) (m : R A) (f : A → R B) (Q1 : A → list TensorValue)
    (Q2 : B → list TensorValue) :
  safe known m Q1 → (∀ r x, (m r).1 = Ok x → safe (Q1 x ++ known) (f x) Q2) → safe known (m ≫= f) Q2.
Proof.
  intros Hm Hf r Hw Hk. destruct (Hm r Hw Hk) as (Hw1 & Hg1 & Hx). specialize (Hf r).
  unfold mbind, M_bind.
  destruct (m r) as [[x|e] r1]; simpl in *; [|by split_and!].
  assert (Hk1 : Forall (registered (rb_graph r1)) (Q1 x ++ known)).
  { apply Forall_app. split; [by apply Hx|]. eapply Forall_impl; [exact Hk|].
    intros tv. by apply registered_grows. }
  destruct (Hf x eq_refl r1 Hw1 Hk1) as (Hw2 & Hg2 & Hy). split_and!; [done|by etrans|done].
Qed.

Lemma safe_bind (known : list TensorValue) (m : R A) (f : A → R B) (Q1 : A → list TensorValue)
    (Q2 : B → list TensorValue) :
  safe known m Q1 → (∀ x, safe (Q1 x ++ known) (f x) Q2) → safe known (m ≫= f) Q2.
Proof. intros Hm Hf. apply (safe_bind_ok _ _ _ Q1); auto. Qed.

(** A step that leaves the graph alone. *)
Lemma safe_pure (known : list TensorValue) (m : R A) :
  (∀ r, rb_graph (m r).2 = rb_graph r) → safe known m (λ _, []).
Proof. intros Hm r Hw Hk. rewrite Hm. split_and!; [done|done|]. intros. constructor. Qed.

Lemma safe_ret (known : list TensorValue) (x : A) (gives : A → list TensorValue) :
  (∀ tv, tv ∈ gives x → tv ∈ known) → safe known (mret x : R A) gives.
Proof.
  intros Hx r Hw Hk. split_and!; [done|done|]. intros y [= <-]. simpl.
  rewrite Forall_forall in Hk |- *. intros tv Htv. by apply Hk, Hx.
Qed.

Lemma safe_weaken (known : list TensorValue) (m : R A) (Q : A → list TensorValue) :
  safe known m Q → safe known m (λ _, []).
Proof. intros Hm r Hw Hk. destruct (Hm r Hw Hk) as (? & ? & _). split_and!; [done..|constructor]. Qed.
End safe_rules.


Lemma safe_lift {A} (known : list TensorValue) (x : result A) : safe known (lift x) (λ _, []).
Proof. by apply safe_pure. Qed.
Lemma safe_lift_known {A} (known : list TensorValue) (x : result A) (gives : A → list TensorValue) :
  (∀ y tv, x = Ok y → tv ∈ gives y → tv ∈ known) → safe known (lift x) gives.
Proof.
  intros Hx r Hw Hk. split_and!; [done|by intros n tv|]. simpl. intros y ->.
  rewrite Forall_forall in Hk |- *. intros tv Htv. apply Hk. by eapply Hx.
Qed.
Lemma safe_guard (known : list TensorValue) (b : bool) (e : exn) :
  safe known (guard_m b e) (λ _, []).
Proof. apply safe_lift. Qed.
Lemma safe_raise {A} (known : list TensorValue) (e : exn) : safe known (raise e : R A) (λ _, []).
Proof. by apply safe_pure. Qed.
Lemma safe_suffix (known : list TensorValue) : safe known op_suffix (λ _, []).
Proof. by apply safe_pure. Qed.
Lemma safe_get_state (known : list TensorValue) : safe known get_state (λ _, []).
Proof. by apply safe_pure. Qed.
Lemma safe_bump (known : list TensorValue) : safe known bump_counter (λ _, []).
Proof. by apply safe_pure. Qed.

(** ** Graph operations *)

(** A graph operation that records nothing and keeps the tensor table. *)
Lemma safe_silent {A} (known : list TensorValue) (m : R A) (gives : A → list TensorValue) :
  silent m → (∀ r, grows (rb_graph r) (rb_graph (m r).2)) →
  (∀ r x, (m r).1 = Ok x → Forall (registered (rb_graph (m r).2)) (gives x)) →
  safe known m gives.
Proof.
  intros Hs Hg Hx r [Hw Hd] Hk. destruct (Hs r Hw) as [Hw' Ho]. split_and!; [split; [done|]|done|].
  - intros op Hop. rewrite Ho in Hop. eapply declared_grows; [apply Hg|by apply Hd].
  - intros x. apply Hx.
Qed.

Lemma safe_add_tensor (known : list TensorValue) (name : string) (shape : list Z) (dtype : DType)
    (sid : Z) (strides : list Z) (offset : Z) (vl : option ValidLength) :
  safe known (on_graph (add_tensor name shape dtype sid strides offset vl)) (λ tv, [tv]).
Proof.
  apply safe_silent.
  - apply silent_on_graph. intros g. apply add_tensor_wf.
  - intros r. unfold on_graph.
    pose proof (add_tensor_grows name shape dtype sid strides offset vl (rb_graph r)) as [Hg _].
    by destruct (add_tensor _ _ _ _ _ _ _ _).
  - intros r x. unfold on_graph.
    pose proof (add_tensor_grows name shape dtype sid strides offset vl (rb_graph r)) as [_ Ht].
    destruct (add_tensor _ _ _ _ _ _ _ _) as [res g]. simpl in *. intros Hx.
    constructor; [by apply Ht|constructor].
Qed.

Lemma safe_new_storage (known : list TensorValue) (name : string) (n : Z) :
  safe known (on_graph (new_storage name n)) (λ _, []).
Proof. apply safe_silent; [apply silent_on_graph, new_storage_wf|by intros r n' tv|by intros]. Qed.

Lemma safe_fresh_buffer (known : list TensorValue) (name : string) (shape : list Z) (dtype : DType) :
  safe known (fresh_buffer name shape dtype) (λ tv, [tv]).
Proof. eapply safe_bind; [apply safe_new_storage|]. intros sid. apply safe_add_tensor. Qed.

Lemma safe_view_of (known : list TensorValue) (base : TensorValue) (name : string) (shape : list Z) :
  safe known (view_of base name shape) (λ tv, [tv]).
Proof. eapply safe_bind; [apply safe_lift|]. intros tv. apply safe_add_tensor. Qed.

Lemma safe_require_position (known : list TensorValue) (position : Position) :
  safe known (require_position position) (λ _, []).
Proof.
  unfold require_position. eapply safe_bind; [apply (safe_pure _ get_graph); intros r; reflexivity|intros gr].
  destruct position as [sc|tv|]; cbn [app].
  - apply safe_guard.
  - eapply safe_bind; [apply safe_guard|intros ?]. apply safe_guard.
  - apply safe_raise.
Qed.

Lemma safe_out_or_fresh (known : list TensorValue) (out : option TensorValue) (name : string)
    (shape : list Z) :
  (∀ tv, out = Some tv → tv ∈ known) → safe known (out_or_fresh out name shape) (λ tv, [tv]).
Proof.
  intros Ho. unfold out_or_fresh. destruct out as [tv|].
  - apply safe_ret. intros tv' ->%list_elem_of_singleton. by apply Ho.
  - eapply safe_bind; [apply safe_suffix|]. intros sfx. apply safe_fresh_buffer.
Qed.

(** ** Recording a declared operator *)

(** What the record of an operator must say about an operand, before the
    operator is in the graph. *)
Definition operand_recorded (kind : string) (inputs : list TensorValue) (attributes : attrs) (i : nat)
    (tv : TensorValue) (rs : list Region) : Prop :=
  if decide (i ∈ pool_inputs kind) then ∃ R, R ∈ rs ∧ pool_region tv R
  else (∃ R, R ∈ rs ∧ covers_whole tv R)
       ∨ i ∈ head_inputs kind ∧ ∃ q B Hq n u, inputs !! 0%nat = Some q
           ∧ py_index (tv_shape q) 0 = Ok B ∧ py_index (tv_shape q) 1 = Ok Hq
           ∧ attributes !! "kv_heads"%string = Some (AInt n) ∧ unbounded u
           ∧ ∀ h, 0 ≤ h < n → ∃ d, py_index (tv_shape tv) 3 = Ok d
               ∧ head_slab tv B (h * (Hq / n)) ((h + 1) * (Hq / n)) u d ∈ rs.

Lemma recorded_whole (kind : string) (inputs : list TensorValue) (attributes : attrs) (i : nat)
    (tv : TensorValue) (rs : list Region) :
  i ∉ pool_inputs kind → (∃ R, R ∈ rs ∧ covers_whole tv R) →
  operand_recorded kind inputs attributes i tv rs.
Proof. intros Hi HR. unfold operand_recorded. rewrite decide_False by done. by left. Qed.

Lemma recorded_pool (kind : string) (inputs : list TensorValue) (attributes : attrs) (i : nat)
    (tv : TensorValue) (rs : list Region) :
  i ∈ pool_inputs kind → (∃ R, R ∈ rs ∧ pool_region tv R) →
  operand_recorded kind inputs attributes i tv rs.
Proof. intros Hi HR. unfold operand_recorded. by rewrite decide_True. Qed.

Record operands_declared (kind : string) (inputs outputs : list TensorValue) (attributes : attrs)
    (rs ws : list Region) : Prop := {
  od_reads : ∀ i tv, (i ∉ unread_inputs kind) → inputs !! i = Some tv →
               operand_recorded kind inputs attributes i tv rs;
  od_updates : ∀ i tv, i ∈ updated_inputs kind → inputs !! i = Some tv →
                 operand_recorded kind inputs attributes i tv ws;
  od_writes : ∀ tv, tv ∈ outputs → ∃ R, R ∈ ws ∧ covers_whole tv R
}.

Section recording.
Context (g : OperatorGraph) (inputs : list TensorValue).
Context (Hreg : ∀ tv, tv ∈ inputs → dict_get (g_tensors g) (tv_name tv) = Some tv).

Lemma operand_recorded_declared (op : Operator) (i : nat) (tv : TensorValue) (rs : list Region) :
  op_inputs op = tv_name <$> inputs →
  operand_recorded (op_kind op) inputs (op_attributes op) i tv rs →
  operand_declared (op_kind op) op g i tv rs.
Proof using Hreg.
  intros Hin. unfold operand_recorded, operand_declared. case_decide; [done|].
  intros [HR|(Hi & q & B & Hq & n & u & Hq0 & HB & HHq & Hn & Hu & Hall)].
  { case_decide; [by left|done]. }
  rewrite decide_True by done. right. exists B, Hq, n, u. split_and!; try done.
  exists q. split; [|done]. unfold tensor_in, py_index, graph_tensor.
  rewrite Hin, list_lookup_fmap, Hq0. simpl.
  by rewrite (Hreg q) by (by eapply list_elem_of_lookup_2).
Qed.

Lemma inputs_declared (op : Operator) (P : nat → Prop) (rs : list Region) (i : nat) (n : string) :
  op_inputs op = tv_name <$> inputs →
  (∀ i tv, P i → inputs !! i = Some tv →
     operand_recorded (op_kind op) inputs (op_attributes op) i tv rs) →
  P i → op_inputs op !! i = Some n →
  ∃ tv, dict_get (g_tensors g) n = Some tv ∧ operand_declared (op_kind op) op g i tv rs.
Proof using Hreg.
  intros Hin Hrec Hi Hn. rewrite Hin in Hn. apply list_lookup_fmap_Some in Hn as (tv & -> & Htv).
  exists tv. split; [by eapply Hreg, list_elem_of_lookup_2|].
  apply operand_recorded_declared; [done|by apply Hrec].
Qed.
End recording.

Lemma safe_record_op (known : list TensorValue) (kind : string) (inputs outputs : list TensorValue)
    (attributes : attrs) (rs ws : list Region) (loc : string) :
  kind ∈ ARITHMETIC_OP_KINDS → attributes_typed kind attributes →
  operands_declared kind inputs outputs attributes rs ws →
  (∀ tv, tv ∈ inputs ++ outputs → tv ∈ known) →
  safe known (record_op kind inputs outputs attributes rs ws loc) (λ _, []).
Proof.
  intros Hkind Htyped [Hr Hu Hw] Hkn. unfold record_op. rewrite bool_decide_true by done.
  eapply safe_bind; [apply safe_guard|intros ?]. eapply safe_bind; [apply safe_bump|intros ?].
  eapply safe_bind; [apply safe_get_state|intros r0]. simpl. intros r [Hg Hd] Hk.
  rewrite Forall_forall in Hk.
  assert (Hreg : ∀ tv, tv ∈ inputs ++ outputs →
            dict_get (g_tensors (rb_graph r)) (tv_name tv) = Some tv) by (intros; by apply Hk, Hkn).
  split_and!; [split|by intros n tv|by intros].
  - by apply (records_record kind (tv_name <$> inputs) (tv_name <$> outputs) attributes rs ws _ Hkind r).
  - intros op [Hop| ->%list_elem_of_singleton]%elem_of_app.
    { eapply declared_grows; [|by apply Hd]. by intros n tv. }
    assert (Hin : ∀ tv, tv ∈ inputs → dict_get (g_tensors (rb_graph r)) (tv_name tv) = Some tv).
    { intros tv Htv. apply Hreg, elem_of_app. by left. }
    split; [intros i n|intros i n|intros n Hn; simpl in Hn|done].
    + by apply inputs_declared with (P := λ i, i ∉ unread_inputs kind) (inputs := inputs).
    + by apply inputs_declared with (P := λ i, i ∈ updated_inputs kind) (inputs := inputs).
    + apply list_elem_of_fmap in Hn as (tv & -> & Htv).
      exists tv. split; [|by apply Hw]. apply Hreg, elem_of_app. by right.
Qed.

(** A table that is empty at a kind. *)
Lemma covers_in (tv : TensorValue) (rs : list Region) :
  region_whole tv ∈ rs → ∃ R, R ∈ rs ∧ covers_whole tv R.
Proof. intros H. exists (region_whole tv). split; [done|apply covers_whole_refl]. Qed.

Lemma safe_record_whole (known : list TensorValue) (kind : string) (inputs reads : list TensorValue)
    (out : TensorValue) (attributes : list (string * attr)) (loc : string) :
  kind ∈ ARITHMETIC_OP_KINDS → attributes_typed kind (attr_map attributes) → updated_inputs kind = [] → pool_inputs kind = [] → inputs ⊆ reads →
  inputs ⊆ known → out ∈ known →
  safe known (record_whole kind inputs reads out attributes loc) (λ tv, [tv]).
Proof.
  intros Hk Ht Hup Hpool Hin Hkn Hout. eapply safe_bind; [apply safe_record_op; [done|done| |]|intros ?].
  - split.
    + intros i tv _ Hi. apply recorded_whole; [rewrite Hpool; set_solver|].
      apply covers_in, list_elem_of_fmap. exists tv. split; [done|]. apply Hin.
      by eapply list_elem_of_lookup_2.
    + intros i tv Hi. rewrite Hup in Hi. by apply not_elem_of_nil in Hi.
    + intros tv ->%list_elem_of_singleton. apply covers_in. left.
  - intros tv [Htv| ->%list_elem_of_singleton]%elem_of_app; [by apply Hkn|done].
  - apply safe_ret. set_solver.
Qed.

(** An optional output buffer with its own fallback. *)
Lemma safe_out_match (known : list TensorValue) (out : option TensorValue) (m : R TensorValue) :
  (∀ tv, out = Some tv → tv ∈ known) → safe known m (λ tv, [tv]) →
  safe known (match out with Some tv => mret tv | None => m end) (λ tv, [tv]).
Proof.
  intros Ho Hm. destruct out as [tv|]; [|done]. apply safe_ret.
  intros tv' ->%list_elem_of_singleton. by apply Ho.
Qed.

Ltac safe_step :=
  match goal with
  | |- safe _ (lift _) _ => apply safe_lift
  | |- safe _ (guard_m _ _) _ => apply safe_guard
  | |- safe _ (raise _) _ => apply safe_raise
  | |- safe _ op_suffix _ => apply safe_suffix
  | |- safe _ (fresh_buffer _ _ _) _ => apply safe_fresh_buffer
  | |- safe _ (view_of _ _ _) _ => apply safe_view_of
  | |- safe _ (require_position _) _ => apply safe_require_position
  | |- safe _ (out_or_fresh _ _ _) _ => apply safe_out_or_fresh; intros; simplify_eq/=; set_solver
  | |- safe _ (mret _) _ => first [by apply safe_pure | apply safe_ret; set_solver]
  | |- safe _ (mbind _ _) _ => eapply safe_bind; [|intros ?]
  | |- safe _ (match ?o with Some tv => mret tv | None => _ end) _ =>
      apply safe_out_match; [intros; simplify_eq/=; set_solver|]
  | |- safe _ (match ?x with _ => _ end) _ => destruct x eqn:?
  end; cbn beta.
Ltac safe_steps := repeat safe_step.

Ltac kind_known := apply (bool_decide_unpack _); vm_compute; exact I.
(** Attributes of recorded types, whatever the form of the position. *)
Ltac typed_now :=
  unfold attributes_typed; unfold position_form;
  repeat match goal with
  | |- context [match ?p with PosTensor _ => AStr "row" | _ => _ end] => destruct p
  end; vm_compute; reflexivity.
(** An input position is outside an empty table. *)
Ltac kind_known_not := by (intros ?%not_elem_of_nil).

Lemma gelu_safe (x : TensorValue) (out : option TensorValue) (name : string) :
  safe (x :: opt_list out) (gelu x out name) (λ tv, [tv]).
Proof.
  unfold gelu. safe_steps. apply safe_record_whole; [kind_known|typed_now|reflexivity|reflexivity|set_solver..].
Qed.

Ltac safe_whole := apply safe_record_whole; [kind_known|typed_now|reflexivity|reflexivity|set_solver..].

Lemma add_safe (a b : TensorValue) (name : string) : safe [a; b] (add a b name) (λ tv, [tv]).
Proof. unfold add. safe_steps. safe_whole. Qed.

Lemma layer_norm_safe (x gamma beta : TensorValue) (eps : pyfloat) (out : option TensorValue)
    (name : string) :
  safe ([x; gamma; beta] ++ opt_list out) (layer_norm x gamma beta eps out name) (λ tv, [tv]).
Proof. unfold layer_norm. safe_steps. safe_whole. Qed.

Lemma rms_norm_safe (x gamma : TensorValue) (eps : pyfloat) (out : option TensorValue) (name : string) :
  safe ([x; gamma] ++ opt_list out) (rms_norm x gamma eps out name) (λ tv, [tv]).
Proof. unfold rms_norm. safe_steps. safe_whole. Qed.

Lemma rms_norm_gated_safe (x gate gamma : TensorValue) (eps : pyfloat) (activation : string)
    (out : option TensorValue) (name : string) :
  safe ([x; gate; gamma] ++ opt_list out) (rms_norm_gated x gate gamma eps activation out name)
    (λ tv, [tv]).
Proof. unfold rms_norm_gated. safe_steps. safe_whole. Qed.

Lemma swiglu_safe (gate up : TensorValue) (out : option TensorValue) (name : string) :
  safe ([gate; up] ++ opt_list out) (swiglu gate up out name) (λ tv, [tv]).
Proof. unfold swiglu. safe_steps. safe_whole. Qed.

Lemma linear_fp8_safe (x w scale : TensorValue) (out : option TensorValue) (name : string) (qb : Z) :
  safe ([x; w; scale] ++ opt_list out) (linear_fp8 x w scale out name qb) (λ tv, [tv]).
Proof. unfold linear_fp8. safe_steps. safe_whole. Qed.

Lemma rope_safe (x cos_table sin_table : TensorValue) (position : Position) (layer : Z)
    (which : string) (rotary_dim : option Z) (convention : string) :
  safe [x; cos_table; sin_table]
    (rope x cos_table sin_table position layer which rotary_dim convention) (λ tv, [tv]).
Proof. unfold rope. safe_steps; destruct rotary_dim; safe_whole. Qed.

Lemma moe_combine_safe (partials weights : TensorValue) (shared out : option TensorValue) (name : string) :
  safe ([partials; weights] ++ opt_list shared ++ opt_list out)
    (moe_combine partials weights shared out name) (λ tv, [tv]).
Proof. unfold moe_combine. safe_steps. safe_whole. Qed.

Lemma embedding_safe (ids token : TensorValue) (position_emb : option TensorValue)
    (position : Position) (out : option TensorValue) :
  safe ([ids; token] ++ opt_list position_emb ++ opt_list out)
    (embedding ids token position_emb position out) (λ tv, [tv]).
Proof.
  unfold embedding. safe_steps. safe_whole.
Qed.

Lemma moe_expert_safe (x gate_up down ids : TensorValue) (out : option TensorValue)
    (swiglu_limit : option pyfloat) (name : string) :
  safe ([x; gate_up; down; ids] ++ opt_list out) (moe_expert x gate_up down ids out swiglu_limit name)
    (λ tv, [tv]).
Proof. unfold moe_expert. safe_steps. safe_whole. Qed.

Lemma linear_safe (x w : TensorValue) (b out : option TensorValue) (name : string)
    (grouped_heads : option Z) :
  safe ([x; w] ++ opt_list b ++ opt_list out) (linear x w b out name grouped_heads) (λ tv, [tv]).
Proof.
  unfold linear. do 2 (eapply safe_bind; [apply safe_lift|intros ?]).
  eapply (safe_bind _ _ _ (λ xk, [xk.1])).
  - destruct (decide _); safe_steps.
  - intros [x' k]. safe_steps; safe_whole.
Qed.

Lemma hash_route_known (tid tok : option TensorValue) (b k : Z) (score_fn : string)
    (fam : list TensorValue * list (string * attr)) (tv : TensorValue) :
  hash_route tid tok b k score_fn = Ok fam → tv ∈ fam.1 → tv ∈ opt_list tid ++ opt_list tok.
Proof.
  unfold hash_route. destruct tid as [t|], tok as [k'|]; simpl; try done. intros H.
  case_decide; res_inv. done.
Qed.

Lemma noaux_route_known (bias : option TensorValue) (e k n_group topk_group : Z) (norm : bool)
    (fam : list TensorValue * list (string * attr)) (tv : TensorValue) :
  noaux_route bias e k n_group topk_group norm = Ok fam → tv ∈ fam.1 → tv ∈ opt_list bias.
Proof. unfold noaux_route. destruct bias as [bs|]; simpl; [|done]. intros H. by res_inv. Qed.

Lemma moe_route_safe (x router_w ids weights : TensorValue) (mode score_fn : string)
    (top_k : option Z) (scaling : pyfloat) (bias : option TensorValue) (n_group topk_group : Z)
    (norm_topk_prob : bool) (tid2eid token_ids : option TensorValue) (name : string) :
  safe ([x; router_w; ids; weights] ++ opt_list bias ++ opt_list tid2eid ++ opt_list token_ids)
    (moe_route x router_w ids weights mode score_fn top_k scaling bias n_group topk_group
       norm_topk_prob tid2eid token_ids name) (λ p, [p.1; p.2]).
Proof.
  unfold moe_route.
  do 2 (eapply safe_bind; [apply safe_lift|intros [? ?]; cbn beta iota]).
  eapply safe_bind; [apply safe_guard|intros ?].
  eapply safe_bind; [apply safe_lift|intros k].
  do 3 (eapply safe_bind; [apply safe_guard|intros ?]).
  eapply (safe_bind _ _ _ (λ fam, fam.1)); [|intros fam].
  - apply safe_lift_known. intros fam tv Hf Htv. repeat case_decide; simplify_eq/=.
    + pose proof (hash_route_known _ _ _ _ _ _ _ Hf Htv). set_solver.
    + pose proof (noaux_route_known _ _ _ _ _ _ _ _ Hf Htv). set_solver.
    + by apply not_elem_of_nil in Htv.
  - eapply safe_bind; [apply safe_record_op; [kind_known|typed_now| |set_solver]|intros ?; apply safe_ret; set_solver].
    split.
    + intros i tv Hi Hl. apply recorded_whole; [kind_known_not|]. apply covers_in, list_elem_of_fmap.
      exists tv. split; [done|].
      destruct i as [|[|[|[|i] ] ] ]; simplify_eq/=; try (exfalso; apply Hi; kind_known); try set_solver.
      apply list_elem_of_lookup_2 in Hl. set_solver.
    + intros i tv Hi Hl. apply recorded_whole; [kind_known_not|]. apply covers_in.
      change (i ∈ [2; 3]%nat) in Hi.
      repeat (apply elem_of_cons in Hi as [->|Hi]; [simplify_eq/=; set_solver|]).
      by apply not_elem_of_nil in Hi.
    + intros tv [->|[->|[]%not_elem_of_nil]%elem_of_cons]%elem_of_cons; apply covers_in; set_solver.
Qed.

