(* ===== verification/DeclaredState.v ===== *)
(** * Stateful operators declare their operands

    The attention and recurrent capture rules in the program logic of
    [Declared]: the facts a guard or a helper leaves behind, and for each
    operation that its recorded regions cover each operand its lowering
    touches. *)

From S2P Require Import Prelude Indexing OperatorIR Contracts TaskIR SchedulePhase ScheduleStatic.
From S2P Require Import TileDependencies LoweringsCommon Operands Capture CaptureUpdates CaptureDense.
From S2P Require Import CaptureAttention CaptureRecurrent Declared.
Local Open Scope Z_scope.

(** ** What a step that returned has established *)
Definition prefix_bound (valid : ValidLength) : bound :=
  if is_row valid then BRow valid else bound_of_expr (vl_expr valid).

Lemma lift_ok {A} (m : result A) (x : A) (r : Recorder) : (lift m r).1 = Ok x → m = Ok x.
Proof. done. Qed.

Lemma guard_ok (b : bool) (e : exn) (u : unit) (r : Recorder) : (guard_m b e r).1 = Ok u → b = true.
Proof. by destruct b. Qed.

Lemma valid_plus_one_unbounded (position : Position) (valid : ValidLength) (r : Recorder) :
  (valid_plus_one position r).1 = Ok valid → unbounded (prefix_bound valid).
Proof.
  unfold valid_plus_one, mbind, M_bind, lift.
  destruct (require_position position r) as [[u|e] r1]; [|done].
  destruct (position_name position) as [p|e]; [|done]. destruct position; by intros [= <-].
Qed.

Lemma plus_one_unbounded (p : string) (valid : ValidLength) :
  new_ValidLength (VStr (p +:+ "+1")) None "positions" = Ok valid → unbounded (prefix_bound valid).
Proof. by intros [= <-]. Qed.

Lemma add_tensor_shape (name : string) (shape : list Z) (dtype : DType) (sid : Z) (strides : list Z)
    (offset : Z) (vl : option ValidLength) (r : Recorder) (tv : TensorValue) :
  (on_graph (add_tensor name shape dtype sid strides offset vl) r).1 = Ok tv → tv_shape tv = shape.
Proof.
  unfold on_graph, add_tensor. destruct (dict_mem _ _); [done|]. destruct (existsb _ _); [done|].
  by intros [= <-].
Qed.

Lemma fresh_buffer_shape (name : string) (shape : list Z) (dtype : DType) (r : Recorder) (tv : TensorValue) :
  (fresh_buffer name shape dtype r).1 = Ok tv → tv_shape tv = shape.
Proof.
  unfold fresh_buffer, mbind, M_bind. destruct (on_graph (new_storage _ _) r) as [[sid|e] r1]; [|done].
  apply add_tensor_shape.
Qed.

Lemma out_fresh_shape (name : string) (shape : list Z) (r : Recorder) (tv : TensorValue) :
  (out_or_fresh None name shape r).1 = Ok tv → tv_shape tv = shape.
Proof. unfold out_or_fresh, mbind, M_bind, op_suffix. apply fresh_buffer_shape. Qed.

(** ** Coverage *)
Lemma exists_here {A} (P : A → Prop) (x : A) (l : list A) : P x → ∃ y, y ∈ x :: l ∧ P y.
Proof. intros H. exists x. split; [left|done]. Qed.

Lemma exists_there {A} (P : A → Prop) (x : A) (l : list A) :
  (∃ y, y ∈ l ∧ P y) → ∃ y, y ∈ x :: l ∧ P y.
Proof. intros (y & Hy & H). exists y. split; [by right|done]. Qed.

Lemma exists_app {A} (P : A → Prop) (l1 l2 : list A) :
  (∃ y, y ∈ l2 ∧ P y) → ∃ y, y ∈ l1 ++ l2 ∧ P y.
Proof. intros (y & Hy & H). exists y. split; [apply elem_of_app; by right|done]. Qed.

Lemma covers_tile (tv : TensorValue) (tile : list (Z * bound)) (w : Region) :
  region_tile tv tile = Ok w → tile = whole_boxes (tv_shape tv) → covers_whole tv w.
Proof. unfold region_tile. intros H ->. res_inv. apply covers_whole_refl. Qed.

Lemma pool_indirect (tv table : TensorValue) (axis : Z) (vl : option ValidLength) (w : Region) :
  region_indirect tv table axis vl = Ok w → pool_region tv w.
Proof. unfold region_indirect. intros H. res_inv. by split_and!. Qed.

Lemma shape_is_eq (tv : TensorValue) (shape : list Z) : shape_is tv shape = true → tv_shape tv = shape.
Proof. apply bool_decide_eq_true_1. Qed.

Lemma shape5_eq (tv : TensorValue) (a b c d e : Z) :
  shape5 tv = Ok (a, b, c, d, e) → tv_shape tv = [a; b; c; d; e].
Proof. unfold shape5. intros H. by repeat case_match; simplify_eq. Qed.

Lemma check_shapes_here (op : string) (tv : TensorValue) (shape : list Z)
    (checks : list (TensorValue * list Z)) (u : unit) :
  check_shapes op ((tv, shape) :: checks) = Ok u → tv_shape tv = shape.
Proof.
  unfold check_shapes. simpl. destruct (shape_is tv shape) eqn:E; [|done]. by apply shape_is_eq in E.
Qed.

(** The regions of a cache shared by groups of heads. *)
Lemma cache_regions_recorded (kind : string) (inputs : list TensorValue) (attributes : attrs) (i : nat)
    (q cache : TensorValue) (b h n : Z) (valid : ValidLength) (p : string) (rs all : list Region) :
  i ∉ pool_inputs kind → i ∈ head_inputs kind → unbounded (prefix_bound valid) →
  cache_regions cache b h n valid p = Ok rs → inputs !! 0%nat = Some q →
  py_index (tv_shape q) 0 = Ok b → py_index (tv_shape q) 1 = Ok h →
  attributes !! "kv_heads"%string = Some (AInt n) → rs ⊆ all →
  operand_recorded kind inputs attributes i cache all.
Proof.
  intros Hp Hi Hu Hrs Hq Hb Hh Hn Hall. unfold operand_recorded. rewrite decide_False by done.
  unfold cache_regions in Hrs. case_decide as E.
  { injection Hrs as <-. left. exists (region_prefix cache 2 valid). split; [apply Hall; left|].
    by apply covers_whole_prefix. }
  right. split; [done|]. exists q, b, h, n, (if is_row valid then BRow valid else BStr (p +:+ "+1")).
  split_and!; [done..|by destruct (is_row valid)|]. intros g Hg.
  unfold py_floordiv in Hrs. case_decide; [done|]. cbn [mbind result_bind] in Hrs.
  apply map_result_Forall2 in Hrs.
  assert (Hz : zrange n !! Z.to_nat g = Some g).
  { destruct (proj1 (list_elem_of_lookup (zrange n) g)) as [k Hk]; [by apply elem_of_zrange|].
    unfold zrange in *. apply list_lookup_fmap_Some in Hk as (m & -> & Hm). rewrite Nat2Z.id.
    rewrite list_lookup_fmap. apply lookup_seq in Hm as [-> Hlt]. by rewrite lookup_seq_lt. }
  destruct (Forall2_lookup_l _ _ _ _ _ Hrs Hz) as (w & Hw & Hr). simpl in Hr.
  destruct (py_index (tv_shape cache) 3) as [d|]; [|done]. simpl in Hr. injection Hr as <-.
  exists d. split; [done|]. apply Hall.
  by eapply list_elem_of_lookup_2.
Qed.

(** ** Stateful steps of the logic *)
Lemma safe_quiet {A} (known : list TensorValue) (m : R A) : quiet m → safe known m (λ _, []).
Proof. intros [Hs Hg]. apply safe_silent; [done|done|]. intros. constructor. Qed.

Lemma safe_post_view (known : list TensorValue) (prefix : string) (base : TensorValue)
    (valid : option ValidLength) : safe known (post_view prefix base valid) (λ v, [v]).
Proof.
  destruct (quiet_post_view prefix base valid) as [Hs Hg]. apply safe_silent; [done|done|].
  intros r v Hv. destruct (post_view prefix base valid r) as [res r'] eqn:E. simpl in *. subst res.
  constructor; [|constructor]. by apply post_view_ok in E as (_ & ? & _).
Qed.

Lemma safe_out_or_fresh_as (known : list TensorValue) (out : option TensorValue) (name : string)
    (shape : list Z) (dtype : DType) :
  (∀ tv, out = Some tv → tv ∈ known) → safe known (out_or_fresh_as out name shape dtype) (λ tv, [tv]).
Proof.
  intros Ho. unfold out_or_fresh_as. destruct out as [tv|].
  - apply safe_ret. intros tv' ->%list_elem_of_singleton. by apply Ho.
  - eapply safe_bind; [apply safe_suffix|]. intros sfx. apply safe_fresh_buffer.
Qed.

(** ** Automation *)

(** What a step that returned has established, as hypotheses. *)
Ltac ok_fact H :=
  lazymatch type of H with
  | (lift ?m ?r).1 = Ok ?x =>
      change (m = Ok x) in H;
      first [apply plus_one_unbounded in H | idtac]
  | (guard_m _ _ _).1 = Ok _ => apply guard_ok in H
  | (out_or_fresh None _ _ _).1 = Ok _ => apply out_fresh_shape in H
  | (valid_plus_one _ _).1 = Ok _ => apply valid_plus_one_unbounded in H
  | _ => clear H
  end.

Ltac safe_leaf :=
  match goal with
  | |- safe _ (lift _) _ => apply safe_lift
  | |- safe _ (guard_m _ _) _ => apply safe_guard
  | |- safe _ (require_position _) _ => apply safe_require_position
  | |- safe _ (valid_plus_one _) _ => apply safe_quiet; solve [auto with quiet]
  | |- safe _ (post_view _ _ _) _ => apply safe_post_view
  | |- safe _ (out_or_fresh _ _ _) _ => apply safe_out_or_fresh; intros; simplify_eq/=; set_solver
  | |- safe _ (out_or_fresh_as _ _ _ _) _ =>
      apply safe_out_or_fresh_as; intros; simplify_eq/=; set_solver
  | |- safe _ (mret _) _ => apply safe_ret; set_solver
  end.

Ltac ok_steps :=
  repeat match goal with
  | |- safe _ (record_op _ _ _ _ _ _ _) _ => fail 1
  | |- safe _ (record_whole _ _ _ _ _ _) _ => fail 1
  | |- safe _ (mbind _ (record_op _ _ _ _ _ _ _)) _ => eapply safe_bind; [|intros ?]
  | |- safe _ (mbind _ _) _ =>
      eapply safe_bind_ok; [solve [safe_leaf]|let H := fresh in intros ? ? H; ok_fact H; cbn beta iota delta [app]]
  | |- safe _ (let '(_, _) := ?x in _) _ => destruct x; cbn beta iota
  end.

(** One of the recorded regions covers the tensor. *)
Ltac covers_leaf :=
  first [ apply covers_whole_refl
        | apply covers_whole_prefix; assumption
        | eapply covers_tile; [eassumption|];
          repeat match goal with H : tv_shape ?tv = _ |- context [tv_shape ?tv] => rewrite H end;
          reflexivity ].
Ltac find_covering :=
  match goal with
  | |- ∃ R, R ∈ _ :: _ ∧ _ => first [apply exists_here; solve [covers_leaf] | apply exists_there; find_covering]
  | |- ∃ R, R ∈ _ ++ _ ∧ _ => apply exists_app; find_covering
  end.
Ltac find_pool :=
  match goal with
  | |- ∃ R, R ∈ _ :: _ ∧ _ =>
      first [apply exists_here; solve [eapply pool_indirect; eassumption] | apply exists_there; find_pool]
  end.

Ltac operand_recorded_at :=
  first
    [ apply recorded_whole; [kind_known|]; cbn [fmap list_fmap app opt_list]; find_covering
    | apply recorded_pool; [kind_known|]; cbn [fmap list_fmap app]; find_pool
    | eapply cache_regions_recorded;
        [kind_known|kind_known|eassumption|eassumption|reflexivity|eassumption|eassumption|reflexivity|set_solver] ].

(** The operand at each position; a position outside the table is void. *)
Ltac each_operand :=
  intros i tv Hi Hl;
  do 12 (try (destruct i as [|i];
    [try (exfalso; revert Hi; first [kind_known | intros Hi; apply Hi; kind_known]);
     simplify_eq/=; operand_recorded_at|]));
  try done.
Ltac each_output :=
  intros tv Htv; repeat (apply elem_of_cons in Htv as [->|Htv]; [find_covering|]);
  by apply not_elem_of_nil in Htv.

Ltac typed_state :=
  unfold valid_form; repeat match goal with |- context [if is_row ?v then _ else _] => destruct (is_row v) end;
  typed_now.
Ltac declares :=
  apply safe_record_op; [kind_known|typed_state|split; [each_operand|each_operand|cbn [fmap list_fmap]; each_output]|set_solver].

Ltac whole_op := ok_steps; apply safe_record_whole; [kind_known|typed_now|reflexivity|reflexivity|set_solver..].
Ltac state_op := ok_steps; [declares|safe_leaf].

(** ** Attention *)
Lemma indexer_scores_safe (q entries mix_w : TensorValue) (out : option TensorValue) (name : string) :
  safe ([q; entries; mix_w] ++ opt_list out) (indexer_scores q entries mix_w out name) (λ tv, [tv]).
Proof. unfold indexer_scores. whole_op. Qed.

Lemma index_topk_safe (scores valid_counts : TensorValue) (k : Z) (idx bias : option TensorValue)
    (name : string) :
  safe ([scores; valid_counts] ++ opt_list idx ++ opt_list bias)
    (index_topk scores valid_counts k idx bias name) (λ p, [p.1; p.2]).
Proof. unfold index_topk. state_op. Qed.

Lemma cache_append_safe (k_cache v_cache k_new v_new : TensorValue) (position : Position) (layer : Z) :
  safe [k_cache; v_cache; k_new; v_new] (cache_append k_cache v_cache k_new v_new position layer)
    (λ kv, [kv.1; kv.2]).
Proof. unfold cache_append. state_op. Qed.

Lemma softmax_safe (scores : TensorValue) (position : Position) (layer : Z) :
  safe [scores] (softmax scores position layer) (λ tv, [tv]).
Proof. unfold softmax. state_op. Qed.

Lemma cache_append_paged_safe (k_pool v_pool slot_table k_new v_new : TensorValue)
    (position : Position) (layer : Z) :
  safe [k_pool; v_pool; slot_table; k_new; v_new]
    (cache_append_paged k_pool v_pool slot_table k_new v_new position layer) (λ kv, [kv.1; kv.2]).
Proof. unfold cache_append_paged, dim. state_op. Qed.

Lemma attention_scores_paged_safe (q k_pool slot_table : TensorValue) (position : Position)
    (scale : pyfloat) (layer : Z) (kv_heads : option Z) :
  safe [q; k_pool; slot_table] (attention_scores_paged q k_pool slot_table position scale layer kv_heads)
    (λ tv, [tv]).
Proof. unfold attention_scores_paged, dim. state_op. Qed.

Lemma attention_values_paged_safe (probs v_pool slot_table : TensorValue) (position : Position)
    (layer : Z) (kv_heads : option Z) :
  safe [probs; v_pool; slot_table] (attention_values_paged probs v_pool slot_table position layer kv_heads)
    (λ tv, [tv]).
Proof. unfold attention_values_paged, dim. state_op. Qed.

Lemma conjugate_rope_safe (x cos_table sin_table : TensorValue) (position : Position) (layer : Z)
    (which convention : string) (rotary_dim : option Z) (out : option TensorValue) :
  safe ([x; cos_table; sin_table] ++ opt_list out)
    (conjugate_rope x cos_table sin_table position layer which convention rotary_dim out) (λ tv, [tv]).
Proof. unfold conjugate_rope. whole_op. Qed.

Lemma mla_scores_safe (q latent_pool window_table comp_pool comp_idx sink : TensorValue)
    (position : Position) (scale : pyfloat) (layer window : Z) (bias : option TensorValue) :
  safe ([q; latent_pool; window_table; comp_pool; comp_idx; sink] ++ opt_list bias)
    (mla_scores q latent_pool window_table comp_pool comp_idx sink position scale layer window bias)
    (λ tv, [tv]).
Proof. unfold mla_scores, dim. destruct bias; state_op. Qed.

Lemma mla_values_safe (probs latent_pool window_table comp_pool comp_idx : TensorValue)
    (position : Position) (layer window : Z) (out : option TensorValue) :
  safe ([probs; latent_pool; window_table; comp_pool; comp_idx] ++ opt_list out)
    (mla_values probs latent_pool window_table comp_pool comp_idx position layer window out) (λ tv, [tv]).
Proof. unfold mla_values, dim. state_op. Qed.

Lemma attention_scores_safe (q k_cache : TensorValue) (position : Position) (scale : pyfloat)
    (layer : Z) (kv_heads : option Z) :
  safe [q; k_cache] (attention_scores q k_cache position scale layer kv_heads) (λ tv, [tv]).
Proof. unfold attention_scores, dim. state_op. Qed.

Lemma attention_values_safe (probs v_cache : TensorValue) (position : Position) (layer : Z)
    (kv_heads : option Z) (gate : option TensorValue) :
  safe ([probs; v_cache] ++ opt_list gate) (attention_values probs v_cache position layer kv_heads gate)
    (λ tv, [tv]).
Proof. unfold attention_values, dim. destruct gate; state_op. Qed.

(** ** Recurrent state *)
Ltac compressor_facts :=
  match goal with H : shape5 _ = Ok _ |- _ => apply shape5_eq in H end;
  match goal with H : check_shapes _ _ = Ok _ |- _ => apply check_shapes_here in H end;
  zbool; subst.
Lemma compressor_append_safe (entry_pool series_state window gates rms_weight cos sin : TensorValue)
    (position : Position) (m r : Z) (eps : pyfloat) (name : string) :
  safe [entry_pool; series_state; window; gates; rms_weight; cos; sin]
    (compressor_append entry_pool series_state window gates rms_weight cos sin position m r eps name)
    (λ ps, [ps.1; ps.2]).
Proof. 
  unfold compressor_append. ok_steps; [compressor_facts; declares|safe_leaf].
Qed.

Lemma gdn_conv_safe (conv_state x w : TensorValue) (layer : Z) :
  safe [conv_state; x; w] (gdn_conv conv_state x w layer) (λ os, [os.1; os.2]).
Proof. unfold gdn_conv. state_op. Qed.

Lemma mhc_pre_safe (streams fn base scale : TensorValue) (layer iters : Z) (eps rms_eps : pyfloat) :
  safe [streams; fn; base; scale] (mhc_pre streams fn base scale layer iters eps rms_eps)
    (λ o, [o.1.1; o.1.2; o.2]).
Proof. unfold mhc_pre. state_op. Qed.

Lemma mhc_post_safe (streams body_out post comb : TensorValue) (layer : Z) :
  safe [streams; body_out; post; comb] (mhc_post streams body_out post comb layer) (λ tv, [tv]).
Proof. unfold mhc_post. state_op. Qed.

Lemma gdn_delta_safe (ssm_state q k v z a b a_log dt_bias norm_w : TensorValue) (layer : Z)
    (scale eps : pyfloat) :
  safe [ssm_state; q; k; v; z; a; b; a_log; dt_bias; norm_w]
    (gdn_delta ssm_state q k v z a b a_log dt_bias norm_w layer scale eps) (λ os, [os.1; os.2]).
Proof. unfold gdn_delta. state_op. Qed.

Lemma kda_delta_safe (ssm_state q k v f b dt_bias A_log : TensorValue) (layer : Z) (scale : pyfloat)
    (lower_bound : option pyfloat) :
  safe [ssm_state; q; k; v; f; b; dt_bias; A_log]
    (kda_delta ssm_state q k v f b dt_bias A_log layer scale lower_bound) (λ os, [os.1; os.2]).
Proof. unfold kda_delta. state_op. Qed.

Lemma kda_fused_decode_safe (conv_pool ssm_pool slot_ids qkv_raw f_raw b_raw g_raw taps dt_bias A_log
    o_norm : TensorValue) (layer : Z) (scale eps : pyfloat) (lower_bound : option pyfloat) :
  safe [conv_pool; ssm_pool; slot_ids; qkv_raw; f_raw; b_raw; g_raw; taps; dt_bias; A_log; o_norm]
    (kda_fused_decode conv_pool ssm_pool slot_ids qkv_raw f_raw b_raw g_raw taps dt_bias A_log o_norm
       layer scale eps lower_bound) (λ o, [o.1.1; o.1.2; o.2]).
Proof. unfold kda_fused_decode, dim. state_op. Qed.
