(* ===== verification/Captured.v ===== *)
(** * Captured programs

    A model body is a sequence of calls of the recording interface, each on
    tensors registered so far.  Whatever the sequence, the program recorded
    is well formed. *)

From S2P Require Import Prelude Indexing OperatorIR Contracts TaskIR SchedulePhase ScheduleStatic.
From S2P Require Import TileDependencies LoweringsCommon Operands Capture CaptureUpdates CaptureDense.
From S2P Require Import CaptureAttention CaptureRecurrent Lowerings Declared DeclaredState.
Local Open Scope Z_scope.

(** ** Whole model bodies *)
Lemma safe_external_tensor (known : list TensorValue) (name : string) (shape : list Z) (dtype : DType)
    (sid : Z) (strides : option (list Z)) (offset : Z) (reg : bool) :
  safe known (external_tensor name shape dtype sid strides offset reg) (λ _, []).
Proof.
  apply safe_silent; [apply silent_external_tensor| |by intros]. intros r. unfold external_tensor.
  destruct (dict_get (rb_externals r) name); [by destruct (_ && _)|].
  unfold mbind, M_bind, on_graph. simpl.
  destruct reg; simpl.
  - pose proof (add_tensor_grows name shape dtype sid (default (row_major_strides shape) strides) offset
      None (add_external_storage sid name (numel_of shape) (rb_graph r)).2) as [Hg _].
    destruct (add_tensor _ _ _ _ _ _ _ _) as [[tv|e] g']; apply Hg.
  - pose proof (add_tensor_grows name shape dtype sid (default (row_major_strides shape) strides) offset
      None (rb_graph r)) as [Hg _].
    destruct (add_tensor _ _ _ _ _ _ _ _) as [[tv|e] g']; apply Hg.
Qed.

Lemma safe_narrow (known : list TensorValue) (base : TensorValue) (name : string) (axis start len : Z) :
  safe known (narrow base name axis start len) (λ tv, [tv]).
Proof.
  unfold narrow. eapply safe_bind; [apply safe_lift|intros d].
  eapply safe_bind; [apply safe_guard|intros ?]. eapply safe_bind; [apply safe_lift|intros s].
  apply safe_add_tensor.
Qed.

Lemma safe_transpose_view (known : list TensorValue) (w : TensorValue) (name : option string) :
  safe known (transpose_view w name) (λ tv, [tv]).
Proof. eapply safe_bind; [apply safe_lift|intros tv]. apply safe_add_tensor. Qed.

Lemma safe_define_position (known : list TensorValue) (capacity : Z) :
  safe known (define_position capacity) (λ _, []).
Proof. apply safe_silent; [apply silent_define_position|by intros r n' tv|intros; constructor]. Qed.

Lemma safe_define_row_positions (known : list TensorValue) (name : string) (batch capacity sid : Z) :
  safe known (define_row_positions name batch capacity sid) (λ _, []).
Proof.
  unfold define_row_positions. do 2 (eapply safe_bind; [apply safe_guard|intros ?]).
  eapply safe_bind; [apply safe_external_tensor|intros tv].
  eapply safe_bind; [|intros ?; by apply safe_pure].
  apply safe_silent; [apply silent_on_graph, mark_row_positions_wf|by intros r n' tv'|intros; constructor].
Qed.

(** A call of the recording interface: the tensors it is handed, and its
    effect on the recorder (an exception keeps what was done before). *)
Definition run {A} (m : R A) (r : Recorder) : Recorder := (m r).2.

Inductive capture_call : list TensorValue → (Recorder → Recorder) → Prop :=
  | call_define_position capacity : capture_call [] (run (define_position capacity))
  | call_define_row_positions name batch capacity sid :
      capture_call [] (run (define_row_positions name batch capacity sid))
  | call_external_tensor name shape dtype sid strides offset reg :
      capture_call [] (run (external_tensor name shape dtype sid strides offset reg))
  | call_fresh_buffer name shape dtype : capture_call [] (run (fresh_buffer name shape dtype))
  | call_view_of base name shape : capture_call [base] (run (view_of base name shape))
  | call_narrow base name axis start len : capture_call [base] (run (narrow base name axis start len))
  | call_transpose_view w name : capture_call [w] (run (transpose_view w name))
  | call_embedding ids token pe pos out :
      capture_call ([ids; token] ++ opt_list pe ++ opt_list out) (run (embedding ids token pe pos out))
  | call_layer_norm x gamma beta eps out name :
      capture_call ([x; gamma; beta] ++ opt_list out) (run (layer_norm x gamma beta eps out name))
  | call_linear x w b out name gh :
      capture_call ([x; w] ++ opt_list b ++ opt_list out) (run (linear x w b out name gh))
  | call_linear_fp8 x w scale out name qb :
      capture_call ([x; w; scale] ++ opt_list out) (run (linear_fp8 x w scale out name qb))
  | call_gelu x out name : capture_call (x :: opt_list out) (run (gelu x out name))
  | call_add a b name : capture_call [a; b] (run (add a b name))
  | call_rms_norm x gamma eps out name :
      capture_call ([x; gamma] ++ opt_list out) (run (rms_norm x gamma eps out name))
  | call_rms_norm_gated x gate gamma eps act out name :
      capture_call ([x; gate; gamma] ++ opt_list out)
        (run (rms_norm_gated x gate gamma eps act out name))
  | call_rope x c s pos layer which rd conv :
      capture_call [x; c; s] (run (rope x c s pos layer which rd conv))
  | call_swiglu gate up out name :
      capture_call ([gate; up] ++ opt_list out) (run (swiglu gate up out name))
  | call_moe_route x w ids weights mode sf k scaling bias ng tg norm tid tok name :
      capture_call ([x; w; ids; weights] ++ opt_list bias ++ opt_list tid ++ opt_list tok)
        (run (moe_route x w ids weights mode sf k scaling bias ng tg norm tid tok name))
  | call_moe_expert x gu down ids out lim name :
      capture_call ([x; gu; down; ids] ++ opt_list out) (run (moe_expert x gu down ids out lim name))
  | call_moe_combine partials weights shared out name :
      capture_call ([partials; weights] ++ opt_list shared ++ opt_list out)
        (run (moe_combine partials weights shared out name))
  | call_indexer_scores q entries w out name :
      capture_call ([q; entries; w] ++ opt_list out) (run (indexer_scores q entries w out name))
  | call_index_topk s v k idx bias name :
      capture_call ([s; v] ++ opt_list idx ++ opt_list bias) (run (index_topk s v k idx bias name))
  | call_cache_append kc vc kn vn pos layer :
      capture_call [kc; vc; kn; vn] (run (cache_append kc vc kn vn pos layer))
  | call_attention_scores q kc pos scale layer kvh :
      capture_call [q; kc] (run (attention_scores q kc pos scale layer kvh))
  | call_softmax s pos layer : capture_call [s] (run (softmax s pos layer))
  | call_attention_values p vc pos layer kvh gate :
      capture_call ([p; vc] ++ opt_list gate) (run (attention_values p vc pos layer kvh gate))
  | call_cache_append_paged kp vp st kn vn pos layer :
      capture_call [kp; vp; st; kn; vn] (run (cache_append_paged kp vp st kn vn pos layer))
  | call_attention_scores_paged q kp st pos scale layer kvh :
      capture_call [q; kp; st] (run (attention_scores_paged q kp st pos scale layer kvh))
  | call_attention_values_paged p vp st pos layer kvh :
      capture_call [p; vp; st] (run (attention_values_paged p vp st pos layer kvh))
  | call_conjugate_rope x c s pos layer which conv rd out :
      capture_call ([x; c; s] ++ opt_list out) (run (conjugate_rope x c s pos layer which conv rd out))
  | call_mla_scores q lp wt cp ci sink pos scale layer w bias :
      capture_call ([q; lp; wt; cp; ci; sink] ++ opt_list bias)
        (run (mla_scores q lp wt cp ci sink pos scale layer w bias))
  | call_mla_values p lp wt cp ci pos layer w out :
      capture_call ([p; lp; wt; cp; ci] ++ opt_list out) (run (mla_values p lp wt cp ci pos layer w out))
  | call_compressor_append ep ss w g rw c s pos m r eps name :
      capture_call [ep; ss; w; g; rw; c; s] (run (compressor_append ep ss w g rw c s pos m r eps name))
  | call_gdn_conv cs x w layer : capture_call [cs; x; w] (run (gdn_conv cs x w layer))
  | call_mhc_pre st fn base scale layer iters eps rms :
      capture_call [st; fn; base; scale] (run (mhc_pre st fn base scale layer iters eps rms))
  | call_mhc_post st body post comb layer :
      capture_call [st; body; post; comb] (run (mhc_post st body post comb layer))
  | call_gdn_delta ss q k v z a b al dt nw layer scale eps :
      capture_call [ss; q; k; v; z; a; b; al; dt; nw] (run (gdn_delta ss q k v z a b al dt nw layer scale eps))
  | call_kda_delta ss q k v f b dt al layer scale lb :
      capture_call [ss; q; k; v; f; b; dt; al] (run (kda_delta ss q k v f b dt al layer scale lb))
  | call_kda_fused_decode cp sp si x f b g t dt al on layer scale eps lb :
      capture_call [cp; sp; si; x; f; b; g; t; dt; al; on]
        (run (kda_fused_decode cp sp si x f b g t dt al on layer scale eps lb)).

(** A model body: calls in sequence, each on tensors registered so far. *)
Inductive captured : Recorder → Prop :=
  | captured_new : captured new_recorder
  | captured_call r known f :
      captured r → Forall (registered (rb_graph r)) known → capture_call known f → captured (f r).

Lemma safe_run {A} (known : list TensorValue) (m : R A) (gives : A → list TensorValue) (r : Recorder) :
  safe known m gives → program_wf (rb_graph r) → Forall (registered (rb_graph r)) known →
  program_wf (rb_graph (run m r)).
Proof. intros Hs Hw Hk. apply (Hs r Hw Hk). Qed.

Lemma capture_call_safe (r : Recorder) (known : list TensorValue) (f : Recorder → Recorder) :
  capture_call known f → program_wf (rb_graph r) → Forall (registered (rb_graph r)) known →
  program_wf (rb_graph (f r)).
Proof.
  intros Hc IH Hk.
  destruct Hc; (eapply safe_run; [|exact IH|exact Hk]).
  - apply safe_define_position.
  - apply safe_define_row_positions.
  - apply safe_external_tensor.
  - apply safe_fresh_buffer.
  - apply safe_view_of.
  - apply safe_narrow.
  - apply safe_transpose_view.
  - apply embedding_safe.
  - apply layer_norm_safe.
  - apply linear_safe.
  - apply linear_fp8_safe.
  - apply gelu_safe.
  - apply add_safe.
  - apply rms_norm_safe.
  - apply rms_norm_gated_safe.
  - apply rope_safe.
  - apply swiglu_safe.
  - apply moe_route_safe.
  - apply moe_expert_safe.
  - apply moe_combine_safe.
  - apply indexer_scores_safe.
  - apply index_topk_safe.
  - apply cache_append_safe.
  - apply attention_scores_safe.
  - apply softmax_safe.
  - apply attention_values_safe.
  - apply cache_append_paged_safe.
  - apply attention_scores_paged_safe.
  - apply attention_values_paged_safe.
  - apply conjugate_rope_safe.
  - apply mla_scores_safe.
  - apply mla_values_safe.
  - apply compressor_append_safe.
  - apply gdn_conv_safe.
  - apply mhc_pre_safe.
  - apply mhc_post_safe.
  - apply gdn_delta_safe.
  - apply kda_delta_safe.
  - apply kda_fused_decode_safe.
Qed.

Lemma captured_wf (r : Recorder) : captured r → program_wf (rb_graph r).
Proof.
  induction 1 as [|r known f Hr IH Hk Hc]; [apply empty_program_wf|].
  by eapply capture_call_safe.
Qed.

(** C8. Whatever sequence of capture calls a model body makes on tensors it
    registered, of all 32 operator kinds, the recorded program is well formed:
    consecutive operator ids, unique tensor names, supported kinds, and every
    operator names registered tensors and declares each operand its lowering
    reads, updates or writes: as a region with the span of the whole tensor,
    as a pool behind its slot table, or, for a cache shared by groups of
    heads, as one slab per group. *)
Theorem captured_program_wf (r : Recorder) : captured r → program_wf (rb_graph r).
Proof. apply captured_wf. Qed.

(** *** Witness: a decode step of attention, two query heads over one key head *)
Definition ex_p : SymbolicScalar := mk_scalar "p" 0 8.
Definition ex_external (name : string) (shape : list Z) (sid : Z) : Recorder → Recorder :=
  run (external_tensor name shape F32 sid None 0 true).
(** A registered tensor, by name. *)
Definition ex_get (r : Recorder) (name : string) : TensorValue :=
  default (mk_tensor None "" [] F32 [] 0 0 None) (dict_get (g_tensors (rb_graph r)) name).

Definition ex_inputs : Recorder :=
  ex_external "v_new" [1; 1; 4] 1004 (ex_external "k_new" [1; 1; 4] 1003
    (ex_external "v_cache" [1; 1; 8; 4] 1002 (ex_external "k_cache" [1; 1; 8; 4] 1001
      (ex_external "q" [1; 2; 4] 1000 (run (define_position 8) new_recorder))))).
Definition ex_appended : Recorder :=
  let get := ex_get ex_inputs in
  run (cache_append (get "k_cache") (get "v_cache") (get "k_new") (get "v_new") (PosScalar ex_p) 0) ex_inputs.
Definition ex_scored : Recorder :=
  let get := ex_get ex_appended in
  run (attention_scores (get "q") (get "k_cache_l0_v1") (PosScalar ex_p) (FLit 5 (-1)) 0 (Some 1)) ex_appended.
Definition ex_normalised : Recorder :=
  run (softmax (ex_get ex_scored "scores_l0_t01") (PosScalar ex_p) 0) ex_scored.
Definition ex_decode : Recorder :=
  let get := ex_get ex_normalised in
  run (attention_values (get "probs_l0_t02") (get "v_cache_l0_v1") (PosScalar ex_p) 0 (Some 1) None) ex_normalised.

(** Tensors registered by computation. *)
Ltac registered_now := repeat (apply Forall_cons; split); try apply Forall_nil_2; vm_compute; reflexivity.

Lemma ex_external_captured (name : string) (shape : list Z) (sid : Z) (r : Recorder) :
  captured r → captured (ex_external name shape sid r).
Proof.
  intros Hr. exact (captured_call r [] _ Hr (Forall_nil_2 _) (call_external_tensor name shape F32 sid None 0 true)).
Qed.

Lemma ex_inputs_captured : captured ex_inputs.
Proof.
  unfold ex_inputs. do 5 apply ex_external_captured.
  exact (captured_call _ [] _ captured_new (Forall_nil_2 _) (call_define_position 8)).
Qed.

Lemma ex_decode_captured : captured ex_decode.
Proof.
  assert (H1 : captured ex_appended).
  { refine (captured_call ex_inputs _ _ ex_inputs_captured _ (call_cache_append _ _ _ _ _ _)). registered_now. }
  assert (H2 : captured ex_scored).
  { refine (captured_call ex_appended _ _ H1 _ (call_attention_scores _ _ _ _ _ _)). registered_now. }
  assert (H3 : captured ex_normalised).
  { refine (captured_call ex_scored _ _ H2 _ (call_softmax _ _ _)). registered_now. }
  refine (captured_call ex_normalised _ _ H3 _ (call_attention_values _ _ _ _ _ _)). registered_now.
Qed.

Lemma captured_program_wf_witness :
  program_wf (rb_graph ex_decode)
  ∧ op_kind <$> g_ops (rb_graph ex_decode)
    = ["cache_append"; "attention_scores"; "softmax"; "attention_values"]%string.
Proof.
  split; [|vm_compute; reflexivity]. apply captured_program_wf, ex_decode_captured.
Defined.

(** C14. Capture is well typed for lowering: every operator of a captured
    program has a contract, its attributes pass the contract's type checks,
    and the registry holds a factory for its kind, so dispatch refuses none of
    them: lowering the operator is running that factory, which builds tasks of
    the kind the contract declares. *)
Theorem captured_ops_typed (r : Recorder) (op : Operator) :
  captured r → op ∈ g_ops (rb_graph r) →
  ∃ c factory, dict_get CONTRACTS (op_kind op) = Some c
    ∧ validate_attributes c (op_attributes op) = Ok tt
    ∧ factory_of (op_kind op) = Some factory ∧ lowers (oc_task_kind c) factory
    ∧ lower_op op (rb_graph r) = factory op (rb_graph r).
Proof.
  intros Hr Hop. pose proof (de_typed _ _ (pw_declared _ (captured_wf r Hr) op Hop)) as Ht.
  unfold attributes_typed in Ht. destruct (dict_get CONTRACTS (op_kind op)) as [c|] eqn:Hc; [|done].
  destruct (lowering_of_contract _ _ Hc) as (_ & factory & Hf & Hl). exists c, factory.
  split_and!; [done..|]. unfold lower_op. by rewrite Hc, Ht, Hf.
Qed.

Lemma ex_scores_op :
  ∃ op, op ∈ g_ops (rb_graph ex_decode) ∧ op_kind op = "attention_scores"%string.
Proof.
  assert (H : ∃ op, g_ops (rb_graph ex_decode) !! 1%nat = Some op ∧ op_kind op = "attention_scores"%string)
    by (eexists; split; vm_compute; reflexivity).
  destruct H as (op & Hop & Hk). exists op. split; [exact (list_elem_of_lookup_2 _ _ _ Hop)|exact Hk].
Qed.

Lemma captured_ops_typed_witness :
  ∃ op factory, op_kind op = "attention_scores"%string ∧ factory_of "attention_scores" = Some factory
    ∧ lowers "attention_scores" factory
    ∧ lower_op op (rb_graph ex_decode) = factory op (rb_graph ex_decode).
Proof.
  destruct ex_scores_op as (op & Hin & Hk).
  destruct (captured_ops_typed ex_decode op ex_decode_captured Hin)
    as (c & factory & Hc & _ & Hf & Hl & Hlow).
  rewrite Hk in Hc, Hf. vm_compute in Hc. injection Hc as <-. exists op, factory.
  exact (conj Hk (conj Hf (conj Hl Hlow))).
Defined.
