(* ===== verification/Frontend.v ===== *)
(** * Model frontends (compiler/model_*.py): the shared parts

    A frontend registers the external tensors of a model and then runs the
    model body against the recording interface.  This file holds what the
    frontends share: storage ids assigned per parameter name
    ([_stable_storage_id], a counter of the process), named views of a layer's
    parameters, the loop over the layers, and the rules that follow a body call
    by call: the program stays well formed, and the kinds of the operators it
    records are known in advance. *)

From S2P Require Import Prelude Indexing OperatorIR Contracts TaskIR SchedulePhase ScheduleStatic.
From S2P Require Import TileDependencies LoweringsCommon Operands Capture CaptureUpdates CaptureDense.
From S2P Require Import CaptureAttention CaptureRecurrent Lowerings Declared DeclaredState Captured.
Local Open Scope Z_scope.

(** ** State: the recorder, the ids given to parameter names in the process,
    and the iterator of ids of the arguments under construction *)
Record Session : Type := mk_session {
  ss_recorder : Recorder;
  ss_storage_counter : dict string Z;
  ss_ids : Z * Z   (* next and stop of [iter(range(...))] *)
}.

Definition on_recorder {A} (m : R A) : M Session A := λ s,
  let '(x, r) := m (ss_recorder s) in (x, mk_session r (ss_storage_counter s) (ss_ids s)).

Definition STORAGE_SEED : Z := 24301.  (* 0x5EED *)

Definition stable_storage_id (name : string) : M Session Z := λ s,
  match dict_get (ss_storage_counter s) name with
  | Some sid => (Ok sid, s)
  | None =>
      let sid := STORAGE_SEED + Z.of_nat (length (ss_storage_counter s)) in
      (Ok sid, mk_session (ss_recorder s) (dict_set (ss_storage_counter s) name sid) (ss_ids s))
  end.

(** [ops.external_tensor(name, shape, dtype, storage_id=_stable_storage_id(name))] *)
Definition stable_external (name : string) (shape : list Z) (dtype : DType) : M Session TensorValue :=
  sid ← stable_storage_id name;
  on_recorder (external_tensor name shape dtype sid None 0 true).

(** [self._sid = iter(range(start, stop))] and [next(self._sid)] *)
Definition set_ids (start stop : Z) : M Session unit :=
  modify (λ s, mk_session (ss_recorder s) (ss_storage_counter s) (start, stop)).
Definition next_id : M Session Z := λ s,
  let '(next, stop) := ss_ids s in
  if next <? stop then (Ok next, mk_session (ss_recorder s) (ss_storage_counter s) (next + 1, stop))
  else (Err (StopIteration ""), s).

(** [ops.external_tensor(name, shape, dtype, storage_id=next(self._sid))] *)
Definition next_external (name : string) (shape : list Z) (dtype : DType) : M Session TensorValue :=
  sid ← next_id; on_recorder (external_tensor name shape dtype sid None 0 true).

(** ** Views of a layer *)

(** [type("LayerViews", (), views)]: named tensors. *)
Definition LayerViews : Type := dict string TensorValue.

Definition view_attr (lv : LayerViews) (name : string) : result TensorValue :=
  of_option (AttributeError name) (dict_get lv name).

(** The loop that registers the named parameters of layer [li]. *)
Definition layer_views (li : Z) (shape_of : string → result (list Z)) (fields : list string) (dtype : DType)
    : M Session LayerViews :=
  for_m (λ views fname,
    shape ← lift (shape_of fname);
    tv ← stable_external ("l" +:+ fmt li +:+ "_" +:+ fname) shape dtype;
    mret (dict_set views fname tv)) [] fields.

(** [f"l{layer_id}{suffix}"] *)
Definition l_name (layer : Z) (suffix : string) : string := "l" +:+ fmt layer +:+ suffix.

(** ** Following a computation *)

Section follows.
(** The state of the computation, where its graph is, and what holds of it
    between steps. *)
Context {St : Type} (gr : St → OperatorGraph) (inv : St → Prop).

(** From registered tensors [known], [m] keeps the invariant and the
    registered tensors; when it returns [x], the tensors [gives x] are
    registered and it has recorded operators of exactly the kinds [kinds]. *)
Definition follows {A} (known : list TensorValue) (kinds : list string) (m : M St A)
    (gives : A → list TensorValue) : Prop := ∀ s,
  inv s → Forall (registered (gr s)) known →
  inv (m s).2 ∧ grows (gr s) (gr (m s).2)
  ∧ ∀ x, (m s).1 = Ok x → Forall (registered (gr (m s).2)) (gives x)
      ∧ op_kind <$> g_ops (gr (m s).2) = (op_kind <$> g_ops (gr s)) ++ kinds.

Implicit Types known : list TensorValue.

Lemma follows_bind_ok {A B} known (k1 k2 : list string) (m : M St A) (f : A → M St B)
    (Q1 : A → list TensorValue) (Q2 : B → list TensorValue) :
  follows known k1 m Q1 → (∀ s x, (m s).1 = Ok x → follows (Q1 x ++ known) k2 (f x) Q2) →
  follows known (k1 ++ k2) (m ≫= f) Q2.
Proof.
  intros Hm Hf s Hi Hk. destruct (Hm s Hi Hk) as (Hi1 & Hg1 & Hx). specialize (Hf s).
  unfold mbind, M_bind. destruct (m s) as [[x|e] s1]; cbn [fst snd] in *; [|by split_and!].
  destruct (Hx x eq_refl) as [Hq Hops].
  assert (Hk1 : Forall (registered (gr s1)) (Q1 x ++ known)).
  { apply Forall_app. split; [done|]. eapply Forall_impl; [exact Hk|]. intros tv. by apply registered_grows. }
  destruct (Hf x eq_refl s1 Hi1 Hk1) as (Hi2 & Hg2 & Hy). split_and!; [done|by etrans|].
  intros y Hyo. destruct (Hy y Hyo) as [Hq2 Hops2]. split; [done|]. rewrite Hops2, Hops. by rewrite <- app_assoc.
Qed.

Lemma follows_bind {A B} known (k1 k2 : list string) (m : M St A) (f : A → M St B)
    (Q1 : A → list TensorValue) (Q2 : B → list TensorValue) :
  follows known k1 m Q1 → (∀ x, follows (Q1 x ++ known) k2 (f x) Q2) →
  follows known (k1 ++ k2) (m ≫= f) Q2.
Proof. intros Hm Hf. by eapply follows_bind_ok. Qed.

Lemma follows_lift {A B} known (kinds : list string) (m : result A) (f : A → M St B) (Q : B → list TensorValue) :
  (∀ x, m = Ok x → follows known kinds (f x) Q) → follows known kinds (lift m ≫= f) Q.
Proof.
  intros Hf s Hi Hk. unfold mbind, M_bind, lift. destruct m as [x|e]; [by apply Hf|]. by split_and!.
Qed.

Lemma follows_ret {A} known (x : A) (Q : A → list TensorValue) :
  Forall (λ tv, tv ∈ known) (Q x) → follows known [] (mret x) Q.
Proof.
  intros Hq s Hi Hk. split_and!; [done|by intros n tv|]. intros y [= <-]. split; [|by rewrite app_nil_r].
  rewrite Forall_forall in *. auto.
Qed.

Lemma follows_conv {A} known1 known2 (k1 k2 : list string) (m : M St A) (Q : A → list TensorValue) :
  follows known1 k1 m Q → Forall (λ tv, tv ∈ known2) known1 → k1 = k2 → follows known2 k2 m Q.
Proof.
  intros Hm Hsub <- s Hi Hk. apply Hm; [done|]. rewrite Forall_forall in *. auto.
Qed.

Lemma follows_gives {A} known (k : list string) (m : M St A) (Q1 Q2 : A → list TensorValue) :
  follows known k m Q1 → (∀ x, Q1 x = Q2 x) → follows known k m Q2.
Proof.
  intros Hm HQ s Hi Hk. destruct (Hm s Hi Hk) as (? & ? & Hx). split_and!; [done..|].
  intros x Ho. rewrite <- HQ. by apply Hx.
Qed.

Lemma follows_for {B C} known (f : B → C → M St B) (kinds : C → list string) (Q : B → list TensorValue) (l : list C) :
  (∀ x c, c ∈ l → follows (Q x ++ known) (kinds c) (f x c) Q) →
  ∀ x, follows (Q x ++ known) (mjoin (kinds <$> l)) (for_m f x l) Q.
Proof.
  induction l as [|c l IH]; intros Hf x; cbn [for_m mjoin list_join fmap list_fmap].
  - apply follows_ret. apply Forall_forall. intros tv Htv. apply elem_of_app. by left.
  - eapply follows_bind; [by apply Hf, list_elem_of_here|]. intros y.
    eapply follows_conv; [apply IH|..|done].
    + intros x' c' Hc. apply Hf. by apply list_elem_of_further.
    + apply Forall_app. split; apply Forall_forall; intros tv Htv; rewrite !elem_of_app; auto.
Qed.

Lemma follows_map {A C} known (f : C → M St A) (Q : A → list TensorValue) (l : list C) :
  (∀ c, c ∈ l → follows known [] (f c) Q) → follows known [] (map_m f l) (λ xs, mjoin (Q <$> xs)).
Proof.
  induction l as [|c l IH] in known |- *; intros Hf; cbn [map_m].
  - by apply follows_ret, Forall_nil_2.
  - change (@nil string) with (@nil string ++ []). eapply follows_bind; [by apply Hf, list_elem_of_here|].
    intros x. change (@nil string) with (@nil string ++ []). eapply follows_bind.
    + eapply follows_conv; [apply (IH known)|..|done]; [intros; by apply Hf, list_elem_of_further|].
      apply Forall_forall. intros tv Htv. apply elem_of_app. by right.
    + intros xs. apply follows_ret. apply Forall_forall. intros tv. cbn. rewrite !elem_of_app. tauto.
Qed.
End follows.

(** *** The body of a model *)
Abbreviation body := (follows rb_graph (λ r : Recorder, program_wf (rb_graph r))).

Section body_calls.
Context {A : Type} (known : list TensorValue) (m : R A) (gives : A → list TensorValue).
Hypothesis Hsafe : safe known m gives.

Lemma body_silent : silent m → body known [] m gives.
Proof using Hsafe.
  intros Hs r Hw Hk. destruct (Hsafe r Hw Hk) as (Hw' & Hg & Hx). split_and!; [done..|].
  intros x Ho. split; [by apply Hx|]. destruct (Hs r (pw_graph _ Hw)) as [_ ->]. by rewrite app_nil_r.
Qed.

Lemma body_records (kind : string) : records kind m → body known [kind] m gives.
Proof using Hsafe.
  intros Hs r Hw Hk. destruct (Hsafe r Hw Hk) as (Hw' & Hg & Hx). split_and!; [done..|].
  intros x Ho. split; [by apply Hx|]. destruct (Hs r (pw_graph _ Hw)) as [_ Hrec]. rewrite Ho in Hrec.
  destruct Hrec as (op & -> & <-). by rewrite fmap_app.
Qed.

Lemma body_updates (kind : string) (bases : list TensorValue) (views : A → list TensorValue) :
  updates kind m bases views → body known [kind] m gives.
Proof using Hsafe.
  intros Hs r Hw Hk. destruct (Hsafe r Hw Hk) as (Hw' & Hg & Hx). split_and!; [done..|].
  intros x Ho. split; [by apply Hx|]. destruct (Hs r (pw_graph _ Hw)) as [_ Hrec]. rewrite Ho in Hrec.
  destruct Hrec as (op & -> & <- & _). by rewrite fmap_app.
Qed.
End body_calls.

(** Safe steps of a body that record nothing. *)
Lemma body_view_of (base : TensorValue) (name : string) (shape : list Z) :
  body [] [] (view_of base name shape) (λ tv, [tv]).
Proof. apply body_silent; [apply safe_view_of|apply silent_view_of]. Qed.

Lemma body_narrow (base : TensorValue) (name : string) (axis start len : Z) :
  body [] [] (narrow base name axis start len) (λ tv, [tv]).
Proof. apply body_silent; [apply safe_narrow|apply silent_narrow]. Qed.

Lemma body_transpose_view (w : TensorValue) (name : option string) :
  body [] [] (transpose_view w name) (λ tv, [tv]).
Proof. apply body_silent; [apply safe_transpose_view|apply silent_transpose_view]. Qed.

Create HintDb safe.
#[export] Hint Resolve embedding_safe layer_norm_safe linear_safe linear_fp8_safe gelu_safe add_safe
  rms_norm_safe rms_norm_gated_safe rope_safe swiglu_safe moe_route_safe moe_expert_safe moe_combine_safe
  indexer_scores_safe index_topk_safe cache_append_safe attention_scores_safe softmax_safe
  attention_values_safe cache_append_paged_safe attention_scores_paged_safe attention_values_paged_safe
  conjugate_rope_safe mla_scores_safe mla_values_safe compressor_append_safe gdn_conv_safe mhc_pre_safe
  mhc_post_safe gdn_delta_safe kda_delta_safe kda_fused_decode_safe : safe.

(** *** Automation: one call of the body after another *)

(** Membership of a tensor at hand in the known ones. *)
Ltac known_tensor :=
  first [ apply list_elem_of_here | assumption | apply list_elem_of_further; known_tensor
        | apply elem_of_app; first [left; known_tensor | right; known_tensor] ].
Ltac known_tensors :=
  cbn [app opt_list fst snd]; repeat (apply Forall_cons; split; [known_tensor|]); apply Forall_nil_2.

(** Every tensor of a list is among the known ones, up to order. *)
Ltac known_subset :=
  apply Forall_forall; intros ?tv; cbn; repeat first [rewrite elem_of_app|rewrite elem_of_cons|rewrite elem_of_nil]; tauto.

Ltac body_call :=
  eapply follows_conv;
    [ first [ apply body_view_of | apply body_narrow | apply body_transpose_view
            | eapply body_records; [solve [eauto with safe]|solve [eauto with capture]]
            | eapply body_updates; [solve [eauto with safe]|solve [eauto with capture]] ]
    | known_tensors | reflexivity ].
Ltac body_step :=
  lazymatch goal with
  | |- follows _ _ _ _ (lift _ ≫= _) _ => apply follows_lift; intros ? ?
  | |- follows _ _ _ _ (mret _) _ => apply follows_ret; known_tensors
  | |- follows _ _ _ _ (let '(_, _) := ?p in _) _ => destruct p
  | |- follows _ _ _ _ (_ ≫= _) _ => eapply follows_bind; [body_call|intros ?; cbn [app fst snd]]
  | |- follows _ _ _ _ _ _ => body_call
  end.

(** ** Building the arguments of a model *)

(** The external tensors of the recorder are registered. *)
Definition externals_ok (r : Recorder) : Prop :=
  ∀ n tv, dict_get (rb_externals r) n = Some tv → registered (rb_graph r) tv.
Record sound (r : Recorder) : Prop := { so_program : program_wf (rb_graph r); so_externals : externals_ok r }.

Lemma new_recorder_sound : sound new_recorder.
Proof. split; [apply empty_program_wf|]. intros n tv H. done. Qed.

(** A computation over the session that registers tensors and records
    nothing. *)
Definition ss_graph (s : Session) : OperatorGraph := rb_graph (ss_recorder s).
Definition setup {A} (known : list TensorValue) (m : M Session A) (gives : A → list TensorValue) : Prop :=
  follows ss_graph (λ s, sound (ss_recorder s)) known [] m gives.

Lemma setup_bind {A B} (known : list TensorValue) (m : M Session A) (f : A → M Session B)
    (Q1 : A → list TensorValue) (Q2 : B → list TensorValue) :
  setup known m Q1 → (∀ x, setup (Q1 x ++ known) (f x) Q2) → setup known (m ≫= f) Q2.
Proof. intros Hm Hf. unfold setup. change (@nil string) with (@nil string ++ []). by eapply follows_bind. Qed.

Lemma follows_on_recorder {A} (inv : Recorder → Prop) (known : list TensorValue) (kinds : list string) (m : R A)
    (gives : A → list TensorValue) :
  follows rb_graph inv known kinds m gives →
  follows ss_graph (λ s, inv (ss_recorder s)) known kinds (on_recorder m) gives.
Proof.
  intros Hm s Hi Hk. specialize (Hm (ss_recorder s) Hi Hk). unfold on_recorder, ss_graph in *.
  by destruct (m (ss_recorder s)).
Qed.

Lemma externals_grow (r r' : Recorder) :
  grows (rb_graph r) (rb_graph r') → rb_externals r' = rb_externals r → externals_ok r → externals_ok r'.
Proof. intros Hg He Hr n tv. rewrite He. intros H. apply Hg. by eapply Hr. Qed.

(** Registering an external tensor gives a registered tensor: the new one, or
    the one registered under the name before. *)
Lemma external_tensor_follows (known : list TensorValue) (name : string) (shape : list Z) (dtype : DType)
    (sid : Z) (strides : option (list Z)) (offset : Z) (reg : bool) :
  follows rb_graph sound known [] (external_tensor name shape dtype sid strides offset reg) (λ tv, [tv]).
Proof.
  intros r [Hp He] Hk.
  destruct (safe_external_tensor known name shape dtype sid strides offset reg r Hp Hk) as (Hp' & Hg & _).
  destruct (silent_external_tensor name shape dtype sid strides offset reg r (pw_graph _ Hp)) as [_ Ho].
  rewrite Ho, app_nil_r.
  cut (externals_ok (external_tensor name shape dtype sid strides offset reg r).2
       ∧ ∀ tv, (external_tensor name shape dtype sid strides offset reg r).1 = Ok tv →
           registered (rb_graph (external_tensor name shape dtype sid strides offset reg r).2) tv).
  { intros [Hx Htv]. split_and!; [by split|done|]. intros tv Hr. split; [|done]. by constructor; [apply Htv|]. }
  clear Hp' Ho. revert Hg. unfold external_tensor. destruct (dict_get (rb_externals r) name) as [tv0|] eqn:Hn.
  { destruct (_ && _); cbn; (split; [done|]); intros tv; [|done]. intros [= <-]. by eapply He. }
  set (strides' := default (row_major_strides shape) strides).
  set (m0 := if reg then on_graph (add_external_storage sid name (numel_of shape)) else mret tt).
  assert (Hm0 : (m0 r).1 = Ok tt ∧ rb_externals (m0 r).2 = rb_externals r) by (subst m0; by destruct reg).
  destruct Hm0 as [Hm1 Hm2]. unfold mbind, M_bind.
  destruct (m0 r) as [u r0] eqn:Em0. cbn [fst snd] in Hm1, Hm2. subst u.
  pose proof (add_tensor_grows name shape dtype sid strides' offset None (rb_graph r0)) as [_ Hreg].
  unfold on_graph. destruct (add_tensor _ _ _ _ _ _ _ (rb_graph r0)) as [[tv|e] g1] eqn:Ea;
    cbn [fst snd modify mret M_ret rb_graph rb_externals] in *; intros Hg.
  - split.
    + intros n tv'. cbn. rewrite dict_get_set. case_decide.
      * intros [= <-]. by apply Hreg.
      * rewrite Hm2. intros Hn'. apply Hg. by eapply He.
    + intros tv' [= <-]. by apply Hreg.
  - split; [|done]. by eapply externals_grow.
Qed.

Lemma setup_external (known : list TensorValue) (name : string) (shape : list Z) (dtype : DType)
    (sid : Z) (strides : option (list Z)) (offset : Z) (reg : bool) :
  setup known (on_recorder (external_tensor name shape dtype sid strides offset reg)) (λ tv, [tv]).
Proof. apply follows_on_recorder, external_tensor_follows. Qed.

Lemma setup_stable_id (known : list TensorValue) (name : string) :
  setup known (stable_storage_id name) (λ _, []).
Proof.
  intros s Hs Hk. unfold stable_storage_id, ss_graph.
  destruct (dict_get (ss_storage_counter s) name); cbn; (split_and!; [done|by intros n tv|]);
    intros; (split; [constructor|by rewrite app_nil_r]).
Qed.

Lemma setup_stable (known : list TensorValue) (name : string) (shape : list Z) (dtype : DType) :
  setup known (stable_external name shape dtype) (λ tv, [tv]).
Proof. eapply setup_bind; [apply setup_stable_id|intros sid]. apply setup_external. Qed.

Lemma setup_set_ids (known : list TensorValue) (start stop : Z) : setup known (set_ids start stop) (λ _, []).
Proof.
  intros s Hs Hk. split_and!; [done|by intros n tv|]. intros x _. split; [constructor|]. cbn. by rewrite app_nil_r.
Qed.

Lemma setup_next_external (known : list TensorValue) (name : string) (shape : list Z) (dtype : DType) :
  setup known (next_external name shape dtype) (λ tv, [tv]).
Proof.
  eapply setup_bind; [|intros sid; apply setup_external]. instantiate (1 := λ _, []).
  intros s Hs Hk. unfold next_id, ss_graph. destruct (ss_ids s) as [next stop].
  destruct (next <? stop); cbn; (split_and!; [done|by intros n tv|]);
    intros; (split; [constructor|by rewrite app_nil_r]).
Qed.

(** Registering named tensors gives views of registered tensors. *)
Lemma dict_set_snd {V} (d : dict string V) (k : string) (v w : V) :
  w ∈ (dict_set d k v).*2 → w = v ∨ w ∈ d.*2.
Proof.
  induction d as [|[k0 v0] d IH]; cbn; [rewrite list_elem_of_singleton; auto|].
  case_decide; cbn; rewrite !elem_of_cons; [tauto|]. intros [Ew|Ew]; [by right; left|].
  destruct (IH Ew); auto.
Qed.

Lemma setup_for {B C} (known : list TensorValue) (f : B → C → M Session B) (Q : B → list TensorValue) (l : list C) :
  (∀ x c, setup (Q x ++ known) (f x c) Q) → ∀ x, setup (Q x ++ known) (for_m f x l) Q.
Proof.
  intros Hf x. unfold setup. eapply follows_conv; [eapply (follows_for _ _ known f (λ _, []))|..].
  - intros x' c _. apply Hf.
  - rewrite Forall_forall. auto.
  - induction l; [done|]. by cbn.
Qed.

Lemma setup_lift {A B} (known : list TensorValue) (m : result A) (f : A → M Session B)
    (Q : B → list TensorValue) :
  (∀ x, m = Ok x → setup known (f x) Q) → setup known (lift m ≫= f) Q.
Proof. apply follows_lift. Qed.

Lemma setup_layer_views (known : list TensorValue) (li : Z) (shape_of : string → result (list Z))
    (fields : list string) (dtype : DType) :
  setup known (layer_views li shape_of fields dtype) (λ views, views.*2).
Proof.
  unfold layer_views. change known with (([] : LayerViews).*2 ++ known). apply (setup_for known _ (λ views, views.*2)).
  intros views name. apply setup_lift. intros shape _. eapply setup_bind; [apply setup_stable|intros tv]. cbn [app].
  apply follows_ret. rewrite Forall_forall. intros w Hw. destruct (dict_set_snd _ _ _ _ Hw) as [->|Hv];
    [apply list_elem_of_here|]. apply list_elem_of_further, elem_of_app. by left.
Qed.

Lemma setup_map {A C} (known : list TensorValue) (f : C → M Session A) (Q : A → list TensorValue) (l : list C) :
  (∀ c, setup known (f c) Q) → setup known (map_m f l) (λ xs, mjoin (Q <$> xs)).
Proof. intros Hf. apply follows_map. intros c _. apply Hf. Qed.

Lemma join_singles (xs : list TensorValue) : mjoin ((λ tv, [tv]) <$> xs) = xs.
Proof. induction xs as [|x xs IH]; [done|]. cbn. by f_equal. Qed.

Lemma join_pairs (ps : list (TensorValue * TensorValue)) (tv : TensorValue) :
  tv ∈ ps.*1 ∨ tv ∈ ps.*2 → tv ∈ mjoin ((λ p, [p.1; p.2]) <$> ps).
Proof.
  intros H. apply list_elem_of_join.
  assert (∃ p, p ∈ ps ∧ tv ∈ [p.1; p.2]) as (p & Hi & Ht).
  { destruct H as [(p & -> & Hi)%list_elem_of_fmap|(p & -> & Hi)%list_elem_of_fmap]; exists p; split;
      [done|apply list_elem_of_here|done|apply list_elem_of_further, list_elem_of_here]. }
  exists [p.1; p.2]. split; [done|]. apply list_elem_of_fmap. by exists p.
Qed.

Lemma seq_get_elem {A} (xs : list A) (i : Z) (x : A) : seq_get xs i = Ok x → x ∈ xs.
Proof.
  unfold seq_get. case_decide; [|done]. intros Hx. destruct (xs !! _) as [y|] eqn:E; [|done].
  injection Hx as <-. by eapply list_elem_of_lookup_2.
Qed.

(** A tensor of the views of a layer. *)
Lemma view_attr_elem (layers : list LayerViews) (i : Z) (lv : LayerViews) (name : string) (tv : TensorValue) :
  seq_get layers i = Ok lv → view_attr lv name = Ok tv → tv ∈ mjoin ((λ lv : LayerViews, lv.*2) <$> layers).
Proof.
  intros Hl%seq_get_elem Hv. apply list_elem_of_join. exists (lv.*2). split.
  - revert Hv. unfold view_attr. destruct (dict_get lv name) as [w|] eqn:Ed; [|done]. intros [= <-].
    apply dict_get_elem in Ed. apply list_elem_of_fmap. by exists (name, w).
  - apply list_elem_of_fmap. by exists lv.
Qed.

(** Start a body: its kinds are computed along the way. *)
Ltac body_start :=
  eapply follows_conv; [cbn [app]|apply Forall_forall; let Htv := fresh in intros ? Htv; exact Htv|].
(** The views of a layer, looked up by name. *)
Ltac body_view :=
  lazymatch goal with
  | Hlv : seq_get _ _ = Ok ?lv |- follows _ _ _ _ (lift (view_attr ?lv _) ≫= _) _ =>
      let Hv := fresh "Hv" in apply follows_lift; intros ? Hv; apply (view_attr_elem _ _ _ _ _ Hlv) in Hv
  end.
(** A tensor of a list of tensors. *)
Ltac body_item :=
  lazymatch goal with
  | |- follows _ _ _ _ (lift (@seq_get TensorValue _ _) ≫= _) _ =>
      let Hx := fresh "Hx" in apply follows_lift; intros ? Hx; apply seq_get_elem in Hx
  end.
Ltac body_steps := repeat first [body_view|body_item|body_step].

(** A loop that carries the hidden state through the layers. *)
Lemma follows_layers {St B} (gr : St → OperatorGraph) (inv : St → Prop) (known : list TensorValue)
    (f : B → Z → M St B) (kinds : Z → list string) (Q : B → list TensorValue) (n : Z) (x : B)
    (known' : list TensorValue) :
  (∀ x i, i ∈ zrange n → follows gr inv (Q x ++ known) (kinds i) (f x i) Q) →
  Forall (λ tv, tv ∈ known') (Q x ++ known) →
  follows gr inv known' (mjoin (kinds <$> zrange n)) (for_m f x (zrange n)) Q.
Proof.
  intros Hf Hsub. eapply follows_conv; [by eapply follows_for|done|done].
Qed.
