(* ===== verification/ModelGpt2.v ===== *)
(** * GPT-2 (compiler/gpt2_arch.py, compiler/model_gpt2.py)

    The configuration and the shapes of the weights, the external tensors of
    a decode step, and the body of the step: embedding, thirteen operators per
    layer, the final normalisation and the tied head.  Arrays are their
    shapes: capture reads nothing else of them. *)

From S2P Require Import Prelude Indexing OperatorIR Contracts TaskIR LoweringsCommon Operands.
From S2P Require Import Capture CaptureUpdates CaptureDense CaptureAttention CaptureRecurrent.
From S2P Require Import Declared DeclaredState Captured Frontend.
Local Open Scope Z_scope.

(** ** Configuration *)
Record GPT2Config : Type := mk_GPT2Config {
  g2_vocab : Z;
  g2_layers : Z;
  g2_hidden : Z;
  g2_heads : Z;
  g2_mlp : Z;
  g2_batch : Z;
  g2_cache_capacity : Z;
  g2_max_positions : Z
}.

Definition head_dim (cfg : GPT2Config) : result Z := py_floordiv (g2_hidden cfg) (g2_heads cfg).
Definition attention_scale (cfg : GPT2Config) : result pyfloat := d ← head_dim cfg; Ok (FRecipSqrt d).

Definition validate (cfg : GPT2Config) : result unit :=
  m ← py_mod (g2_hidden cfg) (g2_heads cfg);
  _ ← require (m =? 0) (AssertionError "C must divide into H heads");
  _ ← require (g2_cache_capacity cfg <=? g2_max_positions cfg)
        (AssertionError "cache cannot exceed position table");
  require ((0 <? g2_vocab cfg) && (0 <? g2_layers cfg)) (AssertionError "").

Definition GPT2Config_defaults : GPT2Config := mk_GPT2Config 1024 2 128 4 512 1 64 64.
Definition default_config : result GPT2Config :=
  _ ← validate GPT2Config_defaults; Ok GPT2Config_defaults.

Definition LAYER_NORM_EPS : pyfloat := FLit 1 (-5).

(** ** Weights, by shape *)
Definition LayerWeights : Type := dict string (list Z).
Record GPT2Weights : Type := mk_GPT2Weights {
  g2_token_emb : list Z;
  g2_position_emb : list Z;
  g2_layer_weights : list LayerWeights;
  g2_final_ln_gamma : list Z;
  g2_final_ln_beta : list Z
}.

Definition random_weights (cfg : GPT2Config) : GPT2Weights :=
  let C := g2_hidden cfg in let F := g2_mlp cfg in
  mk_GPT2Weights [g2_vocab cfg; C] [g2_max_positions cfg; C]
    ((λ _, [("ln1_gamma", [C]); ("ln1_beta", [C]); ("qkv_w", [C; 3 * C]); ("qkv_b", [3 * C]);
            ("attn_out_w", [C; C]); ("attn_out_b", [C]); ("ln2_gamma", [C]); ("ln2_beta", [C]);
            ("mlp_up_w", [C; F]); ("mlp_up_b", [F]); ("mlp_down_w", [F; C]); ("mlp_down_b", [C])]%string)
       <$> zrange (g2_layers cfg))
    [C] [C].

(** ** External tensors *)
Definition LAYER_FIELDS : list string :=
  ["ln1_gamma"; "ln1_beta"; "qkv_w"; "qkv_b"; "attn_out_w"; "attn_out_b"; "ln2_gamma"; "ln2_beta";
   "mlp_up_w"; "mlp_up_b"; "mlp_down_w"; "mlp_down_b"].

Record SymbolicModelArgs : Type := mk_SymbolicModelArgs {
  sa_token : TensorValue;
  sa_position : TensorValue;
  sa_final_gamma : TensorValue;
  sa_final_beta : TensorValue;
  sa_layers : list LayerViews;
  sa_k_cache : TensorValue;
  sa_v_cache : TensorValue
}.

(** [getattr(lw, fname).shape] *)
Definition weight_shape (lw : LayerWeights) (fname : string) : result (list Z) :=
  of_option (AttributeError fname) (dict_get lw fname).

Definition new_SymbolicModelArgs (cfg : GPT2Config) (w : GPT2Weights) : M Session SymbolicModelArgs :=
  token ← stable_external "token_emb" (g2_token_emb w) F32;
  position ← stable_external "position_emb" (g2_position_emb w) F32;
  final_gamma ← stable_external "final_ln_gamma" (g2_final_ln_gamma w) F32;
  final_beta ← stable_external "final_ln_beta" (g2_final_ln_beta w) F32;
  layers ← map_m (λ ilw : nat * LayerWeights,
             layer_views (Z.of_nat ilw.1) (weight_shape ilw.2) LAYER_FIELDS F32)
             (imap pair (g2_layer_weights w));
  d ← lift (head_dim cfg);
  let cache_shape := [g2_layers cfg; g2_batch cfg; g2_heads cfg; g2_cache_capacity cfg; d] in
  k_cache ← stable_external "k_cache" cache_shape F32;
  v_cache ← stable_external "v_cache" cache_shape F32;
  mret (mk_SymbolicModelArgs token position final_gamma final_beta layers k_cache v_cache).

(** ** The body *)
Definition build_transformer_layer (args : SymbolicModelArgs) (hidden : TensorValue) (position : Position)
    (cfg : GPT2Config) (layer_id : Z) : R TensorValue :=
  let l := l_name layer_id in
  lv ← lift (seq_get (sa_layers args) layer_id);
  (* attention sublayer *)
  ln1_gamma ← lift (view_attr lv "ln1_gamma");
  ln1_beta ← lift (view_attr lv "ln1_beta");
  n ← layer_norm hidden ln1_gamma ln1_beta LAYER_NORM_EPS None (l "_ln1");
  qkv_w ← lift (view_attr lv "qkv_w");
  qkv_b ← lift (view_attr lv "qkv_b");
  qkv ← linear n qkv_w (Some qkv_b) None (l "_qkv") None;
  let B := g2_batch cfg in
  let C := g2_hidden cfg in
  let H := g2_heads cfg in
  D ← lift (head_dim cfg);
  qkv3 ← view_of qkv (l "_qkv3") [B; 3; H; D];
  q ← narrow qkv3 (l "_q") 1 0 1;
  k_new ← narrow qkv3 (l "_k_new") 1 1 1;
  v_new ← narrow qkv3 (l "_v_new") 1 2 1;
  q_bh ← view_of q (l "_q_bh") [B; H; D];
  let S := g2_cache_capacity cfg in
  k_l ← narrow (sa_k_cache args) (l "_k_l") 0 layer_id 1;
  k_view ← view_of k_l (l "_k") [B; H; S; D];
  v_l ← narrow (sa_v_cache args) (l "_v_l") 0 layer_id 1;
  v_view ← view_of v_l (l "_v") [B; H; S; D];
  k_row ← view_of k_new (l "_k_row") [B; H; D];
  v_row ← view_of v_new (l "_v_row") [B; H; D];
  '(k_post, v_post) ← cache_append k_view v_view k_row v_row position layer_id;
  scale ← lift (attention_scale cfg);
  scores ← attention_scores q_bh k_post position scale layer_id None;
  probs ← softmax scores position layer_id;
  ctx ← attention_values probs v_post position layer_id None None;
  ctx_flat ← view_of ctx (l "_ctx_flat") [B; C];
  attn_out_w ← lift (view_attr lv "attn_out_w");
  attn_out_b ← lift (view_attr lv "attn_out_b");
  attn_out ← linear ctx_flat attn_out_w (Some attn_out_b) None (l "_attn_out") None;
  hidden ← add hidden attn_out (l "_attn_res");
  (* MLP sublayer *)
  ln2_gamma ← lift (view_attr lv "ln2_gamma");
  ln2_beta ← lift (view_attr lv "ln2_beta");
  n2 ← layer_norm hidden ln2_gamma ln2_beta LAYER_NORM_EPS None (l "_ln2");
  mlp_up_w ← lift (view_attr lv "mlp_up_w");
  mlp_up_b ← lift (view_attr lv "mlp_up_b");
  up ← linear n2 mlp_up_w (Some mlp_up_b) None (l "_mlp_up") None;
  act ← gelu up None (l "_gelu");
  mlp_down_w ← lift (view_attr lv "mlp_down_w");
  mlp_down_b ← lift (view_attr lv "mlp_down_b");
  down ← linear act mlp_down_w (Some mlp_down_b) None (l "_mlp_down") None;
  add hidden down (l "_mlp_res").

Definition build_forward (args : SymbolicModelArgs) (ids : TensorValue) (position : Position)
    (cfg : GPT2Config) : R TensorValue :=
  hidden ← embedding ids (sa_token args) (Some (sa_position args)) position None;
  hidden ← for_m (λ hidden layer_id, build_transformer_layer args hidden position cfg layer_id)
             hidden (zrange (g2_layers cfg));
  hidden ← layer_norm hidden (sa_final_gamma args) (sa_final_beta args) LAYER_NORM_EPS None "final_ln";
  tied_w ← transpose_view (sa_token args) (Some "token_emb.T"%string);
  linear hidden tied_w None None "logits" None.

(** ** What the body records *)
Definition args_tensors (args : SymbolicModelArgs) : list TensorValue :=
  [sa_token args; sa_position args; sa_final_gamma args; sa_final_beta args; sa_k_cache args; sa_v_cache args]
  ++ mjoin ((λ lv : LayerViews, lv.*2) <$> sa_layers args).

Lemma gpt2_args_setup (known : list TensorValue) (cfg : GPT2Config) (w : GPT2Weights) :
  setup known (new_SymbolicModelArgs cfg w) args_tensors.
Proof.
  unfold new_SymbolicModelArgs.
  do 4 (eapply setup_bind; [apply setup_stable|intros ?]).
  eapply setup_bind; [apply setup_map; intros c; apply setup_layer_views|intros layers].
  apply setup_lift. intros d _. do 2 (eapply setup_bind; [apply setup_stable|intros ?]).
  apply follows_ret. known_subset.
Qed.

(** The kinds of the operators of a layer, in program order. *)
Definition layer_kinds : list string :=
  ["layer_norm"; "linear"; "cache_append"; "attention_scores"; "softmax"; "attention_values"; "linear"; "add";
   "layer_norm"; "linear"; "gelu"; "linear"; "add"].

Lemma build_transformer_layer_follows (args : SymbolicModelArgs) (hidden : TensorValue) (position : Position)
    (cfg : GPT2Config) (layer_id : Z) :
  body (hidden :: args_tensors args) layer_kinds
    (build_transformer_layer args hidden position cfg layer_id) (λ tv, [tv]).
Proof.
  unfold build_transformer_layer, args_tensors. body_start; [body_steps|reflexivity].
Qed.

Definition forward_kinds (cfg : GPT2Config) : list string :=
  "embedding"%string :: mjoin ((λ _, layer_kinds) <$> zrange (g2_layers cfg)) ++ ["layer_norm"; "linear"]%string.

Lemma gpt2_forward_follows (args : SymbolicModelArgs) (ids : TensorValue) (position : Position)
    (cfg : GPT2Config) :
  body (ids :: args_tensors args) (forward_kinds cfg) (build_forward args ids position cfg) (λ tv, [tv]).
Proof.
  unfold build_forward. body_start.
  - body_step. eapply follows_bind.
    + eapply (follows_layers _ _ (args_tensors args) _ (λ _, layer_kinds) (λ tv, [tv])); [|known_subset].
      intros h i _. apply build_transformer_layer_follows.
    + intros h. unfold args_tensors. cbn [app]. body_steps.
  - reflexivity.
Qed.
