(* ===== verification/ModelQwen3.v ===== *)
(** * Dense Qwen3 (compiler/qwen3_arch.py, compiler/model_qwen3.py)

    The configuration, the external tensors of a decode step, and the body of
    the step: grouped-query attention with normalised and rotated heads, and
    a gated MLP; seventeen operators per layer. *)

From S2P Require Import Prelude Indexing OperatorIR Contracts TaskIR LoweringsCommon Operands.
From S2P Require Import Capture CaptureUpdates CaptureDense CaptureAttention CaptureRecurrent.
From S2P Require Import Declared DeclaredState Captured Frontend.
Local Open Scope Z_scope.

(** ** Configuration *)
Record Qwen3Config : Type := mk_Qwen3Config {
  q3_vocab : Z;
  q3_layers : Z;
  q3_hidden : Z;
  q3_heads : Z;
  q3_kv_heads : Z;
  q3_head_dim : Z;
  q3_intermediate : Z;
  q3_batch : Z;
  q3_cache_capacity : Z;
  q3_max_positions : Z;
  q3_rope_theta : pyfloat;
  q3_rms_eps : pyfloat
}.

Definition group (cfg : Qwen3Config) : result Z := py_floordiv (q3_heads cfg) (q3_kv_heads cfg).
Definition attention_scale (cfg : Qwen3Config) : pyfloat := FRecipSqrt (q3_head_dim cfg).

Definition validate (cfg : Qwen3Config) : result unit :=
  m ← py_mod (q3_heads cfg) (q3_kv_heads cfg);
  _ ← require (m =? 0) (AssertionError "GQA: H must be a multiple of KVH");
  _ ← require (1 <=? q3_heads cfg * q3_head_dim cfg) (AssertionError "");
  require (q3_intermediate cfg `mod` 2 =? 0) (AssertionError "fused gate-up splits [B, 2F]").

Definition QWEN3_06B (batch cache_capacity : Z) : result Qwen3Config :=
  let cfg := mk_Qwen3Config 151936 28 1024 16 8 128 3072 batch cache_capacity 4096 (FLit 1 6) (FLit 1 (-6)) in
  _ ← validate cfg; Ok cfg.

Definition tiny_qwen3_config (layers batch cache_capacity : Z) : result Qwen3Config :=
  let cfg := mk_Qwen3Config 512 layers 128 4 2 32 256 batch cache_capacity 64 (FLit 1 6) (FLit 1 (-6)) in
  _ ← validate cfg; Ok cfg.

(** ** External tensors *)
Record Qwen3ModelArgs : Type := mk_Qwen3ModelArgs {
  qa_token : TensorValue;
  qa_final_gamma : TensorValue;
  qa_rope_cos : TensorValue;
  qa_rope_sin : TensorValue;
  qa_layers : list LayerViews;
  qa_k_cache : TensorValue;
  qa_v_cache : TensorValue
}.

Definition param_shapes (cfg : Qwen3Config) : dict string (list Z) :=
  let C := q3_hidden cfg in let H := q3_heads cfg in let KVH := q3_kv_heads cfg in
  let D := q3_head_dim cfg in let F := q3_intermediate cfg in
  [("ln1_gamma", [C]); ("qkv_w", [C; (H + 2 * KVH) * D]); ("q_norm_gamma", [D]); ("k_norm_gamma", [D]);
   ("o_proj_w", [H * D; C]); ("ln2_gamma", [C]); ("gate_up_w", [C; 2 * F]); ("down_w", [F; C])]%string.
Definition param_shape (cfg : Qwen3Config) (fname : string) : result (list Z) :=
  of_option (KeyError fname) (dict_get (param_shapes cfg) fname).

Definition LAYER_FIELDS : list string :=
  ["ln1_gamma"; "qkv_w"; "q_norm_gamma"; "k_norm_gamma"; "o_proj_w"; "ln2_gamma"; "gate_up_w"; "down_w"].

Definition new_Qwen3ModelArgs (cfg : Qwen3Config) : M Session Qwen3ModelArgs :=
  token ← stable_external "token_emb" [q3_vocab cfg; q3_hidden cfg] F32;
  final_gamma ← stable_external "final_ln_gamma" [q3_hidden cfg] F32;
  rope_cos ← stable_external "rope_cos" [q3_max_positions cfg; q3_head_dim cfg] F32;
  rope_sin ← stable_external "rope_sin" [q3_max_positions cfg; q3_head_dim cfg] F32;
  layers ← map_m (λ li, layer_views li (param_shape cfg) LAYER_FIELDS F32) (zrange (q3_layers cfg));
  let cache_shape := [q3_layers cfg; q3_batch cfg; q3_kv_heads cfg; q3_cache_capacity cfg; q3_head_dim cfg] in
  k_cache ← stable_external "k_cache" cache_shape F32;
  v_cache ← stable_external "v_cache" cache_shape F32;
  mret (mk_Qwen3ModelArgs token final_gamma rope_cos rope_sin layers k_cache v_cache).

(** ** The body *)
Definition qwen3_layer (args : Qwen3ModelArgs) (hidden : TensorValue) (position : Position)
    (cfg : Qwen3Config) (layer_id : Z) : R TensorValue :=
  let l := l_name layer_id in
  let eps := q3_rms_eps cfg in
  let B := q3_batch cfg in let H := q3_heads cfg in let KVH := q3_kv_heads cfg in
  let D := q3_head_dim cfg in let F := q3_intermediate cfg in
  lv ← lift (seq_get (qa_layers args) layer_id);
  (* attention sublayer *)
  ln1_gamma ← lift (view_attr lv "ln1_gamma");
  n ← rms_norm hidden ln1_gamma eps None (l "_rms1");
  qkv_w ← lift (view_attr lv "qkv_w");
  qkv ← linear n qkv_w None None (l "_qkv") None;
  qkv3 ← view_of qkv (l "_qkv3") [B; H + 2 * KVH; D];
  q_n ← narrow qkv3 (l "_q_n") 1 0 H;
  q ← view_of q_n (l "_q") [B; H; D];
  k_n ← narrow qkv3 (l "_k_n") 1 H KVH;
  k ← view_of k_n (l "_k") [B; KVH; D];
  v_n ← narrow qkv3 (l "_v_n") 1 (H + KVH) KVH;
  v ← view_of v_n (l "_v") [B; KVH; D];
  (* QK-norm, then RoPE at position p *)
  q_norm_gamma ← lift (view_attr lv "q_norm_gamma");
  q ← rms_norm q q_norm_gamma eps None (l "_qnorm");
  k_norm_gamma ← lift (view_attr lv "k_norm_gamma");
  k ← rms_norm k k_norm_gamma eps None (l "_knorm");
  q ← rope q (qa_rope_cos args) (qa_rope_sin args) position layer_id "q" None "rotate_half";
  k ← rope k (qa_rope_cos args) (qa_rope_sin args) position layer_id "k" None "rotate_half";
  k_l ← narrow (qa_k_cache args) (l "_kc_l") 0 layer_id 1;
  k_view ← view_of k_l (l "_kcache") [B; KVH; q3_cache_capacity cfg; D];
  v_l ← narrow (qa_v_cache args) (l "_vc_l") 0 layer_id 1;
  v_view ← view_of v_l (l "_vcache") [B; KVH; q3_cache_capacity cfg; D];
  '(k_post, v_post) ← cache_append k_view v_view k v position layer_id;
  scores ← attention_scores q k_post position (attention_scale cfg) layer_id (Some KVH);
  probs ← softmax scores position layer_id;
  ctx ← attention_values probs v_post position layer_id (Some KVH) None;
  ctx_flat ← view_of ctx (l "_ctx_flat") [B; H * D];
  o_proj_w ← lift (view_attr lv "o_proj_w");
  attn ← linear ctx_flat o_proj_w None None (l "_o_proj") None;
  hidden ← add hidden attn (l "_attn_res");
  (* SwiGLU MLP *)
  ln2_gamma ← lift (view_attr lv "ln2_gamma");
  n2 ← rms_norm hidden ln2_gamma eps None (l "_rms2");
  gate_up_w ← lift (view_attr lv "gate_up_w");
  gu ← linear n2 gate_up_w None None (l "_gate_up") None;
  gu3 ← view_of gu (l "_gu3") [B; 2; F];
  gate_n ← narrow gu3 (l "_gate_n") 1 0 1;
  gate ← view_of gate_n (l "_gate") [B; F];
  up_n ← narrow gu3 (l "_up_n") 1 1 1;
  up ← view_of up_n (l "_up") [B; F];
  act ← swiglu gate up None (l "_swiglu");
  down_w ← lift (view_attr lv "down_w");
  down ← linear act down_w None None (l "_down") None;
  add hidden down (l "_mlp_res").

Definition build_qwen3_forward (args : Qwen3ModelArgs) (ids : TensorValue) (position : Position)
    (cfg : Qwen3Config) : R TensorValue :=
  hidden ← embedding ids (qa_token args) None position None;
  hidden ← for_m (λ hidden layer_id, qwen3_layer args hidden position cfg layer_id)
             hidden (zrange (q3_layers cfg));
  hidden ← rms_norm hidden (qa_final_gamma args) (q3_rms_eps cfg) None "final_rms";
  tied_w ← transpose_view (qa_token args) (Some "token_emb.T"%string);
  linear hidden tied_w None None "logits" None.

(** ** What the body records *)
Definition args_tensors (args : Qwen3ModelArgs) : list TensorValue :=
  [qa_token args; qa_final_gamma args; qa_rope_cos args; qa_rope_sin args; qa_k_cache args; qa_v_cache args]
  ++ mjoin ((λ lv : LayerViews, lv.*2) <$> qa_layers args).

Lemma qwen3_args_setup (known : list TensorValue) (cfg : Qwen3Config) :
  setup known (new_Qwen3ModelArgs cfg) args_tensors.
Proof.
  unfold new_Qwen3ModelArgs.
  do 4 (eapply setup_bind; [apply setup_stable|intros ?]).
  eapply setup_bind; [apply setup_map; intros li; apply setup_layer_views|intros layers].
  do 2 (eapply setup_bind; [apply setup_stable|intros ?]).
  apply follows_ret. known_subset.
Qed.

Definition layer_kinds : list string :=
  ["rms_norm"; "linear"; "rms_norm"; "rms_norm"; "rope"; "rope"; "cache_append"; "attention_scores"; "softmax";
   "attention_values"; "linear"; "add"; "rms_norm"; "linear"; "swiglu"; "linear"; "add"].

Lemma qwen3_layer_follows (args : Qwen3ModelArgs) (hidden : TensorValue) (position : Position)
    (cfg : Qwen3Config) (layer_id : Z) :
  body (hidden :: args_tensors args) layer_kinds (qwen3_layer args hidden position cfg layer_id) (λ tv, [tv]).
Proof.
  unfold qwen3_layer, args_tensors. body_start; [body_steps|reflexivity].
Qed.

Definition forward_kinds (cfg : Qwen3Config) : list string :=
  "embedding"%string :: mjoin ((λ _, layer_kinds) <$> zrange (q3_layers cfg)) ++ ["rms_norm"; "linear"]%string.

Lemma qwen3_forward_follows (args : Qwen3ModelArgs) (ids : TensorValue) (position : Position)
    (cfg : Qwen3Config) :
  body (ids :: args_tensors args) (forward_kinds cfg) (build_qwen3_forward args ids position cfg) (λ tv, [tv]).
Proof.
  unfold build_qwen3_forward. body_start.
  - body_step. eapply follows_bind.
    + eapply (follows_layers _ _ (args_tensors args) _ (λ _, layer_kinds) (λ tv, [tv])); [|known_subset].
      intros h i _. apply qwen3_layer_follows.
    + intros h. unfold args_tensors. cbn [app]. body_steps.
  - reflexivity.
Qed.
