(* ===== verification/ModelQwen35.v ===== *)
(** * Hybrid Qwen3.5 (compiler/qwen35_arch.py, compiler/model_qwen35.py)

    The configuration, the external tensors of a decode step, and the body of
    the step: layers of gated linear attention over persistent state pools,
    mixed with layers of full attention (the first over paged pools, the
    others over dense caches with an output gate); positions are per row. *)

From S2P Require Import Prelude Indexing OperatorIR Contracts TaskIR LoweringsCommon Operands.
From S2P Require Import Capture CaptureUpdates CaptureDense CaptureAttention CaptureRecurrent.
From S2P Require Import Declared DeclaredState Captured Frontend.
Local Open Scope Z_scope.

(** ** Configuration *)
Record Qwen35Config : Type := mk_Qwen35Config {
  q5_vocab : Z;
  q5_layers : Z;
  q5_layer_types : list string;
  q5_hidden : Z;
  q5_gdn_k_heads : Z;
  q5_gdn_v_heads : Z;
  q5_head_k_dim : Z;
  q5_head_v_dim : Z;
  q5_conv_kernel : Z;
  q5_heads : Z;
  q5_kv_heads : Z;
  q5_head_dim : Z;
  q5_rotary_dim : Z;
  q5_intermediate : Z;
  q5_batch : Z;
  q5_cache_capacity : Z;
  q5_max_positions : Z;
  q5_rope_theta : pyfloat;
  q5_rms_eps : pyfloat;
  q5_delta_scale : pyfloat;
  q5_delta_eps : pyfloat;
  q5_fp8_quant_block : Z
}.

Definition layers_of (kind : string) (cfg : Qwen35Config) : list Z :=
  fst <$> filter (λ it, it.2 = kind) (imap (λ i t, (Z.of_nat i, t)) (q5_layer_types cfg)).
Definition gdn_layers (cfg : Qwen35Config) : list Z := layers_of "gdn" cfg.
Definition fa_layers (cfg : Qwen35Config) : list Z := layers_of "fa" cfg.
Definition gdn_kv_dim (cfg : Qwen35Config) : Z :=
  2 * q5_gdn_k_heads cfg * q5_head_k_dim cfg + 2 * q5_gdn_v_heads cfg * q5_head_v_dim cfg.
Definition fa_proj_dim (cfg : Qwen35Config) : Z := (2 * q5_heads cfg + 2 * q5_kv_heads cfg) * q5_head_dim cfg.
Definition n_slots (cfg : Qwen35Config) : Z := 1 + q5_batch cfg * q5_cache_capacity cfg.
Definition attention_scale (cfg : Qwen35Config) : pyfloat := FRecipSqrt (q5_head_dim cfg).

Definition validate (cfg : Qwen35Config) : result unit :=
  _ ← require (q5_layers cfg =? Z.of_nat (length (q5_layer_types cfg)))
        (AssertionError "layer_types must cover every layer");
  m ← py_mod (q5_heads cfg) (q5_kv_heads cfg);
  _ ← require (m =? 0) (AssertionError "GQA: H must be a multiple of KVH");
  _ ← require ((q5_rotary_dim cfg `mod` 2 =? 0) && ((0 <? q5_rotary_dim cfg) && (q5_rotary_dim cfg <=? q5_head_dim cfg)))
        (AssertionError "");
  _ ← require (q5_intermediate cfg `mod` 2 =? 0) (AssertionError "fused gate-up splits [B, 2F]");
  _ ← require (bool_decide (Forall (λ t, t = "gdn" ∨ t = "fa")%string (q5_layer_types cfg))) (AssertionError "");
  require (negb (bool_decide (gdn_layers cfg = [])) && negb (bool_decide (fa_layers cfg = [])))
    (AssertionError "hybrid fixture needs both layer kinds").

Definition tiny_qwen35_config (batch : Z) : result Qwen35Config :=
  let cfg := mk_Qwen35Config 256 4 ["gdn"; "fa"; "gdn"; "fa"]%string 64 2 4 8 8 4 4 2 16 8 64 batch 16 32
               (FLit 1 4) (FLit 1 (-6)) (FLit 1 0) (FLit 1 (-6)) 32 in
  _ ← validate cfg; Ok cfg.

(** ** External tensors *)
Record Qwen35ModelArgs : Type := mk_Qwen35ModelArgs {
  ha_token : TensorValue;
  ha_final_gamma : TensorValue;
  ha_rope_cos : TensorValue;
  ha_rope_sin : TensorValue;
  ha_slot_table : TensorValue;
  ha_k_pool : TensorValue;
  ha_v_pool : TensorValue;
  ha_layers : list LayerViews;
  ha_conv_state : TensorValue;
  ha_ssm_state : TensorValue;
  ha_k_cache_dense : TensorValue;
  ha_v_cache_dense : TensorValue
}.

Definition gdn_shapes (cfg : Qwen35Config) : dict string (list Z) :=
  let C := q5_hidden cfg in let NV := q5_gdn_v_heads cfg in let F := q5_intermediate cfg in
  [("ln1_gamma", [C]); ("in_a_w", [C; NV]); ("in_b_w", [C; NV]); ("conv_w", [gdn_kv_dim cfg; q5_conv_kernel cfg]);
   ("A_log", [NV]); ("dt_bias", [NV]); ("norm_w", [q5_head_v_dim cfg]); ("ln2_gamma", [C]); ("gate_up_w", [C; 2 * F]);
   ("down_w", [F; C]); ("o_proj_w", [NV * q5_head_v_dim cfg; C])]%string.
Definition fa_shapes (cfg : Qwen35Config) : dict string (list Z) :=
  let C := q5_hidden cfg in let D := q5_head_dim cfg in let F := q5_intermediate cfg in
  [("ln1_gamma", [C]); ("q_norm_gamma", [D]); ("k_norm_gamma", [D]); ("ln2_gamma", [C]); ("gate_up_w", [C; 2 * F]);
   ("down_w", [F; C]); ("o_proj_w", [q5_heads cfg * D; C])]%string.

(** The parameters of one layer: the [shapes] of the layer, then the bytes
    and the block scales of its fp8 projection, of [rows] rows. *)
Definition register_layer (li : Z) (shapes : dict string (list Z)) (fp8 : string) (rows : Z) (cfg : Qwen35Config)
    : M Session LayerViews :=
  let C := q5_hidden cfg in
  views ← layer_views li (λ f, of_option (KeyError f) (dict_get shapes f)) shapes.*1 F32;
  bytes ← stable_external ("l" +:+ fmt li +:+ "_" +:+ fp8 +:+ "_bytes") [rows; C] F8_E4M3;
  blocks ← lift (py_floordiv (- rows) (q5_fp8_quant_block cfg));
  c_blocks ← lift (py_floordiv C (q5_fp8_quant_block cfg));
  scale ← stable_external ("l" +:+ fmt li +:+ "_" +:+ fp8 +:+ "_scale") [- blocks; c_blocks] F32;
  mret (dict_set (dict_set views (fp8 +:+ "_bytes") bytes) (fp8 +:+ "_scale") scale).

Definition new_Qwen35ModelArgs (cfg : Qwen35Config) : M Session Qwen35ModelArgs :=
  let C := q5_hidden cfg in
  token ← stable_external "token_emb" [q5_vocab cfg; C] F32;
  final_gamma ← stable_external "final_ln_gamma" [C] F32;
  let half := q5_rotary_dim cfg / 2 in
  rope_cos ← stable_external "rope_cos" [q5_max_positions cfg; half] F32;
  rope_sin ← stable_external "rope_sin" [q5_max_positions cfg; half] F32;
  slot_table ← stable_external "slot_table" [q5_batch cfg; q5_cache_capacity cfg] F32;
  k_pool ← stable_external "k_pool" [1; n_slots cfg; q5_kv_heads cfg; q5_head_dim cfg] F32;
  v_pool ← stable_external "v_pool" [1; n_slots cfg; q5_kv_heads cfg; q5_head_dim cfg] F32;
  layers ← map_m (λ ilt : nat * string,
             if decide (ilt.2 = "gdn"%string)
             then register_layer (Z.of_nat ilt.1) (gdn_shapes cfg) "in_qkvz" (gdn_kv_dim cfg) cfg
             else register_layer (Z.of_nat ilt.1) (fa_shapes cfg) "qkv_gate" (fa_proj_dim cfg) cfg)
             (imap pair (q5_layer_types cfg));
  let n_gdn := Z.of_nat (length (gdn_layers cfg)) in
  conv_state ← stable_external "conv_state" [n_gdn; q5_batch cfg; q5_conv_kernel cfg - 1; gdn_kv_dim cfg] F32;
  ssm_state ← stable_external "ssm_state"
                [n_gdn; q5_batch cfg; q5_gdn_v_heads cfg; q5_head_v_dim cfg; q5_head_k_dim cfg] F32;
  let n_fa_dense := Z.of_nat (length (fa_layers cfg)) - 1 in
  let dense_shape := [Z.max n_fa_dense 1; q5_batch cfg; q5_kv_heads cfg; q5_cache_capacity cfg; q5_head_dim cfg] in
  k_cache_dense ← stable_external "k_cache_dense" dense_shape F32;
  v_cache_dense ← stable_external "v_cache_dense" dense_shape F32;
  mret (mk_Qwen35ModelArgs token final_gamma rope_cos rope_sin slot_table k_pool v_pool layers conv_state ssm_state
          k_cache_dense v_cache_dense).

(** ** The body *)

(** One layer of gated linear attention; [gdn_i] is its slab of the pools. *)
Definition gdn_layer (args : Qwen35ModelArgs) (lv : LayerViews) (hidden : TensorValue) (cfg : Qwen35Config)
    (li gdn_i : Z) : R TensorValue :=
  let l := l_name li in
  let B := q5_batch cfg in let NK := q5_gdn_k_heads cfg in let HK := q5_head_k_dim cfg in
  let NV := q5_gdn_v_heads cfg in let HV := q5_head_v_dim cfg in
  ln1_gamma ← lift (view_attr lv "ln1_gamma");
  n1 ← rms_norm hidden ln1_gamma (q5_rms_eps cfg) None (l "_rms1");
  in_qkvz_bytes ← lift (view_attr lv "in_qkvz_bytes");
  in_qkvz_scale ← lift (view_attr lv "in_qkvz_scale");
  qkvz ← linear_fp8 n1 in_qkvz_bytes in_qkvz_scale None (l "_in_qkvz") (q5_fp8_quant_block cfg);
  in_a_w ← lift (view_attr lv "in_a_w");
  a ← linear n1 in_a_w None None (l "_in_a") None;
  in_b_w ← lift (view_attr lv "in_b_w");
  b ← linear n1 in_b_w None None (l "_in_b") None;
  (* short conv over the packed row *)
  conv_l ← narrow (ha_conv_state args) (l "_conv_l") 0 gdn_i 1;
  conv_view ← view_of conv_l (l "_conv_state") [B; q5_conv_kernel cfg - 1; gdn_kv_dim cfg];
  conv_w ← lift (view_attr lv "conv_w");
  '(conv_out, conv_post) ← gdn_conv conv_view qkvz conv_w li;
  conv3 ← view_of conv_out (l "_conv3") [B; 2 * NK + 2 * NV; HK];
  q_n ← narrow conv3 (l "_q_n") 1 0 NK;
  q ← view_of q_n (l "_q") [B; NK; HK];
  k_n ← narrow conv3 (l "_k_n") 1 NK NK;
  k ← view_of k_n (l "_k") [B; NK; HK];
  v_n ← narrow conv3 (l "_v_n") 1 (2 * NK) NV;
  v ← view_of v_n (l "_v") [B; NV; HV];
  z_n ← narrow conv3 (l "_z_n") 1 (2 * NK + NV) NV;
  z ← view_of z_n (l "_z") [B; NV; HV];
  (* gated delta rule over the state pool *)
  ssm_l ← narrow (ha_ssm_state args) (l "_ssm_l") 0 gdn_i 1;
  ssm_view ← view_of ssm_l (l "_ssm_state") [B; NV; HV; HK];
  A_log ← lift (view_attr lv "A_log");
  dt_bias ← lift (view_attr lv "dt_bias");
  norm_w ← lift (view_attr lv "norm_w");
  '(out, ssm_post) ← gdn_delta ssm_view q k v z a b A_log dt_bias norm_w li (q5_delta_scale cfg) (q5_delta_eps cfg);
  gdn_flat ← view_of out (l "_gdn_flat") [B; NV * HV];
  o_proj_w ← lift (view_attr lv "o_proj_w");
  attn ← linear gdn_flat o_proj_w None None (l "_gdn_o_proj") None;
  add hidden attn (l "_gdn_res").

(** Attention of the first full-attention layer: pools behind slot tables. *)
Definition fa_paged (args : Qwen35ModelArgs) (q k v : TensorValue) (position : Position) (cfg : Qwen35Config)
    (li : Z) : R TensorValue :=
  let l := l_name li in let KVH := q5_kv_heads cfg in let D := q5_head_dim cfg in
  k_l ← narrow (ha_k_pool args) (l "_kp_l") 0 0 1;
  k_view ← view_of k_l (l "_kpool") [n_slots cfg; KVH; D];
  v_l ← narrow (ha_v_pool args) (l "_vp_l") 0 0 1;
  v_view ← view_of v_l (l "_vpool") [n_slots cfg; KVH; D];
  '(k_post, v_post) ← cache_append_paged k_view v_view (ha_slot_table args) k v position li;
  scores ← attention_scores_paged q k_post (ha_slot_table args) position (attention_scale cfg) li (Some KVH);
  probs ← softmax scores position li;
  attention_values_paged probs v_post (ha_slot_table args) position li (Some KVH).

(** Attention of the other full-attention layers: a dense cache and the
    output gate. *)
Definition fa_dense (args : Qwen35ModelArgs) (q gate k v : TensorValue) (position : Position)
    (cfg : Qwen35Config) (li fa_dense_i : Z) : R TensorValue :=
  let l := l_name li in let B := q5_batch cfg in let KVH := q5_kv_heads cfg in let D := q5_head_dim cfg in
  k_l ← narrow (ha_k_cache_dense args) (l "_kc_l") 0 fa_dense_i 1;
  k_view ← view_of k_l (l "_kcache") [B; KVH; q5_cache_capacity cfg; D];
  v_l ← narrow (ha_v_cache_dense args) (l "_vc_l") 0 fa_dense_i 1;
  v_view ← view_of v_l (l "_vcache") [B; KVH; q5_cache_capacity cfg; D];
  '(k_post, v_post) ← cache_append k_view v_view k v position li;
  scores ← attention_scores q k_post position (attention_scale cfg) li (Some KVH);
  probs ← softmax scores position li;
  attention_values probs v_post position li (Some KVH) (Some gate).

(** One layer of full attention. *)
Definition fa_layer (args : Qwen35ModelArgs) (lv : LayerViews) (hidden : TensorValue) (position : Position)
    (cfg : Qwen35Config) (li first_fa fa_dense_i : Z) : R TensorValue :=
  let l := l_name li in
  let B := q5_batch cfg in let H := q5_heads cfg in let KVH := q5_kv_heads cfg in let D := q5_head_dim cfg in
  ln1_gamma ← lift (view_attr lv "ln1_gamma");
  n1 ← rms_norm hidden ln1_gamma (q5_rms_eps cfg) None (l "_rms1");
  qkv_gate_bytes ← lift (view_attr lv "qkv_gate_bytes");
  qkv_gate_scale ← lift (view_attr lv "qkv_gate_scale");
  qkv_gate ← linear_fp8 n1 qkv_gate_bytes qkv_gate_scale None (l "_qkv_gate") (q5_fp8_quant_block cfg);
  qkv3 ← view_of qkv_gate (l "_qkv3") [B; 2 * H + 2 * KVH; D];
  q_n ← narrow qkv3 (l "_q_n") 1 0 H;
  q ← view_of q_n (l "_q") [B; H; D];
  gate_n ← narrow qkv3 (l "_gate_n") 1 H H;
  gate ← view_of gate_n (l "_gate") [B; H; D];
  k_n ← narrow qkv3 (l "_k_n") 1 (2 * H) KVH;
  k ← view_of k_n (l "_k") [B; KVH; D];
  v_n ← narrow qkv3 (l "_v_n") 1 (2 * H + KVH) KVH;
  v ← view_of v_n (l "_v") [B; KVH; D];
  q_norm_gamma ← lift (view_attr lv "q_norm_gamma");
  q ← rms_norm q q_norm_gamma (q5_rms_eps cfg) None (l "_qnorm");
  k_norm_gamma ← lift (view_attr lv "k_norm_gamma");
  k ← rms_norm k k_norm_gamma (q5_rms_eps cfg) None (l "_knorm");
  q ← rope q (ha_rope_cos args) (ha_rope_sin args) position li "q" (Some (q5_rotary_dim cfg)) "neox_partial";
  k ← rope k (ha_rope_cos args) (ha_rope_sin args) position li "k" (Some (q5_rotary_dim cfg)) "neox_partial";
  ctx ← (if li =? first_fa then fa_paged args q k v position cfg li
         else fa_dense args q gate k v position cfg li fa_dense_i);
  ctx_flat ← view_of ctx (l "_ctx_flat") [B; H * D];
  o_proj_w ← lift (view_attr lv "o_proj_w");
  attn ← linear ctx_flat o_proj_w None None (l "_o_proj") None;
  add hidden attn (l "_attn_res").

(** The gated MLP of every layer. *)
Definition mlp (lv : LayerViews) (hidden : TensorValue) (cfg : Qwen35Config) (li : Z) : R TensorValue :=
  let l := l_name li in let B := q5_batch cfg in let F := q5_intermediate cfg in
  ln2_gamma ← lift (view_attr lv "ln2_gamma");
  n2 ← rms_norm hidden ln2_gamma (q5_rms_eps cfg) None (l "_rms2");
  gate_up_w ← lift (view_attr lv "gate_up_w");
  gu ← linear n2 gate_up_w None None (l "_gate_up") None;
  gu3 ← view_of gu (l "_gu3") [B; 2; F];
  gate_n ← narrow gu3 (l "_mlpgate_n") 1 0 1;
  gate_mlp ← view_of gate_n (l "_mlp_gate") [B; F];
  up_n ← narrow gu3 (l "_up_n") 1 1 1;
  up ← view_of up_n (l "_mlp_up") [B; F];
  act ← swiglu gate_mlp up None (l "_swiglu");
  down_w ← lift (view_attr lv "down_w");
  down ← linear act down_w None None (l "_down") None;
  add hidden down (l "_mlp_res").

(** One turn of the loop: the hidden state and the numbers of the next pool
    slab and of the next dense cache. *)
Definition hybrid_layer (args : Qwen35ModelArgs) (position : Position) (cfg : Qwen35Config)
    (st : TensorValue * Z * Z) (ilt : nat * string) : R (TensorValue * Z * Z) :=
  let '(hidden, gdn_i, fa_dense_i) := st in
  let li := Z.of_nat ilt.1 in
  lv ← lift (seq_get (ha_layers args) li);
  if decide (ilt.2 = "gdn"%string) then
    hidden ← gdn_layer args lv hidden cfg li gdn_i;
    hidden ← mlp lv hidden cfg li;
    mret (hidden, gdn_i + 1, fa_dense_i)
  else
    first_fa ← lift (py_index (fa_layers cfg) 0);
    hidden ← fa_layer args lv hidden position cfg li first_fa fa_dense_i;
    hidden ← mlp lv hidden cfg li;
    mret (hidden, gdn_i, if li =? first_fa then fa_dense_i else fa_dense_i + 1).

Definition build_qwen35_forward (args : Qwen35ModelArgs) (ids : TensorValue) (position : Position)
    (cfg : Qwen35Config) : R TensorValue :=
  hidden ← embedding ids (ha_token args) None position None;
  '(hidden, _, _) ← for_m (hybrid_layer args position cfg) (hidden, 0, 0) (imap pair (q5_layer_types cfg));
  hidden ← rms_norm hidden (ha_final_gamma args) (q5_rms_eps cfg) None "final_rms";
  tied_w ← transpose_view (ha_token args) (Some "token_emb.T"%string);
  linear hidden tied_w None None "logits" None.

(** ** What the body records *)
Definition args_tensors (args : Qwen35ModelArgs) : list TensorValue :=
  [ha_token args; ha_final_gamma args; ha_rope_cos args; ha_rope_sin args; ha_slot_table args; ha_k_pool args;
   ha_v_pool args; ha_conv_state args; ha_ssm_state args; ha_k_cache_dense args; ha_v_cache_dense args]
  ++ mjoin ((λ lv : LayerViews, lv.*2) <$> ha_layers args).

Lemma register_layer_setup (known : list TensorValue) (li : Z) (shapes : dict string (list Z)) (fp8 : string)
    (rows : Z) (cfg : Qwen35Config) :
  setup known (register_layer li shapes fp8 rows cfg) (λ views, views.*2).
Proof.
  unfold register_layer. eapply setup_bind; [apply setup_layer_views|intros views].
  eapply setup_bind; [apply setup_stable|intros bytes]. do 2 (apply setup_lift; intros ? _).
  eapply setup_bind; [apply setup_stable|intros scale]. apply follows_ret. apply Forall_forall. intros tv.
  intros [->|[->|H]%dict_set_snd]%dict_set_snd; cbn; rewrite !elem_of_cons, !elem_of_app; auto.
Qed.

Lemma qwen35_args_setup (known : list TensorValue) (cfg : Qwen35Config) :
  setup known (new_Qwen35ModelArgs cfg) args_tensors.
Proof.
  unfold new_Qwen35ModelArgs.
  do 7 (eapply setup_bind; [apply setup_stable|intros ?]).
  eapply setup_bind; [apply setup_map|intros layers].
  { intros [li lt]. case_decide; apply register_layer_setup. }
  do 4 (eapply setup_bind; [apply setup_stable|intros ?]).
  apply follows_ret. known_subset.
Qed.

Definition gdn_kinds : list string :=
  ["rms_norm"; "linear_fp8"; "linear"; "linear"; "gdn_conv"; "gdn_delta"; "linear"; "add"].
Definition attention_kinds (paged : bool) : list string :=
  if paged then ["cache_append_paged"; "attention_scores_paged"; "softmax"; "attention_values_paged"]
  else ["cache_append"; "attention_scores"; "softmax"; "attention_values"].
Definition fa_kinds (paged : bool) : list string :=
  ["rms_norm"; "linear_fp8"; "rms_norm"; "rms_norm"; "rope"; "rope"]%string ++ attention_kinds paged
  ++ ["linear"; "add"]%string.
Definition mlp_kinds : list string := ["rms_norm"; "linear"; "swiglu"; "linear"; "add"].

Definition layer_kinds (cfg : Qwen35Config) (ilt : nat * string) : list string :=
  (if decide (ilt.2 = "gdn"%string) then gdn_kinds
   else fa_kinds (bool_decide (fa_layers cfg !! 0%nat = Some (Z.of_nat ilt.1)))) ++ mlp_kinds.

Definition forward_kinds (cfg : Qwen35Config) : list string :=
  "embedding"%string :: mjoin (layer_kinds cfg <$> imap pair (q5_layer_types cfg))
  ++ ["rms_norm"; "linear"]%string.

Section hybrid_layer.
Context (args : Qwen35ModelArgs) (cfg : Qwen35Config) (position : Position) (lv : LayerViews) (li : Z).
Hypothesis Hlv : seq_get (ha_layers args) li = Ok lv.

Lemma gdn_layer_follows (hidden : TensorValue) (gdn_i : Z) :
  body (hidden :: args_tensors args) gdn_kinds (gdn_layer args lv hidden cfg li gdn_i) (λ tv, [tv]).
Proof using Hlv. unfold gdn_layer, args_tensors. body_start; [body_steps|reflexivity]. Qed.

Lemma mlp_follows (hidden : TensorValue) :
  body (hidden :: args_tensors args) mlp_kinds (mlp lv hidden cfg li) (λ tv, [tv]).
Proof using Hlv. unfold mlp, args_tensors. body_start; [body_steps|reflexivity]. Qed.

Lemma attention_follows (q gate k v : TensorValue) (first_fa fa_dense_i : Z) :
  body ([q; gate; k; v] ++ args_tensors args)
    (attention_kinds (li =? first_fa))
    (if li =? first_fa then fa_paged args q k v position cfg li
     else fa_dense args q gate k v position cfg li fa_dense_i) (λ tv, [tv]).
Proof.
  unfold args_tensors. destruct (li =? first_fa).
  - unfold fa_paged. body_start; [body_steps|reflexivity].
  - unfold fa_dense. body_start; [body_steps|reflexivity].
Qed.

Lemma fa_layer_follows (hidden : TensorValue) (first_fa fa_dense_i : Z) :
  body (hidden :: args_tensors args) (fa_kinds (li =? first_fa))
    (fa_layer args lv hidden position cfg li first_fa fa_dense_i) (λ tv, [tv]).
Proof using Hlv.
  unfold fa_layer. body_start.
  - unfold args_tensors. body_steps.
    eapply follows_bind; [eapply follows_conv; [apply attention_follows|known_subset|reflexivity]|].
    intros ctx. cbn [app]. body_steps.
  - unfold fa_kinds. by destruct (li =? first_fa).
Qed.
End hybrid_layer.

Lemma hybrid_layer_follows (args : Qwen35ModelArgs) (position : Position) (cfg : Qwen35Config)
    (st : TensorValue * Z * Z) (ilt : nat * string) :
  body (st.1.1 :: args_tensors args) (layer_kinds cfg ilt) (hybrid_layer args position cfg st ilt)
    (λ st, [st.1.1]).
Proof.
  destruct st as [[hidden gdn_i] fa_i]. unfold hybrid_layer, layer_kinds. cbn [fst].
  apply follows_lift. intros lv Hlv. case_decide.
  - eapply follows_bind; [by apply gdn_layer_follows|intros h]. rewrite <- (app_nil_r mlp_kinds).
    eapply follows_bind; [eapply follows_conv; [by apply mlp_follows|known_subset|reflexivity]|intros h2].
    apply follows_ret. known_subset.
  - apply follows_lift. intros first_fa Hfa. unfold py_index in Hfa.
    destruct (fa_layers cfg !! 0%nat) as [z|]; [|done]. injection Hfa as ->.
    replace (bool_decide (Some first_fa = Some (Z.of_nat ilt.1))) with (Z.of_nat ilt.1 =? first_fa)
      by (case_bool_decide; [apply Z.eqb_eq|apply Z.eqb_neq]; congruence).
    eapply follows_bind; [by apply fa_layer_follows|intros h]. rewrite <- (app_nil_r mlp_kinds).
    eapply follows_bind; [eapply follows_conv; [by apply mlp_follows|known_subset|reflexivity]|intros h2].
    apply follows_ret. known_subset.
Qed.

Lemma qwen35_forward_follows (args : Qwen35ModelArgs) (ids : TensorValue) (position : Position)
    (cfg : Qwen35Config) :
  body (ids :: args_tensors args) (forward_kinds cfg) (build_qwen35_forward args ids position cfg) (λ tv, [tv]).
Proof.
  unfold build_qwen35_forward. body_start.
  - body_step. eapply follows_bind.
    + eapply follows_conv; [|..|reflexivity].
      * eapply (follows_for _ _ (args_tensors args) _ _ (λ st : TensorValue * Z * Z, [st.1.1])).
        intros st ilt _. apply hybrid_layer_follows.
      * known_subset.
    + intros [[h ?] ?]. unfold args_tensors. cbn [app fst]. body_steps.
  - reflexivity.
Qed.
