(* ===== verification/ModelDeepseek.v ===== *)
(** * DeepSeek-V4 (compiler/deepseek_v4_arch.py, compiler/model_deepseek_v4.py)

    The configuration, the external tensors of a decode step, and the body of
    the step: per layer an attention sublayer (latent attention over a window
    and selected compressed entries) and a mixture-of-experts sublayer, each
    wrapped in hyper-connections; positions are per row. *)

From S2P Require Import Prelude Indexing OperatorIR Contracts TaskIR LoweringsCommon Operands.
From S2P Require Import Capture CaptureUpdates CaptureDense CaptureAttention CaptureRecurrent.
From S2P Require Import Declared DeclaredState Captured Frontend.
Local Open Scope Z_scope.

(** ** Configuration *)
Record DeepseekV4Config : Type := mk_DeepseekV4Config {
  d4_batch : Z;
  d4_layers : Z;
  d4_vocab : Z;
  d4_hidden : Z;
  d4_hc : Z;
  d4_mhc_iters : Z;
  d4_mhc_eps : pyfloat;
  d4_mhc_rms_eps : pyfloat;
  d4_heads : Z;
  d4_latent_dim : Z;
  d4_window : Z;
  d4_attention_scale : pyfloat;
  d4_compress_m : Z;
  d4_compress_r : Z;
  d4_index_heads : Z;
  d4_index_k : Z;
  d4_compressor_eps : pyfloat;
  d4_n_experts : Z;
  d4_moe_top_k : Z;
  d4_moe_intermediate : Z;
  d4_routed_scaling_factor : pyfloat;
  d4_shared_intermediate : Z;
  d4_rms_eps : pyfloat;
  d4_max_positions : Z;
  d4_cache_capacity : Z
}.

Definition DeepseekV4Config_defaults : DeepseekV4Config :=
  mk_DeepseekV4Config 2 2 64 32 2 2 (FLit 1 (-6)) (FLit 1 (-6)) 4 16 4 (FLit 25 (-2)) 4 8 2 3 (FLit 1 (-6))
    4 2 24 (FLit 13 (-1)) 24 (FLit 1 (-6)) 8 9.

Definition validate (cfg : DeepseekV4Config) : result unit :=
  _ ← require ((1 <=? d4_batch cfg) && (1 <=? d4_layers cfg)) (ValueError "batch/layers must be >= 1");
  _ ← require (1 <=? d4_hc cfg) (ValueError "hc must be >= 1");
  _ ← require (d4_latent_dim cfg `mod` 2 =? 0) (ValueError "latent_dim must be even");
  m ← py_mod (d4_compress_r cfg) (d4_compress_m cfg);
  _ ← require (m =? 0) (ValueError "compress_r must be a multiple of compress_m");
  _ ← require ((1 <=? d4_window cfg) && (1 <=? d4_index_k cfg)) (ValueError "window and index_k must be >= 1");
  _ ← require (d4_max_positions cfg <? d4_cache_capacity cfg) (ValueError "cache_capacity must EXCEED max_positions");
  _ ← require (d4_moe_top_k cfg <=? d4_n_experts cfg) (ValueError "moe_top_k exceeds n_experts");
  g ← py_mod (d4_heads cfg * d4_latent_dim cfg) (d4_heads cfg);
  require (g =? 0) (ValueError "grouped o-proj requires N % H == 0").

Definition entries_per_series (cfg : DeepseekV4Config) : result Z :=
  py_floordiv (d4_compress_r cfg) (d4_compress_m cfg).
Definition entry_capacity (cfg : DeepseekV4Config) : result Z := R ← entries_per_series cfg; Ok (2 * R).

(** ** External tensors *)
Record DeepseekV4ModelArgs : Type := mk_DeepseekV4ModelArgs {
  da_token : TensorValue;
  da_final_gamma : TensorValue;
  da_rope_cos : TensorValue;
  da_rope_sin : TensorValue;
  da_slot_table_global : TensorValue;
  da_slot_table_local : TensorValue;
  da_latent_k : TensorValue;
  da_latent_v : TensorValue;
  da_entry_pool : list TensorValue;
  da_series_state : list TensorValue;
  da_comp_window : TensorValue;
  da_comp_gates : TensorValue;
  da_comp_cos : TensorValue;
  da_comp_sin : TensorValue;
  da_valid_counts : TensorValue;
  da_moe_ids : list TensorValue;
  da_moe_weights : list TensorValue;
  da_layers : list LayerViews
}.

(** [heads] is not zero: [C // H] is evaluated with every layer. *)
Definition layer_shapes (cfg : DeepseekV4Config) (o_width : Z) : dict string (list Z) :=
  let C := d4_hidden cfg in let D := d4_latent_dim cfg in let hc := d4_hc cfg in
  let H := d4_heads cfg in let HI := d4_index_heads cfg in
  let E := d4_n_experts cfg in let I := d4_moe_intermediate cfg in let Is := d4_shared_intermediate cfg in
  [("mhc_attn_fn", [(2 + hc) * hc; hc * C]); ("mhc_attn_base", [(2 + hc) * hc]); ("mhc_attn_scale", [3]);
   ("mhc_moe_fn", [(2 + hc) * hc; hc * C]); ("mhc_moe_base", [(2 + hc) * hc]); ("mhc_moe_scale", [3]);
   ("attn_ln_gamma", [C]); ("q_proj_w", [C; H * D]); ("kv_a_w", [C; D]); ("o_proj_w", [H * D; H * o_width]);
   ("idx_q_w", [C; HI * D]); ("idx_mix_w", [C; HI]); ("compressor_rms_w", [D]); ("mla_sink", [H]);
   ("moe_ln_gamma", [C]); ("router_w", [E; C]); ("expert_gate_up", [E; 2 * I; C]); ("expert_down", [E; C; I]);
   ("shared_gate_up", [C; 2 * Is]); ("shared_down", [Is; C])]%string.

Definition register_layer (cfg : DeepseekV4Config) (li : Z) : M Session LayerViews :=
  o_width ← lift (py_floordiv (d4_hidden cfg) (d4_heads cfg));
  let shapes := layer_shapes cfg o_width in
  layer_views li (λ f, of_option (KeyError f) (dict_get shapes f)) shapes.*1 F32.

(** The routing tables of a layer. *)
Definition register_routing (cfg : DeepseekV4Config) (li : Z) : M Session (TensorValue * TensorValue) :=
  ids ← stable_external (l_name li "_moe_ids") [d4_batch cfg; d4_moe_top_k cfg] I32;
  weights ← stable_external (l_name li "_moe_weights") [d4_batch cfg; d4_moe_top_k cfg] F32;
  mret (ids, weights).

Definition new_DeepseekV4ModelArgs (cfg : DeepseekV4Config) : M Session DeepseekV4ModelArgs :=
  let B := d4_batch cfg in let C := d4_hidden cfg in let D := d4_latent_dim cfg in
  let S := d4_cache_capacity cfg in let L := d4_layers cfg in
  R ← lift (entries_per_series cfg);
  token ← stable_external "token_emb" [d4_vocab cfg; d4_hc cfg * C] F32;
  final_gamma ← stable_external "final_ln_gamma" [d4_hc cfg * C] F32;
  rope_cos ← stable_external "rope_cos" [d4_max_positions cfg; D / 2] F32;
  rope_sin ← stable_external "rope_sin" [d4_max_positions cfg; D / 2] F32;
  slot_table_global ← stable_external "slot_table_global" [B; S] I32;
  slot_table_local ← stable_external "slot_table_local" [B; S] I32;
  latent_k ← stable_external "latent_k" [L; B * S; 1; D] F32;
  latent_v ← stable_external "latent_v" [L; B * S; 1; D] F32;
  entry_pool ← map_m (λ li, stable_external (l_name li "_entry_pool") [B; 1; 2; R; D] F32) (zrange L);
  series_state ← map_m (λ li, stable_external (l_name li "_series_state") [B; 1; 2] I32) (zrange L);
  comp_window ← stable_external "comp_window" [B; d4_compress_m cfg; D] F32;
  comp_gates ← stable_external "comp_gates" [B; d4_compress_m cfg] F32;
  comp_cos ← stable_external "comp_cos" [B; D / 2] F32;
  comp_sin ← stable_external "comp_sin" [B; D / 2] F32;
  valid_counts ← stable_external "valid_counts" [B] I32;
  moe ← map_m (register_routing cfg) (zrange L);
  layers ← map_m (register_layer cfg) (zrange L);
  mret (mk_DeepseekV4ModelArgs token final_gamma rope_cos rope_sin slot_table_global slot_table_local latent_k
          latent_v entry_pool series_state comp_window comp_gates comp_cos comp_sin valid_counts moe.*1 moe.*2 layers).

(** ** The body *)

(** The attention sublayer: the new streams. *)
Definition attention_sublayer (args : DeepseekV4ModelArgs) (lv : LayerViews) (streams : TensorValue)
    (position : Position) (cfg : DeepseekV4Config) (M li : Z) : R TensorValue :=
  let l := l_name li in
  let B := d4_batch cfg in let D := d4_latent_dim cfg in let S := d4_cache_capacity cfg in
  let H := d4_heads cfg in let HI := d4_index_heads cfg in
  mhc_attn_fn ← lift (view_attr lv "mhc_attn_fn");
  mhc_attn_base ← lift (view_attr lv "mhc_attn_base");
  mhc_attn_scale ← lift (view_attr lv "mhc_attn_scale");
  '(h_in, post_a, comb_a) ← mhc_pre streams mhc_attn_fn mhc_attn_base mhc_attn_scale li (d4_mhc_iters cfg)
                              (d4_mhc_eps cfg) (d4_mhc_rms_eps cfg);
  attn_ln_gamma ← lift (view_attr lv "attn_ln_gamma");
  n1 ← rms_norm h_in attn_ln_gamma (d4_rms_eps cfg) None (l "_attn_rms");
  (* compressor emission *)
  entry_pool ← lift (seq_get (da_entry_pool args) li);
  series_state ← lift (seq_get (da_series_state args) li);
  compressor_rms_w ← lift (view_attr lv "compressor_rms_w");
  '(pool_post, _) ← compressor_append entry_pool series_state (da_comp_window args) (da_comp_gates args)
                      compressor_rms_w (da_comp_cos args) (da_comp_sin args) position (d4_compress_m cfg)
                      (d4_compress_r cfg) (d4_compressor_eps cfg) (l "_compress");
  entries ← view_of pool_post (l "_entries") [B; M; D];
  (* paged latent append *)
  lk_l ← narrow (da_latent_k args) (l "_lk_l") 0 li 1;
  kv_k_pool ← view_of lk_l (l "_kpool") [B * S; 1; D];
  lv_l ← narrow (da_latent_v args) (l "_lv_l") 0 li 1;
  kv_v_pool ← view_of lv_l (l "_vpool") [B * S; 1; D];
  kv_a_w ← lift (view_attr lv "kv_a_w");
  lat ← linear n1 kv_a_w None None (l "_kv_a") None;
  lat_kv ← view_of lat (l "_lat_kv") [B; 1; D];
  '(k_post, v_post) ← cache_append_paged kv_k_pool kv_v_pool (da_slot_table_global args) lat_kv lat_kv position li;
  kv_k ← view_of k_post (l "_kv_k") [B; S; D];
  kv_v ← view_of v_post (l "_kv_v") [B; S; D];
  (* indexer: scores and fixed-count top-k *)
  idx_q_w ← lift (view_attr lv "idx_q_w");
  idx_q ← linear n1 idx_q_w None None (l "_idx_q") None;
  q_idx ← view_of idx_q (l "_idx_q3") [B; HI; D];
  idx_mix_w ← lift (view_attr lv "idx_mix_w");
  mix ← linear n1 idx_mix_w None None (l "_idx_mix") None;
  idx_scores ← indexer_scores q_idx entries mix None (l "_indexer");
  '(comp_idx, block_bias) ← index_topk idx_scores (da_valid_counts args) (d4_index_k cfg) None None (l "_topk");
  (* latent attention *)
  q_proj_w ← lift (view_attr lv "q_proj_w");
  q_proj ← linear n1 q_proj_w None None (l "_q_proj") None;
  q ← view_of q_proj (l "_q3") [B; H; D];
  q_r ← rope q (da_rope_cos args) (da_rope_sin args) position li "q" (Some D) "interleaved";
  mla_sink ← lift (view_attr lv "mla_sink");
  probs ← mla_scores q_r kv_k (da_slot_table_local args) entries comp_idx mla_sink position (d4_attention_scale cfg)
            li (d4_window cfg) (Some block_bias);
  ctx ← mla_values probs kv_v (da_slot_table_local args) entries comp_idx position li (d4_window cfg) None;
  ctx_c ← conjugate_rope ctx (da_rope_cos args) (da_rope_sin args) position li "o" "interleaved" (Some D) None;
  ctx_flat ← view_of ctx_c (l "_ctx_flat") [B; H * D];
  o_proj_w ← lift (view_attr lv "o_proj_w");
  attn ← linear ctx_flat o_proj_w None None (l "_o_proj") (Some H);
  mhc_post streams attn post_a comb_a li.

(** The mixture-of-experts sublayer: the new streams. *)
Definition moe_sublayer (args : DeepseekV4ModelArgs) (lv : LayerViews) (streams : TensorValue)
    (cfg : DeepseekV4Config) (li : Z) : R TensorValue :=
  let l := l_name li in
  mhc_moe_fn ← lift (view_attr lv "mhc_moe_fn");
  mhc_moe_base ← lift (view_attr lv "mhc_moe_base");
  mhc_moe_scale ← lift (view_attr lv "mhc_moe_scale");
  '(h_in2, post_m, comb_m) ← mhc_pre streams mhc_moe_fn mhc_moe_base mhc_moe_scale li (d4_mhc_iters cfg)
                               (d4_mhc_eps cfg) (d4_mhc_rms_eps cfg);
  moe_ln_gamma ← lift (view_attr lv "moe_ln_gamma");
  n2 ← rms_norm h_in2 moe_ln_gamma (d4_rms_eps cfg) None (l "_moe_rms");
  router_w ← lift (view_attr lv "router_w");
  moe_ids ← lift (seq_get (da_moe_ids args) li);
  moe_weights ← lift (seq_get (da_moe_weights args) li);
  '(r_ids, r_w) ← moe_route n2 router_w moe_ids moe_weights "learned" "sqrtsoftplus" (Some (d4_moe_top_k cfg))
                    (d4_routed_scaling_factor cfg) None 1 1 true None None (l "_route");
  expert_gate_up ← lift (view_attr lv "expert_gate_up");
  expert_down ← lift (view_attr lv "expert_down");
  partials ← moe_expert n2 expert_gate_up expert_down r_ids None None (l "_experts");
  shared_gate_up ← lift (view_attr lv "shared_gate_up");
  sgu ← linear n2 shared_gate_up None None (l "_shared_gu") None;
  s_gate ← narrow sgu (l "_sgate") 1 0 (d4_shared_intermediate cfg);
  s_up ← narrow sgu (l "_sup") 1 (d4_shared_intermediate cfg) (d4_shared_intermediate cfg);
  act ← swiglu s_gate s_up None (l "_shared_swiglu");
  shared_down ← lift (view_attr lv "shared_down");
  shared ← linear act shared_down None None (l "_shared_down") None;
  moe ← moe_combine partials r_w (Some shared) None (l "_combine");
  mhc_post streams moe post_m comb_m li.

Definition deepseek_layer (args : DeepseekV4ModelArgs) (position : Position) (cfg : DeepseekV4Config) (M : Z)
    (streams : TensorValue) (li : Z) : R TensorValue :=
  lv ← lift (seq_get (da_layers args) li);
  streams ← attention_sublayer args lv streams position cfg M li;
  moe_sublayer args lv streams cfg li.

Definition build_deepseek_v4_forward (args : DeepseekV4ModelArgs) (ids : TensorValue) (position : Position)
    (cfg : DeepseekV4Config) : R TensorValue :=
  let B := d4_batch cfg in let C := d4_hidden cfg in
  M ← lift (entry_capacity cfg);
  emb ← embedding ids (da_token args) None position None;
  streams ← view_of emb "streams0" [B; d4_hc cfg; C];
  streams ← for_m (deepseek_layer args position cfg M) streams (zrange (d4_layers cfg));
  flat ← view_of streams "streams_flat" [B; d4_hc cfg * C];
  n ← rms_norm flat (da_final_gamma args) (d4_rms_eps cfg) None "final_rms";
  tied_w ← transpose_view (da_token args) (Some "token_emb.T"%string);
  linear n tied_w None None "logits" None.

(** ** What the body records *)
Definition args_tensors (args : DeepseekV4ModelArgs) : list TensorValue :=
  [da_token args; da_final_gamma args; da_rope_cos args; da_rope_sin args; da_slot_table_global args;
   da_slot_table_local args; da_latent_k args; da_latent_v args; da_comp_window args; da_comp_gates args;
   da_comp_cos args; da_comp_sin args; da_valid_counts args]
  ++ da_entry_pool args ++ da_series_state args ++ da_moe_ids args ++ da_moe_weights args
  ++ mjoin ((λ lv : LayerViews, lv.*2) <$> da_layers args).

Definition attention_kinds : list string :=
  ["mhc_pre"; "rms_norm"; "compressor_append"; "linear"; "cache_append_paged"; "linear"; "linear"; "indexer_scores";
   "index_topk"; "linear"; "rope"; "mla_scores"; "mla_values"; "conjugate_rope"; "linear"; "mhc_post"].
Definition moe_kinds : list string :=
  ["mhc_pre"; "rms_norm"; "moe_route"; "moe_expert"; "linear"; "swiglu"; "linear"; "moe_combine"; "mhc_post"].

Section sublayers.
Context (args : DeepseekV4ModelArgs) (cfg : DeepseekV4Config) (lv : LayerViews) (li : Z).
Hypothesis Hlv : seq_get (da_layers args) li = Ok lv.

Lemma attention_sublayer_follows (streams : TensorValue) (position : Position) (M : Z) :
  body (streams :: args_tensors args) attention_kinds
    (attention_sublayer args lv streams position cfg M li) (λ tv, [tv]).
Proof using Hlv. unfold attention_sublayer, args_tensors. body_start; [body_steps|reflexivity]. Qed.

Lemma moe_sublayer_follows (streams : TensorValue) :
  body (streams :: args_tensors args) moe_kinds (moe_sublayer args lv streams cfg li) (λ tv, [tv]).
Proof using Hlv. unfold moe_sublayer, args_tensors. body_start; [body_steps|reflexivity]. Qed.
End sublayers.

Definition layer_kinds : list string := attention_kinds ++ moe_kinds.

Lemma deepseek_layer_follows (args : DeepseekV4ModelArgs) (position : Position) (cfg : DeepseekV4Config) (M : Z)
    (streams : TensorValue) (li : Z) :
  body (streams :: args_tensors args) layer_kinds (deepseek_layer args position cfg M streams li) (λ tv, [tv]).
Proof.
  apply follows_lift. intros lv Hlv. eapply follows_bind; [by apply attention_sublayer_follows|intros h].
  eapply follows_conv; [by apply moe_sublayer_follows|known_subset|reflexivity].
Qed.

Definition forward_kinds (cfg : DeepseekV4Config) : list string :=
  "embedding"%string :: mjoin ((λ _, layer_kinds) <$> zrange (d4_layers cfg)) ++ ["rms_norm"; "linear"]%string.

Lemma deepseek_forward_follows (args : DeepseekV4ModelArgs) (ids : TensorValue) (position : Position)
    (cfg : DeepseekV4Config) :
  body (ids :: args_tensors args) (forward_kinds cfg) (build_deepseek_v4_forward args ids position cfg)
    (λ tv, [tv]).
Proof.
  unfold build_deepseek_v4_forward. body_start.
  - apply follows_lift. intros M _. do 2 body_step. eapply follows_bind.
    + eapply (follows_layers _ _ (args_tensors args) _ (λ _, layer_kinds) (λ tv, [tv])); [|known_subset].
      intros h i _. apply deepseek_layer_follows.
    + intros h. unfold args_tensors. cbn [app]. body_steps.
  - reflexivity.
Qed.

Lemma register_routing_setup (known : list TensorValue) (cfg : DeepseekV4Config) (li : Z) :
  setup known (register_routing cfg li) (λ iw, [iw.1; iw.2]).
Proof. do 2 (eapply setup_bind; [apply setup_stable|intros ?]). apply follows_ret. known_subset. Qed.

Lemma deepseek_args_setup (known : list TensorValue) (cfg : DeepseekV4Config) :
  setup known (new_DeepseekV4ModelArgs cfg) args_tensors.
Proof.
  unfold new_DeepseekV4ModelArgs. apply setup_lift. intros R _.
  do 8 (eapply setup_bind; [apply setup_stable|intros ?]).
  do 2 (eapply setup_bind; [apply setup_map; intros li; apply setup_stable|intros ?]).
  do 5 (eapply setup_bind; [apply setup_stable|intros ?]).
  eapply setup_bind; [apply setup_map; intros li; apply register_routing_setup|intros moe].
  eapply setup_bind; [apply (setup_map _ _ (λ views : LayerViews, views.*2)); intros li|intros layers].
  { apply setup_lift. intros w _. apply setup_layer_views. }
  apply follows_ret. rewrite !join_singles.
  apply Forall_forall. intros tv. cbn.
  repeat first [rewrite elem_of_app|rewrite elem_of_cons|rewrite elem_of_nil].
  pose proof (join_pairs moe tv). tauto.
Qed.
