(* ===== verification/ModelGlm53.v ===== *)
(** * GLM-5.3 (compiler/glm53_arch.py, compiler/model_glm53.py)

    The configuration, the shapes of the weights, the external tensors and the
    body of a whole decode step.  The host mirrors of the arrays, which only
    the tests execute, are not modelled. *)

From S2P Require Import Prelude Indexing OperatorIR Contracts TaskIR LoweringsCommon Operands.
From S2P Require Import Capture CaptureUpdates CaptureDense CaptureAttention CaptureRecurrent.
From S2P Require Import Declared DeclaredState Captured Frontend.
Local Open Scope Z_scope.

(** ** Configuration *)
Record Glm53Config : Type := mk_Glm53Config {
  gl_hidden_size : Z;
  gl_num_hidden_layers : Z;
  gl_layer_types : list string;
  gl_mlp_layer_types : list string;
  gl_linear_num_heads : Z;
  gl_linear_head_dim : Z;
  gl_linear_conv_kernel_dim : Z;
  gl_linear_lower_bound : option pyfloat;
  gl_hc_mult : Z;
  gl_hc_sinkhorn_iters : Z;
  gl_hc_eps : pyfloat;
  gl_rms_norm_eps : pyfloat;
  gl_n_routed_experts : Z;
  gl_num_experts_per_tok : Z;
  gl_moe_intermediate_size : Z;
  gl_n_shared_experts : Z;
  gl_intermediate_size : Z;
  gl_swiglu_limit : pyfloat;
  gl_n_group : Z;
  gl_topk_group : Z;
  gl_norm_topk_prob : bool;
  gl_routed_scaling_factor : pyfloat;
  gl_first_k_dense_replace : Z;
  gl_index_topk : Z;
  gl_index_kpool : Z;
  gl_indexer_head_dim : Z;
  gl_indexer_types : list string
}.

(** The constructor's checks. *)
Definition post_init (cfg : Glm53Config) : result Glm53Config :=
  _ ← require (Z.of_nat (length (gl_layer_types cfg)) =? gl_num_hidden_layers cfg)
        (ValueError "layer_types must cover every layer");
  _ ← require (Z.of_nat (length (gl_mlp_layer_types cfg)) =? gl_num_hidden_layers cfg)
        (ValueError "mlp_layer_types must cover every layer");
  m ← py_mod (gl_index_topk cfg) (gl_index_kpool cfg);
  _ ← require (m =? 0) (ValueError "index_topk must be divisible by index_kpool");
  Ok cfg.

Definition qkv_dim (cfg : Glm53Config) : Z := gl_linear_num_heads cfg * gl_linear_head_dim cfg.
Definition conv_dim (cfg : Glm53Config) : Z := qkv_dim cfg * 3.
Definition hc_mix (cfg : Glm53Config) : Z := (2 + gl_hc_mult cfg) * gl_hc_mult cfg.

Definition Glm53Config_defaults : result Glm53Config :=
  post_init (mk_Glm53Config 64 3 ["linear_attention"; "linear_attention"; "linear_attention"]
    ["dense"; "sparse"; "sparse"] 2 8 4 (Some (FLit (-5) 0)) 2 3 (FLit 1 (-6)) (FLit 1 (-5)) 8 2 32 1 48 (FLit 10 0)
    1 1 true (FLit 25 (-1)) 1 4 2 8 [])%string.

Definition real_glm53_dims_config (num_hidden_layers : Z) : result Glm53Config :=
  post_init (mk_Glm53Config 5120 num_hidden_layers
    ((λ i, if ((i + 1) mod 4 =? 0) && (3 <=? i) then "deepseek_sparse_attention"%string
           else "linear_attention"%string) <$> zrange num_hidden_layers)
    ((λ i, if i <? 3 then "dense"%string else "sparse"%string) <$> zrange num_hidden_layers)
    64 128 4 (Some (FLit (-5) 0)) 4 20 (FLit 1 (-6)) (FLit 1 (-5)) 288 8 1536 1 1536 (FLit 10 0) 1 1 true
    (FLit 25 (-1)) 1 2048 4 8 []).

(** ** Weights: the shapes of the per-layer arrays of each attribute *)
Definition Glm53Weights : Type := dict string (list (list Z)).

Definition weight_shapes (cfg : Glm53Config) : dict string (list Z) :=
  let C := gl_hidden_size cfg in let H := gl_linear_num_heads cfg in let D := gl_linear_head_dim cfg in
  let qkv := qkv_dim cfg in let I := gl_intermediate_size cfg in let Imoe := gl_moe_intermediate_size cfg in
  let E := gl_n_routed_experts cfg in let hc := gl_hc_mult cfg in let mix := hc_mix cfg in
  [("hc_attn_fn", [mix; hc * C]); ("hc_attn_base", [mix]); ("hc_attn_scale", [3]);
   ("hc_ffn_fn", [mix; hc * C]); ("hc_ffn_base", [mix]); ("hc_ffn_scale", [3]); ("ln1", [C]); ("ln2", [C]);
   ("qkv_proj", [3 * qkv; C]); ("conv_w", [conv_dim cfg; gl_linear_conv_kernel_dim cfg]); ("f_a", [D; C]);
   ("f_b", [qkv; D]); ("dt_bias", [qkv]); ("A_log", [H]); ("b_proj", [H; C]); ("g_a", [D; C]); ("g_b", [qkv; D]);
   ("o_norm", [D]); ("o_proj", [C; qkv]); ("gate_proj", [I; C]); ("up_proj", [I; C]); ("down_proj", [C; I]);
   ("router_w", [E; C]); ("router_bias", [E]); ("expert_gate_up", [E; 2 * Imoe; C]); ("expert_down", [E; C; Imoe]);
   ("shared_gate", [Imoe; C]); ("shared_up", [Imoe; C]); ("shared_down", [C; Imoe])]%string.

Definition random_glm53_weights (cfg : Glm53Config) : Glm53Weights :=
  ((λ fs : string * list Z, (fs.1, (λ _, fs.2) <$> zrange (gl_num_hidden_layers cfg))) <$> weight_shapes cfg)
  ++ [("final_norm"%string, [[gl_hidden_size cfg]])].

(** ** External tensors *)

(** How an array is passed: as it is, transposed ([.T.copy()]), or reshaped to
    [[H, D]]. *)
Inductive layout : Type := Same | Transposed | Reshaped (shape : list Z).

Definition laid_out (l : layout) (shape : list Z) : result (list Z) :=
  match l with
  | Same => Ok shape
  | Transposed => Ok (reverse shape)
  | Reshaped s => _ ← require (zprod shape =? zprod s) (ValueError "cannot reshape array"); Ok s
  end.

(** [[ext(f"{prefix}{i}", weights.attribute[i]) for i in range(L)]] *)
Definition ext_layers (w : Glm53Weights) (L : Z) (attribute prefix : string) (l : layout)
    : M Session (list TensorValue) :=
  map_m (λ i,
    arrays ← lift (of_option (AttributeError attribute) (dict_get w attribute));
    array ← lift (seq_get arrays i);
    shape ← lift (laid_out l array);
    next_external (prefix +:+ fmt i) shape F32) (zrange L).

(** Parameter lists by attribute name.  An entry of a table: the attribute of
    the arguments, the attribute of the weights, the prefix of the external
    name, and the layout. *)
Definition params : Type := dict string (list TensorValue).
Record Param : Type := mk_param { pm_attribute : string; pm_weight : string; pm_prefix : string; pm_layout : layout }.
Definition same_name (attribute prefix : string) (l : layout) : Param := mk_param attribute attribute prefix l.

Definition ext_params (w : Glm53Weights) (L : Z) (table : list Param) : M Session params :=
  for_m (λ ps p, tvs ← ext_layers w L (pm_weight p) (pm_prefix p) (pm_layout p);
                 mret (dict_set ps (pm_attribute p) tvs)) [] table.

(** [args.attribute[i]] *)
Definition param (ps : params) (attribute : string) (i : Z) : result TensorValue :=
  l ← of_option (AttributeError attribute) (dict_get ps attribute); seq_get l i.

Definition heads_of (cfg : Glm53Config) : list Z := [gl_linear_num_heads cfg; gl_linear_head_dim cfg].

(** The parameters of the whole step, in the order of their registration. *)
Definition PARAMS (cfg : Glm53Config) : list Param :=
  [same_name "hc_attn_fn" "hc_a_fn_" Same; same_name "hc_attn_base" "hc_a_base_" Same;
   same_name "hc_attn_scale" "hc_a_scale_" Same; same_name "hc_ffn_fn" "hc_f_fn_" Same;
   same_name "hc_ffn_base" "hc_f_base_" Same; same_name "hc_ffn_scale" "hc_f_scale_" Same;
   same_name "ln1" "ln1_" Same; same_name "ln2" "ln2_" Same; same_name "qkv_proj" "qkv_proj_" Transposed;
   same_name "conv_w" "conv_w_" Same; same_name "f_a" "f_a_" Transposed; same_name "f_b" "f_b_" Transposed;
   same_name "dt_bias" "dt_bias_" (Reshaped (heads_of cfg)); same_name "A_log" "A_log_" Same;
   same_name "b_proj" "b_proj_" Transposed; same_name "g_a" "g_a_" Transposed; same_name "g_b" "g_b_" Transposed;
   same_name "o_norm" "o_norm_" Same; same_name "o_proj" "o_proj_" Transposed;
   same_name "router_w" "router_w_" Same; same_name "router_bias" "router_bias_" Same;
   same_name "expert_gate_up" "expert_gu_" Same; same_name "expert_down" "expert_dn_" Same;
   same_name "shared_gate" "sh_g_" Transposed; same_name "shared_up" "sh_u_" Transposed;
   same_name "shared_down" "sh_d_" Transposed; same_name "gate_proj" "gate_proj_" Transposed;
   same_name "up_proj" "up_proj_" Transposed; same_name "down_proj" "down_proj_" Transposed].

Record Glm53ModelArgs : Type := mk_Glm53ModelArgs {
  ga_batch : Z;
  ga_streams_in : TensorValue;
  ga_conv_state : list TensorValue;
  ga_ssm_state : list TensorValue;
  ga_params : params;
  ga_head_mean : TensorValue;
  ga_final_norm : TensorValue;
  ga_route_ids : list TensorValue;
  ga_route_weights : list TensorValue
}.

Definition register_pools (cfg : Glm53Config) (B i : Z) : M Session (TensorValue * TensorValue) :=
  let D := gl_linear_head_dim cfg in
  cs ← next_external ("glm53_conv_state_l" +:+ fmt i) [B; gl_linear_conv_kernel_dim cfg - 1; conv_dim cfg] F32;
  ss ← next_external ("glm53_ssm_state_l" +:+ fmt i) [B; gl_linear_num_heads cfg; D; D] F32;
  mret (cs, ss).

Definition new_Glm53ModelArgs (cfg : Glm53Config) (w : Glm53Weights) (B : Z) : M Session Glm53ModelArgs :=
  let C := gl_hidden_size cfg in let hc := gl_hc_mult cfg in let L := gl_num_hidden_layers cfg in
  _ ← set_ids 1000 100000;
  streams_in ← next_external "glm53_streams_in" [B; hc; C] F32;
  pools ← map_m (register_pools cfg B) (zrange L);
  ps ← ext_params w L (PARAMS cfg);
  head_mean ← next_external "glm53_head_mean" [hc * C; C] F32;
  final_norms ← lift (of_option (AttributeError "final_norm") (dict_get w "final_norm"%string));
  final_norm ← lift (seq_get final_norms 0);
  final_norm ← next_external "glm53_final_norm" final_norm F32;
  route_ids ← map_m (λ i, next_external ("route_ids_" +:+ fmt i) [B; gl_num_experts_per_tok cfg] I32) (zrange L);
  route_weights ← map_m (λ i, next_external ("route_w_" +:+ fmt i) [B; gl_num_experts_per_tok cfg] F32) (zrange L);
  mret (mk_Glm53ModelArgs B streams_in pools.*1 pools.*2 ps head_mean final_norm route_ids route_weights).

(** ** The whole step *)

(** [D ** -0.5]; head dimensions are not negative. *)
Definition inv_sqrt (D : Z) : result pyfloat :=
  if decide (D = 0) then Err (ZeroDivisionError "0 cannot be raised to a negative power") else Ok (FInvSqrt D).

(** The attention sublayer of layer [i], given its state pools: the new
    streams and the views of the pools after the update. *)
Definition attention_sublayer (args : Glm53ModelArgs) (cfg : Glm53Config) (i : Z)
    (streams conv_state ssm_state : TensorValue) : R (TensorValue * TensorValue * TensorValue) :=
  let B := ga_batch args in let H := gl_linear_num_heads cfg in let D := gl_linear_head_dim cfg in
  let p name := lift (param (ga_params args) name i) in
  let n prefix := prefix +:+ fmt i in
  let eps := gl_rms_norm_eps cfg in
  hc_attn_fn ← p "hc_attn_fn"; hc_attn_base ← p "hc_attn_base"; hc_attn_scale ← p "hc_attn_scale";
  '(h_in, post_a, comb_a) ← mhc_pre streams hc_attn_fn hc_attn_base hc_attn_scale i (gl_hc_sinkhorn_iters cfg)
                              (gl_hc_eps cfg) eps;
  ln1 ← p "ln1";
  h ← rms_norm h_in ln1 eps None (n "ln1_l");
  qkv_proj ← p "qkv_proj";
  mixed ← linear h qkv_proj None None (n "qkv_proj_l") None;
  conv_w ← p "conv_w";
  '(qkv_out, conv_post) ← gdn_conv conv_state mixed conv_w i;
  thirds ← view_of qkv_out (n "qkv thirds_l") [B; 3; H; D];
  qn ← narrow thirds (n "qn_l") 1 0 1;
  qh ← view_of qn (n "qh_l") [B; H; D];
  kn ← narrow thirds (n "kn_l") 1 1 1;
  kh ← view_of kn (n "kh_l") [B; H; D];
  vn ← narrow thirds (n "vn_l") 1 2 1;
  vh ← view_of vn (n "vh_l") [B; H; D];
  f_a ← p "f_a";
  f_mid ← linear h f_a None None (n "f_a_l") None;
  f_b ← p "f_b";
  f_b_out ← linear f_mid f_b None None (n "f_b_l") None;
  f ← view_of f_b_out (n "f_l") [B; H; D];
  b_proj ← p "b_proj";
  b_row ← linear h b_proj None None (n "b_proj_l") None;
  g_a ← p "g_a";
  g_mid ← linear h g_a None None (n "g_a_l") None;
  g_b ← p "g_b";
  g_b_out ← linear g_mid g_b None None (n "g_b_l") None;
  gate ← view_of g_b_out (n "gate_l") [B; H; D];
  dt_bias ← p "dt_bias"; A_log ← p "A_log";
  scale ← lift (inv_sqrt D);
  '(attn, ssm_post) ← kda_delta ssm_state qh kh vh f b_row dt_bias A_log i scale (gl_linear_lower_bound cfg);
  o_norm ← p "o_norm";
  on ← rms_norm_gated attn gate o_norm eps "sigmoid" None (n "o_norm_l");
  on_flat ← view_of on (n "on_flat_l") [B; qkv_dim cfg];
  o_proj ← p "o_proj";
  body ← linear on_flat o_proj None None (n "o_proj_l") None;
  streams ← mhc_post streams body post_a comb_a i;
  mret (streams, conv_post, ssm_post).

(** The dense and the sparse body of the feed-forward sublayer. *)
Definition dense_mlp (args : Glm53ModelArgs) (i : Z) (h2 : TensorValue) : R TensorValue :=
  let p name := lift (param (ga_params args) name i) in
  let n prefix := prefix +:+ fmt i in
  gate_proj ← p "gate_proj";
  g ← linear h2 gate_proj None None (n "mlp_gate_l") None;
  up_proj ← p "up_proj";
  u ← linear h2 up_proj None None (n "mlp_up_l") None;
  act ← swiglu g u None (n "mlp_act_l");
  down_proj ← p "down_proj";
  linear act down_proj None None (n "mlp_down_l") None.

Definition sparse_mlp (args : Glm53ModelArgs) (cfg : Glm53Config) (i : Z) (h2 : TensorValue) : R TensorValue :=
  let p name := lift (param (ga_params args) name i) in
  let n prefix := prefix +:+ fmt i in
  router_w ← p "router_w";
  route_ids ← lift (seq_get (ga_route_ids args) i);
  route_weights ← lift (seq_get (ga_route_weights args) i);
  router_bias ← p "router_bias";
  '(ids, weights) ← moe_route h2 router_w route_ids route_weights "learned" "sigmoid_noaux_tc"
                      (Some (gl_num_experts_per_tok cfg)) (gl_routed_scaling_factor cfg) (Some router_bias)
                      (gl_n_group cfg) (gl_topk_group cfg) (gl_norm_topk_prob cfg) None None (n "moe_route_l");
  expert_gate_up ← p "expert_gate_up"; expert_down ← p "expert_down";
  partials ← moe_expert h2 expert_gate_up expert_down ids None (Some (gl_swiglu_limit cfg)) (n "moe_expert_l");
  shared_gate ← p "shared_gate";
  sg ← linear h2 shared_gate None None (n "sh_gate_l") None;
  shared_up ← p "shared_up";
  su ← linear h2 shared_up None None (n "sh_up_l") None;
  act ← swiglu sg su None (n "sh_act_l");
  shared_down ← p "shared_down";
  sh_body ← linear act shared_down None None (n "sh_down_l") None;
  moe_combine partials weights (Some sh_body) None (n "moe_combine_l").

Definition ffn_sublayer (args : Glm53ModelArgs) (cfg : Glm53Config) (i : Z) (streams : TensorValue) : R TensorValue :=
  let p name := lift (param (ga_params args) name i) in
  let eps := gl_rms_norm_eps cfg in
  hc_ffn_fn ← p "hc_ffn_fn"; hc_ffn_base ← p "hc_ffn_base"; hc_ffn_scale ← p "hc_ffn_scale";
  '(h_in2, post_f, comb_f) ← mhc_pre streams hc_ffn_fn hc_ffn_base hc_ffn_scale (i + 100)
                               (gl_hc_sinkhorn_iters cfg) (gl_hc_eps cfg) eps;
  ln2 ← p "ln2";
  h2 ← rms_norm h_in2 ln2 eps None ("ln2_l" +:+ fmt i);
  kind ← lift (seq_get (gl_mlp_layer_types cfg) i);
  body ← (if decide (kind = "dense"%string) then dense_mlp args i h2 else sparse_mlp args cfg i h2);
  mhc_post streams body post_f comb_f (i + 100).

(** One turn of the loop: the streams and the pool lists of the arguments,
    whose entries the layer replaces. *)
Definition glm_layer (args : Glm53ModelArgs) (cfg : Glm53Config)
    (st : TensorValue * list TensorValue * list TensorValue) (i : Z)
    : R (TensorValue * list TensorValue * list TensorValue) :=
  let '(streams, conv_states, ssm_states) := st in
  conv_state ← lift (seq_get conv_states i);
  ssm_state ← lift (seq_get ssm_states i);
  '(streams, conv_post, ssm_post) ← attention_sublayer args cfg i streams conv_state ssm_state;
  streams ← ffn_sublayer args cfg i streams;
  mret (streams, <[Z.to_nat i := conv_post]> conv_states, <[Z.to_nat i := ssm_post]> ssm_states).

Definition build_glm53_forward (args : Glm53ModelArgs) (cfg : Glm53Config) : R TensorValue :=
  '(streams, _, _) ← for_m (glm_layer args cfg) (ga_streams_in args, ga_conv_state args, ga_ssm_state args)
                       (zrange (gl_num_hidden_layers cfg));
  streams_flat ← view_of streams "streams_flat" [ga_batch args; gl_hc_mult cfg * gl_hidden_size cfg];
  head ← linear streams_flat (ga_head_mean args) None None "hc_head_mean" None;
  rms_norm head (ga_final_norm args) (gl_rms_norm_eps cfg) None "final_norm".

(** ** What the body records *)
Definition args_tensors (args : Glm53ModelArgs) : list TensorValue :=
  [ga_head_mean args; ga_final_norm args] ++ ga_route_ids args ++ ga_route_weights args
  ++ mjoin (snd <$> ga_params args).

Definition all_tensors (args : Glm53ModelArgs) : list TensorValue :=
  ([ga_streams_in args] ++ ga_conv_state args ++ ga_ssm_state args) ++ args_tensors args.

Lemma param_elem (ps : params) (name : string) (i : Z) (tv : TensorValue) :
  param ps name i = Ok tv → tv ∈ mjoin (snd <$> ps).
Proof.
  unfold param. intros H. destruct (dict_get ps name) as [l|] eqn:Ed; [|done]. cbn in H.
  apply list_elem_of_join. exists l. split; [by apply seq_get_elem in H|].
  apply list_elem_of_fmap. exists (name, l). split; [done|by apply dict_get_elem].
Qed.

(** A parameter of the layer. *)
Ltac body_param :=
  lazymatch goal with
  | |- follows _ _ _ _ (lift (param _ _ _) ≫= _) _ =>
      let Hx := fresh "Hx" in apply follows_lift; intros ? Hx; apply param_elem in Hx
  end.
Ltac glm_steps := repeat first [body_param|body_item|body_step].

Definition attention_kinds : list string :=
  ["mhc_pre"; "rms_norm"; "linear"; "gdn_conv"; "linear"; "linear"; "linear"; "linear"; "linear"; "kda_delta";
   "rms_norm_gated"; "linear"; "mhc_post"].
Definition dense_kinds : list string := ["linear"; "linear"; "swiglu"; "linear"].
Definition sparse_kinds : list string :=
  ["moe_route"; "moe_expert"; "linear"; "linear"; "swiglu"; "linear"; "moe_combine"].
Definition ffn_kinds (dense : bool) : list string :=
  ["mhc_pre"; "rms_norm"]%string ++ (if dense then dense_kinds else sparse_kinds) ++ ["mhc_post"%string].

Section sublayers.
Context (args : Glm53ModelArgs) (cfg : Glm53Config) (i : Z).

Lemma glm_attention_sublayer_follows (streams conv_state ssm_state : TensorValue) :
  body ([streams; conv_state; ssm_state] ++ args_tensors args) attention_kinds
    (attention_sublayer args cfg i streams conv_state ssm_state) (λ scs, [scs.1.1; scs.1.2; scs.2]).
Proof. unfold attention_sublayer, args_tensors. body_start; [glm_steps|reflexivity]. Qed.

Lemma dense_mlp_follows (h2 : TensorValue) :
  body (h2 :: args_tensors args) dense_kinds (dense_mlp args i h2) (λ tv, [tv]).
Proof. unfold dense_mlp, args_tensors. body_start; [glm_steps|reflexivity]. Qed.

Lemma sparse_mlp_follows (h2 : TensorValue) :
  body (h2 :: args_tensors args) sparse_kinds (sparse_mlp args cfg i h2) (λ tv, [tv]).
Proof. unfold sparse_mlp, args_tensors. body_start; [glm_steps|reflexivity]. Qed.
End sublayers.

Definition dense_layer (cfg : Glm53Config) (i : Z) : bool :=
  bool_decide (seq_get (gl_mlp_layer_types cfg) i = Ok "dense"%string).
Definition layer_kinds (cfg : Glm53Config) (i : Z) : list string :=
  attention_kinds ++ ffn_kinds (dense_layer cfg i).

Lemma ffn_sublayer_follows (args : Glm53ModelArgs) (cfg : Glm53Config) (i : Z) (streams : TensorValue) :
  body (streams :: args_tensors args) (ffn_kinds (dense_layer cfg i)) (ffn_sublayer args cfg i streams) (λ tv, [tv]).
Proof.
  unfold ffn_sublayer, dense_layer, ffn_kinds. body_start.
  - unfold args_tensors. repeat first [body_param|body_step].
    match goal with H : seq_get (gl_mlp_layer_types cfg) i = Ok ?k |- _ => rename k into kind, H into Hkind end.
    eapply (follows_bind _ _ _ (if dense_layer cfg i then dense_kinds else sparse_kinds)).
    + unfold dense_layer. rewrite Hkind. case_decide as Ek.
      * rewrite bool_decide_true by congruence.
        eapply follows_conv; [apply dense_mlp_follows|known_subset|reflexivity].
      * rewrite bool_decide_false by congruence.
        eapply follows_conv; [apply sparse_mlp_follows|known_subset|reflexivity].
    + intros h. cbn [app]. body_step.
  - reflexivity.
Qed.

(** The streams and the pools of the loop. *)
Definition carried (st : TensorValue * list TensorValue * list TensorValue) : list TensorValue :=
  st.1.1 :: st.1.2 ++ st.2.

Lemma elem_of_replaced (l : list TensorValue) (j : nat) (v tv : TensorValue) :
  tv ∈ <[j:=v]> l → tv = v ∨ tv ∈ l.
Proof.
  intros [k Hk]%list_elem_of_lookup. apply list_lookup_insert_Some in Hk.
  destruct Hk as [(_ & -> & _)|[_ Hk]]; [by left|right]. by eapply list_elem_of_lookup_2.
Qed.

Lemma glm_layer_follows (args : Glm53ModelArgs) (cfg : Glm53Config)
    (st : TensorValue * list TensorValue * list TensorValue) (i : Z) :
  body (carried st ++ args_tensors args) (layer_kinds cfg i) (glm_layer args cfg st i) carried.
Proof.
  destruct st as [[streams convs] ssms]. unfold glm_layer, layer_kinds, carried. cbn [fst snd].
  apply follows_lift. intros conv Hconv%seq_get_elem. apply follows_lift. intros ssm Hssm%seq_get_elem.
  eapply follows_bind.
  - eapply follows_conv; [apply glm_attention_sublayer_follows|..|reflexivity].
    apply Forall_app. split.
    + cbn [app]. known_tensors.
    + apply Forall_forall. intros tv Htv. rewrite !elem_of_app. by right.
  - intros [[s2 conv_post] ssm_post]. cbn [fst snd app]. rewrite <- (app_nil_r (ffn_kinds _)).
    eapply follows_bind; [eapply follows_conv; [apply ffn_sublayer_follows|known_subset|reflexivity]|].
    intros s3. apply follows_ret. apply Forall_forall. intros tv. cbn [fst snd app].
    pose proof (elem_of_replaced convs (Z.to_nat i) conv_post tv).
    pose proof (elem_of_replaced ssms (Z.to_nat i) ssm_post tv).
    repeat first [rewrite elem_of_app|rewrite elem_of_cons|rewrite elem_of_nil]. tauto.
Qed.

Definition forward_kinds (cfg : Glm53Config) : list string :=
  mjoin (layer_kinds cfg <$> zrange (gl_num_hidden_layers cfg)) ++ ["linear"; "rms_norm"]%string.

Lemma glm53_forward_follows (args : Glm53ModelArgs) (cfg : Glm53Config) :
  body (all_tensors args) (forward_kinds cfg) (build_glm53_forward args cfg) (λ tv, [tv]).
Proof.
  unfold build_glm53_forward, forward_kinds. eapply follows_bind.
  - eapply (follows_layers _ _ (args_tensors args) _ (layer_kinds cfg) carried); [|known_subset].
    intros st i _. apply glm_layer_follows.
  - intros [[streams convs] ssms]. unfold all_tensors, args_tensors, carried. cbn [fst snd].
    body_start; [glm_steps|reflexivity].
Qed.

Lemma ext_layers_setup (known : list TensorValue) (w : Glm53Weights) (L : Z) (attribute prefix : string)
    (l : layout) :
  setup known (ext_layers w L attribute prefix l) (λ tvs, tvs).
Proof.
  eapply follows_gives; [apply (setup_map _ _ (λ tv, [tv])); intros i|apply join_singles].
  do 3 (apply setup_lift; intros ? _). apply setup_next_external.
Qed.

Lemma ext_params_setup (known : list TensorValue) (w : Glm53Weights) (L : Z) (table : list Param) :
  setup known (ext_params w L table) (λ ps, mjoin (snd <$> ps)).
Proof.
  unfold ext_params. change known with (mjoin (snd <$> ([] : params)) ++ known) at 1.
  apply (setup_for known _ (λ ps : params, mjoin (snd <$> ps))). intros ps p.
  eapply setup_bind; [apply ext_layers_setup|intros tvs]. apply follows_ret. apply Forall_forall. intros tv.
  intros (l & Htv & Hl)%list_elem_of_join. apply elem_of_app.
  destruct (dict_set_snd _ _ _ _ Hl) as [->|Hps]; [by left|right]. apply elem_of_app. left.
  apply list_elem_of_join. by exists l.
Qed.

Lemma register_pools_setup (known : list TensorValue) (cfg : Glm53Config) (B i : Z) :
  setup known (register_pools cfg B i) (λ cs, [cs.1; cs.2]).
Proof. do 2 (eapply setup_bind; [apply setup_next_external|intros ?]). apply follows_ret. known_subset. Qed.

Lemma glm53_args_setup (known : list TensorValue) (cfg : Glm53Config) (w : Glm53Weights) (B : Z) :
  setup known (new_Glm53ModelArgs cfg w B) all_tensors.
Proof.
  unfold new_Glm53ModelArgs. eapply setup_bind; [apply setup_set_ids|intros ?].
  eapply setup_bind; [apply setup_next_external|intros streams].
  eapply setup_bind; [apply setup_map; intros i; apply register_pools_setup|intros pools].
  eapply setup_bind; [apply ext_params_setup|intros ps].
  eapply setup_bind; [apply setup_next_external|intros mean]. do 2 (apply setup_lift; intros ? _).
  eapply setup_bind; [apply setup_next_external|intros norm].
  do 2 (eapply setup_bind; [apply setup_map; intros i; apply setup_next_external|intros ?]).
  apply follows_ret. rewrite !join_singles. apply Forall_forall. intros tv. cbn.
  repeat first [rewrite elem_of_app|rewrite elem_of_cons|rewrite elem_of_nil].
  pose proof (join_pairs pools tv). tauto.
Qed.
