(* ===== verification/ModelGlm53Spine.v ===== *)
(** * The GLM-5.3 spine (compiler/model_glm53.py)

    The slice of the decode step that chains the attention sublayers of the
    layers through the streams, over state pools behind a slot table. *)

From S2P Require Import Prelude Indexing OperatorIR Contracts TaskIR LoweringsCommon Operands.
From S2P Require Import Capture CaptureUpdates CaptureDense CaptureAttention CaptureRecurrent.
From S2P Require Import Declared DeclaredState Captured Frontend ModelGlm53.
Local Open Scope Z_scope.

(** ** External tensors *)
Definition PARAMS (cfg : Glm53Config) : list Param :=
  [same_name "hc_attn_fn" "hc_a_fn_" Same; same_name "hc_attn_base" "hc_a_base_" Same;
   same_name "hc_attn_scale" "hc_a_scale_" Same; same_name "ln1" "ln1_" Same;
   same_name "qkv_proj" "qkv_proj_" Transposed; mk_param "taps" "conv_w" "taps_" Transposed;
   same_name "f_a" "f_a_" Transposed; same_name "f_b" "f_b_" Transposed; same_name "b_proj" "b_proj_" Transposed;
   same_name "dt_bias" "dt_bias_" (Reshaped (heads_of cfg)); same_name "A_log" "A_log_" Same;
   same_name "g_a" "g_a_" Transposed; same_name "g_b" "g_b_" Transposed; same_name "o_norm" "o_norm_" Same;
   same_name "o_proj" "o_proj_" Transposed].

Record Glm53KdaSpineArgs : Type := mk_Glm53KdaSpineArgs {
  sp_batch : Z;
  sp_slots : Z;
  sp_streams_in : TensorValue;
  sp_cache_indices : TensorValue;
  sp_conv_pool : list TensorValue;
  sp_ssm_pool : list TensorValue;
  sp_params : params
}.

Definition register_pools (cfg : Glm53Config) (slots i : Z) : M Session (TensorValue * TensorValue) :=
  let D := gl_linear_head_dim cfg in
  cp ← next_external ("spine_conv_pool_l" +:+ fmt i) [slots; gl_linear_conv_kernel_dim cfg - 1; conv_dim cfg] F32;
  sp ← next_external ("spine_ssm_pool_l" +:+ fmt i) [slots; gl_linear_num_heads cfg; D; D] F32;
  mret (cp, sp).

Definition new_Glm53KdaSpineArgs (cfg : Glm53Config) (w : Glm53Weights) (B : Z) (slots : option Z)
    : M Session Glm53KdaSpineArgs :=
  let L := gl_num_hidden_layers cfg in
  let slots := default B slots in
  _ ← guard_m (0 <=? slots) (ValueError "spine slots must be >= 0");
  _ ← set_ids 2000 200000;
  streams_in ← next_external "spine_streams_in" [B; gl_hc_mult cfg; gl_hidden_size cfg] F32;
  cache_indices ← next_external "spine_cache_indices" [B] I32;
  pools ← map_m (register_pools cfg slots) (zrange L);
  ps ← ext_params w L (PARAMS cfg);
  mret (mk_Glm53KdaSpineArgs B slots streams_in cache_indices pools.*1 pools.*2 ps).

(** ** The body *)

(** One layer: the new streams and the views of the pools after the update. *)
Definition spine_sublayer (args : Glm53KdaSpineArgs) (cfg : Glm53Config) (i : Z)
    (streams conv_pool ssm_pool : TensorValue) : R (TensorValue * TensorValue * TensorValue) :=
  let B := sp_batch args in let H := gl_linear_num_heads cfg in let D := gl_linear_head_dim cfg in
  let p name := lift (param (sp_params args) name i) in
  let n prefix := prefix +:+ fmt i in
  let eps := gl_rms_norm_eps cfg in
  hc_attn_fn ← p "hc_attn_fn"; hc_attn_base ← p "hc_attn_base"; hc_attn_scale ← p "hc_attn_scale";
  '(h_in, post_a, comb_a) ← mhc_pre streams hc_attn_fn hc_attn_base hc_attn_scale i (gl_hc_sinkhorn_iters cfg)
                              (gl_hc_eps cfg) eps;
  ln1 ← p "ln1";
  h ← rms_norm h_in ln1 eps None (n "spine_ln1_l");
  qkv_proj ← p "qkv_proj";
  mixed ← linear h qkv_proj None None (n "spine_qkv_l") None;
  f_a ← p "f_a";
  f_mid ← linear h f_a None None (n "spine_f_a_l") None;
  f_b ← p "f_b";
  f_out ← linear f_mid f_b None None (n "spine_f_b_l") None;
  f_raw ← view_of f_out (n "spine_f_l") [B; H; D];
  b_proj ← p "b_proj";
  b_raw ← linear h b_proj None None (n "spine_b_l") None;
  g_a ← p "g_a";
  g_mid ← linear h g_a None None (n "spine_g_a_l") None;
  g_b ← p "g_b";
  g_out ← linear g_mid g_b None None (n "spine_g_b_l") None;
  g_raw ← view_of g_out (n "spine_g_l") [B; H; D];
  taps ← p "taps"; dt_bias ← p "dt_bias"; A_log ← p "A_log"; o_norm ← p "o_norm";
  scale ← lift (inv_sqrt D);
  '(fused, conv_post, ssm_post) ← kda_fused_decode conv_pool ssm_pool (sp_cache_indices args) mixed f_raw b_raw g_raw
                                    taps dt_bias A_log o_norm i scale eps (gl_linear_lower_bound cfg);
  flat ← view_of fused (n "spine_kda_flat_l") [B; qkv_dim cfg];
  o_proj ← p "o_proj";
  body ← linear flat o_proj None None (n "spine_o_proj_l") None;
  streams ← mhc_post streams body post_a comb_a i;
  mret (streams, conv_post, ssm_post).

Definition spine_layer (args : Glm53KdaSpineArgs) (cfg : Glm53Config)
    (st : TensorValue * list TensorValue * list TensorValue) (i : Z)
    : R (TensorValue * list TensorValue * list TensorValue) :=
  let '(streams, conv_pools, ssm_pools) := st in
  conv_pool ← lift (seq_get conv_pools i);
  ssm_pool ← lift (seq_get ssm_pools i);
  '(streams, conv_post, ssm_post) ← spine_sublayer args cfg i streams conv_pool ssm_pool;
  mret (streams, <[Z.to_nat i := conv_post]> conv_pools, <[Z.to_nat i := ssm_post]> ssm_pools).

Definition build_glm53_kda_spine_forward (args : Glm53KdaSpineArgs) (cfg : Glm53Config) : R TensorValue :=
  '(streams, _, _) ← for_m (spine_layer args cfg) (sp_streams_in args, sp_conv_pool args, sp_ssm_pool args)
                       (zrange (gl_num_hidden_layers cfg));
  mret streams.

(** ** What the spine records *)
Definition args_tensors (args : Glm53KdaSpineArgs) : list TensorValue :=
  sp_cache_indices args :: mjoin (snd <$> sp_params args).
Definition all_tensors (args : Glm53KdaSpineArgs) : list TensorValue :=
  carried (sp_streams_in args, sp_conv_pool args, sp_ssm_pool args) ++ args_tensors args.

Definition layer_kinds : list string :=
  ["mhc_pre"; "rms_norm"; "linear"; "linear"; "linear"; "linear"; "linear"; "linear"; "kda_fused_decode"; "linear";
   "mhc_post"].

Lemma spine_sublayer_follows (args : Glm53KdaSpineArgs) (cfg : Glm53Config) (i : Z)
    (streams conv_pool ssm_pool : TensorValue) :
  body ([streams; conv_pool; ssm_pool] ++ args_tensors args) layer_kinds
    (spine_sublayer args cfg i streams conv_pool ssm_pool) (λ scs, [scs.1.1; scs.1.2; scs.2]).
Proof. unfold spine_sublayer, args_tensors. body_start; [glm_steps|reflexivity]. Qed.

Lemma spine_layer_follows (args : Glm53KdaSpineArgs) (cfg : Glm53Config)
    (st : TensorValue * list TensorValue * list TensorValue) (i : Z) :
  body (carried st ++ args_tensors args) layer_kinds (spine_layer args cfg st i) carried.
Proof.
  destruct st as [[streams convs] ssms]. unfold spine_layer, carried. cbn [fst snd].
  apply follows_lift. intros conv Hconv%seq_get_elem. apply follows_lift. intros ssm Hssm%seq_get_elem.
  rewrite <- (app_nil_r layer_kinds). eapply follows_bind.
  - eapply follows_conv; [apply spine_sublayer_follows|..|reflexivity].
    apply Forall_app. split; [cbn [app]; known_tensors|].
    apply Forall_forall. intros tv Htv. rewrite !elem_of_app. by right.
  - intros [[s2 conv_post] ssm_post]. apply follows_ret. apply Forall_forall. intros tv. cbn [fst snd app].
    pose proof (elem_of_replaced convs (Z.to_nat i) conv_post tv).
    pose proof (elem_of_replaced ssms (Z.to_nat i) ssm_post tv).
    repeat first [rewrite elem_of_app|rewrite elem_of_cons|rewrite elem_of_nil]. tauto.
Qed.

Definition forward_kinds (cfg : Glm53Config) : list string :=
  mjoin ((λ _, layer_kinds) <$> zrange (gl_num_hidden_layers cfg)).

Lemma spine_forward_follows (args : Glm53KdaSpineArgs) (cfg : Glm53Config) :
  body (all_tensors args) (forward_kinds cfg) (build_glm53_kda_spine_forward args cfg) (λ tv, [tv]).
Proof.
  unfold build_glm53_kda_spine_forward. rewrite <- (app_nil_r (forward_kinds cfg)). eapply follows_bind.
  - eapply (follows_layers _ _ (args_tensors args) _ (λ _, layer_kinds) carried); [|known_subset].
    intros st i _. apply spine_layer_follows.
  - intros [[streams convs] ssms]. apply follows_ret. unfold carried. cbn [fst snd]. known_tensors.
Qed.

Lemma spine_pools_setup (known : list TensorValue) (cfg : Glm53Config) (slots i : Z) :
  setup known (register_pools cfg slots i) (λ cs, [cs.1; cs.2]).
Proof. do 2 (eapply setup_bind; [apply setup_next_external|intros ?]). apply follows_ret. known_subset. Qed.

Lemma spine_args_setup (known : list TensorValue) (cfg : Glm53Config) (w : Glm53Weights) (B : Z)
    (slots : option Z) :
  setup known (new_Glm53KdaSpineArgs cfg w B slots) all_tensors.
Proof.
  unfold new_Glm53KdaSpineArgs. apply setup_lift. intros _ _.
  eapply setup_bind; [apply setup_set_ids|intros ?].
  do 2 (eapply setup_bind; [apply setup_next_external|intros ?]).
  eapply setup_bind; [apply setup_map; intros i|intros pools].
  { apply spine_pools_setup. }
  eapply setup_bind; [apply ext_params_setup|intros ps].
  apply follows_ret. apply Forall_forall. intros tv. unfold all_tensors, args_tensors. cbn.
  repeat first [rewrite elem_of_app|rewrite elem_of_cons|rewrite elem_of_nil].
  pose proof (join_pairs pools tv). tauto.
Qed.
