(* ===== verification/Storages.v ===== *)
(** * Storages and scalars of a captured model

    What running a model body can change besides the program: it allocates
    fresh storages, numbered upwards, and it never defines a runtime scalar
    nor registers an external storage.  With the ids the frontends give to
    external tensors this decides whether the two kinds of storages stay
    apart. *)

From S2P Require Import Prelude Indexing OperatorIR Contracts TaskIR LoweringsCommon Operands.
From S2P Require Import Capture CaptureUpdates CaptureDense CaptureAttention CaptureRecurrent.
From S2P Require Import Declared DeclaredState Captured Frontend.
From S2P Require Import ModelGpt2 ModelQwen3 ModelQwen35 ModelDeepseek ModelGlm53 ModelGlm53Spine.
Local Open Scope Z_scope.

(** ** Invariants of a computation, kept also when it raises *)
Definition preserves {St A} (I : St → Prop) (m : M St A) : Prop := ∀ s, I s → I (m s).2.

Section preserves.
Context {St : Type} (I : St → Prop).

Lemma preserves_ret {A} (x : A) : preserves I (mret x).
Proof. by intros s Hs. Qed.
Lemma preserves_lift {A} (x : result A) : preserves I (lift x).
Proof. by intros s Hs. Qed.
Lemma preserves_raise {A} (e : exn) : preserves I (raise e : M St A).
Proof. by intros s Hs. Qed.
Lemma preserves_get : preserves I get_state.
Proof. by intros s Hs. Qed.
Lemma preserves_guard (b : bool) (e : exn) : preserves I (guard_m b e).
Proof. by intros s Hs. Qed.

Lemma preserves_bind {A B} (m : M St A) (f : A → M St B) :
  preserves I m → (∀ x, preserves I (f x)) → preserves I (m ≫= f).
Proof.
  intros Hm Hf s Hs. specialize (Hm s Hs). unfold mbind, M_bind.
  destruct (m s) as [[x|e] s']; [by apply Hf|done].
Qed.

Lemma preserves_for {A B} (f : B → A → M St B) (l : list A) :
  (∀ x a, preserves I (f x a)) → ∀ x, preserves I (for_m f x l).
Proof.
  intros Hf. induction l as [|a l IH]; intros x; [apply preserves_ret|]. cbn. by apply preserves_bind.
Qed.

Lemma preserves_map {A B} (f : A → M St B) (l : list A) :
  (∀ a, preserves I (f a)) → preserves I (map_m f l).
Proof.
  intros Hf. induction l as [|a l IH]; [apply preserves_ret|]. cbn.
  apply preserves_bind; [done|intros y]. apply preserves_bind; [done|intros ys]. apply preserves_ret.
Qed.
End preserves.

(** ** What a body may change *)
Record evolves (g g' : OperatorGraph) : Prop := {
  ev_scalars : g_scalars g' = g_scalars g;
  ev_next : g_next_storage g ≤ g_next_storage g';
  ev_fresh : ∀ sid, sid ∈ g_fresh_storages g' ↔
               sid ∈ g_fresh_storages g ∨ g_next_storage g ≤ sid < g_next_storage g';
  ev_names : ∀ sid, dict_get (g_storage_names g') sid = dict_get (g_storage_names g) sid
               ∨ g_next_storage g ≤ sid < g_next_storage g'
}.

#[export] Instance evolves_preorder : PreOrder evolves.
Proof.
  split.
  - intros g. split; [done|lia| |by left]. intros sid. split; [by left|]. intros [?|?]; [done|lia].
  - intros g1 g2 g3 [S1 N1 F1 M1] [S2 N2 F2 M2]. split; [by rewrite S2|lia| |].
    + intros sid. rewrite F2, F1. split; [intros [[?|?]|?]; [by left|right; lia..]|].
      intros [?|?]; [by left; left|]. destruct (decide (sid < g_next_storage g2)); [left; right|right]; lia.
    + intros sid. destruct (M2 sid) as [->|?]; [destruct (M1 sid) as [->|?]; [by left|right; lia]|right; lia].
Qed.

(** The recorder stays one that a body may reach from the graph [g]. *)
Definition from_graph (g : OperatorGraph) (r : Recorder) : Prop := evolves g (rb_graph r).
Abbreviation evolving m := (∀ g, preserves (from_graph g) m).

Lemma evolving_on_graph {A} (m : M OperatorGraph A) :
  (∀ g, evolves g (m g).2) → evolving (on_graph m).
Proof.
  intros Hm g r Hr. unfold from_graph, on_graph in *. specialize (Hm (rb_graph r)).
  destruct (m (rb_graph r)) as [x g']. cbn in *. by etrans.
Qed.

Lemma evolving_modify (f : Recorder → Recorder) : (∀ r, rb_graph (f r) = rb_graph r) → evolving (modify f).
Proof. intros Hf g r Hr. unfold from_graph, modify. cbn. by rewrite Hf. Qed.

Lemma add_tensor_evolves (name : string) (shape : list Z) (dtype : DType) (sid : Z) (strides : list Z)
    (offset : Z) (vl : option ValidLength) (g : OperatorGraph) :
  evolves g (add_tensor name shape dtype sid strides offset vl g).2.
Proof.
  unfold add_tensor. destruct (dict_mem _ _); [done|]. destruct (existsb _ _); [done|]. cbn.
  split; cbn; [done|lia| |by left]. intros s. split; [by left|]. intros [?|?]; [done|lia].
Qed.

Lemma new_storage_evolves (name : string) (n : Z) (g : OperatorGraph) : evolves g (new_storage name n g).2.
Proof.
  split; cbn; [done|lia| |].
  - intros s. rewrite elem_of_union, elem_of_singleton. split; intros [?|?]; auto; [right|left]; lia.
  - intros s. rewrite dict_get_set. case_decide; [right; lia|by left].
Qed.

Lemma record_evolves (kind : string) (inputs outputs : list string) (attributes : attrs)
    (reads writes : list Region) (loc : string) (g : OperatorGraph) :
  evolves g (record kind inputs outputs attributes reads writes loc g).2.
Proof. split; cbn; [done|lia| |by left]. intros s. split; [by left|]. intros [?|?]; [done|lia]. Qed.

Create HintDb evolving.
#[export] Hint Resolve preserves_ret preserves_lift preserves_raise preserves_get preserves_guard
  add_tensor_evolves new_storage_evolves record_evolves : evolving.

Ltac evolving_steps :=
  intros ?g;
  repeat first
    [ solve [auto with evolving]
    | apply preserves_bind; [|intros ?]
    | apply preserves_for; intros ? ?
    | apply evolving_on_graph; intros ?; solve [auto with evolving]
    | lazymatch goal with
      | |- preserves _ (match ?x with _ => _ end) => destruct x
      | |- preserves _ (let '_ := ?x in _) => destruct x
      end ].

Lemma evolving_get_graph : evolving get_graph.
Proof. by intros g r Hr. Qed.
Lemma evolving_suffix : evolving op_suffix.
Proof. by intros g r Hr. Qed.
Lemma evolving_bump : evolving bump_counter.
Proof. by apply evolving_modify. Qed.
#[export] Hint Resolve evolving_get_graph evolving_suffix evolving_bump : evolving.

Lemma evolving_fresh_buffer (name : string) (shape : list Z) (dtype : DType) : evolving (fresh_buffer name shape dtype).
Proof. unfold fresh_buffer. evolving_steps. Qed.
Lemma evolving_record_op (kind : string) (inputs outputs : list TensorValue) (attributes : attrs)
    (reads writes : list Region) (loc : string) : evolving (record_op kind inputs outputs attributes reads writes loc).
Proof. unfold record_op. evolving_steps. Qed.
Lemma evolving_view_of (base : TensorValue) (name : string) (shape : list Z) : evolving (view_of base name shape).
Proof. unfold view_of, add_view. evolving_steps. Qed.
Lemma evolving_narrow (base : TensorValue) (name : string) (axis start len : Z) : evolving (narrow base name axis start len).
Proof. unfold narrow. evolving_steps. Qed.
Lemma evolving_transpose_view (w : TensorValue) (name : option string) : evolving (transpose_view w name).
Proof. unfold transpose_view, add_view. evolving_steps. Qed.
Lemma evolving_require_position (position : Position) : evolving (require_position position).
Proof. unfold require_position. evolving_steps. Qed.
Lemma evolving_valid_plus_one (position : Position) : evolving (valid_plus_one position).
Proof. unfold valid_plus_one, require_position. evolving_steps. Qed.
Lemma evolving_post_view (prefix : string) (base : TensorValue) (valid : option ValidLength) :
  evolving (post_view prefix base valid).
Proof. unfold post_view. evolving_steps. Qed.
#[export] Hint Resolve evolving_fresh_buffer evolving_record_op evolving_view_of evolving_narrow
  evolving_transpose_view evolving_require_position evolving_valid_plus_one evolving_post_view : evolving.

(** ** Every operation of the recording interface *)
Lemma embedding_evolving ids token position_emb position out : evolving (embedding ids token position_emb position out).
Proof. unfold embedding, out_or_fresh, out_or_fresh_as, dim. evolving_steps. Qed.
Lemma layer_norm_evolving x gamma beta eps out name : evolving (layer_norm x gamma beta eps out name).
Proof. unfold layer_norm, out_or_fresh, out_or_fresh_as, dim. evolving_steps. Qed.
Lemma linear_evolving x w b out name grouped_heads : evolving (linear x w b out name grouped_heads).
Proof. unfold linear, out_or_fresh, out_or_fresh_as, dim. evolving_steps. Qed.
Lemma linear_fp8_evolving x w scale out name quant_block : evolving (linear_fp8 x w scale out name quant_block).
Proof. unfold linear_fp8, out_or_fresh, out_or_fresh_as, dim. evolving_steps. Qed.
Lemma gelu_evolving x out name : evolving (gelu x out name).
Proof. unfold gelu, out_or_fresh, out_or_fresh_as, dim. evolving_steps. Qed.
Lemma add_evolving a b name : evolving (add a b name).
Proof. unfold add, out_or_fresh, out_or_fresh_as, dim. evolving_steps. Qed.
Lemma rms_norm_evolving x gamma eps out name : evolving (rms_norm x gamma eps out name).
Proof. unfold rms_norm, out_or_fresh, out_or_fresh_as, dim. evolving_steps. Qed.
Lemma rms_norm_gated_evolving x gate gamma eps activation out name : evolving (rms_norm_gated x gate gamma eps activation out name).
Proof. unfold rms_norm_gated, out_or_fresh, out_or_fresh_as, dim. evolving_steps. Qed.
Lemma rope_evolving x cos_table sin_table position layer which rotary_dim convention : evolving (rope x cos_table sin_table position layer which rotary_dim convention).
Proof. unfold rope, out_or_fresh, out_or_fresh_as, dim. evolving_steps. Qed.
Lemma swiglu_evolving gate up out name : evolving (swiglu gate up out name).
Proof. unfold swiglu, out_or_fresh, out_or_fresh_as, dim. evolving_steps. Qed.
Lemma moe_route_evolving x router_w ids weights mode score_fn top_k routed_scaling_factor bias n_group topk_group norm_topk_prob tid2eid token_ids name : evolving (moe_route x router_w ids weights mode score_fn top_k routed_scaling_factor bias n_group topk_group norm_topk_prob tid2eid token_ids name).
Proof. unfold moe_route, out_or_fresh, out_or_fresh_as, dim. evolving_steps. Qed.
Lemma moe_expert_evolving x gate_up down ids out swiglu_limit name : evolving (moe_expert x gate_up down ids out swiglu_limit name).
Proof. unfold moe_expert, out_or_fresh, out_or_fresh_as, dim. evolving_steps. Qed.
Lemma moe_combine_evolving partials weights shared out name : evolving (moe_combine partials weights shared out name).
Proof. unfold moe_combine, out_or_fresh, out_or_fresh_as, dim. evolving_steps. Qed.
Lemma indexer_scores_evolving q entries mix_w out name : evolving (indexer_scores q entries mix_w out name).
Proof. unfold indexer_scores, out_or_fresh, out_or_fresh_as, dim. evolving_steps. Qed.
Lemma index_topk_evolving scores valid_counts k idx bias name : evolving (index_topk scores valid_counts k idx bias name).
Proof. unfold index_topk, out_or_fresh, out_or_fresh_as, dim. evolving_steps. Qed.
Lemma cache_append_evolving k_cache v_cache k_new v_new position layer : evolving (cache_append k_cache v_cache k_new v_new position layer).
Proof. unfold cache_append, out_or_fresh, out_or_fresh_as, dim. evolving_steps. Qed.
Lemma attention_scores_evolving q k_cache position scale layer kv_heads : evolving (attention_scores q k_cache position scale layer kv_heads).
Proof. unfold attention_scores, out_or_fresh, out_or_fresh_as, dim. evolving_steps. Qed.
Lemma softmax_evolving scores position layer : evolving (softmax scores position layer).
Proof. unfold softmax, out_or_fresh, out_or_fresh_as, dim. evolving_steps. Qed.
Lemma attention_values_evolving probs v_cache position layer kv_heads gate : evolving (attention_values probs v_cache position layer kv_heads gate).
Proof. unfold attention_values, out_or_fresh, out_or_fresh_as, dim. evolving_steps. Qed.
Lemma cache_append_paged_evolving k_pool v_pool slot_table k_new v_new position layer : evolving (cache_append_paged k_pool v_pool slot_table k_new v_new position layer).
Proof. unfold cache_append_paged, out_or_fresh, out_or_fresh_as, dim. evolving_steps. Qed.
Lemma attention_scores_paged_evolving q k_pool slot_table position scale layer kv_heads : evolving (attention_scores_paged q k_pool slot_table position scale layer kv_heads).
Proof. unfold attention_scores_paged, out_or_fresh, out_or_fresh_as, dim. evolving_steps. Qed.
Lemma attention_values_paged_evolving probs v_pool slot_table position layer kv_heads : evolving (attention_values_paged probs v_pool slot_table position layer kv_heads).
Proof. unfold attention_values_paged, out_or_fresh, out_or_fresh_as, dim. evolving_steps. Qed.
Lemma conjugate_rope_evolving x cos_table sin_table position layer which convention rotary_dim out : evolving (conjugate_rope x cos_table sin_table position layer which convention rotary_dim out).
Proof. unfold conjugate_rope, out_or_fresh, out_or_fresh_as, dim. evolving_steps. Qed.
Lemma mla_scores_evolving q latent_pool window_table comp_pool comp_idx sink position scale layer window bias : evolving (mla_scores q latent_pool window_table comp_pool comp_idx sink position scale layer window bias).
Proof. unfold mla_scores, out_or_fresh, out_or_fresh_as, dim. evolving_steps. Qed.
Lemma mla_values_evolving probs latent_pool window_table comp_pool comp_idx position layer window out : evolving (mla_values probs latent_pool window_table comp_pool comp_idx position layer window out).
Proof. unfold mla_values, out_or_fresh, out_or_fresh_as, dim. evolving_steps. Qed.
Lemma compressor_append_evolving entry_pool series_state window gates rms_weight cos sin position m r eps name : evolving (compressor_append entry_pool series_state window gates rms_weight cos sin position m r eps name).
Proof. unfold compressor_append, out_or_fresh, out_or_fresh_as, dim. evolving_steps. Qed.
Lemma gdn_conv_evolving conv_state x w layer : evolving (gdn_conv conv_state x w layer).
Proof. unfold gdn_conv, out_or_fresh, out_or_fresh_as, dim. evolving_steps. Qed.
Lemma mhc_pre_evolving streams fn base scale layer iters eps rms_eps : evolving (mhc_pre streams fn base scale layer iters eps rms_eps).
Proof. unfold mhc_pre, out_or_fresh, out_or_fresh_as, dim. evolving_steps. Qed.
Lemma mhc_post_evolving streams body_out post comb layer : evolving (mhc_post streams body_out post comb layer).
Proof. unfold mhc_post, out_or_fresh, out_or_fresh_as, dim. evolving_steps. Qed.
Lemma gdn_delta_evolving ssm_state q k v z a b a_log dt_bias norm_w layer scale eps : evolving (gdn_delta ssm_state q k v z a b a_log dt_bias norm_w layer scale eps).
Proof. unfold gdn_delta, out_or_fresh, out_or_fresh_as, dim. evolving_steps. Qed.
Lemma kda_delta_evolving ssm_state q k v f b dt_bias A_log layer scale lower_bound : evolving (kda_delta ssm_state q k v f b dt_bias A_log layer scale lower_bound).
Proof. unfold kda_delta, out_or_fresh, out_or_fresh_as, dim. evolving_steps. Qed.
Lemma kda_fused_decode_evolving conv_pool ssm_pool slot_ids qkv_raw f_raw b_raw g_raw taps dt_bias A_log o_norm layer scale eps lower_bound : evolving (kda_fused_decode conv_pool ssm_pool slot_ids qkv_raw f_raw b_raw g_raw taps dt_bias A_log o_norm layer scale eps lower_bound).
Proof. unfold kda_fused_decode, out_or_fresh, out_or_fresh_as, dim. evolving_steps. Qed.
#[export] Hint Resolve embedding_evolving layer_norm_evolving linear_evolving linear_fp8_evolving
  gelu_evolving add_evolving rms_norm_evolving rms_norm_gated_evolving rope_evolving swiglu_evolving
  moe_route_evolving moe_expert_evolving moe_combine_evolving indexer_scores_evolving index_topk_evolving
  cache_append_evolving attention_scores_evolving softmax_evolving attention_values_evolving
  cache_append_paged_evolving attention_scores_paged_evolving attention_values_paged_evolving
  conjugate_rope_evolving mla_scores_evolving mla_values_evolving compressor_append_evolving
  gdn_conv_evolving mhc_pre_evolving mhc_post_evolving gdn_delta_evolving kda_delta_evolving
  kda_fused_decode_evolving : evolving.

(** ** Every model body *)
Lemma gpt2_forward_evolving (args : SymbolicModelArgs) (ids : TensorValue) (position : Position) (cfg : GPT2Config) :
  evolving (build_forward args ids position cfg).
Proof. unfold build_forward, build_transformer_layer. evolving_steps. Qed.

Lemma qwen3_forward_evolving (args : Qwen3ModelArgs) (ids : TensorValue) (position : Position) (cfg : Qwen3Config) :
  evolving (build_qwen3_forward args ids position cfg).
Proof. unfold build_qwen3_forward, qwen3_layer. evolving_steps. Qed.

Lemma qwen35_forward_evolving (args : Qwen35ModelArgs) (ids : TensorValue) (position : Position) (cfg : Qwen35Config) :
  evolving (build_qwen35_forward args ids position cfg).
Proof.
  unfold build_qwen35_forward, hybrid_layer, gdn_layer, fa_layer, fa_paged, fa_dense, mlp. evolving_steps.
Qed.

Lemma deepseek_forward_evolving (args : DeepseekV4ModelArgs) (ids : TensorValue) (position : Position)
    (cfg : DeepseekV4Config) : evolving (build_deepseek_v4_forward args ids position cfg).
Proof.
  unfold build_deepseek_v4_forward, deepseek_layer, ModelDeepseek.attention_sublayer, moe_sublayer. evolving_steps.
Qed.

Lemma glm53_forward_evolving (args : Glm53ModelArgs) (cfg : Glm53Config) : evolving (build_glm53_forward args cfg).
Proof.
  unfold build_glm53_forward, glm_layer, attention_sublayer, ffn_sublayer, dense_mlp, sparse_mlp. evolving_steps.
Qed.

(** ** The ids of external storages *)

(** The names a process has given ids to: the [i]-th name got [SEED + i]. *)
Definition counter_ok (counter : dict string Z) : Prop :=
  NoDup counter.*1 ∧ counter.*2 = (λ i, STORAGE_SEED + i) <$> zrange (Z.of_nat (length counter)).

(** While arguments are built: the graph holds external storages only, with
    ids from [lo] on, and the scalars [sc]. *)
Record external_only (lo : Z) (sc : dict string SymbolicScalar) (g : OperatorGraph) : Prop := {
  eo_fresh : g_fresh_storages g = ∅;
  eo_next : g_next_storage g = 0;
  eo_scalars : g_scalars g = sc;
  eo_names : ∀ sid, is_Some (dict_get (g_storage_names g) sid) → lo ≤ sid
}.

Record registering (lo : Z) (sc : dict string SymbolicScalar) (s : Session) : Prop := {
  rg_graph : external_only lo sc (ss_graph s);
  rg_counter : counter_ok (ss_storage_counter s);
  rg_ids : (ss_ids s).1 < (ss_ids s).2 → lo ≤ (ss_ids s).1
}.

Lemma counter_ok_nil : counter_ok [].
Proof. split; [constructor|done]. Qed.

Lemma counter_ok_get (counter : dict string Z) (name : string) (sid : Z) :
  counter_ok counter → dict_get counter name = Some sid → STORAGE_SEED ≤ sid.
Proof.
  intros [_ Hv] Hg%dict_get_elem%(list_elem_of_fmap_2 snd). rewrite Hv in Hg.
  apply list_elem_of_fmap in Hg as (i & Hi & Hin%elem_of_zrange). cbn in Hi. lia.
Qed.

Lemma counter_ok_set (counter : dict string Z) (name : string) :
  counter_ok counter → dict_get counter name = None →
  counter_ok (dict_set counter name (STORAGE_SEED + Z.of_nat (length counter))).
Proof.
  intros [Hn Hv] Hg. assert (Hnew : name ∉ counter.*1) by (rewrite <- dict_get_None; done).
  assert (E : dict_set counter name (STORAGE_SEED + Z.of_nat (length counter))
              = counter ++ [(name, STORAGE_SEED + Z.of_nat (length counter))]).
  { clear Hn Hv. revert Hnew. generalize (STORAGE_SEED + Z.of_nat (length counter)) as v. intros v.
    induction counter as [|[k w] d IH]; [done|]. cbn. rewrite elem_of_cons. intros Hne.
    rewrite decide_False by tauto. cbn in IH. f_equal. apply IH; [|tauto].
    cbn in Hg. by rewrite decide_False in Hg by tauto. }
  rewrite E. split.
  - rewrite fmap_app. apply NoDup_app. split_and!; [done|set_solver|apply NoDup_singleton].
  - rewrite fmap_app, length_app, Nat2Z.inj_add. cbn. rewrite zrange_S, fmap_app by lia. by rewrite Hv.
Qed.

(** Two names never share an id, and an id once given is kept. *)
Lemma counter_ok_inj (counter : dict string Z) (n1 n2 : string) (sid : Z) :
  counter_ok counter → dict_get counter n1 = Some sid → dict_get counter n2 = Some sid → n1 = n2.
Proof.
  intros [_ Hv] H1%dict_get_elem H2%dict_get_elem.
  apply list_elem_of_lookup in H1 as [i Hi], H2 as [j Hj].
  assert (Hnd : NoDup counter.*2) by (rewrite Hv; apply NoDup_fmap_2_strong; [intros; lia|apply NoDup_zrange]).
  assert (i = j) as ->; [|congruence].
  by apply (NoDup_lookup _ i j sid Hnd); rewrite list_lookup_fmap, ?Hi, ?Hj.
Qed.

Section registering.
Context (lo : Z) (sc : dict string SymbolicScalar) (Hlo : lo ≤ STORAGE_SEED).

Lemma only_on_graph {A} (m : M OperatorGraph A) :
  (∀ g, external_only lo sc g → external_only lo sc (m g).2) →
  preserves (λ r, external_only lo sc (rb_graph r)) (on_graph m).
Proof using Type.
  intros Hm r Hr. unfold on_graph. specialize (Hm _ Hr). by destruct (m (rb_graph r)).
Qed.

Lemma only_external_tensor (name : string) (shape : list Z) (dtype : DType) (sid : Z) (strides : option (list Z))
    (offset : Z) : lo ≤ sid →
  preserves (λ r, external_only lo sc (rb_graph r)) (external_tensor name shape dtype sid strides offset true).
Proof using Type.
  intros Hsid r Hr. unfold external_tensor. destruct (dict_get (rb_externals r) name) as [tv|].
  { by destruct (_ && _). }
  refine (preserves_bind (λ r, external_only lo sc (rb_graph r)) _ _ _ _ r Hr);
    [|intros _; apply preserves_bind; [|intros tv]].
  - apply only_on_graph. intros g []. split; try done. intros s0. cbn. rewrite dict_get_setdefault.
    case_decide; [by subst|auto].
  - apply only_on_graph. intros g []. unfold add_tensor.
    destruct (dict_mem (g_tensors g) name); [by split|]. by destruct (existsb _ _); split.
  - apply preserves_bind; [by intros r' Hr'|intros _]. by intros r' Hr'.
Qed.

Lemma only_row_positions (name : string) (batch capacity sid : Z) : lo ≤ sid →
  preserves (λ r, external_only lo sc (rb_graph r)) (define_row_positions name batch capacity sid).
Proof using Type.
  intros Hsid. unfold define_row_positions.
  apply preserves_bind; [apply preserves_guard|intros _]. apply preserves_bind; [apply preserves_guard|intros _].
  apply preserves_bind; [by apply only_external_tensor|intros tv].
  apply preserves_bind; [|intros _; apply preserves_ret]. apply only_on_graph. by intros g [].
Qed.

Lemma registering_on_recorder {A} (m : R A) :
  preserves (λ r, external_only lo sc (rb_graph r)) m → preserves (registering lo sc) (on_recorder m).
Proof using Type.
  intros Hm s [Hg Hc Hi]. specialize (Hm _ Hg). unfold on_recorder. by destruct (m (ss_recorder s)).
Qed.

Lemma registering_external (name : string) (shape : list Z) (dtype : DType) (sid : Z) : lo ≤ sid →
  preserves (registering lo sc) (on_recorder (external_tensor name shape dtype sid None 0 true)).
Proof using Type. intros Hsid. by apply registering_on_recorder, only_external_tensor. Qed.

Lemma registering_stable (name : string) (shape : list Z) (dtype : DType) :
  preserves (registering lo sc) (stable_external name shape dtype).
Proof using Hlo.
  intros s Hs. unfold stable_external, stable_storage_id, mbind, M_bind.
  destruct (dict_get (ss_storage_counter s) name) as [sid|] eqn:E.
  - apply registering_external; [|done]. pose proof (counter_ok_get _ _ _ (rg_counter _ _ _ Hs) E). lia.
  - apply registering_external; [lia|]. destruct Hs. split; try done. by apply counter_ok_set.
Qed.

Lemma registering_next (name : string) (shape : list Z) (dtype : DType) :
  preserves (registering lo sc) (next_external name shape dtype).
Proof using Type.
  intros s Hs. unfold next_external, next_id, mbind, M_bind. destruct (ss_ids s) as [next stop] eqn:E.
  destruct (next <? stop) eqn:El; [|done]. zbool. pose proof (rg_ids _ _ _ Hs) as Hi. rewrite E in Hi. cbn in Hi.
  apply registering_external; [by apply Hi|]. destruct Hs. split; try done. cbn. lia.
Qed.

Lemma registering_set_ids (start stop : Z) : lo ≤ start → preserves (registering lo sc) (set_ids start stop).
Proof using Type. intros Hst s []. by split. Qed.
End registering.

Create HintDb registering.
#[export] Hint Resolve preserves_ret preserves_lift preserves_raise preserves_guard
  registering_stable registering_next : registering.

Ltac registering_steps :=
  repeat first
    [ solve [auto with registering]
    | apply preserves_bind; [|intros ?]
    | apply preserves_for; intros ? ?
    | apply preserves_map; intros ?
    | lazymatch goal with
      | |- preserves _ (match ?x with _ => _ end) => destruct x
      | |- preserves _ (let '_ := ?x in _) => destruct x
      end ].

Section frontends.
Context (lo : Z) (sc : dict string SymbolicScalar).

Lemma registering_layer_views (li : Z) (shape_of : string → result (list Z)) (fields : list string) (dtype : DType) :
  lo ≤ STORAGE_SEED → preserves (registering lo sc) (layer_views li shape_of fields dtype).
Proof using Type. intros. unfold layer_views. registering_steps. Qed.
Hint Resolve registering_layer_views : registering.

Lemma gpt2_registering (cfg : GPT2Config) (w : GPT2Weights) :
  lo ≤ STORAGE_SEED → preserves (registering lo sc) (new_SymbolicModelArgs cfg w).
Proof using Type. intros. unfold new_SymbolicModelArgs. registering_steps. Qed.

Lemma qwen3_registering (cfg : Qwen3Config) :
  lo ≤ STORAGE_SEED → preserves (registering lo sc) (new_Qwen3ModelArgs cfg).
Proof using Type. intros. unfold new_Qwen3ModelArgs. registering_steps. Qed.

Lemma qwen35_registering (cfg : Qwen35Config) :
  lo ≤ STORAGE_SEED → preserves (registering lo sc) (new_Qwen35ModelArgs cfg).
Proof using Type. intros. unfold new_Qwen35ModelArgs, ModelQwen35.register_layer. registering_steps. Qed.

Lemma deepseek_registering (cfg : DeepseekV4Config) :
  lo ≤ STORAGE_SEED → preserves (registering lo sc) (new_DeepseekV4ModelArgs cfg).
Proof using Type.
  intros. unfold new_DeepseekV4ModelArgs, ModelDeepseek.register_layer, register_routing. registering_steps.
Qed.

Lemma glm53_registering (cfg : Glm53Config) (w : Glm53Weights) (B : Z) :
  lo ≤ 1000 → preserves (registering lo sc) (new_Glm53ModelArgs cfg w B).
Proof using Type.
  intros. unfold new_Glm53ModelArgs, ModelGlm53.register_pools, ext_params, ext_layers.
  apply preserves_bind; [by apply registering_set_ids|intros ?]. registering_steps.
Qed.
End frontends.

(** ** GLM-5.3: external ids that fresh storages can reach *)

(** Capture of the GLM-5.3 step, in a process that gave no ids yet. *)
Definition capture_glm53 (cfg : Glm53Config) (w : Glm53Weights) (B : Z) : result (Glm53ModelArgs * OperatorGraph) :=
  match new_Glm53ModelArgs cfg w B (mk_session new_recorder [] (0, 0)) with
  | (Ok args, s) => gr ← capture_model (build_glm53_forward args cfg) (Some (ss_recorder s)); Ok (args, gr.1)
  | (Err e, _) => Err e
  end.

Lemma new_session_registering (counter : dict string Z) (lo : Z) :
  counter_ok counter → registering lo [] (mk_session new_recorder counter (0, 0)).
Proof. intros Hc. split; [|done|by cbn; lia]. split; [done..|]. intros sid. cbn. by intros [? ?]. Qed.

Lemma capture_model_evolves {A} (m : R A) (r r' : Recorder) (g : OperatorGraph) :
  evolving m → capture_model m (Some r) = Ok (g, r') → evolves (rb_graph r) g.
Proof.
  intros Hm. unfold capture_model. cbn [default from_option id]. specialize (Hm (rb_graph r) r).
  unfold from_graph in Hm. destruct (m r) as [[x|e] r1]; [|by destruct (is_capture_error e)].
  cbn in *. intros [= <- <-]. by apply Hm.
Qed.

Lemma bind_returns {St A B} (m : M St A) (f : A → M St B) (s s' : St) (y : B) :
  (m ≫= f) s = (Ok y, s') → ∃ x s1, m s = (Ok x, s1) ∧ f x s1 = (Ok y, s').
Proof. unfold mbind, M_bind. destruct (m s) as [[x|e] s1]; [|done]. intros H. by exists x, s1. Qed.

Lemma on_recorder_returns {A} (m : R A) (s s' : Session) (x : A) :
  on_recorder m s = (Ok x, s') → m (ss_recorder s) = (Ok x, ss_recorder s').
Proof. unfold on_recorder. destruct (m (ss_recorder s)). by intros [= -> <-]. Qed.

Lemma external_tensor_id (name : string) (shape : list Z) (dtype : DType) (sid : Z) (strides : option (list Z))
    (offset : Z) (reg : bool) (r r' : Recorder) (tv : TensorValue) :
  external_tensor name shape dtype sid strides offset reg r = (Ok tv, r') → tv_storage_id tv = sid.
Proof.
  unfold external_tensor. destruct (dict_get (rb_externals r) name) as [tv'|].
  { destruct (_ && (tv_storage_id tv' =? sid)) eqn:E; [|done]. zbool. by intros [= <- _]. }
  intros (x & r1 & _ & (tv1 & r2 & Ht & (y & r3 & _ & [= <- _])%bind_returns)%bind_returns)%bind_returns.
  revert Ht. unfold on_graph, add_tensor. destruct (dict_mem (g_tensors (rb_graph r1)) name); [done|].
  destruct (existsb (λ s, s <? 0) _); [done|]. by intros [= <- _].
Qed.

Lemma glm53_streams_id (cfg : Glm53Config) (w : Glm53Weights) (B : Z) (args : Glm53ModelArgs) (s s' : Session) :
  new_Glm53ModelArgs cfg w B s = (Ok args, s') → tv_storage_id (ga_streams_in args) = 1000.
Proof.
  unfold new_Glm53ModelArgs.
  intros (u & s0 & [= _ <-] & (tv & s1 & (sid & s2 & Hid & Ht%on_recorder_returns)%bind_returns & H)%bind_returns)%bind_returns.
  assert (ga_streams_in args = tv) as ->.
  { do 8 (apply bind_returns in H as (? & ? & _ & H)). by injection H as <- _. }
  unfold next_id in Hid. cbn in Hid. injection Hid as <- _. by eapply external_tensor_id.
Qed.

(** GLM-5.3 hands out external storage ids from 1000 on, and fresh
    buffers are numbered from 0: the storage of the residual streams of the
    step is taken for a fresh buffer of the compiler, and would be planned
    over the workspace, exactly when a capture allocates more than 1000 fresh
    buffers. *)
Theorem glm53_streams_collide (cfg : Glm53Config) (w : Glm53Weights) (B : Z) (args : Glm53ModelArgs)
    (graph : OperatorGraph) :
  capture_glm53 cfg w B = Ok (args, graph) →
  tv_storage_id (ga_streams_in args) = 1000
  ∧ (tv_storage_id (ga_streams_in args) ∈ g_fresh_storages graph ↔ 1000 < g_next_storage graph).
Proof.
  unfold capture_glm53. intros H.
  pose proof (glm53_registering 1000 [] cfg w B ltac:(lia) _ (new_session_registering [] 1000 counter_ok_nil)) as Hr.
  destruct (new_Glm53ModelArgs cfg w B _) as [[args'|] s] eqn:E; [|done].
  destruct (capture_model _ _) as [[g r]|] eqn:Ec; [|done]. injection H as <- <-.
  rewrite (glm53_streams_id _ _ _ _ _ _ E). split; [done|]. cbn [snd fst] in *.
  apply capture_model_evolves in Ec as [_ _ Hf _]; [|apply glm53_forward_evolving].
  destruct Hr as [[Hf0 Hn0 _ _] _ _]. unfold ss_graph in *. rewrite Hf, Hf0, Hn0. set_solver by lia.
Qed.

(** Witness: the three default layers stay below. *)
Lemma glm53_streams_collide_witness : ∃ cfg args graph,
  Glm53Config_defaults = Ok cfg ∧ capture_glm53 cfg (random_glm53_weights cfg) 1 = Ok (args, graph)
  ∧ tv_storage_id (ga_streams_in args) ∉ g_fresh_storages graph.
Proof.
  assert (H : match Glm53Config_defaults with
              | Ok cfg => match capture_glm53 cfg (random_glm53_weights cfg) 1 with
                          | Ok (_, g) => g_next_storage g <=? 1000
                          | Err _ => false
                          end
              | Err _ => false
              end = true) by (vm_compute; reflexivity).
  destruct Glm53Config_defaults as [cfg|] eqn:Ec; [|done].
  destruct (capture_glm53 cfg _ 1) as [[args g]|] eqn:E; [|done]. exists cfg, args, g.
  destruct (glm53_streams_collide cfg _ 1 args g E) as [_ Hf]. split_and!; [done|done|]. rewrite Hf. zbool. lia.
Defined.
