(* ===== verification/Compile.v ===== *)
(** * The compile driver (compiler/compile.py, model_adapters.py, codegen_cute.py)

    [compile_model] composes the whole compiler: it picks the frontend of the
    configuration, captures the model body, checks the graph, lowers it,
    schedules it, plans the memory and emits the megakernel.  The emitted
    source is kept as its tables (phases, imports, sizes, workspace layout);
    the fixed text around them carries no decision.  The theorems say what a
    compiled executable guarantees, for every model with an adapter. *)

From S2P Require Import Prelude Indexing OperatorIR Contracts TaskIR SchedulePhase ScheduleStatic.
From S2P Require Import TileDependencies LoweringsCommon Operands Capture Legality Lowerings Runtime Memory.
From S2P Require Import Declared DeclaredState Captured Frontend.
From S2P Require Import ModelGpt2 ModelQwen3 ModelQwen35 ModelDeepseek ModelGlm53 Storages.
Local Open Scope Z_scope.

(** ** Model configurations and their adapters (model_adapters.py) *)
Inductive ModelConfig : Type :=
  | CGpt2 (cfg : GPT2Config)
  | CQwen3 (cfg : Qwen3Config)
  | CQwen35 (cfg : Qwen35Config)
  | CDeepseekV4 (cfg : DeepseekV4Config)
  | CGlm53 (cfg : Glm53Config).

(** The attributes the driver reads.  [Glm53Config] has no adapter, so the
    driver never reads its attributes. *)
Definition config_batch (c : ModelConfig) : Z :=
  match c with
  | CGpt2 cfg => g2_batch cfg | CQwen3 cfg => q3_batch cfg | CQwen35 cfg => q5_batch cfg
  | CDeepseekV4 cfg => d4_batch cfg | CGlm53 _ => 0
  end.
Definition config_capacity (c : ModelConfig) : Z :=
  match c with
  | CGpt2 cfg => g2_cache_capacity cfg | CQwen3 cfg => q3_cache_capacity cfg
  | CQwen35 cfg => q5_cache_capacity cfg | CDeepseekV4 cfg => d4_cache_capacity cfg | CGlm53 _ => 0
  end.
Definition config_layers (c : ModelConfig) : Z :=
  match c with
  | CGpt2 cfg => g2_layers cfg | CQwen3 cfg => q3_layers cfg | CQwen35 cfg => q5_layers cfg
  | CDeepseekV4 cfg => d4_layers cfg | CGlm53 _ => 0
  end.
Definition config_validate (c : ModelConfig) : result unit :=
  match c with
  | CGpt2 cfg => ModelGpt2.validate cfg
  | CQwen3 cfg => ModelQwen3.validate cfg
  | CQwen35 cfg => ModelQwen35.validate cfg
  | CDeepseekV4 cfg => ModelDeepseek.validate cfg
  | CGlm53 _ => Ok tt
  end.

(** [ADAPTERS[type(config)]] with the configuration applied: the arguments,
    the body, and whether every row has its own position. *)
Record ModelAdapter : Type := mk_adapter {
  ad_args : Type;
  ad_arguments : M Session ad_args;
  ad_body : ad_args → TensorValue → Position → R TensorValue;
  ad_row_positions : bool
}.

(** Only the GPT-2 arguments read the weights (their shapes). *)
Definition gpt2_adapter (cfg : GPT2Config) (w : GPT2Weights) : ModelAdapter :=
  mk_adapter _ (new_SymbolicModelArgs cfg w) (λ args ids position, build_forward args ids position cfg) false.
Definition qwen3_adapter (cfg : Qwen3Config) : ModelAdapter :=
  mk_adapter _ (new_Qwen3ModelArgs cfg) (λ args ids position, build_qwen3_forward args ids position cfg) false.
Definition qwen35_adapter (cfg : Qwen35Config) : ModelAdapter :=
  mk_adapter _ (new_Qwen35ModelArgs cfg) (λ args ids position, build_qwen35_forward args ids position cfg) true.
Definition deepseek_adapter (cfg : DeepseekV4Config) : ModelAdapter :=
  mk_adapter _ (new_DeepseekV4ModelArgs cfg)
    (λ args ids position, build_deepseek_v4_forward args ids position cfg) true.

Definition model_adapter (c : ModelConfig) (weights : option GPT2Weights) : result ModelAdapter :=
  match c with
  | CGpt2 cfg => Ok (gpt2_adapter cfg (default (random_weights cfg) weights))
  | CQwen3 cfg => Ok (qwen3_adapter cfg)
  | CQwen35 cfg => Ok (qwen35_adapter cfg)
  | CDeepseekV4 cfg => Ok (deepseek_adapter cfg)
  | CGlm53 _ => Err (TypeError "no compiler adapter")
  end.

(** ** Code generation (codegen_cute.py) *)
Definition TEMPLATE_NAMES : dict string string :=
  foldl (λ d kc, dict_set d (oc_task_kind kc.2) (oc_device_template kc.2)) [] CONTRACTS.

(** [sorted(set(TEMPLATE_NAMES.values()))] *)
Definition template_imports : list string :=
  stable_sort String.le (elements (list_to_set TEMPLATE_NAMES.*2 : gset string)).

(** One row of the static phase table. *)
Record EmittedPhase : Type := mk_emitted {
  em_index : Z;
  em_location : string;
  em_kind : string;
  em_template : string;
  em_task_count : Z;
  em_params : attrs
}.

Record MegakernelSource : Type := mk_source {
  ms_workers_hint : option Z;
  ms_imports : list string;
  ms_num_phases : Z;
  ms_total_tasks : Z;
  ms_threads_per_worker : Z;
  ms_scratch_bytes_per_worker : Z;
  ms_workspace_elements : Z;
  ms_phases : list EmittedPhase;
  ms_workspace_buffers : list (string * Z * Z * Z * Z * bool)
}.

Definition emit_phase (phase : PhasePlan) : result EmittedPhase :=
  fam ← py_index (pp_families phase) 0;
  template ← of_option (KeyError "TEMPLATE_NAMES") (dict_get TEMPLATE_NAMES (tf_kind fam));
  count ← family_task_count fam;
  Ok (mk_emitted (pp_index phase) (op_source_location (tf_op fam)) (tf_kind fam) template count (tf_params fam)).

Definition emit_megakernel_source (schedule : PhaseSchedule) (plan : WorkspacePlan) (workers_hint : option Z)
    (threads_per_worker scratch_bytes_per_worker : Z) : result MegakernelSource :=
  total ← total_tasks schedule;
  rows ← map_result emit_phase (ps_phases schedule);
  Ok (mk_source workers_hint
        template_imports
        (num_phases schedule) total threads_per_worker scratch_bytes_per_worker (wp_total_elements plan) rows
        ((λ b, (bp_name b, bp_offset b, bp_numel b, bp_first_phase b, bp_last_phase b, bp_live_at_end b))
           <$> wp_buffers plan)).

(** ** The report and the executable *)
Record CompilationReport : Type := mk_report {
  cr_target : string;
  cr_schedule_kind : string;
  cr_num_phases : Z;
  cr_total_tasks : Z;
  cr_workspace_bytes : Z;
  cr_workspace_naive_bytes : Z;
  cr_scratch_bytes_per_worker : Z;
  cr_threads_per_worker : Z;
  cr_kv_cache_bytes : Z;
  cr_diagnostics : list Diagnostic;
  cr_capability_notes : list string;
  cr_specialization_key : string;
  cr_generated_source : MegakernelSource
}.

Record CompiledExecutable : Type := mk_executable {
  ce_graph : OperatorGraph;
  ce_config : ModelConfig;
  ce_schedule : PhaseSchedule;
  ce_families : list TaskFamily;
  ce_workspace_plan : WorkspacePlan;
  ce_scratch_plan : ScratchPlan;
  ce_source : MegakernelSource;
  ce_report : CompilationReport;
  ce_workers : Z;
  ce_manifest : LaunchManifest
}.

(** The constructor, without a manifest of the caller. *)
Definition new_CompiledExecutable (device_sms : Z) (graph : OperatorGraph) (config : ModelConfig)
    (schedule : PhaseSchedule) (families : list TaskFamily) (workspace_plan : WorkspacePlan)
    (scratch_plan : ScratchPlan) (source : MegakernelSource) (report : CompilationReport) (workers : Z)
    : CompiledExecutable :=
  mk_executable graph config schedule families workspace_plan scratch_plan source report workers
    (mk_manifest workers THREADS_PER_WORKER true (per_worker_bytes scratch_plan) (total_bytes workspace_plan)
       device_sms (cr_capability_notes report)).

Definition _kv_width (c : ModelConfig) : Z :=
  match c with
  | CGpt2 cfg => g2_hidden cfg
  | CQwen3 cfg => q3_kv_heads cfg * q3_head_dim cfg
  | CQwen35 cfg => q5_hidden cfg
  | CDeepseekV4 cfg => d4_hidden cfg
  | CGlm53 cfg => gl_hidden_size cfg
  end.

(** What the specialization key is a digest of. *)
Record SpecializationPayload : Type := mk_payload {
  pl_target : string;
  pl_schedule : string;
  pl_config : ModelConfig;
  pl_lowerings_version : string;
  pl_tiles : Z * Z * Z
}.
Definition LOWERINGS_VERSION : string := "0.2.0".

Definition specialization_payload (c : ModelConfig) (target schedule : string) : SpecializationPayload :=
  mk_payload target schedule c LOWERINGS_VERSION (GEMM_TILE_M, GEMM_TILE_N, ELEM_TILE).

(** ** compile_model *)
Definition IDS_STORAGE : Z := 10 ^ 6.

(** A fresh recorder over the name counter of the process. *)
Definition new_session (counter : dict string Z) : Session := mk_session new_recorder counter (0, 0).

Definition define_positions (ad : ModelAdapter) (c : ModelConfig) : R Position :=
  if ad_row_positions ad
  then tv ← define_row_positions "row_positions" (config_batch c) (config_capacity c) (IDS_STORAGE + 5);
       mret (PosTensor tv)
  else sc ← define_position (config_capacity c); mret (PosScalar sc).

(** The inputs of the body: the position, the token ids, the arguments. *)
Definition model_inputs (ad : ModelAdapter) (c : ModelConfig) : M Session (Position * TensorValue * ad_args ad) :=
  position ← on_recorder (define_positions ad c);
  ids ← on_recorder (external_tensor "ids" [config_batch c] I32 IDS_STORAGE None 0 true);
  args ← ad_arguments ad;
  mret (position, ids, args).

Definition capture_step (ad : ModelAdapter) (c : ModelConfig) : M (dict string Z) OperatorGraph := λ counter,
  match model_inputs ad c (new_session counter) with
  | (Ok (position, ids, args), s) =>
      (gr ← capture_model (ad_body ad args ids position) (Some (ss_recorder s)); Ok gr.1, ss_storage_counter s)
  | (Err e, s) => (Err e, ss_storage_counter s)
  end.

Section driver.
(** [query_device_sms()], and [sha256] over the text of the payload. *)
Context (device_sms : Z) (digest : SpecializationPayload → string).

Definition CAPABILITY_NOTES : list string :=
  ["grid synchronization backend unverified"; "worker count is a launch-time quantity";
   "position p and cache length remain runtime parameters"].
Definition STRICT_NOTE : string := "strict_single_kernel=True".

(** Everything after capture: legality, lowering, schedule, memory, code. *)
Definition compile_graph (graph : OperatorGraph) (config : ModelConfig) (target schedule : string) (strict : bool)
    (workers : option Z) : result CompiledExecutable :=
  let diags := check_graph graph in
  let errors := filter (λ d, is_error d = true) diags in
  _ ← require (bool_decide (errors = [])) (LegalityError (dg_code <$> errors));
  families ← lower_graph graph;
  let thread_problems := check_thread_contract families in
  _ ← require (bool_decide (thread_problems = [])) (LegalityError ((λ _, "thread-contract"%string) <$> thread_problems));
  counts ← map_result family_task_count families;
  widest_phase ← match counts with
                 | [] => Err (ValueError "max() arg is an empty sequence")
                 | n :: ns => Ok (zmax_list n ns)
                 end;
  chosen_workers ← choose_worker_count workers None device_sms widest_phase;
  phase_schedule ← from_families families chosen_workers;
  '(workspace_plan, scratch_plan) ← plan_memory graph phase_schedule families;
  source ← emit_megakernel_source phase_schedule workspace_plan (Some chosen_workers) THREADS_PER_WORKER
             (per_worker_bytes scratch_plan);
  total ← total_tasks phase_schedule;
  let report :=
    mk_report target schedule (num_phases phase_schedule) total (total_bytes workspace_plan)
      (naive_bytes workspace_plan) (per_worker_bytes scratch_plan) THREADS_PER_WORKER
      (kv_cache_bytes (config_layers config) (config_batch config) (config_capacity config) (_kv_width config) 4)
      diags (CAPABILITY_NOTES ++ if strict then [STRICT_NOTE] else [])
      (digest (specialization_payload config target schedule)) source in
  Ok (new_CompiledExecutable device_sms graph config phase_schedule families workspace_plan scratch_plan source
        report chosen_workers).

Definition compile_model (model_config : option ModelConfig) (weights : option GPT2Weights)
    (target schedule : string) (strict_single_kernel : bool) (workers : option Z)
    : M (dict string Z) CompiledExecutable :=
  _ ← guard_m (bool_decide (schedule = "phase"%string)) (ValueError "only the phase-synchronous target is implemented");
  _ ← guard_m (bool_decide (target ∈ ["cute_persistent"; "triton_persistent"; "reference"]%string))
        (ValueError "unknown target");
  let config := default (CGpt2 GPT2Config_defaults) model_config in
  ad ← lift (model_adapter config weights);
  _ ← lift (config_validate config);
  graph ← capture_step ad config;
  lift (compile_graph graph config target schedule strict_single_kernel workers).
End driver.

(** ** What the driver requires of a frontend

    The arguments register tensors, and on them and the token ids the body
    records operators of the kinds announced, in that order.  The external
    storages of the arguments get ids from [STORAGE_SEED] on, and the body
    adds fresh storages only. *)
Class AdapterSpec (ad : ModelAdapter) (kinds : list string) : Type := {
  as_tensors : ad_args ad → list TensorValue;
  as_setup : setup [] (ad_arguments ad) as_tensors;
  as_body args ids position : body (ids :: as_tensors args) kinds (ad_body ad args ids position) (λ tv, [tv]);
  as_registering sc : preserves (registering STORAGE_SEED sc) (ad_arguments ad);
  as_evolving args ids position : evolving (ad_body ad args ids position)
}.

#[export] Instance gpt2_spec (cfg : GPT2Config) (w : GPT2Weights) :
  AdapterSpec (gpt2_adapter cfg w) (ModelGpt2.forward_kinds cfg) :=
  Build_AdapterSpec (gpt2_adapter cfg w) _ ModelGpt2.args_tensors (gpt2_args_setup [] cfg w)
    (λ args ids position, gpt2_forward_follows args ids position cfg)
    (λ sc, gpt2_registering STORAGE_SEED sc cfg w (Z.le_refl _))
    (λ args ids position, gpt2_forward_evolving args ids position cfg).
#[export] Instance qwen3_spec (cfg : Qwen3Config) :
  AdapterSpec (qwen3_adapter cfg) (ModelQwen3.forward_kinds cfg) :=
  Build_AdapterSpec (qwen3_adapter cfg) _ ModelQwen3.args_tensors (qwen3_args_setup [] cfg)
    (λ args ids position, qwen3_forward_follows args ids position cfg)
    (λ sc, qwen3_registering STORAGE_SEED sc cfg (Z.le_refl _))
    (λ args ids position, qwen3_forward_evolving args ids position cfg).
#[export] Instance qwen35_spec (cfg : Qwen35Config) :
  AdapterSpec (qwen35_adapter cfg) (ModelQwen35.forward_kinds cfg) :=
  Build_AdapterSpec (qwen35_adapter cfg) _ ModelQwen35.args_tensors (qwen35_args_setup [] cfg)
    (λ args ids position, qwen35_forward_follows args ids position cfg)
    (λ sc, qwen35_registering STORAGE_SEED sc cfg (Z.le_refl _))
    (λ args ids position, qwen35_forward_evolving args ids position cfg).
#[export] Instance deepseek_spec (cfg : DeepseekV4Config) :
  AdapterSpec (deepseek_adapter cfg) (ModelDeepseek.forward_kinds cfg) :=
  Build_AdapterSpec (deepseek_adapter cfg) _ ModelDeepseek.args_tensors (deepseek_args_setup [] cfg)
    (λ args ids position, deepseek_forward_follows args ids position cfg)
    (λ sc, deepseek_registering STORAGE_SEED sc cfg (Z.le_refl _))
    (λ args ids position, deepseek_forward_evolving args ids position cfg).

Definition model_kinds (c : ModelConfig) : list string :=
  match c with
  | CGpt2 cfg => ModelGpt2.forward_kinds cfg
  | CQwen3 cfg => ModelQwen3.forward_kinds cfg
  | CQwen35 cfg => ModelQwen35.forward_kinds cfg
  | CDeepseekV4 cfg => ModelDeepseek.forward_kinds cfg
  | CGlm53 _ => []
  end.

Definition model_adapter_spec (c : ModelConfig) (weights : option GPT2Weights) (ad : ModelAdapter)
    (H : model_adapter c weights = Ok ad) : AdapterSpec ad (model_kinds c).
Proof. destruct c; simpl in *; [..|done]; injection H as <-; apply _. Defined.

(** ** Capture through the interface *)
Lemma follows_quiet {A} (known : list TensorValue) (m : R A) :
  safe known m (λ _, []) → silent m → (∀ r, rb_externals (m r).2 = rb_externals r) →
  follows rb_graph sound known [] m (λ _, []).
Proof.
  intros Hs Hq Hx r [Hp He] Hk. destruct (Hs r Hp Hk) as (Hp' & Hg & _).
  split_and!; [split; [done|by apply (externals_grow r)]|done|]. intros x _. split; [constructor|].
  destruct (Hq r (pw_graph _ Hp)) as [_ ->]. by rewrite app_nil_r.
Qed.

Lemma define_positions_follows (ad : ModelAdapter) (c : ModelConfig) :
  setup [] (on_recorder (define_positions ad c)) (λ _, []).
Proof.
  apply follows_on_recorder. unfold define_positions. destruct (ad_row_positions ad).
  - change (@nil string) with (@nil string ++ []). apply (follows_bind _ _ _ _ _ _ _ (λ _, []));
      [|intros; by apply follows_ret]. unfold define_row_positions, guard_m. do 2 (apply follows_lift; intros ? _).
    change (@nil string) with (@nil string ++ []). eapply follows_bind; [apply external_tensor_follows|intros sym].
    change (@nil string) with (@nil string ++ []). apply (follows_bind _ _ _ _ _ _ _ (λ _, []));
      [|intros; by apply follows_ret].
    apply follows_quiet; [|apply silent_on_graph, mark_row_positions_wf|done].
    apply safe_silent; [apply silent_on_graph, mark_row_positions_wf|by intros r n' tv'|intros; constructor].
  - change (@nil string) with (@nil string ++ []). apply (follows_bind _ _ _ _ _ _ _ (λ _, []));
      [|intros; by apply follows_ret].
    apply follows_quiet; [apply safe_define_position|apply silent_define_position|done].
Qed.

Lemma model_inputs_setup `{!AdapterSpec ad kinds} (c : ModelConfig) :
  setup [] (model_inputs ad c) (λ x, x.1.2 :: as_tensors x.2).
Proof.
  unfold model_inputs. eapply setup_bind; [apply define_positions_follows|intros position]. cbn [app].
  eapply setup_bind; [apply setup_external|intros ids]. cbn [app].
  eapply setup_bind; [|intros args; apply follows_ret].
  - unfold setup. eapply follows_conv; [apply as_setup|apply Forall_nil_2|done].
  - apply Forall_forall. intros tv. cbn. rewrite elem_of_app, !elem_of_cons. tauto.
Qed.

(** Capture through any adapter that meets the interface. *)
Lemma capture_step_spec `{!AdapterSpec ad kinds} (c : ModelConfig) (counter counter' : dict string Z)
    (graph : OperatorGraph) :
  capture_step ad c counter = (Ok graph, counter') → program_wf graph ∧ op_kind <$> g_ops graph = kinds.
Proof.
  unfold capture_step. pose proof (model_inputs_setup (ad := ad) c (new_session counter)) as Hin.
  destruct (model_inputs ad c (new_session counter)) as [[[[position ids] args]|e] s]; [|done].
  intros [= H _]. destruct Hin as ([Hp _] & _ & Hx); [apply new_recorder_sound|by apply Forall_nil_2|].
  destruct (Hx _ eq_refl) as [Hreg Hops]. cbn [fst snd] in *.
  unfold capture_model in H. cbn [default from_option id] in H.
  destruct (as_body args ids position (ss_recorder s) Hp Hreg) as (Hw & _ & Hy).
  destruct (ad_body ad args ids position (ss_recorder s)) as [[y|e] r]; simpl in *.
  - injection H as <-. destruct (Hy y eq_refl) as [_ Hk]. split; [done|]. rewrite Hk.
    unfold ss_graph in Hops. rewrite Hops. done.
  - by destruct (is_capture_error e).
Qed.

(** The scalars of the program, and its storages. *)
Definition position_scalars (ad : ModelAdapter) (c : ModelConfig) : dict string SymbolicScalar :=
  if ad_row_positions ad then [] else [("p"%string, mk_scalar "p" 0 (config_capacity c))].

Lemma define_positions_registering (ad : ModelAdapter) (c : ModelConfig) (s s' : Session) (position : Position) :
  registering STORAGE_SEED [] s → on_recorder (define_positions ad c) s = (Ok position, s') →
  registering STORAGE_SEED (position_scalars ad c) s'.
Proof.
  unfold define_positions, position_scalars. destruct (ad_row_positions ad).
  - intros Hs H. change s' with (Ok position, s').2. rewrite <- H.
    refine (registering_on_recorder STORAGE_SEED [] _ _ s Hs).
    apply preserves_bind; [by apply only_row_positions|intros tv]. apply preserves_ret.
  - intros [[? ? Hsc ?] ? ?] [= _ <-]. split; [|done..]. split; [done..| |done]. cbn.
    unfold ss_graph in Hsc. by rewrite Hsc.
Qed.

Lemma model_inputs_registering `{!AdapterSpec ad kinds} (c : ModelConfig) (s s' : Session)
    (inputs : Position * TensorValue * ad_args ad) :
  registering STORAGE_SEED [] s → model_inputs ad c s = (Ok inputs, s') →
  registering STORAGE_SEED (position_scalars ad c) s'.
Proof.
  intros Hs (position & s1 & Hp & H)%bind_returns. pose proof (define_positions_registering _ _ _ _ _ Hs Hp) as Hs1.
  change s' with (Ok inputs, s').2. rewrite <- H. revert Hs1. generalize s1.
  apply preserves_bind; [by apply registering_external|intros ids].
  apply preserves_bind; [apply as_registering|intros args]. apply preserves_ret.
Qed.

Lemma capture_step_storages `{!AdapterSpec ad kinds} (c : ModelConfig) (counter counter' : dict string Z)
    (graph : OperatorGraph) :
  counter_ok counter → capture_step ad c counter = (Ok graph, counter') →
  counter_ok counter'
  ∧ ∃ g0, external_only STORAGE_SEED (position_scalars ad c) g0 ∧ evolves g0 graph.
Proof.
  intros Hc. unfold capture_step.
  destruct (model_inputs ad c (new_session counter)) as [[[[position ids] args]|e] s] eqn:Hin; [|done].
  pose proof (model_inputs_registering _ _ _ _ (new_session_registering counter STORAGE_SEED Hc) Hin) as [Hg Hc' _].
  destruct (capture_model _ _) as [[g r]|] eqn:Ec; [|done]. intros [= <- <-]. split; [done|].
  exists (ss_graph s). split; [done|]. by apply capture_model_evolves in Ec; [|apply as_evolving].
Qed.

(** ** The compiled executable *)

(** How the passes relate the parts of an executable. *)
Record compiled (device_sms : Z) (exe : CompiledExecutable) : Prop := {
  co_legal : legal (ce_graph exe);
  co_families : lower_graph (ce_graph exe) = Ok (ce_families exe);
  co_manifest : ce_manifest exe
    = mk_manifest (ce_workers exe) THREADS_PER_WORKER true (per_worker_bytes (ce_scratch_plan exe))
        (total_bytes (ce_workspace_plan exe)) device_sms (cr_capability_notes (ce_report exe));
  co_counts : Forall (λ f, is_ok (family_task_count f) = true) (ce_families exe);
  co_workers : 1 ≤ ce_workers exe ≤ Z.max 1 device_sms;
  co_schedule : from_families (ce_families exe) (ce_workers exe) = Ok (ce_schedule exe);
  co_memory : plan_memory (ce_graph exe) (ce_schedule exe) (ce_families exe)
              = Ok (ce_workspace_plan exe, ce_scratch_plan exe);
  co_source : emit_megakernel_source (ce_schedule exe) (ce_workspace_plan exe) (Some (ce_workers exe))
                THREADS_PER_WORKER (per_worker_bytes (ce_scratch_plan exe)) = Ok (ce_source exe)
}.

Lemma chosen_workers_bounds (requested : option Z) (device_sms widest p : Z) :
  choose_worker_count requested None device_sms widest = Ok p → 1 ≤ p ≤ Z.max 1 device_sms.
Proof. unfold choose_worker_count. intros H. res_inv. zbool. cbn [default from_option id] in *. destruct requested; lia. Qed.

Lemma compile_graph_compiled (device_sms : Z) (digest : SpecializationPayload → string) (graph : OperatorGraph)
    (config : ModelConfig) (target schedule : string) (strict : bool) (workers : option Z) (exe : CompiledExecutable) :
  compile_graph device_sms digest graph config target schedule strict workers = Ok exe →
  ce_graph exe = graph ∧ ce_config exe = config ∧ compiled device_sms exe.
Proof.
  unfold compile_graph. intros H. res_inv. split_and!; [done..|].
  repeat match goal with E : bool_decide _ = true |- _ => apply bool_decide_eq_true in E end.
  split; simpl; [|done|done| |by eapply chosen_workers_bounds|done..].
  - apply no_errors. by rewrite <- check_graph_errors.
  - match goal with E : map_result family_task_count _ = Ok _ |- _ => apply map_result_Forall2 in E end.
    eapply Forall2_Forall_l; [eassumption|]. by apply Forall_true; intros ? ? ->.
Qed.

Lemma compile_model_compiled (device_sms : Z) (digest : SpecializationPayload → string)
    (config : option ModelConfig) (weights : option GPT2Weights) (target schedule : string) (strict : bool)
    (workers : option Z) (counter counter' : dict string Z) (exe : CompiledExecutable) :
  compile_model device_sms digest config weights target schedule strict workers counter = (Ok exe, counter') →
  let c := default (CGpt2 GPT2Config_defaults) config in
  ce_config exe = c ∧ compiled device_sms exe ∧ config_validate c = Ok tt
  ∧ ∃ ad, model_adapter c weights = Ok ad ∧ capture_step ad c counter = (Ok (ce_graph exe), counter').
Proof.
  unfold compile_model, guard_m, mbind, M_bind, lift. set (c := default _ config). intros H.
  destruct (require (bool_decide (schedule = _)) _) as [[]|]; [|done].
  destruct (require (bool_decide (target ∈ _)) _) as [[]|]; [|done].
  destruct (model_adapter c weights) as [ad|]; [|done].
  destruct (config_validate c) as [[]|]; [|done].
  destruct (capture_step ad c counter) as [[graph|] counter1] eqn:Ec; [|done]. injection H as H <-.
  destruct (compile_graph_compiled _ _ _ _ _ _ _ _ _ H) as (Hg & Hc & Hco). split_and!; [done..|].
  exists ad. split; [done|]. by rewrite Hg.
Qed.

(** The program of an executable is well formed. *)
Lemma compile_model_graph (device_sms : Z) (digest : SpecializationPayload → string)
    (config : option ModelConfig) (weights : option GPT2Weights) (target schedule : string) (strict : bool)
    (workers : option Z) (counter counter' : dict string Z) (exe : CompiledExecutable) :
  compile_model device_sms digest config weights target schedule strict workers counter = (Ok exe, counter') →
  program_wf (ce_graph exe) ∧ op_kind <$> g_ops (ce_graph exe) = model_kinds (ce_config exe).
Proof.
  intros (Hcfg & _ & _ & ad & Had & Hcap)%compile_model_compiled. rewrite Hcfg.
  pose proof (model_adapter_spec _ _ _ Had). by eapply capture_step_spec.
Qed.

(** Its storages and scalars are those of the capture. *)
Lemma compile_model_capture (device_sms : Z) (digest : SpecializationPayload → string)
    (config : option ModelConfig) (weights : option GPT2Weights) (target schedule : string) (strict : bool)
    (workers : option Z) (counter counter' : dict string Z) (exe : CompiledExecutable) :
  counter_ok counter →
  compile_model device_sms digest config weights target schedule strict workers counter = (Ok exe, counter') →
  counter_ok counter'
  ∧ ∃ ad g0, model_adapter (ce_config exe) weights = Ok ad
      ∧ external_only STORAGE_SEED (position_scalars ad (ce_config exe)) g0 ∧ evolves g0 (ce_graph exe).
Proof.
  intros Hc (Hcfg & _ & _ & ad & Had & Hcap)%compile_model_compiled. rewrite Hcfg.
  pose proof (model_adapter_spec _ _ _ Had) as Hspec.
  destruct (capture_step_storages _ _ _ _ Hc Hcap) as (Hc' & g0 & Hg0 & Hev). split; [done|]. by exists ad, g0.
Qed.

Section compiled_schedule.
Context (device_sms : Z) (exe : CompiledExecutable).
Hypothesis (Hwf : program_wf (ce_graph exe)) (Hco : compiled device_sms exe).

Lemma compiled_opids : fam_opid <$> ce_families exe = op_opid <$> g_ops (ce_graph exe).
Proof using Hco.
  pose proof (co_families _ _ Hco) as H2. apply map_result_Forall2 in H2.
  induction H2 as [|op f ops fs Hf _ IH]; [done|]. rewrite !fmap_cons, IH. f_equal.
  destruct (lower_op_ok _ _ _ Hf) as (? & ? & ? & Hop & _). unfold fam_opid. by rewrite Hop.
Qed.

Lemma compiled_opids_NoDup : NoDup (fam_opid <$> ce_families exe).
Proof using Hco Hwf. rewrite compiled_opids, (gw_opids _ (pw_graph _ Hwf)). apply NoDup_zrange. Qed.

(** The schedule: one phase per family, in order. *)
Definition single_phases (fams : list TaskFamily) : list PhasePlan := imap (λ i f, mk_phase (Z.of_nat i) [f]) fams.

Lemma phases_of_single (fams : list TaskFamily) :
  NoDup (fam_opid <$> fams) → phases_of fams = single_phases fams.
Proof.
  intros Hnd. unfold phases_of, single_phases. rewrite first_seen_NoDup by done. rewrite imap_fmap.
  apply imap_ext. intros i f Hf. cbn. f_equal. apply filter_unique_key; [done|]. by eapply list_elem_of_lookup_2.
Qed.

Lemma compiled_schedule : ce_schedule exe = mk_schedule (single_phases (ce_families exe)) (ce_workers exe).
Proof using Hco Hwf.
  pose proof (co_schedule _ _ Hco) as Hs. rewrite from_families_eq in Hs. res_inv.
  rewrite <- Hs, phases_of_single; [done|apply compiled_opids_NoDup].
Qed.

Lemma compiled_length : length (ps_phases (ce_schedule exe)) = length (g_ops (ce_graph exe)).
Proof using Hco Hwf.
  rewrite compiled_schedule. unfold single_phases. cbn [ps_phases]. rewrite length_imap.
  by rewrite <- (length_fmap op_opid), <- compiled_opids, length_fmap.
Qed.

(** The same phases for any worker count. *)
Lemma compiled_respecialized (w : Z) :
  1 ≤ w → from_families (ce_families exe) w = Ok (mk_schedule (single_phases (ce_families exe)) w).
Proof using Hco Hwf.
  intros Hw. rewrite from_families_eq, phases_of_single by apply compiled_opids_NoDup.
  rewrite check_invariants_aux.
  - cbn. by rewrite decide_True.
  - apply Forall_lookup. intros i p. unfold single_phases. cbn. rewrite list_lookup_imap, fmap_Some.
    intros (f & Hf & ->). apply phase_count_is_ok. constructor; [|constructor].
    pose proof (co_counts _ _ Hco) as Hc. rewrite Forall_lookup in Hc. by eapply Hc.
Qed.

Lemma compiled_families_of : (p ← ps_phases (ce_schedule exe); pp_families p) = ce_families exe.
Proof using Hco Hwf.
  by destruct (from_families_distinct _ _ _ compiled_opids_NoDup (co_schedule _ _ Hco)) as [H _].
Qed.

Lemma compiled_family (i : nat) (op : Operator) :
  g_ops (ce_graph exe) !! i = Some op →
  ∃ f c, ce_families exe !! i = Some f ∧ tf_op f = op ∧ dict_get CONTRACTS (op_kind op) = Some c
    ∧ tf_kind f = oc_task_kind c.
Proof using Hco.
  intros Hop. pose proof (co_families _ _ Hco) as H2. apply map_result_Forall2 in H2.
  destruct (Forall2_lookup_l _ _ _ _ _ H2 Hop) as (f & Hf & Hl).
  destruct (lower_op_ok _ _ _ Hl) as (c & ? & _ & ? & _ & ? & _). by exists f, c.
Qed.

Lemma compiled_family_op (i : nat) (f : TaskFamily) :
  ce_families exe !! i = Some f → g_ops (ce_graph exe) !! i = Some (tf_op f).
Proof using Hco.
  intros Hf. pose proof (co_families _ _ Hco) as H2. apply map_result_Forall2 in H2.
  destruct (Forall2_lookup_r _ _ _ _ _ H2 Hf) as (op & Hop & Hl).
  by destruct (lower_op_ok _ _ _ Hl) as (c & _ & _ & -> & _).
Qed.

(** The phase of an operator is its position. *)
Lemma compiled_phase_table (i : nat) (op : Operator) :
  g_ops (ce_graph exe) !! i = Some op →
  dict_get (phase_table (ce_schedule exe)) (op_opid op) = Some (Z.of_nat i).
Proof using Hco Hwf.
  intros Hop. destruct (compiled_family i op Hop) as (f & _ & Hf & Hfo & _).
  rewrite compiled_schedule. unfold phase_table. cbn [ps_phases].
  pose proof compiled_opids_NoDup as Hnd. rewrite <- Hfo. change (op_opid (tf_op f)) with (fam_opid f).
  clear Hop Hfo. revert Hf Hnd. generalize (ce_families exe) as fams. induction fams as [|g fams IH] using rev_ind; [done|].
  unfold single_phases in *. rewrite imap_app, foldl_app, fmap_app, NoDup_app. cbn. rewrite dict_get_set.
  intros [Hf|[Hle Hf]]%lookup_app_Some (Hnd & Hnew & _).
  - case_decide as E; [|by apply IH]. exfalso. apply (Hnew (fam_opid g)); [|by left].
    change (op_opid (tf_op g)) with (fam_opid g) in E. rewrite <- E. apply list_elem_of_fmap_2.
    by eapply list_elem_of_lookup_2.
  - apply list_lookup_singleton_Some in Hf as [Hi ->]. rewrite decide_True by done. do 2 f_equal. lia.
Qed.
End compiled_schedule.

(** The emitted templates are those of the contracts. *)
Lemma template_of_contract (kind : string) (c : OperatorContract) :
  dict_get CONTRACTS kind = Some c → dict_get TEMPLATE_NAMES (oc_task_kind c) = Some (oc_device_template c).
Proof.
  intros Hc%dict_get_elem.
  assert (H : Forall (λ kc : string * OperatorContract,
    dict_get TEMPLATE_NAMES (oc_task_kind kc.2) = Some (oc_device_template kc.2)) CONTRACTS)
    by (apply (bool_decide_eq_true_1 _); vm_compute; reflexivity).
  rewrite Forall_forall in H. exact (H _ Hc).
Qed.

Lemma template_imported (kind template : string) :
  dict_get TEMPLATE_NAMES kind = Some template → template ∈ template_imports.
Proof.
  intros Ht%dict_get_elem. unfold template_imports. rewrite stable_sort_perm.
  apply elem_of_elements, elem_of_list_to_set. by apply (list_elem_of_fmap_2 snd) in Ht.
Qed.

Lemma emitted_imports (schedule : PhaseSchedule) (plan : WorkspacePlan) (hint : option Z) (threads scratch : Z)
    (source : MegakernelSource) :
  emit_megakernel_source schedule plan hint threads scratch = Ok source → ms_imports source = template_imports.
Proof. unfold emit_megakernel_source. intros H. by res_inv. Qed.

Lemma emitted_rows (schedule : PhaseSchedule) (plan : WorkspacePlan) (hint : option Z) (threads scratch : Z)
    (source : MegakernelSource) :
  emit_megakernel_source schedule plan hint threads scratch = Ok source →
  Forall2 (λ p row, emit_phase p = Ok row) (ps_phases schedule) (ms_phases source).
Proof. unfold emit_megakernel_source. intros H. res_inv. by apply map_result_Forall2. Qed.

Lemma emit_single_phase (i : nat) (f : TaskFamily) (c : OperatorContract) (row : EmittedPhase) :
  tf_kind f = oc_task_kind c → dict_get TEMPLATE_NAMES (oc_task_kind c) = Some (oc_device_template c) →
  emit_phase (mk_phase (Z.of_nat i) [f]) = Ok row →
  ∃ n, family_task_count f = Ok n
    ∧ row = mk_emitted (Z.of_nat i) (op_source_location (tf_op f)) (oc_task_kind c) (oc_device_template c) n
              (tf_params f).
Proof.
  intros Hk Ht. unfold emit_phase. cbn [pp_families py_index lookup list_lookup of_option mbind result_bind].
  rewrite Hk, Ht. cbn [of_option mbind result_bind].
  destruct (family_task_count f) as [n|]; cbn; [|done]. intros [= <-]. by exists n.
Qed.

Lemma plan_element_size (graph : OperatorGraph) (schedule : PhaseSchedule) (families : list TaskFamily)
    (plan : WorkspacePlan) (scratch : ScratchPlan) :
  plan_memory graph schedule families = Ok (plan, scratch) → wp_element_size plan = 4.
Proof. unfold plan_memory. intros H. by res_inv. Qed.

(** ** What a compiled executable guarantees *)
Section executable.
Context (device_sms : Z) (digest : SpecializationPayload → string).
Context (config : option ModelConfig) (weights : option GPT2Weights) (target schedule : string) (strict : bool).
Context (workers : option Z) (counter counter' : dict string Z) (exe : CompiledExecutable).

(** C9. Whenever [compile_model] returns, for any of the four model families
    and any configuration, the captured program is well formed and legal, and
    it is the decode step of that model: the kinds of its operators, in
    program order, are those the model body prescribes for its layers. *)
Theorem compile_model_program :
  compile_model device_sms digest config weights target schedule strict workers counter = (Ok exe, counter') →
  program_wf (ce_graph exe) ∧ legal (ce_graph exe)
  ∧ op_kind <$> g_ops (ce_graph exe) = model_kinds (default (CGpt2 GPT2Config_defaults) config).
Proof.
  intros H. destruct (compile_model_graph _ _ _ _ _ _ _ _ _ _ _ H) as [Hwf Hk].
  destruct (compile_model_compiled _ _ _ _ _ _ _ _ _ _ _ H) as (Hc & Hco & _). rewrite Hc in Hk.
  split_and!; [done|apply Hco|done].
Qed.

(** C10. The schedule and the emitted phase table of an executable follow the
    program: with a worker count between one and the number of
    multiprocessors, phase [i] holds exactly the tasks of operator [i], and
    row [i] of the emitted table names its task kind, the device template of
    its contract, which the emitted module imports, and its task count. *)
Theorem compile_model_schedule :
  compile_model device_sms digest config weights target schedule strict workers counter = (Ok exe, counter') →
  1 ≤ ce_workers exe ≤ Z.max 1 device_sms ∧ ps_workers (ce_schedule exe) = ce_workers exe
  ∧ length (ps_phases (ce_schedule exe)) = length (g_ops (ce_graph exe))
  ∧ length (ms_phases (ce_source exe)) = length (g_ops (ce_graph exe))
  ∧ ∀ i op, g_ops (ce_graph exe) !! i = Some op →
      ∃ f c n, ps_phases (ce_schedule exe) !! i = Some (mk_phase (Z.of_nat i) [f]) ∧ tf_op f = op
        ∧ dict_get CONTRACTS (op_kind op) = Some c ∧ family_task_count f = Ok n
        ∧ ms_phases (ce_source exe) !! i
          = Some (mk_emitted (Z.of_nat i) (op_source_location op) (oc_task_kind c) (oc_device_template c) n
                    (tf_params f))
        ∧ oc_device_template c ∈ ms_imports (ce_source exe).
Proof.
  intros H. destruct (compile_model_graph _ _ _ _ _ _ _ _ _ _ _ H) as [Hwf _].
  destruct (compile_model_compiled _ _ _ _ _ _ _ _ _ _ _ H) as (_ & Hco & _).
  pose proof (compiled_schedule _ _ Hwf Hco) as Hs.
  pose proof (emitted_rows _ _ _ _ _ _ (co_source _ _ Hco)) as Hrows.
  pose proof (compiled_length _ _ Hwf Hco) as Hlen.
  split_and!; [apply (co_workers _ _ Hco)|apply (co_workers _ _ Hco)|by rewrite Hs|done|by rewrite <- (Forall2_length _ _ _ Hrows)|].
  intros i op Hop. destruct (compiled_family _ _ Hco i op Hop) as (f & c & Hf & Hfo & Hc & Hk).
  assert (Hp : ps_phases (ce_schedule exe) !! i = Some (mk_phase (Z.of_nat i) [f])).
  { rewrite Hs. cbn [ps_phases]. unfold single_phases. by rewrite list_lookup_imap, Hf. }
  destruct (Forall2_lookup_l _ _ _ _ _ Hrows Hp) as (row & Hrow & He).
  pose proof (template_of_contract _ _ Hc) as Ht.
  destruct (emit_single_phase i f c row Hk Ht He) as (n & Hn & ->). exists f, c, n. rewrite Hrow, Hfo.
  rewrite (emitted_imports _ _ _ _ _ _ (co_source _ _ Hco)).
  split_and!; [done..|]. by eapply template_imported.
Qed.

(** C11. No operator of an executable can clobber another's live data in the
    workspace: a storage planned by the compiler that operator [i] reads or
    writes has a buffer of the workspace, live in phase [i], that starts at or
    after the first and ends at or before the last of the bytes the launch
    manifest reserves, disjoint from every other buffer that
    is live in that phase. *)
Theorem compile_model_memory :
  compile_model device_sms digest config weights target schedule strict workers counter = (Ok exe, counter') →
  lm_workspace_bytes (ce_manifest exe) = 4 * wp_total_elements (ce_workspace_plan exe)
  ∧ ∀ i op r, g_ops (ce_graph exe) !! i = Some op → r ∈ op_read_regions op ++ op_write_regions op →
      is_Some (dict_get (fresh_table (ce_graph exe)) (rg_storage_id r)) →
      ∃ b, b ∈ wp_buffers (ce_workspace_plan exe) ∧ bp_storage_id b = rg_storage_id r
        ∧ bp_first_phase b ≤ Z.of_nat i ≤ bp_last_phase b
        ∧ 0 ≤ bp_offset b ∧ bp_offset b + bp_numel b ≤ wp_total_elements (ce_workspace_plan exe)
        ∧ ∀ b', b' ∈ wp_buffers (ce_workspace_plan exe) → b' ≠ b →
            bp_first_phase b' ≤ Z.of_nat i ≤ bp_last_phase b' → disjoint_buffers b b'.
Proof.
  intros H. destruct (compile_model_graph _ _ _ _ _ _ _ _ _ _ _ H) as [Hwf _].
  destruct (compile_model_compiled _ _ _ _ _ _ _ _ _ _ _ H) as (_ & Hco & _).
  destruct (plan_memory_buffers (ce_graph exe) (ce_schedule exe) (ce_families exe)) as (plan & scratch & Hp & Hb).
  { intros op [i Hi]%list_elem_of_lookup. rewrite (compiled_phase_table _ _ Hwf Hco i op Hi). by eexists. }
  rewrite (co_memory _ _ Hco) in Hp. injection Hp as <- <-. split.
  - rewrite (co_manifest _ _ Hco). cbn. unfold total_bytes. rewrite (plan_element_size _ _ _ _ _ (co_memory _ _ Hco)). lia.
  - intros i op r Hi Hr Hf.
    destruct (Hb op r (Z.of_nat i)) as (b & ? & ? & ? & ? & ? & _ & ?);
      [by eapply list_elem_of_lookup_2|done|done|by eapply compiled_phase_table|]. by exists b.
Qed.

(** C13. The external storages of an executable (weights, caches, tables, the
    token ids) keep their identity: when the ids of the process are in order
    and the program has at most 24301 fresh buffers, a registered storage is
    either a fresh buffer, which the planner places in the workspace, or an
    external one with an id of its own from 24301 on, never both.  A body adds
    no runtime scalar: the program has the scalar ["p"] exactly when the rows
    share one position. *)
Theorem compile_model_storages :
  counter_ok counter →
  compile_model device_sms digest config weights target schedule strict workers counter = (Ok exe, counter') →
  counter_ok counter'
  ∧ (∃ ad, model_adapter (ce_config exe) weights = Ok ad
       ∧ g_scalars (ce_graph exe) = position_scalars ad (ce_config exe))
  ∧ (g_next_storage (ce_graph exe) ≤ STORAGE_SEED →
     ∀ sid, is_Some (dict_get (g_storage_names (ce_graph exe)) sid) →
       (sid ∈ g_fresh_storages (ce_graph exe) ∧ sid < STORAGE_SEED)
       ∨ (STORAGE_SEED ≤ sid ∧ sid ∉ g_fresh_storages (ce_graph exe))).
Proof.
  intros Hc H. destruct (compile_model_capture _ _ _ _ _ _ _ _ _ _ _ Hc H)
    as (Hc' & ad & g0 & Had & [Hf Hn Hs Hnames] & [Es En Ef Em]).
  split_and!; [done|exists ad; split; [done|by rewrite Es]|]. intros Hsmall sid Hsid.
  rewrite Ef, Hf, Hn. destruct (Em sid) as [E|E].
  - right. rewrite E in Hsid. specialize (Hnames _ Hsid). set_solver by lia.
  - left. set_solver by lia.
Qed.
End executable.

(** *** Witnesses: a GPT-2 of one layer *)
Definition ex_config : ModelConfig := CGpt2 (mk_GPT2Config 8 1 8 2 16 1 4 4).
Abbreviation ex_compile :=
  (compile_model 16 (λ _, ""%string) (Some ex_config) None "reference" "phase" true None).

Lemma ex_compiles : ∃ exe counter', ex_compile [] = (Ok exe, counter').
Proof.
  assert (H : is_ok (ex_compile []).1 = true) by (vm_compute; reflexivity).
  destruct (ex_compile []) as [[exe|e] counter']; [|done]. by exists exe, counter'.
Qed.

Lemma compile_model_program_witness : ∃ exe counter', ex_compile [] = (Ok exe, counter')
  ∧ op_kind <$> g_ops (ce_graph exe)
    = "embedding"%string :: ModelGpt2.layer_kinds ++ ["layer_norm"; "linear"]%string.
Proof.
  destruct ex_compiles as (exe & counter' & E). exists exe, counter'. split; [exact E|].
  exact (proj2 (proj2 (compile_model_program _ _ _ _ _ _ _ _ _ _ _ E))).
Defined.

Lemma compile_model_schedule_witness : ∃ exe counter', ex_compile [] = (Ok exe, counter')
  ∧ 1 ≤ ce_workers exe ≤ 16 ∧ length (ps_phases (ce_schedule exe)) = length (g_ops (ce_graph exe)).
Proof.
  destruct ex_compiles as (exe & counter' & E). exists exe, counter'.
  destruct (compile_model_schedule _ _ _ _ _ _ _ _ _ _ _ E) as (Hw & _ & Hl & _).
  exact (conj E (conj Hw Hl)).
Defined.

Lemma compile_model_memory_witness : ∃ exe counter', ex_compile [] = (Ok exe, counter')
  ∧ lm_workspace_bytes (ce_manifest exe) = 4 * wp_total_elements (ce_workspace_plan exe).
Proof.
  destruct ex_compiles as (exe & counter' & E). exists exe, counter'.
  exact (conj E (proj1 (compile_model_memory _ _ _ _ _ _ _ _ _ _ _ E))).
Defined.

Lemma compile_model_storages_witness : ∃ exe counter', ex_compile [] = (Ok exe, counter') ∧ counter_ok counter'.
Proof.
  destruct ex_compiles as (exe & counter' & E). exists exe, counter'.
  exact (conj E (proj1 (compile_model_storages _ _ _ _ _ _ _ _ _ _ _ counter_ok_nil E))).
Defined.
