(* ===== verification/ExecutorState.v ===== *)
(** * The executor on shared arrays (compiler/reference_exec.py)

    [Execution] follows the memory of an invocation that returns.  The arrays
    of a real invocation belong to the caller: they are written in place and
    keep what a task wrote when it, or a later one, raises.  Here the same
    loops act on a store of arrays, in the monad whose state survives an
    exception.  [live_run_outcome] relates the two executors;
    [live_run_keeps] bounds what an invocation may change. *)

From S2P Require Import Prelude Indexing OperatorIR Contracts TaskIR SchedulePhase Memory Runtime Execution.
Local Open Scope Z_scope.

Section live.
Context {H : Type}.
(** A task body writes arrays in place and may raise after some writes. *)
Context (body : string → TaskFamily → list Z → scalars → M H unit).
Context (fill_nan : Z → H → H) (all_nan : Z → H → bool).

Definition live_body_of (kind : string) : option (TaskFamily → list Z → scalars → M H unit) :=
  if bool_decide (kind ∈ (λ kc : string * OperatorContract, oc_task_kind kc.2) <$> CONTRACTS)
  then Some (body kind) else None.

Definition live_execute_task (phase : PhasePlan) (sc : scalars) (task_id : Z) : M H unit :=
  family ← lift (family_of phase task_id);
  local ← lift (local_id phase task_id);
  cs ← lift (family_coords family local);
  b ← lift (of_option (ExecutorError "no reference body for task kind") (live_body_of (tf_kind family)));
  b family cs sc.

(** One worker's share of a phase; its value is the task count. *)
Definition live_worker_share (phase : PhasePlan) (workers : Z) (sc : scalars) (w : Z) : M H Z :=
  tids ← lift (worker_task_ids phase w workers);
  for_m (λ count tid, _ ← live_execute_task phase sc tid; mret (count + 1)) 0 tids.

Definition live_worker_step (phase : PhasePlan) (workers : Z) (sc : scalars)
    (st : list Z * SimulatedGridBarrier) (w : Z) : M H (list Z * SimulatedGridBarrier) :=
  count ← live_worker_share phase workers sc w;
  arrived ← lift (on_barrier (arrive w) st.2);
  mret (st.1 ++ [count], arrived.2).

Definition live_canary_step (bufs : list BufferPlan) (index : Z) (ib : nat * BufferPlan) : M H unit :=
  let '(i, buf) := ib in
  if index <? bp_first_phase buf then
    if has_live_cooccupant bufs i buf index then mret tt
    else mem ← get_state;
         guard_m (all_nan (bp_storage_id buf) mem)
           (ExecutorError "phase wrote into buffer before its lifetime starts")
  else if (bp_last_phase buf =? index) && negb (bp_live_at_end buf)
  then modify (fill_nan (bp_storage_id buf)) else mret tt.

Definition live_canary_check (canary : bool) (plan : option WorkspacePlan) (phase : PhasePlan) : M H unit :=
  match plan with
  | Some ws => if canary then for_m (λ _, live_canary_step (wp_buffers ws) (pp_index phase)) tt
                                (imap pair (wp_buffers ws))
               else mret tt
  | None => mret tt
  end.

(** [__init__]. *)
Definition live_init_executor (storages : gset Z) (canary : bool) (plan : option WorkspacePlan)
    (graph : OperatorGraph) : M H unit :=
  _ ← match plan with
      | Some ws => if canary then
          for_m (λ _ buf,
            _ ← guard_m (bool_decide (bp_storage_id buf ∈ storages)) (KeyError "storage_arrays");
            modify (fill_nan (bp_storage_id buf))) tt (wp_buffers ws)
          else mret tt
      | None => mret tt
      end;
  _ ← lift (map_result (λ ntv : string * TensorValue,
        require (bool_decide (tv_storage_id ntv.2 ∈ storages)) (ExecutorError "no storage array for tensor"))
        (g_tensors graph));
  mret tt.

Definition live_run_phase (workers : Z) (canary : bool) (plan : option WorkspacePlan) (sc : scalars)
    (st : ExecutionTrace * SimulatedGridBarrier) (phase : PhasePlan)
    : M H (ExecutionTrace * SimulatedGridBarrier) :=
  let '(tr, barrier) := st in
  shares ← for_m (live_worker_step phase workers sc) ([], barrier) (zrange workers);
  released ← lift (on_barrier release shares.2);
  tasks ← lift (phase_task_count phase);
  let tr' := mk_trace (tr_kernel_launches tr) (tr_grid_barriers tr + 1)
               (tr_phases tr ++ [mk_stat (pp_index phase) (phase_kind phase) tasks shares.1 released.1])
               (tr_task_executions tr + zsum shares.1) in
  _ ← live_canary_check canary plan phase;
  mret (tr', released.2).

Definition live_run (workers : Z) (canary : bool) (plan : option WorkspacePlan) (schedule : PhaseSchedule)
    (sc : scalars) (tr : ExecutionTrace) : M H ExecutionTrace :=
  let tr := mk_trace (tr_kernel_launches tr + 1) (tr_grid_barriers tr) (tr_phases tr)
              (tr_task_executions tr) in
  done ← for_m (live_run_phase workers canary plan sc) (tr, new_barrier workers) (ps_phases schedule);
  mret done.1.
End live.

(** ** The same outcome as [Execution] *)

(** What a caller that looks at the store only after success can see. *)
Definition outcome {H A} (p : result A * H) : result (H * A) :=
  match p with (Ok x, h) => Ok (h, x) | (Err e, _) => Err e end.
Definition outcome_mem {H} (p : result unit * H) : result H := fst <$> outcome p.

(** The task body of [Execution] that a live body gives. *)
Definition settled {H} (body : string → TaskFamily → list Z → scalars → M H unit)
    : string → TaskFamily → list Z → scalars → H → result H :=
  λ kind f cs sc h, outcome_mem (body kind f cs sc h).

Section outcome.
Context {H : Type}.

Lemma outcome_bind {A B} (m : M H A) (f : A → M H B) (h : H) :
  outcome ((m ≫= f) h) = hx ← outcome (m h); outcome (f hx.2 hx.1).
Proof. unfold mbind at 1, M_bind. by destruct (m h) as [[x|e] h']. Qed.

Lemma outcome_lift {A} (r : result A) (h : H) : outcome ((lift r : M H A) h) = x ← r; Ok (h, x).
Proof. by destruct r. Qed.

Lemma outcome_for {A B} (f : B → A → M H B) (l : list A) (x : B) (h : H) :
  outcome (for_m f x l h) = fold_result (λ hx a, outcome (f hx.2 a hx.1)) (h, x) l.
Proof.
  revert x h. induction l as [|a l IH]; intros x h; [done|]. cbn [for_m fold_result].
  rewrite outcome_bind. cbn [fst snd]. destruct (outcome (f x a h)) as [[h' x']|]; [apply IH|done].
Qed.

(** Two loops whose states correspond. *)
Lemma fold_result_via {S T A} (to : S → T) (f : S → A → result S) (g : T → A → result T) (l : list A) (s : S) :
  (∀ s a, to <$> f s a = g (to s) a) → to <$> fold_result f s l = fold_result g (to s) l.
Proof.
  intros Hfg. revert s. induction l as [|a l IH]; intros s; [done|]. cbn [fold_result].
  rewrite <- Hfg. destruct (f s a) as [s'|]; [apply IH|done].
Qed.

Context (body : string → TaskFamily → list Z → scalars → M H unit).
Context (fill_nan : Z → H → H) (all_nan : Z → H → bool).

Lemma live_execute_task_outcome (phase : PhasePlan) (sc : scalars) (t : Z) (h : H) :
  outcome_mem (live_execute_task body phase sc t h) = execute_task (settled body) phase sc h t.
Proof.
  unfold outcome_mem, live_execute_task, execute_task. rewrite outcome_bind, outcome_lift.
  destruct (family_of phase t) as [f|]; [|done]. cbn [mbind result_bind fst snd]. rewrite outcome_bind, outcome_lift.
  destruct (local_id phase t) as [l|]; [|done]. cbn [mbind result_bind fst snd]. rewrite outcome_bind, outcome_lift.
  destruct (family_coords f l) as [cs|]; [|done]. cbn [mbind result_bind fst snd]. rewrite outcome_bind, outcome_lift.
  unfold live_body_of, body_of. by destruct (bool_decide _).
Qed.

Lemma live_worker_share_outcome (phase : PhasePlan) (workers : Z) (sc : scalars) (w : Z) (h : H) :
  outcome (live_worker_share body phase workers sc w h) = worker_share (settled body) phase workers sc h w.
Proof.
  unfold live_worker_share, worker_share. rewrite outcome_bind, outcome_lift.
  destruct (worker_task_ids _ _ _) as [tids|]; [|done]. cbn [mbind result_bind fst snd]. rewrite outcome_for.
  generalize (h, 0). induction tids as [|t tids IH]; intros [h' c]; [done|]. cbn [fold_result fst snd].
  rewrite outcome_bind, <- live_execute_task_outcome. unfold outcome_mem.
  destruct (outcome (live_execute_task _ _ _ _ _)) as [[h'' []]|]; [apply IH|done].
Qed.

Lemma live_canary_check_outcome (canary : bool) (plan : option WorkspacePlan) (phase : PhasePlan) (h : H) :
  outcome_mem (live_canary_check fill_nan all_nan canary plan phase h)
  = canary_check fill_nan all_nan canary plan phase h.
Proof.
  unfold outcome_mem, live_canary_check, canary_check. destruct plan as [ws|]; [|done]. destruct canary; [|done].
  rewrite outcome_for. apply (fold_result_via fst). intros [h' []] [i buf]. unfold live_canary_step, canary_step.
  cbn [fst snd]. destruct (_ <? _); [destruct (has_live_cooccupant _ _ _ _)|destruct (_ && _)]; try done.
  unfold mbind, M_bind, get_state, guard_m, lift. by destruct (all_nan _ _).
Qed.

Lemma live_init_outcome (storages : gset Z) (canary : bool) (plan : option WorkspacePlan) (graph : OperatorGraph)
    (h : H) :
  outcome_mem (live_init_executor fill_nan storages canary plan graph h)
  = init_executor fill_nan storages canary plan graph h.
Proof.
  unfold outcome_mem, live_init_executor, init_executor. rewrite outcome_bind.
  assert (E : fst <$> outcome ((match plan with
      | Some ws => if canary then
          for_m (λ _ buf,
            _ ← guard_m (bool_decide (bp_storage_id buf ∈ storages)) (KeyError "storage_arrays");
            modify (fill_nan (bp_storage_id buf))) tt (wp_buffers ws)
          else mret tt
      | None => mret tt
      end : M H unit) h) = match plan with
        | Some ws => if canary then
            fold_result (λ mem buf,
              _ ← require (bool_decide (bp_storage_id buf ∈ storages)) (KeyError "storage_arrays");
              Ok (fill_nan (bp_storage_id buf) mem)) h (wp_buffers ws)
            else Ok h
        | None => Ok h
        end).
  { destruct plan as [ws|]; [|done]. destruct canary; [|done]. rewrite outcome_for.
    apply (fold_result_via fst). intros [h' []] buf. cbn [fst snd]. unfold guard_m. rewrite outcome_bind, outcome_lift.
    by destruct (require _ _). }
  rewrite <- E. destruct (outcome _) as [[h' []]|]; [|done]. cbn [mbind result_bind fmap result_fmap fst snd].
  rewrite outcome_bind, outcome_lift. by destruct (map_result _ _).
Qed.

Lemma live_run_phase_outcome (workers : Z) (canary : bool) (plan : option WorkspacePlan) (sc : scalars)
    (h : H) (tr : ExecutionTrace) (b : SimulatedGridBarrier) (phase : PhasePlan) :
  (λ hx : H * (ExecutionTrace * SimulatedGridBarrier), (hx.1, hx.2.1, hx.2.2))
    <$> outcome (live_run_phase body fill_nan all_nan workers canary plan sc (tr, b) phase h)
  = run_phase (settled body) fill_nan all_nan workers canary plan sc (h, tr, b) phase.
Proof.
  unfold live_run_phase, run_phase. rewrite outcome_bind, outcome_for.
  pose (to := λ hx : H * (list Z * SimulatedGridBarrier), (hx.1, hx.2.1, hx.2.2)).
  change (h, [], b) with (to (h, ([], b))).
  rewrite <- (fold_result_via to (λ hx a, outcome (live_worker_step body phase workers sc hx.2 a hx.1))
    (worker_step (settled body) phase workers sc) (zrange workers) (h, ([], b))).
  2: { intros [h' [counts b']] w. unfold to. cbn [fst snd]. unfold live_worker_step, worker_step.
       rewrite outcome_bind, live_worker_share_outcome.
       destruct (worker_share _ _ _ _ _ _) as [[h'' c]|]; [|done]. cbn [mbind result_bind fst snd].
       rewrite outcome_bind, outcome_lift. by destruct (on_barrier _ _) as [[[] b2]|]. }
  destruct (fold_result _ (h, ([], b)) _) as [[h' [counts b']]|]; [|done]. cbn [mbind result_bind fmap result_fmap fst snd to].
  rewrite outcome_bind, outcome_lift. destruct (on_barrier _ _) as [[gen b'']|]; [|done]. cbn [mbind result_bind fst snd].
  rewrite outcome_bind, outcome_lift. destruct (phase_task_count _) as [n|]; [|done]. cbn [mbind result_bind fst snd].
  rewrite outcome_bind, <- live_canary_check_outcome. unfold outcome_mem.
  by destruct (outcome (live_canary_check _ _ _ _ _ _)) as [[h'' []]|].
Qed.

(** An invocation on shared arrays returns or raises as [Execution.run] on
    its memory, and leaves the same memory when it returns. *)
Lemma live_run_outcome (workers : Z) (canary : bool) (plan : option WorkspacePlan) (schedule : PhaseSchedule)
    (sc : scalars) (tr : ExecutionTrace) (h : H) :
  outcome (live_run body fill_nan all_nan workers canary plan schedule sc tr h)
  = run (settled body) fill_nan all_nan workers canary plan schedule sc h tr.
Proof.
  unfold live_run, run. rewrite outcome_bind, outcome_for. set (tr0 := mk_trace _ _ _ _).
  pose (to := λ hx : H * (ExecutionTrace * SimulatedGridBarrier), (hx.1, hx.2.1, hx.2.2)).
  change (h, tr0, new_barrier workers) with (to (h, (tr0, new_barrier workers))).
  rewrite <- (fold_result_via to (λ hx p, outcome (live_run_phase body fill_nan all_nan workers canary plan sc hx.2 p hx.1))).
  2: { intros [h' [t b]] p. apply live_run_phase_outcome. }
  by destruct (fold_result _ _ _) as [[h' [t b]]|].
Qed.
End outcome.

(** ** What an invocation may change *)
Section keeps_run.
Context {H : Type} (R : H → H → Prop) `{HR : !PreOrder R}.

Lemma keeps_for {A B} (f : B → A → M H B) (l : list A) (x : B) :
  (∀ y a, a ∈ l → keeps R (f y a)) → keeps R (for_m f x l).
Proof using HR.
  revert x. induction l as [|a l IH]; intros x Hf; [apply keeps_ret, _|]. cbn.
  apply keeps_bind; [apply _|apply Hf; left|intros y]. apply IH. intros z b Hb. apply Hf. by right.
Qed.

Context (body : string → TaskFamily → list Z → scalars → M H unit).
Context (fill_nan : Z → H → H) (all_nan : Z → H → bool).
Context (plan : option WorkspacePlan) (sc : scalars).
Hypothesis Hfill : ∀ ws buf, plan = Some ws → buf ∈ wp_buffers ws → ∀ h, R h (fill_nan (bp_storage_id buf) h).

Lemma live_init_keeps (storages : gset Z) (canary : bool) (graph : OperatorGraph) :
  keeps R (live_init_executor fill_nan storages canary plan graph).
Proof using HR Hfill.
  unfold live_init_executor. apply keeps_bind; [apply _| |intros _].
  - destruct plan as [ws|] eqn:E; [|apply keeps_ret, _]. destruct canary; [|apply keeps_ret, _].
    apply keeps_for. intros _ buf Hb. apply keeps_bind; [apply _|apply keeps_guard, _|intros _].
    apply keeps_modify. by eapply Hfill.
  - apply keeps_bind; [apply _|apply keeps_lift, _|intros _; apply keeps_ret, _].
Qed.

Lemma live_canary_keeps (canary : bool) (phase : PhasePlan) :
  keeps R (live_canary_check fill_nan all_nan canary plan phase).
Proof using HR Hfill.
  unfold live_canary_check. destruct plan as [ws|] eqn:E; [|apply keeps_ret, _]. destruct canary; [|apply keeps_ret, _].
  apply keeps_for. intros _ [i buf] Hb. unfold live_canary_step.
  destruct (_ <? _); [destruct (has_live_cooccupant _ _ _ _)|destruct (_ && _)].
  - apply keeps_ret, _.
  - apply keeps_bind; [apply _|apply keeps_get, _|intros ?; apply keeps_guard, _].
  - apply keeps_modify. apply (Hfill ws buf eq_refl). apply elem_of_lookup_imap in Hb as (j & b & [= -> ->] & Hj).
    by eapply list_elem_of_lookup_2.
  - apply keeps_ret, _.
Qed.

Lemma family_of_elem (phase : PhasePlan) (t : Z) (f : TaskFamily) : family_of phase t = Ok f → f ∈ pp_families phase.
Proof.
  unfold family_of. revert t. induction (pp_families phase) as [|g fams IH]; intros t Hf; [done|]. cbn in Hf. res_inv.
  destruct (_ <? _); [simplify_eq; left|right; by eapply IH].
Qed.

Lemma live_execute_task_keeps (phase : PhasePlan) (t : Z) :
  (∀ f cs, f ∈ pp_families phase → keeps R (body (tf_kind f) f cs sc)) →
  keeps R (live_execute_task body phase sc t).
Proof using HR.
  intros Hbody h. unfold live_execute_task, mbind, M_bind, lift. destruct (family_of phase t) as [f|] eqn:Ef; [|done].
  destruct (local_id phase t) as [l|]; [|done]. destruct (family_coords f l) as [cs|]; [|done].
  unfold live_body_of. destruct (bool_decide _); [|done]. cbn. by eapply Hbody, family_of_elem.
Qed.

Lemma live_run_keeps (workers : Z) (canary : bool) (schedule : PhaseSchedule) (tr : ExecutionTrace) :
  (∀ p f cs, p ∈ ps_phases schedule → f ∈ pp_families p → keeps R (body (tf_kind f) f cs sc)) →
  keeps R (live_run body fill_nan all_nan workers canary plan schedule sc tr).
Proof using HR Hfill.
  intros Hbody. unfold live_run. apply keeps_bind; [apply _| |intros ?; apply keeps_ret, _].
  apply keeps_for. intros [t b] p Hp. unfold live_run_phase. apply keeps_bind; [apply _| |intros ?].
  - apply keeps_for. intros st w _. unfold live_worker_step, live_worker_share.
    apply keeps_bind; [apply _| |intros ?; apply keeps_bind; [apply _|apply keeps_lift, _|intros ?; apply keeps_ret, _] ].
    apply keeps_bind; [apply _|apply keeps_lift, _|intros tids]. apply keeps_for. intros c t' _.
    apply keeps_bind; [apply _| |intros _; apply keeps_ret, _]. apply live_execute_task_keeps. intros f cs. by apply Hbody.
  - repeat (apply keeps_bind; [apply _|first [apply keeps_lift, _|apply live_canary_keeps]|intros ?]).
    apply keeps_ret, _.
Qed.
End keeps_run.
