(* ===== verification/CompiledRun.v ===== *)
(** * Running a compiled executable (compiler/compile.py: CompiledExecutable)

    [run] checks its inputs, specializes the schedule to the worker count,
    binds the storages (views of caller-owned arrays by registered name,
    slices of the workspace by the plan), executes the schedule on them in
    place and updates the cache's valid length last.

    Arrays are references into a store that holds the contents of every array
    of the process, on the host and on the device.  A run threads the store,
    also when it raises: what its tasks wrote by then stays.  Numpy, the task
    bodies and the device runner are parameters. *)

From S2P Require Import Prelude Indexing OperatorIR Contracts TaskIR SchedulePhase ScheduleStatic.
From S2P Require Import TileDependencies LoweringsCommon Lowerings Capture Runtime Memory Execution Declared Storages.
From S2P Require Import ExecutorState Frontend ModelGpt2 ModelQwen3 ModelQwen35 ModelDeepseek Compile.
Local Open Scope Z_scope.

(** ** Numpy arrays *)

(** The numpy operations a run uses; [H] is the store of array contents. *)
Class ArrayOps (Array H : Type) := {
  np_shape : Array → list Z;                  (* a.shape *)
  np_slice : Array → Z → Z → Array;           (* a[offset : offset + n], a view *)
  np_flat : Array → M H Array;                (* np.ascontiguousarray(a).reshape(-1): a view, or a copy *)
  np_full_nan : Z → M H Array;                (* np.full(n, nan) *)
  np_fill_nan : Array → H → H;                (* a.fill(nan) *)
  np_all_nan : Array → H → bool               (* np.isnan(a).all() *)
}.

(** What numpy documents about them, over the memory cells of the store:
    [owns a l]: the cell [l] belongs to the array or view [a]. *)
Class ArrayLaws (Array H : Type) `{ArrayOps Array H} (Cell V : Type) := {
  np_owns : Array → Cell → Prop;
  np_allocated : H → Cell → Prop;
  np_read : H → Cell → V;
  np_slice_owns a offset n l : np_owns (np_slice a offset n) l → np_owns a l;
  np_flat_allocates a h l : np_allocated h l → np_allocated (np_flat a h).2 l;
  np_flat_reads a h l : np_allocated h l → np_read (np_flat a h).2 l = np_read h l;
  np_flat_owns a b h h' l : np_flat a h = (Ok b, h') → np_owns b l → np_owns a l ∨ ¬ np_allocated h l;
  np_full_allocates n h l : np_allocated h l → np_allocated (np_full_nan n h).2 l;
  np_full_reads n h l : np_allocated h l → np_read (np_full_nan n h).2 l = np_read h l;
  np_full_owns n a h h' l : np_full_nan n h = (Ok a, h') → np_owns a l → ¬ np_allocated h l;
  np_fill_allocates a h l : np_allocated h l → np_allocated (np_fill_nan a h) l;
  np_fill_reads a h l : ¬ np_owns a l → np_read (np_fill_nan a h) l = np_read h l
}.

Section running.
Context {Array H Logits : Type} `{ArrayOps Array H}.
(** A task body over the storage arrays of the executor, and an array read
    back through the layout of a tensor. *)
Context (body : OperatorGraph → dict Z Array → string → TaskFamily → list Z → scalars → M H unit).
Context (read_tensor : OperatorGraph → dict Z Array → H → string → result Logits).

(** The caller's cache object: its arrays and the mutable [valid_len]. *)
Record KVCache : Type := mk_cache { kc_k : Array; kc_v : Array; kc_valid_len : Z }.

(** A prepared device runner: its identity, its worker count, the barriers of
    its plan, and its [run] method, which acts on its own device memory. *)
Record Runner : Type := mk_runner {
  rn_id : Z;
  rn_workers : Z;
  rn_num_barriers : Z;
  rn_run : Array → Z → M H Logits
}.

(** The [cache] argument: a cache object, or the runner [prepare_device]
    returned, which has no [k] and [v]. *)
Inductive CacheArg : Type := ACache (cache : KVCache) | ARunner (runner : Runner).

(** What a run may change: the store and the cache object. *)
Record RunState : Type := mk_run_state { rs_store : H; rs_cache : CacheArg }.

Definition allocate_workspace (exe : CompiledExecutable) : M H Array :=
  np_full_nan (wp_total_elements (ce_workspace_plan exe)).

Definition cache_k (arg : CacheArg) : result Array :=
  match arg with ACache c => Ok (kc_k c) | ARunner _ => Err (AttributeError "k") end.
Definition cache_v (arg : CacheArg) : result Array :=
  match arg with ACache c => Ok (kc_v c) | ARunner _ => Err (AttributeError "v") end.

(** The arrays by name, the caller's inputs last. *)
Definition runtime_arrays (weights : dict string Array) (ids k v : Array) : dict string Array :=
  dict_set (dict_set (dict_set weights "ids" ids) "k_cache" k) "v_cache" v.

Definition bind_external (exe : CompiledExecutable) (arrays : dict string Array) (storage : dict Z Array)
    (sn : Z * string) : M H (dict Z Array) :=
  if bool_decide (sn.1 ∈ g_fresh_storages (ce_graph exe)) then mret storage
  else array ← lift (of_option (DeviceUnavailable "external storage has no runtime array") (dict_get arrays sn.2%string));
       flat ← np_flat array;
       mret (dict_set storage sn.1 flat).

(** [_external_storage_arrays] *)
Definition external_storage_arrays (exe : CompiledExecutable) (weights : dict string Array) (ids : Array)
    (arg : CacheArg) : M H (dict Z Array) :=
  ids ← np_flat ids;
  k ← lift (cache_k arg);
  k ← np_flat k;
  v ← lift (cache_v arg);
  v ← np_flat v;
  for_m (bind_external exe (runtime_arrays weights ids k v)) [] (g_storage_names (ce_graph exe)).

(** The workspace slices of the planned buffers. *)
Definition bind_buffers (exe : CompiledExecutable) (workspace : Array) (storage : dict Z Array) : dict Z Array :=
  foldl (λ d b, dict_set d (bp_storage_id b) (np_slice workspace (bp_offset b) (bp_numel b)))
    storage (wp_buffers (ce_workspace_plan exe)).

Definition specialized_schedule (exe : CompiledExecutable) (workers : Z) : result PhaseSchedule :=
  if workers =? ps_workers (ce_schedule exe) then Ok (ce_schedule exe)
  else from_families (p ← ps_phases (ce_schedule exe); pp_families p) workers.

Definition final_output (exe : CompiledExecutable) (storage : dict Z Array) (h : H) : result Logits :=
  op ← py_last (g_ops (ce_graph exe));
  out_name ← py_index (op_outputs op) 0;
  read_tensor (ce_graph exe) storage h out_name.

(** [self.storage_arrays[sid].fill(nan)] and its test; every planned storage
    is bound. *)
Definition fill_storage (storage : dict Z Array) (sid : Z) (h : H) : H :=
  match dict_get storage sid with Some a => np_fill_nan a h | None => h end.
Definition storage_all_nan (storage : dict Z Array) (sid : Z) (h : H) : bool :=
  match dict_get storage sid with Some a => np_all_nan a h | None => true end.

(** The host checks before the reference mode touches an array. *)
Definition check_inputs (exe : CompiledExecutable) (ids : Array) (position : Z) (workers : Z) : result PhaseSchedule :=
  sc ← of_option (KeyError "p") (dict_get (g_scalars (ce_graph exe)) "p"%string);
  _ ← guard_scalar sc position;
  _ ← require (bool_decide (np_shape ids = [config_batch (ce_config exe)])) (ValueError "ids shape");
  specialized_schedule exe workers.

Definition choose_workspace (exe : CompiledExecutable) (workspace : option Array) : M H Array :=
  match workspace with
  | None => allocate_workspace exe
  | Some w => _ ← guard_m (bool_decide (np_shape w = [wp_total_elements (ce_workspace_plan exe)]))
                    (ValueError "workspace size");
              mret w
  end.

(** The executor on the bound storages. *)
Definition execute_bound (exe : CompiledExecutable) (schedule : PhaseSchedule) (workers : Z) (canary : bool)
    (position : Z) (storage : dict Z Array) : M H ExecutionTrace :=
  _ ← live_init_executor (fill_storage storage) (list_to_set storage.*1) canary (Some (ce_workspace_plan exe))
        (ce_graph exe);
  live_run (body (ce_graph exe) storage) (fill_storage storage) (storage_all_nan storage) workers canary
    (Some (ce_workspace_plan exe)) schedule {["p"%string := position]} new_trace.

(** The reference mode, up to the update of the cache object. *)
Definition run_reference (exe : CompiledExecutable) (weights : dict string Array) (ids : Array) (arg : CacheArg)
    (position : Z) (workspace : option Array) (workers : option Z) (canary : bool)
    : M H (Logits * ExecutionTrace) :=
  let workers := default (ce_workers exe) workers in
  schedule ← lift (check_inputs exe ids position workers);
  workspace ← choose_workspace exe workspace;
  external ← external_storage_arrays exe weights ids arg;
  let storage := bind_buffers exe workspace external in
  trace ← execute_bound exe schedule workers canary position storage;
  _ ← guard_m (tr_kernel_launches trace =? 1) (DeviceUnavailable "single-launch contract violated");
  h ← get_state;
  logits ← lift (final_output exe storage h);
  mret (logits, trace).

(** [cache.valid_len = n] *)
Definition set_valid_len (arg : CacheArg) (n : Z) : CacheArg :=
  match arg with ACache c => ACache (mk_cache (kc_k c) (kc_v c) n) | ARunner r => ARunner r end.

(** [prepare_device]: only Qwen3 has a device backend; [build] constructs it. *)
Definition prepare_device (build : Qwen3Config → Z → M H Runner) (exe : CompiledExecutable) : M H Runner :=
  match ce_config exe with
  | CQwen3 cfg => build cfg (ce_workers exe)
  | _ => raise (DeviceUnavailable "this model adapter has no validated device backend")
  end.

(** The device mode; [runner] is [self._device_runner]. *)
Definition run_device (runner : option Runner) (ids : Array) (arg : CacheArg) (position : Z)
    (workspace : option Array) (workers : option Z) : M H (Logits * ExecutionTrace) :=
  rn ← lift (of_option (DeviceUnavailable "call prepare_device()") runner);
  let is_runner := match arg with ARunner r => rn_id r =? rn_id rn | ACache _ => false end in
  let workers_ok := match workers with None => true | Some w => w =? rn_workers rn end in
  let no_workspace := match workspace with None => true | Some _ => false end in
  _ ← guard_m (is_runner && no_workspace && workers_ok)
        (ValueError "device execution requires the prepared runner");
  logits ← rn_run rn ids position;
  mret (logits, mk_trace 1 (rn_num_barriers rn) [] 0).

(** A computation on the store, as one on the state of a run. *)
Definition on_store {A} (m : M H A) : M RunState A := λ st,
  let '(r, h) := m (rs_store st) in (r, mk_run_state h (rs_cache st)).

Definition run (exe : CompiledExecutable) (runner : option Runner) (weights : dict string Array) (ids : Array)
    (position : Z) (workspace : option Array) (mode : string) (workers : option Z) (canary : bool)
    : M RunState (Logits * ExecutionTrace) :=
  st ← get_state;
  if decide (mode = "device"%string) then on_store (run_device runner ids (rs_cache st) position workspace workers)
  else if decide (mode = "reference"%string) then
    out ← on_store (run_reference exe weights ids (rs_cache st) position workspace workers canary);
    _ ← modify (λ st, mk_run_state (rs_store st) (set_valid_len (rs_cache st) (position + 1)));
    mret out
  else raise (ValueError "unknown execution mode").
End running.

Arguments mk_cache {Array}.
Arguments ACache {Array H Logits}.
Arguments ARunner {Array H Logits}.
Arguments mk_run_state {Array H Logits}.

(** ** The cells a run may write *)
Section run_frame.
Context {Array H Logits Cell V : Type} `{L : ArrayLaws Array H Cell V}.
Context (body : OperatorGraph → dict Z Array → string → TaskFamily → list Z → scalars → M H unit).
Context (read_tensor : OperatorGraph → dict Z Array → H → string → result Logits).

(** A task frees nothing, and writes only arrays its operator declares to
    write ([BodyLocality] shows the latter for the bodies of dense decoding). *)
Definition writes_declared : Prop := ∀ graph storage kind f cs sc h l,
  np_allocated h l →
  np_allocated (body graph storage kind f cs sc h).2 l
  ∧ ((∀ R a, R ∈ op_write_regions (tf_op f) → dict_get storage (rg_storage_id R) = Some a → ¬ np_owns a l) →
     np_read (body graph storage kind f cs sc h).2 l = np_read h l).

(** An operator of the program declares to write the storage. *)
Definition written_storage (exe : CompiledExecutable) (sid : Z) : Prop :=
  ∃ op R, op ∈ g_ops (ce_graph exe) ∧ R ∈ op_write_regions op ∧ rg_storage_id R = sid.

(** The caller's cells a reference run may write: those of a workspace it was
    given, and those of the arrays under external storages the program writes. *)
Definition may_write (exe : CompiledExecutable) (weights : dict string Array) (ids : Array)
    (arg : CacheArg (Array := Array) (H := H) (Logits := Logits)) (workspace : option Array) (l : Cell) : Prop :=
  (∃ w, workspace = Some w ∧ np_owns w l)
  ∨ ∃ sid name k v a, (sid, name) ∈ g_storage_names (ce_graph exe) ∧ (sid ∉ g_fresh_storages (ce_graph exe))
      ∧ written_storage exe sid ∧ cache_k arg = Ok k ∧ cache_v arg = Ok v
      ∧ dict_get (runtime_arrays weights ids k v) name = Some a ∧ np_owns a l.

(** Nothing is freed, and cells outside [W] keep their contents. *)
Definition frame (W : Cell → Prop) (h h' : H) : Prop :=
  (∀ l, np_allocated h l → np_allocated h' l)
  ∧ ∀ l, np_allocated h l → ¬ W l → np_read h' l = np_read h l.

#[export] Instance frame_preorder (W : Cell → Prop) : PreOrder (frame W).
Proof.
  split; [by split|]. intros h1 h2 h3 [A1 R1] [A2 R2]. split; [auto|]. intros l Hl Hw.
  rewrite R2, R1 by auto. done.
Qed.

Lemma flat_keeps (W : Cell → Prop) (a : Array) : keeps (frame W) (np_flat a).
Proof using L. intros h. split; intros l Hl; [by apply np_flat_allocates|intros _; by apply np_flat_reads]. Qed.

Lemma full_keeps (W : Cell → Prop) (n : Z) : keeps (frame W) (np_full_nan n).
Proof using L. intros h. split; intros l Hl; [by apply np_full_allocates|intros _; by apply np_full_reads]. Qed.

Lemma fill_storage_frame (W : Cell → Prop) (storage : dict Z Array) (sid : Z) (h : H) :
  (∀ a l, dict_get storage sid = Some a → np_owns a l → W l) → frame W h (fill_storage storage sid h).
Proof using L.
  intros Hs. unfold fill_storage. destruct (dict_get storage sid) as [a|]; [|done].
  split; intros l Hl; [by apply np_fill_allocates|intros Hw; apply np_fill_reads]. naive_solver.
Qed.

Lemma bind_buffers_get (exe : CompiledExecutable) (ws : Array) (storage : dict Z Array) (sid : Z) (a : Array) :
  dict_get (bind_buffers exe ws storage) sid = Some a →
  (∃ b, a = np_slice ws (bp_offset b) (bp_numel b))
  ∨ dict_get storage sid = Some a ∧ ∀ b, b ∈ wp_buffers (ce_workspace_plan exe) → bp_storage_id b ≠ sid.
Proof.
  unfold bind_buffers. induction (wp_buffers (ce_workspace_plan exe)) as [|b bs IH] using rev_ind.
  { right. split; [done|]. intros b Hb. by apply not_elem_of_nil in Hb. }
  rewrite foldl_app. cbn. rewrite dict_get_set. case_decide as E; [intros [= <-]; left; by eexists|].
  intros [?|[Hd Hb]]%IH; [by left|right]. split; [done|]. intros b' [Hb'| ->%list_elem_of_singleton]%elem_of_app; auto.
Qed.

Lemma for_m_inv {St A B} (I : B → St → Prop) (f : B → A → M St B) (l : list A) (x y : B) (s s' : St) :
  (∀ x y a s s', a ∈ l → I x s → f x a s = (Ok y, s') → I y s') →
  I x s → for_m f x l s = (Ok y, s') → I y s'.
Proof.
  revert x s. induction l as [|a l IH]; intros x s Hf Hx; cbn; [by intros [= <- <-]|].
  unfold mbind, M_bind. destruct (f x a s) as [[z|e] s1] eqn:E; [|done].
  apply IH.
  - intros x' y' b t t' Hb. apply Hf. by right.
  - apply (Hf x z a s s1); [left|done|done].
Qed.

Section one_run.
Context (exe : CompiledExecutable) (weights : dict string Array) (ids : Array)
  (arg : CacheArg (Array := Array) (H := H) (Logits := Logits)) (workspace : option Array) (h0 : H).

(** Cells the run may write: the caller's, and those it allocates itself. *)
Definition run_writes (l : Cell) : Prop := may_write exe weights ids arg workspace l ∨ ¬ np_allocated h0 l.

(** The storages that are written are bound to arrays inside [run_writes]. *)
Definition bound_inside (storage : dict Z Array) : Prop := ∀ sid a l,
  dict_get storage sid = Some a → written_storage exe sid → np_owns a l → run_writes l.

Lemma flat_inside (a b : Array) (h h' : H) (l : Cell) :
  (∀ l, np_allocated h0 l → np_allocated h l) → np_flat a h = (Ok b, h') → np_owns b l →
  np_owns a l ∨ ¬ np_allocated h0 l.
Proof using L. intros Hh Ef Hl. destruct (np_flat_owns _ _ _ _ _ Ef Hl) as [?|Hn]; [by left|right]. auto. Qed.

Lemma flat_grows (a b : Array) (h h' : H) :
  (∀ l, np_allocated h0 l → np_allocated h l) → np_flat a h = (Ok b, h') → ∀ l, np_allocated h0 l → np_allocated h' l.
Proof using L. intros Hh Ef l Hl. pose proof (np_flat_allocates a h l (Hh l Hl)) as Hl'. by rewrite Ef in Hl'. Qed.

Lemma external_inside (storage : dict Z Array) (h h' : H) :
  (∀ l, np_allocated h0 l → np_allocated h l) →
  external_storage_arrays exe weights ids arg h = (Ok storage, h') → bound_inside storage.
Proof using L.
  intros Hh. unfold external_storage_arrays, mbind at 1, M_bind at 1.
  destruct (np_flat ids h) as [[i'|] h1] eqn:Ei; [|done]. pose proof (flat_grows _ _ _ _ Hh Ei) as H1.
  unfold mbind at 1, M_bind at 1, lift at 1. destruct (cache_k arg) as [k|] eqn:Ek; [|done].
  unfold mbind at 1, M_bind at 1. destruct (np_flat k h1) as [[k'|] h2] eqn:Efk; [|done].
  pose proof (flat_grows _ _ _ _ H1 Efk) as H2.
  unfold mbind at 1, M_bind at 1, lift at 1. destruct (cache_v arg) as [v|] eqn:Ev; [|done].
  unfold mbind at 1, M_bind at 1. destruct (np_flat v h2) as [[v'|] h3] eqn:Efv; [|done].
  pose proof (flat_grows _ _ _ _ H2 Efv) as H3. intros Hf.
  apply (for_m_inv (λ storage h, (∀ l, np_allocated h0 l → np_allocated h l) ∧ bound_inside storage)) in Hf; [apply Hf| |].
  2: { split; [done|]. intros sid a l Ha. discriminate Ha. }
  clear storage h' Hf. intros d d' [sid name] t t' Hin [Ht Hd]. unfold bind_external. cbn [fst snd].
  case_bool_decide as Hfresh; [by intros [= <- <-]|]. unfold mbind, M_bind, lift.
  destruct (dict_get (runtime_arrays _ _ _ _) name) as [a|] eqn:Ea; [|done]. cbn.
  destruct (np_flat a t) as [[b|] t1] eqn:Eb; [|done]. intros [= <- <-].
  split; [by eapply flat_grows|]. intros sid' a' l Ha' Hwr Hl. rewrite dict_get_set in Ha'.
  case_decide as E; [|by eapply Hd]. subst sid'. injection Ha' as <-.
  destruct (flat_inside _ _ _ _ _ Ht Eb Hl) as [Hal|?]; [|by right].
  assert (Hsrc : ∃ a0, dict_get (runtime_arrays weights ids k v) name = Some a0
    ∧ (np_owns a0 l ∨ ¬ np_allocated h0 l)).
  { unfold runtime_arrays in Ea |- *. rewrite !dict_get_set in Ea |- *.
    repeat (case_decide; [simplify_eq; eexists; (split; [done|eapply flat_inside; [|done|done]; done])|]).
    exists a. by split; [|left]. }
  destruct Hsrc as (a0 & Ha0 & [Hown|?]); [left|by right]. right. by exists sid, name, k, v, a0.
Qed.

Lemma external_keeps (W : Cell → Prop) : keeps (frame W) (external_storage_arrays exe weights ids arg).
Proof using L.
  unfold external_storage_arrays.
  do 5 (apply keeps_bind; [apply _|first [apply flat_keeps|apply keeps_lift, _]|intros ?]).
  apply (keeps_for _). intros d [sid name] _. unfold bind_external. case_bool_decide; [apply keeps_ret, _|].
  apply keeps_bind; [apply _|apply keeps_lift, _|intros ?].
  apply keeps_bind; [apply _|apply flat_keeps|intros ?; apply keeps_ret, _].
Qed.

Lemma choose_workspace_inside (w : Array) (h' : H) (l : Cell) :
  choose_workspace exe workspace h0 = (Ok w, h') → np_owns w l → run_writes l.
Proof using L.
  unfold choose_workspace. destruct workspace as [w0|] eqn:Ews.
  - unfold mbind, M_bind, guard_m, lift. destruct (require _ _); [|done]. intros [= <- _] Hl.
    left; left. by exists w0.
  - intros Hf Hl. right. by eapply np_full_owns.
Qed.

Lemma choose_workspace_keeps (W : Cell → Prop) : keeps (frame W) (choose_workspace exe workspace).
Proof using L.
  unfold choose_workspace. destruct workspace.
  - apply keeps_bind; [apply _|apply keeps_guard, _|intros ?; apply keeps_ret, _].
  - apply full_keeps.
Qed.

Lemma execute_bound_keeps (schedule : PhaseSchedule) (workers : Z) (canary : bool) (position : Z) (ws : Array)
    (external : dict Z Array) :
  writes_declared → bound_inside external → (∀ l, np_owns ws l → run_writes l) →
  (∀ p f, p ∈ ps_phases schedule → f ∈ pp_families p → tf_op f ∈ g_ops (ce_graph exe)) →
  keeps (frame run_writes)
    (execute_bound body exe schedule workers canary position (bind_buffers exe ws external)).
Proof using L.
  intros Hbody Hext Hws Hops. set (storage := bind_buffers exe ws external).
  assert (Hst : ∀ sid a l, dict_get storage sid = Some a → written_storage exe sid → np_owns a l → run_writes l).
  { intros sid a l Ha Hwr Hl. destruct (bind_buffers_get _ _ _ _ _ Ha) as [(b & ->)|[Ha' _] ]; [|by eapply Hext].
    by eapply Hws, np_slice_owns. }
  assert (Hfill : ∀ plan b, Some (ce_workspace_plan exe) = Some plan → b ∈ wp_buffers plan →
    ∀ h, frame run_writes h (fill_storage storage (bp_storage_id b) h)).
  { intros plan b [= <-] Hb h. apply fill_storage_frame. intros a l Ha Hl.
    destruct (bind_buffers_get _ _ _ _ _ Ha) as [(b' & ->)|[_ Hn] ]; [by eapply Hws, np_slice_owns|].
    by destruct (Hn b Hb). }
  unfold execute_bound. apply keeps_bind; [apply _| |intros _].
  - apply live_init_keeps; [apply _|done].
  - apply live_run_keeps; [apply _|done|]. intros p f cs Hp Hf h. split; intros l Hl.
    + by apply Hbody.
    + intros Hw. apply Hbody; [done|]. intros R a HR Ha Hown. apply Hw. eapply Hst; [done| |done].
      exists (tf_op f), R. split_and!; [by eapply Hops|done|done].
Qed.
End one_run.
End run_frame.

(** ** What running a compiled executable does *)
Section compiled_run.
Context {Array H Logits Cell V : Type} `{L : ArrayLaws Array H Cell V}.
Context (body : OperatorGraph → dict Z Array → string → TaskFamily → list Z → scalars → M H unit).
Context (read_tensor : OperatorGraph → dict Z Array → H → string → result Logits).
(** A compilation that returned. *)
Context (device_sms : Z) (digest : SpecializationPayload → string).
Context (config : option ModelConfig) (weights : option GPT2Weights) (target schedule : string) (strict : bool).
Context (requested : option Z) (counter counter' : dict string Z) (exe : CompiledExecutable).

Abbreviation State := (RunState (Array := Array) (H := H) (Logits := Logits)).
Abbreviation exe_reference := (run_reference body read_tensor).
Abbreviation exe_run := (run body read_tensor).

(** The models whose rows have their own positions. *)
Definition row_positioned (c : ModelConfig) : bool :=
  match c with CQwen35 _ | CDeepseekV4 _ => true | _ => false end.

Lemma specialized_ok (w : Z) (s : PhaseSchedule) :
  program_wf (ce_graph exe) → compiled device_sms exe → specialized_schedule exe w = Ok s →
  s = mk_schedule (single_phases (ce_families exe)) w.
Proof.
  intros Hwf Hco. pose proof (compiled_schedule _ _ Hwf Hco) as Hs. unfold specialized_schedule.
  destruct (w =? _) eqn:E; zbool; [intros [= <-]; rewrite Hs in E |- *; cbn in E; by subst|].
  rewrite (compiled_families_of _ _ Hwf Hco), from_families_eq.
  rewrite (phases_of_single _ (compiled_opids_NoDup _ _ Hwf Hco)). intros H'. by res_inv.
Qed.

Lemma specialized_total (w : Z) :
  program_wf (ce_graph exe) → compiled device_sms exe → 1 ≤ w →
  specialized_schedule exe w = Ok (mk_schedule (single_phases (ce_families exe)) w).
Proof.
  intros Hwf Hco Hw. pose proof (compiled_schedule _ _ Hwf Hco) as Hs. unfold specialized_schedule.
  destruct (w =? _) eqn:E; zbool; [rewrite Hs in E |- *; cbn in E; by subst|].
  rewrite (compiled_families_of _ _ Hwf Hco). by eapply compiled_respecialized.
Qed.

Lemma single_phases_ops (w : Z) (p : PhasePlan) (f : TaskFamily) :
  compiled device_sms exe → p ∈ ps_phases (mk_schedule (single_phases (ce_families exe)) w) → f ∈ pp_families p →
  tf_op f ∈ g_ops (ce_graph exe).
Proof.
  intros Hco Hp Hf. cbn in Hp. apply elem_of_lookup_imap in Hp as (i & g & -> & Hg).
  apply list_elem_of_singleton in Hf as ->. eapply list_elem_of_lookup_2, compiled_family_op; done.
Qed.

(** A reference run, in the store it found and the one it leaves. *)
Lemma reference_frame (arrays : dict string Array) (ids : Array)
    (arg : CacheArg (Array := Array) (H := H) (Logits := Logits)) (position : Z) (workspace : option Array)
    (workers : option Z) (canary : bool) (h : H) :
  program_wf (ce_graph exe) → compiled device_sms exe → writes_declared body →
  frame (run_writes exe arrays ids arg workspace h) h
    (exe_reference exe arrays ids arg position workspace workers canary h).2.
Proof using L.
  intros Hwf Hco Hbody. unfold run_reference, mbind at 1, M_bind at 1, lift at 1.
  destruct (check_inputs _ _ _ _) as [s|] eqn:Ec; [|done].
  assert (Hs : ∃ w, s = mk_schedule (single_phases (ce_families exe)) w).
  { unfold check_inputs in Ec. res_inv. eexists. by eapply specialized_ok. }
  destruct Hs as [w' ->].
  set (W := run_writes exe arrays ids arg workspace h).
  pose proof (choose_workspace_keeps exe workspace W h) as Fws. unfold mbind at 1, M_bind at 1.
  destruct (choose_workspace _ _ h) as [[ws|] h1] eqn:Ews; [|exact Fws]. cbn [snd] in Fws.
  pose proof (external_keeps exe arrays ids arg W h1) as Fex. unfold mbind at 1, M_bind at 1.
  destruct (external_storage_arrays _ _ _ _ h1) as [[ext|] h2] eqn:Eext; [|cbn in Fex |- *; by etrans]. cbn [snd] in Fex.
  pose proof (execute_bound_keeps body exe arrays ids arg workspace h (mk_schedule (single_phases (ce_families exe)) w')
    (default (ce_workers exe) workers) canary position ws ext Hbody) as Frun.
  assert (Hgrow : ∀ l, np_allocated h l → np_allocated h1 l) by apply Fws.
  specialize (Frun (external_inside _ _ _ _ _ _ _ _ _ Hgrow Eext)
    (λ l, choose_workspace_inside _ _ _ _ _ _ _ _ l Ews) (λ p f, single_phases_ops w' p f Hco) h2).
  unfold mbind at 1, M_bind at 1. destruct (execute_bound _ _ _ _ _ _ _ h2) as [[tr|] h3]; cbn [snd] in Frun.
  2: { cbn. do 2 (etrans; [eassumption|]). done. }
  assert (F3 : frame W h h3) by (do 2 (etrans; [eassumption|]); done).
  unfold mbind, M_bind, guard_m, lift, get_state. destruct (require _ _); [|done].
  by destruct (final_output _ _ _ _).
Qed.

(** A reference run that returned. *)
Lemma reference_returns (arrays : dict string Array) (ids : Array)
    (arg : CacheArg (Array := Array) (H := H) (Logits := Logits)) (position : Z) (workspace : option Array)
    (workers : option Z) (canary : bool) (h h' : H) (logits : Logits) (trace : ExecutionTrace) :
  program_wf (ce_graph exe) → compiled device_sms exe →
  exe_reference exe arrays ids arg position workspace workers canary h = (Ok (logits, trace), h') →
  tr_kernel_launches trace = 1 ∧ tr_grid_barriers trace = Z.of_nat (length (g_ops (ce_graph exe)))
  ∧ np_shape ids = [config_batch (ce_config exe)]
  ∧ (∃ sc, dict_get (g_scalars (ce_graph exe)) "p"%string = Some sc ∧ sc_lo sc ≤ position < sc_hi sc)
  ∧ (∃ cache, arg = ACache cache) ∧ (∃ storage, final_output read_tensor exe storage h' = Ok logits).
Proof.
  intros Hwf Hco. unfold run_reference, mbind at 1, M_bind at 1, lift at 1.
  destruct (check_inputs _ _ _ _) as [s|] eqn:Ec; [|done]. unfold check_inputs in Ec. res_inv.
  unfold mbind at 1, M_bind at 1. destruct (choose_workspace _ _ _) as [[ws|] h1]; [|done].
  unfold mbind at 1, M_bind at 1. destruct (external_storage_arrays _ _ _ _ h1) as [[ext|] h2] eqn:Eext; [|done].
  unfold mbind at 1, M_bind at 1. destruct (execute_bound _ _ _ _ _ _ _ h2) as [[tr|] h3] eqn:Erun; [|done].
  unfold mbind, M_bind, guard_m, lift, get_state. destruct (require _ _); [|done].
  destruct (final_output _ _ _ _) as [out|] eqn:Eout; [|done]. intros [= -> -> ->].
  unfold execute_bound, mbind at 1, M_bind at 1 in Erun. destruct (live_init_executor _ _ _ _ _ _) as [[[]|] h2'] eqn:Einit; [|done].
  apply (f_equal outcome) in Erun. rewrite live_run_outcome in Erun. apply run_trace in Erun as [Hl Hb].
  split; [done|]. split; [|split; [|split; [|split] ] ].
  - match goal with E : specialized_schedule _ _ = _ |- _ => apply (specialized_ok _ _ Hwf Hco) in E as -> end.
    rewrite Hb, <- (compiled_length _ _ Hwf Hco), (compiled_schedule _ _ Hwf Hco). done.
  - by match goal with E : bool_decide (np_shape ids = _) = true |- _ => apply bool_decide_eq_true in E end.
  - eexists. split; [done|]. match goal with E : guard_scalar _ _ = _ |- _ => unfold guard_scalar in E end. res_inv.
    zbool. lia.
  - destruct arg as [cache|rn]; [by exists cache|]. exfalso. unfold external_storage_arrays, mbind at 1, M_bind at 1 in Eext.
    by destruct (np_flat ids h1) as [[i|] ?].
  - by eexists.
Qed.


(** The tasks of each phase commute. *)
Definition tasks_independent (sc : scalars) : Prop := ∀ storage p, p ∈ ps_phases (ce_schedule exe) →
  independent (settled (body (ce_graph exe) storage)) sc p ∧ ∃ n, phase_task_count p = Ok n ∧ 0 ≤ n.

(** "Legal for any P": when the tasks of each phase are independent, the
    worker count of a reference run cannot be observed in its logits, in the
    contents it leaves in the caches and every other array, or in the
    exception it raises. *)
Theorem run_worker_independent (arrays : dict string Array) (ids : Array)
    (arg : CacheArg (Array := Array) (H := H) (Logits := Logits)) (position : Z) (workspace : option Array) (canary : bool)
    (w1 w2 : Z) (h : H) :
  compile_model device_sms digest config weights target schedule strict requested counter = (Ok exe, counter') →
  tasks_independent {["p"%string := position]} → 1 ≤ w1 → 1 ≤ w2 →
  (λ r : H * (Logits * ExecutionTrace), (r.1, r.2.1))
    <$> outcome (exe_reference exe arrays ids arg position workspace (Some w1) canary h)
  = (λ r : H * (Logits * ExecutionTrace), (r.1, r.2.1))
    <$> outcome (exe_reference exe arrays ids arg position workspace (Some w2) canary h).
Proof.
  intros Hcomp Hind Hw1 Hw2. destruct (compile_model_graph _ _ _ _ _ _ _ _ _ _ _ Hcomp) as [Hwf _].
  destruct (compile_model_compiled _ _ _ _ _ _ _ _ _ _ _ Hcomp) as (_ & Hco & _).
  pose proof (compiled_schedule _ _ Hwf Hco) as Hs. unfold tasks_independent in Hind. rewrite Hs in Hind.
  unfold run_reference, check_inputs. cbn [default from_option id]. rewrite !(specialized_total _ Hwf Hco) by done.
  destruct (of_option _ _) as [sc|]; [|done]. cbn [mbind result_bind].
  destruct (guard_scalar sc position); [|done]. cbn [mbind result_bind]. destruct (require _ _); [|done]. cbn [mbind result_bind].
  rewrite !(outcome_bind (lift _)), !outcome_lift. cbn [mbind result_bind fst snd].
  rewrite !(outcome_bind (choose_workspace _ _)). destruct (outcome (choose_workspace _ _ _)) as [[h1 ws]|]; [|done].
  cbn [mbind result_bind fst snd]. rewrite !(outcome_bind (external_storage_arrays _ _ _ _)).
  destruct (outcome (external_storage_arrays _ _ _ _ _)) as [[h2 ext]|]; [|done]. cbn [mbind result_bind fst snd].
  unfold execute_bound. rewrite !outcome_bind.
  destruct (outcome (live_init_executor _ _ _ _ _ _)) as [[h3 []]|]; [|done]. cbn [mbind result_bind fst snd].
  rewrite !live_run_outcome, !run_refines by (done || apply Hind). unfold reference_run. cbn [ps_phases].
  match goal with |- context [fold_result ?a ?b ?c] => destruct (fold_result a b c) as [h4|] end; [|done].
  cbn. unfold mbind, M_bind, guard_m, get_state, lift. cbn. by destruct (final_output _ _ _ _).
Qed.

(** The models with one position per row can be compiled, but not run:
    [run] looks up the scalar ["p"], which their programs do not have, so
    every reference run raises [KeyError] and changes nothing; and there is
    no device backend to prepare. *)
Theorem row_position_models_not_runnable :
  counter_ok counter →
  compile_model device_sms digest config weights target schedule strict requested counter = (Ok exe, counter') →
  row_positioned (ce_config exe) = true →
  (∀ runner arrays ids position workspace workers canary (st : State),
     exe_run exe runner arrays ids position workspace "reference" workers canary st = (Err (KeyError "p"), st))
  ∧ ∀ (build : Qwen3Config → Z → M H (Runner (Array := Array) (H := H) (Logits := Logits))) h, ∃ tag,
      prepare_device build exe h = (Err (DeviceUnavailable tag), h).
Proof.
  intros Hc Hcomp Hrow. destruct (compile_model_capture _ _ _ _ _ _ _ _ _ _ _ Hc Hcomp)
    as (_ & ad & g0 & Had & [_ _ Hs _] & [Es _ _ _]).
  assert (Hnone : g_scalars (ce_graph exe) = []).
  { rewrite Es, Hs. unfold position_scalars. by destruct (ce_config exe); simpl in *; simplify_eq. }
  split.
  - intros. destruct st as [h arg]. unfold run. unfold mbind at 1, M_bind at 1, get_state.
    rewrite decide_False, decide_True by done. unfold run_reference, check_inputs. by rewrite Hnone.
  - intros build h. unfold prepare_device. destruct (ce_config exe); try done; by eexists.
Qed.
End compiled_run.

(** *** Witnesses

    A store is a list of cells, [None] for NaN; an array is a block of cells
    with a shape.  A task writes 1 in every cell of the arrays its operator
    declares to write. *)
Record Block : Type := mk_block { bk_base : nat; bk_shape : list Z }.
Definition bk_size (a : Block) : nat := Z.to_nat (foldr Z.mul 1 (bk_shape a)).
Definition bk_owns (a : Block) (l : nat) : bool := (bk_base a <=? l)%nat && (l <? bk_base a + bk_size a)%nat.
Definition ex_mark (P : nat → bool) (c : option Z) (h : list (option Z)) : list (option Z) :=
  imap (λ i x, if P i then c else x) h.

#[export] Instance block_numpy : ArrayOps Block (list (option Z)) := {
  np_shape := bk_shape;
  np_slice a offset n :=
    let size := Z.of_nat (bk_size a) in
    let start := Z.max 0 (Z.min offset size) in
    let stop := Z.max start (Z.min (offset + n) size) in
    mk_block (bk_base a + Z.to_nat start) [stop - start];
  np_flat a := mret (mk_block (bk_base a) [Z.of_nat (bk_size a)]);
  np_full_nan n := λ h, (Ok (mk_block (length h) [n]), h ++ replicate (Z.to_nat n) None);
  np_fill_nan a h := ex_mark (bk_owns a) None h;
  np_all_nan a h := forallb (λ x, match x with None => true | Some _ => false end) (take (bk_size a) (drop (bk_base a) h))
}.

Lemma ex_mark_lookup (P : nat → bool) (c : option Z) (h : list (option Z)) (l : nat) :
  ex_mark P c h !! l = (λ x, if P l then c else x) <$> h !! l.
Proof. apply list_lookup_imap. Qed.

Lemma bk_owns_spec (a : Block) (l : nat) : bk_owns a l = true ↔ (bk_base a ≤ l < bk_base a + bk_size a)%nat.
Proof. unfold bk_owns. rewrite andb_true_iff, Nat.leb_le, Nat.ltb_lt. lia. Qed.

Lemma bk_size_flat (b : nat) (n : Z) : bk_size (mk_block b [n]) = Z.to_nat n.
Proof. unfold bk_size. cbn. f_equal. lia. Qed.

#[export] Instance block_laws : ArrayLaws Block (list (option Z)) nat (option (option Z)).
Proof.
  refine {| np_owns a l := bk_owns a l = true; np_allocated h l := (l < length h)%nat; np_read h l := h !! l |}.
  - intros a offset n l. rewrite !bk_owns_spec. cbn [np_slice block_numpy]. rewrite bk_size_flat. cbn [bk_base]. lia.
  - done.
  - done.
  - intros a b h h' l [= <- _]. unfold bk_owns, bk_size. cbn. rewrite Z.mul_1_r, Nat2Z.id. by left.
  - intros n h l Hl. cbn. rewrite length_app. lia.
  - intros n h l Hl. cbn. by rewrite lookup_app_l.
  - intros n a h h' l [= <- _]. unfold bk_owns. cbn. rewrite andb_true_iff, Nat.leb_le. lia.
  - intros a h l Hl. cbn. unfold ex_mark. by rewrite length_imap.
  - intros a h l Hl. cbn. rewrite ex_mark_lookup. destruct (bk_owns a l); [done|]. by destruct (h !! l).
Defined.

(** The cells of the arrays the operator of a family declares to write. *)
Definition ex_targets (storage : dict Z Block) (f : TaskFamily) (l : nat) : bool :=
  existsb (λ R, match dict_get storage (rg_storage_id R) with Some a => bk_owns a l | None => false end)
    (op_write_regions (tf_op f)).
Definition ex_writer : OperatorGraph → dict Z Block → string → TaskFamily → list Z → scalars → M (list (option Z)) unit :=
  λ _ storage _ f _ _, modify (ex_mark (ex_targets storage f) (Some 1)).
Definition ex_read : OperatorGraph → dict Z Block → list (option Z) → string → result (list (option Z)) := λ _ _ h _, Ok h.

Lemma ex_writes_declared : writes_declared ex_writer.
Proof.
  intros graph storage kind f cs sc h l Hl. unfold ex_writer. cbn. unfold ex_mark at 1. rewrite length_imap. split; [done|].
  intros Hno. rewrite ex_mark_lookup. destruct (ex_targets storage f l) eqn:E; [|by destruct (h !! l)].
  unfold ex_targets in E. apply existsb_exists in E as (R & HR & E).
  destruct (dict_get storage (rg_storage_id R)) as [a|] eqn:Ea; [|done].
  destruct (Hno R a); [by apply list_elem_of_In|done|done].
Qed.

Abbreviation ex_reference := (run_reference ex_writer ex_read).
Abbreviation ex_run := (run ex_writer ex_read).

(** One cell of weights, one of ids, and one of each cache. *)
Definition ex_store : list (option Z) := [Some 10; Some 11; None; None].
Definition ex_arrays (exe : CompiledExecutable) : dict string Block :=
  (λ sn : Z * string, (sn.2, mk_block 0 [1])) <$> g_storage_names (ce_graph exe).
Definition ex_ids : Block := mk_block 1 [1].
Definition ex_cache (n : Z) : CacheArg (Array := Block) (H := list (option Z)) (Logits := list (option Z)) :=
  ACache (mk_cache (mk_block 2 [1]) (mk_block 3 [1]) n).
Definition ex_state : RunState := mk_run_state ex_store (ex_cache 0).

(** The names of the external storages a program writes. *)
Definition written_names (exe : CompiledExecutable) : list string :=
  snd <$> filter (λ sn : Z * string, (sn.1 ∉ g_fresh_storages (ce_graph exe))
                    ∧ Exists (λ op, Exists (λ R, rg_storage_id R = sn.1) (op_write_regions op)) (g_ops (ce_graph exe)))
            (g_storage_names (ce_graph exe)).

(** The part of a task that looks for its family and body. *)
Definition ex_task_family (p : PhasePlan) (t : Z) : result TaskFamily :=
  family ← family_of p t;
  local ← local_id p t;
  _ ← family_coords family local;
  _ ← require (bool_decide (tf_kind family ∈ (λ kc : string * OperatorContract, oc_task_kind kc.2) <$> CONTRACTS))
        (ExecutorError "no reference body for task kind");
  Ok family.

Lemma ex_task (g : OperatorGraph) (storage : dict Z Block) (p : PhasePlan) (sc : scalars) (h : list (option Z)) (t : Z) :
  execute_task (settled (ex_writer g storage)) p sc h t
  = f ← ex_task_family p t; Ok (ex_mark (ex_targets storage f) (Some 1) h).
Proof.
  unfold execute_task, ex_task_family. destruct (family_of p t) as [f|]; [|done]. cbn. destruct (local_id p t) as [l|]; [|done].
  cbn. destruct (family_coords f l) as [cs|]; [|done]. cbn. unfold body_of. by destruct (bool_decide _).
Qed.

Definition ex_tasks_return (exe : CompiledExecutable) : bool :=
  forallb (λ p, match phase_task_count p with
                | Ok n => (0 <=? n) && forallb (λ t, is_ok (ex_task_family p t)) (zrange n)
                | Err _ => false
                end) (ps_phases (ce_schedule exe)).

Lemma ex_tasks_independent (exe : CompiledExecutable) (sc : scalars) :
  ex_tasks_return exe = true → tasks_independent ex_writer exe sc.
Proof.
  unfold ex_tasks_return. rewrite forallb_forall. intros H storage p Hp%list_elem_of_In. specialize (H p Hp).
  destruct (phase_task_count p) as [n|] eqn:En; [|done]. apply andb_true_iff in H as [Hn H]. zbool. split; [|by exists n].
  rewrite forallb_forall in H. intros n' t1 t2 Hn' H1 H2 _ h. rewrite En in Hn'. injection Hn' as <-. rewrite !ex_task.
  assert (Hk : ∀ t, 0 ≤ t < n → ∃ f, ex_task_family p t = Ok f).
  { intros t Ht. specialize (H t ltac:(by apply list_elem_of_In, elem_of_zrange)).
    destruct (ex_task_family p t) as [f|]; [by exists f|done]. }
  destruct (Hk t1 H1) as [f1 E1], (Hk t2 H2) as [f2 E2]. rewrite E1, E2. cbn. rewrite !ex_task, E1, E2. cbn. f_equal.
  apply list_eq. intros l. rewrite !ex_mark_lookup. destruct (h !! l); [|done]. cbn. by destruct (ex_targets _ f1 _), (ex_targets _ f2 _).
Qed.

(** The one-layer GPT-2 runs, writes both caches and nothing else of the
    caller, and a position outside the cache writes nothing. *)
Lemma ex_compiles_and_runs : ∃ exe counter', ex_compile [] = (Ok exe, counter')
  ∧ written_names exe = ["k_cache"; "v_cache"]%string ∧ ex_tasks_return exe = true
  ∧ (let '(out, st') := ex_run exe None (ex_arrays exe) ex_ids 1 None "reference" None true ex_state in
     is_ok out = true ∧ take 4 (rs_store st') = [Some 10; Some 11; Some 1; Some 1]).
Proof.
  assert (H : match ex_compile [] with
              | (Ok exe, _) =>
                  bool_decide (written_names exe = ["k_cache"; "v_cache"]%string) && ex_tasks_return exe
                  && (let '(out, st') := ex_run exe None (ex_arrays exe) ex_ids 1 None "reference" None true ex_state in
                      is_ok out && bool_decide (take 4 (rs_store st') = [Some 10; Some 11; Some 1; Some 1]))
              | (Err _, _) => false
              end = true) by (vm_compute; reflexivity).
  destruct (ex_compile []) as [[exe|e] counter']; [|done]. exists exe, counter'. apply andb_true_iff in H as [H H3].
  apply andb_true_iff in H as [H1%bool_decide_eq_true H2]. split_and!; [reflexivity|done|done|].
  destruct (ex_run exe _ _ _ _ _ _ _ _ _) as [out st']. apply andb_true_iff in H3 as [H3 H4%bool_decide_eq_true]. by split.
Qed.


Lemma run_worker_independent_witness : ∃ exe counter', ex_compile [] = (Ok exe, counter')
  ∧ (λ r : list (option Z) * (list (option Z) * ExecutionTrace), (r.1, r.2.1))
      <$> outcome (ex_reference exe (ex_arrays exe) ex_ids (ex_cache 0) 1 None (Some 1) true ex_store)
    = (λ r : list (option Z) * (list (option Z) * ExecutionTrace), (r.1, r.2.1))
      <$> outcome (ex_reference exe (ex_arrays exe) ex_ids (ex_cache 0) 1 None (Some 7) true ex_store).
Proof.
  destruct ex_compiles_and_runs as (exe & counter' & E & _ & Hind & _). exists exe, counter'. split; [exact E|].
  apply (run_worker_independent ex_writer ex_read _ _ _ _ _ _ _ _ _ _ exe _ _ _ _ _ _ 1 7 _ E);
    [by apply ex_tasks_independent|lia|lia].
Defined.

(** The smallest DeepSeek-V4: one layer. *)
Definition ex_deepseek : ModelConfig :=
  let d := DeepseekV4Config_defaults in
  CDeepseekV4 (mk_DeepseekV4Config 1 1 8 8 1 1 (d4_mhc_eps d) (d4_mhc_rms_eps d) 1 4 1 (d4_attention_scale d) 1 1 1 1
    (d4_compressor_eps d) 1 1 4 (d4_routed_scaling_factor d) 4 (d4_rms_eps d) 2 3).

Lemma ex_deepseek_compiles : is_ok (compile_model 16 (λ _, ""%string) (Some ex_deepseek) None "reference" "phase" true None []).1 = true.
Proof. vm_compute. reflexivity. Qed.

Lemma row_position_models_not_runnable_witness : ∃ exe counter',
  compile_model 16 (λ _, ""%string) (Some ex_deepseek) None "reference" "phase" true None [] = (Ok exe, counter')
  ∧ ex_run exe None (ex_arrays exe) ex_ids 0 None "reference" None true ex_state = (Err (KeyError "p"), ex_state).
Proof.
  destruct (compile_model 16 _ (Some ex_deepseek) None _ _ true None []) as [[exe|e] counter'] eqn:E.
  2: { pose proof ex_deepseek_compiles as H. rewrite E in H. discriminate H. }
  exists exe, counter'. split; [reflexivity|].
  assert (Hcfg : row_positioned (ce_config exe) = true) by (destruct (compile_model_compiled _ _ _ _ _ _ _ _ _ _ _ E) as [-> _]; reflexivity).
  apply (row_position_models_not_runnable ex_writer ex_read _ _ _ _ _ _ _ _ _ _ exe counter_ok_nil E Hcfg).
Defined.
