(* ===== verification/Footprint.v ===== *)
(** * Footprints of the dense lowerings

    What a task of a lowered family may touch: every region its callbacks
    declare lies inside the whole region of one of the operator's operands.
    This is the obligation ([TilesCovered]) the tile scheduler relies on. *)

From S2P Require Import Prelude Indexing OperatorIR Contracts TaskIR.
From S2P Require Import SchedulePhase ScheduleStatic TileDependencies LoweringsCommon LoweringsDense.
From S2P Require Import Operands.
Local Open Scope Z_scope.

(** ** Rules for region callbacks *)

(** [m], when it returns, returns a value satisfying [P]. *)
Definition post {A} (P : A → Prop) (m : result A) : Prop := ∀ x, m = Ok x → P x.

Section rules.
Context (P : Region → Prop).

Lemma post_bind {A B} (Q : B → Prop) (m : result A) (k : A → result B) :
  (∀ x, m = Ok x → post Q (k x)) → post Q (m ≫= k).
Proof. intros H y Hy. destruct m as [x|]; [|done]. by apply (H x). Qed.

Lemma post_ok {A} (Q : A → Prop) (x : A) : Q x → post Q (Ok x).
Proof. by intros H y [= <-]. Qed.

Lemma post_regions (l : list (result Region)) :
  Forall (post P) l → post (Forall P) (regions l).
Proof.
  unfold regions. induction 1 as [|m l Hm Hl IH]; simpl.
  - apply post_ok. constructor.
  - apply post_bind. intros r Hr. apply post_bind. intros rs Hrs. apply post_ok. constructor.
    + by apply Hm.
    + by apply IH.
Qed.

Lemma post_app (m1 m2 : result (list Region)) :
  post (Forall P) m1 → post (Forall P) m2 →
  post (Forall P) (a ← m1; b ← m2; Ok (a ++ b)).
Proof.
  intros H1 H2. apply post_bind. intros a Ha. apply post_bind. intros b Hb. apply post_ok.
  apply Forall_app. split; [by apply H1|by apply H2].
Qed.

Lemma post_tail (m : result (list Region)) (tl : list Region) :
  post (Forall P) m → Forall P tl → post (Forall P) (a ← m; Ok (a ++ tl)).
Proof. intros Hm Ht. apply (post_app m (Ok tl)); [done|by apply post_ok]. Qed.
End rules.

Lemma in_extent_tile (tv : TensorValue) (tile : list (Z * bound)) :
  Forall (λ b, 0 ≤ b.1) tile → post (in_extent tv) (tile_region tv tile).
Proof. intros Hb r Hr. unfold tile_region, region_tile in Hr. by res_inv. Qed.

(** ** Task coordinates and boxes are non-negative *)
Abbreviation nonneg := (Forall (λ c : Z, 0 ≤ c)).

Lemma py_index_elem {A} (xs : list A) (i : nat) (x : A) : py_index xs i = Ok x → xs !! i = Some x.
Proof. unfold py_index. intros H. by res_inv. Qed.

Lemma py_index_nonneg (cs : list Z) (i : nat) (c : Z) : nonneg cs → py_index cs i = Ok c → 0 ≤ c.
Proof. intros Hc H%py_index_elem. by eapply Forall_lookup_1 in H. Qed.

Lemma unpack2_nonneg (cs : list Z) (a b : Z) : nonneg cs → unpack2 cs = Ok (a, b) → 0 ≤ a ∧ 0 ≤ b.
Proof.
  unfold unpack2. intros Hc H. destruct cs as [|? [|? [|] ] ]; simplify_eq.
  apply Forall_cons in Hc as [? [? _]%Forall_cons]. done.
Qed.

Lemma pair_box_nonneg (d : TileDomain) (cs : list Z) (m0 m1 n0 n1 : Z) :
  Forall (λ et, 0 ≤ et.2) (td_dims d) → nonneg cs →
  pair_box d cs = Ok ((m0, m1), (n0, n1)) → 0 ≤ m0 ∧ 0 ≤ n0.
Proof.
  unfold pair_box. intros Hd Hc H. res_inv.
  destruct (unpack2_nonneg _ _ _ Hc E). unfold unpack2 in E0.
  destruct (td_dims d) as [|[] [|[] [|] ] ]; simplify_eq.
  apply Forall_cons in Hd as [? [? _]%Forall_cons]. simpl in *. nia.
Qed.

Lemma flat_box_nonneg (view : TensorValue) (lo hi : Z) (box : list (Z * bound)) :
  nonneg (tv_shape view) → 0 ≤ lo → flat_box view lo hi = Ok box → Forall (λ b, 0 ≤ b.1) box.
Proof.
  unfold flat_box, py_last, py_floordiv, py_mod. intros Hs Hlo H.
  destruct (negb _); [done|]. case_decide; [res_inv; by repeat constructor|].
  res_inv. match goal with E : last _ = Some ?x |- _ => rename x into cols; rename E into Hl end.
  assert (0 ≤ cols) by (apply last_Some_elem_of in Hl; rewrite Forall_forall in Hs; by apply Hs).
  repeat case_decide; simplify_eq; repeat (apply Forall_cons; split); try apply Forall_nil_2; cbn [fst span];
    first [apply Z.mod_pos_bound; lia | assert (0 ≤ lo / cols) by (apply Z.div_pos; lia); lia].
Qed.

Lemma elem_box_nonneg (view : TensorValue) (n : Z) (cs : list Z) (box : list (Z * bound)) :
  nonneg (tv_shape view) → nonneg cs → elem_box view n cs = Ok box → Forall (λ b, 0 ≤ b.1) box.
Proof.
  unfold elem_box. intros Hs Hc H. res_inv. pose proof (py_index_nonneg _ _ _ Hc E).
  eapply flat_box_nonneg; [done| |done]. unfold ELEM_TILE. lia.
Qed.

Lemma embed_cols_nonneg (d : TileDomain) (width : Z) (cs : list Z) (c0 c1 : Z) :
  nonneg cs → embed_cols d width cs = Ok (c0, c1) → 0 ≤ c0.
Proof.
  unfold embed_cols. intros Hc H. res_inv. case_decide; simplify_eq; [done|].
  res_inv. pose proof (py_index_nonneg _ _ _ Hc E1). unfold EMBED_TILE_C. lia.
Qed.

(** ** Operands *)
Section operands.
Context (kind : string) (op : Operator) (graph : OperatorGraph).

(** A region within its use of an input the family reads, respectively of an
    input it updates or an output it writes. *)
Definition reads_input (r : Region) : Prop :=
  ∃ i n tv, (i ∉ unread_inputs kind) ∧ op_inputs op !! i = Some n ∧ graph_tensor graph n = Ok tv
    ∧ operand_use kind op graph i tv r.
Definition updates_input (r : Region) : Prop :=
  ∃ i n tv, i ∈ updated_inputs kind ∧ op_inputs op !! i = Some n ∧ graph_tensor graph n = Ok tv
    ∧ operand_use kind op graph i tv r.
Definition writes_output (r : Region) : Prop :=
  ∃ n tv, n ∈ op_outputs op ∧ graph_tensor graph n = Ok tv ∧ in_extent tv r.
Definition writes_operand (r : Region) : Prop := updates_input r ∨ writes_output r.

Lemma tensor_in_inv (i : nat) (tv : TensorValue) :
  tensor_in op graph i = Ok tv → ∃ n, op_inputs op !! i = Some n ∧ graph_tensor graph n = Ok tv.
Proof. unfold tensor_in. intros H. res_inv. eauto using py_index_elem. Qed.

Lemma tensor_out_inv (i : nat) (tv : TensorValue) :
  tensor_out op graph i = Ok tv → ∃ n, op_outputs op !! i = Some n ∧ graph_tensor graph n = Ok tv.
Proof. unfold tensor_out. intros H. res_inv. eauto using py_index_elem. Qed.

Lemma tensor_in_opt_inv (i : nat) (tv : TensorValue) :
  tensor_in_opt op graph i = Ok (Some tv) → tensor_in op graph i = Ok tv.
Proof.
  unfold tensor_in_opt. case_decide; [|done]. intros H1.
  destruct (tensor_in op graph i); simplify_eq/=. done.
Qed.

Lemma use_in_extent (i : nat) (tv : TensorValue) (r : Region) :
  i ∉ head_inputs kind → in_extent tv r → operand_use kind op graph i tv r.
Proof. left. by split. Qed.

Lemma reads_use (i : nat) (tv : TensorValue) (r : Region) :
  tensor_in op graph i = Ok tv → i ∉ unread_inputs kind → operand_use kind op graph i tv r →
  reads_input r.
Proof. intros (n & ? & ?)%tensor_in_inv Hi Hu. by exists i, n, tv. Qed.

Lemma reads_tile (i : nat) (tv : TensorValue) (tile : list (Z * bound)) :
  tensor_in op graph i = Ok tv → i ∉ unread_inputs kind → i ∉ head_inputs kind →
  Forall (λ b, 0 ≤ b.1) tile → post reads_input (tile_region tv tile).
Proof.
  intros Hin Hi Hh Hb r Hr. eapply reads_use; [done..|]. apply use_in_extent; [done|].
  by eapply in_extent_tile.
Qed.

Lemma reads_whole (i : nat) (tv : TensorValue) :
  tensor_in op graph i = Ok tv → i ∉ unread_inputs kind → i ∉ head_inputs kind →
  reads_input (whole tv).
Proof.
  intros Hin Hi Hh. eapply reads_use; [done..|]. apply use_in_extent; [done|apply in_extent_whole].
Qed.

Lemma reads_pool (i : nat) (tv : TensorValue) (m : result Region) :
  tensor_in op graph i = Ok tv → i ∉ unread_inputs kind → i ∈ pool_inputs kind →
  post (pool_region tv) m → post reads_input m.
Proof. intros Hin Hi Hp Hm r Hr. eapply reads_use; [done..|]. right. split; [done|by apply Hm]. Qed.

Lemma updates_use (i : nat) (tv : TensorValue) (r : Region) :
  tensor_in op graph i = Ok tv → i ∈ updated_inputs kind → operand_use kind op graph i tv r →
  writes_operand r.
Proof. intros (n & ? & ?)%tensor_in_inv Hi Hu. left. by exists i, n, tv. Qed.

Lemma updates_tile (i : nat) (tv : TensorValue) (tile : list (Z * bound)) :
  tensor_in op graph i = Ok tv → i ∈ updated_inputs kind → i ∉ head_inputs kind →
  Forall (λ b, 0 ≤ b.1) tile → post writes_operand (tile_region tv tile).
Proof.
  intros Hin Hi Hh Hb r Hr. eapply updates_use; [done..|]. apply use_in_extent; [done|].
  by eapply in_extent_tile.
Qed.

Lemma updates_pool (i : nat) (tv : TensorValue) (m : result Region) :
  tensor_in op graph i = Ok tv → i ∈ updated_inputs kind → i ∈ pool_inputs kind →
  post (pool_region tv) m → post writes_operand m.
Proof. intros Hin Hi Hp Hm r Hr. eapply updates_use; [done..|]. right. split; [done|by apply Hm]. Qed.

Lemma writes_tile (i : nat) (tv : TensorValue) (tile : list (Z * bound)) :
  tensor_out op graph i = Ok tv → Forall (λ b, 0 ≤ b.1) tile →
  post writes_operand (tile_region tv tile).
Proof.
  intros (n & ? & ?)%tensor_out_inv Hb r Hr. right. exists n, tv. split_and!; try done.
  - by eapply list_elem_of_lookup_2.
  - by eapply in_extent_tile.
Qed.
End operands.

(** Tensors have non-negative dimensions. *)
Definition graph_dims (graph : OperatorGraph) : Prop :=
  ∀ n tv, graph_tensor graph n = Ok tv → nonneg (tv_shape tv).

Lemma graph_dims_tensors (g : OperatorGraph) :
  Forall (λ ntv : string * TensorValue, nonneg (tv_shape ntv.2)) (g_tensors g) → graph_dims g.
Proof.
  intros Hall n tv H. unfold graph_tensor in H.
  destruct (dict_get (g_tensors g) n) as [tv'|] eqn:E; simplify_eq/=.
  apply dict_get_elem in E. rewrite Forall_forall in Hall. exact (Hall _ E).
Qed.

Lemma tensor_dims (op : Operator) (graph : OperatorGraph) (i : nat) (tv : TensorValue) :
  graph_dims graph → tensor_in op graph i = Ok tv → nonneg (tv_shape tv).
Proof. intros Hd (n & _ & Hn)%tensor_in_inv. by eapply Hd. Qed.

Lemma tensor_out_dims (op : Operator) (graph : OperatorGraph) (i : nat) (tv : TensorValue) :
  graph_dims graph → tensor_out op graph i = Ok tv → nonneg (tv_shape tv).
Proof. intros Hd (n & _ & Hn)%tensor_out_inv. by eapply Hd. Qed.

Lemma unpack3_nonneg (cs : list Z) (a b c : Z) :
  nonneg cs → unpack3 cs = Ok (a, b, c) → 0 ≤ a ∧ 0 ≤ b ∧ 0 ≤ c.
Proof.
  unfold unpack3. intros Hc H. destruct cs as [|? [|? [|? [|] ] ] ]; simplify_eq.
  apply Forall_cons in Hc as [? [? [? _]%Forall_cons]%Forall_cons]. done.
Qed.

Lemma numel_nonneg (tv : TensorValue) : nonneg (tv_shape tv) → 0 ≤ numel tv.
Proof.
  unfold numel. rewrite numel_of_zprod. induction 1; [unfold zprod; simpl; lia|].
  rewrite zprod_cons. nia.
Qed.

Definition dims_nonneg (d : TileDomain) : Prop := Forall (λ p, 0 ≤ p.1 ∧ 0 ≤ p.2) (td_dims d).

(** Coordinates of a domain: non-negative, and below the extent along a
    dimension of unit tiles. *)
Definition in_grid (d : TileDomain) (cs : list Z) : Prop :=
  Forall2 (λ p c, 0 ≤ c ∧ (p.2 = 1 → c < p.1)) (td_dims d) cs.

Lemma in_grid_nonneg (d : TileDomain) (cs : list Z) : in_grid d cs → nonneg cs.
Proof. unfold in_grid. induction 1 as [|? ? ? ? [? _] _ IH]; constructor; auto. Qed.

Lemma in_grid_pair (B H a b : Z) (cs : list Z) :
  in_grid (mk_domain [(B, 1); (H, 1)]) cs → unpack2 cs = Ok (a, b) → 0 ≤ a < B ∧ 0 ≤ b < H.
Proof.
  unfold in_grid, unpack2. simpl. intros Hg Hu. destruct cs as [|? [|? [|] ] ]; simplify_eq.
  apply Forall2_cons in Hg as [[? Ha] [[? Hb] _]%Forall2_cons]. simpl in *.
  specialize (Ha eq_refl). specialize (Hb eq_refl). lia.
Qed.

Lemma coords_loop_bounds (grid : list Z) (rem r : Z) (cs : list Z) :
  nonneg grid → 0 ≤ rem → coords_loop grid rem = Ok (cs, r) →
  Forall2 (λ g c, 0 ≤ c < g) grid cs ∧ 0 ≤ r.
Proof.
  intros Hg Hr. revert cs r. induction Hg as [|g gs Hg Hgs IH]; intros cs r H; simpl in H.
  { by simplify_eq. }
  destruct (coords_loop gs rem) as [[cs' r']|]; [|done]. simpl in H.
  destruct (IH _ _ eq_refl) as [Hcs Hr']. res_inv. unfold py_mod, py_floordiv in *. repeat case_decide; simplify_eq.
  split; [constructor; [apply Z.mod_pos_bound; lia|done]|apply Z.div_pos; lia].
Qed.

(** Coordinates of a task id. *)
Lemma coords_in_grid (d : TileDomain) (t : Z) (cs : list Z) :
  dims_nonneg d → 0 ≤ t → coords d t = Ok cs → in_grid d cs.
Proof.
  unfold coords, dims_nonneg, in_grid. intros Hd Ht H.
  destruct (task_grid d) as [grid|] eqn:Hg; [|done]. simpl in H.
  destruct (coords_loop grid t) as [[cs' r']|] eqn:Hl; [|done]. simpl in H.
  case_decide; simplify_eq. unfold task_grid in Hg. apply map_result_Forall2 in Hg.
  assert (Hext : Forall2 (λ p g, 0 ≤ g ∧ (p.2 = 1 → g ≤ p.1)) (td_dims d) grid).
  { clear -Hg Hd. induction Hg as [|[e u] g ds gs Hq _ IH]; [constructor|].
    apply Forall_cons in Hd as [[He Hu] Hd]. simpl in *. constructor; [|by apply IH].
    unfold py_floordiv in Hq. case_decide; simplify_eq. simpl. split; [apply Z.div_pos; lia|].
    intros ->. rewrite Z.div_1_r. lia. }
  assert (Hgn : nonneg grid) by (clear -Hext; induction Hext as [|? ? ? ? [? _] _ IH]; constructor; auto).
  destruct (coords_loop_bounds _ _ _ _ Hgn Ht Hl) as [Hb _].
  clear -Hext Hb. revert cs Hb. induction Hext as [|p g ds gs [Hg He] _ IH]; intros cs Hb;
    inversion Hb; subst; constructor; [|by apply IH].
  split; [lia|]. intros Hp. specialize (He Hp). lia.
Qed.

(** The sizes an operator carries as attributes are positive. *)
Record sizes_ok (op : Operator) : Prop := {
  so_groups : truthy (attr_or op "grouped_heads" ANone) = true →
              ∃ g, as_int (attr_or op "grouped_heads" ANone) = Ok g ∧ 1 ≤ g;
  so_block : ∀ q, as_int (attr_or op "quant_block" (AInt 128)) = Ok q → 1 ≤ q
}.

Definition fn_post (P : Region → Prop) (d : TileDomain) (fn : option RegionFn) : Prop :=
  ∀ g cs, fn = Some g → in_grid d cs → post (Forall P) (g cs).

(** The footprint of a factory: for every task of the family, reads within
    the inputs, writes within the inputs it updates and the outputs. *)
Definition footprint (kind : string)
    (factory : Operator → OperatorGraph → result TaskFamily) : Prop := ∀ op graph f,
  factory op graph = Ok f → graph_dims graph → sizes_ok op → heads_ok op graph →
  dims_nonneg (tf_domain f)
  ∧ fn_post (reads_input kind op graph) (tf_domain f) (tf_read_regions f)
  ∧ fn_post (writes_operand kind op graph) (tf_domain f) (tf_write_regions f).

Create HintDb footprints.

(** A membership in one of the position tables. *)
Ltac table_fact := apply (bool_decide_unpack _); vm_compute; exact I.

(** Apply the rules until only box arithmetic is left. *)
Ltac fp_arith :=
  repeat match goal with
  | Hc : Forall _ ?cs, H : py_index ?cs _ = Ok ?c |- _ =>
      pose proof (py_index_nonneg _ _ _ Hc H); clear H
  | Hc : Forall _ ?cs, H : unpack2 ?cs = Ok _ |- _ =>
      destruct (unpack2_nonneg _ _ _ Hc H); clear H
  | Hc : Forall _ ?cs, H : embed_cols _ _ ?cs = Ok _ |- _ =>
      pose proof (embed_cols_nonneg _ _ _ _ _ Hc H); clear H
  | Hc : Forall _ ?cs, H : pair_box _ ?cs = Ok _ |- _ =>
      eapply pair_box_nonneg in H as [? ?];
        [|unfold GEMM_TILE_M, GEMM_TILE_N, GEMV_FP8_TILE_N; repeat constructor; simpl; lia|exact Hc]
  end;
  repeat (apply Forall_cons; split); try apply Forall_nil_2; cbn [fst span cell upto];
  try lia.

Ltac fp_rule :=
  match goal with
  | |- post (Forall _) (regions _) => apply post_regions
  | |- Forall (post _) _ => repeat (apply Forall_cons; split); try apply Forall_nil_2
  | |- post (Forall _) (mbind (λ a, mbind (λ b, Ok (a ++ b)) _) _) => apply post_app
  | |- post (Forall _) (mbind (λ a, Ok (a ++ _)) _) => apply post_tail
  | |- post _ (mbind _ _) => apply post_bind; intros ? ?
  | H : tensor_in_opt _ _ _ = Ok (Some _) |- _ => apply tensor_in_opt_inv in H
  | H : tensor_in_opt _ _ _ = Ok ?o |- Forall _ (match ?o with _ => _ end) => destruct o
  | |- Forall (reads_input _ _ _) _ => repeat (apply Forall_cons; split); try apply Forall_nil_2
  | |- post _ (let '(_, _) := ?p in _) => destruct p
  | |- post _ (Ok _) => apply post_ok
  | |- post _ (row_tile _ _ _) => unfold row_tile
  | |- post _ (head_tile _ _ _) => unfold head_tile
  | H : tensor_in _ _ ?i = Ok ?tv |- post (reads_input _ _ _) (tile_region ?tv _) =>
      apply (reads_tile _ _ _ i); [exact H|table_fact|table_fact|]
  | H : tensor_in _ _ ?i = Ok ?tv |- reads_input _ _ _ (whole ?tv) =>
      apply (reads_whole _ _ _ i); [exact H|table_fact|table_fact]
  | H : tensor_out _ _ ?i = Ok ?tv |- post (writes_operand _ _ _) (tile_region ?tv _) =>
      apply (writes_tile _ _ _ i); [exact H|]
  | H : tensor_in _ _ ?i = Ok ?tv |- post (writes_operand _ _ _) (tile_region ?tv _) =>
      apply (updates_tile _ _ _ i); [exact H|table_fact|table_fact|]
  end.

Ltac fp_dims :=
  unfold dims_nonneg; cbn [tf_domain td_dims];
  repeat match goal with
  | Hd : graph_dims _, H : tensor_in _ _ _ = Ok ?tv |- _ =>
      lazymatch goal with _ : nonneg (tv_shape tv) |- _ => fail | _ => idtac end;
      pose proof (tensor_dims _ _ _ _ Hd H)
  | Hd : graph_dims _, H : tensor_out _ _ _ = Ok ?tv |- _ =>
      lazymatch goal with _ : nonneg (tv_shape tv) |- _ => fail | _ => idtac end;
      pose proof (tensor_out_dims _ _ _ _ Hd H)
  end;
  repeat match goal with
  | Hc : nonneg ?s, H : unpack2 ?s = Ok _ |- _ => destruct (unpack2_nonneg _ _ _ Hc H); clear H
  | Hc : nonneg ?s, H : unpack3 ?s = Ok _ |- _ =>
      destruct (unpack3_nonneg _ _ _ _ Hc H) as (? & ? & ?); clear H
  | Hc : nonneg ?s, H : py_index ?s _ = Ok _ |- _ => pose proof (py_index_nonneg _ _ _ Hc H); clear H
  end;
  repeat (apply Forall_cons; split); try apply Forall_nil_2;
  cbn [fst snd]; unfold GEMM_TILE_M, GEMM_TILE_N, GEMV_FP8_TILE_N, ELEM_TILE, EMBED_TILE_C;
  try (split; first [lia | by apply numel_nonneg]).

Ltac fp_task :=
  split; intros g cs Hg Hgrid; pose proof (in_grid_nonneg _ _ Hgrid) as Hcs; simplify_eq/=.
Ltac fp_start :=
  intros op graph f H Hdims Hsizes Hheads; repeat (progress (res_inv; cbn beta iota in *));
  split; [fp_dims|fp_task].

Lemma layer_norm_footprint : footprint "layer_norm" lower_layer_norm.
Proof. unfold lower_layer_norm. fp_start; repeat fp_rule; fp_arith. Qed.

Lemma rope_footprint : footprint "rope" lower_rope.
Proof. unfold lower_rope. fp_start; repeat fp_rule; fp_arith. Qed.

(** A two-way choice of callbacks: follow the branch taken. *)
Ltac fp_branches :=
  repeat (progress (res_inv; cbn beta iota in *;
    try match goal with
    | H : (if decide ?P then _ else _) = Ok _ |- _ => destruct (decide P)
    | H : (if truthy ?v then _ else _) = Ok _ |- _ => destruct (truthy v) eqn:?
    end)).

Lemma rms_norm_footprint : footprint "rms_norm" lower_rms_norm.
Proof.
  unfold lower_rms_norm. intros op graph f H Hdims Hsizes Hheads. fp_branches;
    (split; [fp_dims|fp_task; repeat fp_rule; fp_arith]).
Qed.

Lemma rms_norm_gated_footprint : footprint "rms_norm_gated" lower_rms_norm_gated.
Proof.
  unfold lower_rms_norm_gated. intros op graph f H Hdims Hsizes Hheads. fp_branches;
    (split; [fp_dims|fp_task; repeat fp_rule; fp_arith]).
Qed.

Lemma moe_expert_footprint : footprint "moe_expert" lower_moe_expert.
Proof. unfold lower_moe_expert. fp_start; repeat fp_rule; fp_arith. Qed.

Lemma linear_fp8_footprint : footprint "linear_fp8" lower_linear_fp8.
Proof.
  unfold lower_linear_fp8. fp_start; unfold linear_fp8_reads, gemm_writes; repeat fp_rule; fp_arith.
  pose proof (so_block _ Hsizes _ E4). unfold py_floordiv in *. case_decide; simplify_eq.
  apply Z.div_pos; lia.
Qed.

Lemma embedding_footprint : footprint "embedding" lower_embedding.
Proof. unfold lower_embedding. fp_start; repeat fp_rule; fp_arith. Qed.

Lemma moe_combine_footprint : footprint "moe_combine" lower_moe_combine.
Proof. unfold lower_moe_combine. fp_start; repeat fp_rule; fp_arith. Qed.

(** *** Elementwise operators *)
Ltac fp_elem :=
  repeat fp_rule;
  match goal with
  | H : elem_box ?v _ ?cs = Ok ?b |- Forall _ ?b =>
      eapply elem_box_nonneg; [|eassumption|exact H]; eauto using tensor_dims, tensor_out_dims
  end.

Lemma gelu_footprint : footprint "gelu" lower_gelu.
Proof. unfold lower_gelu. fp_start; fp_elem. Qed.

Lemma swiglu_footprint : footprint "swiglu" lower_swiglu.
Proof. unfold lower_swiglu. fp_start; fp_elem. Qed.

Lemma add_footprint : footprint "add" lower_add.
Proof. unfold lower_add. fp_start; fp_elem. Qed.

(** *** linear *)
Lemma fold_post {A S} (Q : S → Prop) (f : S → A → result S) (s : S) (l : list A) :
  Q s → (∀ s x, x ∈ l → Q s → post Q (f s x)) → post Q (fold_result f s l).
Proof.
  revert s. induction l as [|x l IH]; intros s Hs Hf; simpl; [by apply post_ok|].
  apply post_bind. intros s' Hs'. apply IH.
  - eapply Hf; [left|exact Hs|exact Hs'].
  - intros. eapply Hf; [by right|done].
Qed.

Lemma py_range_ge (start stop x : Z) (xs : list Z) :
  py_range start stop 1 = Ok xs → x ∈ xs → start ≤ x.
Proof.
  unfold py_range. case_decide; [done|]. intros [= <-] (i & -> & Hi%elem_of_zrange)%list_elem_of_fmap.
  lia.
Qed.

Lemma grouped_regions_footprint (op : Operator) (graph : OperatorGraph) (x w : TensorValue)
    (m0 m1 n0 n1 k_g n_g gh : Z) :
  tensor_in op graph 0 = Ok x → tensor_in op graph 1 = Ok w →
  0 ≤ m0 → 0 ≤ n0 → 0 ≤ k_g → 0 ≤ n_g →
  post (Forall (reads_input "linear" op graph)) (grouped_regions x w m0 m1 n0 n1 k_g n_g gh).
Proof.
  intros Hx Hw Hm0 Hn0 Hk Hn. unfold grouped_regions, py_floordiv.
  destruct (decide (n_g = 0)); [done|]. repeat (apply post_bind; intros ? ?). simplify_eq.
  apply fold_post; [constructor|]. intros rs h Hh Hrs.
  assert (0 ≤ h).
  { eapply py_range_ge in Hh; [|done]. assert (0 ≤ n0 / n_g) by (apply Z.div_pos; lia). lia. }
  apply post_bind. intros rx Hrx. apply post_bind. intros rw Hrw. apply post_ok.
  apply Forall_app. split; [done|]. repeat (apply Forall_cons; split); [..|apply Forall_nil_2].
  - eapply (reads_tile _ op graph 0); [exact Hx|table_fact|table_fact| |exact Hrx]. fp_arith.
  - eapply (reads_tile _ op graph 1); [exact Hw|table_fact|table_fact| |exact Hrw]. fp_arith.
Qed.

Lemma bias_regions_footprint (op : Operator) (graph : OperatorGraph) (bias : option TensorValue)
    (n0 n1 : Z) :
  tensor_in_opt op graph 2 = Ok bias → 0 ≤ n0 →
  post (Forall (reads_input "linear" op graph)) (bias_regions bias n0 n1).
Proof.
  intros Hb Hn. unfold bias_regions. destruct bias as [b|]; [|by apply post_ok].
  apply tensor_in_opt_inv in Hb. apply post_bind. intros r Hr. apply post_ok.
  apply Forall_cons. split; [|done].
  eapply (reads_tile _ op graph 2); [exact Hb|table_fact|table_fact| |exact Hr]. fp_arith.
Qed.

Lemma floordiv_nonneg (a b q : Z) : 0 ≤ a → 0 ≤ b → py_floordiv a b = Ok q → 0 ≤ q.
Proof. unfold py_floordiv. intros. case_decide; simplify_eq. apply Z.div_pos; lia. Qed.

Lemma linear_footprint : footprint "linear" lower_linear.
Proof.
  unfold lower_linear, gemm_domain. fp_start; unfold linear_reads, gemm_writes;
    repeat fp_rule; fp_arith.
  assert (Hdim : ∀ i tv k, tensor_in op graph i = Ok tv → py_index (tv_shape tv) 1 = Ok k → 0 ≤ k).
  { intros i tv k Htv Hk. eapply py_index_nonneg; [by eapply tensor_dims|done]. }
  destruct (truthy _) eqn:Ht.
  - destruct (so_groups _ Hsizes Ht) as (gh & -> & Hgh). cbn [mbind result_bind].
    apply post_bind. intros k_g Hkg. apply post_bind. intros wn Hwn. apply post_bind.
    intros n_g Hng. apply post_app; [|by eapply bias_regions_footprint].
    eapply grouped_regions_footprint; try done; (eapply floordiv_nonneg; [| |done]; [|lia]); eauto.
  - apply post_app; [|by eapply bias_regions_footprint]. repeat fp_rule; fp_arith.
Qed.

(** *** moe_route: optional operands are declared by name *)
Lemma named_wholes (kind : string) (op : Operator) (graph : OperatorGraph) (names : list string) :
  (∀ n, n ∈ names → ∃ i, (i ∉ unread_inputs kind) ∧ (i ∉ head_inputs kind) ∧ op_inputs op !! i = Some n) →
  post (Forall (reads_input kind op graph)) (map_result (λ name, whole <$> graph_tensor graph name) names).
Proof.
  induction names as [|n names IH]; intros Hn; simpl; [by apply post_ok|].
  apply post_bind. intros r Hr. apply post_bind. intros rs Hrs. apply post_ok.
  apply Forall_cons. split; [|apply IH; [|done]; intros; apply Hn; by right].
  destruct (Hn n ltac:(left)) as (i & Hi & Hh & Hl).
  destruct (graph_tensor graph n) as [tv|] eqn:E; simplify_eq/=.
  exists i, n, tv. split_and!; try done. apply use_in_extent; [done|apply in_extent_whole].
Qed.

Lemma moe_route_footprint : footprint "moe_route" lower_moe_route.
Proof.
  unfold lower_moe_route. intros op graph f H Hdims Hsizes Hheads. fp_branches;
    (split; [fp_dims|fp_task;
     [first [apply post_app|apply post_tail]; [repeat fp_rule; fp_arith|]|repeat fp_rule; fp_arith]]).
  all: try solve [constructor]; apply (named_wholes "moe_route" op graph [_; _])
    || apply (named_wholes "moe_route" op graph [_]); intros n' Hn;
    repeat (apply elem_of_cons in Hn as [->|Hn]); try (by apply not_elem_of_nil in Hn);
    match goal with H : py_index _ ?i = Ok ?m |- ∃ _, _ ∧ _ ∧ _ = Some ?m =>
      exists i; split_and!; [table_fact|table_fact|by apply py_index_elem] end.
Qed.
