(* ===== verification/FootprintState.v ===== *)
(** * Footprints of the attention and recurrent lowerings

    The same obligation as [Footprint] for the stateful operators: caches and
    state tensors are updated in place, pools are reached through their slot
    tables, and a cache shared by groups of heads is read one head at a
    time. *)

From S2P Require Import Prelude Indexing OperatorIR Contracts TaskIR.
From S2P Require Import SchedulePhase ScheduleStatic TileDependencies LoweringsCommon LoweringsDense.
From S2P Require Import LoweringsAttention LoweringsRecurrent Operands Footprint.
Local Open Scope Z_scope.

(** ** Rules for callbacks written with intermediate regions *)
Lemma post_forall_ok {A} (P : A → Prop) (m : result (list A)) (rs : list A) :
  m = Ok rs → post (Forall P) m → Forall P rs.
Proof. intros H Hm. by apply Hm. Qed.

Lemma unpack1_nonneg (cs : list Z) (a : Z) : nonneg cs → unpack1 cs = Ok a → 0 ≤ a.
Proof.
  unfold unpack1. intros Hc H. destruct cs as [|? [|] ]; simplify_eq. by apply Forall_cons in Hc as [? _].
Qed.

Lemma unpack4_nonneg (cs : list Z) (a b c d : Z) :
  nonneg cs → unpack4 cs = Ok (a, b, c, d) → 0 ≤ a ∧ 0 ≤ b ∧ 0 ≤ c ∧ 0 ≤ d.
Proof.
  unfold unpack4. intros Hc H. destruct cs as [|? [|? [|? [|? [|] ] ] ] ]; simplify_eq.
  by apply Forall_cons in Hc as [? [? [? [? _]%Forall_cons]%Forall_cons]%Forall_cons].
Qed.

Lemma unpack5_nonneg (cs : list Z) (a b c d e : Z) :
  nonneg cs → unpack5 cs = Ok (a, b, c, d, e) → 0 ≤ a ∧ 0 ≤ b ∧ 0 ≤ c ∧ 0 ≤ d ∧ 0 ≤ e.
Proof.
  unfold unpack5. intros Hc H. destruct cs as [|? [|? [|? [|? [|? [|] ] ] ] ] ]; simplify_eq.
  by apply Forall_cons in Hc as [? [? [? [? [? _]%Forall_cons]%Forall_cons]%Forall_cons]%Forall_cons].
Qed.

Lemma tail_nonneg (cs : list Z) : nonneg cs → nonneg (tail cs).
Proof. by destruct 1. Qed.

Lemma gdn_tile_nonneg (C t : Z) : gdn_tile C = Ok t → 0 ≤ t.
Proof.
  intros H. destruct (gdn_tile_loop_ok 10 C) as (k & _ & E & _). unfold gdn_tile in H.
  change ELEM_TILE with (2 ^ Z.of_nat 10) in H. rewrite E in H. injection H as <-.
  apply Z.pow_nonneg. lia.
Qed.

Lemma slot_region_pool (pool slot_ids : TensorValue) : post (pool_region pool) (slot_region pool slot_ids).
Proof. intros r Hr. unfold slot_region, region_indirect in Hr. res_inv. by split_and!. Qed.

Ltac fp_region :=
  match goal with
  | |- Forall _ (_ ++ _) => apply Forall_app; split
  | |- post _ (match ?o with Some _ => _ | None => _ end) => destruct o
  | H : (if ?b then _ else _) = Ok ?r |- reads_input _ _ _ ?r => destruct b
  | H : ?m = Ok ?r |- reads_input ?k ?op ?g ?r => revert r H; change (post (reads_input k op g) m)
  | H : ?m = Ok ?rs |- Forall (reads_input _ _ _) ?rs => apply (post_forall_ok _ _ _ H)
  | H : tensor_in _ _ ?i = Ok ?tv |- post (reads_input _ _ _) (slot_region ?tv _) =>
      apply (reads_pool _ _ _ i tv); [exact H|table_fact|table_fact|apply slot_region_pool]
  | H : tensor_in _ _ ?i = Ok ?tv |- post (writes_operand _ _ _) (slot_region ?tv _) =>
      apply (updates_pool _ _ _ i tv); [exact H|table_fact|table_fact|apply slot_region_pool]
  | |- Forall (writes_operand _ _ _) _ => repeat (apply Forall_cons; split); try apply Forall_nil_2
  | |- post _ (pool_tile _) => unfold pool_tile
  end.
Ltac fp_unpack :=
  repeat match goal with
  | Hc : Forall _ ?cs, H : unpack1 ?cs = Ok _ |- _ => pose proof (unpack1_nonneg _ _ Hc H); clear H
  | Hd : graph_dims _, H : tensor_in _ _ _ = Ok ?tv |- _ =>
      lazymatch goal with _ : nonneg (tv_shape tv) |- _ => fail | _ => idtac end;
      pose proof (tensor_dims _ _ _ _ Hd H)
  | Hd : graph_dims _, H : tensor_out _ _ _ = Ok ?tv |- _ =>
      lazymatch goal with _ : nonneg (tv_shape tv) |- _ => fail | _ => idtac end;
      pose proof (tensor_out_dims _ _ _ _ Hd H)
  | Hc : Forall _ ?cs, H : unpack3 (tail ?cs) = Ok _ |- _ =>
      destruct (unpack3_nonneg _ _ _ _ (tail_nonneg _ Hc) H) as (? & ? & ?); clear H
  | Hc : Forall _ ?cs, H : unpack3 ?cs = Ok _ |- _ =>
      destruct (unpack3_nonneg _ _ _ _ Hc H) as (? & ? & ?); clear H
  | Hc : Forall _ ?cs, H : unpack5 ?cs = Ok _ |- _ =>
      destruct (unpack5_nonneg _ _ _ _ _ _ Hc H) as (? & ? & ? & ? & ?); clear H
  | Hc : nonneg (tv_shape _), H : py_index (tv_shape _) _ = Ok _ |- _ =>
      pose proof (py_index_nonneg _ _ _ Hc H); clear H
  | H : gdn_tile _ = Ok _ |- _ => apply gdn_tile_nonneg in H
  | H : py_floordiv ?a ?b = Ok _ |- _ =>
      apply floordiv_nonneg in H; [|lia|lia]
  | Hc : Forall _ ?cs, H : unpack4 ?cs = Ok _ |- _ =>
      destruct (unpack4_nonneg _ _ _ _ _ Hc H) as (? & ? & ? & ?); clear H
  end.
Ltac fp_bounds :=
  unfold indexer_span, INDEXER_TILE_M in *; fp_arith; fp_unpack;
  try match goal with |- context [?a `div` 3] => assert (0 ≤ a `div` 3) by (apply Z.div_pos; lia) end;
  try first [lia|nia].
Ltac fp_state := repeat first [fp_region | fp_rule]; fp_unpack; fp_bounds.

(** ** Heads *)

(** The group size a positive recorded head count gives. *)
Lemma head_group_recorded (op : Operator) (Hq n group : Z) (kvh : attr) :
  head_group op Hq = Ok (kvh, group) → kv_heads_attr op n → 0 < n → group = Hq / n.
Proof.
  unfold head_group, kv_heads_attr, attr_or. intros H Hn Hpos. rewrite Hn in H. simpl in H.
  rewrite (proj2 (Z.eqb_neq n 0)) in H by lia. simpl in H. unfold py_floordiv in H.
  rewrite decide_False in H by lia. by simplify_eq/=.
Qed.

Lemma head_group_nonneg (op : Operator) (graph : OperatorGraph) (Hq group : Z) (kvh : attr) :
  heads_ok op graph → 0 ≤ Hq → head_group op Hq = Ok (kvh, group) → 0 ≤ group.
Proof.
  unfold head_group, kv_heads_attr. intros Hok HHq H.
  assert (Hn : ∀ n, as_int kvh = Ok n → py_floordiv Hq n = Ok group → 0 ≤ n → 0 ≤ group)
    by eauto using floordiv_nonneg.
  res_inv. eapply Hn; [done..|]. clear Hn. unfold heads_ok, kv_heads_attr in Hok.
  unfold attr_or in *. destruct (op_attributes op !! "kv_heads"%string) as [v|]; simpl in *.
  - destruct (truthy v); [|by injection E as <-].
    destruct v as [n| |b| |]; try discriminate E; injection E as <-; [|by destruct b].
    by apply Z.lt_le_incl, Hok.
  - destruct (negb (Hq =? 0)); by injection E as <-.
Qed.

Lemma head_tile_use (kind : string) (op : Operator) (graph : OperatorGraph) (i : nat)
    (q tv : TensorValue) (B Hq group hg bb h d : Z) (kvh : attr) (u : bound) :
  heads_ok op graph → tensor_in op graph 0 = Ok q →
  py_index (tv_shape q) 0 = Ok B → py_index (tv_shape q) 1 = Ok Hq →
  head_group op Hq = Ok (kvh, group) → 0 ≤ bb < B → 0 ≤ h < Hq → py_floordiv h group = Ok hg →
  post (operand_use kind op graph i tv) (tile_region tv [cell bb; cell hg; (0, u); span 0 d]).
Proof.
  intros Hok Hin HB HHq Hgrp Hbb Hh Hhg r Hr. left.
  assert (Hpos : 0 ≤ group) by (eapply head_group_nonneg; [exact Hok| |exact Hgrp]; lia).
  assert (Hg : group ≠ 0) by (unfold py_floordiv in Hhg; by case_decide).
  assert (Hhg' : hg = h / group) by (unfold py_floordiv in Hhg; by case_decide; simplify_eq).
  split.
  - eapply in_extent_tile; [|exact Hr]. assert (0 ≤ h / group) by (apply Z.div_pos; lia).
    repeat (apply Forall_cons; split); try apply Forall_nil_2; cbn [fst span cell]; lia.
  - intros _. exists B, Hq, bb, h, u, d. split_and!; try lia; [by exists q|].
    intros n Hn Hn0. rewrite <- (head_group_recorded _ _ _ _ _ Hgrp Hn Hn0). split; [lia|].
    unfold head_tile_at. subst hg. unfold tile_region, region_tile in Hr. by res_inv.
Qed.

(** The read of the cache that groups of heads share. *)
Ltac fp_head :=
  match goal with
  | Hr : tile_region ?tv _ = Ok ?r, H : tensor_in _ _ 1 = Ok ?tv |- reads_input _ _ _ ?r =>
      eapply (reads_use _ _ _ 1 tv); [exact H|table_fact|];
      eapply head_tile_use; [..|exact Hr]; eassumption
  end.
Ltac fp_grid :=
  match goal with
  | Hg : in_grid _ ?cs, H : unpack2 ?cs = Ok _ |- _ => destruct (in_grid_pair _ _ _ _ _ Hg H)
  end.

(** ** The lowerings *)
Lemma attention_scores_footprint : footprint "attention_scores" lower_attention_scores.
Proof.
  unfold lower_attention_scores. fp_start; repeat fp_rule; try fp_grid; try fp_head;
    fp_state.
Qed.

Lemma attention_values_footprint : footprint "attention_values" lower_attention_values.
Proof.
  unfold lower_attention_values. intros op graph f H Hdims Hsizes Hheads. cbv zeta in H.
  destruct (truthy _); [destruct (tensor_in op graph 2) as [gate|] eqn:Hgate; [|res_inv; done]|];
    fp_branches; (split; [fp_dims|fp_task]); repeat fp_rule; try fp_grid; try fp_head; fp_state.
Qed.

Lemma index_topk_footprint : footprint "index_topk" lower_index_topk.
Proof. unfold lower_index_topk. fp_start; fp_state. Qed.
Lemma indexer_scores_footprint : footprint "indexer_scores" lower_indexer_scores.
Proof. unfold lower_indexer_scores. fp_start; fp_state. Qed.
Lemma cache_append_footprint : footprint "cache_append" lower_cache_append.
Proof. unfold lower_cache_append. fp_start; fp_state. Qed.
Lemma cache_append_paged_footprint : footprint "cache_append_paged" lower_cache_append_paged.
Proof. unfold lower_cache_append_paged. fp_start; fp_state. Qed.
Lemma attention_scores_paged_footprint : footprint "attention_scores_paged" lower_attention_scores_paged.
Proof. unfold lower_attention_scores_paged. fp_start; fp_state. Qed.
Lemma attention_values_paged_footprint : footprint "attention_values_paged" lower_attention_values_paged.
Proof. unfold lower_attention_values_paged. fp_start; fp_state. Qed.
Lemma softmax_footprint : footprint "softmax" lower_softmax.
Proof. unfold lower_softmax. fp_start; fp_state. Qed.
Lemma conjugate_rope_footprint : footprint "conjugate_rope" lower_conjugate_rope.
Proof. unfold lower_conjugate_rope, table_tile. fp_start; fp_state. Qed.
Lemma mla_scores_footprint : footprint "mla_scores" lower_mla_scores.
Proof. unfold lower_mla_scores. fp_start; fp_state. Qed.
Lemma mla_values_footprint : footprint "mla_values" lower_mla_values.
Proof. unfold lower_mla_values. fp_start; fp_state. Qed.
Lemma gdn_conv_footprint : footprint "gdn_conv" lower_gdn_conv.
Proof. unfold lower_gdn_conv. fp_start; fp_state. Qed.
Lemma gdn_delta_footprint : footprint "gdn_delta" lower_gdn_delta.
Proof. unfold lower_gdn_delta. fp_start; fp_state. Qed.
Lemma kda_delta_footprint : footprint "kda_delta" lower_kda_delta.
Proof. unfold lower_kda_delta. fp_start; fp_state. Qed.
Lemma kda_fused_decode_footprint : footprint "kda_fused_decode" lower_kda_fused_decode.
Proof. unfold lower_kda_fused_decode. fp_start; fp_state. Qed.
Lemma mhc_pre_footprint : footprint "mhc_pre" lower_mhc_pre.
Proof. unfold lower_mhc_pre. fp_start; fp_state. Qed.
Lemma mhc_post_footprint : footprint "mhc_post" lower_mhc_post.
Proof. unfold lower_mhc_post. fp_start; fp_state. Qed.
Lemma compressor_append_footprint : footprint "compressor_append" lower_compressor_append.
Proof. unfold lower_compressor_append. fp_start; fp_state. Qed.
