(* ===== verification/Pipeline.v ===== *)
(** * From captured program to race-free schedule

    The passes composed: a well-formed program, lowered to task families and
    scheduled by phases, satisfies the obligations of the tile scheduler, so
    its conflicting tasks are ordered. *)

From S2P Require Import Prelude Indexing OperatorIR Contracts TaskIR SchedulePhase ScheduleStatic.
From S2P Require Import TileDependencies LoweringsCommon LoweringsDense Lowerings Operands Capture.
From S2P Require Import CaptureDense CaptureAttention Declared Captured Footprint FootprintState.
Local Open Scope Z_scope.

(** ** The registry and the footprints *)
#[export] Hint Resolve linear_footprint linear_fp8_footprint layer_norm_footprint rms_norm_footprint
  rms_norm_gated_footprint rope_footprint gelu_footprint swiglu_footprint add_footprint
  embedding_footprint moe_route_footprint moe_expert_footprint moe_combine_footprint
  index_topk_footprint indexer_scores_footprint cache_append_footprint cache_append_paged_footprint
  attention_scores_footprint attention_values_footprint attention_scores_paged_footprint
  attention_values_paged_footprint softmax_footprint conjugate_rope_footprint mla_scores_footprint
  mla_values_footprint gdn_conv_footprint gdn_delta_footprint kda_delta_footprint
  kda_fused_decode_footprint mhc_pre_footprint mhc_post_footprint compressor_append_footprint
  : footprints.

(** Every operator kind has a lowering, with the footprint its tables say. *)
Lemma registry_footprints :
  Forall (λ kc : string * OperatorContract, ∃ factory,
    lowering_named (oc_lowering kc.2) = Some factory ∧ footprint kc.1 factory) CONTRACTS.
Proof.
  unfold CONTRACTS.
  repeat (apply Forall_cons; split; [eexists; split; [reflexivity|]; cbn [fst]; auto with footprints|]).
  apply Forall_nil_2.
Qed.

Lemma lower_op_footprint (op : Operator) (graph : OperatorGraph) (f : TaskFamily) :
  graph_dims graph → sizes_ok op → heads_ok op graph → lower_op op graph = Ok f →
  dims_nonneg (tf_domain f)
  ∧ fn_post (reads_input (op_kind op) op graph) (tf_domain f) (tf_read_regions f)
  ∧ fn_post (writes_operand (op_kind op) op graph) (tf_domain f) (tf_write_regions f).
Proof.
  intros Hd Hs Hh Hl. destruct (lower_op_ok _ _ _ Hl) as (c & Hc & _).
  pose proof registry_footprints as Hf. rewrite Forall_forall in Hf.
  destruct (Hf _ (dict_get_elem _ _ _ Hc)) as (factory & Hfac & Hfoot). cbn [fst snd] in *.
  unfold lower_op in Hl. rewrite (factory_of_contract _ _ Hc), Hfac in Hl.
  destruct (match dict_get CONTRACTS (op_kind op) with Some c => _ | None => _ end); [|done].
  by apply Hfoot.
Qed.

(** The regions of one task, for every task id. *)
Lemma task_footprint (op : Operator) (graph : OperatorGraph) (f : TaskFamily) (t : Z)
    (rs : list Region) :
  graph_dims graph → sizes_ok op → heads_ok op graph → lower_op op graph = Ok f → 0 ≤ t →
  (reads f t = Ok rs → Forall (reads_input (op_kind op) op graph) rs)
  ∧ (writes f t = Ok rs → Forall (writes_operand (op_kind op) op graph) rs).
Proof.
  intros Hd Hs Hh Hl Ht. destruct (lower_op_footprint _ _ _ Hd Hs Hh Hl) as (Hdom & Hr & Hw).
  unfold reads, writes, family_coords. split.
  - destruct (tf_read_regions f) as [fn|] eqn:E; [|intros [= <-]; constructor]. intros H.
    destruct (coords (tf_domain f) t) as [cs|] eqn:Hc; [|done]. simpl in H.
    eapply (Hr fn cs eq_refl); [by eapply coords_in_grid|done].
  - destruct (tf_write_regions f) as [fn|] eqn:E; [|intros [= <-]; constructor]. intros H.
    destruct (coords (tf_domain f) t) as [cs|] eqn:Hc; [|done]. simpl in H.
    eapply (Hw fn cs eq_refl); [by eapply coords_in_grid|done].
Qed.

(** ** The obligations of the scheduler *)

(** A program the passes can take: well formed, without negative dimensions,
    positive sizes in the attributes, head groups that divide the query
    heads, and row-major pools. *)
Record compilable (g : OperatorGraph) : Prop := {
  cp_wf : program_wf g;
  cp_dims : graph_dims g;
  cp_sizes : ∀ op, op ∈ g_ops g → sizes_ok op;
  cp_heads : ∀ op, op ∈ g_ops g → heads_ok op g;
  cp_pools : ∀ op i n tv, op ∈ g_ops g → i ∈ pool_inputs (op_kind op) → op_inputs op !! i = Some n →
    graph_tensor g n = Ok tv → pool_ok tv
}.

Definition task_total (f : TaskFamily) : Z := ok_default 0 (family_task_count f).

(** Every region callback returns on every task of its family. *)
Definition callbacks_total (fams : list TaskFamily) : Prop := ∀ f, f ∈ fams →
  is_ok (family_task_count f) = true
  ∧ ∀ t, 0 ≤ t < task_total f → is_ok (reads f t) = true ∧ is_ok (writes f t) = true.

(** The same as a test, for concrete programs. *)
Definition callbacks_check (fams : list TaskFamily) : bool :=
  forallb (λ f, is_ok (family_task_count f)
    && forallb (λ t, is_ok (reads f t) && is_ok (writes f t)) (zrange (task_total f))) fams.

Lemma callbacks_check_total (fams : list TaskFamily) :
  callbacks_check fams = true → callbacks_total fams.
Proof.
  unfold callbacks_check. rewrite forallb_forall. intros H f Hf%list_elem_of_In.
  specialize (H f Hf). apply andb_true_iff in H as [Hc Ht]. split; [done|]. intros t Hin.
  rewrite forallb_forall in Ht. apply andb_true_iff, Ht, list_elem_of_In, elem_of_zrange. lia.
Qed.

Section lowered.
Context (g : OperatorGraph) (fams : list TaskFamily).
Context (Hg : compilable g) (Hl : lower_graph g = Ok fams).

Lemma lowered_family (f : TaskFamily) :
  f ∈ fams → ∃ op, op ∈ g_ops g ∧ lower_op op g = Ok f ∧ tf_op f = op.
Proof using Hl.
  intros [i Hi]%list_elem_of_lookup. apply map_result_Forall2 in Hl as H2.
  destruct (Forall2_lookup_r _ _ _ _ _ H2 Hi) as (op & Hop & Hf). exists op. split_and!; [|done|].
  - by eapply list_elem_of_lookup_2.
  - simpl in Hf. by destruct (lower_op_ok _ _ _ Hf) as (? & ? & ? & ? & _).
Qed.

Lemma registered_strides (n : string) (tv : TensorValue) :
  dict_get (g_tensors g) n = Some tv → graph_tensor g n = Ok tv ∧ Forall (λ s, 0 ≤ s) (tv_strides tv).
Proof using Hg.
  intros Hn. unfold graph_tensor. rewrite Hn. split; [done|]. apply dict_get_elem in Hn.
  by apply (gw_tensors _ (pw_graph _ (cp_wf _ Hg)) _ _ Hn).
Qed.

(** The tensor an input names is the one the operator declares. *)
Lemma use_covered (op : Operator) (i : nat) (n : string) (tv : TensorValue) (r : Region)
    (rs : list Region) :
  op ∈ g_ops g → op_inputs op !! i = Some n → graph_tensor g n = Ok tv →
  operand_use (op_kind op) op g i tv r →
  (∃ tv', dict_get (g_tensors g) n = Some tv' ∧ operand_declared (op_kind op) op g i tv' rs) →
  ∃ R, R ∈ rs ∧ span_within r R.
Proof using Hg.
  intros Hop Hi Htv Huse (tv' & Hn & Hdecl). destruct (registered_strides _ _ Hn) as [E Hs].
  rewrite E in Htv. simplify_eq.
  eapply tile_covered; [done|by apply (cp_heads _ Hg)| |done|done].
  intros Hp. by eapply (cp_pools _ Hg).
Qed.

Lemma lowered_covered : TilesCovered fams task_total.
Proof using Hg Hl.
  split; intros f t rs r Hf Ht Hrs Hr; destruct (lowered_family f Hf) as (op & Hop & Hlow & ->);
    destruct (pw_declared _ (cp_wf _ Hg) op Hop) as [Hdr Hdu Hdw];
    destruct (task_footprint op g f t rs (cp_dims _ Hg) (cp_sizes _ Hg op Hop) (cp_heads _ Hg op Hop)
      Hlow ltac:(lia)) as [Hfr Hfw].
  - specialize (Hfr Hrs). rewrite Forall_forall in Hfr.
    destruct (Hfr r Hr) as (i & n & tv & Hi & Hn & Htv & Huse). eapply use_covered; eauto.
  - specialize (Hfw Hrs). rewrite Forall_forall in Hfw.
    destruct (Hfw r Hr) as [(i & n & tv & Hi & Hn & Htv & Huse)|(n & tv & Hn & Htv & Hin)].
    + eapply use_covered; eauto.
    + destruct (Hdw n Hn) as (tv' & Hn' & R & HR & Hc). exists R. split; [done|].
      destruct (registered_strides _ _ Hn') as [E Hs]. rewrite E in Htv. simplify_eq.
      etrans; [by apply in_extent_within|done].
Qed.

Lemma lowered_opids : fam_opid <$> fams = op_opid <$> g_ops g.
Proof using Hl.
  apply map_result_Forall2 in Hl as H2. clear Hg Hl.
  induction H2 as [|op f ops fs Hf _ IH]; [done|]. rewrite !fmap_cons, IH. f_equal.
  destruct (lower_op_ok _ _ _ Hf) as (? & ? & ? & Hop & _). unfold fam_opid. by rewrite Hop.
Qed.

Lemma lowered_opids_NoDup : NoDup (fam_opid <$> fams).
Proof using Hg Hl.
  rewrite lowered_opids, (gw_opids _ (pw_graph _ (cp_wf _ Hg))). apply NoDup_zrange.
Qed.

Lemma lowered_ids_NoDup : NoDup (tf_family_id <$> fams).
Proof using Hg Hl.
  apply NoDup_fmap_2_strong.
  - intros f1 f2 H1 H2 E.
    destruct (lowered_family f1 H1) as (op1 & Hop1 & Hl1 & <-).
    destruct (lowered_family f2 H2) as (op2 & Hop2 & Hl2 & <-).
    destruct (lower_op_ok _ _ _ Hl1) as (? & ? & ? & _ & _ & _ & s1 & E1).
    destruct (lower_op_ok _ _ _ Hl2) as (? & ? & ? & _ & _ & _ & s2 & E2).
    rewrite E1, E2 in E.
    assert (Hpos : ∀ op, op ∈ g_ops g → 0 ≤ op_opid op).
    { intros op Hop. apply (list_elem_of_fmap_2 op_opid) in Hop.
      rewrite (gw_opids _ (pw_graph _ (cp_wf _ Hg))) in Hop. apply elem_of_zrange in Hop. lia. }
    apply family_name_opid in E; [|by apply Hpos..].
    apply list_elem_of_lookup in H1 as [i Hi]. apply list_elem_of_lookup in H2 as [j Hj].
    pose proof lowered_opids_NoDup as Hnd.
    assert (i = j); [|congruence]. eapply (NoDup_lookup _ i j (fam_opid f1) Hnd).
    + by rewrite list_lookup_fmap, Hi.
    + rewrite list_lookup_fmap, Hj. simpl. unfold fam_opid. congruence.
  - eapply NoDup_fmap_1, lowered_opids_NoDup.
Qed.

Lemma lowered_tiles_ok : callbacks_total fams → tiles_ok fams task_total.
Proof using Hg Hl.
  intros Hc. split; [apply lowered_ids_NoDup|apply lowered_opids_NoDup| |].
  - intros f Hf. destruct (Hc f Hf) as [Hcount _]. unfold task_total.
    by destruct (family_task_count f).
  - intros f t Hf Ht. by apply Hc.
Qed.

Lemma lowered_schedule (workers : Z) (s : PhaseSchedule) :
  from_families fams workers = Ok s → schedule_families s = fams ∧ ps_workers s = workers.
Proof using Hg Hl.
  intros Hs. destruct (from_families_distinct fams workers s lowered_opids_NoDup Hs) as (? & ? & _). done.
Qed.
End lowered.

(** A task of a family, keyed as the scheduler keys it. *)
Definition task_key (f : TaskFamily) (t : Z) : TaskKey := (tf_family_id f, t).

Definition runs_before (order : list TaskKey) (k1 k2 : TaskKey) : Prop :=
  ∃ i j, (i < j)%nat ∧ order !! i = Some k1 ∧ order !! j = Some k2.

(** Two accesses conflict: tasks of two families, the first earlier in the
    program, that may touch one address of one storage, one of them writing. *)
Record conflict_at (fams : list TaskFamily) (u v : TaskFamily) (tu tv : Z) : Prop := {
  ca_order : ∃ i j, (i < j)%nat ∧ fams !! i = Some u ∧ fams !! j = Some v;
  ca_tasks : 0 ≤ tu < task_total u ∧ 0 ≤ tv < task_total v;
  ca_access : ∃ wu wv rus rvs ru rv a, wu || wv = true
    ∧ task_regions wu u tu = Ok rus ∧ task_regions wv v tv = Ok rvs ∧ ru ∈ rus ∧ rv ∈ rvs
    ∧ region_ok ru ∧ region_ok rv ∧ rg_storage_id ru = rg_storage_id rv
    ∧ region_addr ru a ∧ region_addr rv a
}.

(** C1. The compiler passes composed, on a well-formed program of any of the
    32 operator kinds whose dimensions are not negative.  Whenever the program
    is lowered ([lower_graph] returns), the region callbacks of the lowered
    tasks do not raise, and the phase schedule is built for a positive number
    of workers, the tile dependencies and the static worker schedule are
    built as well; the schedule runs each task of each family exactly once;
    and any two tasks of different operators that may touch a common address,
    one of them writing, run in program order.  (The other two do
    not follow from the first: an elementwise operator over views of rank
    three is lowered, but its region callbacks raise.) *)
Theorem pipeline_race_free `{!SetIter TaskKey} (g : OperatorGraph) (fams : list TaskFamily)
    (workers : Z) (s : PhaseSchedule) :
  compilable g → lower_graph g = Ok fams → callbacks_total fams →
  from_families fams workers = Ok s → 1 ≤ workers →
  ∃ deps sched, build_tile_dependencies s None = Ok deps
    ∧ build_static_worker_schedule deps workers = Ok sched
    ∧ NoDup (ss_order sched)
    ∧ (∀ k, k ∈ ss_order sched ↔ ∃ f, f ∈ fams ∧ k.1 = tf_family_id f ∧ 0 ≤ k.2 < task_total f)
    ∧ ∀ u v tu tv, conflict_at fams u v tu tv →
        runs_before (ss_order sched) (task_key u tu) (task_key v tv).
Proof.
  intros Hg Hl Hc Hs Hw. destruct (lowered_schedule g fams Hg Hl workers s Hs) as [Hfams _].
  pose proof (lowered_tiles_ok g fams Hg Hl Hc) as Hok.
  pose proof (lowered_covered g fams Hg Hl) as Hcov. rewrite <- Hfams in Hok, Hcov.
  destruct (build_tile_ok s task_total Hok) as (deps & Hdeps & Hgraph).
  destruct (tile_graph_ok _ _ _ Hok Hgraph) as [Hdok Hac].
  destruct (build_static_ok deps workers Hdok ltac:(lia) Hac) as (sched & Hsched & Hres).
  exists deps, sched. split_and!; [done|done| | |].
  - rewrite (sr_perm _ _ _ Hres). apply Hdok.
  - intros k. rewrite (sr_perm _ _ _ Hres), (tg_keys _ _ _ Hgraph), elem_of_all_keys. by rewrite Hfams.
  - intros u v tu tv [(i & j & Hij & Hi & Hj) [Htu Htv]
      (wu & wv & rus & rvs & ru & rv & a & Hwr & Hrus & Hrvs & Hru & Hrv & Ho1 & Ho2 & Hsid & H1 & H2)].
    rewrite <- Hfams in Hi, Hj.
    assert (Hov : overlaps ru rv = true).
    { apply overlaps_true. pose proof (storage_span_sound _ _ Ho1 H1).
      pose proof (storage_span_sound _ _ Ho2 H2). split; [done|lia]. }
    pose proof (conflicting_tiles_edge _ _ i j u v tu tv wu wv rus rvs ru rv Hij Hi Hj Htu Htv Hwr
      Hrus Hrvs Hru Hrv Hov) as He.
    apply (tg_preds _ _ _ Hgraph) in He.
    assert (Hin : task_key v tv ∈ ss_order sched).
    { rewrite (sr_perm _ _ _ Hres), (tg_keys _ _ _ Hgraph), elem_of_all_keys.
      exists v. split_and!; try done; try (simpl; lia). by eapply list_elem_of_lookup_2. }
    apply list_elem_of_lookup in Hin as [q Hq].
    destruct (sr_topo _ _ _ Hres q _ _ Hq He) as (p & Hpq & Hp). by exists p, q.
Qed.

(** *** Witness: a decode step of attention, two workers *)
Lemma ex_decode_compilable : compilable (rb_graph ex_decode).
Proof.
  assert (Hall : Forall (λ op, attr_or op "grouped_heads" ANone = ANone
      ∧ attr_or op "quant_block" (AInt 128) = AInt 128
      ∧ op_attributes op !! "kv_heads"%string ∈ [None; Some (AInt 1)] ∧ pool_inputs (op_kind op) = [])
      (g_ops (rb_graph ex_decode))).
  { apply (bool_decide_unpack _). vm_compute. exact I. }
  rewrite Forall_forall in Hall.
  split; [apply captured_wf, ex_decode_captured| | | |].
  - apply graph_dims_tensors, (bool_decide_unpack _). vm_compute. exact I.
  - intros op Hop. destruct (Hall op Hop) as (Hgr & Hqb & _ & _).
    split; [by rewrite Hgr|]. rewrite Hqb. intros q [= <-]. lia.
  - intros op Hop n Hn. destruct (Hall op Hop) as (_ & _ & Hkv & _). unfold kv_heads_attr in Hn.
    rewrite Hn in Hkv. apply elem_of_cons in Hkv as [|[[= ->]|[]%not_elem_of_nil]%elem_of_cons]; [done|].
    split; [lia|]. intros. apply Z.divide_1_l.
  - intros op i n tv Hop Hi. destruct (Hall op Hop) as (_ & _ & _ & Hp). rewrite Hp in Hi.
    exact (False_ind _ (not_elem_of_nil _ Hi)).
Qed.

(** The cache row of a step: written by the append, read by the second query
    head through the view made after the append. *)
Definition ex_row (view : string) : Region :=
  mk_region 1001 (ex_get ex_decode view) [(0, BInt 1); (0, BInt 1); (0, BStr "p+1"); (0, BInt 4)] None (-1).

Lemma ex_row_addr (view : string) :
  tv_shape (ex_get ex_decode view) = [1; 1; 8; 4] → tv_strides (ex_get ex_decode view) = [32; 32; 4; 1] →
  tv_offset (ex_get ex_decode view) = 0 → region_ok (ex_row view) ∧ region_addr (ex_row view) 13.
Proof.
  intros Hs Ht Ho. split; [by intros [? [=]]|]. exists [0; 0; 3; 1].
  unfold region_contains, ex_row, view_addr. cbn [rg_indirect_table rg_view rg_boxes].
  rewrite Hs, Ht, Ho. split; [simpl; lia|reflexivity].
Qed.

Lemma pipeline_race_free_witness :
  ∃ fams s deps sched,
    lower_graph (rb_graph ex_decode) = Ok fams ∧ from_families fams 2 = Ok s
    ∧ @build_tile_dependencies s None = Ok deps
    ∧ @build_static_worker_schedule (elements_iter TaskKey) deps 2 = Ok sched
    ∧ runs_before (ss_order sched) ("ph00_cache_append", 0) ("ph01_attn_scores", 1).
Proof.
  pose (fams := ok_default [] (lower_graph (rb_graph ex_decode))).
  assert (Hl : lower_graph (rb_graph ex_decode) = Ok fams).
  { unfold fams. destruct (lower_graph _) as [x|e] eqn:E; [reflexivity|]. vm_compute in E. discriminate. }
  destruct (from_families fams 2) as [s|e] eqn:Hs; [|vm_compute in Hs; discriminate].
  assert (Hc : callbacks_check fams = true) by (vm_compute; reflexivity).
  destruct (@pipeline_race_free (elements_iter TaskKey) (rb_graph ex_decode) fams 2 s
    ex_decode_compilable Hl (callbacks_check_total _ Hc) Hs ltac:(lia))
    as (deps & sched & Hd & Hsched & _ & _ & Hrace).
  exists fams, s, deps, sched. split_and!; [done..|].
  assert (∃ f1 f2 f3 f4 wv rq, fams = [f1; f2; f3; f4] ∧ task_key f1 0 = ("ph00_cache_append"%string, 0)
    ∧ task_key f2 1 = ("ph01_attn_scores"%string, 1) ∧ task_total f1 = 1 ∧ task_total f2 = 2
    ∧ writes f1 0 = Ok [ex_row "k_cache"; wv] ∧ reads f2 1 = Ok [rq; ex_row "k_cache_l0_v1"]) as
    (f1 & f2 & f3 & f4 & wv & rq & Hfs & <- & <- & H1 & H2 & Hw & Hr).
  { eexists _, _, _, _, _, _. split_and!; vm_compute; reflexivity. }
  apply Hrace. split.
  - exists 0%nat, 1%nat. rewrite Hfs. split_and!; [lia|done|done].
  - rewrite H1, H2. lia.
  - destruct (ex_row_addr "k_cache") as [Ho1 Ha1]; [vm_compute; reflexivity..|].
    destruct (ex_row_addr "k_cache_l0_v1") as [Ho2 Ha2]; [vm_compute; reflexivity..|].
    exists true, false, [ex_row "k_cache"; wv], [rq; ex_row "k_cache_l0_v1"],
      (ex_row "k_cache"), (ex_row "k_cache_l0_v1"), 13.
    refine (conj eq_refl (conj Hw (conj Hr (conj _ (conj _ _))))); [left|right; left|].
    exact (conj Ho1 (conj Ho2 (conj eq_refl (conj Ha1 Ha2)))).
Defined.
