(* ===== verification/Ownership.v ===== *)
(** * Write ownership

    Tile dependencies order tasks of different operators only.  Inside one
    family the lowering must hand distinct tasks disjoint memory to write:
    an element of the output determines the coordinates of the task that
    writes it. *)

From S2P Require Import Prelude Indexing OperatorIR Contracts TaskIR SchedulePhase ScheduleStatic.
From S2P Require Import TileDependencies LoweringsCommon LoweringsDense LoweringsAttention Lowerings Operands Footprint FootprintState.
Local Open Scope Z_scope.

(** No two tasks of the family may write the same address of a storage. *)
Definition exclusive_writes (f : TaskFamily) : Prop := ∀ n t1 t2 rs1 rs2 r1 r2 a,
  family_task_count f = Ok n → 0 ≤ t1 < n → 0 ≤ t2 < n →
  writes f t1 = Ok rs1 → writes f t2 = Ok rs2 → r1 ∈ rs1 → r2 ∈ rs2 →
  rg_storage_id r1 = rg_storage_id r2 → region_addr r1 a → region_addr r2 a → t1 = t2.

(** A tile of [y] each element of which yields the coordinates [cs]. *)
Definition owned_tile (y : TensorValue) (key : list Z → list Z) (cs : list Z) (r : Region) : Prop :=
  in_extent y r ∧ ∀ idx, boxes_contain (rg_boxes r) (tv_shape y) idx → key idx = cs.

Lemma owned_tile_intro (y : TensorValue) (key : list Z → list Z) (cs : list Z)
    (tile : list (Z * bound)) :
  Forall (λ b, 0 ≤ b.1) tile → (∀ idx, boxes_contain tile (tv_shape y) idx → key idx = cs) →
  post (owned_tile y key cs) (tile_region y tile).
Proof.
  intros Hb Hk r Hr. split; [by apply (in_extent_tile y tile Hb)|].
  unfold tile_region, region_tile in Hr. res_inv. exact Hk.
Qed.

Lemma boxes_contain_in_range (boxes : list (Z * bound)) (shape idx : list Z) :
  Forall (λ b, 0 ≤ b.1) boxes → boxes_contain boxes shape idx → in_range shape idx.
Proof.
  intros Hb. revert shape idx. induction Hb as [|[lo hi] bs Hlo _ IH]; intros [|d ds] [|i idx] H;
    simpl in *; try done; [constructor|]. destruct H as [Hi H]. constructor; [|by apply IH].
  assert (hi_eff hi d ≤ d) by (destruct hi; simpl; lia). lia.
Qed.

Lemma owned_address (y : TensorValue) (key : list Z → list Z) (cs1 cs2 : list Z) (r1 r2 : Region) (a : Z) :
  dense y → owned_tile y key cs1 r1 → owned_tile y key cs2 r2 →
  region_addr r1 a → region_addr r2 a → cs1 = cs2.
Proof.
  intros Hd [(Hv1 & _ & Hi1 & Hb1) Hk1] [(Hv2 & _ & Hi2 & Hb2) Hk2] (i1 & Hc1 & E1) (i2 & Hc2 & E2).
  unfold region_contains in Hc1, Hc2. rewrite Hi1, Hv1 in Hc1. rewrite Hi2, Hv2 in Hc2.
  rewrite Hv1 in E1. rewrite Hv2 in E2.
  pose proof (boxes_contain_in_range _ _ _ Hb1 Hc1) as Hr1.
  pose proof (boxes_contain_in_range _ _ _ Hb2 Hc2) as Hr2.
  rewrite dense_addr in E1, E2 by done.
  rewrite <- (Hk1 i1 Hc1), <- (Hk2 i2 Hc2). f_equal. apply (ravel_inj (tv_shape y)); [done..|lia].
Qed.

(** ** Task ids and coordinates *)
Lemma dims_domain_ok (d : TileDomain) (n : Z) : dims_nonneg d → task_count d = Ok n → domain_ok d.
Proof.
  unfold task_count, task_grid, dims_nonneg, domain_ok. intros Hd H. res_inv.
  match goal with M : map_result _ _ = Ok _ |- _ => apply map_result_Forall2 in M; revert M end.
  generalize dependent (td_dims d). intros dims Hd M.
  induction M as [|[e t] g dims gs Hq _ IH]; [constructor|]. apply Forall_cons in Hd as [[He Ht] Hd].
  constructor; [|by apply IH]. unfold py_floordiv in Hq. simpl in *. case_decide; simplify_eq. lia.
Qed.

Lemma task_coords (d : TileDomain) (n t : Z) :
  dims_nonneg d → task_count d = Ok n → 0 ≤ t < n →
  ∃ cs, coords d t = Ok cs ∧ in_range (grid_of (td_dims d)) cs ∧ ravel (grid_of (td_dims d)) cs = t.
Proof.
  intros Hd Hn Ht. pose proof (dims_domain_ok d n Hd Hn) as Hok.
  pose proof (task_ids_positive d n t Hok Hn Ht) as Hpos.
  rewrite task_count_ok in Hn by done. injection Hn as <-.
  exists (unravel (grid_of (td_dims d)) t). rewrite coords_ok by done. rewrite decide_True by done.
  split_and!; [done|by apply unravel_in_range|by apply ravel_unravel].
Qed.

(** A family whose writes are owned tiles of dense outputs, each in a storage
    of its own. *)
Lemma owned_exclusive_list (f : TaskFamily) (fn : RegionFn) (ys : list TensorValue)
    (key : list Z → list Z) :
  tf_write_regions f = Some fn → dims_nonneg (tf_domain f) → Forall dense ys →
  NoDup (tv_storage_id <$> ys) →
  (∀ cs, in_range (grid_of (td_dims (tf_domain f))) cs →
     post (Forall (λ r, ∃ y, y ∈ ys ∧ owned_tile y key cs r)) (fn cs)) →
  exclusive_writes f.
Proof.
  intros Hfn Hd Hy Hnd Hown n t1 t2 rs1 rs2 r1 r2 a Hn Ht1 Ht2 Hw1 Hw2 Hr1 Hr2 Hsid Ha1 Ha2.
  destruct (task_coords _ n t1 Hd Hn Ht1) as (cs1 & Hc1 & Hin1 & <-).
  destruct (task_coords _ n t2 Hd Hn Ht2) as (cs2 & Hc2 & Hin2 & <-).
  unfold writes, family_coords in Hw1, Hw2. rewrite Hfn in Hw1, Hw2.
  rewrite Hc1 in Hw1. rewrite Hc2 in Hw2. simpl in Hw1, Hw2.
  pose proof (Hown cs1 Hin1 rs1 Hw1) as H1. pose proof (Hown cs2 Hin2 rs2 Hw2) as H2.
  rewrite Forall_forall in H1, H2. f_equal.
  destruct (H1 _ Hr1) as (y1 & Hy1 & Ho1), (H2 _ Hr2) as (y2 & Hy2 & Ho2).
  assert (Hdn : ∀ y, y ∈ ys → dense y) by (by apply Forall_forall).
  assert (y1 = y2) as <-.
  { destruct Ho1 as [(_ & E1 & _) _], Ho2 as [(_ & E2 & _) _]. rewrite E1, E2 in Hsid.
    apply list_elem_of_lookup in Hy1 as [i1 Hi1]. apply list_elem_of_lookup in Hy2 as [i2 Hi2].
    assert (i1 = i2); [|congruence]. eapply (NoDup_lookup _ i1 i2 (tv_storage_id y1) Hnd).
    - by rewrite list_lookup_fmap, Hi1.
    - rewrite list_lookup_fmap, Hi2. simpl. by rewrite Hsid. }
  exact (owned_address y1 key cs1 cs2 r1 r2 a (Hdn _ Hy1) Ho1 Ho2 Ha1 Ha2).
Qed.

Lemma owned_exclusive (f : TaskFamily) (fn : RegionFn) (y : TensorValue) (key : list Z → list Z) :
  tf_write_regions f = Some fn → dims_nonneg (tf_domain f) → dense y →
  (∀ cs, in_range (grid_of (td_dims (tf_domain f))) cs → post (Forall (owned_tile y key cs)) (fn cs)) →
  exclusive_writes f.
Proof.
  intros Hfn Hd Hy Hown. eapply (owned_exclusive_list f fn [y] key); try done.
  - by constructor.
  - apply NoDup_singleton.
  - intros cs Hcs rs Hrs. eapply Forall_impl; [by eapply Hown|]. intros r Hr. exists y. by split; [left|].
Qed.

(** ** The write tiles of the dense lowerings *)
Definition owns (P : TensorValue → Prop) (factory : Factory) : Prop := ∀ op graph f,
  factory op graph = Ok f → graph_dims graph →
  (∀ y, tensor_out op graph 0 = Ok y → dense y ∧ P y) → exclusive_writes f.

Definition any_output (y : TensorValue) : Prop := True.
Definition vector_output (y : TensorValue) : Prop := length (tv_shape y) = 1%nat.

Lemma grid_coords1 (g : Z) (cs : list Z) : in_range [g] cs → ∃ c, cs = [c] ∧ 0 ≤ c < g.
Proof. unfold in_range. intros H. inversion H as [|? c ? ? Hc H']; inversion H'; subst. eauto. Qed.

Lemma grid_coords2 (g1 g2 : Z) (cs : list Z) :
  in_range [g1; g2] cs → ∃ c1 c2, cs = [c1; c2] ∧ 0 ≤ c1 < g1 ∧ 0 ≤ c2 < g2.
Proof.
  unfold in_range. intros H. inversion H as [|? c ? ? Hc H']; subst.
  apply grid_coords1 in H' as (c' & -> & ?). eauto.
Qed.

Lemma div_unique_tile (i c t : Z) : 0 < t → c * t ≤ i < c * t + t → i / t = c.
Proof. intros Ht Hi. symmetry. apply (Z.div_unique_pos i t c (i - c * t)); lia. Qed.

Lemma gemm_writes_owned (y : TensorValue) (m tm n tn : Z) (cs : list Z) :
  0 < tm → 0 < tn → in_range (grid_of [(m, tm); (n, tn)]) cs →
  post (Forall (owned_tile y (tile_of [(m, tm); (n, tn)]) cs))
    (gemm_writes y (mk_domain [(m, tm); (n, tn)]) cs).
Proof.
  intros Htm Htn (c1 & c2 & -> & Hc1 & Hc2)%grid_coords2. unfold gemm_writes, pair_box. simpl.
  apply post_regions. repeat (apply Forall_cons; split); [|apply Forall_nil_2].
  apply owned_tile_intro; [fp_arith|].
  intros [|i [|j [|] ] ] Hb; destruct (tv_shape y) as [|d1 [|d2 [|] ] ]; simpl in Hb; try tauto.
  destruct Hb as (Hi & Hj & _). unfold tile_of. simpl. repeat f_equal; apply div_unique_tile; lia.
Qed.

Lemma head_tile_owned (y : TensorValue) (B H D : Z) (cs : list Z) :
  in_range (grid_of [(B, 1); (H, 1)]) cs → post (owned_tile y (take 2) cs) (head_tile y D cs).
Proof.
  intros (c1 & c2 & -> & Hc1 & Hc2)%grid_coords2. unfold head_tile. simpl.
  apply owned_tile_intro; [fp_arith|].
  intros [|i [|j [|k [|] ] ] ] Hb; destruct (tv_shape y) as [|d1 [|d2 [|d3 [|] ] ] ];
    simpl in Hb; try tauto.
  destruct Hb as (Hi & Hj & _). simpl. repeat f_equal; lia.
Qed.

(** A row of a rank-2 output, in a [rows x 1] grid or a plain row domain. *)
Lemma row_tile_owned (y : TensorValue) (rows width : Z) (cs : list Z) :
  0 < width → in_range (grid_of [(rows, 1); (width, width)]) cs →
  post (owned_tile y (λ idx, take 1 idx ++ [0]) cs) (row_tile y width cs).
Proof.
  intros Hw (c1 & c2 & -> & Hc1 & Hc2)%grid_coords2. unfold row_tile. simpl.
  assert (c2 = 0) as ->.
  { unfold ceil_div in Hc2. simpl in Hc2.
    assert ((width + width - 1) / width = 1) by (symmetry; apply (Z.div_unique_pos _ _ 1 (width - 1)); lia).
    lia. }
  apply owned_tile_intro; [fp_arith|].
  intros [|i [|j [|] ] ] Hb; destruct (tv_shape y) as [|d1 [|d2 [|] ] ]; simpl in Hb; try tauto.
  destruct Hb as (Hi & _). simpl. repeat f_equal; lia.
Qed.

Lemma row_tile_owned1 (y : TensorValue) (rows width : Z) (cs : list Z) :
  in_range (grid_of [(rows, 1)]) cs → post (owned_tile y (take 1) cs) (row_tile y width cs).
Proof.
  intros (c1 & -> & Hc1)%grid_coords1. unfold row_tile. simpl. apply owned_tile_intro; [fp_arith|].
  intros [|i [|j [|] ] ] Hb; destruct (tv_shape y) as [|d1 [|d2 [|] ] ]; simpl in Hb; try tauto.
  destruct Hb as (Hi & _). simpl. repeat f_equal; lia.
Qed.

(** Positive tiles: a zero tile makes the grid raise, so the family has no
    task count. *)
Lemma exclusive_intro (f : TaskFamily) :
  (domain_ok (tf_domain f) → exclusive_writes f) → dims_nonneg (tf_domain f) → exclusive_writes f.
Proof.
  intros H Hd n t1 t2 rs1 rs2 r1 r2 a Hn. apply H; [by eapply dims_domain_ok|done].
Qed.

Ltac own_start :=
  intros op graph f H Hdims Hout; fp_branches;
  destruct (Hout _ eq_refl) as [Hdense HP];
  (apply exclusive_intro; [intros Hdom|fp_dims]).

Ltac own_one lem :=
  eapply owned_exclusive; [reflexivity|fp_dims|eassumption|];
  intros cs Hcs; cbn [tf_domain td_dims] in Hcs;
  first [apply post_regions; repeat (apply Forall_cons; split); [|apply Forall_nil_2] | idtac];
  eapply lem; try eassumption.

Lemma rope_owns : owns any_output lower_rope.
Proof. unfold lower_rope. own_start. own_one head_tile_owned. Qed.

Lemma layer_norm_owns : owns any_output lower_layer_norm.
Proof.
  unfold lower_layer_norm. own_start. own_one row_tile_owned.
  apply Forall_cons in Hdom as [_ [ [_ ?] _]%Forall_cons]. done.
Qed.

Lemma moe_combine_owns : owns any_output lower_moe_combine.
Proof. unfold lower_moe_combine. own_start. own_one row_tile_owned1. Qed.

Lemma rms_norm_owns : owns any_output lower_rms_norm.
Proof.
  unfold lower_rms_norm. own_start.
  - own_one head_tile_owned.
  - own_one row_tile_owned. apply Forall_cons in Hdom as [_ [ [_ ?] _]%Forall_cons]. done.
Qed.

Lemma rms_norm_gated_owns : owns any_output lower_rms_norm_gated.
Proof.
  unfold lower_rms_norm_gated. own_start.
  - own_one head_tile_owned.
  - own_one row_tile_owned. apply Forall_cons in Hdom as [_ [ [_ ?] _]%Forall_cons]. done.
Qed.

Ltac own_gemm :=
  eapply owned_exclusive; [reflexivity|fp_dims|eassumption|];
  intros cs Hcs; apply gemm_writes_owned; [done|done|exact Hcs].

Lemma linear_owns : owns any_output lower_linear.
Proof. unfold lower_linear, gemm_domain. own_start; own_gemm. Qed.

Lemma linear_fp8_owns : owns any_output lower_linear_fp8.
Proof. unfold lower_linear_fp8. own_start; own_gemm. Qed.

Lemma moe_expert_owns : owns any_output lower_moe_expert.
Proof.
  unfold lower_moe_expert. own_start.
  eapply (owned_exclusive _ _ _ (take 2)); [reflexivity|fp_dims|eassumption|].
  intros cs (c1 & c2 & -> & Hc1 & Hc2)%grid_coords2. cbn [unpack2 mbind result_bind].
  apply post_regions. repeat (apply Forall_cons; split); [|apply Forall_nil_2].
  apply owned_tile_intro; [fp_arith|].
  intros [|i [|j [|k [|] ] ] ] Hb;
    match type of Hb with boxes_contain _ ?s _ => destruct s as [|d1 [|d2 [|d3 [|] ] ] ] end;
    simpl in Hb; try tauto.
  destruct Hb as (Hi & Hj & _). simpl. repeat f_equal; lia.
Qed.

(** The columns of an embedding task determine its column tile. *)
Lemma embed_tile_owned (y : TensorValue) (rows width c1 c2 c0 c1' : Z) :
  let d := mk_domain [(rows, 1); (width, Z.min EMBED_TILE_C width)] in
  domain_ok d → in_range (grid_of (td_dims d)) [c1; c2] →
  embed_cols d width [c1; c2] = Ok (c0, c1') →
  post (owned_tile y (tile_of (td_dims d)) [c1; c2]) (tile_region y [cell c1; span c0 c1']).
Proof.
  cbn zeta. set (t := Z.min EMBED_TILE_C width). intros Hdom Hin He. pose proof Hdom as Hdom'.
  apply Forall_cons in Hdom' as [[Hr _] [[Hw Ht] _]%Forall_cons]. cbn [fst snd] in *.
  unfold in_range in Hin. apply Forall2_cons in Hin as [Hc1 [Hc2 _]%Forall2_cons].
  cbn [fst snd] in *.
  assert (Hcol : 0 ≤ c0 ∧ ∀ j, c0 ≤ j < c1' → j / t = c2).
  { unfold embed_cols in He. rewrite task_grid_ok in He by done. simpl in He.
    unfold ceil_div in *. unfold EMBED_TILE_C in *. case_decide as Hg; injection He as <- <-.
    - split; [lia|]. intros j Hj. rewrite Hg in Hc2. assert (c2 = 0) as -> by lia.
      apply div_unique_tile; [lia|]. assert (width ≤ 256); [|lia].
      destruct (decide (width ≤ 256)); [done|]. exfalso. unfold t in Hg. rewrite Z.min_l in Hg by lia.
      pose proof (Z.div_mod (width + 256 - 1) 256 ltac:(lia)).
      pose proof (Z.mod_pos_bound (width + 256 - 1) 256 ltac:(lia)). lia.
    - split; [lia|]. intros j Hj.
      assert (Hgt : 256 < width).
      { destruct (decide (256 < width)); [done|]. exfalso. apply Hg. unfold t.
        rewrite Z.min_r by lia. symmetry. apply (Z.div_unique_pos _ _ 1 (width - 1)); lia. }
      unfold t. rewrite Z.min_l by lia. apply div_unique_tile; lia. }
  destruct Hcol as [Hc0 Hcol]. apply owned_tile_intro; [fp_arith|].
  intros [|i [|j [|] ] ] Hb; destruct (tv_shape y) as [|d1 [|d2 [|] ] ]; simpl in Hb; try tauto.
  destruct Hb as (Hi & Hj & _). unfold tile_of. simpl. repeat f_equal.
  - rewrite Z.div_1_r. lia.
  - fold t. apply Hcol. lia.
Qed.

Lemma embedding_owns : owns any_output lower_embedding.
Proof.
  unfold lower_embedding. own_start.
  eapply (owned_exclusive _ _ _ (tile_of _)); [reflexivity|fp_dims|eassumption|].
  intros cs Hcs. pose proof Hcs as (c1 & c2 & -> & _)%grid_coords2. cbn [tf_domain] in *.
  unfold py_index. cbn [lookup list_lookup of_option mbind result_bind].
  apply post_bind. intros [c0 c1'] Hcols. cbn beta iota.
  apply post_regions. repeat (apply Forall_cons; split); [|apply Forall_nil_2].
  by eapply embed_tile_owned.
Qed.

(** Elementwise families own their output when it is a vector. *)
Lemma elem_box_owned (y : TensorValue) (n : Z) (cs : list Z) (box : list (Z * bound)) :
  vector_output y → in_range (grid_of [(n, ELEM_TILE)]) cs → elem_box y (numel y) cs = Ok box →
  post (owned_tile y (tile_of [(n, ELEM_TILE)]) cs) (tile_region y box).
Proof.
  intros Hv (c & -> & Hc)%grid_coords1 Hbox. unfold elem_box, flat_box in Hbox.
  simpl in Hbox. destruct (negb _); [done|]. rewrite decide_True in Hbox by done. injection Hbox as <-.
  unfold ELEM_TILE in *. apply owned_tile_intro; [fp_arith|].
  intros [|i [|] ] Hb; destruct (tv_shape y) as [|d1 [|] ]; simpl in Hb; try tauto.
  destruct Hb as (Hi & _). unfold tile_of. simpl. repeat f_equal. apply div_unique_tile; lia.
Qed.

Ltac own_elem :=
  own_start; eapply (owned_exclusive _ _ _ (tile_of _)); [reflexivity|fp_dims|eassumption|];
  intros cs Hcs; cbn [tf_domain td_dims] in Hcs.

Lemma gelu_owns : owns vector_output lower_gelu.
Proof.
  unfold lower_gelu. own_elem. apply post_regions.
  repeat (apply Forall_cons; split); [|apply Forall_nil_2].
  apply post_bind. intros box Hbox. by eapply elem_box_owned.
Qed.

Lemma swiglu_owns : owns vector_output lower_swiglu.
Proof.
  unfold lower_swiglu. own_elem. apply post_bind. intros box Hbox. apply post_regions.
  repeat (apply Forall_cons; split); [|apply Forall_nil_2]. by eapply elem_box_owned.
Qed.

Lemma add_owns : owns vector_output lower_add.
Proof.
  unfold lower_add. own_elem. apply post_bind. intros box Hbox. apply post_regions.
  repeat (apply Forall_cons; split); [|apply Forall_nil_2]. by eapply elem_box_owned.
Qed.

(** The two routing tables of moe_route. *)
Lemma moe_route_owns (op : Operator) (graph : OperatorGraph) (f : TaskFamily) (ids weights : TensorValue) :
  lower_moe_route op graph = Ok f → graph_dims graph →
  tensor_in op graph 2 = Ok ids → tensor_in op graph 3 = Ok weights →
  dense ids → dense weights → tv_storage_id ids ≠ tv_storage_id weights → exclusive_writes f.
Proof.
  unfold lower_moe_route. intros H Hdims Hids Hweights Hd1 Hd2 Hne. rewrite Hids, Hweights in H.
  fp_branches;
  (eapply (owned_exclusive_list _ _ [ids; weights] (take 1));
    [reflexivity|fp_dims|by apply Forall_cons; split; [|apply Forall_singleton]
    |constructor; [by intros ?%list_elem_of_singleton|apply NoDup_singleton]|]);
  (intros cs Hcs; apply post_regions; repeat (apply Forall_cons; split); [..|apply Forall_nil_2];
   [intros r Hr; exists ids; split; [left|]|intros r Hr; exists weights; split; [right; left|]];
   (eapply row_tile_owned1; [exact Hcs|exact Hr])).
Qed.

(** *** Attention *)
Lemma prefix_tile_owned (y : TensorValue) (B H c1 c2 : Z) (pt : string) :
  in_range (grid_of [(B, 1); (H, 1)]) [c1; c2] →
  post (owned_tile y (take 2) [c1; c2]) (tile_region y [cell c1; cell c2; upto pt]).
Proof.
  intros (? & ? & [= <- <-] & Hc1 & Hc2)%grid_coords2. apply owned_tile_intro; [fp_arith|].
  intros [|i [|j [|k [|] ] ] ] Hb; destruct (tv_shape y) as [|d1 [|d2 [|d3 [|] ] ] ];
    simpl in Hb; try tauto.
  destruct Hb as (Hi & Hj & _). simpl. repeat f_equal; lia.
Qed.

Lemma cache_tile_owned (y : TensorValue) (B H D c1 c2 : Z) (pt : string) :
  in_range (grid_of [(B, 1); (H, 1)]) [c1; c2] →
  post (owned_tile y (take 2) [c1; c2]) (tile_region y [cell c1; cell c2; upto pt; span 0 D]).
Proof.
  intros (? & ? & [= <- <-] & Hc1 & Hc2)%grid_coords2. apply owned_tile_intro; [fp_arith|].
  intros [|i [|j [|k [|l [|] ] ] ] ] Hb; destruct (tv_shape y) as [|d1 [|d2 [|d3 [|d4 [|] ] ] ] ];
    simpl in Hb; try tauto.
  destruct Hb as (Hi & Hj & _). simpl. repeat f_equal; lia.
Qed.

Lemma softmax_owns : owns any_output lower_softmax.
Proof. unfold lower_softmax. own_start. own_one head_tile_owned. Qed.

Lemma attention_values_owns : owns any_output lower_attention_values.
Proof. unfold lower_attention_values. own_start; own_one head_tile_owned. Qed.

Lemma attention_scores_owns : owns any_output lower_attention_scores.
Proof.
  unfold lower_attention_scores. own_start.
  eapply (owned_exclusive _ _ _ (take 2)); [reflexivity|fp_dims|eassumption|].
  intros cs Hcs. pose proof Hcs as (c1 & c2 & -> & _)%grid_coords2. cbn [unpack2 mbind result_bind].
  apply post_bind. intros pt _. apply post_regions. repeat (apply Forall_cons; split); [|apply Forall_nil_2].
  eapply prefix_tile_owned; exact Hcs.
Qed.

(** A cache append writes the rows of its two caches. *)
Lemma cache_append_owns (op : Operator) (graph : OperatorGraph) (f : TaskFamily) (k_cache v_cache : TensorValue) :
  lower_cache_append op graph = Ok f → graph_dims graph →
  tensor_in op graph 0 = Ok k_cache → tensor_in op graph 1 = Ok v_cache →
  dense k_cache → dense v_cache → tv_storage_id k_cache ≠ tv_storage_id v_cache → exclusive_writes f.
Proof.
  unfold lower_cache_append. intros H Hdims Hk Hv Hd1 Hd2 Hne. fp_branches.
  eapply (owned_exclusive_list _ _ [k_cache; v_cache] (take 2));
    [reflexivity| |by apply Forall_cons; split; [|apply Forall_singleton]
    |constructor; [by intros ?%list_elem_of_singleton|apply NoDup_singleton]|].
  { destruct (unpack4_nonneg _ _ _ _ _ (tensor_dims _ _ _ _ Hdims E) E3) as (? & ? & _). fp_dims. }
  intros cs Hcs. pose proof Hcs as (c1 & c2 & -> & _)%grid_coords2. cbn [unpack2 mbind result_bind].
  apply post_bind. intros pt _. apply post_regions. repeat (apply Forall_cons; split); [..|apply Forall_nil_2];
    intros r Hr; [exists k_cache; split; [left|]|exists v_cache; split; [right; left|]];
    (eapply cache_tile_owned; [exact Hcs|exact Hr]).
Qed.

(** ** The dense operators and attention *)
Definition DENSE : list (string * Factory) :=
  [("linear", lower_linear); ("linear_fp8", lower_linear_fp8); ("layer_norm", lower_layer_norm);
   ("rms_norm", lower_rms_norm); ("rms_norm_gated", lower_rms_norm_gated); ("rope", lower_rope);
   ("gelu", lower_gelu); ("swiglu", lower_swiglu); ("add", lower_add);
   ("embedding", lower_embedding); ("moe_route", lower_moe_route);
   ("moe_expert", lower_moe_expert); ("moe_combine", lower_moe_combine);
   ("attention_scores", lower_attention_scores); ("softmax", lower_softmax);
   ("attention_values", lower_attention_values)]%string.

(** The tensors a dense lowering writes. *)
Definition written (op : Operator) : list string :=
  if decide (op_kind op = "moe_route"%string) then take 2 (drop 2 (op_inputs op)) else op_outputs op.

(** What a dense operator's outputs must be for its tasks to own their
    writes: row-major buffers in storages of their own, vectors for the
    elementwise operators. *)
Record outputs_ok (op : Operator) (g : OperatorGraph) : Prop := {
  oo_dense : ∀ n y, n ∈ written op → graph_tensor g n = Ok y → dense y;
  oo_vectors : op_kind op ∈ ["gelu"; "swiglu"; "add"]%string →
    ∀ n y, n ∈ written op → graph_tensor g n = Ok y → vector_output y;
  oo_tables : op_kind op = "moe_route"%string → ∀ ids weights,
    tensor_in op g 2 = Ok ids → tensor_in op g 3 = Ok weights → tv_storage_id ids ≠ tv_storage_id weights
}.

Lemma dense_owners :
  Forall (λ kf, factory_of kf.1 = Some kf.2
    ∧ (kf.1 = "moe_route"%string
       ∨ (kf.1 ∈ ["gelu"; "swiglu"; "add"]%string ∧ owns vector_output kf.2)
       ∨ owns any_output kf.2)) DENSE.
Proof.
  unfold DENSE. repeat (apply Forall_cons; split); [..|apply Forall_nil_2]; (split; [reflexivity|]);
    cbn [fst snd].
  - right; right. exact linear_owns.
  - right; right. exact linear_fp8_owns.
  - right; right. exact layer_norm_owns.
  - right; right. exact rms_norm_owns.
  - right; right. exact rms_norm_gated_owns.
  - right; right. exact rope_owns.
  - right; left. split; [set_solver|exact gelu_owns].
  - right; left. split; [set_solver|exact swiglu_owns].
  - right; left. split; [set_solver|exact add_owns].
  - right; right. exact embedding_owns.
  - by left.
  - right; right. exact moe_expert_owns.
  - right; right. exact moe_combine_owns.
  - right; right. exact attention_scores_owns.
  - right; right. exact softmax_owns.
  - right; right. exact attention_values_owns.
Qed.

(** Distinct tasks of a dense or attention family never write the same address, for
    every operator whose outputs are row-major buffers in storages of their
    own (vectors, for the elementwise operators). *)
Lemma dense_writes_exclusive (op : Operator) (g : OperatorGraph) (f : TaskFamily) :
  op_kind op ∈ DENSE.*1 → lower_op op g = Ok f → graph_dims g → outputs_ok op g → exclusive_writes f.
Proof.
  intros Hk Hl Hd [Ho Hv Ht]. unfold lower_op in Hl.
  destruct (match dict_get CONTRACTS (op_kind op) with Some c => _ | None => _ end); [|done].
  destruct (decide (op_kind op = "moe_route"%string)) as [Er|Er].
  { rewrite Er in Hl. change (factory_of "moe_route") with (Some lower_moe_route) in Hl. simpl in Hl.
    assert (Hw : ∀ i tv, (i = 2 ∨ i = 3)%nat → tensor_in op g i = Ok tv → dense tv).
    { intros i tv Hi (n & Hn & Htv)%tensor_in_inv. apply (Ho n); [|done]. unfold written.
      rewrite decide_True by done. apply list_elem_of_lookup. exists (i - 2)%nat.
      rewrite lookup_take_lt, lookup_drop by lia. rewrite <- Hn. f_equal. lia. }
    assert (∃ ids weights, tensor_in op g 2 = Ok ids ∧ tensor_in op g 3 = Ok weights) as (ids & weights & E2 & E3).
    { pose proof Hl as H. unfold lower_moe_route in H. res_inv. eauto. }
    exact (moe_route_owns op g f ids weights Hl Hd E2 E3 (Hw 2%nat ids (or_introl eq_refl) E2)
      (Hw 3%nat weights (or_intror eq_refl) E3) (Ht Er ids weights E2 E3)). }
  assert (Hout : ∀ y, tensor_out op g 0 = Ok y → dense y
            ∧ (op_kind op ∈ ["gelu"; "swiglu"; "add"]%string → vector_output y)).
  { intros y (n & Hn & Hy)%tensor_out_inv. apply list_elem_of_lookup_2 in Hn.
    assert (n ∈ written op) by (unfold written; by rewrite decide_False).
    split; [by eapply Ho|]. intros Hin. by eapply Hv. }
  assert (Hany : ∀ factory, owns any_output factory → factory op g = Ok f → exclusive_writes f).
  { intros factory Hf Hr. eapply Hf; [exact Hr|done|]. intros y Hy. by split; [apply Hout|]. }
  assert (Hvec : ∀ factory, op_kind op ∈ ["gelu"; "swiglu"; "add"]%string →
            owns vector_output factory → factory op g = Ok f → exclusive_writes f).
  { intros factory Hin Hf Hr. eapply Hf; [exact Hr|done|]. intros y Hy.
    destruct (Hout y Hy) as [? Hvy]. split; [done|by apply Hvy]. }
  apply list_elem_of_fmap in Hk as ([kind factory] & Hkind & Hin).
  pose proof dense_owners as Hf. rewrite Forall_forall in Hf.
  destruct (Hf _ Hin) as [Hfac Hown]. cbn [fst snd] in *. rewrite Hkind in *.
  rewrite Hfac in Hl. destruct Hown as [->|[[Hel Hown]|Hown]]; eauto. done.
Qed.

(** ** Elementwise tiles *)

(** The box of a flat range holds every element of the range. *)
Lemma flat_box_covers (y : TensorValue) (lo hi k : Z) :
  is_contiguous y = true → (length (tv_shape y) = 1 ∨ length (tv_shape y) = 2)%nat →
  nonneg (tv_shape y) → 0 ≤ lo → lo ≤ k < hi → hi ≤ numel y →
  ∃ box, flat_box y lo hi = Ok box ∧ boxes_contain box (tv_shape y) (unravel (tv_shape y) k).
Proof.
  unfold numel. rewrite numel_of_zprod. intros Hc Hl Hn Hlo Hk Hhi. unfold flat_box. rewrite Hc. simpl.
  destruct (tv_shape y) as [|d1 [|d2 [|] ] ] eqn:Es; simpl in Hl; try lia.
  - unfold zprod in Hhi. simpl in *. eexists. split; [done|]. simpl. rewrite Z.div_1_r. lia.
  - apply Forall_cons in Hn as [H1 [H2 _]%Forall_cons]. unfold zprod in Hhi. simpl in Hhi.
    rewrite decide_False by (simpl; lia). unfold py_last. simpl.
    assert (Hd2 : 0 < d2) by nia. rewrite !py_floordiv_nz, !py_mod_nz by lia. simpl.
    eexists. split; [done|]. simpl. rewrite Z.mul_1_r, Z.div_1_r.
    pose proof (Z.div_mod lo d2 ltac:(lia)) as E1. pose proof (Z.mod_pos_bound lo d2 Hd2).
    pose proof (Z.div_mod (hi - 1) d2 ltac:(lia)) as E2. pose proof (Z.mod_pos_bound (hi - 1) d2 Hd2).
    pose proof (Z.div_mod k d2 ltac:(lia)) as E3. pose proof (Z.mod_pos_bound k d2 Hd2).
    assert (lo / d2 ≤ k / d2) by (apply Z.div_le_mono; lia).
    assert (k / d2 ≤ (hi - 1) / d2) by (apply Z.div_le_mono; lia).
    assert (k / d2 < d1) by (apply Z.div_lt_upper_bound; lia).
    case_decide as Er; simpl; split_and!; try lia; nia.
Qed.

Lemma elem_box_covers (y : TensorValue) (k : Z) :
  dense y → (length (tv_shape y) = 1 ∨ length (tv_shape y) = 2)%nat → nonneg (tv_shape y) →
  0 ≤ k < numel y →
  ∃ box, elem_box y (numel y) [k / ELEM_TILE] = Ok box
    ∧ boxes_contain box (tv_shape y) (unravel (tv_shape y) k).
Proof.
  intros Hd Hl Hn Hk. unfold elem_box, ELEM_TILE. simpl.
  pose proof (Z.div_mod k 1024 ltac:(lia)). pose proof (Z.mod_pos_bound k 1024 ltac:(lia)).
  assert (0 ≤ k / 1024) by (apply Z.div_pos; lia).
  apply flat_box_covers; [apply Hd|done|done|lia|lia|lia].
Qed.

Lemma boxes_contain_length (boxes : list (Z * bound)) (shape idx : list Z) :
  boxes_contain boxes shape idx → length boxes = length shape.
Proof.
  revert shape idx. induction boxes as [|[lo hi] bs IH]; intros [|d ds] [|i idx] H; simpl in *; try done.
  destruct H as [_ H]. f_equal. by eapply IH.
Qed.

(** The tasks of an elementwise family cover the output: element [k] of
    a row-major vector or matrix is written by task [k / 1024], whose region
    callback returns a single region that holds it. *)
Theorem gelu_tasks_cover (op : Operator) (g : OperatorGraph) (f : TaskFamily) (x y : TensorValue) (k : Z) :
  lower_gelu op g = Ok f → tensor_in op g 0 = Ok x → tensor_out op g 0 = Ok y →
  graph_dims g → dense y → (length (tv_shape y) = 1 ∨ length (tv_shape y) = 2)%nat →
  numel x = numel y → 0 ≤ k < numel y →
  ∃ n r, family_task_count f = Ok n ∧ 0 ≤ k / ELEM_TILE < n
    ∧ writes f (k / ELEM_TILE) = Ok [r] ∧ rg_storage_id r = tv_storage_id y
    ∧ region_addr r (tv_offset y + k).
Proof.
  unfold lower_gelu. intros H Hx Hy Hdims Hd Hl Hxy Hk. rewrite Hx, Hy in H. simpl in H.
  injection H as <-. pose proof (tensor_out_dims _ _ _ _ Hdims Hy) as Hnn.
  assert (Hdom : domain_ok (mk_domain [(numel x, ELEM_TILE)])).
  { apply Forall_singleton. simpl. rewrite Hxy. unfold ELEM_TILE. lia. }
  assert (Hg : 0 ≤ k / ELEM_TILE < ceil_div (numel x) ELEM_TILE).
  { rewrite Hxy. unfold ELEM_TILE. split; [apply Z.div_pos; lia|].
    apply ceil_div_bounds; [lia|]. pose proof (Z.mul_div_le k 1024 ltac:(lia)). lia. }
  destruct (elem_box_covers y k Hd Hl Hnn Hk) as (box & Hb & Hc).
  exists (ceil_div (numel x) ELEM_TILE), (mk_region (tv_storage_id y) y box None (-1)). split_and!.
  - unfold family_task_count. cbn [tf_domain]. rewrite task_count_ok by done. unfold zprod. simpl.
    f_equal. lia.
  - apply Hg.
  - apply Hg.
  - unfold writes, family_coords. cbn [tf_write_regions tf_domain]. rewrite coords_ok; [|done|].
    + rewrite decide_True by (unfold zprod; simpl; lia). simpl.
      rewrite Z.div_1_r, Hb. simpl. unfold tile_region, region_tile.
      by rewrite (boxes_contain_length _ _ _ Hc), bool_decide_true.
    + apply Forall_singleton. simpl. lia.
  - done.
  - assert (Hr : in_range (tv_shape y) (unravel (tv_shape y) k)).
    { eapply boxes_contain_in_range; [|exact Hc]. eapply elem_box_nonneg; [done| |exact Hb].
      apply Forall_singleton. lia. }
    exists (unravel (tv_shape y) k). split; [done|]. simpl. rewrite dense_addr by done.
    rewrite ravel_unravel; [done|by eapply in_range_pos|].
    unfold numel in Hk. by rewrite numel_of_zprod in Hk.
Qed.

(** On a matrix whose width does not divide the tile, the regions two
    tasks declare to write overlap: tile 0 is rounded up to whole rows and
    tile 1 starts inside its last row. *)
Theorem elem_tiles_overlap (y : TensorValue) (rows cols : Z) :
  tv_shape y = [rows; cols] → dense y → 0 < cols < ELEM_TILE → ELEM_TILE mod cols ≠ 0 →
  ELEM_TILE < rows * cols →
  ∃ b0 b1 r0 r1, elem_box y (numel y) [0] = Ok b0 ∧ elem_box y (numel y) [1] = Ok b1
    ∧ tile_region y b0 = Ok r0 ∧ tile_region y b1 = Ok r1
    ∧ region_addr r0 (tv_offset y + ELEM_TILE) ∧ region_addr r1 (tv_offset y + ELEM_TILE).
Proof.
  intros Hs Hd Hc Hm Hn.
  assert (Hnum : numel y = rows * cols).
  { unfold numel. rewrite numel_of_zprod, Hs. unfold zprod. simpl. lia. }
  assert (Hnn : nonneg (tv_shape y)) by (rewrite Hs; repeat constructor; nia).
  assert (Haddr : ∀ box, boxes_contain box (tv_shape y) (unravel (tv_shape y) 1024) →
            ∃ r, tile_region y box = Ok r ∧ region_addr r (tv_offset y + 1024)).
  { intros box Hbox. unfold tile_region, region_tile.
    rewrite (boxes_contain_length _ _ _ Hbox), bool_decide_true by done. eexists. split; [done|].
    exists (unravel (tv_shape y) 1024). split; [done|]. simpl.
    assert (Hpos : Forall (λ d, 0 < d) (tv_shape y)) by (rewrite Hs; repeat constructor; nia).
    assert (Hk : 0 ≤ 1024 < zprod (tv_shape y)).
    { unfold numel in Hnum. rewrite numel_of_zprod in Hnum. unfold ELEM_TILE in Hn. lia. }
    rewrite dense_addr; [by rewrite ravel_unravel|done|by apply unravel_in_range]. }
  destruct (elem_box_covers y 1024 Hd ltac:(rewrite Hs; by right) Hnn ltac:(unfold ELEM_TILE in *; lia))
    as (b1 & Hb1 & Hc1).
  destruct (Haddr _ Hc1) as (r1 & Hr1 & Ha1).
  unfold ELEM_TILE in *.
  pose proof (Z.div_mod 1024 cols ltac:(lia)). pose proof (Z.mod_pos_bound 1024 cols ltac:(lia)).
  assert (Hq : 1023 / cols = 1024 / cols).
  { symmetry. apply (Z.div_unique_pos _ _ _ (1024 mod cols - 1)); lia. }
  assert (Hq1 : 1 ≤ 1024 / cols < rows).
  { split; [apply Z.div_le_lower_bound; lia|apply Z.div_lt_upper_bound; lia]. }
  assert (Hb0 : elem_box y (numel y) [0] = Ok [span 0 (1024 / cols + 1); span 0 cols]).
  { unfold elem_box, flat_box, ELEM_TILE, py_last. rewrite Hnum, Hs. simpl. destruct Hd as [-> _]. simpl.
    rewrite Z.min_l by lia. rewrite !py_floordiv_nz, !py_mod_nz by lia.
    cbn [mbind result_bind]. change (0 * 1024) with 0. change ((0 + 1) * 1024 - 1) with 1023.
    rewrite Z.div_0_l, Hq, decide_False by lia. done. }
  destruct (Haddr [span 0 (1024 / cols + 1); span 0 cols]) as (r0 & Hr0 & Ha0).
  { rewrite Hs. unfold zprod. simpl. rewrite Z.mul_1_r, Z.div_1_r. lia. }
  exists [span 0 (1024 / cols + 1); span 0 cols], b1, r0, r1.
  split_and!; [exact Hb0|exact Hb1|done..].
Qed.

(** *** Witnesses *)
Definition ex_matrix_out : TensorValue := mk_tensor (Some 2) "y" [2; 600] F32 [600; 1] 2 0 None.

Lemma elem_tiles_overlap_witness : ∃ r0 r1,
  (b ← elem_box ex_matrix_out 1200 [0]; tile_region ex_matrix_out b) = Ok r0
  ∧ (b ← elem_box ex_matrix_out 1200 [1]; tile_region ex_matrix_out b) = Ok r1
  ∧ region_addr r0 1024 ∧ region_addr r1 1024.
Proof.
  destruct (elem_tiles_overlap ex_matrix_out 2 600) as (b0 & b1 & r0 & r1 & H0 & H1 & Hr0 & Hr1 & Ha0 & Ha1).
  - reflexivity.
  - split; reflexivity.
  - unfold ELEM_TILE. lia.
  - vm_compute. discriminate.
  - unfold ELEM_TILE. lia.
  - exists r0, r1. change (numel ex_matrix_out) with 1200 in *. rewrite H0, H1. simpl.
    split_and!; [exact Hr0|exact Hr1|exact Ha0|exact Ha1].
Defined.

(** [y = gelu(x)] on 2 x 600 elements, and [y = x w] with a 20 x 40 output. *)
Definition ex_gelu_op : Operator := mk_operator 0 "gelu" ["a"]%string ["y"]%string ∅ [] [] "".
Definition ex_linear_op : Operator := mk_operator 0 "linear" ["x"; "w"]%string ["y"]%string ∅ [] [] "".
Definition ex_linear_graph : OperatorGraph :=
  mk_graph [("x", mk_tensor (Some 0) "x" [20; 8] F32 [8; 1] 0 0 None);
            ("w", mk_tensor (Some 1) "w" [8; 40] F32 [40; 1] 1 0 None);
            ("y", mk_tensor (Some 2) "y" [20; 40] F32 [40; 1] 2 0 None)]%string
    [] [] [] [ex_linear_op] ∅ [] ∅ [] 3 1 3.

Lemma gelu_tasks_cover_witness : ∃ f r,
  lower_gelu ex_gelu_op (ex_add_graph ex_gelu_op) = Ok f ∧ writes f 1 = Ok [r] ∧ region_addr r 1100.
Proof.
  destruct (lower_gelu ex_gelu_op (ex_add_graph ex_gelu_op)) as [f|e] eqn:E; [|vm_compute in E; discriminate].
  destruct (gelu_tasks_cover ex_gelu_op (ex_add_graph ex_gelu_op) f (ex_vector "a" 0) (ex_vector "y" 2) 1100 E)
    as (n & r & _ & _ & Hw & _ & Ha).
  - reflexivity.
  - reflexivity.
  - apply graph_dims_tensors, (bool_decide_unpack _). vm_compute. exact I.
  - split; reflexivity.
  - by right.
  - reflexivity.
  - vm_compute. split; [discriminate|reflexivity].
  - exists f, r. split; [reflexivity|]. split; [exact Hw|exact Ha].
Defined.

Lemma dense_writes_exclusive_witness : ∃ f,
  lower_op ex_linear_op ex_linear_graph = Ok f ∧ family_task_count f = Ok 6 ∧ exclusive_writes f.
Proof.
  destruct (lower_op ex_linear_op ex_linear_graph) as [f|e] eqn:E; [|vm_compute in E; discriminate].
  exists f. split; [reflexivity|]. split.
  - assert (Hc : (f ← lower_op ex_linear_op ex_linear_graph; family_task_count f) = Ok 6) by (vm_compute; reflexivity).
    rewrite E in Hc. exact Hc.
  - apply (dense_writes_exclusive ex_linear_op ex_linear_graph f).
    + apply (bool_decide_unpack _). vm_compute. exact I.
    + exact E.
    + apply graph_dims_tensors, (bool_decide_unpack _). vm_compute. exact I.
    + split.
      * intros n y Hn%list_elem_of_singleton Hy. subst n. vm_compute in Hy. injection Hy as <-.
        split; reflexivity.
      * intros Hin. exfalso. revert Hin. apply (bool_decide_unpack _). vm_compute. exact I.
      * discriminate.
Defined.
