(* ===== verification/BodyLocality.v ===== *)
(** * Task bodies stay inside their regions

    The bodies of the decode operators against the regions their lowerings
    declare: what a body loads is in a region the task reads, what it stores
    in a region the task writes. *)

From S2P Require Import Prelude Indexing OperatorIR Capture TaskIR LoweringsCommon LoweringsDense LoweringsAttention.
From S2P Require Import Lowerings Operands Footprint FootprintState Ownership Arrays Execution Effects ReferenceTypes ReferenceDense ReferenceAttention Cells.
Local Open Scope Z_scope.

Definition in_region (r : Region) (a : addr) : Prop := rg_storage_id r = a.1 ∧ region_addr r a.2.
Definition touched (rs : list Region) (a : addr) : Prop := ∃ r, r ∈ rs ∧ in_region r a.

Lemma touched_elem (rs : list Region) (r : Region) (a : addr) : in_region r a → r ∈ rs → touched rs a.
Proof. intros H Hr. by exists r. Qed.

(** ** Cells inside a tile *)

(** Position [k] of axis [i] of extent [n] is selected. *)
Definition selects_at (ixs : list index) (i : nat) (n k : Z) : Prop :=
  match ixs !! i with Some ix => ∃ s, resolve_index ix n = Ok s ∧ k ∈ s.1 | None => 0 ≤ k < n end.

Lemma selects_boxes (ixs : list index) (tile : list (Z * bound)) (shape idx : list Z) :
  selects ixs shape idx → length tile = length shape →
  (∀ i b n k, tile !! i = Some b → shape !! i = Some n → selects_at ixs i n k → b.1 ≤ k < hi_eff b.2 n) →
  boxes_contain tile shape idx.
Proof.
  intros H. revert tile. induction H as [|ix ixs n k shape idx s Hs Hk _ IH|n k shape idx Hk _ IH];
    intros [|[lo hi] tile] Hl Hb; simplify_eq/=; [done|..].
  - split; [apply (Hb 0%nat (lo, hi) n k); [done..|by exists s]|]. apply IH; [lia|].
    intros i b n' k' H1 H2 H3. exact (Hb (S i) b n' k' H1 H2 H3).
  - split; [apply (Hb 0%nat (lo, hi) n k); done|]. apply IH; [lia|].
    intros i b n' k' H1 H2 H3. apply (Hb (S i) b n' k' H1 H2). by unfold selects_at in *.
Qed.

Lemma cells_tile (dt : npdtype) (tv : TensorValue) (ixs : list index) (tile : list (Z * bound)) (r : Region) (a : addr) :
  tile_region tv tile = Ok r →
  (∀ i b n k, tile !! i = Some b → tv_shape tv !! i = Some n → selects_at ixs i n k → b.1 ≤ k < hi_eff b.2 n) →
  cells (view_of dt tv) ixs a → in_region r a.
Proof.
  unfold tile_region, region_tile. intros Hr Hb (idx & Hidx & ->). res_inv.
  match goal with E : bool_decide _ = true |- _ => apply bool_decide_eq_true in E end.
  split; [done|]. exists idx. split; [|done]. by apply (selects_boxes ixs).
Qed.

Lemma in_range_boxes (shape idx : list Z) : in_range shape idx → boxes_contain ((λ d, (0, BInt d)) <$> shape) shape idx.
Proof. induction 1 as [|d i ds js Hd _ IH]; cbn; [done|]. split; [rewrite Z.min_id; lia|done]. Qed.

Lemma cells_whole (dt : npdtype) (tv : TensorValue) (ixs : list index) (a : addr) :
  cells (view_of dt tv) ixs a → in_region (whole tv) a.
Proof.
  intros (idx & Hidx & ->). split; [done|]. exists idx. split; [|done].
  apply in_range_boxes. by eapply selects_in_range.
Qed.

(** *** Regions at run time *)

(** The end of a box of a region: a symbolic one, ["p+1"], is the valid length [n]. *)
Definition hi_at (n : Z) (hi : bound) (d : Z) : Z := match hi with BInt h => Z.min h d | _ => Z.min n d end.

Fixpoint boxes_at (n : Z) (boxes : list (Z * bound)) (shape idx : list Z) : Prop :=
  match boxes, shape, idx with
  | (lo, hi) :: bs, d :: ds, i :: js => lo ≤ i < hi_at n hi d ∧ boxes_at n bs ds js
  | [], [], [] => True
  | _, _, _ => False
  end.

Definition in_region_at (n : Z) (r : Region) (a : addr) : Prop :=
  rg_storage_id r = a.1 ∧ ∃ idx, boxes_at n (rg_boxes r) (tv_shape (rg_view r)) idx ∧ a.2 = view_addr (rg_view r) idx.
Definition touched_at (n : Z) (rs : list Region) (a : addr) : Prop := ∃ r, r ∈ rs ∧ in_region_at n r a.

Lemma touched_at_elem (n : Z) (rs : list Region) (r : Region) (a : addr) : in_region_at n r a → r ∈ rs → touched_at n rs a.
Proof. intros H Hr. by exists r. Qed.

Lemma selects_boxes_at (len : Z) (ixs : list index) (tile : list (Z * bound)) (shape idx : list Z) :
  selects ixs shape idx → length tile = length shape →
  (∀ i b n k, tile !! i = Some b → shape !! i = Some n → selects_at ixs i n k → b.1 ≤ k < hi_at len b.2 n) →
  boxes_at len tile shape idx.
Proof.
  intros H. revert tile. induction H as [|ix ixs n k shape idx s Hs Hk _ IH|n k shape idx Hk _ IH];
    intros [|[lo hi] tile] Hl Hb; simplify_eq/=; [done|..].
  - split; [apply (Hb 0%nat (lo, hi) n k); [done..|by exists s]|]. apply IH; [lia|].
    intros i b n' k' H1 H2 H3. exact (Hb (S i) b n' k' H1 H2 H3).
  - split; [apply (Hb 0%nat (lo, hi) n k); done|]. apply IH; [lia|].
    intros i b n' k' H1 H2 H3. apply (Hb (S i) b n' k' H1 H2). by unfold selects_at in *.
Qed.

Lemma cells_tile_at (len : Z) (dt : npdtype) (tv : TensorValue) (ixs : list index) (tile : list (Z * bound)) (r : Region) (a : addr) :
  tile_region tv tile = Ok r →
  (∀ i b n k, tile !! i = Some b → tv_shape tv !! i = Some n → selects_at ixs i n k → b.1 ≤ k < hi_at len b.2 n) →
  cells (view_of dt tv) ixs a → in_region_at len r a.
Proof.
  unfold tile_region, region_tile. intros Hr Hb (idx & Hidx & ->). res_inv.
  match goal with E : bool_decide _ = true |- _ => apply bool_decide_eq_true in E end.
  split; [done|]. exists idx. split; [|done]. by apply (selects_boxes_at len ixs).
Qed.

(** ** Positions of the indices the bodies use *)
Lemma upto_positions (n hi k : Z) (s : list Z * bool) :
  0 ≤ hi → resolve_index (Upto hi) n = Ok s → k ∈ s.1 → 0 ≤ k < hi ∧ k < n.
Proof.
  intros Hhi H Hk. pose proof (resolve_index_bounds _ _ _ _ H Hk) as Hn. revert H Hk. cbn [resolve_index Upto].
  unfold slice_positions. change (1 <? 0) with false. cbn beta iota zeta. rewrite (proj2 (Z.ltb_ge hi 0)) by lia.
  destruct (py_range _ _ _) as [ks|] eqn:E; [|done]. intros [= <-] Hk. simpl in Hk.
  apply (py_range_up _ _ 1 _ _ ltac:(lia) E) in Hk. lia.
Qed.

Lemma at_cell (i n k : Z) (s : list Z * bool) :
  0 ≤ i → resolve_index (At i) n = Ok s → k ∈ s.1 → k = i ∧ 0 ≤ k < n.
Proof.
  intros Hi H Hk. pose proof (resolve_index_bounds _ _ _ _ H Hk) as Hn. cbn [resolve_index] in H.
  destruct (norm_index n i) as [k'|] eqn:E; [|done]. injection H as <-.
  apply list_elem_of_singleton in Hk as ->. split; [by eapply norm_index_nonneg|done].
Qed.

(** ** Views of the operands *)
Definition materialized (graph : OperatorGraph) (tensors : dict string view) : Prop := ∀ name v,
  dict_get tensors name = Some v → ∃ tv dt, graph_tensor graph name = Ok tv ∧ v = view_of dt tv.

Lemma materialize_ok (arrays : gmap Z npdtype) (graph : OperatorGraph) (tensors : dict string view) :
  NoDup (g_tensors graph).*1 → materialize_tensors arrays graph = Ok tensors → materialized graph tensors.
Proof.
  unfold materialize_tensors, materialized, graph_tensor. generalize (g_tensors graph) as tvs. intros tvs.
  induction tvs as [|[n tv] tvs IH] in tensors |- * using rev_ind; intros Hnd H name v Hv.
  { injection H as <-. done. }
  rewrite fold_result_app in H. destruct (fold_result _ [] tvs) as [out|] eqn:E; [|done]. cbn in H.
  destruct (arrays !! tv_storage_id tv) as [dt|]; [|done]. injection H as <-.
  rewrite fmap_app in Hnd. apply NoDup_app in Hnd as (Hnd & Hnot & _).
  rewrite dict_get_set in Hv. rewrite dict_get_app. case_decide as Hn.
  - subst n. injection Hv as <-. exists tv, dt. split; [|done].
    assert (dict_get tvs name = None) as ->; [|simpl; by rewrite decide_True].
    destruct (dict_get tvs name) as [tv'|] eqn:E'; [|done]. exfalso. apply (Hnot name); [|by left].
    apply dict_get_elem in E'. by apply (list_elem_of_fmap_2 fst) in E'.
  - destruct (IH out Hnd eq_refl name v Hv) as (tv' & dt' & H' & ->). exists tv', dt'. split; [|done].
    by destruct (dict_get tvs name).
Qed.

Lemma named_operand (graph : OperatorGraph) (name : string) (tv : TensorValue) :
  graph_wf graph → graph_tensor graph name = Ok tv → graph_tensor graph (tv_name tv) = Ok tv.
Proof.
  intros Hwf H. assert (tv_name tv = name) as ->; [|done]. unfold graph_tensor in H.
  destruct (dict_get (g_tensors graph) name) as [tv'|] eqn:E; [|done]. injection H as ->.
  by destruct (gw_tensors _ Hwf _ _ (dict_get_elem _ _ _ E)).
Qed.

Section operands.
Context {V : Type} `{!Numpy V} (graph : OperatorGraph) (tensors : dict string view).
Context (Hwf : graph_wf graph) (Hmat : materialized graph tensors) (R W : addr → Prop).
Abbreviation mem := (gmap addr V).

Lemma stays_tensor {B : Type} (tv : TensorValue) (k : view → M mem B) :
  graph_tensor graph (tv_name tv) = Ok tv → (∀ dt, stays R W (k (view_of dt tv))) →
  stays R W (tensor tensors (tv_name tv) ≫= k).
Proof using Hmat.
  intros Htv H. apply stays_lift_bind. intros v Hv.
  destruct (dict_get tensors (tv_name tv)) as [v'|] eqn:E; [|done]. injection Hv as ->.
  destruct (Hmat _ _ E) as (tv' & dt & Htv' & ->). rewrite Htv in Htv'. injection Htv' as <-. apply H.
Qed.

Lemma stays_bind_assoc {A B D : Type} (p : M mem A) (k : A → M mem B) (k' : B → M mem D) :
  stays R W (p ≫= λ x, k x ≫= k') → stays R W ((p ≫= k) ≫= k').
Proof.
  intros H m1 m2 Hm. specialize (H m1 m2 Hm). unfold mbind, M_bind in *.
  by destruct (p m1) as [[x1|e1] s1], (p m2) as [[x2|e2] s2].
Qed.

Lemma stays_ret_bind {A B : Type} (x : A) (k : A → M mem B) : stays R W (k x) → stays R W (mret x ≫= k).
Proof. done. Qed.

Lemma stays_input {B : Type} (fam : TaskFamily) (i : nat) (tv : TensorValue) (k : view → M mem B) :
  tf_inputs fam !! i = Some (tv_name tv) → graph_tensor graph (tv_name tv) = Ok tv →
  (∀ dt, stays R W (k (view_of dt tv))) → stays R W (input tensors fam i ≫= k).
Proof using Hmat.
  intros Hi Htv H. unfold input. apply stays_bind_assoc, stays_lift_bind. intros name Hn.
  unfold py_index in Hn. rewrite Hi in Hn. injection Hn as <-. by apply stays_tensor.
Qed.

Lemma stays_output {B : Type} (fam : TaskFamily) (i : nat) (tv : TensorValue) (k : view → M mem B) :
  tf_outputs fam !! i = Some (tv_name tv) → graph_tensor graph (tv_name tv) = Ok tv →
  (∀ dt, stays R W (k (view_of dt tv))) → stays R W (output tensors fam i ≫= k).
Proof using Hmat.
  intros Hi Htv H. unfold output. apply stays_bind_assoc, stays_lift_bind. intros name Hn.
  unfold py_index in Hn. rewrite Hi in Hn. injection Hn as <-. by apply stays_tensor.
Qed.

Lemma stays_input_if {B : Type} (fam : TaskFamily) (c : bool) (i : nat) (tv : TensorValue) (k : option view → M mem B) :
  (c = true → tf_inputs fam !! i = Some (tv_name tv)) → graph_tensor graph (tv_name tv) = Ok tv →
  (∀ dt, stays R W (k (Some (view_of dt tv)))) → stays R W (k None) →
  stays R W (input_if tensors c fam i ≫= k).
Proof using Hmat.
  intros Hi Htv Hs Hn. unfold input_if. destruct c; [|exact Hn].
  apply stays_bind_assoc. by apply (stays_input fam i tv); [apply Hi|..].
Qed.

Lemma stays_row_pos (fam : TaskFamily) (b : Z) (sc : gmap string Z) :
  param_or fam "position_form" (AStr "scalar") ≠ AStr "row" →
  stays R W (row_pos_value (V := V) tensors fam b sc).
Proof. intros H. unfold row_pos_value. rewrite bool_decide_false by done. apply stays_lift. Qed.

(** With the position known. *)
Lemma stays_valid_len_at {B : Type} (fam : TaskFamily) (b p : Z) (sc : gmap string Z) (k : Z → M mem B) :
  param_or fam "position_form" (AStr "scalar") ≠ AStr "row" → sc !! "p"%string = Some p →
  stays R W (k (p + 1)) → stays R W (valid_len (V := V) tensors fam b sc ≫= k).
Proof.
  intros H Hp Hk. unfold valid_len, row_pos_value. rewrite bool_decide_false by done. rewrite Hp. exact Hk.
Qed.

Lemma stays_valid_len (fam : TaskFamily) (b : Z) (sc : gmap string Z) :
  param_or fam "position_form" (AStr "scalar") ≠ AStr "row" →
  stays R W (valid_len (V := V) tensors fam b sc).
Proof. intros H. apply stays_bind; [by apply stays_row_pos|]. intros. apply stays_ret. Qed.
End operands.

(** ** The operands have the shapes the capture rules give them *)
Definition same_shape (a b : result TensorValue) : bool :=
  match a, b with Ok x, Ok y => bool_decide (tv_shape x = tv_shape y) | _, _ => false end.
Definition same_dim (a : result TensorValue) (i : nat) (b : result TensorValue) (j : nat) : bool :=
  match a, b with Ok x, Ok y => bool_decide (tv_shape x !! i = tv_shape y !! j) | _, _ => false end.

Definition operands_shaped (graph : OperatorGraph) (op : Operator) : bool :=
  let inp := tensor_in op graph in
  let out := tensor_out op graph in
  match op_kind op with
  | "linear" => same_dim (inp 0%nat) 1 (inp 1%nat) 0 && negb (truthy (attr_or op "grouped_heads" ANone))
  | "layer_norm" | "rms_norm" | "rope" | "gelu" | "softmax" => same_shape (inp 0%nat) (out 0%nat)
  | "swiglu" | "add" => same_shape (inp 0%nat) (out 0%nat) && same_shape (inp 0%nat) (inp 1%nat)
  | "embedding" => true
  | "cache_append" => same_shape (inp 0%nat) (inp 1%nat) && same_dim (inp 2%nat) 2 (inp 0%nat) 3
                      && same_dim (inp 3%nat) 2 (inp 0%nat) 3
  | "attention_scores" => same_dim (inp 0%nat) 2 (inp 1%nat) 3
  | "attention_values" => same_dim (out 0%nat) 2 (inp 1%nat) 3
                          && (negb (truthy (attr_or op "gated" (ABool false))) || same_dim (inp 2%nat) 2 (inp 1%nat) 3)
  | _ => false
  end%string.

Definition scalar_position (op : Operator) : Prop := attr_or op "position_form" (AStr "scalar") ≠ AStr "row".

(** The body of every task stays inside the regions of the task. *)
Definition body_local (kind : string) (factory : Factory)
    (b : ∀ (V : Type), Numpy V → dict string view → body (V := V)) : Prop :=
  ∀ V (num : Numpy V) graph tensors op f rf wf cs sc rs ws,
  graph_wf graph → graph_dims graph → materialized graph tensors → op_kind op = kind → sizes_ok op →
  heads_ok op graph → operands_shaped graph op = true → scalar_position op → factory op graph = Ok f →
  tf_read_regions f = Some rf → tf_write_regions f = Some wf → in_grid (tf_domain f) cs →
  rf cs = Ok rs → wf cs = Ok ws →
  stays (touched rs) (touched ws) (b V num tensors f cs sc).

Ltac local_start :=
  intros V num graph tensors op f rf wf cs sc rs ws Hwf Hdims Hmat Hkind Hsizes Hheads Hshaped Hpos H Hrf Hwf' Hgrid Hrs Hws;
  unfold operands_shaped in Hshaped; rewrite Hkind in Hshaped; cbn iota in Hshaped.

Lemma input_named (graph : OperatorGraph) (op : Operator) (i : nat) (tv : TensorValue) :
  graph_wf graph → tensor_in op graph i = Ok tv → graph_tensor graph (tv_name tv) = Ok tv.
Proof. intros Hwf (n & _ & H)%tensor_in_inv. by eapply named_operand. Qed.

Lemma output_named (graph : OperatorGraph) (op : Operator) (i : nat) (tv : TensorValue) :
  graph_wf graph → tensor_out op graph i = Ok tv → graph_tensor graph (tv_name tv) = Ok tv.
Proof. intros Hwf (n & _ & H)%tensor_out_inv. by eapply named_operand. Qed.

Lemma same_shape_ok (x y : TensorValue) : same_shape (Ok x) (Ok y) = true → tv_shape x = tv_shape y.
Proof. apply bool_decide_eq_true. Qed.
Lemma same_dim_ok (x y : TensorValue) (i j : nat) : same_dim (Ok x) i (Ok y) j = true → tv_shape x !! i = tv_shape y !! j.
Proof. apply bool_decide_eq_true. Qed.

Lemma unpack2_inv {A} (xs : list A) (a b : A) : unpack2 xs = Ok (a, b) → xs = [a; b].
Proof. destruct xs as [|? [|? [|]]]; by intros [=-> ->]. Qed.
Lemma unpack3_inv {A} (xs : list A) (a b c : A) : unpack3 xs = Ok (a, b, c) → xs = [a; b; c].
Proof. destruct xs as [|? [|? [|? [|]]]]; by intros [=-> -> ->]. Qed.
Lemma unpack4_inv {A} (xs : list A) (a b c d : A) : unpack4 xs = Ok (a, b, c, d) → xs = [a; b; c; d].
Proof. destruct xs as [|? [|? [|? [|? [|]]]]]; by intros [=-> -> -> ->]. Qed.

(** *** Automation *)

(** The key/value head of a query head, in both of its formulas. *)
Lemma kv_head_group (fam : TaskFamily) (g h kvh hg : Z) :
  param_or fam "group" (AInt 1) = AInt g → 0 ≤ g → py_floordiv h g = Ok hg → kv_head fam h = Ok kvh → kvh = hg.
Proof.
  intros Hg Hpos Hd. unfold kv_head. rewrite Hg. cbn [as_int is_int of_option mbind result_bind].
  destruct (1 <? g) eqn:E; zbool; [congruence|]. unfold py_floordiv in Hd. case_decide; [done|].
  assert (g = 1) as -> by lia. rewrite Z.div_1_r in Hd. congruence.
Qed.

Lemma head_group_pos (op : Operator) (graph : OperatorGraph) (i j : nat) (x : TensorValue) (Hq group : Z) (kvh : attr) :
  heads_ok op graph → graph_dims graph → tensor_in op graph i = Ok x → tv_shape x !! j = Some Hq →
  head_group op Hq = Ok (kvh, group) → 0 ≤ group.
Proof.
  intros Hh Hd Hx Hj. apply (head_group_nonneg op graph); [done|]. pose proof (tensor_dims _ _ _ _ Hd Hx) as Hn.
  rewrite Forall_forall in Hn. apply Hn. by eapply list_elem_of_lookup_2.
Qed.

Ltac head_group :=
  match goal with
  | Hh : heads_ok _ _, Hd : graph_dims _, Hx : tensor_in _ _ _ = Ok ?x, Hj : tv_shape ?x !! _ = Some ?q,
    H : head_group _ ?q = Ok _ |- _ => exact (head_group_pos _ _ _ _ _ _ _ _ Hh Hd Hx Hj H)
  end.

(** Shapes as lists, and the coordinates of the task. *)
Ltac local_facts :=
  repeat match goal with
  | H : (_ && _)%bool = true |- _ => apply andb_true_iff in H as [? ?]
  | H : same_shape (Ok _) (Ok _) = true |- _ => apply same_shape_ok in H
  | H : same_dim (Ok _) _ (Ok _) _ = true |- _ => apply same_dim_ok in H
  | H : unpack2 (tv_shape _) = Ok _ |- _ => apply unpack2_inv in H
  | H : unpack3 (tv_shape _) = Ok _ |- _ => apply unpack3_inv in H
  | H : unpack4 (tv_shape _) = Ok _ |- _ => apply unpack4_inv in H
  | H : py_index (tv_shape _) _ = Ok _ |- _ => apply py_index_elem in H
  end;
  repeat match goal with
  | E : tv_shape ?x = _ :: _, H : _ = tv_shape ?x !! _ |- _ => rewrite E in H; cbn [lookup list_lookup] in H
  end;
  repeat match goal with
  | Hc : nonneg ?cs, H : unpack2 ?cs = Ok (?a, ?b) |- _ =>
      lazymatch goal with _ : 0 ≤ a |- _ => fail | _ => destruct (unpack2_nonneg _ _ _ Hc H) end
  | Hc : nonneg ?cs, H : py_index ?cs _ = Ok ?a |- _ =>
      lazymatch goal with _ : 0 ≤ a |- _ => fail | _ => pose proof (py_index_nonneg _ _ _ Hc H) end
  | H : head_group _ _ = Ok (_, ?g) |- _ =>
      lazymatch goal with _ : 0 ≤ g |- _ => fail | _ => assert (0 ≤ g) by head_group end
  | Ha : 0 ≤ ?a, Hb : 0 ≤ ?b, H : py_floordiv ?a ?b = Ok ?q |- _ =>
      lazymatch goal with _ : 0 ≤ q |- _ => fail | _ => pose proof (floordiv_nonneg _ _ _ Ha Hb H) end
  end.

(** Two evaluations of one call have one result. *)
Ltac same_call :=
  match goal with
  | H1 : ?m = Ok _, H2 : ?m = Ok _ |- _ => rewrite H1 in H2; injection H2; clear H2; intros; subst
  end.

Ltac position_of Hs Hk :=
  lazymatch type of Hs with
  | resolve_index (At _) _ = _ =>
      first [eapply at_cell in Hs as [? ?]; [|lia|exact Hk] | pose proof (resolve_index_bounds _ _ _ _ Hs Hk)]
  | resolve_index (Upto _) _ = _ =>
      first [eapply upto_positions in Hs as [? ?]; [|lia|exact Hk] | pose proof (resolve_index_bounds _ _ _ _ Hs Hk)]
  | resolve_index (Span _ _) _ = _ => eapply span_positions in Hs as [? ?]; [|lia|lia|exact Hk]
  | _ => pose proof (resolve_index_bounds _ _ _ _ Hs Hk)
  end.

(** Selected positions lie in the box of the axis. *)
Ltac leaf_positions :=
  let i := fresh "i" in let b := fresh "b" in let n := fresh "n" in let k := fresh "k" in
  let Hb := fresh "Hb" in let Hn := fresh "Hn" in let Hk := fresh "Hk" in
  intros i b n k Hb Hn Hk; unfold selects_at in Hk;
  do 5 (try destruct i as [|i]); cbn [lookup list_lookup] in Hb, Hk; try discriminate Hb; injection Hb as <-;
  try match type of Hk with
  | ∃ s, _ => let s := fresh "s" in let Hs := fresh "Hs" in destruct Hk as (s & Hs & Hk); position_of Hs Hk
  end;
  cbn [fst snd hi_eff hi_at cell span upto];
  repeat match goal with
  | E : tv_shape ?x = tv_shape ?y, Hn : tv_shape ?y !! _ = _ |- _ => rewrite <- E in Hn
  | E : tv_shape ?x = _ :: _, Hn : tv_shape ?x !! _ = _ |- _ => rewrite E in Hn; cbn in Hn
  end;
  simplify_eq;
  try match goal with |- _ ≤ _ < Z.min ?D ?n => assert (n = D) by congruence end;
  lia.

Ltac leaf_elem := rewrite ?elem_of_app, ?elem_of_cons; tauto.

Ltac leaf :=
  let a := fresh "a" in let Ha := fresh "Ha" in
  intros a Ha;
  match type of Ha with
  | cells (view_of _ ?tv) _ _ =>
      first [ apply (touched_elem _ (whole tv)); [exact (cells_whole _ _ _ _ Ha)|leaf_elem]
            | match goal with
              | H : tile_region tv _ = Ok ?r |- _ =>
                  first [ apply (touched_elem _ r); [refine (cells_tile _ _ _ _ _ _ H _ Ha); leaf_positions|leaf_elem]
                        | apply (touched_at_elem _ _ r); [refine (cells_tile_at _ _ _ _ _ _ _ H _ Ha); leaf_positions|leaf_elem] ]
              end ]
  end.

Ltac operand_named :=
  match goal with
  | H : tensor_in _ _ _ = Ok ?tv |- graph_tensor _ (tv_name ?tv) = _ => eapply input_named; [eassumption|exact H]
  | H : tensor_out _ _ _ = Ok ?tv |- graph_tensor _ (tv_name ?tv) = _ => eapply output_named; [eassumption|exact H]
  end.

Ltac scalar_form := match goal with H : scalar_position _ |- _ => exact H end.

Ltac local_step :=
  match goal with
  | Hm : materialized _ _ |- stays _ _ (mbind _ (input _ _ _)) =>
      eapply (stays_input _ _ Hm); [reflexivity|operand_named|intros ?]
  | Hm : materialized _ _ |- stays _ _ (mbind _ (output _ _ _)) =>
      eapply (stays_output _ _ Hm); [reflexivity|operand_named|intros ?]
  | H : row_index _ _ = Ok _ |- _ => unfold row_index, vw_ndim in H; cbn [view_of vw_shape] in H; case_decide; res_inv
  | H : kv_head _ _ = Ok _ |- _ =>
      eapply kv_head_group in H; [|reflexivity|eassumption|eassumption]; subst
  | |- stays _ _ (mbind _ (lift (Err _))) => apply stays_lift_bind; intros ? [=]
  | |- stays _ _ (mbind _ (lift _)) =>
      apply stays_lift_bind; let H := fresh "E" in intros ? H; cbn [tf_domain] in H; try same_call
  | |- stays _ _ (mbind _ (load_f64 _ _)) => apply stays_bind; [apply stays_load_f64; leaf|intros ?]
  | |- stays _ _ (mbind _ (load _ _)) => apply stays_bind; [apply stays_load; leaf|intros ?]
  | |- stays _ _ (mbind _ (load_int _ _)) => apply stays_bind; [apply stays_load_int; leaf|intros ?]
  | |- stays _ _ (mbind _ (store _ _ _)) => apply stays_bind; [apply stays_store; leaf|intros ?]
  | |- stays _ _ (mbind _ (assign _ _ _)) => apply stays_bind; [apply stays_assign; leaf|intros ?]
  | |- stays _ _ (mbind _ (row_pos_value _ _ _ _)) => apply stays_bind; [apply stays_row_pos; scalar_form|intros ?]
  | Hp : ?sc !! "p"%string = Some _ |- stays _ _ (mbind _ (valid_len _ _ _ ?sc)) =>
      eapply stays_valid_len_at; [scalar_form|exact Hp|]
  | |- stays _ _ (mbind _ (valid_len _ _ _ _)) => apply stays_bind; [apply stays_valid_len; scalar_form|intros ?]
  | |- stays _ _ (store _ _ _) => apply stays_store; leaf
  | |- stays _ _ (assign _ _ _) => apply stays_assign; leaf
  | |- stays _ _ (mbind _ (input_if _ ?c _ _)) =>
      let v := eval vm_compute in c in change c with v; unfold input_if; cbn iota
  | |- stays _ _ (mbind _ (mbind _ _)) => apply stays_bind_assoc
  | |- stays _ _ (mbind _ (mret _)) => apply stays_ret_bind
  | |- stays _ _ (mbind _ (if ?b then _ else _)) => destruct b
  | |- stays _ _ (mret _) => apply stays_ret
  | |- stays _ _ (lift _) => apply stays_lift
  | |- stays _ _ (let '(_, _) := ?p in _) => destruct p; try same_call
  | |- stays _ _ (if ?b then _ else _) => destruct b
  end.

(** The family of a lowering, and the regions of the task. *)
Ltac local_go :=
  repeat (progress (res_inv; cbn beta iota in *));
  cbn [tf_read_regions tf_write_regions] in *; simplify_eq;
  match goal with Hg : in_grid _ _ |- _ => pose proof (in_grid_nonneg _ _ Hg); clear Hg end;
  repeat (progress (res_inv; repeat match goal with H : context [decide _] |- _ => case_decide end; cbn beta iota in *));
  simplify_eq; unfold regions, row_tile, head_tile in *; cbn [map_result id] in *;
  repeat (progress (res_inv; cbn beta iota in *)); local_facts.
Ltac local_ready := local_start; local_go.

Lemma rope_local : body_local "rope" lower_rope (λ V num, @body_rope V num).
Proof. unfold lower_rope. local_ready. unfold body_rope. repeat local_step. Qed.

Lemma layer_norm_local : body_local "layer_norm" lower_layer_norm (λ V num, @body_layernorm V num).
Proof. unfold lower_layer_norm. local_ready. unfold body_layernorm. repeat local_step. Qed.

Lemma rms_norm_local : body_local "rms_norm" lower_rms_norm (λ V num, @body_rms_norm V num).
Proof. unfold lower_rms_norm. local_ready; unfold body_rms_norm; repeat local_step. Qed.

Lemma softmax_local : body_local "softmax" lower_softmax (λ V num, @body_softmax V num).
Proof. unfold lower_softmax. local_ready. unfold body_softmax. repeat local_step. Qed.

Lemma attention_scores_local :
  body_local "attention_scores" lower_attention_scores (λ V num, @body_attention_scores V num).
Proof. unfold lower_attention_scores. local_ready. unfold body_attention_scores. repeat local_step. Qed.

Lemma cache_append_local : body_local "cache_append" lower_cache_append (λ V num, @body_cache_append V num).
Proof. unfold lower_cache_append. local_ready. unfold body_cache_append. repeat local_step. Qed.

Lemma attention_values_local :
  body_local "attention_values" lower_attention_values (λ V num, @body_attention_values V num).
Proof.
  unfold lower_attention_values. local_start.
  destruct (truthy (attr_or op "gated" (ABool false))) eqn:Hgate; [destruct (tensor_in op graph 2) eqn:?; [|res_inv; done]|].
  all: cbn [negb orb] in Hshaped; local_go; unfold body_attention_values;
    change (param_or _ "gated" (ABool false)) with (attr_or op "gated" (ABool false)); rewrite Hgate; repeat local_step.
Qed.

(** *** Elementwise bodies *)
Lemma flat_tile (dt : npdtype) (tv tv' : TensorValue) (lo hi : Z) (box : list (Z * bound)) (r : Region) (a : addr) :
  flat_box tv' lo hi = Ok box → tv_shape tv = tv_shape tv' → nonneg (tv_shape tv) → 0 ≤ lo → hi ≤ numel tv →
  tile_region tv box = Ok r → flat_addrs (view_of dt tv) lo hi a → in_region r a.
Proof.
  intros Hb Hs Hn Hlo Hhi Hr (k & Hk & _ & ->). unfold tile_region, region_tile in Hr. res_inv.
  match goal with E : bool_decide _ = true |- _ => apply bool_decide_eq_true in E as Hl end.
  split; [done|]. exists (unravel (tv_shape tv) k). split; [|done].
  change (boxes_contain box (tv_shape tv) (unravel (tv_shape tv) k)). unfold numel in Hhi. rewrite Hs in *.
  assert (Hc : is_contiguous tv' = true) by (unfold flat_box in Hb; by destruct (is_contiguous tv')).
  destruct (flat_box_covers tv' lo hi k Hc) as (box' & Hb' & Hin); [|done..|congruence].
  rewrite <- Hl. unfold flat_box in Hb. destruct (negb _); [done|]. case_decide; [|res_inv; by right].
  injection Hb as <-. by left.
Qed.

Lemma stays_load_flat_f64 {V : Type} {num : Numpy V} (R W : addr → Prop) (v : view) (lo hi : Z) : 0 ≤ lo → 0 ≤ hi →
  (∀ a, flat_addrs v lo hi a → R a) → stays R W (load_flat_f64 v lo hi).
Proof. intros Hlo Hhi H. apply stays_bind; [by apply stays_load_flat|]. intros. apply stays_ret. Qed.

Ltac eval_tests :=
  repeat match goal with
  | |- context [bool_decide (AStr ?a = AStr ?b)] =>
      let v := eval vm_compute in (bool_decide (AStr a = AStr b)) in
      change (bool_decide (AStr a = AStr b)) with v; cbn iota
  end.

Lemma elem_hi (c n : Z) : Z.min (c * ELEM_TILE + ELEM_TILE) n = Z.min ((c + 1) * ELEM_TILE) n.
Proof. f_equal. lia. Qed.

Ltac flat_leaf :=
  let a := fresh "a" in let Ha := fresh "Ha" in
  intros a Ha;
  match type of Ha with
  | flat_addrs (view_of _ ?tv) _ _ _ =>
      match goal with
      | H : tile_region tv ?box = Ok ?r, Hb : flat_box ?tv' _ _ = Ok ?box |- _ =>
          apply (touched_elem _ r); [refine (flat_tile _ _ _ _ _ _ _ _ Hb _ _ _ _ H Ha)|leaf_elem];
          [congruence|by eauto using tensor_dims, tensor_out_dims|lia|unfold numel in *; simplify_eq; repeat match goal with E : tv_shape _ = tv_shape _ |- _ => rewrite E in * end; lia]
      end
  end.
Ltac flat_step :=
  first [ progress eval_tests | local_step
        | apply stays_bind; [apply stays_load_flat_f64; [lia|lia|flat_leaf]|intros ?]
        | apply stays_bind; [apply stays_load_flat; [lia|lia|flat_leaf]|intros ?]
        | apply stays_store_flat; [lia|lia|flat_leaf] ].

(** A flat range that starts in the array. *)
Lemma elem_range (tv : TensorValue) (c : Z) : 0 ≤ c → nonneg (tv_shape tv) →
  0 ≤ c * ELEM_TILE ∧ 0 ≤ Z.min ((c + 1) * ELEM_TILE) (numel tv) ≤ numel tv.
Proof. intros Hc Hn. pose proof (numel_nonneg tv Hn). unfold ELEM_TILE. lia. Qed.

(** What an elementwise task stores to: its range of the flattened output. *)
Definition elem_writes (graph : OperatorGraph) (op : Operator) (cs : list Z) (a : addr) : Prop :=
  ∃ y dt c, tensor_out op graph 0 = Ok y ∧ py_index cs 0 = Ok c
    ∧ flat_addrs (view_of dt y) (c * ELEM_TILE) (Z.min ((c + 1) * ELEM_TILE) (numel y)) a.

Definition elem_local (kind : string) (factory : Factory) : Prop :=
  ∀ V (num : Numpy V) graph tensors op f rf wf cs sc rs ws,
  graph_wf graph → graph_dims graph → materialized graph tensors → op_kind op = kind → sizes_ok op →
  heads_ok op graph → operands_shaped graph op = true → scalar_position op → factory op graph = Ok f →
  tf_read_regions f = Some rf → tf_write_regions f = Some wf → in_grid (tf_domain f) cs →
  rf cs = Ok rs → wf cs = Ok ws →
  stays (touched rs) (λ a, touched ws a ∧ elem_writes graph op cs a) (@body_elementwise V num tensors f cs sc).

Ltac elem_store :=
  apply stays_store_flat; [lia|lia|];
  let a := fresh "a" in let Ha := fresh "Ha" in
  intros a Ha; split; [revert a Ha; flat_leaf|];
  match type of Ha with flat_addrs (view_of ?dt ?y) _ _ _ =>
    exists y, dt; eexists; split; [eassumption|split; [eassumption|]];
    match goal with En : numel y = numel _ |- _ => rewrite En; exact Ha end
  end.

(** The operator's name, the tile size and the range are known. *)
Ltac elem_go name :=
  unfold elem_box in *; res_inv; local_facts; unfold body_elementwise;
  apply stays_lift_bind;
  let o := fresh "o" in let Ho := fresh "Ho" in
  intros o Ho; change (Ok (AStr name) = Ok o) in Ho; injection Ho as <-;
  apply stays_lift_bind; intros ? [= <-]; cbn [snd];
  local_step; local_step;
  match goal with
  | Hd : graph_dims _, Hx : tensor_in _ _ 0 = Ok ?x, Hy : tensor_out _ _ 0 = Ok ?y, E : tv_shape ?x = tv_shape ?y,
    Hc : 0 ≤ ?c |- context [?c * ELEM_TILE] =>
      let En := fresh "En" in
      assert (En : numel y = numel x) by (unfold numel; by rewrite E);
      repeat match goal with H : context [numel y] |- _ => lazymatch H with En => fail | _ => rewrite En in H end end;
      change (numel_of (vw_shape (view_of _ x))) with (numel x); rewrite elem_hi;
      destruct (elem_range x c Hc (tensor_dims _ _ _ _ Hd Hx)) as [? ?]
  end;
  repeat first [elem_store | flat_step].

Lemma gelu_local : elem_local "gelu" lower_gelu.
Proof. unfold lower_gelu. local_ready. elem_go "gelu"%string. Qed.
Lemma swiglu_local : elem_local "swiglu" lower_swiglu.
Proof. unfold lower_swiglu. local_ready. elem_go "swiglu"%string. Qed.
Lemma add_local : elem_local "add" lower_add.
Proof. unfold lower_add. local_ready. elem_go "add"%string. Qed.

(** The columns of an embedding task, as the lowering and as the body compute them. *)
Lemma embed_tile_cols (f : TaskFamily) (cs : list Z) (rows width c0 c1 : Z) (p : Z * Z) : 0 ≤ width →
  tf_domain f = mk_domain [(rows, 1); (width, Z.min EMBED_TILE_C width)] →
  embed_cols (tf_domain f) width cs = Ok (c0, c1) → tile_cols f cs width = Ok p → p = (c0, c1).
Proof.
  intros Hw Hd. unfold embed_cols, tile_cols. rewrite Hd. cbn [td_dims lookup list_lookup of_option mbind result_bind snd].
  unfold task_grid. cbn [td_dims map_result fst snd]. intros H1 H2. res_inv. cbn in *. simplify_eq.
  destruct (decide (x2 = 1)) as [|Hg]; [congruence|]. res_inv. unfold EMBED_TILE_C in *.
  match goal with E : py_floordiv (width + _ - 1) _ = Ok _ |- _ => unfold py_floordiv in E; case_decide; [done|]; injection E as E end.
  assert (256 `min` width = 256) as ->; [|f_equal; f_equal; lia].
  destruct (decide (256 ≤ width)) as [|Hlt]; [lia|]. exfalso. apply Hg.
  rewrite Z.min_r in * by lia. subst x2. symmetry. apply (Z.div_unique _ _ _ (width - 1)); lia.
Qed.

Lemma embed_span_nonneg (d : TileDomain) (width c0 c1 : Z) (cs : list Z) :
  nonneg cs → 0 ≤ width → embed_cols d width cs = Ok (c0, c1) → 0 ≤ c0 ∧ 0 ≤ c1.
Proof.
  intros Hcs Hw H. unfold embed_cols in H. res_inv. case_decide; [by injection H as <- <-|]. res_inv.
  match goal with E : py_index cs 1 = Ok ?c |- _ => pose proof (py_index_nonneg _ _ _ Hcs E) end.
  unfold EMBED_TILE_C. lia.
Qed.

Lemma embedding_local : body_local "embedding" lower_embedding (λ V num, @body_embedding V num).
Proof.
  unfold lower_embedding. local_start. res_inv.
  match goal with E : tensor_in_opt _ _ 2 = Ok ?o |- _ => destruct o as [pos|]; [apply tensor_in_opt_inv in E|clear E] end.
  all: local_go; unfold body_embedding; repeat local_step.
  all: match goal with
    | Hy : tv_shape ?y = [_; ?w], Hw : py_last _ = Ok ?w', He : embed_cols _ _ _ = Ok (?a, ?b),
      Ht : tile_cols _ _ ?w' = Ok _, Hd : graph_dims _, Ho : tensor_out _ _ 0 = Ok ?y |- _ =>
        cbn [view_of vw_shape] in Hw; rewrite Hy in Hw; injection Hw as <-;
        let Hn := fresh "Hn" in
        pose proof (tensor_out_dims _ _ _ _ Hd Ho) as Hn; rewrite Hy in Hn;
        pose proof (Forall_inv (Forall_inv_tail Hn));
        eapply embed_tile_cols in Ht; [injection Ht as -> ->|assumption|reflexivity|exact He];
        eapply embed_span_nonneg in He as [? ?]; [|assumption|assumption]
    end.
  all: repeat local_step.
Qed.

(** *** Matrix products *)
Lemma gemm_box_pair (f : TaskFamily) (cs : list Z) (b b' : (Z * Z) * (Z * Z)) :
  pair_box (tf_domain f) cs = Ok b → gemm_box f cs = Ok b' → b' = b.
Proof.
  unfold pair_box, gemm_box. intros H1 H2. res_inv.
  match goal with E : unpack2 cs = Ok _ |- _ => apply unpack2_inv in E as -> end.
  cbn in *. by simplify_eq.
Qed.

Lemma gemm_pair_nonneg (x w : TensorValue) (d : TileDomain) (cs : list Z) (m0 m1 n0 n1 : Z) :
  nonneg cs → nonneg (tv_shape x) → nonneg (tv_shape w) → gemm_domain x w = Ok d →
  pair_box d cs = Ok ((m0, m1), (n0, n1)) → 0 ≤ m0 ∧ 0 ≤ m1 ∧ 0 ≤ n0 ∧ 0 ≤ n1.
Proof.
  unfold pair_box, gemm_domain. intros Hcs Hx Hw Hd H. res_inv. cbn in *. simplify_eq.
  match goal with E : unpack2 cs = Ok _ |- _ => destruct (unpack2_nonneg _ _ _ Hcs E) end.
  repeat match goal with E : py_index (tv_shape _) _ = Ok _ |- _ =>
    eapply py_index_nonneg in E; [|eassumption] end.
  unfold GEMM_TILE_M, GEMM_TILE_N. lia.
Qed.

Lemma linear_local : body_local "linear" lower_linear (λ V num, @body_gemm V num).
Proof.
  unfold lower_linear, linear_reads, gemm_writes. local_start. apply andb_true_iff in Hshaped as [Hshaped Hgh].
  apply negb_true_iff in Hgh. rewrite Hgh in H. res_inv.
  match goal with E : tensor_in_opt _ _ 2 = Ok ?o |- _ => destruct o as [bias|]; [apply tensor_in_opt_inv in E|clear E] end.
  all: local_go; unfold body_gemm;
    change (param_or _ "grouped_heads" ANone) with (attr_or op "grouped_heads" ANone); rewrite Hgh; do 3 local_step;
    apply stays_lift_bind; let o := fresh "o" in let Ho := fresh "Ho" in intros o Ho;
    match goal with
    | _ : tensor_in _ _ 2 = Ok _ |- _ => change (Ok (ABool true) = Ok o) in Ho
    | |- _ => change (Ok (ABool false) = Ok o) in Ho
    end; injection Ho as <-; repeat local_step;
    match goal with
    | Hp : pair_box _ ?cs = Ok _, Hd : graph_dims _, Hg : gemm_domain ?x ?w = Ok _, E : gemm_box _ ?cs = Ok _ |- _ =>
        eapply gemm_box_pair in E; [|exact Hp]; injection E as -> -> -> ->;
        eapply gemm_pair_nonneg in Hg as (? & ? & ? & ?);
          [|eassumption|eapply tensor_dims; eassumption|eapply tensor_dims; eassumption|exact Hp]
    end;
    unfold add_bias; repeat local_step.
Qed.

(** ** Attention and the tail of the cache

    With the position known, attention loads only what the symbolic prefixes
    of its read regions select. *)
Definition prefix_local (kind : string) (factory : Factory)
    (b : ∀ (V : Type), Numpy V → dict string view → body (V := V)) : Prop :=
  ∀ V (num : Numpy V) graph tensors op f rf wf cs sc rs ws,
  graph_wf graph → graph_dims graph → materialized graph tensors → op_kind op = kind → sizes_ok op →
  heads_ok op graph → operands_shaped graph op = true → scalar_position op → factory op graph = Ok f →
  tf_read_regions f = Some rf → tf_write_regions f = Some wf → in_grid (tf_domain f) cs →
  rf cs = Ok rs → wf cs = Ok ws → ∀ p, sc !! "p"%string = Some p → 0 ≤ p →
  stays (touched_at (p + 1) rs) (touched ws) (b V num tensors f cs sc).

Lemma softmax_prefix : prefix_local "softmax" lower_softmax (λ V num, @body_softmax V num).
Proof.
  unfold lower_softmax. local_ready. intros p Hp Hp0. unfold body_softmax. repeat local_step.
Qed.

Lemma attention_scores_prefix :
  prefix_local "attention_scores" lower_attention_scores (λ V num, @body_attention_scores V num).
Proof.
  unfold lower_attention_scores. local_ready. intros p Hp Hp0. unfold body_attention_scores. repeat local_step.
Qed.

Lemma attention_values_prefix :
  prefix_local "attention_values" lower_attention_values (λ V num, @body_attention_values V num).
Proof.
  unfold lower_attention_values. local_start.
  destruct (truthy (attr_or op "gated" (ABool false))) eqn:Hgate; [destruct (tensor_in op graph 2) eqn:?; [|res_inv; done]|].
  all: cbn [negb orb] in Hshaped; local_go; intros p Hp Hp0; unfold body_attention_values;
    change (param_or _ "gated" (ABool false)) with (attr_or op "gated" (ABool false)); rewrite Hgate; repeat local_step.
Qed.
