(* ===== verification/ReferenceRun.v ===== *)
(** * The reference executor without barriers

    The programs of dense decoding run by the reference executor with its own
    task bodies: their tasks stay inside the regions the lowerings declare, so
    every order that respects the tile dependencies leaves one memory. *)

From S2P Require Import Frontend Compile.
From S2P Require Import Prelude Indexing OperatorIR Contracts Capture TaskIR SchedulePhase ScheduleStatic TileDependencies.
From S2P Require Import Execution Arrays Effects Equivalence LoweringsCommon Operands LoweringsDense LoweringsAttention Lowerings.
From S2P Require Import ReferenceTypes ReferenceDense ReferenceAttention ReferenceBodies Cells Vectors Declared Footprint FootprintState.
From S2P Require Import Pipeline Ownership BodyLocality.
Local Open Scope Z_scope.

(** ** The operators of dense decoding *)
Definition ELEMENTWISE : list string := ["gelu"; "swiglu"; "add"]%string.
Definition DECODE : list string :=
  ["linear"; "layer_norm"; "rms_norm"; "rope"; "embedding"; "attention_scores"; "softmax"; "attention_values";
   "cache_append"]%string ++ ELEMENTWISE.

(** The body the executor runs for the tasks of a kind of operator. *)
Definition runs_body (kind : string) (b : ∀ V, Numpy V → dict string view → body (V := V)) : Prop :=
  ∃ c, dict_get CONTRACTS kind = Some c ∧
    ∀ V (num : Numpy V) tensors fam cs sc m,
      execute_body tensors (oc_task_kind c) fam cs sc m = run_m (b V num tensors fam cs sc) m.

Lemma elem_body_local (kind : string) (factory : Factory) :
  elem_local kind factory → body_local kind factory (λ V num, @body_elementwise V num).
Proof.
  intros H V num graph tensors op f rf wf cs sc rs ws H1 H2 H3 H4 H5 H6 H7 H8 H9 H10 H11 H12 H13 H14.
  eapply stays_weaken; [by eapply (H V num graph tensors op f rf wf)|done|by intros a [Ha _]].
Qed.

Definition has_callbacks (factory : Factory) : Prop := ∀ op graph f, factory op graph = Ok f →
  is_Some (tf_read_regions f) ∧ is_Some (tf_write_regions f).

(** What the theorems need of a kind of operator. *)
Definition decodes (kind : string) : Prop := ∃ factory b,
  factory_of kind = Some factory ∧ runs_body kind b ∧ has_callbacks factory ∧ body_local kind factory b.

Lemma decodes_intro (kind : string) (factory : Factory) (b : ∀ V, Numpy V → dict string view → body (V := V)) :
  factory_of kind = Some factory → runs_body kind b → has_callbacks factory → body_local kind factory b →
  decodes kind.
Proof. intros. by exists factory, b. Qed.

Ltac decodes_with lem :=
  eapply decodes_intro; [reflexivity| | |apply lem];
    [eexists; split; [reflexivity|reflexivity]
    |intros ? ? ? H; unfold lower_linear, lower_layer_norm, lower_rms_norm, lower_rope, lower_embedding,
       lower_attention_scores, lower_softmax, lower_attention_values, lower_cache_append, lower_gelu, lower_swiglu,
       lower_add in H; fp_branches; split; eexists; reflexivity].

Lemma decode_kinds (kind : string) : kind ∈ DECODE → decodes kind.
Proof.
  revert kind. apply Forall_forall. unfold DECODE, ELEMENTWISE. cbn [app].
  repeat (apply Forall_cons; split); [..|apply Forall_nil_2].
  - decodes_with linear_local.
  - decodes_with layer_norm_local.
  - decodes_with rms_norm_local.
  - decodes_with rope_local.
  - decodes_with embedding_local.
  - decodes_with attention_scores_local.
  - decodes_with softmax_local.
  - decodes_with attention_values_local.
  - decodes_with cache_append_local.
  - decodes_with (elem_body_local _ _ gelu_local).
  - decodes_with (elem_body_local _ _ swiglu_local).
  - decodes_with (elem_body_local _ _ add_local).
Qed.

Lemma factory_lowered (op : Operator) (g : OperatorGraph) (f : TaskFamily) (factory : Factory) :
  lower_op op g = Ok f → factory_of (op_kind op) = Some factory → factory op g = Ok f.
Proof.
  unfold lower_op. intros H Hfac. rewrite Hfac in H.
  by destruct (match dict_get CONTRACTS (op_kind op) with Some c => _ | None => _ end).
Qed.

(** The executor runs the body of the kind of the operator. *)
Lemma exec_body {V : Type} {num : Numpy V} (tensors : dict string view) (sc : scalars) (op : Operator)
    (g : OperatorGraph) (f : TaskFamily) (t : Z) (cs : list Z) (b : ∀ V, Numpy V → dict string view → body (V := V)) :
  lower_op op g = Ok f → runs_body (op_kind op) b → family_coords f t = Ok cs →
  ∀ m, exec_task (execute_body tensors) sc f t m = run_m (b V num tensors f cs sc) m.
Proof.
  intros Hlow (c & Hc & Hbody) Hcs m. destruct (lower_op_ok _ _ _ Hlow) as (c' & Hc' & _ & _ & _ & Hkind & _).
  assert (c' = c) as -> by congruence. unfold exec_task, body_of. rewrite Hcs, Hkind. cbn [mbind result_bind].
  rewrite bool_decide_true; [cbn [of_option mbind result_bind]; apply Hbody|].
  apply list_elem_of_fmap. exists (op_kind op, c). split; [done|]. by apply dict_get_elem.
Qed.

(** ** Elementwise tasks store to disjoint ranges *)
Lemma flat_addrs_dense (dt : npdtype) (y : TensorValue) (lo hi : Z) (a : addr) :
  dense y → nonneg (tv_shape y) → flat_addrs (view_of dt y) lo hi a → ∃ k, lo ≤ k < hi ∧ a.2 = tv_offset y + k.
Proof.
  intros Hd Hn (k & Hk & Hr & ->). exists k. split; [done|]. change (view_addr y (unravel (tv_shape y) k) = tv_offset y + k).
  cbn [view_of vw_shape] in Hr. rewrite numel_of_zprod in Hr.
  assert (Hpos : Forall (λ d, 0 < d) (tv_shape y)).
  { apply Forall_forall. intros d Hdim. rewrite Forall_forall in Hn.
    destruct (decide (d = 0)) as [->|]; [|specialize (Hn d Hdim); lia]. exfalso.
    apply list_elem_of_split in Hdim as (l1 & l2 & E). rewrite E, zprod_app, zprod_cons in Hr. lia. }
  rewrite dense_addr by (done || by apply unravel_in_range). by rewrite ravel_unravel.
Qed.

Lemma elem_writes_apart (g : OperatorGraph) (op : Operator) (c1 c2 : Z) (a : addr) :
  graph_dims g → (∀ y, tensor_out op g 0 = Ok y → dense y) →
  elem_writes g op [c1] a → elem_writes g op [c2] a → c1 = c2.
Proof.
  intros Hd Hy (y1 & dt1 & c & Hy1 & [= <-] & H1) (y2 & dt2 & c' & Hy2 & [= <-] & H2).
  assert (y1 = y2) as -> by congruence. pose proof (tensor_out_dims _ _ _ _ Hd Hy1) as Hn.
  apply flat_addrs_dense in H1 as (k1 & Hk1 & E1); [|by apply Hy|done].
  apply flat_addrs_dense in H2 as (k2 & Hk2 & E2); [|by apply Hy|done].
  unfold ELEM_TILE in *. lia.
Qed.

Lemma elem_domain (op : Operator) (g : OperatorGraph) (f : TaskFamily) :
  op_kind op ∈ ELEMENTWISE → lower_op op g = Ok f → ∃ n, td_dims (tf_domain f) = [(n, ELEM_TILE)].
Proof.
  intros Hk Hl. unfold lower_op in Hl.
  destruct (match dict_get CONTRACTS (op_kind op) with Some c => _ | None => _ end); [|done].
  unfold ELEMENTWISE in Hk. rewrite !elem_of_cons in Hk.
  destruct Hk as [Hk|[Hk|[Hk|[]%not_elem_of_nil]]]; rewrite Hk in Hl.
  - change (lower_gelu op g = Ok f) in Hl. unfold lower_gelu in Hl. fp_branches. by eexists.
  - change (lower_swiglu op g = Ok f) in Hl. unfold lower_swiglu in Hl. fp_branches. by eexists.
  - change (lower_add op g = Ok f) in Hl. unfold lower_add in Hl. fp_branches. by eexists.
Qed.

(** ** Operands apart *)

Definition result_opt {A} (r : result A) : option A := match r with Ok x => Some x | Err _ => None end.

(** The tensors at some positions of the inputs, and the outputs. *)
Definition tensors_at (g : OperatorGraph) (op : Operator) (P : nat → bool) : list TensorValue :=
  omap (λ jn, if P jn.1 then result_opt (graph_tensor g jn.2) else None) (imap pair (op_inputs op)).
Definition read_tensors (g : OperatorGraph) (op : Operator) : list TensorValue :=
  tensors_at g op (λ i, bool_decide (i ∉ unread_inputs (op_kind op))).
Definition written_tensors (g : OperatorGraph) (op : Operator) : list TensorValue :=
  tensors_at g op (λ i, bool_decide (i ∈ updated_inputs (op_kind op)))
  ++ omap (λ n, result_opt (graph_tensor g n)) (op_outputs op).

(** Row-major results in storages of their own, none of which is read. *)
Record operands_apart (g : OperatorGraph) (op : Operator) : Prop := {
  oa_dense : Forall dense (written_tensors g op);
  oa_distinct : NoDup (tv_storage_id <$> written_tensors g op);
  oa_unread : Forall (λ w, Forall (λ r, tv_storage_id r ≠ tv_storage_id w) (read_tensors g op)) (written_tensors g op)
}.

#[export] Instance operands_apart_decision g op : Decision (operands_apart g op).
Proof.
  refine (cast_if_and3 (decide (Forall dense (written_tensors g op))) (decide (NoDup (tv_storage_id <$> written_tensors g op)))
    (decide (Forall (λ w, Forall (λ r, tv_storage_id r ≠ tv_storage_id w) (read_tensors g op)) (written_tensors g op))));
    [by split|by intros []..].
Defined.

Lemma tensors_at_elem (g : OperatorGraph) (op : Operator) (P : nat → bool) (i : nat) (n : string) (tv : TensorValue) :
  op_inputs op !! i = Some n → graph_tensor g n = Ok tv → P i = true → tv ∈ tensors_at g op P.
Proof.
  intros Hi Ht HP. apply list_elem_of_omap. exists (i, n). split.
  - apply list_elem_of_lookup. exists i. by rewrite list_lookup_imap, Hi.
  - cbn [fst snd]. by rewrite HP, Ht.
Qed.

Lemma tensors_at_two (g : OperatorGraph) (op : Operator) (P : nat → bool) (n0 n1 : string) (x y : TensorValue) :
  op_inputs op !! 0%nat = Some n0 → op_inputs op !! 1%nat = Some n1 → graph_tensor g n0 = Ok x → graph_tensor g n1 = Ok y →
  P 0%nat = true → P 1%nat = true → ∃ l, tensors_at g op P = x :: y :: l.
Proof.
  unfold tensors_at. intros H0 H1 Hx Hy P0 P1. destruct (op_inputs op) as [|? [|? names]]; [done..|].
  injection H0 as ->. injection H1 as ->. simpl. rewrite P0, P1, Hx, Hy. by eexists.
Qed.

(** ** A program of decode operators *)
Record runnable (g : OperatorGraph) : Prop := {
  rn_kinds : ∀ op, op ∈ g_ops g → op_kind op ∈ DECODE;
  rn_shaped : ∀ op, op ∈ g_ops g → operands_shaped g op = true;
  rn_position : ∀ op, op ∈ g_ops g → scalar_position op;
  rn_apart : ∀ op, op ∈ g_ops g → operands_apart g op
}.

Lemma decode_no_pool (kind : string) : kind ∈ DECODE → pool_inputs kind = [].
Proof. revert kind. apply Forall_forall, (bool_decide_unpack _). vm_compute. exact I. Qed.

Section run.
Context {V : Type} `{num : !Numpy V} (arrays : gmap Z npdtype) (tensors : dict string view) (sc : scalars).
Context (g : OperatorGraph) (fams : list TaskFamily).
Context (Hg : compilable g) (Hrun : runnable g) (Hten : materialize_tensors arrays g = Ok tensors).
Context (Hl : lower_graph g = Ok fams) (Hcalls : callbacks_total fams).

Lemma graph_materialized : materialized g tensors.
Proof using Hg Hten. eapply materialize_ok; [|exact Hten]. apply (gw_names _ (pw_graph _ (cp_wf _ Hg))). Qed.

(** A region of an operand that is not a pool is in the storage of the operand. *)
Lemma use_storage (op : Operator) (i : nat) (tv : TensorValue) (r : Region) :
  op_kind op ∈ DECODE → operand_use (op_kind op) op g i tv r →
  rg_storage_id r = tv_storage_id tv ∧ rg_indirect_table r = None.
Proof.
  intros Hk [[(_ & ? & ? & _) _]|[Hp _]]; [done|]. rewrite (decode_no_pool _ Hk) in Hp. by apply not_elem_of_nil in Hp.
Qed.

Lemma read_storage (f : TaskFamily) (t : Z) (rs : list Region) (r : Region) :
  f ∈ fams → 0 ≤ t → reads f t = Ok rs → r ∈ rs →
  rg_indirect_table r = None ∧ ∃ tv, tv ∈ read_tensors g (tf_op f) ∧ rg_storage_id r = tv_storage_id tv.
Proof using Hg Hrun Hl.
  intros Hf Ht Hrs Hr. destruct (lowered_family g fams Hl f Hf) as (op & Hop & Hlow & ->).
  destruct (task_footprint op g f t rs (cp_dims _ Hg) (cp_sizes _ Hg op Hop) (cp_heads _ Hg op Hop) Hlow Ht) as [Hfr _].
  specialize (Hfr Hrs). rewrite Forall_forall in Hfr. destruct (Hfr r Hr) as (i & n & tv & Hi & Hn & Htv & Huse).
  destruct (use_storage op i tv r (rn_kinds _ Hrun op Hop) Huse) as [? ?]. split; [done|]. exists tv. split; [|done].
  eapply tensors_at_elem; [done..|]. by apply bool_decide_eq_true.
Qed.

Lemma write_storage (f : TaskFamily) (t : Z) (rs : list Region) (r : Region) :
  f ∈ fams → 0 ≤ t → writes f t = Ok rs → r ∈ rs →
  rg_indirect_table r = None ∧ ∃ tv, tv ∈ written_tensors g (tf_op f) ∧ rg_storage_id r = tv_storage_id tv.
Proof using Hg Hrun Hl.
  intros Hf Ht Hrs Hr. destruct (lowered_family g fams Hl f Hf) as (op & Hop & Hlow & ->).
  destruct (task_footprint op g f t rs (cp_dims _ Hg) (cp_sizes _ Hg op Hop) (cp_heads _ Hg op Hop) Hlow Ht) as [_ Hfw].
  specialize (Hfw Hrs). rewrite Forall_forall in Hfw.
  destruct (Hfw r Hr) as [(i & n & tv & Hi & Hn & Htv & Huse)|(n & tv & Hn & Htv & Hin)].
  - destruct (use_storage op i tv r (rn_kinds _ Hrun op Hop) Huse) as [? ?]. split; [done|]. exists tv. split; [|done].
    apply elem_of_app. left. eapply tensors_at_elem; [done..|]. by apply bool_decide_eq_true.
  - destruct Hin as (_ & ? & ? & _). split; [done|]. exists tv. split; [|done].
    apply elem_of_app. right. apply list_elem_of_omap. exists n. by rewrite Htv.
Qed.

(** What a task reads no task of the family writes. *)
Lemma reads_unwritten (f : TaskFamily) (t1 t2 : Z) (a : addr) :
  f ∈ fams → 0 ≤ t1 → 0 ≤ t2 → task_touches false f t1 a → ¬ task_touches true f t2 a.
Proof using Hg Hrun Hl.
  intros Hf H1 H2 (rs1 & r1 & Hrs1 & Hr1 & Hs1 & _) (rs2 & r2 & Hrs2 & Hr2 & Hs2 & _).
  destruct (read_storage f t1 rs1 r1 Hf H1 Hrs1 Hr1) as (_ & x & Hx & Ex).
  destruct (write_storage f t2 rs2 r2 Hf H2 Hrs2 Hr2) as (_ & y & Hy & Ey).
  destruct (lowered_family g fams Hl f Hf) as (op & Hop & _ & <-).
  pose proof (oa_unread _ _ (rn_apart _ Hrun _ Hop)) as Ho. rewrite Forall_forall in Ho. specialize (Ho y Hy).
  rewrite Forall_forall in Ho. apply (Ho x Hx). congruence.
Qed.

(** ** The tasks *)
Abbreviation exec f t := (exec_task (execute_body tensors) sc f t).

(** What the task of a family does: its coordinates and its body. *)
Lemma task_body (f : TaskFamily) (t : Z) : f ∈ fams → 0 ≤ t < task_total f →
  ∃ op factory (b : ∀ V, Numpy V → dict string view → body (V := V)) cs rf wf rs ws,
    op ∈ g_ops g ∧ tf_op f = op ∧ lower_op op g = Ok f ∧ factory op g = Ok f
    ∧ factory_of (op_kind op) = Some factory ∧ body_local (op_kind op) factory b
    ∧ family_coords f t = Ok cs ∧ in_grid (tf_domain f) cs
    ∧ tf_read_regions f = Some rf ∧ tf_write_regions f = Some wf ∧ rf cs = Ok rs ∧ wf cs = Ok ws
    ∧ reads f t = Ok rs ∧ writes f t = Ok ws
    ∧ ∀ m, exec f t m = run_m (b V num tensors f cs sc) m.
Proof using Hg Hrun Hl Hcalls.
  intros Hf Ht. destruct (lowered_family g fams Hl f Hf) as (op & Hop & Hlow & Eop).
  destruct (decode_kinds _ (rn_kinds _ Hrun op Hop)) as (factory & b & Hfac & Hbody & Hcb & Hloc).
  pose proof (factory_lowered op g f factory Hlow Hfac) as Hr.
  destruct (Hcb op g f Hr) as [[rf Hrf] [wf Hwf]]. destruct (Hcalls f Hf) as [_ Hc2]. destruct (Hc2 t Ht) as [Hrd Hwr].
  destruct (lower_op_footprint op g f (cp_dims _ Hg) (cp_sizes _ Hg op Hop) (cp_heads _ Hg op Hop) Hlow) as (Hdn & _).
  pose proof Hrd as Hrd'. pose proof Hwr as Hwr'.
  unfold reads, writes in Hrd', Hwr'. rewrite Hrf in Hrd'. rewrite Hwf in Hwr'.
  destruct (family_coords f t) as [cs|] eqn:Hcs; [|done]. simpl in Hrd', Hwr'.
  destruct (rf cs) as [rs|] eqn:Ers; [|done]. destruct (wf cs) as [ws|] eqn:Ews; [|done].
  exists op, factory, b, cs, rf, wf, rs, ws. split_and!; try done.
  - eapply (coords_in_grid _ t); [exact Hdn|lia|exact Hcs].
  - unfold reads. rewrite Hrf, Hcs. exact Ers.
  - unfold writes. rewrite Hwf, Hcs. exact Ews.
  - by eapply exec_body.
Qed.

Lemma touched_task (w : bool) (f : TaskFamily) (t : Z) (rs : list Region) (a : addr) :
  task_regions w f t = Ok rs → touched rs a → task_touches w f t a.
Proof. intros Hrs (r & Hr & Hs & Ha). by exists rs, r. Qed.

Lemma local_effect_ext (p q : gmap addr V → result (gmap addr V)) (R W : addr → Prop) :
  (∀ m, p m = q m) → local_effect q R W → local_effect p R W.
Proof. intros E H m1 m2 Hm. rewrite !E. by apply H. Qed.

Lemma task_effect (f : TaskFamily) (t : Z) : f ∈ fams → 0 ≤ t < task_total f →
  local_effect (exec f t) (task_touches false f t) (task_touches true f t).
Proof using Hg Hrun Hten Hl Hcalls.
  intros Hf Ht. destruct (task_body f t Hf Ht) as
    (op & factory & b & cs & rf & wf & rs & ws & Hop & _ & _ & Hr & _ & Hloc & _ & Hin & Hrf & Hwf & Ers & Ews & Hrd & Hwr & Hex).
  eapply local_effect_ext; [exact Hex|]. apply stays_local.
  eapply stays_weaken; [eapply (Hloc V num g tensors op f rf wf cs sc rs ws); try done|..].
  - apply (pw_graph _ (cp_wf _ Hg)).
  - apply (cp_dims _ Hg).
  - apply graph_materialized.
  - by apply (cp_sizes _ Hg).
  - by apply (cp_heads _ Hg).
  - by apply (rn_shaped _ Hrun).
  - by apply (rn_position _ Hrun).
  - intros a. by apply (touched_task false).
  - intros a. by apply (touched_task true).
Qed.

(** *** Tasks of one family *)
Lemma written_operand (op : Operator) (i : nat) (tv : TensorValue) :
  i ∈ updated_inputs (op_kind op) → tensor_in op g i = Ok tv → tv ∈ written_tensors g op.
Proof.
  intros Hi (n & Hn & Htv)%tensor_in_inv. apply elem_of_app. left.
  eapply tensors_at_elem; [done..|]. by apply bool_decide_eq_true.
Qed.

Lemma output_written (op : Operator) (n : string) (tv : TensorValue) :
  n ∈ op_outputs op → graph_tensor g n = Ok tv → tv ∈ written_tensors g op.
Proof. intros Hn Htv. apply elem_of_app. right. apply list_elem_of_omap. exists n. by rewrite Htv. Qed.

Lemma output_dense (op : Operator) (y : TensorValue) :
  op ∈ g_ops g → tensor_out op g 0 = Ok y → dense y.
Proof using Hrun.
  intros Hop (n & Hn & Hy)%tensor_out_inv. pose proof (oa_dense _ _ (rn_apart _ Hrun op Hop)) as H.
  rewrite Forall_forall in H. eapply H, output_written; [by eapply list_elem_of_lookup_2|done].
Qed.

(** Tasks of a family that is not elementwise write apart. *)
Lemma decode_exclusive (op : Operator) (f : TaskFamily) :
  op ∈ g_ops g → lower_op op g = Ok f → op_kind op ∉ ELEMENTWISE → exclusive_writes f.
Proof using Hg Hrun.
  intros Hop Hlow Hne. pose proof (rn_apart _ Hrun op Hop) as [Hd Hdist _]. rewrite Forall_forall in Hd.
  destruct (decide (op_kind op = "cache_append"%string)) as [E|E].
  - unfold lower_op in Hlow.
    destruct (match dict_get CONTRACTS (op_kind op) with Some c => _ | None => _ end); [|done].
    rewrite E in Hlow. change (lower_cache_append op g = Ok f) in Hlow.
    assert (∃ k v, tensor_in op g 0 = Ok k ∧ tensor_in op g 1 = Ok v) as (k & v & Hk & Hv)
      by (unfold lower_cache_append in Hlow; res_inv; eauto).
    assert (Hw : ∀ i tv, i ∈ [0%nat; 1%nat] → tensor_in op g i = Ok tv → tv ∈ written_tensors g op).
    { intros i tv Hi. apply written_operand. by rewrite E. }
    eapply (cache_append_owns op g f k v Hlow (cp_dims _ Hg) Hk Hv); [apply Hd, (Hw 0%nat); [left|done]|apply Hd, (Hw 1%nat); [right; left|done]|].
    apply tensor_in_inv in Hk as (nk & Hnk & Hk), Hv as (nv & Hnv & Hv).
    intros Es. destruct (tensors_at_two g op (λ i, bool_decide (i ∈ updated_inputs (op_kind op))) nk nv k v) as (l & El); [done..| | |].
    1,2: by rewrite E; vm_compute.
    unfold written_tensors in Hdist. rewrite El in Hdist. cbn in Hdist. rewrite Es in Hdist.
    apply NoDup_cons in Hdist as [Hn _]. apply Hn. left.
  - apply (dense_writes_exclusive op g f); [|done|apply (cp_dims _ Hg)|].
    + pose proof (rn_kinds _ Hrun op Hop) as Hk. unfold DECODE in Hk. apply elem_of_app in Hk as [Hk|]; [|done].
      clear -Hk E. rewrite !elem_of_cons in Hk.
      repeat match type of Hk with _ ∨ _ => destruct Hk as [Hk|Hk] end;
        first [by rewrite Hk; apply (bool_decide_unpack _); vm_compute|done|by apply not_elem_of_nil in Hk].
    + split.
      * intros n y Hn Hy. apply Hd. unfold written in Hn. rewrite decide_False in Hn; [by eapply output_written|].
        intros Hm. pose proof (rn_kinds _ Hrun op Hop) as Hk. rewrite Hm in Hk. revert Hk. apply (bool_decide_unpack _). vm_compute. exact I.
      * done.
      * intros Hm. exfalso. pose proof (rn_kinds _ Hrun op Hop) as Hk. rewrite Hm in Hk. revert Hk. apply (bool_decide_unpack _). vm_compute. exact I.
Qed.

Lemma elem_effect (f : TaskFamily) (t : Z) : f ∈ fams → 0 ≤ t < task_total f → op_kind (tf_op f) ∈ ELEMENTWISE →
  ∃ cs, family_coords f t = Ok cs
    ∧ local_effect (exec f t) (task_touches false f t) (λ a, task_touches true f t a ∧ elem_writes g (tf_op f) cs a).
Proof using Hg Hrun Hten Hl Hcalls.
  intros Hf Ht He. destruct (task_body f t Hf Ht) as
    (op & factory & b & cs & rf & wf & rs & ws & Hop & Eop & _ & Hr & Hfac & _ & Hcs & Hin & Hrf & Hwf & Ers & Ews & Hrd & Hwr & _).
  rewrite Eop in *. exists cs. split; [done|].
  assert ((∀ m, exec f t m = run_m (body_elementwise tensors f cs sc) m) ∧ elem_local (op_kind op) factory) as [Hx Hloc].
  { destruct (lowered_family g fams Hl f Hf) as (op' & _ & Hlow & E'). assert (op' = op) as -> by congruence.
    unfold ELEMENTWISE in He. rewrite !elem_of_cons in He. pose proof Hfac as Hfac'.
    destruct He as [E|[E|[E|[]%not_elem_of_nil]]]; rewrite E in Hfac' |- *; injection Hfac' as <-;
      (split; [apply (exec_body tensors sc op g f t cs (λ V num, @body_elementwise V num) Hlow); [|done];
               rewrite E; eexists; split; reflexivity|]).
    - exact gelu_local.
    - exact swiglu_local.
    - exact add_local. }
  eapply local_effect_ext; [exact Hx|]. apply stays_local.
  eapply stays_weaken; [eapply (Hloc V num g tensors op f rf wf cs sc rs ws); try done|..].
  - apply (pw_graph _ (cp_wf _ Hg)).
  - apply (cp_dims _ Hg).
  - apply graph_materialized.
  - by apply (cp_sizes _ Hg).
  - by apply (cp_heads _ Hg).
  - by apply (rn_shaped _ Hrun).
  - by apply (rn_position _ Hrun).
  - intros a. by apply (touched_task false).
  - intros a [Ha ?]. split; [by apply (touched_task true _ _ ws)|done].
Qed.

(** The coordinates of an elementwise task: the number of its tile. *)
Lemma elem_coords (f : TaskFamily) (t : Z) (cs : list Z) : f ∈ fams → 0 ≤ t < task_total f →
  op_kind (tf_op f) ∈ ELEMENTWISE → family_coords f t = Ok cs → cs = [t].
Proof using Hg Hl Hcalls.
  intros Hf Ht He Hcs. destruct (lowered_family g fams Hl f Hf) as (op & Hop & Hlow & E). rewrite E in He.
  destruct (elem_domain op g f He Hlow) as (n & Hdom).
  destruct (lower_op_footprint op g f (cp_dims _ Hg) (cp_sizes _ Hg op Hop) (cp_heads _ Hg op Hop) Hlow) as (Hdn & _).
  destruct (Hcalls f Hf) as [Hc _]. unfold task_total in Ht. destruct (family_task_count f) as [k|] eqn:Ek; [|done].
  destruct (task_coords _ k t Hdn Ek Ht) as (cs' & Hcs' & Hin & Hr). unfold family_coords in Hcs.
  assert (cs' = cs) as -> by congruence. rewrite Hdom in Hin, Hr. apply grid_coords1 in Hin as (c & -> & _).
  unfold grid_of in Hr. cbn in Hr. f_equal. lia.
Qed.

Lemma family_commutes (f : TaskFamily) (t1 t2 : Z) :
  f ∈ fams → 0 ≤ t1 < task_total f → 0 ≤ t2 < task_total f → t1 ≠ t2 → commutes (λ m t, exec f t m) t1 t2.
Proof using Hg Hrun Hten Hl Hcalls.
  intros Hf H1 H2 Hne m. destruct (decide (op_kind (tf_op f) ∈ ELEMENTWISE)) as [He|He].
  - destruct (elem_effect f t1 Hf H1 He) as (cs1 & Hc1 & E1), (elem_effect f t2 Hf H2 He) as (cs2 & Hc2 & E2).
    apply (elem_coords f t1) in Hc1 as ->; [|done..]. apply (elem_coords f t2) in Hc2 as ->; [|done..].
    eapply local_effects_commute; [exact E1|exact E2|]. intros a.
    assert (¬ (elem_writes g (tf_op f) [t1] a ∧ elem_writes g (tf_op f) [t2] a)) as Hn.
    { intros [Ha1 Ha2]. apply Hne. destruct (lowered_family g fams Hl f Hf) as (op & Hop & _ & E). rewrite E in Ha1, Ha2.
      eapply elem_writes_apart; [apply (cp_dims _ Hg)|by intros y; apply output_dense|exact Ha1|exact Ha2]. }
    pose proof (reads_unwritten f t2 t1 a Hf ltac:(lia) ltac:(lia)).
    pose proof (reads_unwritten f t1 t2 a Hf ltac:(lia) ltac:(lia)). tauto.
  - eapply local_effects_commute; [by apply task_effect..|]. intros a.
    assert (¬ (task_touches true f t1 a ∧ task_touches true f t2 a)) as Hn.
    { intros [(rs1 & r1 & Hrs1 & Hr1 & Hs1 & Ha1) (rs2 & r2 & Hrs2 & Hr2 & Hs2 & Ha2)]. apply Hne.
      destruct (lowered_family g fams Hl f Hf) as (op & Hop & Hlow & E). rewrite E in He.
      destruct (Hcalls f Hf) as [Hc _]. unfold task_total in *. destruct (family_task_count f) as [k|] eqn:Ek; [|done].
      eapply (decode_exclusive op f Hop Hlow He k t1 t2 rs1 rs2 r1 r2 a.2); try done. congruence. }
    pose proof (reads_unwritten f t2 t1 a Hf ltac:(lia) ltac:(lia)).
    pose proof (reads_unwritten f t1 t2 a Hf ltac:(lia) ltac:(lia)). tauto.
Qed.

Lemma reference_bodies_local : bodies_local (execute_body tensors) sc (λ _, False) fams task_total.
Proof using Hg Hrun Hten Hl Hcalls.
  split.
  - intros f t Hf Ht. destruct (task_body f t Hf Ht) as (? & ? & ? & cs & ? & ? & ? & ? & ? & ? & ? & ? & ? & ? & -> & _). done.
  - intros f t Hf Ht. eapply local_effect_weaken; [by apply task_effect| |done]. by left.
  - by intros f t a _ _ _ [].
  - intros w f t rs r Hf Ht Hrs Hr Hi. exfalso. destruct Hi as [x Hx].
    assert (rg_indirect_table r = None); [|congruence].
    destruct w; [by destruct (write_storage f t rs r Hf ltac:(lia) Hrs Hr)|by destruct (read_storage f t rs r Hf ltac:(lia) Hrs Hr)].
  - exact family_commutes.
Qed.
End run.

(** C2. The reference executor runs a program of the dense decoding operators
    (projections, norms, rotary positions, embeddings, activations, residual
    sums and contiguous attention with its cache, without grouped-head projections
    and with one position for all rows) with its own task bodies, whatever numpy's
    scalar arithmetic is.  Its operands have the shapes of the capture rules
    and lie apart ([runnable]), and the executor is built without workspace
    plan and canary, over an array per storage.  Whenever the program is
    lowered, its region callbacks do not raise and the phase schedule is
    built, the other passes return a
    schedule whose workers have a complete run; every complete run of theirs,
    in whatever order they interleave and without barriers, leaves the memory
    that the executor leaves when it runs phase by phase with a grid barrier
    after each, on any number of workers; it raises when the executor raises
    (which exception comes first may differ). *)
Theorem reference_barriers_unobservable {V : Type} `{num : !Numpy V} `{!SetIter TaskKey}
    (arrays : gmap Z npdtype) (tensors : dict string view) (lengths : Z → Z) (sc : scalars)
    (g : OperatorGraph) (fams : list TaskFamily) (workers : Z) (s : PhaseSchedule) :
  compilable g → runnable g → materialize_tensors arrays g = Ok tensors →
  lower_graph g = Ok fams → callbacks_total fams → from_families fams workers = Ok s → 1 ≤ workers →
  ∃ deps sched, build_tile_dependencies s None = Ok deps
    ∧ build_static_worker_schedule deps workers = Ok sched
    ∧ (∃ tr, complete_run sched tr)
    ∧ ∀ tr m t workers', complete_run sched tr → 1 ≤ workers' →
        same (fst <$> run (execute_body tensors) (fill_nan lengths) (all_nan lengths) workers' false None s sc m t)
             (fold_result (exec_key (execute_body tensors) sc fams) m tr).
Proof.
  intros Hg Hrun Hten Hl Hcalls Hs Hw. pose proof (lowered_covered g fams Hg Hl) as Hcov.
  eapply (barriers_unobservable (execute_body tensors) sc _ _ (λ _, False) fams task_total workers s); try done.
  - by apply (lowered_tiles_ok g fams).
  - intros f Hf. unfold task_total. destruct (family_task_count f) as [k|] eqn:E; [|done]. simpl.
    destruct (lowered_family g fams Hl f Hf) as (op & Hop & Hlow & _).
    destruct (lower_op_footprint op g f (cp_dims _ Hg) (cp_sizes _ Hg op Hop) (cp_heads _ Hg op Hop) Hlow) as (Hdn & _).
    unfold family_task_count in E. pose proof (dims_domain_ok _ _ Hdn E) as Hok. rewrite task_count_ok in E by done.
    injection E as <-. by apply zprod_nonneg, grid_of_nonneg.
  - by eapply reference_bodies_local.
Qed.

(** *** Witness: the one-layer GPT-2 of Compile.v

    Numpy's scalars are the integers of [ex_numpy]. *)
#[local] Existing Instance ex_numpy.

Definition ex_program : OperatorGraph := match (ex_compile []).1 with Ok exe => ce_graph exe | Err _ => empty_graph end.
Definition ex_dtypes : gmap Z npdtype :=
  list_to_map ((λ nt : string * TensorValue, (tv_storage_id nt.2, float64)) <$> g_tensors ex_program).
Definition ex_views : dict string view := ok_default [] (materialize_tensors ex_dtypes ex_program).
Definition ex_families : list TaskFamily := ok_default [] (lower_graph ex_program).
Definition ex_step : scalars := {["p"%string := 1]}.

Lemma ex_program_compiled : ∃ exe counter', ex_compile [] = (Ok exe, counter') ∧ ce_graph exe = ex_program.
Proof.
  destruct ex_compiles as (exe & counter' & E). exists exe, counter'. split; [exact E|].
  unfold ex_program. by rewrite E.
Qed.

Definition heads_check (op : Operator) (g : OperatorGraph) : bool :=
  match op_attributes op !! "kv_heads"%string with
  | Some (AInt n) => (0 <? n) && match q ← tensor_in op g 0; py_index (tv_shape q) 1 with
                                 | Ok Hq => Hq mod n =? 0 | Err _ => true end
  | _ => true
  end.

Lemma heads_check_ok (op : Operator) (g : OperatorGraph) : heads_check op g = true → heads_ok op g.
Proof.
  unfold heads_check, heads_ok, kv_heads_attr. intros H n Hn. rewrite Hn in H. apply andb_true_iff in H as [Hpos H].
  zbool. split; [done|]. intros B Hq (q & Hq0 & _ & Hq1). rewrite Hq0 in H. cbn in H. rewrite Hq1 in H.
  apply Z.eqb_eq in H. apply Z.mod_divide; [lia|done].
Qed.

Lemma ex_program_compilable : compilable ex_program.
Proof.
  assert (Hall : Forall (λ op, attr_or op "grouped_heads" ANone = ANone ∧ attr_or op "quant_block" (AInt 128) = AInt 128
      ∧ heads_check op ex_program = true ∧ pool_inputs (op_kind op) = []) (g_ops ex_program)).
  { apply (bool_decide_unpack _). vm_compute. exact I. }
  rewrite Forall_forall in Hall.
  split.
  - destruct ex_program_compiled as (exe & counter' & E & <-). exact (proj1 (compile_model_graph _ _ _ _ _ _ _ _ _ _ _ E)).
  - apply graph_dims_tensors, (bool_decide_unpack _). vm_compute. exact I.
  - intros op Hop. destruct (Hall op Hop) as (Hgr & Hqb & _ & _).
    split; [by rewrite Hgr|]. rewrite Hqb. intros q [= <-]. lia.
  - intros op Hop. apply heads_check_ok. by destruct (Hall op Hop) as (_ & _ & ? & _).
  - intros op i n tv Hop Hi. destruct (Hall op Hop) as (_ & _ & _ & Hp). rewrite Hp in Hi.
    exact (False_ind _ (not_elem_of_nil _ Hi)).
Qed.

Lemma ex_program_runnable : runnable ex_program.
Proof.
  assert (H : Forall (λ op, op_kind op ∈ DECODE ∧ operands_shaped ex_program op = true
      ∧ attr_or op "position_form" (AStr "scalar") ≠ AStr "row" ∧ operands_apart ex_program op) (g_ops ex_program)).
  { apply (bool_decide_unpack _). vm_compute. exact I. }
  rewrite Forall_forall in H. split; intros op Hop; by destruct (H op Hop) as (? & ? & ? & ?).
Qed.

Lemma ex_program_views : materialize_tensors ex_dtypes ex_program = Ok ex_views.
Proof. vm_compute. reflexivity. Qed.

Lemma ex_program_lowered : lower_graph ex_program = Ok ex_families.
Proof. unfold ex_families. destruct (lower_graph _) as [x|e] eqn:E; [reflexivity|]. vm_compute in E. discriminate. Qed.

Definition ex_execution (s : PhaseSchedule) : result (gmap addr Z) :=
  fst <$> run (execute_body ex_views) (fill_nan (λ _, 0)) (all_nan (λ _, 0)) 3 false None s ex_step ∅ new_trace.

Lemma ex_execution_returns : ∃ s m, from_families ex_families 2 = Ok s ∧ ex_execution s = Ok m ∧ size m = 164%nat.
Proof.
  assert (H : match from_families ex_families 2 with
              | Ok s => match ex_execution s with Ok m => bool_decide (size m = 164%nat) | Err _ => false end
              | Err _ => false
              end = true) by (vm_compute; reflexivity).
  destruct (from_families ex_families 2) as [s|]; [|done]. destruct (ex_execution s) as [m|] eqn:Em; [|done].
  exists s, m. split; [done|]. split; [exact Em|]. by apply bool_decide_eq_true in H.
Qed.

Lemma reference_barriers_unobservable_witness :
  ∃ s deps sched tr mem, from_families ex_families 2 = Ok s ∧ build_tile_dependencies s None = Ok deps
    ∧ @build_static_worker_schedule (elements_iter TaskKey) deps 2 = Ok sched ∧ complete_run sched tr
    ∧ fold_result (exec_key (execute_body ex_views) ex_step ex_families) ∅ tr = Ok mem ∧ size mem = 164%nat.
Proof.
  destruct ex_execution_returns as (s & m & Hs & Hm & Hsize).
  assert (Hc : callbacks_check ex_families = true) by (vm_compute; reflexivity).
  destruct (@reference_barriers_unobservable Z ex_numpy (elements_iter TaskKey) ex_dtypes ex_views (λ _, 0) ex_step ex_program
    ex_families 2 s ex_program_compilable ex_program_runnable ex_program_views ex_program_lowered (callbacks_check_total _ Hc) Hs ltac:(lia))
    as (deps & sched & Hd & Hsched & (tr & Htr) & Heq).
  exists s, deps, sched, tr, m.
  exact (conj Hs (conj Hd (conj Hsched (conj Htr (conj (proj1 (Heq tr ∅ new_trace 3 Htr ltac:(lia) m) Hm) Hsize))))).
Defined.
