(* ===== verification/CacheTail.v ===== *)
(** * Attention and the tail of the cache (compiler/reference_exec.py)

    The rows of a cache past the position of the step may hold anything, NaN
    included: the attention tasks of a program do not depend on them. *)

From S2P Require Import Frontend Compile Prelude Indexing OperatorIR Contracts Capture TaskIR SchedulePhase TileDependencies.
From S2P Require Import Execution Arrays Effects Equivalence LoweringsCommon LoweringsAttention Lowerings Operands.
From S2P Require Import ReferenceTypes ReferenceDense ReferenceAttention ReferenceBodies Cells Vectors Declared Footprint FootprintState.
From S2P Require Import Pipeline Ownership BodyLocality ReferenceRun.
Local Open Scope Z_scope.

Definition ATTENTION : list string := ["attention_scores"; "softmax"; "attention_values"]%string.

Definition reads_prefix (kind : string) : Prop := ∃ factory b,
  factory_of kind = Some factory ∧ runs_body kind b ∧ has_callbacks factory ∧ prefix_local kind factory b.

Lemma attention_kinds (kind : string) : kind ∈ ATTENTION → reads_prefix kind.
Proof.
  revert kind. apply Forall_forall. unfold ATTENTION.
  repeat (apply Forall_cons; split); [..|apply Forall_nil_2];
    [exists lower_attention_scores, (λ V num, @body_attention_scores V num)
    |exists lower_softmax, (λ V num, @body_softmax V num)
    |exists lower_attention_values, (λ V num, @body_attention_values V num)];
    (split; [reflexivity|split; [eexists; split; [reflexivity|reflexivity]|split]]).
  - intros ? ? ? H. unfold lower_attention_scores in H. fp_branches. split; eexists; reflexivity.
  - exact attention_scores_prefix.
  - intros ? ? ? H. unfold lower_softmax in H. fp_branches. split; eexists; reflexivity.
  - exact softmax_prefix.
  - intros ? ? ? H. unfold lower_attention_values in H. fp_branches; split; eexists; reflexivity.
  - exact attention_values_prefix.
Qed.

(** C3. In a program of decode operators run at position [p], a scores,
    softmax or values task depends on the rows up to [p] of what it reads: two
    memories that agree on the read regions of the task, with the symbolic
    bound ["p+1"] of each region at its value, let it store the same values in
    its write regions, or raise the same exception, whatever the cache holds
    past [p]. *)
Theorem attention_ignores_tail {V : Type} `{num : !Numpy V} (arrays : gmap Z npdtype) (tensors : dict string view)
    (sc : scalars) (g : OperatorGraph) (fams : list TaskFamily) (f : TaskFamily) (t p : Z) (rs ws : list Region)
    (m1 m2 : gmap addr V) :
  compilable g → runnable g → materialize_tensors arrays g = Ok tensors → lower_graph g = Ok fams →
  f ∈ fams → op_kind (tf_op f) ∈ ATTENTION → 0 ≤ t → reads f t = Ok rs → writes f t = Ok ws →
  sc !! "p"%string = Some p → 0 ≤ p → agree (touched_at (p + 1) rs) m1 m2 →
  (∃ upd, writes_in (touched ws) upd ∧ exec_task (execute_body tensors) sc f t m1 = Ok (upd ∪ m1)
                                     ∧ exec_task (execute_body tensors) sc f t m2 = Ok (upd ∪ m2))
  ∨ (∃ e, exec_task (execute_body tensors) sc f t m1 = Err e ∧ exec_task (execute_body tensors) sc f t m2 = Err e).
Proof.
  intros Hg Hrun Hten Hl Hf Hk Ht Hrs Hws Hp Hp0 Hm. destruct (lowered_family g fams Hl f Hf) as (op & Hop & Hlow & Eop).
  rewrite Eop in Hk. destruct (attention_kinds _ Hk) as (factory & b & Hfac & Hbody & Hcb & Hloc).
  pose proof (factory_lowered op g f factory Hlow Hfac) as Hr.
  destruct (Hcb op g f Hr) as [[rf Hrf] [wf Hwf]]. unfold reads in Hrs. unfold writes in Hws. rewrite Hrf in Hrs. rewrite Hwf in Hws.
  destruct (lower_op_footprint op g f (cp_dims _ Hg) (cp_sizes _ Hg op Hop) (cp_heads _ Hg op Hop) Hlow) as (Hdn & _).
  destruct (family_coords f t) as [cs|] eqn:Hcs; [|done]. cbn [mbind result_bind] in Hrs, Hws.
  refine (local_effect_ext _ _ _ _ (exec_body tensors sc op g f t cs b Hlow Hbody Hcs) (stays_local _ _ _ _) m1 m2 Hm).
  eapply (Hloc V num g tensors op f rf wf cs sc rs ws); try done.
  - apply (pw_graph _ (cp_wf _ Hg)).
  - apply (cp_dims _ Hg).
  - by eapply graph_materialized.
  - by apply (cp_sizes _ Hg).
  - by apply (cp_heads _ Hg).
  - by apply (rn_shaped _ Hrun).
  - by apply (rn_position _ Hrun).
  - eapply (coords_in_grid _ t); [exact Hdn|done|exact Hcs].
Qed.

#[local] Existing Instance ex_numpy.

(** *** Witness: the scores of the first head of GPT-2 at position 1, with a
    value in row 3 of the cache and without *)
Definition ex_scores : TaskFamily :=
  default (mk_family "" "" (mk_operator 0 "" [] [] ∅ [] [] "") (mk_domain []) [] [] ∅ 0 0 None None) (ex_families !! 4%nat).
Definition ex_reads : list Region := ok_default [] (reads ex_scores 0).
Definition ex_writes : list Region := ok_default [] (writes ex_scores 0).
Definition ex_tail : gmap addr Z := {[(24317, 12) := 99]}.

Lemma ex_tail_unread : agree (touched_at 2 ex_reads) ∅ ex_tail.
Proof.
  intros a (r & Hr & Hs & idx & Hb & Ha). symmetry. apply lookup_singleton_None. intros <-. cbn [fst snd] in *.
  assert (Hrs : ∃ rq rk, ex_reads = [rq; rk] ∧ rg_storage_id rq = 2
     ∧ rg_boxes rk = [(0, BInt 1); (0, BInt 1); (0, BStr "p+1"); (0, BInt 4)]
     ∧ tv_shape (rg_view rk) = [1; 2; 4; 4] ∧ tv_strides (rg_view rk) = [16; 16; 4; 1] ∧ tv_offset (rg_view rk) = 0)
    by (eexists _, _; split_and!; vm_compute; reflexivity).
  destruct Hrs as (rq & rk & Hrs & Hq & Hbox & Hshape & Hstr & Hoff). rewrite Hrs in Hr.
  apply elem_of_cons in Hr as [->|Hr]; [lia|]. apply list_elem_of_singleton in Hr as ->.
  rewrite Hbox, Hshape in Hb. unfold view_addr in Ha. rewrite Hoff, Hstr in Ha.
  destruct idx as [|i [|j [|k [|l [|] ] ] ] ]; simpl in Hb; try tauto. simpl in Ha. lia.
Qed.

Lemma attention_ignores_tail_witness : ∃ upd,
  exec_task (execute_body ex_views) ex_step ex_scores 0 ∅ = Ok (upd ∪ ∅)
  ∧ exec_task (execute_body ex_views) ex_step ex_scores 0 ex_tail = Ok (upd ∪ ex_tail).
Proof.
  destruct (attention_ignores_tail (num := ex_numpy) ex_dtypes ex_views ex_step ex_program ex_families ex_scores 0 1 ex_reads ex_writes
    ∅ ex_tail ex_program_compilable ex_program_runnable) as [(upd & _ & H1 & H2)|(e & H1 & _)].
  - exact ex_program_views.
  - exact ex_program_lowered.
  - apply list_elem_of_lookup. exists 4%nat. vm_compute. reflexivity.
  - apply (bool_decide_unpack _). vm_compute. exact I.
  - lia.
  - vm_compute. reflexivity.
  - vm_compute. reflexivity.
  - vm_compute. reflexivity.
  - lia.
  - exact ex_tail_unread.
  - exists upd. exact (conj H1 H2).
  - exfalso. assert (H : is_ok (exec_task (execute_body ex_views) ex_step ex_scores 0 ∅) = true) by (vm_compute; reflexivity).
    rewrite H1 in H. discriminate.
Defined.
