(* ===== verification/RingAllReduce.v ===== *)
(** * Ring all-reduce (_fallback.py, comm.py)

    In-process channels over blocking queues, and the ring all-reduce in which
    every rank is a thread.  The code of a rank is a process that sends and
    receives; the threads of a ring take steps in any order.  The theorem: every
    interleaving ends, none blocks, and all ranks hold the same sums, each
    accumulated in ring order.  Elements are abstract; [add] is the float32
    addition of numpy. *)

From S2P Require Import Prelude.
Local Open Scope Z_scope.

(** ** Topology *)
Record Topology : Type := mk_topology {
  tp_rank : Z;
  tp_world : Z;
  tp_next : Z;
  tp_prev : Z
}.

Definition ring_rank (rank world : Z) : result Topology :=
  _ ← require (negb (world <=? 0)) (ValueError "world must be positive");
  _ ← require ((0 <=? rank) && (rank <? world)) (ValueError "rank out of range");
  Ok (mk_topology rank world ((rank + 1) `mod` world) ((rank - 1) `mod` world)).

Definition build_ring_topology (world : Z) : result (list Topology) :=
  _ ← require (negb (world <=? 0)) (ValueError "world must be positive");
  map_result (λ r, ring_rank r world) (zrange world).

(** ** Queues and channels

    A channel holds references to two queues, which other channels share:
    references are positions in a store of queues. *)
Record BlockingQueue (V : Type) : Type := mk_queue {
  bq_items : list (list V);
  bq_closed : bool
}.
Arguments mk_queue {V}.
Arguments bq_items {V}.
Arguments bq_closed {V}.

Definition new_queue {V} : BlockingQueue V := mk_queue [] false.
Definition queue_push {V} (chunk : list V) (q : BlockingQueue V) : BlockingQueue V :=
  mk_queue (bq_items q ++ [chunk]) (bq_closed q).
(** [None]: the caller waits. *)
Definition queue_pop {V} (q : BlockingQueue V) : option (list V * BlockingQueue V) :=
  match bq_items q with
  | [] => None
  | chunk :: items => Some (chunk, mk_queue items (bq_closed q))
  end.
Definition queue_close {V} (q : BlockingQueue V) : BlockingQueue V :=
  mk_queue (bq_items q) true.

Record MockChannel : Type := mk_channel {
  ch_out : nat;
  ch_in : nat
}.

Definition make_ring_channels {V} (world : Z) :
    result (list (BlockingQueue V) * list MockChannel) :=
  _ ← require (negb (world <=? 0)) (ValueError "world must be positive");
  Ok ((λ _, new_queue) <$> zrange world,
      (λ r, mk_channel (Z.to_nat r) (Z.to_nat ((r - 1) `mod` world))) <$> zrange world).

(** ** Processes *)
Inductive Proc (V A : Type) : Type :=
  | Done (a : A)
  | Send (q : nat) (chunk : list V) (k : Proc V A)
  | Recv (q : nat) (k : list V → Proc V A).
Arguments Done {V A}.
Arguments Send {V A}.
Arguments Recv {V A}.

Fixpoint proc_bind {V A B} (f : A → Proc V B) (p : Proc V A) : Proc V B :=
  match p with
  | Done a => f a
  | Send q chunk k => Send q chunk (proc_bind f k)
  | Recv q k => Recv q (λ chunk, proc_bind f (k chunk))
  end.

(** The code of a rank mutates its array in place and may raise. *)
Definition RankM (V A : Type) : Type := list V → Proc V (result A * list V).

#[export] Instance RankM_ret {V} : MRet (RankM V) := λ A x l, Done (Ok x, l).
#[export] Instance RankM_bind {V} : MBind (RankM V) := λ A B f m l,
  proc_bind (λ '(r, l'), match r with Ok x => f x l' | Err e => Done (Err e, l') end) (m l).

Definition rank_lift {V A} (r : result A) : RankM V A := λ l, Done (r, l).
Definition rank_local {V} : RankM V (list V) := λ l, Done (Ok l, l).
Definition send {V} (ch : MockChannel) (chunk : list V) : RankM V unit :=
  λ l, Send (ch_out ch) chunk (Done (Ok tt, l)).
Definition recv {V} (ch : MockChannel) : RankM V (list V) :=
  λ l, Recv (ch_in ch) (λ chunk, Done (Ok chunk, l)).

Fixpoint rank_for {V} (body : Z → RankM V unit) (ts : list Z) : RankM V unit :=
  match ts with
  | [] => mret tt
  | t :: ts => _ ← body t; rank_for body ts
  end.

(** ** One rank *)
Section rank.
Context {V : Type} (add : V → V → V).

(** [x + y] on one-dimensional arrays. *)
Definition np_add (xs ys : list V) : result (list V) :=
  if decide (length xs = length ys) then Ok (zip_with add xs ys)
  else match xs, ys with
       | [x], _ => Ok (add x <$> ys)
       | _, [y] => Ok ((λ x, add x y) <$> xs)
       | _, _ => Err (ValueError "operands could not be broadcast together")
       end.

(** [local[c * chunk : (c + 1) * chunk]] *)
Definition chunk_of (chunk c : Z) (local : list V) : list V :=
  take (Z.to_nat ((c + 1) * chunk) - Z.to_nat (c * chunk)) (drop (Z.to_nat (c * chunk)) local).

(** [local[c * chunk : (c + 1) * chunk] = v] *)
Definition replace_chunk (chunk c : Z) (v : list V) : RankM V unit :=
  λ local,
    let old := chunk_of chunk c local in
    let put v := take (Z.to_nat (c * chunk)) local ++ v ++ drop (Z.to_nat ((c + 1) * chunk)) local in
    if decide (length v = length old) then Done (Ok tt, put v)
    else match v with
         | [x] => Done (Ok tt, put (replicate (length old) x))
         | _ => Done (Err (ValueError "could not broadcast input array"), local)
         end.

Definition reduce_step (rank world chunk : Z) (next_ch prev_ch : MockChannel) (t : Z) :
    RankM V unit :=
  let send_c := (rank - t) `mod` world in
  let recv_c := (rank - t - 1) `mod` world in
  local ← rank_local;
  _ ← send next_ch (chunk_of chunk send_c local);
  got ← recv prev_ch;
  local ← rank_local;
  sum ← rank_lift (np_add (chunk_of chunk recv_c local) got);
  replace_chunk chunk recv_c sum.

Definition gather_step (rank world chunk : Z) (next_ch prev_ch : MockChannel) (t : Z) :
    RankM V unit :=
  let send_c := (rank - t + 1) `mod` world in
  let recv_c := (rank - t) `mod` world in
  local ← rank_local;
  _ ← send next_ch (chunk_of chunk send_c local);
  got ← recv prev_ch;
  replace_chunk chunk recv_c got.

Definition ring_allreduce_rank (rank world : Z) (next_ch prev_ch : MockChannel) :
    RankM V unit :=
  _ ← rank_lift (require (negb (world <=? 0)) (ValueError "world must be positive"));
  _ ← rank_lift (require ((0 <=? rank) && (rank <? world)) (ValueError "rank out of range"));
  local ← rank_local;
  let n := Z.of_nat (length local) in
  _ ← rank_lift (require (n `mod` world =? 0)
                   (ValueError "local length must be divisible by world"));
  if world =? 1 then mret tt
  else
    let chunk := n / world in
    _ ← rank_for (reduce_step rank world chunk next_ch prev_ch) (zrange (world - 1));
    rank_for (gather_step rank world chunk next_ch prev_ch) (zrange (world - 1)).

(** ** The threads of a ring *)
Record System : Type := mk_system {
  sys_threads : list (Proc V (result unit * list V));
  sys_queues : list (BlockingQueue V)
}.

Inductive step : System → System → Prop :=
  | step_send ths qs r q chunk k bq :
      ths !! r = Some (Send q chunk k) → qs !! q = Some bq →
      step (mk_system ths qs) (mk_system (<[r:=k]> ths) (<[q:=queue_push chunk bq]> qs))
  | step_recv ths qs r q k bq chunk bq' :
      ths !! r = Some (Recv q k) → qs !! q = Some bq → queue_pop bq = Some (chunk, bq') →
      step (mk_system ths qs) (mk_system (<[r:=k chunk]> ths) (<[q:=bq']> qs)).

(** [t.join()] for every thread: the buffers, whatever a thread raised. *)
Definition joined (s : System) : option (list (list V)) :=
  mapM (λ p, match p with Done (_, local) => Some local | _ => None end) (sys_threads s).

(** The state in which [ring_allreduce] starts its threads. *)
Definition ring_allreduce_start (locals : list (list V)) : result System :=
  let world := Z.of_nat (length locals) in
  _ ← require (negb (world <=? 0)) (ValueError "locals must be non-empty");
  first ← py_index locals 0;
  let len := length first in
  _ ← require (forallb (λ v, bool_decide (length v = len)) locals)
        (ValueError "all locals must have equal length");
  _ ← require (Z.of_nat len `mod` world =? 0)
        (ValueError "local length must be divisible by world");
  '(queues, channels) ← make_ring_channels world;
  let buffers := locals in
  threads ← map_result (λ r,
    buffer ← py_index buffers (Z.to_nat r);
    ch ← py_index channels (Z.to_nat r);
    Ok (ring_allreduce_rank r world ch ch buffer)) (zrange world);
  Ok (mk_system threads queues).
End rank.
Arguments mk_system {V}.
Arguments sys_threads {V}.
Arguments sys_queues {V}.

#[local] Arguments np_add : simpl never.
#[local] Arguments chunk_of : simpl never.
#[local] Arguments replace_chunk : simpl never.

(** ** Chunks as ranges of elements *)
Section chunks.
Context {V : Type} (w ck : nat).
Implicit Types (l v : list V) (c : Z).

Lemma chunk_bounds c : 0 ≤ c < Z.of_nat w →
  Z.to_nat (c * Z.of_nat ck) = (Z.to_nat c * ck)%nat ∧
  Z.to_nat ((c + 1) * Z.of_nat ck) = (Z.to_nat c * ck + ck)%nat ∧
  (Z.to_nat c * ck + ck ≤ w * ck)%nat.
Proof. intros Hc. repeat split; nia. Qed.

Lemma chunk_of_lookup c l j : 0 ≤ c < Z.of_nat w → (j < ck)%nat →
  chunk_of (Z.of_nat ck) c l !! j = l !! (Z.to_nat c * ck + j)%nat.
Proof.
  intros Hc Hj. destruct (chunk_bounds c Hc) as (E1 & E2 & ?). unfold chunk_of.
  rewrite E1, E2, lookup_take, lookup_drop, decide_True by lia. done.
Qed.

Lemma chunk_of_length c l : 0 ≤ c < Z.of_nat w → length l = (w * ck)%nat →
  length (chunk_of (Z.of_nat ck) c l) = ck.
Proof.
  intros Hc Hl. destruct (chunk_bounds c Hc) as (E1 & E2 & ?). unfold chunk_of.
  rewrite E1, E2, length_take, length_drop. lia.
Qed.

(** Chunk [c] of [l] replaced by [v]. *)
Definition put_chunk c v l : list V :=
  take (Z.to_nat (c * Z.of_nat ck)) l ++ v ++ drop (Z.to_nat ((c + 1) * Z.of_nat ck)) l.

Lemma put_chunk_length c v l : 0 ≤ c < Z.of_nat w → length l = (w * ck)%nat → length v = ck →
  length (put_chunk c v l) = (w * ck)%nat.
Proof.
  intros Hc Hl Hv. destruct (chunk_bounds c Hc) as (E1 & E2 & ?). unfold put_chunk.
  rewrite E1, E2, !length_app, length_take, length_drop. lia.
Qed.

Lemma put_chunk_lookup c v l i : 0 ≤ c < Z.of_nat w → length l = (w * ck)%nat →
  length v = ck → (i < w * ck)%nat →
  put_chunk c v l !! i =
    if decide (i `div` ck = Z.to_nat c)%nat then v !! (i - Z.to_nat c * ck)%nat else l !! i.
Proof.
  intros Hc Hl Hv Hi. destruct (chunk_bounds c Hc) as (E1 & E2 & ?). unfold put_chunk.
  rewrite E1, E2.
  assert (0 < ck)%nat by (destruct ck; lia).
  pose proof (Nat.div_mod i ck ltac:(lia)). pose proof (Nat.mod_upper_bound i ck ltac:(lia)).
  assert (length (take (Z.to_nat c * ck) l) = (Z.to_nat c * ck)%nat) as E3
    by (rewrite length_take; lia).
  case_decide as Hd.
  - rewrite Hd in *. rewrite lookup_app_r, E3 by lia. rewrite lookup_app_l by lia. done.
  - destruct (decide (i < Z.to_nat c * ck)%nat).
    + rewrite lookup_app_l by lia. rewrite lookup_take, decide_True by done. done.
    + assert (Z.to_nat c < i `div` ck)%nat by nia.
      rewrite lookup_app_r, E3 by lia. rewrite lookup_app_r, lookup_drop by nia.
      f_equal. nia.
Qed.

Lemma replace_chunk_put c v l : 0 ≤ c < Z.of_nat w → length l = (w * ck)%nat →
  length v = ck → replace_chunk (Z.of_nat ck) c v l = Done (Ok tt, put_chunk c v l).
Proof.
  intros Hc Hl Hv. unfold replace_chunk. rewrite decide_True; [done|].
  by rewrite (chunk_of_length c l Hc Hl).
Qed.

Lemma np_add_equal (add : V → V → V) v v' : length v = length v' →
  np_add add v v' = Ok (zip_with add v v').
Proof. intros Hl. unfold np_add. by rewrite decide_True. Qed.
End chunks.

(** ** The ring in lockstep

    The rounds of the algorithm, executed by all ranks at once. *)
Section ring.
Context {V : Type} `{Inhabited V} (add : V → V → V).
Context (locals : list (list V)) (w ck : nat).
Hypothesis Hw : length locals = w.
Hypothesis Hlen : Forall (λ l, length l = (w * ck)%nat) locals.
Hypothesis Hpos : (1 < w)%nat.
#[local] Set Default Proof Using "All".

Definition prev (r : nat) : nat := Z.to_nat ((Z.of_nat r - 1) `mod` Z.of_nat w).

Definition send_index (r k : nat) : Z :=
  if decide (k < w - 1)%nat then (Z.of_nat r - Z.of_nat k) `mod` Z.of_nat w
  else (Z.of_nat r - Z.of_nat (k - (w - 1)) + 1) `mod` Z.of_nat w.
Definition recv_index (r k : nat) : Z :=
  if decide (k < w - 1)%nat then (Z.of_nat r - Z.of_nat k - 1) `mod` Z.of_nat w
  else (Z.of_nat r - Z.of_nat (k - (w - 1))) `mod` Z.of_nat w.

Definition message (r k : nat) (l : list V) : list V := chunk_of (Z.of_nat ck) (send_index r k) l.
Definition update (r k : nat) (l got : list V) : list V :=
  let c := recv_index r k in
  put_chunk ck c
    (if decide (k < w - 1)%nat then zip_with add (chunk_of (Z.of_nat ck) c l) got else got) l.

(** The array of rank [r] after [k] rounds. *)
Fixpoint lockstep (k r : nat) : list V :=
  match k with
  | O => locals !!! r
  | S k => update r k (lockstep k r) (message (prev r) k (lockstep k (prev r)))
  end.

Lemma index_range (r k : nat) :
  0 ≤ send_index r k < Z.of_nat w ∧ 0 ≤ recv_index r k < Z.of_nat w.
Proof. unfold send_index, recv_index. split; case_decide; apply Z.mod_pos_bound; lia. Qed.

Lemma prev_range (r : nat) : (prev r < w)%nat.
Proof. unfold prev. pose proof (Z.mod_pos_bound (Z.of_nat r - 1) (Z.of_nat w)). lia. Qed.

Lemma message_length (r k : nat) (l : list V) :
  length l = (w * ck)%nat → length (message r k l) = ck.
Proof. apply chunk_of_length, index_range. Qed.

Lemma update_length (r k : nat) (l got : list V) :
  length l = (w * ck)%nat → length got = ck → length (update r k l got) = (w * ck)%nat.
Proof.
  intros Hl Hg. apply put_chunk_length; [apply index_range|done|].
  case_decide; [|done]. rewrite length_zip_with, (chunk_of_length w); [lia|apply index_range|done].
Qed.

Lemma lockstep_length (k r : nat) : (r < w)%nat → length (lockstep k r) = (w * ck)%nat.
Proof.
  revert r. induction k as [|k IH]; intros r Hr; simpl.
  - destruct (lookup_lt_is_Some_2 locals r ltac:(lia)) as [l Hl].
    rewrite (list_lookup_total_correct _ _ _ Hl). by eapply Forall_lookup_1 in Hlen.
  - apply update_length; [auto|]. apply message_length, IH, prev_range.
Qed.

(** ** What the rounds compute *)
Definition element (r i : nat) : V := (locals !!! r) !!! i.

(** [x m + (... + (x 1 + x 0))] *)
Fixpoint chain_sum (x : nat → V) (m : nat) : V :=
  match m with O => x O | S m => add (x (S m)) (chain_sum x m) end.

(** The ranks of a chunk contribute in ring order, starting with the rank of
    the chunk's number. *)
Definition ring_chain (i m : nat) : V :=
  chain_sum (λ m, element ((i `div` ck + m) `mod` w) i) m.

(** How far rank [r] is from the rank where element [i] starts. *)
Definition distance (r i : nat) : Z := (Z.of_nat r - Z.of_nat (i `div` ck)) `mod` Z.of_nat w.

(** The element [i] at rank [r] after [k] rounds. *)
Definition expected (k r i : nat) : V :=
  let d := distance r i in
  if decide (k ≤ w - 1)%nat then
    if decide (d ≤ Z.of_nat k) then ring_chain i (Z.to_nat d) else element r i
  else
    if decide (d < Z.of_nat (k - (w - 1)) ∨ d = Z.of_nat w - 1) then ring_chain i (w - 1)
    else ring_chain i (Z.to_nat d).

Lemma mod_shift (a b c : Z) (m : Z) : 0 < m → 0 ≤ b < m → 0 ≤ c < m →
  (b = (a - c) `mod` m ↔ (a - b) `mod` m = c).
Proof.
  intros Hm Hb Hc. split; intros E.
  - subst b. rewrite Zminus_mod_idemp_r. replace (a - (a - c)) with c by lia. by apply Z.mod_small.
  - subst c. rewrite Zminus_mod_idemp_r. replace (a - (a - b)) with b by lia.
    by rewrite Z.mod_small.
Qed.

Lemma distance_range (r i : nat) : 0 ≤ distance r i < Z.of_nat w.
Proof. apply Z.mod_pos_bound. lia. Qed.

Lemma distance_prev (r i : nat) :
  distance (prev r) i = if decide (distance r i = 0) then Z.of_nat w - 1 else distance r i - 1.
Proof.
  pose proof (distance_range r i) as Hd.
  assert (distance (prev r) i = (distance r i - 1) `mod` Z.of_nat w) as ->.
  { unfold distance, prev. rewrite Z2Nat.id by (apply Z.mod_pos_bound; lia).
    rewrite Zminus_mod_idemp_l. rewrite Zminus_mod_idemp_l. f_equal. lia. }
  case_decide as E.
  - rewrite E. symmetry. apply (Zmod_unique_full _ _ (-1)); [left; lia|lia].
  - apply Z.mod_small. lia.
Qed.

Lemma chunk_index (i : nat) : (i < w * ck)%nat → (i `div` ck < w)%nat.
Proof. intros Hi. apply Nat.Div0.div_lt_upper_bound. lia. Qed.

(** The chunk a round receives is the one at a fixed distance. *)
Lemma recv_index_distance (r k i : nat) : (i < w * ck)%nat →
  (k < 2 * (w - 1))%nat →
  (i `div` ck = Z.to_nat (recv_index r k))%nat ↔
  distance r i = Z.of_nat (if decide (k < w - 1)%nat then k + 1 else k - (w - 1)).
Proof.
  intros Hi Hk. pose proof (chunk_index i Hi) as Hc.
  assert ((i `div` ck = Z.to_nat (recv_index r k))%nat ↔ Z.of_nat (i `div` ck) = recv_index r k) as ->.
  { pose proof (proj2 (index_range r k)). lia. }
  unfold distance, recv_index. case_decide.
  - replace (Z.of_nat r - Z.of_nat k - 1) with (Z.of_nat r - Z.of_nat (k + 1)) by lia.
    apply mod_shift; lia.
  - apply mod_shift; lia.
Qed.

Lemma ring_chain_step (r i : nat) (d : nat) : (r < w)%nat → (i < w * ck)%nat →
  distance r i = Z.of_nat (S d) → ring_chain i (S d) = add (element r i) (ring_chain i d).
Proof.
  intros Hr Hi Hd. unfold ring_chain. simpl. do 2 f_equal.
  apply Nat2Z.inj. rewrite Nat2Z.inj_mod, Nat2Z.inj_add, <- Hd. unfold distance.
  rewrite Zplus_mod_idemp_r. replace (_ + (_ - _)) with (Z.of_nat r) by lia.
  apply Z.mod_small. lia.
Qed.

(** A rank receives the chunk its predecessor sends. *)
Lemma send_index_prev (r k : nat) : send_index (prev r) k = recv_index r k.
Proof.
  unfold send_index, recv_index, prev. rewrite Z2Nat.id by (apply Z.mod_pos_bound; lia).
  case_decide.
  - rewrite Zminus_mod_idemp_l. f_equal. lia.
  - set (t := Z.of_nat (k - (w - 1))).
    replace (_ - t + 1) with ((Z.of_nat r - 1) `mod` Z.of_nat w - (t - 1)) by lia.
    rewrite Zminus_mod_idemp_l. f_equal. lia.
Qed.

(** One round on one element. *)
Lemma update_lookup (r k i : nat) (l l' : list V) : (i < w * ck)%nat →
  length l = (w * ck)%nat → length l' = (w * ck)%nat → (k < 2 * (w - 1))%nat →
  update r k l (message (prev r) k l') !! i =
    if decide (distance r i = Z.of_nat (if decide (k < w - 1)%nat then k + 1 else k - (w - 1)))
    then (if decide (k < w - 1)%nat then x ← l !! i; y ← l' !! i; Some (add x y) else l' !! i)
    else l !! i.
Proof.
  intros Hi Hl Hl' Hk. unfold update, message. rewrite send_index_prev.
  pose proof (proj2 (index_range r k)) as Hc. set (c := recv_index r k) in *.
  pose proof (chunk_of_length w ck c l Hc Hl). pose proof (chunk_of_length w ck c l' Hc Hl').
  assert (0 < ck)%nat as Hck by (destruct ck; lia).
  rewrite (put_chunk_lookup w) by (try case_decide; rewrite ?length_zip_with; lia || done).
  pose proof (recv_index_distance r k i Hi Hk) as Hiff. fold c in Hiff.
  pose proof (Nat.div_mod i ck ltac:(lia)). pose proof (Nat.mod_upper_bound i ck ltac:(lia)).
  assert (∀ l : list V, (i `div` ck)%nat = Z.to_nat c →
    chunk_of (Z.of_nat ck) c l !! (i - Z.to_nat c * ck)%nat = l !! i) as Hat.
  { intros l0 E. rewrite (chunk_of_lookup w) by (rewrite <- ?E; lia). f_equal. rewrite <- E. lia. }
  destruct (decide ((i `div` ck)%nat = Z.to_nat c)) as [E|E]; [|by rewrite (decide_False (P := distance r i = _)) by tauto].
  rewrite (decide_True (P := distance r i = _)) by (by apply Hiff). case_decide.
  - rewrite lookup_zip_with, !Hat by done. done.
  - by apply Hat.
Qed.

Lemma locals_lookup (r i : nat) : (r < w)%nat → (i < w * ck)%nat →
  (locals !!! r) !! i = Some (element r i).
Proof.
  intros Hr Hi. apply list_lookup_lookup_total_lt.
  pose proof (lockstep_length 0 r Hr). simpl in *. lia.
Qed.

Lemma expected_reduce (k r i : nat) : (r < w)%nat → (i < w * ck)%nat → (k < w - 1)%nat →
  expected (S k) r i =
    if decide (distance r i = Z.of_nat (k + 1)) then add (expected k r i) (expected k (prev r) i)
    else expected k r i.
Proof.
  intros Hr Hi Hk. unfold expected. rewrite !(decide_True (P := (_ ≤ w - 1)%nat)) by lia.
  rewrite distance_prev. pose proof (distance_range r i) as Hd.
  destruct (decide (distance r i = Z.of_nat (k + 1))) as [E|E].
  - rewrite E. rewrite (decide_True (P := Z.of_nat (k + 1) ≤ Z.of_nat (S k))) by lia.
    rewrite (decide_False (P := Z.of_nat (k + 1) ≤ Z.of_nat k)) by lia.
    rewrite (decide_False (P := Z.of_nat (k + 1) = 0)) by lia.
    rewrite decide_True by lia.
    replace (Z.to_nat (Z.of_nat (k + 1))) with (S k) by lia.
    replace (Z.to_nat (Z.of_nat (k + 1) - 1)) with k by lia.
    apply ring_chain_step; [done..|lia].
  - repeat case_decide; try lia; done.
Qed.

Lemma expected_gather (k r i : nat) : (r < w)%nat → (i < w * ck)%nat →
  (w - 1 ≤ k)%nat → (k < 2 * (w - 1))%nat →
  expected (S k) r i =
    if decide (distance r i = Z.of_nat (k - (w - 1))) then expected k (prev r) i
    else expected k r i.
Proof.
  intros Hr Hi Hk Hk'. unfold expected. rewrite (decide_False (P := (S k ≤ w - 1)%nat)) by lia.
  rewrite distance_prev. pose proof (distance_range r i) as Hd.
  destruct (decide (k ≤ w - 1)%nat) as [E0|E0].
  - replace k with (w - 1)%nat in * by lia.
    destruct (decide (distance r i = 0)) as [E|E]; repeat case_decide; try lia; try done.
    + f_equal; lia.
    + f_equal; lia.
  - destruct (decide (distance r i = 0)) as [E|E]; repeat case_decide; try lia; try done.
Qed.

Lemma lockstep_expected (k r i : nat) : (r < w)%nat → (i < w * ck)%nat →
  (k ≤ 2 * (w - 1))%nat → lockstep k r !! i = Some (expected k r i).
Proof.
  intros Hr Hi. revert r Hr. induction k as [|k IH]; intros r Hr Hk.
  - simpl. rewrite locals_lookup by done. f_equal. unfold expected.
    rewrite decide_True by lia. case_decide as Hd; [|done].
    pose proof (distance_range r i). assert (distance r i = 0) as E by lia. rewrite E.
    unfold ring_chain. simpl. f_equal. unfold distance in E.
    pose proof (chunk_index i Hi). rewrite Nat.add_0_r, Nat.mod_small by done.
    apply (proj2 (mod_shift (Z.of_nat r) (Z.of_nat (i `div` ck)) 0 (Z.of_nat w)
      ltac:(lia) ltac:(lia) ltac:(lia))) in E.
    rewrite Z.sub_0_r, Z.mod_small in E by lia. lia.
  - pose proof (prev_range r) as Hp. cbn [lockstep].
    rewrite update_lookup by (auto using lockstep_length with lia).
    rewrite !IH by (auto; lia). simpl.
    destruct (decide (k < w - 1)%nat).
    + rewrite expected_reduce by done. by case_decide.
    + rewrite expected_gather by (done || lia). by case_decide.
Qed.

(** The result: the sum of all ranks, in ring order. *)
Definition ring_total : list V :=
  (λ i, ring_chain i (w - 1)) <$> seq 0 (w * ck).

Lemma lockstep_total (r : nat) : (r < w)%nat → lockstep (2 * (w - 1)) r = ring_total.
Proof.
  intros Hr. apply list_eq_same_length with (n := (w * ck)%nat).
  - unfold ring_total. by rewrite length_fmap, length_seq.
  - by apply lockstep_length.
  - intros i x y Hi. rewrite lockstep_expected by (done || lia).
    unfold ring_total. rewrite list_lookup_fmap, lookup_seq_lt by done. simpl.
    intros [= <-] [= <-]. unfold expected. pose proof (distance_range r i).
    repeat case_decide; try lia; try done; f_equal; lia.
Qed.
(** ** Interleavings *)
Definition ring_channel (r : nat) : MockChannel := mk_channel r (prev r).

(** What rank [r] still has to do after [k] rounds. *)
Definition rest (r k : nat) : RankM V unit :=
  let step f := f (Z.of_nat r) (Z.of_nat w) (Z.of_nat ck) (ring_channel r) (ring_channel r) in
  _ ← rank_for (step (reduce_step add)) (drop k (zrange (Z.of_nat w - 1)));
  rank_for (step gather_step) (drop (k - (w - 1)) (zrange (Z.of_nat w - 1))).

Lemma zrange_drop (n k : nat) : (k < n)%nat →
  drop k (zrange (Z.of_nat n)) = Z.of_nat k :: drop (S k) (zrange (Z.of_nat n)).
Proof.
  intros Hk. apply drop_S. unfold zrange.
  by rewrite list_lookup_fmap, lookup_seq_lt by lia.
Qed.

Lemma rest_round (r k : nat) (l : list V) : (k < 2 * (w - 1))%nat → length l = (w * ck)%nat →
  ∃ g, rest r k l = Send r (message r k l) (Recv (prev r) g) ∧
    ∀ m, length m = ck → g m = rest r (S k) (update r k l m).
Proof.
  intros Hk Hl. unfold rest. replace (Z.of_nat w - 1) with (Z.of_nat (w - 1)) by lia.
  pose proof (proj2 (index_range r k)) as Hr. unfold message, update.
  destruct (decide (k < w - 1)%nat) as [Hd|Hd].
  - rewrite (zrange_drop (w - 1) k) by done. unfold send_index, recv_index in *.
    rewrite !(decide_True (P := (k < w - 1)%nat)) in * by done.
    eexists; split; [reflexivity|]. intros m Hm.
    unfold mbind, RankM_bind. cbn.
    rewrite np_add_equal by (by rewrite (chunk_of_length w)). cbn.
    rewrite (replace_chunk_put w) by
      (rewrite ?length_zip_with, ?(chunk_of_length w) by done; done || lia).
    cbn. by replace (k - (w - 1))%nat with (S k - (w - 1))%nat by lia.
  - rewrite (drop_ge _ k), (drop_ge _ (S k)) by (rewrite length_zrange; lia).
    rewrite (zrange_drop (w - 1) (k - (w - 1))) by lia. unfold send_index, recv_index in *.
    rewrite !(decide_False (P := (k < w - 1)%nat)) in * by done.
    eexists; split; [reflexivity|]. intros m Hm. cbn.
    rewrite (replace_chunk_put w) by done. cbn.
    by replace (S (k - (w - 1)))%nat with (S k - (w - 1))%nat by lia.
Qed.

Lemma rest_done (r : nat) (l : list V) : rest r (2 * (w - 1)) l = Done (Ok tt, l).
Proof.
  unfold rest. rewrite !drop_ge by (rewrite length_zrange; lia). done.
Qed.

(** Rank [r] has taken [a] actions: an even number at the start of a round, an
    odd number when it waits for its message. *)
Definition thread_at (r a : nat) (p : Proc V (result unit * list V)) : Prop :=
  if Nat.even a then p = rest r (a / 2) (lockstep (a / 2) r)
  else ∃ g, p = Recv (prev r) g ∧
    g (message (prev r) (a / 2) (lockstep (a / 2) (prev r))) =
      rest r (S (a / 2)) (lockstep (S (a / 2)) r).

(** The queue into [r] holds what its predecessor has sent and it has not
    received. *)
Definition queue_at (r : nat) (acts : nat → nat) (q : BlockingQueue V) : Prop :=
  (acts r / 2 ≤ (acts (prev r) + 1) / 2)%nat ∧
  bq_items q = (λ k, message (prev r) k (lockstep k (prev r))) <$>
    seq (acts r / 2) ((acts (prev r) + 1) / 2 - acts r / 2).

Record ring_inv (acts : nat → nat) (s : @System V) : Prop := {
  ri_threads : length (sys_threads s) = w;
  ri_queues : length (sys_queues s) = w;
  ri_bound : ∀ r, (r < w)%nat → (acts r ≤ 4 * (w - 1))%nat;
  ri_thread : ∀ r p, sys_threads s !! r = Some p → thread_at r (acts r) p;
  ri_queue : ∀ r q, (r < w)%nat → sys_queues s !! prev r = Some q → queue_at r acts q
}.

Definition bump (acts : nat → nat) (r : nat) : nat → nat :=
  λ r', if decide (r' = r) then S (acts r') else acts r'.

Definition total_actions (acts : nat → nat) : nat := sum_list (acts <$> seq 0 w).

Lemma half_even (a : nat) : Nat.even a = true → (S a / 2 = a / 2 ∧ (a + 1) / 2 = a / 2)%nat.
Proof.
  intros [b ->]%Nat.even_spec. replace (S (2 * b)) with (b * 2 + 1)%nat by lia.
  replace (2 * b + 1)%nat with (b * 2 + 1)%nat by lia.
  rewrite (Nat.mul_comm 2 b), Nat.div_mul, Nat.div_add_l by lia. simpl. lia.
Qed.

Lemma half_odd (a : nat) : Nat.even a = false → (S a / 2 = S (a / 2) ∧ (a + 1) / 2 = S (a / 2))%nat.
Proof.
  intros Ha. assert (Nat.odd a = true) as [b ->]%Nat.odd_spec by (by rewrite <- Nat.negb_even, Ha).
  replace (S (2 * b + 1)) with (S b * 2)%nat by lia.
  replace (2 * b + 1 + 1)%nat with (S b * 2)%nat by lia.
  rewrite Nat.div_mul by lia. replace (2 * b + 1)%nat with (b * 2 + 1)%nat by lia.
  rewrite Nat.div_add_l by lia. simpl. lia.
Qed.

Definition next (r : nat) : nat := Z.to_nat ((Z.of_nat r + 1) `mod` Z.of_nat w).

Lemma next_prev (r : nat) : (r < w)%nat → next (prev r) = r ∧ prev (next r) = r.
Proof.
  intros Hr. unfold next, prev.
  rewrite !Z2Nat.id by (apply Z.mod_pos_bound; lia).
  rewrite Zplus_mod_idemp_l, Zminus_mod_idemp_l.
  rewrite !Z.mod_small by lia. lia.
Qed.

Lemma next_range (r : nat) : (next r < w)%nat.
Proof. unfold next. pose proof (Z.mod_pos_bound (Z.of_nat r + 1) (Z.of_nat w)). lia. Qed.

Lemma prev_neq (r : nat) : (r < w)%nat → prev r ≠ r.
Proof.
  intros Hr E. unfold prev in E. assert ((Z.of_nat r - 1) `mod` Z.of_nat w = Z.of_nat r) as E'.
  { pose proof (Z.mod_pos_bound (Z.of_nat r - 1) (Z.of_nat w)). lia. }
  symmetry in E'. apply mod_shift in E'; [|lia..].
  rewrite Z.sub_diag, Zmod_0_l in E'. lia.
Qed.

Lemma prev_inj (r r' : nat) : (r < w)%nat → (r' < w)%nat → prev r = prev r' → r = r'.
Proof.
  intros Hr Hr' E. rewrite <- (proj1 (next_prev r Hr)), <- (proj1 (next_prev r' Hr')). by rewrite E.
Qed.

(** What one more action of [r] means for a queue. *)
Lemma queue_at_other (acts : nat → nat) (r r' : nat) (q : BlockingQueue V) :
  r' ≠ r → prev r' ≠ r → queue_at r' acts q → queue_at r' (bump acts r) q.
Proof. intros H1 H2. unfold queue_at, bump. by rewrite !decide_False. Qed.

Lemma queue_at_sender_recv (acts : nat → nat) (r r' : nat) (q : BlockingQueue V) :
  r' ≠ r → prev r' = r → Nat.even (acts r) = false →
  queue_at r' acts q → queue_at r' (bump acts r) q.
Proof.
  intros H1 H2 Ho. unfold queue_at, bump. rewrite (decide_False (P := r' = r)) by done.
  rewrite (decide_True (P := prev r' = r)), H2 by done.
  destruct (half_odd _ Ho) as [E1 E2]. rewrite E2, Nat.add_1_r.
  assert (Nat.even (S (acts r)) = true) as He by (by rewrite Nat.even_succ, <- Nat.negb_even, Ho).
  destruct (half_even _ He) as [_ E3]. rewrite Nat.add_1_r in E3. rewrite E3, E1. done.
Qed.
Lemma queue_at_self_send (acts : nat → nat) (r : nat) (q : BlockingQueue V) :
  (r < w)%nat → Nat.even (acts r) = true → queue_at r acts q → queue_at r (bump acts r) q.
Proof.
  intros Hr He. unfold queue_at, bump. rewrite (decide_False (P := prev r = r)) by (by apply prev_neq).
  rewrite (decide_True (P := r = r)) by done. by rewrite (proj1 (half_even _ He)).
Qed.

Lemma queue_at_push (acts : nat → nat) (r : nat) (q : BlockingQueue V) :
  (r < w)%nat → Nat.even (acts (prev r)) = true → queue_at r acts q →
  queue_at r (bump acts (prev r))
    (queue_push (message (prev r) (acts (prev r) / 2) (lockstep (acts (prev r) / 2) (prev r))) q).
Proof.
  intros Hr He [Hle Hq]. unfold queue_at, bump, queue_push. cbn [bq_items].
  rewrite (decide_False (P := r = prev r)) by (by apply not_eq_sym, prev_neq).
  rewrite decide_True by done. destruct (half_even _ He) as [E1 E2]. rewrite E2 in Hle, Hq.
  assert (Nat.even (S (acts (prev r))) = false) as Ho by (by rewrite Nat.even_succ, <- Nat.negb_even, He).
  destruct (half_odd _ Ho) as [_ E3]. rewrite E3, E1, Hq. split; [lia|].
  replace (S _ - _)%nat with (S (acts (prev r) / 2 - acts r / 2)) by lia.
  rewrite seq_S, fmap_app. cbn [fmap list_fmap]. by replace (acts r / 2 + _)%nat with (acts (prev r) / 2)%nat by lia.
Qed.

Lemma queue_at_pop (acts : nat → nat) (r : nat) (q q' : BlockingQueue V) (m : list V) :
  (r < w)%nat → Nat.even (acts r) = false → queue_at r acts q →
  queue_pop q = Some (m, q') →
  m = message (prev r) (acts r / 2) (lockstep (acts r / 2) (prev r)) ∧
  queue_at r (bump acts r) q'.
Proof.
  intros Hr Ho [Hle Hq] Hpop. unfold queue_pop in Hpop.
  destruct ((acts (prev r) + 1) / 2 - acts r / 2)%nat as [|n] eqn:E.
  - simpl in Hq. by rewrite Hq in Hpop.
  - simpl in Hq. rewrite Hq in Hpop. injection Hpop as <- <-. split; [done|].
    unfold queue_at, bump. cbn [bq_items]. rewrite (decide_False (P := prev r = r)) by (by apply prev_neq).
    rewrite (decide_True (P := r = r)) by done. destruct (half_odd _ Ho) as [E1 _]. rewrite E1.
    split; [lia|]. by replace (_ - S _)%nat with n by lia.
Qed.

Lemma thread_at_send (r a q : nat) (chunk : list V) (k : Proc V (result unit * list V)) :
  (r < w)%nat → (a ≤ 4 * (w - 1))%nat → thread_at r a (Send q chunk k) →
  Nat.even a = true ∧ (a < 4 * (w - 1))%nat ∧ q = r ∧
  chunk = message r (a / 2) (lockstep (a / 2) r) ∧ thread_at r (S a) k.
Proof.
  intros Hr Hb Hat. unfold thread_at in Hat. destruct (Nat.even a) eqn:He.
  - destruct (decide (a < 4 * (w - 1))%nat) as [Hlt|].
    + assert (a / 2 < 2 * (w - 1))%nat as Hk by (apply Nat.Div0.div_lt_upper_bound; lia).
      destruct (rest_round r (a / 2) (lockstep (a / 2) r)) as (g & E & Hg);
        [done|by apply lockstep_length|].
      rewrite E in Hat. injection Hat as -> -> ->. do 4 (split; [done|]).
      unfold thread_at. rewrite Nat.even_succ, <- Nat.negb_even, He. cbn [negb].
      rewrite (proj1 (half_even a He)). exists g. split; [done|].
      rewrite Hg; [done|]. apply message_length, lockstep_length, prev_range.
    + replace a with (2 * (w - 1) * 2)%nat in Hat by lia. rewrite Nat.div_mul in Hat by lia.
      by rewrite rest_done in Hat.
  - by destruct Hat as (g & ? & _).
Qed.

Lemma thread_at_recv (r a q : nat) (k : list V → Proc V (result unit * list V)) :
  (r < w)%nat → (a ≤ 4 * (w - 1))%nat → thread_at r a (Recv q k) →
  Nat.even a = false ∧ (a < 4 * (w - 1))%nat ∧ q = prev r ∧
  thread_at r (S a) (k (message (prev r) (a / 2) (lockstep (a / 2) (prev r)))).
Proof.
  intros Hr Hb Hat. unfold thread_at in Hat. destruct (Nat.even a) eqn:He.
  - destruct (decide (a < 4 * (w - 1))%nat).
    + destruct (rest_round r (a / 2) (lockstep (a / 2) r)) as (g & E & Hg);
        [apply Nat.Div0.div_lt_upper_bound; lia|by apply lockstep_length|].
      by rewrite E in Hat.
    + replace a with (2 * (w - 1) * 2)%nat in Hat by lia. rewrite Nat.div_mul in Hat by lia.
      by rewrite rest_done in Hat.
  - destruct Hat as (g & [= -> ->] & Hg). split; [done|]. split; [|split; [done|]].
    + assert (a ≠ 4 * (w - 1))%nat; [|lia]. intros ->.
      replace (4 * (w - 1))%nat with (2 * (2 * (w - 1)))%nat in He by lia.
      by rewrite Nat.even_mul in He.
    + unfold thread_at. rewrite Nat.even_succ, <- Nat.negb_even, He. cbn [negb].
      by rewrite (proj1 (half_odd a He)).
Qed.

Lemma bump_bound (acts : nat → nat) (r b : nat) : (acts r < b)%nat →
  (∀ r', (r' < w)%nat → (acts r' ≤ b)%nat) → ∀ r', (r' < w)%nat → (bump acts r r' ≤ b)%nat.
Proof. intros Hlt Hb r' Hr'. unfold bump. case_decide; [subst; lia|auto]. Qed.

Lemma bump_thread (acts : nat → nat) (r : nat) (p : Proc V (result unit * list V))
    (ths : list (Proc V (result unit * list V))) :
  thread_at r (S (acts r)) p →
  (∀ r' p, ths !! r' = Some p → thread_at r' (acts r') p) →
  ∀ r' p', <[r:=p]> ths !! r' = Some p' → thread_at r' (bump acts r r') p'.
Proof.
  intros Hp Hths r' p' Hl. unfold bump. apply list_lookup_insert_Some in Hl as [(<- & <- & _)|[Hne Hl]].
  - by rewrite decide_True.
  - rewrite decide_False by done. auto.
Qed.

Lemma ring_inv_step (acts : nat → nat) (s s' : System) : ring_inv acts s → step s s' →
  ∃ r, (r < w)%nat ∧ ring_inv (bump acts r) s'.
Proof.
  intros [Hths Hqs Hb Hat Hq] Hstep.
  destruct Hstep as [ths qs r q chunk k bq Hr Hbq|ths qs r q k bq m bq' Hr Hbq Hpop]; simpl in *;
    pose proof (lookup_lt_Some _ _ _ Hr) as Hlt; rewrite Hths in Hlt.
  - destruct (thread_at_send r (acts r) q chunk k Hlt (Hb r Hlt) (Hat _ _ Hr)) as
      (He & Ha & -> & -> & Hk).
    exists r. split; [done|]. constructor; simpl.
    + by rewrite length_insert.
    + by rewrite length_insert.
    + by apply bump_bound.
    + by apply bump_thread.
    + intros r' q Hr' Hlook. apply list_lookup_insert_Some in Hlook as [(E & <- & _)|[Hne Hlook]].
      * rewrite E in *. apply queue_at_push; auto.
      * destruct (decide (r' = r)) as [->|]; [by apply queue_at_self_send; auto|].
        apply queue_at_other; auto.
  - destruct (thread_at_recv r (acts r) q k Hlt (Hb r Hlt) (Hat _ _ Hr)) as (He & Ha & -> & Hk).
    destruct (queue_at_pop acts r bq bq' m Hlt He (Hq r bq Hlt Hbq) Hpop) as [-> Hq'].
    exists r. split; [done|]. constructor; simpl.
    + by rewrite length_insert.
    + by rewrite length_insert.
    + by apply bump_bound.
    + by apply bump_thread.
    + intros r' q Hr' Hlook. apply list_lookup_insert_Some in Hlook as [(E & <- & _)|[Hne Hlook]].
      * by apply prev_inj in E as <-.
      * destruct (decide (prev r' = r)); [apply queue_at_sender_recv|apply queue_at_other]; auto;
          by intros ->.
Qed.
Lemma total_bump (acts : nat → nat) (r n : nat) :
  sum_list (bump acts r <$> seq 0 n) =
    ((if decide (r < n)%nat then 1 else 0) + sum_list (acts <$> seq 0 n))%nat.
Proof.
  induction n as [|n IH]; [done|]. rewrite !seq_S, !fmap_app, !sum_list_with_app, IH. simpl.
  unfold bump. repeat case_decide; lia.
Qed.

Lemma total_bounds (acts : nat → nat) (b n : nat) :
  ((∀ r, (r < n)%nat → (acts r ≤ b)%nat) → (sum_list (acts <$> seq 0 n) ≤ n * b)%nat ∧
    (sum_list (acts <$> seq 0 n) = (n * b)%nat → ∀ r, (r < n)%nat → acts r = b)) ∧
  ((∀ r, (r < n)%nat → (b ≤ acts r)%nat) → (n * b ≤ sum_list (acts <$> seq 0 n))%nat).
Proof.
  induction n as [|n [IH1 IH2]]; [simpl; split; [split; [lia|intros; lia]|lia]|].
  rewrite seq_S, fmap_app, sum_list_with_app. simpl. split; intros Hb.
  - destruct IH1 as [IH1 IH3]; [intros; apply Hb; lia|].
    pose proof (Hb n ltac:(lia)). split; [lia|]. intros E r Hr.
    destruct (decide (r = n)) as [->|]; [lia|apply IH3; lia].
  - pose proof (Hb n ltac:(lia)). specialize (IH2 ltac:(intros; apply Hb; lia)). lia.
Qed.

Lemma least_index (f : nat → nat) (n : nat) : (0 < n)%nat →
  ∃ r, (r < n)%nat ∧ ∀ r', (r' < n)%nat → (f r ≤ f r')%nat.
Proof.
  induction n as [|[|n] IH]; intros Hn; [lia|exists 0%nat; split; [lia|]; intros r' ?; by replace r' with 0%nat by lia|].
  destruct IH as (r & Hr & Hmin); [lia|].
  destruct (decide (f r ≤ f (S n))%nat).
  - exists r. split; [lia|]. intros r' Hr'. destruct (decide (r' = S n)) as [->|]; [done|apply Hmin; lia].
  - exists (S n). split; [lia|]. intros r' Hr'. destruct (decide (r' = S n)) as [->|]; [done|].
    specialize (Hmin r' ltac:(lia)). lia.
Qed.

(** While an action is left, the rank that is furthest behind can take one. *)
Lemma ring_progress (acts : nat → nat) (s : System) : ring_inv acts s →
  (total_actions acts < w * (4 * (w - 1)))%nat → ∃ s', step s s'.
Proof.
  intros [Hths Hqs Hb Hat Hq] Hlt. destruct s as [ths qs]. simpl in *.
  destruct (least_index acts w ltac:(lia)) as (r & Hr & Hmin).
  assert (acts r < 4 * (w - 1))%nat as Ha.
  { pose proof (proj2 (total_bounds acts (acts r) w) Hmin). unfold total_actions in Hlt. nia. }
  destruct (lookup_lt_is_Some_2 ths r ltac:(lia)) as [p Hp]. specialize (Hat r p Hp).
  unfold thread_at in Hat. destruct (Nat.even (acts r)) eqn:He.
  - destruct (rest_round r (acts r / 2) (lockstep (acts r / 2) r)) as (g & E & Hg);
      [apply Nat.Div0.div_lt_upper_bound; lia|by apply lockstep_length|].
    destruct (lookup_lt_is_Some_2 qs r ltac:(lia)) as [q Hqr].
    eexists. eapply step_send; [by rewrite Hp, Hat, E|done].
  - destruct Hat as (g & -> & _). pose proof (prev_range r) as Hpr.
    destruct (lookup_lt_is_Some_2 qs (prev r) ltac:(lia)) as [q Hqr].
    destruct (Hq r q Hr Hqr) as [_ Hitems].
    assert (acts r / 2 < (acts (prev r) + 1) / 2)%nat as Hsome.
    { pose proof (Hmin (prev r) Hpr). destruct (half_odd _ He) as [_ E].
      assert ((acts r + 1) / 2 ≤ (acts (prev r) + 1) / 2)%nat by (apply Nat.Div0.div_le_mono; lia).
      lia. }
    destruct ((acts (prev r) + 1) / 2 - acts r / 2)%nat as [|n] eqn:En; [lia|]. simpl in Hitems.
    eexists. eapply step_recv; [done|done|]. unfold queue_pop. by rewrite Hitems.
Qed.

Lemma ring_inv_runs (k : nat) (acts : nat → nat) (s s' : System) :
  ring_inv acts s → nsteps step k s s' →
  ∃ acts', ring_inv acts' s' ∧ total_actions acts' = (total_actions acts + k)%nat.
Proof.
  intros Hinv Hsteps. revert acts Hinv. induction Hsteps as [s|k s s1 s2 H1 H2 IH]; intros acts Hinv.
  - exists acts. split; [done|lia].
  - destruct (ring_inv_step acts s s1 Hinv H1) as (r & Hr & Hinv').
    destruct (IH _ Hinv') as (acts' & ? & E). exists acts'. split; [done|]. rewrite E.
    unfold total_actions. rewrite total_bump, decide_True by done. lia.
Qed.

Lemma ring_finished (acts : nat → nat) (s : System) : ring_inv acts s →
  total_actions acts = (w * (4 * (w - 1)))%nat →
  sys_threads s = replicate w (Done (Ok tt, ring_total)).
Proof.
  intros [Hths Hqs Hb Hat Hq] Htot.
  pose proof (proj2 (proj1 (total_bounds acts (4 * (w - 1)) w) Hb) Htot) as Hall.
  apply list_eq_same_length with (n := w); [by rewrite length_replicate|done|].
  intros r p p' Hr Hp Hp'. apply lookup_replicate in Hp' as [-> _].
  specialize (Hat r p Hp). rewrite Hall in Hat by done. unfold thread_at in Hat.
  replace (4 * (w - 1))%nat with (2 * (w - 1) * 2)%nat in Hat by lia.
  rewrite Nat.even_mul, orb_true_r, Nat.div_mul in Hat by lia.
  by rewrite rest_done, lockstep_total in Hat.
Qed.

Lemma ring_rank_rest (r : nat) : (r < w)%nat →
  ring_allreduce_rank add (Z.of_nat r) (Z.of_nat w) (ring_channel r) (ring_channel r) (locals !!! r)
    = rest r 0 (locals !!! r).
Proof.
  intros Hr. pose proof (lockstep_length 0 r Hr) as Hl. simpl in Hl.
  unfold ring_allreduce_rank, rest. unfold mbind, RankM_bind, rank_lift, rank_local.
  rewrite (proj2 (Z.leb_gt (Z.of_nat w) 0)), (proj2 (Z.leb_le 0 (Z.of_nat r))),
    (proj2 (Z.ltb_lt (Z.of_nat r) (Z.of_nat w))) by lia. cbn.
  rewrite Hl, Nat2Z.inj_mul, Z.mul_comm, Z_mod_mult, (proj2 (Z.eqb_neq (Z.of_nat w) 1)) by lia.
  rewrite Z.div_mul by lia. done.
Qed.

Definition ring_start : System :=
  mk_system ((λ r, rest r 0 (locals !!! r)) <$> seq 0 w) (replicate w new_queue).

Lemma ring_start_inv : ring_inv (λ _, 0%nat) ring_start.
Proof.
  constructor; simpl.
  - by rewrite length_fmap, length_seq.
  - by rewrite length_replicate.
  - intros; lia.
  - intros r p Hp. apply list_lookup_fmap_Some in Hp as (r' & -> & Hr').
    by apply lookup_seq in Hr' as [-> _].
  - intros r q Hr [-> _]%lookup_replicate. split; simpl; [lia|done].
Qed.

Lemma ring_start_spec : ring_allreduce_start add locals = Ok ring_start.
Proof.
  destruct (lookup_lt_is_Some_2 locals 0 ltac:(lia)) as [l0 Hl0].
  pose proof (Forall_lookup_1 _ _ _ _ Hlen Hl0) as Hn0. simpl in Hn0.
  unfold ring_allreduce_start, py_index. rewrite Hw, Hl0. cbn [of_option mbind result_bind].
  rewrite (proj2 (Z.leb_gt _ _)) by lia. cbn [negb require mbind result_bind].
  rewrite (proj2 (forallb_forall _ _)).
  2: { intros l Hl%list_elem_of_In. rewrite Forall_forall in Hlen.
       rewrite bool_decide_true; [done|]. by rewrite Hn0, Hlen. }
  cbn [negb require mbind result_bind].
  rewrite Hn0, Nat2Z.inj_mul, Z.mul_comm, Z_mod_mult. cbn [Z.eqb require mbind result_bind].
  unfold make_ring_channels. rewrite (proj2 (Z.leb_gt _ _)) by lia.
  cbn [negb require mbind result_bind].
  erewrite (map_result_ok _ (λ r, rest (Z.to_nat r) 0 (locals !!! Z.to_nat r))).
  - cbn. unfold ring_start. do 2 f_equal.
    + unfold zrange. rewrite Nat2Z.id, <- list_fmap_compose. apply list_fmap_ext.
      intros ? r _. simpl. by rewrite Nat2Z.id.
    + unfold zrange. rewrite Nat2Z.id. clear. induction w as [|n IH]; [done|].
      rewrite seq_S, !fmap_app, IH. simpl. by rewrite <- replicate_cons_app.
  - intros r [Hr0 Hr1]%elem_of_zrange.
    destruct (lookup_lt_is_Some_2 locals (Z.to_nat r) ltac:(lia)) as [l Hl].
    rewrite Hl. cbn [of_option mbind result_bind]. rewrite list_lookup_fmap.
    unfold zrange. rewrite list_lookup_fmap, lookup_seq_lt by lia.
    cbn [fmap option_fmap option_map of_option mbind result_bind]. f_equal.
    rewrite <- (ring_rank_rest (Z.to_nat r)) by lia.
    rewrite (list_lookup_total_correct _ _ _ Hl). unfold ring_channel, prev. simpl.
    by rewrite !Nat2Z.id, Z2Nat.id by lia.
Qed.
End ring.

(** ** The sum of all ranks *)
Section sums.
Context {V : Type} `{Inhabited V} (add : V → V → V) (zero : V).
Context (Hcomm : ∀ x y, add x y = add y x) (Hassoc : ∀ x y z, add x (add y z) = add (add x y) z).
Context (Hzero : ∀ x, add zero x = x).
#[local] Set Default Proof Using "All".

Lemma chain_sum_foldr (x : nat → V) (m : nat) :
  chain_sum add x m = foldr add zero (reverse (x <$> seq 0 (S m))).
Proof.
  induction m as [|m IH]; [change (x O = add (x O) zero); by rewrite Hcomm, Hzero|].
  rewrite (seq_S (S m)), fmap_app, reverse_app. cbn [chain_sum]. by rewrite IH.
Qed.

Lemma foldr_add_perm (l k : list V) : l ≡ₚ k → foldr add zero l = foldr add zero k.
Proof.
  induction 1 as [| |x y l|l1 l2 l3 _ IH1 _ IH2]; simpl; [done|congruence| |congruence].
  by rewrite !Hassoc, (Hcomm x y).
Qed.

Lemma rotation_perm (c w : nat) : (0 < w)%nat →
  (λ m, (c + m) `mod` w)%nat <$> seq 0 w ≡ₚ seq 0 w.
Proof.
  intros Hw.
  assert (∀ x m, (x < w)%nat → (m < w)%nat →
    Z.of_nat x = (Z.of_nat c - - Z.of_nat m) `mod` Z.of_nat w →
    Z.of_nat m = (Z.of_nat x - Z.of_nat c) `mod` Z.of_nat w) as Hinv.
  { intros x m Hx Hm ->. rewrite Zminus_mod_idemp_l. symmetry.
    replace (_ - _ - _) with (Z.of_nat m) by lia. apply Z.mod_small. lia. }
  assert (∀ m, Z.of_nat ((c + m) `mod` w) = (Z.of_nat c - - Z.of_nat m) `mod` Z.of_nat w) as Heq.
  { intros m. rewrite Nat2Z.inj_mod. f_equal. lia. }
  apply NoDup_Permutation.
  - apply NoDup_fmap_2_strong; [|apply NoDup_seq].
    intros m m' Hm%elem_of_seq Hm'%elem_of_seq E.
    pose proof (Nat.mod_upper_bound (c + m) w ltac:(lia)) as Hb. cbn beta in E.
    pose proof (Hinv _ m Hb ltac:(lia) (Heq m)) as Em. rewrite E in Em, Hb.
    pose proof (Hinv _ m' Hb ltac:(lia) (Heq m')) as Em'. lia.
  - apply NoDup_seq.
  - intros x. rewrite list_elem_of_fmap, elem_of_seq. split.
    + intros (m & -> & _). pose proof (Nat.mod_upper_bound (c + m) w ltac:(lia)). lia.
    + intros Hx. exists (Z.to_nat ((Z.of_nat x - Z.of_nat c) `mod` Z.of_nat w)).
      pose proof (Z.mod_pos_bound (Z.of_nat x - Z.of_nat c) (Z.of_nat w)). rewrite elem_of_seq.
      split; [|lia]. apply Nat2Z.inj. rewrite Heq, Z2Nat.id by lia.
      replace (Z.of_nat c - - _) with
        ((Z.of_nat x - Z.of_nat c) `mod` Z.of_nat w + Z.of_nat c) by lia.
      rewrite Zplus_mod_idemp_l. rewrite Z.mod_small; lia.
Qed.

(** In exact arithmetic the order of the ring does not matter. *)
Lemma ring_chain_sum (locals : list (list V)) (w ck i : nat) : (0 < w)%nat →
  ring_chain add locals w ck i (w - 1) =
    foldr add zero ((λ r, element locals r i) <$> seq 0 w).
Proof.
  intros Hw. unfold ring_chain. rewrite chain_sum_foldr.
  replace (S (w - 1)) with w by lia.
  apply foldr_add_perm. rewrite reverse_Permutation.
  rewrite <- (rotation_perm (i `div` ck) w Hw) at 2. by rewrite <- list_fmap_compose.
Qed.
End sums.

(** ** The all-reduce *)

(** What [ring_allreduce] checks before it starts the threads. *)
Lemma ring_start_ok {V} `{Inhabited V} (add : V → V → V) (locals : list (list V)) (s0 : System) :
  ring_allreduce_start add locals = Ok s0 →
  let w := length locals in
  let ck := (length (locals !!! 0%nat) / w)%nat in
  (0 < w)%nat ∧ Forall (λ l, length l = (w * ck)%nat) locals.
Proof.
  intros Hok w ck. unfold ring_allreduce_start, py_index in Hok.
  destruct locals as [|l0 ls]; [done|]. split; [simpl in w; lia|].
  rewrite (proj2 (Z.leb_gt (Z.of_nat (length (l0 :: ls))) 0)) in Hok by (simpl; lia).
  cbn [negb require mbind result_bind of_option lookup list_lookup] in Hok.
  destruct (forallb _ (l0 :: ls)) eqn:Hall; [|done].
  cbn [negb require mbind result_bind] in Hok.
  destruct (_ `mod` _ =? 0) eqn:Hmod; [|done]. clear Hok.
  fold w in Hmod. apply Z.eqb_eq in Hmod. rewrite <- Nat2Z.inj_mod in Hmod.
  assert (length l0 = (w * ck)%nat) as E.
  { assert (w ≠ 0)%nat as Hw by done. pose proof (Nat.div_mod (length l0) w Hw). change ck with (length l0 / w)%nat. lia. }
  apply Forall_forall. intros l Hl. rewrite forallb_forall in Hall.
  specialize (Hall l (proj1 (list_elem_of_In _ _) Hl)). apply bool_decide_eq_true in Hall. lia.
Qed.

Lemma joined_replicate {V} (n : nat) (l : list V) (qs : list (BlockingQueue V)) :
  joined (mk_system (replicate n (Done (Ok tt, l))) qs) = Some (replicate n l).
Proof.
  unfold joined. simpl. apply mapM_Some_2. induction n; simpl; constructor; auto.
Qed.

(** A ring of one rank has nothing to exchange. *)
Lemma ring_alone {V} `{Inhabited V} (add : V → V → V) (l : list V) (s0 : System) :
  ring_allreduce_start add [l] = Ok s0 →
  sys_threads s0 = [Done (Ok tt, ring_total add [l] 1 (length l))].
Proof.
  unfold ring_allreduce_start, py_index. cbn. rewrite bool_decide_true, Z.mod_1_r by done. cbn.
  intros [= <-]. cbn. unfold ring_allreduce_rank, mbind, RankM_bind, rank_lift, rank_local. cbn.
  rewrite Z.mod_1_r. cbn. unfold mret, RankM_ret. do 3 f_equal.
  unfold ring_total, ring_chain, element. simpl. rewrite Nat.add_0_r. apply list_eq_same_length with (n := length l); [|done|].
  - by rewrite length_fmap, length_seq.
  - intros i x y Hi Hx. rewrite list_lookup_fmap, lookup_seq_lt by done. simpl.
    intros [= <-]. change (_ `mod` 1)%nat with 0%nat. simpl.
    symmetry. by apply list_lookup_total_correct.
Qed.

Lemma done_no_step {V} (s s' : @System V) (l : list V) (n : nat) :
  sys_threads s = replicate n (Done (Ok tt, l)) → ¬ step s s'.
Proof.
  intros E Hs. destruct Hs as [ths qs r q chunk k bq Hr _|ths qs r q k bq m bq' Hr _ _];
    simpl in E; rewrite E in Hr; by apply lookup_replicate in Hr as [? _].
Qed.

(** C5. [ring_allreduce] under every interleaving of its threads, whatever the
    addition: once the threads run, at most [4 w (w - 1)] steps are possible,
    before that some thread can always move, and at the end no thread has
    raised and all ranks return the same array, whose element [i] is
    accumulated around the ring from the rank [i / (n / w)] on; if addition is
    commutative and associative this is the sum over the ranks. *)
Theorem ring_allreduce_correct {V} `{Inhabited V} (add : V → V → V) (locals : list (list V))
    (s0 : System) :
  ring_allreduce_start add locals = Ok s0 →
  let w := length locals in
  let ck := (length (locals !!! 0%nat) / w)%nat in
  let total := ring_total add locals w ck in
  (∀ k s, nsteps step k s0 s →
    (k ≤ w * (4 * (w - 1)))%nat ∧
    ((k < w * (4 * (w - 1)))%nat → ∃ s', step s s') ∧
    (k = (w * (4 * (w - 1)))%nat →
      sys_threads s = replicate w (Done (Ok tt, total)) ∧
      joined s = Some (replicate w total) ∧ ∀ s', ¬ step s s')) ∧
  (∀ zero, (∀ x y, add x y = add y x) → (∀ x y z, add x (add y z) = add (add x y) z) →
    (∀ x, add zero x = x) →
    total = (λ i, foldr add zero ((λ r, element locals r i) <$> seq 0 w)) <$> seq 0 (w * ck)).
Proof.
  intros Hok w ck total. destruct (ring_start_ok add locals s0 Hok) as [Hpos Hlen].
  fold w ck in Hpos, Hlen. split.
  2: { intros zero Hc Ha Hz. apply list_fmap_ext. intros ? i _. by apply ring_chain_sum. }
  assert (∀ s, sys_threads s = replicate w (Done (Ok tt, total)) →
    joined s = Some (replicate w total) ∧ ∀ s', ¬ step s s') as Hend.
  { intros [ths qs] E. simpl in E. subst ths. split; [apply joined_replicate|].
    intros s'. by eapply done_no_step. }
  intros k s Hrun. destruct (decide (w = 1)%nat) as [E1|Hne].
  - destruct locals as [|l [|]]; try done. subst w. cbn [length] in *.
    assert (sys_threads s0 = replicate 1 (Done (Ok tt, total))) as Hth.
    { rewrite (ring_alone add l s0 Hok). unfold total. replace ck with (length l); [done|].
      symmetry. apply Nat.div_1_r. }
    destruct Hrun as [s|k s s1 s2 Hs _].
    + split; [lia|]. split; [lia|]. intros _. auto.
    + by eapply done_no_step in Hs.
  - assert (1 < w)%nat as Hw by lia.
    rewrite (ring_start_spec add locals w ck eq_refl Hlen Hw) in Hok. injection Hok as <-.
    destruct (ring_inv_runs add locals w ck eq_refl Hlen Hw k _ _ s
      (ring_start_inv add locals w ck eq_refl Hlen Hw) Hrun) as (acts & Hinv & Htot).
    assert (total_actions w acts = k) as Hk.
    { rewrite Htot. unfold total_actions. assert (sum_list ((λ _, 0%nat) <$> seq 0 w) = 0)%nat; [|lia].
      clear. induction (seq 0 w); simpl; auto. }
    split; [|split].
    + rewrite <- Hk. apply (total_bounds add locals w ck eq_refl Hlen Hw acts).
      eapply ri_bound, Hinv.
    + intros Hlt. eapply (ring_progress add locals w ck eq_refl Hlen Hw acts); [done|lia].
    + intros ->. assert (sys_threads s = replicate w (Done (Ok tt, total))) as E; [|by auto].
      by eapply (ring_finished add locals w ck eq_refl Hlen Hw acts).
Qed.

Definition ex_locals : list (list Z) := [[1; 2; 3; 4]; [10; 20; 30; 40]].

(** Two ranks with four elements: eight steps in any order. *)
Example ring_allreduce_correct_witness :
  ∃ s0, ring_allreduce_start Z.add ex_locals = Ok s0 ∧
    ∀ s, nsteps step 8 s0 s → joined s = Some [[11; 22; 33; 44]; [11; 22; 33; 44]].
Proof.
  eexists. split; [reflexivity|]. intros s Hs.
  by apply (ring_allreduce_correct Z.add ex_locals _ eq_refl) in Hs as (_ & _ & (_ & -> & _)).
Defined.
