(* ===== verification/HostStream.v ===== *)
(** * Host streams (_fallback.py: Stream, OverlapExecutor)

    A stream is a queue of tasks and one worker thread.  Its operations and the
    critical sections of the worker are events; a history of a stream is a
    sequence of events in any order its state allows.  Then the executor that
    overlaps computation and communication on two streams. *)

From S2P Require Import Prelude.
Local Open Scope Z_scope.

(** ** Streams *)
Section stream.
Context {T : Type}.

(** Where the worker thread is: before its first critical section of a round,
    in the task, holding an exception it has not recorded yet, about to publish
    the completion, or returned. *)
Inductive Worker : Type :=
  | Waiting
  | Running (task : T)
  | Raised (e : exn)
  | Completing
  | Exited.

Record Stream : Type := mk_stream {
  st_queue : list T;
  st_outstanding : Z;
  st_total : Z;
  st_failure : option exn;
  st_stop : bool;
  st_worker : Worker
}.

Definition new_stream : Stream := mk_stream [] 0 0 None false Waiting.

Definition with_worker (w : Worker) (s : Stream) : Stream :=
  mk_stream (st_queue s) (st_outstanding s) (st_total s) (st_failure s) (st_stop s) w.

Definition submit (task : T) (s : Stream) : Stream :=
  mk_stream (st_queue s ++ [task]) (st_outstanding s + 1) (st_total s + 1)
    (st_failure s) (st_stop s) (st_worker s).

(** [None]: the caller blocks.  [Some failure]: the exception to raise. *)
Definition wait (s : Stream) : option (option exn * Stream) :=
  if st_outstanding s =? 0 then
    Some (st_failure s, mk_stream (st_queue s) (st_outstanding s) (st_total s) None
                          (st_stop s) (st_worker s))
  else None.

Definition submitted (s : Stream) : Z := st_total s.

(** [close] up to [join], and whether it joins. *)
Definition close (s : Stream) : bool * Stream :=
  if st_stop s then (false, s)
  else (true, mk_stream (st_queue s) (st_outstanding s) (st_total s) (st_failure s) true
                (st_worker s)).

(** The worker's wait for a task. *)
Definition loop_take (s : Stream) : option Stream :=
  match st_worker s with
  | Waiting =>
      match st_queue s with
      | [] => if st_stop s then Some (with_worker Exited s) else None
      | task :: queue =>
          Some (mk_stream queue (st_outstanding s) (st_total s) (st_failure s) (st_stop s)
                  (Running task))
      end
  | _ => None
  end.

(** [task()] returns or raises. *)
Definition loop_ran (r : result unit) (s : Stream) : option Stream :=
  match st_worker s with
  | Running _ => Some (with_worker (match r with Ok _ => Completing | Err e => Raised e end) s)
  | _ => None
  end.

Definition loop_record (s : Stream) : option Stream :=
  match st_worker s with
  | Raised e =>
      Some (mk_stream (st_queue s) (st_outstanding s) (st_total s)
              (match st_failure s with None => Some e | Some f => Some f end)
              (st_stop s) Completing)
  | _ => None
  end.

Definition loop_complete (s : Stream) : option Stream :=
  match st_worker s with
  | Completing =>
      Some (mk_stream (st_queue s) (st_outstanding s - 1) (st_total s) (st_failure s)
              (st_stop s) Waiting)
  | _ => None
  end.

(** ** Histories *)
Inductive Event : Type :=
  | Submitted (task : T)
  | Waited (failure : option exn)
  | Closed
  | Took
  | Ran (task : T) (r : result unit)
  | Recorded
  | Completed.

Inductive stream_step : Event → Stream → Stream → Prop :=
  | step_submit task s : stream_step (Submitted task) s (submit task s)
  | step_wait f s s' : wait s = Some (f, s') → stream_step (Waited f) s s'
  | step_close s : stream_step Closed s (close s).2
  | step_take s s' : loop_take s = Some s' → stream_step Took s s'
  | step_ran task r s s' :
      st_worker s = Running task → loop_ran r s = Some s' → stream_step (Ran task r) s s'
  | step_record s s' : loop_record s = Some s' → stream_step Recorded s s'
  | step_complete s s' : loop_complete s = Some s' → stream_step Completed s s'.

(** Histories, latest event first. *)
Inductive history : list Event → Stream → Prop :=
  | history_nil : history [] new_stream
  | history_cons ev evs s s' : history evs s → stream_step ev s s' → history (ev :: evs) s'.

Fixpoint submitted_tasks (evs : list Event) : list T :=
  match evs with
  | [] => []
  | Submitted task :: evs => submitted_tasks evs ++ [task]
  | _ :: evs => submitted_tasks evs
  end.

Fixpoint finished_tasks (evs : list Event) : list T :=
  match evs with
  | [] => []
  | Ran task _ :: evs => finished_tasks evs ++ [task]
  | _ :: evs => finished_tasks evs
  end.

(** The first exception of a task since the last [wait] that returned. *)
Fixpoint first_failure (evs : list Event) : option exn :=
  match evs with
  | [] => None
  | Waited _ :: _ => None
  | Ran _ (Err e) :: evs =>
      match first_failure evs with None => Some e | Some f => Some f end
  | _ :: evs => first_failure evs
  end.

(** The task in the worker's hands, and how many completions are due. *)
Definition in_flight (s : Stream) : list T :=
  match st_worker s with Running task => [task] | _ => [] end.
Definition held (s : Stream) : Z :=
  match st_worker s with Running _ | Raised _ | Completing => 1 | _ => 0 end.
(** The exception [wait] would raise once the worker has recorded its own. *)
Definition due_failure (s : Stream) : option exn :=
  match st_failure s, st_worker s with
  | None, Raised e => Some e
  | f, _ => f
  end.

Record stream_inv (evs : list Event) (s : Stream) : Prop := {
  si_order : submitted_tasks evs = finished_tasks evs ++ in_flight s ++ st_queue s;
  si_outstanding : st_outstanding s = held s + Z.of_nat (length (st_queue s));
  si_total : st_total s = Z.of_nat (length (submitted_tasks evs));
  si_failure : due_failure s = first_failure evs;
  si_exited : st_worker s = Exited → st_stop s = true
}.

Lemma stream_step_inv ev evs s s' :
  stream_inv evs s → stream_step ev s s' → stream_inv (ev :: evs) s'.
Proof.
  intros [Ho Hn Ht Hf He] Hs.
  destruct Hs as [task s|f s s' Hw|s|s s' Hw|task r s s' Hrun Hw|s s' Hw|s s' Hw];
    unfold wait, loop_take, loop_ran, loop_record, loop_complete, with_worker, close in *;
    destruct s as [q n t fl stop w]; unfold in_flight, held, due_failure in *; simpl in *.
  - constructor; simpl; unfold in_flight, held, due_failure; simpl;
      rewrite ?length_app; simpl; [by rewrite Ho, !(assoc_L (++))|lia|lia|done|done].
  - destruct (n =? 0) eqn:E; [|done]. injection Hw as <- <-. apply Z.eqb_eq in E.
    constructor; unfold in_flight, held, due_failure; simpl; try done.
    destruct w; try done. lia.
  - destruct stop; constructor; unfold in_flight, held, due_failure; simpl; auto.
  - destruct w; try done. destruct q as [|task q]; [destruct stop|]; simplify_eq;
      constructor; unfold in_flight, held, due_failure; simpl in *; try done; lia.
  - destruct w; simplify_eq.
    destruct r as [[]|e]; constructor; unfold in_flight, held, due_failure; simpl in *;
      rewrite <- ?(assoc_L (++)); try done.
    by destruct fl, (first_failure evs); simplify_eq.
  - destruct w; simplify_eq. constructor; unfold in_flight, held, due_failure; simpl in *; try done.
    by destruct fl.
  - destruct w; simplify_eq. constructor; unfold in_flight, held, due_failure; simpl in *; try done; lia.
Qed.

Lemma history_inv evs s : history evs s → stream_inv evs s.
Proof.
  induction 1 as [|ev evs s s' _ IH Hs]; [by constructor|]. by eapply stream_step_inv.
Qed.

Lemma history_suffix evs evs' s : history (evs' ++ evs) s → ∃ s0, history evs s0.
Proof.
  revert s. induction evs' as [|ev evs' IH]; intros s Hh; [by exists s|].
  inversion Hh; subst. eauto.
Qed.
End stream.
Arguments Worker : clear implicits.
Arguments Stream : clear implicits.
Arguments Event : clear implicits.

(** The events of the worker thread. *)
Definition worker_event {T} (ev : Event T) : bool :=
  match ev with Took | Ran _ _ | Recorded | Completed => true | _ => false end.

(** What the worker still has to do, in critical sections. *)
Definition work {T} (s : Stream T) : nat :=
  4 * length (st_queue s) +
  match st_worker s with
  | Waiting => 1 | Running _ => 4 | Raised _ => 3 | Completing => 2 | Exited => 0
  end.

Lemma worker_event_work {T} (ev : Event T) (s s' : Stream T) :
  stream_step ev s s' → worker_event ev = true → (work s' < work s)%nat.
Proof.
  intros Hs He.
  destruct Hs as [task s|f s s' H|s|s s' H|task r s s' Hrun H|s s' H|s s' H]; try done;
    unfold loop_take, loop_ran, loop_record, loop_complete, with_worker, work in *;
    destruct s as [q n t fl stop []]; simpl in *; try done.
  - destruct q; [destruct stop|]; simplify_eq; simpl; lia.
  - injection H as <-. simpl. destruct r; lia.
  - injection H as <-. simpl. lia.
  - injection H as <-. simpl. lia.
Qed.

(** A closed stream whose worker has returned keeps a submitted task forever. *)
Lemma exited_step {T} (ev : Event T) (s s' : Stream T) :
  st_worker s = Exited → 0 < st_outstanding s → stream_step ev s s' →
  st_worker s' = Exited ∧ 0 < st_outstanding s'.
Proof.
  intros Hw Hn Hs.
  destruct Hs as [task s|f s s' H|s|s s' H|task r s s' Hrun H|s s' H|s s' H];
    unfold wait, loop_take, loop_ran, loop_record, loop_complete in *; rewrite ?Hw in *; try done.
  - simpl. split; [done|lia].
  - by rewrite (proj2 (Z.eqb_neq (st_outstanding s) 0)) in H by lia.
  - unfold close. destruct (st_stop s); done.
Qed.

Definition any_step {T} (s s' : Stream T) : Prop := ∃ ev, stream_step ev s s'.

Lemma exited_stuck {T} (s s' : Stream T) :
  st_worker s = Exited → 0 < st_outstanding s → rtc any_step s s' → wait s' = None.
Proof.
  intros Hw Hn Hr. induction Hr as [s|s s1 s2 [ev Hs] _ IH].
  - unfold wait. by rewrite (proj2 (Z.eqb_neq (st_outstanding s) 0)) by lia.
  - destruct (exited_step ev s s1 Hw Hn Hs). auto.
Qed.

Lemma wait_returns {T} (evs : list (Event T)) (s s' : Stream T) (f : option exn) :
  stream_inv evs s → wait s = Some (f, s') →
  finished_tasks evs = submitted_tasks evs ∧ f = first_failure evs ∧ st_queue s = [].
Proof.
  intros [Ho Hn Ht Hf He] Hw. unfold wait in Hw. destruct (st_outstanding s =? 0) eqn:E; [|done].
  apply Z.eqb_eq in E. injection Hw as <- _.
  assert (0 ≤ held s ≤ 1) as Hheld by (unfold held; destruct (st_worker s); lia).
  assert (held s = 0 ∧ length (st_queue s) = 0%nat) as [Hh0 Hq%nil_length_inv] by lia.
  rewrite Ho, Hq, <- Hf. unfold in_flight, due_failure, held in *.
  destruct (st_worker s); try done; rewrite !app_nil_r; by destruct (st_failure s).
Qed.

(** While [wait] blocks the worker has something to do. *)
Lemma wait_blocks {T} (evs : list (Event T)) (s : Stream T) :
  stream_inv evs s → wait s = None → st_worker s ≠ Exited →
  ∃ ev s', worker_event ev = true ∧ stream_step ev s s'.
Proof.
  intros [Ho Hn Ht Hf He] Hw Hx. unfold wait in Hw. destruct (st_outstanding s =? 0) eqn:E; [done|].
  apply Z.eqb_neq in E. destruct s as [q n t fl stop w]. simpl in *.
  destruct w as [|task|e| |]; unfold held in *; simpl in *; [|..|done].
  - destruct q as [|task q]; [simpl in *; lia|]. exists Took. eexists. split; [done|].
    by apply step_take.
  - exists (Ran task (Ok tt)). eexists. split; [done|]. by apply step_ran.
  - exists Recorded. eexists. split; [done|]. by apply step_record.
  - exists Completed. eexists. split; [done|]. by apply step_complete.
Qed.

(** C35. Over every history, a stream runs its tasks one at a time in the order
    they were submitted.  A [wait] that returns does so when every task
    submitted before has finished, and raises the first exception of a task
    since the last [wait] returned, if there is one.  While [wait] blocks, the
    worker can go on unless it has returned, and every section it executes
    brings the return of [wait] closer.  The worker returns only after [close];
    no [wait] returns any more after a task is submitted to it then. *)
Theorem stream_in_order {T} (evs : list (Event T)) (s : Stream T) :
  history evs s →
  submitted_tasks evs = finished_tasks evs ++ in_flight s ++ st_queue s ∧
  submitted s = Z.of_nat (length (submitted_tasks evs)) ∧
  (∀ f s', wait s = Some (f, s') →
    finished_tasks evs = submitted_tasks evs ∧ f = first_failure evs) ∧
  (wait s = None → st_worker s ≠ Exited →
    ∃ ev s', worker_event ev = true ∧ stream_step ev s s') ∧
  (∀ ev s', stream_step ev s s' → worker_event ev = true → (work s' < work s)%nat) ∧
  (st_worker s = Exited → st_stop s = true ∧
    ∀ task s', rtc any_step (submit task s) s' → wait s' = None).
Proof.
  intros Hh. pose proof (history_inv evs s Hh) as Hi. split; [apply Hi|]. split; [apply Hi|].
  split; [|split; [by eapply wait_blocks|split]].
  - intros f s' Hw. by destruct (wait_returns evs s s' f Hi Hw) as (? & ? & _).
  - intros ev s'. apply worker_event_work.
  - intros Hx. split; [by eapply si_exited|]. intros task s'. apply exited_stuck; [done|]. simpl.
    destruct Hi as [_ -> _ _ _]. unfold held. destruct (st_worker s); lia.
Qed.

(** Two tasks, the first of which raises. *)
Definition ex_history : list (Event Z) :=
  [Completed; Ran 8 (Ok tt); Took; Completed; Recorded; Ran 7 (Err (ValueError "seven"));
   Submitted 8; Took; Submitted 7].

Lemma ex_history_ok : ∃ s, history ex_history s ∧ ∃ s', wait s = Some (Some (ValueError "seven"), s').
Proof.
  eexists. split.
  - unfold ex_history. repeat eapply history_cons. 1: constructor.
    all: first [ apply step_submit | apply step_take; reflexivity | apply step_ran; reflexivity
      | apply step_record; reflexivity | apply step_complete; reflexivity ].
  - eexists. reflexivity.
Defined.

Example stream_in_order_witness :
  finished_tasks ex_history = [7; 8] ∧ first_failure ex_history = Some (ValueError "seven").
Proof.
  destruct ex_history_ok as (s & Hh & s' & Hw).
  destruct (stream_in_order ex_history s Hh) as (_ & _ & Hwait & _).
  destruct (Hwait _ _ Hw) as [-> <-]. done.
Defined.

(** ** Tasks on a memory

    A function that takes a stream changes memory at once if there is none, and
    submits its tasks otherwise. *)
Definition run_or_submit {Mem} (stream : option (Stream (Mem → Mem)))
    (tasks : list (Mem → Mem)) (m : Mem) : Mem * option (Stream (Mem → Mem)) :=
  match stream with
  | None => (foldl (λ m task, task m) m tasks, None)
  | Some s => (m, Some (foldl (λ s task, submit task s) s tasks))
  end.
