(* ===== verification/Overlap.v ===== *)
(** * Overlapping compute and communication (_fallback.py: OverlapExecutor)

    [run] submits a compute and a comm task per iteration to two streams; the
    comm task waits for the future its compute task fulfils.  The calling
    thread and the two workers take steps in any order. *)

From S2P Require Import Prelude HostStream.
Local Open Scope Z_scope.

Section overlap.
Context {V : Type} (compute : Z → result V) (comm_fn : Z → V → result unit) (iters : Z).

(** [do_compute] and [do_comm] with the iteration they captured. *)
Inductive Job : Type :=
  | DoCompute (i : Z)
  | DoComm (i : Z).

Record Result : Type := mk_result {
  compute_count : Z;
  comm_count : Z
}.

(** Where [run] is: in its loop, between the two calls of [submit], at either
    [wait], returned. *)
Inductive Main : Type :=
  | Looping (todo : list Z)
  | SubmitComm (i : Z) (todo : list Z)
  | WaitCompute
  | WaitComm (failure : option exn)
  | Finished (r : result Result).

(** [calls] records the calls of [comm_fn]. *)
Record Overlap : Type := mk_overlap {
  ov_main : Main;
  ov_compute : Stream Job;
  ov_comm : Stream Job;
  ov_futures : gmap Z (result V);
  ov_calls : list (Z * V)
}.

Definition overlap_start : Overlap :=
  mk_overlap (Looping (zrange iters)) new_stream new_stream ∅ [].

(** What a job returns; a comm job whose future is not set blocks. *)
Definition job_outcome (futures : gmap Z (result V)) (job : Job) : option (result unit) :=
  match job with
  | DoCompute i => Some (_ ← compute i; Ok tt)
  | DoComm i => r ← futures !! i; Some (v ← r; comm_fn i v)
  end.
Definition job_futures (job : Job) (futures : gmap Z (result V)) : gmap Z (result V) :=
  match job with DoCompute i => <[i := compute i]> futures | DoComm _ => futures end.
Definition job_calls (futures : gmap Z (result V)) (job : Job) : list (Z * V) :=
  match job with
  | DoComm i => match futures !! i with Some (Ok v) => [(i, v)] | _ => [] end
  | DoCompute _ => []
  end.

(** [failure]: the first exception of the two waits. *)
Definition overlap_return (failure : option exn) : result Result :=
  match failure with Some e => Err e | None => Ok (mk_result iters iters) end.

(** A section of a worker that does not run a job. *)
Definition quiet {T} (ev : Event T) : bool :=
  match ev with Took | Recorded | Completed => true | _ => false end.

Inductive overlap_step : Overlap → Overlap → Prop :=
  | ov_submit_compute i todo cs ms fs cl :
      overlap_step (mk_overlap (Looping (i :: todo)) cs ms fs cl)
        (mk_overlap (SubmitComm i todo) (submit (DoCompute i) cs) ms fs cl)
  | ov_submit_comm i todo cs ms fs cl :
      overlap_step (mk_overlap (SubmitComm i todo) cs ms fs cl)
        (mk_overlap (Looping todo) cs (submit (DoComm i) ms) fs cl)
  | ov_loop_end cs ms fs cl :
      overlap_step (mk_overlap (Looping []) cs ms fs cl) (mk_overlap WaitCompute cs ms fs cl)
  | ov_wait_compute f cs cs' ms fs cl :
      wait cs = Some (f, cs') →
      overlap_step (mk_overlap WaitCompute cs ms fs cl) (mk_overlap (WaitComm f) cs' ms fs cl)
  | ov_wait_comm f g cs ms ms' fs cl :
      wait ms = Some (g, ms') →
      overlap_step (mk_overlap (WaitComm f) cs ms fs cl)
        (mk_overlap (Finished (overlap_return (match f with Some e => Some e | None => g end)))
           cs ms' fs cl)
  | ov_compute_quiet m ev cs cs' ms fs cl :
      stream_step ev cs cs' → quiet ev = true →
      overlap_step (mk_overlap m cs ms fs cl) (mk_overlap m cs' ms fs cl)
  | ov_comm_quiet m ev cs ms ms' fs cl :
      stream_step ev ms ms' → quiet ev = true →
      overlap_step (mk_overlap m cs ms fs cl) (mk_overlap m cs ms' fs cl)
  | ov_compute_ran m job r cs cs' ms fs cl :
      stream_step (Ran job r) cs cs' → job_outcome fs job = Some r →
      overlap_step (mk_overlap m cs ms fs cl)
        (mk_overlap m cs' ms (job_futures job fs) (cl ++ job_calls fs job))
  | ov_comm_ran m job r cs ms ms' fs cl :
      stream_step (Ran job r) ms ms' → job_outcome fs job = Some r →
      overlap_step (mk_overlap m cs ms fs cl)
        (mk_overlap m cs ms' (job_futures job fs) (cl ++ job_calls fs job)).

(** ** What [run] should do *)
Definition compute_outcome (i : Z) : result unit := _ ← compute i; Ok tt.
Definition comm_outcome (i : Z) : result unit := v ← compute i; comm_fn i v.

Fixpoint first_error (outcome : Z → result unit) (todo : list Z) : option exn :=
  match todo with
  | [] => None
  | i :: todo => match outcome i with Ok _ => first_error outcome todo | Err e => Some e end
  end.

(** The call made for an iteration whose value was computed. *)
Definition expected_call (i : Z) : list (Z * V) :=
  match compute i with Ok v => [(i, v)] | Err _ => [] end.

Definition expected_result : result Result :=
  overlap_return
    (match first_error compute_outcome (zrange iters) with
     | Some e => Some e
     | None => first_error comm_outcome (zrange iters)
     end).

Lemma first_error_snoc (outcome : Z → result unit) (todo : list Z) (i : Z) :
  first_error outcome (todo ++ [i]) =
    match first_error outcome todo with
    | Some e => Some e
    | None => match outcome i with Err e => Some e | Ok _ => None end
    end.
Proof. induction todo as [|j todo IH]; simpl; [done|]. by destruct (outcome j). Qed.

(** ** One stream of jobs

    A stream that only ran jobs [mk i], with the outcomes [outcome i], and on
    which nobody waited. *)
Record stream_of (mk : Z → Job) (outcome : Z → result unit) (sub fin : list Z)
    (s : Stream Job) (evs : list (Event Job)) : Prop := {
  so_inv : stream_inv evs s;
  so_submitted : submitted_tasks evs = mk <$> sub;
  so_finished : finished_tasks evs = mk <$> fin;
  so_failure : first_failure evs = first_error outcome fin;
  so_open : st_stop s = false
}.

Context (mk : Z → Job) (outcome : Z → result unit).
#[local] Hint Resolve stream_step_inv : core.

Lemma stream_of_submit sub fin s evs (i : Z) : stream_of mk outcome sub fin s evs →
  stream_of mk outcome (sub ++ [i]) fin (submit (mk i) s) (Submitted (mk i) :: evs).
Proof.
  intros [Hi Hs Hf He Ho]. constructor; simpl; try done.
  - eapply stream_step_inv; [done|constructor].
  - by rewrite Hs, fmap_app.
Qed.

Lemma stream_of_quiet sub fin s s' evs ev : stream_of mk outcome sub fin s evs →
  stream_step ev s s' → quiet ev = true → stream_of mk outcome sub fin s' (ev :: evs).
Proof.
  intros [Hi Hs Hf He Ho] Hst Hq.
  assert (submitted_tasks (ev :: evs) = submitted_tasks evs ∧
    finished_tasks (ev :: evs) = finished_tasks evs ∧
    first_failure (ev :: evs) = first_failure evs) as (E1 & E2 & E3) by by destruct ev.
  constructor; rewrite ?E1, ?E2, ?E3; eauto.
  destruct Hst as [| | |s s' H|task r s s' Hrun H|s s' H|s s' H]; try done;
    unfold loop_take, loop_ran, loop_record, loop_complete, with_worker in H;
    destruct (st_worker s); simplify_eq; try done.
  destruct (st_queue s); simplify_eq; [|done]. by rewrite Ho in H.
Qed.

(** The job that runs is the one after those that have finished. *)
Lemma stream_of_running sub fin s evs (job : Job) (r : result unit) s' :
  stream_of mk outcome sub fin s evs → stream_step (Ran job r) s s' →
  ∃ i rest, job = mk i ∧ mk <$> sub = mk <$> fin ++ [i] ++ rest.
Proof.
  intros [Hi Hs Hf He Ho] Hst. inversion Hst as [| | | |? ? ? ? Hrun| |]; subst.
  pose proof (si_order _ _ Hi) as Hord. unfold in_flight in Hord.
  rewrite Hrun, Hs, Hf in Hord.
  assert (∃ i, i ∈ sub ∧ mk i = job) as (i & Hin & <-).
  { assert (job ∈ mk <$> sub) as Hj by (rewrite Hord; apply elem_of_app; right; left).
    apply list_elem_of_fmap in Hj as (i & -> & ?). eauto. }
  symmetry in Hord. pose proof Hord as Hord'.
  assert (∃ rest, st_queue s = mk <$> rest) as [rest Hrest].
  { exists (drop (length fin + 1) sub). rewrite fmap_drop, <- Hord.
    rewrite (assoc_L (++)), drop_app_length'; [done|]. rewrite length_app, length_fmap. simpl. lia. }
  exists i, rest. split; [done|]. rewrite !fmap_app, <- Hrest, <- Hord'. done.
Qed.

Lemma stream_of_ran sub fin s s' evs (i : Z) :
  stream_of mk outcome sub fin s evs → stream_step (Ran (mk i) (outcome i)) s s' →
  stream_of mk outcome sub (fin ++ [i]) s' (Ran (mk i) (outcome i) :: evs).
Proof.
  intros [Hi Hs Hf He Ho] Hst. constructor; simpl.
  - eauto.
  - done.
  - by rewrite Hf, fmap_app.
  - rewrite first_error_snoc, <- He. by destruct (outcome i), (first_failure evs).
  - inversion Hst as [| | | |? ? ? ? Hrun H| |]; subst. unfold loop_ran in H. rewrite Hrun in H.
    by simplify_eq.
Qed.
End overlap.

(** ** The invariant of [run] *)
Section run.
Context {V : Type} (compute : Z → result V) (comm_fn : Z → V → result unit) (iters : Z).
Implicit Types (m : Main) (cs ms s : Stream Job) (fs : gmap Z (result V)).

Definition idle s : Prop := st_queue s = [] ∧ st_worker s = Waiting ∧ st_stop s = false.

Lemma idle_no_step s s' (ev : Event Job) : idle s → stream_step ev s s' →
  worker_event ev = false.
Proof.
  intros (Hq & Hw & Ho) Hs.
  destruct Hs as [| | |s s' H|task r s s' Hrun H|s s' H|s s' H]; try done;
    unfold loop_take, loop_ran, loop_record, loop_complete in H; rewrite Hw, ?Hq, ?Ho in *; done.
Qed.

Lemma wait_idle (sub fin : list Z) mk outcome s s' evs (f : option exn) :
  stream_of mk outcome sub fin s evs → wait s = Some (f, s') →
  mk <$> fin = mk <$> sub ∧ f = first_error outcome fin ∧ idle s'.
Proof.
  intros [Hi Hs Hf He Ho] Hw. destruct (wait_returns _ _ _ _ Hi Hw) as (E1 & -> & Hq).
  rewrite Hs, Hf in E1. split; [done|]. split; [done|]. unfold wait in Hw.
  destruct (st_outstanding s =? 0) eqn:E; [|done]. apply Z.eqb_eq in E. injection Hw as _ <-.
  unfold idle. simpl. rewrite Hq. split; [done|]. split; [|done].
  pose proof (si_outstanding _ _ Hi) as Hn. rewrite E, Hq in Hn. unfold held in Hn. simpl in Hn.
  destruct (st_worker s) eqn:Hx; try lia; [done|].
  apply (si_exited _ _ Hi) in Hx. congruence.
Qed.

Definition submitted_ok m (subc subm : list Z) : Prop :=
  match m with
  | Looping todo => zrange iters = subc ++ todo ∧ subm = subc
  | SubmitComm i todo => zrange iters = subc ++ todo ∧ subc = subm ++ [i]
  | _ => subc = zrange iters ∧ subm = zrange iters
  end.

Definition compute_ok m (sub fin : list Z) cs : Prop :=
  match m with
  | WaitComm f => idle cs ∧ fin = zrange iters ∧ f = first_error (compute_outcome compute) fin
  | Finished _ => idle cs ∧ fin = zrange iters
  | _ => ∃ evs, stream_of DoCompute (compute_outcome compute) sub fin cs evs
  end.

Definition comm_ok m (sub fin : list Z) ms : Prop :=
  match m with
  | Finished r => idle ms ∧ fin = zrange iters ∧ r = expected_result compute comm_fn iters
  | _ => ∃ evs, stream_of DoComm (comm_outcome compute comm_fn) sub fin ms evs
  end.

Definition futures_ok (fin : list Z) fs : Prop :=
  ∀ i, fs !! i = if decide (i ∈ fin) then Some (compute i) else None.

Definition overlap_inv (x : Overlap) : Prop := ∃ subc finc subm finm,
  submitted_ok (ov_main x) subc subm ∧
  compute_ok (ov_main x) subc finc (ov_compute x) ∧
  comm_ok (ov_main x) subm finm (ov_comm x) ∧
  futures_ok finc (ov_futures x) ∧
  ov_calls x = finm ≫= expected_call compute.

#[local] Instance do_compute_inj : Inj (=) (=) DoCompute.
Proof. by intros ? ? [=]. Qed.
#[local] Instance do_comm_inj : Inj (=) (=) DoComm.
Proof. by intros ? ? [=]. Qed.

Lemma stream_of_new mk outcome : stream_of mk outcome [] [] new_stream [].
Proof. by constructor. Qed.

Lemma overlap_start_inv : overlap_inv (overlap_start iters).
Proof.
  exists [], [], [], []. split; [done|]. split; [eexists; apply stream_of_new|].
  split; [eexists; apply stream_of_new|]. split; [|done]. intros i.
  by rewrite decide_False by apply not_elem_of_nil.
Qed.

Lemma quiet_worker {T} (ev : Event T) : quiet ev = true → worker_event ev = true.
Proof. by destruct ev. Qed.

Lemma compute_ok_quiet m sub fin cs cs' ev :
  compute_ok m sub fin cs → stream_step ev cs cs' → quiet ev = true → compute_ok m sub fin cs'.
Proof.
  intros Hc Hs Hq. pose proof (quiet_worker ev Hq) as Hw. unfold compute_ok in *.
  destruct m; try (destruct Hc as [evs Hc]; eexists; by eapply stream_of_quiet);
    destruct Hc as [Hidle _]; by rewrite (idle_no_step _ _ _ Hidle Hs) in Hw.
Qed.

Lemma comm_ok_quiet m sub fin ms ms' ev :
  comm_ok m sub fin ms → stream_step ev ms ms' → quiet ev = true → comm_ok m sub fin ms'.
Proof.
  intros Hc Hs Hq. pose proof (quiet_worker ev Hq) as Hw. unfold comm_ok in *.
  destruct m; try (destruct Hc as [evs Hc]; eexists; by eapply stream_of_quiet);
    destruct Hc as [Hidle _]; by rewrite (idle_no_step _ _ _ Hidle Hs) in Hw.
Qed.

Lemma compute_ok_ran m sub fin cs cs' fs job r :
  compute_ok m sub fin cs → stream_step (Ran job r) cs cs' → job_outcome compute comm_fn fs job = Some r →
  ∃ i, job = DoCompute i ∧ compute_ok m sub (fin ++ [i]) cs'.
Proof.
  intros Hc Hs Hr.
  destruct m; try (destruct Hc as [Hidle _]; by pose proof (idle_no_step _ _ _ Hidle Hs));
    destruct Hc as [evs Hc];
    destruct (stream_of_running _ _ _ _ _ _ _ _ _ Hc Hs) as (k & rest & -> & _);
    injection Hr as <-; exists k; split; try done; eexists; by eapply stream_of_ran.
Qed.

Lemma comm_ok_ran m sub fin finc ms ms' fs job r :
  comm_ok m sub fin ms → futures_ok finc fs → stream_step (Ran job r) ms ms' →
  job_outcome compute comm_fn fs job = Some r →
  ∃ i, job = DoComm i ∧ fs !! i = Some (compute i) ∧ comm_ok m sub (fin ++ [i]) ms'.
Proof.
  intros Hc Hf Hs Hr.
  assert (∀ i, job = DoComm i → fs !! i = Some (compute i) ∧ r = comm_outcome compute comm_fn i) as Hi.
  { intros i ->. simpl in Hr. rewrite (Hf i) in *. case_decide; [|done]. simpl in Hr.
    by injection Hr as <-. }
  destruct m; try (destruct Hc as [Hidle _]; by pose proof (idle_no_step _ _ _ Hidle Hs));
    destruct Hc as [evs Hc];
    destruct (stream_of_running _ _ _ _ _ _ _ _ _ Hc Hs) as (k & rest & -> & _);
    destruct (Hi k eq_refl) as [? ->]; exists k; split_and!; try done; eexists; by eapply stream_of_ran.
Qed.
Lemma futures_ok_insert (fin : list Z) fs (i : Z) :
  futures_ok fin fs → futures_ok (fin ++ [i]) (<[i := compute i]> fs).
Proof.
  intros Hf j. destruct (decide (j = i)) as [->|Hne].
  - rewrite lookup_insert_eq, decide_True by (apply elem_of_app; right; left). done.
  - rewrite lookup_insert_ne, Hf by done. apply decide_ext. rewrite elem_of_app, list_elem_of_singleton. split; [by left|by intros [?|?]].
Qed.

Lemma overlap_inv_step (x x' : Overlap) :
  overlap_inv x → overlap_step compute comm_fn iters x x' → overlap_inv x'.
Proof.
  intros (subc & finc & subm & finm & Hs & Hc & Hm & Hf & Hcl) Hst.
  destruct Hst as [i todo cs ms fs cl|i todo cs ms fs cl|cs ms fs cl|f cs cs' ms fs cl Hw
    |f g cs ms ms' fs cl Hw|m ev cs cs' ms fs cl Hst Hq|m ev cs ms ms' fs cl Hst Hq
    |m job r cs cs' ms fs cl Hst Hr|m job r cs ms ms' fs cl Hst Hr]; simpl in *.
  - destruct Hs as [Hz ->], Hc as [evs Hc]. exists (subc ++ [i]), finc, subc, finm. simpl.
    split_and!; try done; [by rewrite <- (assoc_L (++))|]. eexists. by apply stream_of_submit.
  - destruct Hs as [Hz ->], Hm as [evs Hm]. exists (subm ++ [i]), finc, (subm ++ [i]), finm. simpl.
    split_and!; try done. eexists. by apply stream_of_submit.
  - destruct Hs as [Hz ->]. rewrite app_nil_r in Hz. subst subc.
    exists (zrange iters), finc, (zrange iters), finm. by split_and!.
  - destruct Hs as [-> ->], Hc as [evs Hc].
    destruct (wait_idle _ _ _ _ _ _ _ _ Hc Hw) as (E & -> & Hidle).
    apply (inj (fmap DoCompute)) in E as ->.
    exists (zrange iters), (zrange iters), (zrange iters), finm. by split_and!.
  - destruct Hs as [-> ->], Hm as [evs Hm], Hc as (Hidle & -> & ->).
    destruct (wait_idle _ _ _ _ _ _ _ _ Hm Hw) as (E & -> & Hidle').
    apply (inj (fmap DoComm)) in E as ->.
    exists (zrange iters), (zrange iters), (zrange iters), (zrange iters). by split_and!.
  - exists subc, finc, subm, finm. split_and!; try done. by eapply compute_ok_quiet.
  - exists subc, finc, subm, finm. split_and!; try done. by eapply comm_ok_quiet.
  - destruct (compute_ok_ran _ _ _ _ _ _ _ _ Hc Hst Hr) as (i & -> & Hc').
    exists subc, (finc ++ [i]), subm, finm. simpl. rewrite app_nil_r. split_and!; try done.
    by apply futures_ok_insert.
  - destruct (comm_ok_ran _ _ _ _ _ _ _ _ _ Hm Hf Hst Hr) as (i & -> & Hi & Hm').
    exists subc, finc, subm, (finm ++ [i]). simpl. rewrite Hi. split_and!; try done.
    rewrite bind_app, Hcl. f_equal. unfold expected_call. simpl. by destruct (compute i).
Qed.
(** ** Progress and termination *)
Definition main_weight m : nat :=
  match m with
  | Looping todo => 10 * length todo + 4
  | SubmitComm _ todo => 10 * length todo + 9
  | WaitCompute => 3
  | WaitComm _ => 2
  | Finished _ => 0
  end.

Definition remaining (x : @Overlap V) : nat :=
  main_weight (ov_main x) + work (ov_compute x) + work (ov_comm x).

Lemma work_submit (job : Job) s : work (submit job s) = (work s + 4)%nat.
Proof. unfold work, submit. simpl. rewrite length_app. simpl. lia. Qed.

Lemma work_wait s s' (f : option exn) : wait s = Some (f, s') → work s' = work s.
Proof. unfold wait. destruct (st_outstanding s =? 0); [|done]. by intros [= _ <-]. Qed.

Lemma overlap_step_remaining (x x' : Overlap) :
  overlap_step compute comm_fn iters x x' → (remaining x' < remaining x)%nat.
Proof.
  intros Hst. unfold remaining.
  destruct Hst as [i todo cs ms fs cl|i todo cs ms fs cl|cs ms fs cl|f cs cs' ms fs cl Hw
    |f g cs ms ms' fs cl Hw|m ev cs cs' ms fs cl Hst Hq|m ev cs ms ms' fs cl Hst Hq
    |m job r cs cs' ms fs cl Hst Hr|m job r cs ms ms' fs cl Hst Hr]; simpl;
    rewrite ?work_submit; try (apply work_wait in Hw); try lia;
    assert (Hlt := worker_event_work _ _ _ Hst);
    specialize (Hlt ltac:(first [by apply quiet_worker | reflexivity])); lia.
Qed.

(** A section of the compute worker is a step of the executor; so is one of the
    comm worker once the futures are set. *)
Lemma compute_worker_step m cs cs' ms fs cl ev sub fin evs :
  stream_of DoCompute (compute_outcome compute) sub fin cs evs →
  stream_step ev cs cs' → worker_event ev = true →
  ∃ x', overlap_step compute comm_fn iters (mk_overlap m cs ms fs cl) x'.
Proof.
  intros Hc Hst Hw. destruct (quiet ev) eqn:Hq; [eexists; by eapply ov_compute_quiet|].
  destruct ev as [| | | |job r| |]; try done.
  destruct (stream_of_running _ _ _ _ _ _ _ _ _ Hc Hst) as (i & rest & -> & _).
  inversion Hst as [| | | |? ? ? ? Hrun H| |]; subst.
  eexists. eapply (ov_compute_ran compute comm_fn iters m (DoCompute i)); [|reflexivity]. apply step_ran; [done|].
  unfold loop_ran. by rewrite Hrun.
Qed.

Lemma comm_worker_step m cs ms ms' fs cl ev sub fin evs :
  stream_of DoComm (comm_outcome compute comm_fn) sub fin ms evs →
  futures_ok sub fs → stream_step ev ms ms' → worker_event ev = true →
  ∃ x', overlap_step compute comm_fn iters (mk_overlap m cs ms fs cl) x'.
Proof.
  intros Hc Hf Hst Hw. destruct (quiet ev) eqn:Hq; [eexists; by eapply ov_comm_quiet|].
  destruct ev as [| | | |job r| |]; try done.
  destruct (stream_of_running _ _ _ _ _ _ _ _ _ Hc Hst) as (i & rest & -> & Hsub).
  apply (inj (fmap DoComm)) in Hsub.
  assert (fs !! i = Some (compute i)) as Hi.
  { rewrite Hf, decide_True; [done|]. rewrite Hsub, !elem_of_app, list_elem_of_singleton. tauto. }
  inversion Hst as [| | | |? ? ? ? Hrun H| |]; subst.
  eexists. eapply (ov_comm_ran compute comm_fn iters m (DoComm i)); [|simpl; rewrite Hi; reflexivity]. apply step_ran; [done|].
  unfold loop_ran. by rewrite Hrun.
Qed.

Lemma stream_of_blocked mk outcome sub fin s evs :
  stream_of mk outcome sub fin s evs → wait s = None →
  ∃ ev s', worker_event ev = true ∧ stream_step ev s s'.
Proof.
  intros [Hi _ _ _ Ho] Hw. eapply wait_blocks; [done..|]. intros Hx.
  apply (si_exited _ _ Hi) in Hx. congruence.
Qed.

Lemma overlap_progress (x : Overlap) : overlap_inv x →
  (∃ r, ov_main x = Finished r) ∨ ∃ x', overlap_step compute comm_fn iters x x'.
Proof.
  intros (subc & finc & subm & finm & Hs & Hc & Hm & Hf & Hcl).
  destruct x as [m cs ms fs cl]. simpl in *.
  destruct m as [[|i todo]|i todo| |f|r]; [right|right|right|right|right|left; eauto]; simpl in *.
  - eexists. apply ov_loop_end.
  - eexists. apply ov_submit_compute.
  - eexists. apply ov_submit_comm.
  - destruct Hc as [evs Hc]. destruct (wait cs) as [[f cs']|] eqn:Hw.
    + eexists. by apply ov_wait_compute.
    + destruct (stream_of_blocked _ _ _ _ _ _ Hc Hw) as (ev & cs' & Hev & Hst).
      by eapply compute_worker_step.
  - destruct Hs as [-> ->], Hc as (_ & -> & _), Hm as [evs Hm].
    destruct (wait ms) as [[g ms']|] eqn:Hw.
    + eexists. by apply ov_wait_comm.
    + destruct (stream_of_blocked _ _ _ _ _ _ Hm Hw) as (ev & ms' & Hev & Hst).
      by eapply comm_worker_step.
Qed.

Lemma overlap_runs (k : nat) (x x' : Overlap) :
  overlap_inv x → nsteps (overlap_step compute comm_fn iters) k x x' →
  overlap_inv x' ∧ (k + remaining x' ≤ remaining x)%nat.
Proof.
  intros Hi Hr. induction Hr as [x|k x x1 x2 H1 _ IH]; [split; [done|lia]|].
  destruct (IH (overlap_inv_step _ _ Hi H1)). pose proof (overlap_step_remaining _ _ H1).
  split; [done|lia].
Qed.

(** C36. [OverlapExecutor.run] on a fresh executor, under every interleaving of
    the caller and the two workers: it ends after a bounded number of steps and
    never blocks before; it raises the exception of the first compute task that
    fails, else that of the first comm task, else returns the counts; and
    [comm_fn] has been called in order, once for each value computed, with that
    value, and not for an iteration whose compute task failed. *)
Theorem overlap_run (k : nat) (x : Overlap) :
  nsteps (overlap_step compute comm_fn iters) k (overlap_start iters) x →
  (k ≤ 10 * Z.to_nat iters + 6)%nat ∧
  ((∃ r, ov_main x = Finished r) ∨ ∃ x', overlap_step compute comm_fn iters x x') ∧
  ∀ r, ov_main x = Finished r →
    r = expected_result compute comm_fn iters ∧
    ov_calls x = zrange iters ≫= expected_call compute.
Proof.
  intros Hr. destruct (overlap_runs k _ x overlap_start_inv Hr) as [Hi Hk].
  split; [|split; [by apply overlap_progress|]].
  - unfold remaining, work in Hk. simpl in Hk. rewrite length_zrange in Hk. lia.
  - intros r Hfin. destruct Hi as (subc & finc & subm & finm & _ & _ & Hm & _ & ->).
    rewrite Hfin in Hm. by destruct Hm as (_ & -> & ->).
Qed.
End run.

(** One iteration, whose compute task fails: the comm task is not called. *)
Definition ex_compute (i : Z) : result Z := Err (ValueError "compute").
Definition ex_comm (i v : Z) : result unit := Ok tt.

Ltac ex_quiet := solve
  [ apply step_take; reflexivity | apply step_record; reflexivity | apply step_complete; reflexivity ].
Ltac ex_step := first
  [ eapply (ov_compute_quiet _ _ _ _ Took); [ex_quiet|reflexivity]
  | eapply (ov_compute_quiet _ _ _ _ Recorded); [ex_quiet|reflexivity]
  | eapply (ov_compute_quiet _ _ _ _ Completed); [ex_quiet|reflexivity]
  | eapply (ov_comm_quiet _ _ _ _ Took); [ex_quiet|reflexivity]
  | eapply (ov_comm_quiet _ _ _ _ Recorded); [ex_quiet|reflexivity]
  | eapply (ov_comm_quiet _ _ _ _ Completed); [ex_quiet|reflexivity]
  | eapply (ov_compute_ran _ _ _ _ (DoCompute 0)); [apply step_ran; reflexivity|reflexivity]
  | eapply (ov_comm_ran _ _ _ _ (DoComm 0)); [apply step_ran; reflexivity|reflexivity]
  | apply ov_submit_compute | apply ov_submit_comm | apply ov_loop_end
  | apply ov_wait_compute; reflexivity | apply ov_wait_comm; reflexivity ].

Example overlap_run_witness : ∃ x,
  nsteps (overlap_step ex_compute ex_comm 1) 13 (overlap_start 1) x ∧
  ov_main x = Finished (Err (ValueError "compute")) ∧ ov_calls x = [].
Proof.
  assert (∃ x, nsteps (overlap_step ex_compute ex_comm 1) 13 (overlap_start 1) x ∧
    ∃ r, ov_main x = Finished r) as (x & Hr & r & Hx).
  { eexists. split; [do 13 (eapply nsteps_l; [ex_step|]); apply nsteps_O|]. eexists. reflexivity. }
  exists x. split; [done|].
  destruct (overlap_run ex_compute ex_comm 1 13 x Hr) as (_ & _ & Hend).
  destruct (Hend r Hx) as [-> ->]. by rewrite Hx.
Defined.
