(* ===== verification/PeerCopy.v ===== *)
(** * Run-list copies (comm.py, _fallback.py: stage_runs, p2p_gather)

    A gather copies byte runs from peer memory into a local buffer.  The run
    list is checked first and then copied, at once or as one task of a stream.
    Memory is a function from addresses to bytes.  The numbers of a run are
    Python integers, without bound; what reaches [memmove] goes through
    ctypes, which reduces an address or a size modulo 2 ^ 64. *)

From S2P Require Import Prelude HostStream.
Local Open Scope Z_scope.

(** ** Arguments *)

(** The values a caller may put in a list of addresses or counts. *)
Inductive PyNumber : Type :=
  | PyInt (i : Z)
  | PyBool (b : bool)
  | PyOther.

(** The facts about a numpy array the checks look at. *)
Record Buffer : Type := mk_buffer {
  buf_base : Z;
  buf_nbytes : Z;
  buf_uint8 : bool;
  buf_contiguous : bool;
  buf_writeable : bool
}.

Record Gather2DRun : Type := mk_gather {
  g_src : Z;
  g_src_stride : Z;
  g_dst_offset : Z;
  g_dst_stride : Z;
  g_width : Z;
  g_height : Z
}.

Record StagedRun1D : Type := mk_run1 {
  r1_src : Z;
  r1_dst_offset : Z;
  r1_length : Z
}.

Record StagedRun2D : Type := mk_run2 {
  r2_src : Z;
  r2_dst_offset : Z;
  r2_src_stride : Z;
  r2_dst_stride : Z;
  r2_width : Z;
  r2_height : Z
}.

Definition as_int (v : PyNumber) : result Z :=
  i ← (match v with PyInt i => Ok i | _ => Err (TypeError "must contain integers") end);
  _ ← require (negb (i <? 0)) (ValueError "must be non-negative");
  Ok i.
Definition as_addrs (values : list PyNumber) : result (list Z) := map_result as_int values.
Definition as_counts (values : list PyNumber) : result (list Z) := map_result as_int values.

Definition as_dst (dst : Buffer) (writable : bool) : result Buffer :=
  _ ← require (buf_uint8 dst) (TypeError "dst must be a uint8 numpy array");
  _ ← require (buf_contiguous dst) (ValueError "dst must be C-contiguous");
  _ ← require (negb (writable && negb (buf_writeable dst))) (ValueError "dst must be writable");
  Ok dst.

(** A run given as such or as a tuple of numbers. *)
Inductive RunArg : Type :=
  | RunDescriptor (g : Gather2DRun)
  | RunTuple (fields : list Z)
  | RunOther.

Definition unpack_run (r : RunArg) : result Gather2DRun :=
  match r with
  | RunDescriptor g => Ok g
  | RunTuple [src; src_stride; dst_offset; dst_stride; width; height] =>
      Ok (mk_gather src src_stride dst_offset dst_stride width height)
  | _ => Err (TypeError "runs must be Gather2DRun instances or 6-tuples")
  end.
Definition unpack_runs (runs : list RunArg) : result (list Gather2DRun) :=
  map_result unpack_run runs.

(** ** Staging *)
Definition stage_1d (base capacity : Z) (runs : list StagedRun1D) (arg : Z * Z * Z) :
    result (list StagedRun1D) :=
  let '(s, off, length) := arg in
  if length =? 0 then Ok runs
  else
    _ ← require (negb ((off >? capacity) || (capacity - off <? length)))
          (ValueError "run exceeds dst capacity");
    _ ← require (negb (s =? 0)) (ValueError "src_ptrs[i] must be non-null for a non-empty run");
    let d := base + off in
    _ ← require ((s + length <=? d) || (s >=? d + length))
          (ValueError "src and dst ranges must not overlap");
    Ok (runs ++ [mk_run1 s off length]).

(** Python orders tuples by their first difference. *)
Definition span_le (p q : Z * Z) : Prop := p.1 < q.1 ∨ p.1 = q.1 ∧ p.2 ≤ q.2.
#[export] Instance span_le_dec : RelDecision span_le.
Proof. intros p q. unfold span_le. apply _. Defined.

Definition run_span (r : StagedRun1D) : Z * Z :=
  (r1_dst_offset r, r1_dst_offset r + r1_length r).

(** [for (_, end), (start, _) in zip(spans, spans[1:]): if end > start: raise] *)
Definition spans_disjoint (spans : list (Z * Z)) : bool :=
  forallb (λ '(p, q), negb (p.2 >? q.1)) (zip spans (tail spans)).

Definition impl_stage_runs_1d (dst : Buffer) (src_ptrs dst_offsets lengths : list Z) :
    result (list StagedRun1D) :=
  let n := length src_ptrs in
  _ ← require (bool_decide (length dst_offsets = n) && bool_decide (length lengths = n))
        (ValueError "src_ptrs/dst_offsets/lengths must all have the same length");
  (* [_dst_buffer]: ctypes refuses a buffer that is not writable *)
  _ ← require (buf_writeable dst) (TypeError "underlying buffer is not writable");
  runs ← fold_result (stage_1d (buf_base dst) (buf_nbytes dst)) []
           (zip (zip src_ptrs dst_offsets) lengths);
  _ ← require (spans_disjoint (merge_sort span_le (run_span <$> runs)))
        (ValueError "output runs must be disjoint");
  Ok runs.

Definition stage_2d (capacity : Z) (out : list StagedRun2D) (g : Gather2DRun) :
    result (list StagedRun2D) :=
  if (g_width g =? 0) || (g_height g =? 0) then Ok out
  else
    _ ← require (negb (g_width g >? g_src_stride g)) (ValueError "width must not exceed src_stride");
    _ ← require (negb (g_width g >? g_dst_stride g)) (ValueError "width must not exceed dst_stride");
    _ ← require (negb (g_src g =? 0)) (ValueError "src must be non-null for a non-empty tile");
    let off := g_dst_offset g in
    _ ← require (negb (off >? capacity)) (ValueError "2-D run starts past dst capacity");
    let rows := g_height g - 1 in
    fit ← py_floordiv (capacity - off) (g_dst_stride g);
    _ ← require (negb (rows >? fit)) (ValueError "2-D row stride exceeds dst capacity");
    let row_span := rows * g_dst_stride g in
    _ ← require (negb (g_width g >? capacity - off - row_span))
          (ValueError "2-D run exceeds dst capacity");
    Ok (out ++ [mk_run2 (g_src g) off (g_src_stride g) (g_dst_stride g) (g_width g) (g_height g)]).

Definition impl_stage_runs_2d (dst : Buffer) (runs : list Gather2DRun) : result (list StagedRun2D) :=
  fold_result (stage_2d (buf_nbytes dst)) [] runs.

Definition stage_runs_1d (dst : Buffer) (src_ptrs dst_offsets lengths : list PyNumber) :
    result (list StagedRun1D) :=
  dst ← as_dst dst false;
  src_ptrs ← as_addrs src_ptrs;
  dst_offsets ← as_counts dst_offsets;
  lengths ← as_counts lengths;
  impl_stage_runs_1d dst src_ptrs dst_offsets lengths.

Definition stage_runs_2d (dst : Buffer) (runs : list RunArg) : result (list StagedRun2D) :=
  dst ← as_dst dst false;
  runs ← unpack_runs runs;
  impl_stage_runs_2d dst runs.

(** ** Copying *)

(** What ctypes makes of a Python integer. *)
Definition c_void_p (i : Z) : Z := i `mod` 2 ^ 64.
Definition c_size_t (i : Z) : Z := i `mod` 2 ^ 64.

Section copy.
Context {B : Type}.
Abbreviation memory := (Z → B).

(** [ctypes.memmove(dst, ctypes.c_void_p(src), length)].  The destination is
    [ctypes.byref(buf, offset)], a pointer into the buffer that is passed as
    it is; [c_void_p] reduces the source, and the size is a [c_size_t]. *)
Definition memmove (dst src length : Z) (m : memory) : memory :=
  λ a, if (dst <=? a) && (a <? dst + c_size_t length) then m (c_void_p src + (a - dst)) else m a.

Definition copy_one (base : Z) (m : memory) (r : StagedRun1D) : memory :=
  memmove (base + r1_dst_offset r) (r1_src r) (r1_length r) m.
Definition copy_all (base : Z) (runs : list StagedRun1D) (m : memory) : memory :=
  foldl (copy_one base) m runs.

Definition copy_row (base : Z) (r : StagedRun2D) (m : memory) (y : Z) : memory :=
  memmove (base + (r2_dst_offset r + y * r2_dst_stride r)) (r2_src r + y * r2_src_stride r)
    (r2_width r) m.
Definition copy_all_2d (base : Z) (runs : list StagedRun2D) (m : memory) : memory :=
  foldl (λ m r, foldl (copy_row base r) m (zrange (r2_height r))) m runs.

Definition p2p_gather_runs (dst : Buffer) (src_ptrs dst_offsets lengths : list PyNumber)
    (stream : option (Stream (memory → memory))) (m : memory) :
    result (memory * option (Stream (memory → memory))) :=
  dst ← as_dst dst true;
  src_ptrs ← as_addrs src_ptrs;
  dst_offsets ← as_counts dst_offsets;
  lengths ← as_counts lengths;
  staged ← impl_stage_runs_1d dst src_ptrs dst_offsets lengths;
  match staged with
  | [] => Ok (m, stream)
  | _ => Ok (run_or_submit stream [copy_all (buf_base dst) staged] m)
  end.

Definition p2p_gather_runs_2d (dst : Buffer) (runs : list RunArg)
    (stream : option (Stream (memory → memory))) (m : memory) :
    result (memory * option (Stream (memory → memory))) :=
  dst ← as_dst dst true;
  runs ← unpack_runs runs;
  staged ← impl_stage_runs_2d dst runs;
  match staged with
  | [] => Ok (m, stream)
  | _ => Ok (run_or_submit stream [copy_all_2d (buf_base dst) staged] m)
  end.

Definition memcpy_peer_batch_async (dst : Buffer) (src_ptrs dst_offsets lengths : list PyNumber)
    (stream : option (Stream (memory → memory))) (m : memory) :
    result (memory * option (Stream (memory → memory))) :=
  dst ← as_dst dst true;
  src_ptrs ← as_addrs src_ptrs;
  dst_offsets ← as_counts dst_offsets;
  lengths ← as_counts lengths;
  staged ← impl_stage_runs_1d dst src_ptrs dst_offsets lengths;
  match staged with
  | [] => Ok (m, stream)
  | _ => Ok (run_or_submit stream ((λ r m, copy_one (buf_base dst) m r) <$> staged) m)
  end.
End copy.

(** ** What staging guarantees *)
Definition apart (p q : Z * Z) : Prop := p.2 ≤ q.1 ∨ q.2 ≤ p.1.

(** Every two entries of a list, at different positions, are apart. *)
Definition pairwise_apart (spans : list (Z * Z)) : Prop := ForallOrdPairs apart spans.

#[export] Instance apart_sym : Symmetric apart.
Proof. intros p q [?|?]; [right|left]; done. Qed.

Lemma ForallOrdPairs_perm {A} (R : relation A) `{Symmetric A R} (l k : list A) :
  l ≡ₚ k → ForallOrdPairs R l → ForallOrdPairs R k.
Proof.
  induction 1 as [|x l k Hp IH|x y l|l1 l2 l3 _ IH1 _ IH2]; intros Hl; auto.
  - inversion Hl; subst. constructor; [by rewrite <- Hp|auto].
  - inversion Hl as [|? ? Hx Hl']; subst. inversion Hl' as [|? ? Hy Hl'']; subst.
    apply Forall_cons in Hx as [Hxy Hx]. constructor; [constructor; [by symmetry|done]|].
    by constructor.
Qed.

#[local] Instance span_le_trans : Transitive span_le.
Proof. intros p q r. unfold span_le. lia. Qed.
#[local] Instance span_le_total : Total span_le.
Proof. intros p q. unfold span_le. lia. Qed.

(** The check of neighbours in sorted order covers every pair. *)
Lemma spans_disjoint_sorted (spans : list (Z * Z)) :
  StronglySorted span_le spans → Forall (λ p, p.1 ≤ p.2) spans →
  spans_disjoint spans = true → pairwise_apart spans.
Proof.
  unfold spans_disjoint. induction spans as [|p spans IH]; intros Hs Hp Hd; [constructor|].
  apply StronglySorted_inv in Hs as [Hs Hle]. apply Forall_cons in Hp as [Hp Hps].
  destruct spans as [|q spans]; [by repeat constructor|]. simpl in Hd.
  apply andb_true_iff in Hd as [Hpq Hd]. apply negb_true_iff in Hpq.
  rewrite Z.gtb_ltb, Z.ltb_ge in Hpq.
  constructor; [|by apply IH].
  apply StronglySorted_inv in Hs as [_ Hq]. constructor; [by left|].
  eapply Forall_impl; [exact Hq|]. intros r Hr. left. destruct Hr as [?|[? ?]]; lia.
Qed.

Lemma spans_disjoint_apart (spans : list (Z * Z)) :
  Forall (λ p, p.1 ≤ p.2) spans → spans_disjoint (merge_sort span_le spans) = true →
  pairwise_apart spans.
Proof.
  intros Hp Hd. eapply ForallOrdPairs_perm; [apply _|apply (merge_sort_Permutation span_le)|].
  apply spans_disjoint_sorted; [apply (StronglySorted_merge_sort span_le)| |done].
  by rewrite (merge_sort_Permutation span_le).
Qed.

(** A staged run fits the buffer, has a source and does not read what it writes. *)
Definition run_ok (dst : Buffer) (r : StagedRun1D) : Prop :=
  0 ≤ r1_dst_offset r ∧ 0 < r1_length r ∧ r1_dst_offset r + r1_length r ≤ buf_nbytes dst ∧
  0 < r1_src r ∧
  apart (r1_src r, r1_src r + r1_length r)
    (buf_base dst + r1_dst_offset r, buf_base dst + r1_dst_offset r + r1_length r).

(** The runs that are not empty, in order. *)
Definition non_empty (args : list (Z * Z * Z)) : list StagedRun1D :=
  (λ '(s, off, length), mk_run1 s off length) <$> filter (λ '(_, _, length), length ≠ 0) args.

Lemma stage_1d_loop (dst : Buffer) (args : list (Z * Z * Z)) (runs staged : list StagedRun1D) :
  Forall (λ '(s, off, length), 0 ≤ s ∧ 0 ≤ off ∧ 0 ≤ length) args →
  fold_result (stage_1d (buf_base dst) (buf_nbytes dst)) runs args = Ok staged →
  staged = runs ++ non_empty args ∧ Forall (run_ok dst) (non_empty args).
Proof.
  intros Hn. revert runs. induction Hn as [|[[s off] len] args (Hs & Ho & Hl) Hn IH]; intros runs; simpl.
  - intros [= <-]. unfold non_empty. simpl. by rewrite app_nil_r.
  - intros H. unfold non_empty. rewrite filter_cons. destruct (len =? 0) eqn:E.
    + apply Z.eqb_eq in E. rewrite decide_False by auto. by apply IH.
    + apply Z.eqb_neq in E. rewrite decide_True by done. res_inv. zbool.
      rewrite Z.gtb_ltb, Z.ltb_ge in *.
      apply IH in H as [-> Hok]. rewrite <- (assoc_L (++)). split; [done|].
      rewrite fmap_cons. constructor; [|done]. unfold run_ok, apart. simpl.
      match goal with H : _ || _ = true |- _ => apply orb_true_iff in H; rewrite Z.geb_leb, !Z.leb_le in H end.
      lia.
Qed.

Lemma as_int_ok (v : PyNumber) (i : Z) : as_int v = Ok i → v = PyInt i ∧ 0 ≤ i.
Proof.
  unfold as_int. intros H. res_inv. destruct v; simplify_eq. zbool. done.
Qed.

Lemma as_ints_ok (values : list PyNumber) (l : list Z) :
  map_result as_int values = Ok l → values = PyInt <$> l ∧ Forall (λ i, 0 ≤ i) l.
Proof.
  rewrite map_result_Forall2. induction 1 as [|v i values l Hv _ [-> IH]]; [done|].
  apply as_int_ok in Hv as [-> ?]. split; [done|by constructor].
Qed.

Lemma non_negative_args (s o l : list Z) :
  Forall (λ i, 0 ≤ i) s → Forall (λ i, 0 ≤ i) o → Forall (λ i, 0 ≤ i) l →
  Forall (λ '(s, off, length), 0 ≤ s ∧ 0 ≤ off ∧ 0 ≤ length) (zip (zip s o) l).
Proof.
  intros Hs. revert o l. induction Hs as [|x s Hx Hs IH]; intros o l Ho Hl; [constructor|].
  destruct Ho, Hl; constructor; auto.
Qed.

(** What is known of a run list that passed [stage_runs_1d]. *)
Record staged_ok (dst : Buffer) (src offs lens : list Z) (staged : list StagedRun1D) : Prop := {
  sk_lengths : length offs = length src ∧ length lens = length src;
  sk_staged : staged = non_empty (zip (zip src offs) lens);
  sk_runs : Forall (run_ok dst) staged;
  sk_apart : pairwise_apart (run_span <$> staged)
}.

Lemma impl_stage_ok (dst : Buffer) (src offs lens : list Z) (staged : list StagedRun1D) :
  Forall (λ i, 0 ≤ i) src → Forall (λ i, 0 ≤ i) offs → Forall (λ i, 0 ≤ i) lens →
  impl_stage_runs_1d dst src offs lens = Ok staged → staged_ok dst src offs lens staged.
Proof.
  intros Hs Ho Hl H. unfold impl_stage_runs_1d in H. res_inv.
  zbool. repeat match goal with H : bool_decide _ = true |- _ => apply bool_decide_eq_true in H end.
  match goal with H : fold_result _ _ _ = _ |- _ =>
    apply stage_1d_loop in H as [-> Hok]; [|by apply non_negative_args] end.
  constructor; try done. apply spans_disjoint_apart; [|done].
  apply Forall_fmap. eapply Forall_impl; [exact Hok|]. intros r Hr. unfold run_ok in Hr. simpl. lia.
Qed.

Lemma as_dst_weaken (dst d : Buffer) :
  as_dst dst true = Ok d → d = dst ∧ as_dst dst false = Ok dst.
Proof.
  unfold as_dst. destruct (buf_uint8 dst), (buf_contiguous dst), (buf_writeable dst); simpl; try done.
  by intros [= ->].
Qed.

Lemma ForallOrdPairs_fmap {A A'} (f : A → A') (R : relation A') (l : list A) :
  ForallOrdPairs R (f <$> l) → ForallOrdPairs (λ x y, R (f x) (f y)) l.
Proof.
  induction l as [|x l IH]; [constructor|]. rewrite fmap_cons. intros H.
  inversion H; subst. constructor; [by apply Forall_fmap|auto].
Qed.

(** ** What copying does *)
Lemma c_void_p_small (i : Z) : 0 ≤ i < 2 ^ 64 → c_void_p i = i.
Proof. apply Z.mod_small. Qed.
Lemma c_size_t_small (i : Z) : 0 ≤ i < 2 ^ 64 → c_size_t i = i.
Proof. apply Z.mod_small. Qed.
Lemma c_size_t_le (i : Z) : 0 ≤ i → c_size_t i ≤ i.
Proof. intros Hi. by apply Z.mod_le. Qed.

(** The numbers of a run are those ctypes passes on. *)
Definition addressable (r : StagedRun1D) : Prop := 0 ≤ r1_src r < 2 ^ 64 ∧ 0 ≤ r1_length r < 2 ^ 64.

Section copying.
Context {B : Type} (base : Z).
Implicit Types (m : Z → B) (r : StagedRun1D) (runs : list StagedRun1D).

Definition writes r (a : Z) : Prop :=
  base + r1_dst_offset r ≤ a < base + r1_dst_offset r + r1_length r.
#[export] Instance writes_dec r a : Decision (writes r a).
Proof. unfold writes. apply _. Defined.

(** The sources lie outside what is written, by whichever run. *)
Definition sources_apart runs : Prop :=
  ∀ r r' a, r ∈ runs → r' ∈ runs → r1_src r ≤ a < r1_src r + r1_length r → ¬ writes r' a.

Definition run_apart r r' : Prop := apart (run_span r) (run_span r').

Lemma copy_one_at m r (a : Z) :
  addressable r →
  copy_one base m r a = if decide (writes r a) then m (r1_src r + (a - (base + r1_dst_offset r))) else m a.
Proof.
  intros [Hs Hl]. unfold copy_one, memmove, writes. rewrite c_void_p_small, c_size_t_small by done.
  destruct (base + r1_dst_offset r <=? a) eqn:E1, (a <? base + r1_dst_offset r + r1_length r) eqn:E2;
    simpl; zbool; case_decide; done || lia.
Qed.

Lemma copy_all_outside runs m (a : Z) :
  Forall addressable runs → (∀ r, r ∈ runs → ¬ writes r a) → copy_all base runs m a = m a.
Proof.
  unfold copy_all. intros Ha. revert m. induction Ha as [|r runs Hr Ha IH]; intros m Hn; simpl; [done|].
  rewrite IH by (intros r' Hr'; apply Hn; by right).
  rewrite copy_one_at, decide_False; [done| |done]. apply Hn. by left.
Qed.

(** Each run's bytes are its source's bytes before the copy. *)
Lemma copy_all_inside runs m r (a : Z) :
  Forall addressable runs → ForallOrdPairs run_apart runs → sources_apart runs → r ∈ runs → writes r a →
  copy_all base runs m a = m (r1_src r + (a - (base + r1_dst_offset r))).
Proof.
  intros Ha Hd. unfold copy_all. revert m Ha. induction Hd as [|r0 runs Hr0 Hd IH]; intros m Ha Hs Hin Hw;
    [by apply not_elem_of_nil in Hin|]. apply Forall_cons in Ha as [Ha0 Ha]. simpl.
  apply elem_of_cons in Hin as [->|Hin].
  - fold (copy_all base runs (copy_one base m r0)). rewrite copy_all_outside.
    + by rewrite copy_one_at, decide_True.
    + done.
    + intros r' Hr'. rewrite Forall_forall in Hr0. specialize (Hr0 r' Hr').
      unfold run_apart, apart, run_span, writes in *. simpl in *. lia.
  - rewrite IH; [|done| |done|done].
    + rewrite copy_one_at, decide_False; [done| |done]. apply (Hs r r0); [by right|by left|].
      unfold writes in Hw. lia.
    + intros r1 r2 a' H1 H2. apply Hs; by right.
Qed.

Lemma copy_all_tasks runs m :
  foldl (λ m task, task m) m ((λ r m, copy_one base m r) <$> runs) = copy_all base runs m.
Proof. unfold copy_all. revert m. induction runs as [|r runs IH]; intros m; simpl; auto. Qed.

(** The bytes after a gather, whatever the order in which the runs are copied. *)
Lemma copy_all_order runs order m (a : Z) :
  Forall addressable runs → ForallOrdPairs run_apart runs → sources_apart runs → order ≡ₚ runs →
  copy_all base order m a =
    match list_find (λ r, writes r a) runs with
    | Some (_, r) => m (r1_src r + (a - (base + r1_dst_offset r)))
    | None => m a
    end.
Proof.
  intros Ha Hd Hs Hp. destruct (list_find _ runs) as [[i r]|] eqn:E.
  - apply list_find_Some in E as (Hi & Hw & _).
    apply copy_all_inside; [by rewrite Hp|..|done].
    + eapply ForallOrdPairs_perm; [|by symmetry|done]. intros r1 r2. apply apart_sym.
    + intros r1 r2 a' H1 H2. rewrite Hp in H1, H2. by apply Hs.
    + rewrite Hp. by eapply list_elem_of_lookup_2.
  - apply list_find_None in E. rewrite Forall_forall in E. apply copy_all_outside; [by rewrite Hp|].
    intros r Hr. apply E. by rewrite <- Hp.
Qed.
End copying.

(** The buffer and the sources lie in the address space of the process. *)
Definition in_address_space (dst : Buffer) (src : list PyNumber) : Prop :=
  0 < buf_base dst ∧ buf_base dst + buf_nbytes dst ≤ 2 ^ 64 ∧ ∀ s, PyInt s ∈ src → s < 2 ^ 64.

Lemma staged_addressable (dst : Buffer) (src : list PyNumber) (ps os ls : list Z) (staged : list StagedRun1D) :
  in_address_space dst src → src = PyInt <$> ps → staged_ok dst ps os ls staged → Forall addressable staged.
Proof.
  intros (Hb & He & Hs) -> [_ -> Hok _]. rewrite Forall_forall in Hok |- *. intros r Hr.
  destruct (Hok r Hr) as (? & ? & ? & ? & _). unfold non_empty in Hr.
  apply list_elem_of_fmap in Hr as ([[s off] len] & -> & Hin). apply list_elem_of_filter in Hin as [_ Hin].
  apply elem_of_zip_l in Hin as Hin'. apply elem_of_zip_l in Hin'.
  cbn [r1_src r1_dst_offset r1_length fst snd] in *. split; cbn [r1_src r1_length]; [|lia]. split; [lia|]. apply Hs.
  by apply list_elem_of_fmap_2.
Qed.

(** C37. When the buffer and the source addresses lie below 2 ^ 64 (ctypes
    reduces other addresses after the check: [wrapped_source_accepted]), a
    gather that returns has checked its run list: every run fits the buffer,
    has a source, and does not read what it writes itself, and no two runs
    write the same byte.  If moreover no source lies in what another run
    writes, the copy puts the bytes each source held before into its run and
    changes nothing else, whatever the order of the runs; and copying run by
    run has the same effect.  A stream receives one task for the whole gather,
    or one per non-empty run, and nothing if all runs are empty. *)
Theorem p2p_gather_correct {B : Type} (dst : Buffer) (src offs lens : list PyNumber)
    (stream : option (Stream ((Z → B) → Z → B))) (m : Z → B) r :
  in_address_space dst src → p2p_gather_runs dst src offs lens stream m = Ok r →
  ∃ staged, stage_runs_1d dst src offs lens = Ok staged ∧
    Forall (run_ok dst) staged ∧ pairwise_apart (run_span <$> staged) ∧
    memcpy_peer_batch_async dst src offs lens stream m =
      Ok (match stream with
          | None => (copy_all (buf_base dst) staged m, None)
          | Some s => (m, Some (foldl (λ s task, submit task s) s
                                 ((λ r m, copy_one (buf_base dst) m r) <$> staged)))
          end) ∧
    r = (match stream, staged with
         | None, _ => (copy_all (buf_base dst) staged m, None)
         | Some s, [] => (m, Some s)
         | Some s, _ => (m, Some (submit (copy_all (buf_base dst) staged) s))
         end) ∧
    (sources_apart (buf_base dst) staged → ∀ order, order ≡ₚ staged → ∀ a,
      copy_all (buf_base dst) order m a =
        match list_find (λ r, writes (buf_base dst) r a) staged with
        | Some (_, r) => m (r1_src r + (a - (buf_base dst + r1_dst_offset r)))
        | None => m a
        end).
Proof.
  intros Hspace H. unfold p2p_gather_runs in H.
  destruct (as_dst dst true) as [d|] eqn:Ed; [|done]. simpl in H.
  destruct (as_addrs src) as [ps|] eqn:Es; [|done]. simpl in H.
  destruct (as_counts offs) as [os|] eqn:Eo; [|done]. simpl in H.
  destruct (as_counts lens) as [ls|] eqn:El; [|done]. simpl in H.
  destruct (impl_stage_runs_1d d ps os ls) as [staged|] eqn:Est; [|done]. simpl in H.
  apply as_dst_weaken in Ed as Ed'. destruct Ed' as [-> Ed'].
  destruct (as_ints_ok _ _ Es) as [Hsrc Hps], (as_ints_ok _ _ Eo) as [_ Hos], (as_ints_ok _ _ El) as [_ Hls].
  pose proof (impl_stage_ok _ _ _ _ _ Hps Hos Hls Est) as Hstaged.
  pose proof (staged_addressable _ _ _ _ _ _ Hspace Hsrc Hstaged) as Haddr. destruct Hstaged as [_ _ Hok Hap].
  exists staged. unfold stage_runs_1d, memcpy_peer_batch_async. rewrite Ed, Ed'. simpl.
  rewrite Es, Eo, El. simpl. rewrite Est. simpl. split_and!; try done.
  - destruct staged as [|r0 staged]; [by destruct stream|].
    unfold run_or_submit. destruct stream; [done|]. by rewrite copy_all_tasks.
  - destruct staged; injection H as <-; by destruct stream.
  - intros Hs order Hp a. apply copy_all_order; [done| |done..].
    by apply ForallOrdPairs_fmap in Hap.
Qed.

Definition ex_dst : Buffer := mk_buffer 100 8 true true true.

Lemma ex_space : in_address_space ex_dst [PyInt 10; PyInt 0; PyInt 20].
Proof.
  split_and!; [by vm_compute|by vm_compute|]. intros s Hs.
  repeat (apply elem_of_cons in Hs as [[= ->]|Hs]; [by vm_compute|]). by apply not_elem_of_nil in Hs.
Qed.

(** Two runs, given out of order, and an empty one. *)
Example p2p_gather_correct_witness :
  sources_apart 100 [mk_run1 10 4 3; mk_run1 20 0 2] ∧
  ∃ r, p2p_gather_runs ex_dst [PyInt 10; PyInt 0; PyInt 20] [PyInt 4; PyInt 8; PyInt 0]
         [PyInt 3; PyInt 0; PyInt 2] None (λ a, a) = Ok r ∧
    r.1 106 = 12 ∧ r.1 100 = 20 ∧ r.1 103 = 103.
Proof.
  assert (sources_apart 100 [mk_run1 10 4 3; mk_run1 20 0 2]) as Hs.
  { intros r r' a Hr Hr'. unfold writes.
    repeat (apply elem_of_cons in Hr as [->|Hr] || apply elem_of_cons in Hr' as [->|Hr']);
      try (by apply not_elem_of_nil in Hr); try (by apply not_elem_of_nil in Hr'); simpl; lia. }
  split; [done|]. eexists. split; [reflexivity|].
  destruct (p2p_gather_correct ex_dst [PyInt 10; PyInt 0; PyInt 20] [PyInt 4; PyInt 8; PyInt 0]
    [PyInt 3; PyInt 0; PyInt 2] None (λ a, a) _ ex_space eq_refl) as (staged & Est & _ & _ & _ & -> & Heff).
  vm_compute in Est. injection Est as <-. cbn [fst].
  specialize (Heff Hs _ (reflexivity _)). rewrite !Heff. by vm_compute.
Defined.

(** The check looks at the source and the destination of one run only: a run
    may read what another run writes, and then the order matters. *)
Lemma crossing_runs_accepted :
  stage_runs_1d ex_dst [PyInt 10; PyInt 100] [PyInt 0; PyInt 4] [PyInt 2; PyInt 2] =
    Ok [mk_run1 10 0 2; mk_run1 100 4 2] ∧
  copy_all 100 [mk_run1 10 0 2; mk_run1 100 4 2] (λ a, a) 104 = 10 ∧
  copy_all 100 [mk_run1 100 4 2; mk_run1 10 0 2] (λ a, a) 104 = 100.
Proof. by vm_compute. Qed.

(** The check compares unreduced addresses: a source that overlaps the output
    is refused at its address, and accepted at that address plus 2 ^ 64, where
    the copy reads the destination all the same. *)
Lemma wrapped_source_accepted :
  stage_runs_1d ex_dst [PyInt 100] [PyInt 2] [PyInt 4] = Err (ValueError "src and dst ranges must not overlap") ∧
  ∃ m', p2p_gather_runs ex_dst [PyInt (100 + 2 ^ 64)] [PyInt 2] [PyInt 4] None (λ a, a) = Ok (m', None) ∧
    m' 102 = 100 ∧ m' 105 = 103.
Proof. split; [by vm_compute|]. eexists. split; [reflexivity|]. by vm_compute. Qed.

(** The example of the documentation, six bytes at offset 2 of a buffer of
    six, does not fit. *)
Lemma documented_gather_refused :
  p2p_gather_runs (mk_buffer 100 6 true true true) [PyInt 10] [PyInt 2] [PyInt 6] None (λ a, a)
  = Err (ValueError "run exceeds dst capacity").
Proof. reflexivity. Qed.

(** ** Strided tiles *)

(** The numbers of a run that a caller of the C interface could give. *)
Definition gather_unsigned (g : Gather2DRun) : Prop :=
  0 ≤ g_src g ∧ 0 ≤ g_src_stride g ∧ 0 ≤ g_dst_offset g ∧ 0 ≤ g_dst_stride g ∧
  0 ≤ g_width g ∧ 0 ≤ g_height g.

Definition tile_ok (dst : Buffer) (r : StagedRun2D) : Prop :=
  0 < r2_width r ≤ r2_dst_stride r ∧ r2_width r ≤ r2_src_stride r ∧ 0 < r2_src r ∧
  ∀ y, 0 ≤ y < r2_height r →
    0 ≤ r2_dst_offset r + y * r2_dst_stride r ∧
    r2_dst_offset r + y * r2_dst_stride r + r2_width r ≤ buf_nbytes dst.

Lemma stage_2d_ok (dst : Buffer) (out out' : list StagedRun2D) (g : Gather2DRun) :
  gather_unsigned g → Forall (tile_ok dst) out →
  stage_2d (buf_nbytes dst) out g = Ok out' → Forall (tile_ok dst) out'.
Proof.
  intros (? & ? & ? & ? & ? & ?) Ho Hst. unfold stage_2d in Hst.
  destruct ((g_width g =? 0) || (g_height g =? 0)) eqn:E; [by injection Hst as <-|].
  res_inv. zbool.
  match goal with H : py_floordiv _ _ = Ok ?q |- _ =>
    unfold py_floordiv in H; case_decide; [done|]; injection H as <- end.
  repeat match goal with H : (_ >? _) = false |- _ => rewrite Z.gtb_ltb, Z.ltb_ge in H end.
  apply Forall_app. split; [done|]. constructor; [|done]. unfold tile_ok. simpl.
  split; [lia|]. split; [lia|]. split; [lia|]. intros y Hy. nia.
Qed.

Lemma impl_stage_runs_2d_ok (dst : Buffer) (runs : list Gather2DRun) (out out' : list StagedRun2D) :
  Forall gather_unsigned runs → Forall (tile_ok dst) out →
  fold_result (stage_2d (buf_nbytes dst)) out runs = Ok out' → Forall (tile_ok dst) out'.
Proof.
  intros Hr. revert out. induction Hr as [|g runs Hg Hr IH]; intros out Ho; simpl.
  - by intros [= <-].
  - intros H. destruct (stage_2d _ out g) as [out1|] eqn:E; [|done]. eapply IH; [|done].
    by eapply stage_2d_ok.
Qed.

Lemma copy_row_outside {B} (dst : Buffer) (r : StagedRun2D) (m : Z → B) (y a : Z) :
  tile_ok dst r → 0 ≤ y < r2_height r →
  ¬ (buf_base dst ≤ a < buf_base dst + buf_nbytes dst) →
  copy_row (buf_base dst) r m y a = m a.
Proof.
  intros (Hw & _ & _ & Hr) Hy Ha. specialize (Hr y Hy). unfold copy_row, memmove.
  pose proof (c_size_t_le (r2_width r) ltac:(lia)) as Hsize.
  destruct (_ <=? a) eqn:E1, (a <? _) eqn:E2; simpl; zbool; done || lia.
Qed.

Lemma copy_all_2d_outside {B} (dst : Buffer) (runs : list StagedRun2D) (m : Z → B) (a : Z) :
  Forall (tile_ok dst) runs → ¬ (buf_base dst ≤ a < buf_base dst + buf_nbytes dst) →
  copy_all_2d (buf_base dst) runs m a = m a.
Proof.
  intros Hr Ha. unfold copy_all_2d. revert m. induction Hr as [|r runs Hr _ IH]; intros m; simpl; [done|].
  rewrite IH. assert (∀ ys, Forall (λ y, 0 ≤ y < r2_height r) ys → ∀ m : Z → B,
    foldl (copy_row (buf_base dst) r) m ys a = m a) as Hrows.
  { induction 1 as [|y ys Hy _ IHy]; intros m0; simpl; [done|]. rewrite IHy.
    by eapply copy_row_outside. }
  apply Hrows, Forall_forall. intros y. by rewrite elem_of_zrange.
Qed.

(** C38. A gather of strided tiles whose numbers are not negative leaves all
    memory outside the buffer alone, and every tile it accepts fits: each of
    its rows lies inside the buffer and rows do not run into each other. *)
Theorem p2p_gather_2d_in_bounds {B : Type} (dst : Buffer) (args : list RunArg) (m m' : Z → B) s :
  p2p_gather_runs_2d dst args None m = Ok (m', s) →
  (∀ g, RunDescriptor g ∈ args → gather_unsigned g) →
  (∀ fields, RunTuple fields ∈ args → Forall (λ i, 0 ≤ i) fields) →
  (∃ staged, stage_runs_2d dst args = Ok staged ∧ Forall (tile_ok dst) staged ∧
    m' = copy_all_2d (buf_base dst) staged m) ∧
  ∀ a, ¬ (buf_base dst ≤ a < buf_base dst + buf_nbytes dst) → m' a = m a.
Proof.
  intros H Hg Ht. unfold p2p_gather_runs_2d in H.
  destruct (as_dst dst true) as [d|] eqn:Ed; [|done]. simpl in H.
  destruct (unpack_runs args) as [gs|] eqn:Eg; [|done]. simpl in H.
  destruct (impl_stage_runs_2d d gs) as [staged|] eqn:Est; [|done]. simpl in H.
  destruct (as_dst_weaken _ _ Ed) as [-> Ed'].
  assert (Forall gather_unsigned gs) as Hgs.
  { unfold unpack_runs in Eg. rewrite map_result_Forall2 in Eg.
    clear -Eg Hg Ht. induction Eg as [|arg g args gs Hu _ IH]; [constructor|].
    constructor; [|apply IH; intros; [apply Hg|apply Ht]; by right].
    destruct arg as [g'|fields|]; simpl in Hu; [|..|done].
    - injection Hu as <-. apply Hg. by left.
    - specialize (Ht fields ltac:(by left)).
      do 7 (destruct fields as [|? fields]; try done). injection Hu as <-.
      rewrite !Forall_cons in Ht. unfold gather_unsigned. simpl. tauto. }
  assert (Forall (tile_ok dst) staged) as Hok by (by eapply impl_stage_runs_2d_ok).
  assert (m' = copy_all_2d (buf_base dst) staged m) as ->.
  { destruct staged; injection H as <- _; done. }
  split.
  - exists staged. unfold stage_runs_2d. rewrite Ed'. simpl. rewrite Eg. done.
  - intros a Ha. by apply copy_all_2d_outside.
Qed.

Example p2p_gather_2d_in_bounds_witness :
  ∃ m', p2p_gather_runs_2d ex_dst [RunTuple [10; 3; 0; 4; 2; 2]] None (λ a, a) = Ok (m', None) ∧
    m' 99 = 99 ∧ m' 108 = 108 ∧ m' 105 = 14.
Proof.
  eexists. split; [reflexivity|].
  destruct (p2p_gather_2d_in_bounds ex_dst [RunTuple [10; 3; 0; 4; 2; 2]] (λ a, a) _ None eq_refl)
    as [_ Hout].
  - intros g Hg. apply elem_of_cons in Hg as [?|Hg]; [done|]. by apply not_elem_of_nil in Hg.
  - intros f Hf. apply elem_of_cons in Hf as [[= ->]|Hf]; [|by apply not_elem_of_nil in Hf].
    repeat constructor; lia.
  - split; [apply Hout; simpl; lia|]. split; [apply Hout; simpl; lia|]. by vm_compute.
Defined.

(** The numbers of a 2-D run are not checked for their sign, nor its tiles for
    overlap: this tile is copied to the bytes before the buffer, and the second
    tile of this list overwrites part of the first and reads it. *)
Lemma tile_before_buffer :
  (∃ m', p2p_gather_runs_2d ex_dst [RunDescriptor (mk_gather 10 2 (-4) 2 2 1)] None (λ a, a) =
    Ok (m', None) ∧ m' 96 = 10) ∧
  stage_runs_2d ex_dst
    [RunDescriptor (mk_gather 10 2 0 2 2 2); RunDescriptor (mk_gather 100 2 1 2 2 1)] =
    Ok [mk_run2 10 0 2 2 2 2; mk_run2 100 1 2 2 2 1].
Proof. split; [eexists; split; [reflexivity|]|]; by vm_compute. Qed.
