(* ===== verification/KvLayer.v ===== *)
(** * Gather and scatter of cache slots (_fallback.py: kv_gather_layer, kv_scatter_layer)

    One layer's keys and values are packed from arbitrary slots of a pool into
    pages, and put back.  An array is its attributes and its bytes; the bytes
    of the three arrays of a call are the memory its task works on. *)

From S2P Require Import Prelude HostStream.
Local Open Scope Z_scope.

(** ** Arrays *)
Inductive DType : Type := Float16 | UInt16 | Int16 | Int32 | Int64 | OtherDType.
#[export] Instance DType_eq_dec : EqDecision DType.
Proof. solve_decision. Defined.

Record ArrayInfo : Type := mk_info {
  ai_dtype : DType;
  ai_shape : list Z;
  ai_contiguous : bool;
  ai_writeable : bool
}.

Definition as_kv_array (a : ArrayInfo) : result ArrayInfo :=
  _ ← require (bool_decide (ai_dtype a ∈ [Float16; UInt16; Int16])) (TypeError "must be a BF16 or FP16 array");
  _ ← require (bool_decide (length (ai_shape a) = 3%nat)) (ValueError "must be 3-D");
  _ ← require (ai_contiguous a) (ValueError "must be C-contiguous");
  Ok a.

Definition as_slot_ids (a : ArrayInfo) : result ArrayInfo :=
  _ ← require (bool_decide (ai_dtype a ∈ [Int32; Int64])) (TypeError "must be int32 or int64");
  _ ← require (bool_decide (length (ai_shape a) = 2%nat)) (ValueError "must be 2-D");
  _ ← require (ai_contiguous a) (ValueError "must be C-contiguous");
  Ok a.

(** [num_slots, num_kv_heads, head_dim = k.shape] and
    [num_pages, page_size = slots.shape] *)
Definition unpack3 (shape : list Z) : result (Z * Z * Z) :=
  match shape with [a; b; c] => Ok (a, b, c) | _ => Err (ValueError "unpack") end.
Definition unpack2 (shape : list Z) : result (Z * Z) :=
  match shape with [a; b] => Ok (a, b) | _ => Err (ValueError "unpack") end.

Definition in_range (num_slots : Z) (ids : list Z) : bool :=
  forallb (λ i, (0 <=? i) && (i <? num_slots)) ids.

(** ** Rows *)
Section rows.
Context {B : Type}.

Record KvMemory : Type := mk_kv {
  kv_k : list B;
  kv_v : list B;
  kv_pages : list B
}.

(** [a.view(np.uint8).reshape(n, size)] *)
Definition rows_of (n size : nat) (bytes : list B) : list (list B) :=
  reshape (replicate n size) bytes.

(** [d_flat[:, j, :] = rows] for [d_flat] of shape [n, 2, size]. *)
Definition set_plane (j : nat) (rows : list (list B)) (flat : list (list (list B))) :
    list (list (list B)) :=
  zip_with (λ row pair, <[j := row]> pair) rows flat.

(** [a[ids] = rows] *)
Definition set_rows (ids : list nat) (rows a : list (list B)) : list (list B) :=
  foldl (λ a '(i, row), <[i := row]> a) a (zip ids rows).

Definition gather_task (num_slots slot_bytes : nat) (ids : list nat) (m : KvMemory) : KvMemory :=
  let k_flat := rows_of num_slots slot_bytes (kv_k m) in
  let v_flat := rows_of num_slots slot_bytes (kv_v m) in
  let d_flat := rows_of 2 slot_bytes <$> rows_of (length ids) (2 * slot_bytes) (kv_pages m) in
  let gathered_k := (λ i, k_flat !!! i) <$> ids in
  let gathered_v := (λ i, v_flat !!! i) <$> ids in
  let d_flat := set_plane 0 gathered_k d_flat in
  let d_flat := set_plane 1 gathered_v d_flat in
  mk_kv (kv_k m) (kv_v m) (mjoin (mjoin <$> d_flat)).

Definition scatter_task (num_slots slot_bytes : nat) (ids : list nat) (m : KvMemory) : KvMemory :=
  let k_flat := rows_of num_slots slot_bytes (kv_k m) in
  let v_flat := rows_of num_slots slot_bytes (kv_v m) in
  let s_flat := rows_of 2 slot_bytes <$> rows_of (length ids) (2 * slot_bytes) (kv_pages m) in
  mk_kv (mjoin (set_rows ids ((λ pair, pair !!! 0%nat) <$> s_flat) k_flat))
        (mjoin (set_rows ids ((λ pair, pair !!! 1%nat) <$> s_flat) v_flat))
        (kv_pages m).

(** ** The calls *)

(** The checks both calls share once the arrays are known to be arrays: [None]
    when there is nothing to do, else the number of slots and the slot size. *)
Definition kv_layout (k v slots pages : ArrayInfo) : result (option (nat * nat)) :=
  _ ← require (bool_decide (ai_shape k = ai_shape v)) (ValueError "k and v must have the same shape");
  _ ← require (bool_decide (ai_dtype k = ai_dtype v)) (TypeError "k and v must have the same dtype");
  '(num_slots, num_kv_heads, head_dim) ← unpack3 (ai_shape k);
  '(num_pages, page_size) ← unpack2 (ai_shape slots);
  _ ← require (bool_decide (ai_shape pages = [num_pages; page_size; 2; num_kv_heads; head_dim]))
        (ValueError "shape does not match");
  if num_pages =? 0 then Ok None
  else if page_size =? 0 then Ok None
  else
    _ ← require (negb (num_slots =? 0)) (ValueError "num_slots must be positive when num_pages > 0");
    _ ← require (negb ((num_kv_heads =? 0) || (head_dim =? 0)))
          (ValueError "num_kv_heads and head_dim must be positive");
    Ok (Some (Z.to_nat num_slots, Z.to_nat (num_kv_heads * head_dim * 2))).

Definition kv_gather_layer (k v slots dst : ArrayInfo) (ids : list Z)
    (stream : option (Stream (KvMemory → KvMemory))) (m : KvMemory) :
    result (KvMemory * option (Stream (KvMemory → KvMemory))) :=
  k ← as_kv_array k;
  v ← as_kv_array v;
  slots ← as_slot_ids slots;
  _ ← require (bool_decide (ai_dtype dst = ai_dtype k)) (TypeError "dst must have the same dtype");
  _ ← require (bool_decide (length (ai_shape dst) = 5%nat)) (ValueError "dst must be 5-D");
  _ ← require (ai_contiguous dst) (ValueError "dst must be C-contiguous");
  _ ← require (ai_writeable dst) (ValueError "dst must be writable");
  layout ← kv_layout k v slots dst;
  match layout with
  | None => Ok (m, stream)
  | Some (num_slots, slot_bytes) =>
      _ ← require (in_range (Z.of_nat num_slots) ids) (ValueError "slot_ids out of range");
      Ok (run_or_submit stream [gather_task num_slots slot_bytes (Z.to_nat <$> ids)] m)
  end.

Definition kv_scatter_layer (k v slots src : ArrayInfo) (ids : list Z)
    (stream : option (Stream (KvMemory → KvMemory))) (m : KvMemory) :
    result (KvMemory * option (Stream (KvMemory → KvMemory))) :=
  k ← as_kv_array k;
  v ← as_kv_array v;
  slots ← as_slot_ids slots;
  _ ← require (bool_decide (ai_dtype src = ai_dtype k)) (TypeError "src must have the same dtype");
  _ ← require (bool_decide (length (ai_shape src) = 5%nat)) (ValueError "src must be 5-D");
  _ ← require (ai_contiguous src) (ValueError "src must be C-contiguous");
  _ ← require (ai_writeable k) (ValueError "k_dst must be writable");
  _ ← require (ai_writeable v) (ValueError "v_dst must be writable");
  layout ← kv_layout k v slots src;
  match layout with
  | None => Ok (m, stream)
  | Some (num_slots, slot_bytes) =>
      _ ← require (in_range (Z.of_nat num_slots) ids) (ValueError "slot_ids out of range");
      _ ← require (bool_decide (NoDup ids)) (ValueError "slot_ids must be unique");
      Ok (run_or_submit stream [scatter_task num_slots slot_bytes (Z.to_nat <$> ids)] m)
  end.
End rows.
Arguments KvMemory : clear implicits.

(** The bytes an array of 2-byte elements occupies. *)
Definition nbytes (a : ArrayInfo) : nat := Z.to_nat (zprod (ai_shape a) * 2).

(** The memory belongs to the arrays; no dimension is negative; [ids] are the
    elements of [slots]. *)
Record kv_wf {B} (k v slots pages : ArrayInfo) (ids : list Z) (m : KvMemory B) : Prop := {
  kw_dims : ∀ a d, a ∈ [k; v; slots; pages] → d ∈ ai_shape a → 0 ≤ d;
  kw_k : length (kv_k m) = nbytes k;
  kw_v : length (kv_v m) = nbytes v;
  kw_pages : length (kv_pages m) = nbytes pages;
  kw_ids : length ids = Z.to_nat (zprod (ai_shape slots))
}.

(** ** Rows and bytes *)
Section row_lemmas.
Context {B : Type}.
Implicit Types (bytes : list B) (rows : list (list B)).

Lemma length_rows_of (n size : nat) bytes : length (rows_of n size bytes) = n.
Proof. unfold rows_of. by rewrite length_reshape, length_replicate. Qed.

Lemma rows_of_size (n size : nat) bytes : length bytes = (n * size)%nat →
  Forall (λ row, length row = size) (rows_of n size bytes).
Proof.
  unfold rows_of. revert bytes. induction n as [|n IH]; intros bytes Hl; simpl in *; [constructor|].
  constructor; [rewrite length_take; lia|]. apply IH. rewrite length_drop. lia.
Qed.

Lemma join_rows_of (n size : nat) bytes : length bytes = (n * size)%nat →
  mjoin (rows_of n size bytes) = bytes.
Proof. intros Hl. apply join_reshape. by rewrite sum_list_replicate, Hl. Qed.

Lemma rows_of_join (n size : nat) rows : length rows = n →
  Forall (λ row, length row = size) rows → rows_of n size (mjoin rows) = rows.
Proof.
  unfold rows_of. intros <-. induction 1 as [|row rows Hrow _ IH]; [done|]. simpl.
  by rewrite take_app_length', drop_app_length', IH by done.
Qed.

Lemma length_join_rows (size : nat) rows :
  Forall (λ row, length row = size) rows → length (mjoin rows) = (length rows * size)%nat.
Proof. induction 1 as [|row rows Hrow _ IH]; simpl; [done|]. rewrite length_app. lia. Qed.

(** Replacing both planes leaves nothing of the destination. *)
Lemma set_planes (rows0 rows1 : list (list B)) (flat : list (list (list B))) :
  Forall (λ pair, length pair = 2%nat) flat → length rows0 = length flat →
  length rows1 = length flat →
  set_plane 1 rows1 (set_plane 0 rows0 flat) = zip_with (λ a b, [a; b]) rows0 rows1.
Proof.
  intros Hf. revert rows0 rows1. induction Hf as [|pair flat Hp _ IH]; intros [|a rows0] [|b rows1] H0 H1;
    try done; simpl in *. unfold set_plane in *. simpl. rewrite IH by lia.
  destruct pair as [|x [|y [|]]]; done.
Qed.

Lemma set_rows_lookup (ids : list nat) rows (a : list (list B)) (i : nat) :
  NoDup ids → length rows = length ids → Forall (λ i, (i < length a)%nat) ids →
  (i ∉ ids → set_rows ids rows a !! i = a !! i) ∧
  (∀ j, ids !! j = Some i → set_rows ids rows a !! i = rows !! j) ∧
  length (set_rows ids rows a) = length a.
Proof.
  unfold set_rows. intros Hnd. revert rows a. induction Hnd as [|i0 ids Hi0 Hnd IH]; intros [|row rows] a Hl Hlt;
    try done. simpl in *.
  apply Forall_cons in Hlt as [Hi0lt Hlt].
  destruct (IH rows (<[i0:=row]> a)) as (H1 & H2 & H3); [lia|by setoid_rewrite length_insert|].
  rewrite length_insert in H3. split; [|split; [|done]].
  - intros [Hne Hni]%not_elem_of_cons. rewrite H1 by done. by rewrite list_lookup_insert_ne.
  - intros [|j] Hj; simpl in *; [|by apply H2]. injection Hj as ->.
    rewrite H1 by done. by rewrite list_lookup_insert_eq.
Qed.
End row_lemmas.

(** ** Gather and scatter on memory *)
Section tasks.
Context {B : Type} (num size : nat) (ids : list nat).
Implicit Types (m : KvMemory B).

(** The memory has [num] slots on both sides and a row pair per id. *)
Record sized m : Prop := {
  sz_k : length (kv_k m) = (num * size)%nat;
  sz_v : length (kv_v m) = (num * size)%nat;
  sz_pages : length (kv_pages m) = (length ids * (2 * size))%nat
}.

Definition k_row m (i : nat) : list B := rows_of num size (kv_k m) !!! i.
Definition v_row m (i : nat) : list B := rows_of num size (kv_v m) !!! i.
(** The pages as pairs of rows. *)
Definition page_rows m : list (list (list B)) :=
  rows_of 2 size <$> rows_of (length ids) (2 * size) (kv_pages m).

Lemma length_page_rows m : length (page_rows m) = length ids.
Proof. unfold page_rows. by rewrite length_fmap, length_rows_of. Qed.

Lemma page_rows_pairs m : Forall (λ pair, length pair = 2%nat) (page_rows m).
Proof.
  unfold page_rows. apply Forall_fmap, Forall_forall. intros row _. apply length_rows_of.
Qed.

Lemma page_rows_size m : sized m →
  Forall (λ pair, Forall (λ row, length row = size) pair) (page_rows m).
Proof.
  intros Hs. unfold page_rows. apply Forall_fmap.
  eapply Forall_impl; [apply rows_of_size, Hs|]. intros row Hrow. by apply rows_of_size.
Qed.

Lemma join_page_rows m : sized m → mjoin (mjoin <$> page_rows m) = kv_pages m.
Proof.
  intros Hs. unfold page_rows. rewrite <- list_fmap_compose.
  rewrite <- (join_rows_of (length ids) (2 * size) (kv_pages m)) at 2 by apply Hs. f_equal.
  transitivity (id <$> rows_of (length ids) (2 * size) (kv_pages m)); [|apply list_fmap_id].
  apply list_fmap_ext. intros i row Hrow. change (mjoin (rows_of 2 size row) = row).
  apply join_rows_of. pose proof (rows_of_size (length ids) (2 * size) (kv_pages m) (sz_pages _ Hs)) as Hsz.
  by eapply Forall_lookup_1 in Hsz.
Qed.

(** The gather writes the rows of the named slots into the pages. *)
Lemma gather_pairs m : sized m → Forall (λ i, (i < num)%nat) ids →
  kv_pages (gather_task num size ids m) = mjoin (mjoin <$> ((λ i, [k_row m i; v_row m i]) <$> ids)).
Proof.
  intros Hs Hi. unfold gather_task. cbn [kv_pages]. fold (page_rows m).
  rewrite set_planes by (rewrite ?length_fmap, ?length_page_rows; done || apply page_rows_pairs).
  do 2 f_equal. rewrite zip_with_fmap_l, zip_with_fmap_r.
  change (zip_with (λ x y, [k_row m x; v_row m y]) ids ids = (λ i, [k_row m i; v_row m i]) <$> ids).
  clear. induction ids as [|i ids' IH]; simpl; [done|]. by rewrite IH.
Qed.

Lemma row_in_range m (i : nat) : sized m → (i < num)%nat →
  rows_of num size (kv_k m) !! i = Some (k_row m i) ∧ rows_of num size (kv_v m) !! i = Some (v_row m i).
Proof.
  intros Hs Hi. split; apply list_lookup_lookup_total_lt; by rewrite length_rows_of.
Qed.

(** One side of a scatter. *)
Lemma scatter_side (bytes : list B) (rows : list (list B)) :
  NoDup ids → Forall (λ i, (i < num)%nat) ids → length bytes = (num * size)%nat →
  length rows = length ids → Forall (λ row, length row = size) rows →
  let bytes' := mjoin (set_rows ids rows (rows_of num size bytes)) in
  length bytes' = (num * size)%nat ∧
  (∀ i, (i < num)%nat → i ∉ ids → rows_of num size bytes' !!! i = rows_of num size bytes !!! i) ∧
  (λ i, rows_of num size bytes' !!! i) <$> ids = rows.
Proof.
  intros Hnd Hi Hb Hrl Hrs bytes'.
  assert (Forall (λ i, (i < length (rows_of num size bytes))%nat) ids) as Hi'
    by (by rewrite length_rows_of).
  pose proof (λ i, set_rows_lookup ids rows (rows_of num size bytes) i Hnd Hrl Hi') as Hlook.
  assert (Forall (λ row, length row = size) (set_rows ids rows (rows_of num size bytes))) as Hset.
  { apply Forall_lookup. intros i row Hrow. destruct (Hlook i) as (H1 & H2 & _).
    destruct (decide (i ∈ ids)) as [[j Hj]%list_elem_of_lookup|Hn].
    - rewrite (H2 _ Hj) in Hrow. by eapply Forall_lookup_1 in Hrs.
    - rewrite H1 in Hrow by done. pose proof (rows_of_size num size bytes Hb) as Hsz.
      by eapply Forall_lookup_1 in Hsz. }
  assert (length (set_rows ids rows (rows_of num size bytes)) = num) as Hlen.
  { destruct (Hlook 0%nat) as (_ & _ & ->). apply length_rows_of. }
  assert (rows_of num size bytes' = set_rows ids rows (rows_of num size bytes)) as Hrows
    by (by apply rows_of_join).
  split; [|rewrite Hrows; split].
  - unfold bytes'. by rewrite (length_join_rows size), Hlen.
  - intros i Hlt Hn. destruct (Hlook i) as (H1 & _ & _).
    rewrite !list_lookup_total_alt. by rewrite H1.
  - apply list_eq_same_length with (n := length ids); [done|by rewrite length_fmap|].
    intros j x y _ Hx Hy. apply list_lookup_fmap_Some in Hx as (i & -> & Hj).
    destruct (Hlook i) as (_ & H2 & _). rewrite list_lookup_total_alt, (H2 _ Hj), Hy. done.
Qed.

(** The scatter writes the pages into the named slots and no others. *)
Lemma scatter_rows m : sized m → NoDup ids → Forall (λ i, (i < num)%nat) ids →
  let m' := scatter_task num size ids m in
  sized m' ∧ kv_pages m' = kv_pages m ∧
  (∀ i, (i < num)%nat → i ∉ ids → k_row m' i = k_row m i ∧ v_row m' i = v_row m i) ∧
  (λ i, [k_row m' i; v_row m' i]) <$> ids = page_rows m.
Proof.
  intros Hs Hnd Hi m'.
  set (plane := λ j, (λ pair, pair !!! j) <$> page_rows m).
  assert (∀ j, length (plane j) = length ids) as Hp
    by (intros; unfold plane; by rewrite length_fmap, length_page_rows).
  assert (∀ j, (j < 2)%nat → Forall (λ row, length row = size) (plane j)) as Hpsz.
  { intros j Hj. unfold plane. apply Forall_fmap, Forall_forall. intros pair Hin.
    pose proof (page_rows_size m Hs) as Hsz. pose proof (page_rows_pairs m) as Hpr.
    rewrite Forall_forall in Hsz, Hpr. specialize (Hsz pair Hin). specialize (Hpr pair Hin).
    simpl in *. apply (Forall_lookup_1 (λ row, length row = size) pair j); [done|].
    apply list_lookup_lookup_total_lt. lia. }
  destruct (scatter_side (kv_k m) (plane 0%nat) Hnd Hi (sz_k _ Hs) (Hp 0%nat) (Hpsz 0%nat ltac:(lia)))
    as (Hk1 & Hk2 & Hk3).
  destruct (scatter_side (kv_v m) (plane 1%nat) Hnd Hi (sz_v _ Hs) (Hp 1%nat) (Hpsz 1%nat ltac:(lia)))
    as (Hv1 & Hv2 & Hv3).
  split; [|split; [done|split]].
  - constructor; [done|done|apply Hs].
  - intros i Hlt Hn. split; [by apply Hk2|by apply Hv2].
  - pose proof (page_rows_pairs m) as Hpr. unfold plane in Hk3, Hv3.
    assert (∀ (f g : nat → list B) (l : list nat) (ps : list (list (list B))),
      f <$> l = (λ pair, pair !!! 0%nat) <$> ps → g <$> l = (λ pair, pair !!! 1%nat) <$> ps →
      Forall (λ pair, length pair = 2%nat) ps → (λ i, [f i; g i]) <$> l = ps) as Hzip.
    { clear. intros f g l ps Hf Hg Hps. revert l Hf Hg.
      induction Hps as [|pair ps Hpair _ IH]; intros [|i l] Hf Hg; try done.
      injection Hf as Hf1 Hf2. injection Hg as Hg1 Hg2. rewrite fmap_cons, (IH l Hf2 Hg2).
      destruct pair as [|x [|y [|]]]; try done. simpl in *. by rewrite Hf1, Hg1. }
    by apply (Hzip (k_row m') (v_row m')).
Qed.

(** A scatter followed by a gather of the same slots gives the pages back. *)
Lemma gather_after_scatter m m2 : sized m → NoDup ids → Forall (λ i, (i < num)%nat) ids →
  let m' := scatter_task num size ids m in
  kv_k m2 = kv_k m' → kv_v m2 = kv_v m' → length (kv_pages m2) = length (kv_pages m) →
  kv_pages (gather_task num size ids m2) = kv_pages m.
Proof.
  intros Hs Hnd Hi m' Hk Hv Hp. destruct (scatter_rows m Hs Hnd Hi) as (Hs' & _ & _ & Hrows).
  fold m' in Hs', Hrows.
  assert (sized m2) as Hs2.
  { constructor; rewrite ?Hk, ?Hv; [apply Hs'..|]. rewrite Hp. apply Hs. }
  rewrite gather_pairs by done. rewrite <- (join_page_rows m Hs), <- Hrows.
  do 2 f_equal. apply list_fmap_ext. intros _ i _. unfold k_row, v_row. by rewrite Hk, Hv.
Qed.
End tasks.

(** ** The calls *)
Lemma kv_layout_shape (k v slots pages : ArrayInfo) (layout : option (nat * nat)) :
  kv_layout k v slots pages = Ok layout →
  ∃ n h d p q, ai_shape k = [n; h; d] ∧ ai_shape v = [n; h; d] ∧ ai_shape slots = [p; q] ∧
    ai_shape pages = [p; q; 2; h; d] ∧
    match layout with
    | None => p = 0 ∨ q = 0
    | Some (num, size) => num = Z.to_nat n ∧ size = Z.to_nat (h * d * 2)
    end.
Proof.
  unfold kv_layout, unpack3, unpack2. intros H.
  destruct (bool_decide (ai_shape k = ai_shape v)) eqn:Ekv; [|done].
  apply bool_decide_eq_true in Ekv. simpl in H.
  destruct (bool_decide (ai_dtype k = ai_dtype v)); [|done]. simpl in H. rewrite <- Ekv.
  destruct (ai_shape k) as [|n [|h [|d [|]]]]; try done. simpl in H.
  destruct (ai_shape slots) as [|p [|q [|]]]; try done. simpl in H.
  destruct (bool_decide (ai_shape pages = [p; q; 2; h; d])) eqn:Ep; [|done].
  apply bool_decide_eq_true in Ep. simpl in H. exists n, h, d, p, q. do 4 (split; [done|]).
  destruct (p =? 0) eqn:E1; [injection H as <-; left; by apply Z.eqb_eq|].
  destruct (q =? 0) eqn:E2; [injection H as <-; right; by apply Z.eqb_eq|].
  res_inv. done.
Qed.

Lemma kv_layout_sized {B} (k v slots pages : ArrayInfo) (ids : list Z) (m : KvMemory B) num size :
  kv_wf k v slots pages ids m → kv_layout k v slots pages = Ok (Some (num, size)) →
  sized num size (Z.to_nat <$> ids) m.
Proof.
  intros [Hd Hk Hv Hp Hi] Hl.
  destruct (kv_layout_shape _ _ _ _ _ Hl) as (n & h & d & p & q & Ek & Ev & Es & Ep & -> & ->).
  assert (0 ≤ n ∧ 0 ≤ h ∧ 0 ≤ d) as (? & ? & ?).
  { split_and!; apply (Hd k); rewrite ?Ek; repeat constructor. }
  assert (0 ≤ p ∧ 0 ≤ q) as (? & ?).
  { split; apply (Hd slots); rewrite ?Es; repeat constructor. }
  unfold nbytes in *. rewrite Ek, Ev, Es, Ep in *. unfold zprod in *. simpl in *.
  constructor; rewrite ?length_fmap, ?Hi, ?Hk, ?Hv, ?Hp; nia.
Qed.

Lemma in_range_ok (num : nat) (ids : list Z) : in_range (Z.of_nat num) ids = true →
  Forall (λ i, (i < num)%nat) (Z.to_nat <$> ids) ∧ Forall (λ i, 0 ≤ i) ids.
Proof.
  unfold in_range. rewrite forallb_forall. intros H. split.
  - apply Forall_fmap, Forall_forall. intros i Hi%list_elem_of_In. specialize (H i Hi). zbool.
    simpl. lia.
  - apply Forall_forall. intros i Hi%list_elem_of_In. specialize (H i Hi). by zbool.
Qed.

Lemma to_nat_NoDup (ids : list Z) : Forall (λ i, 0 ≤ i) ids → NoDup ids → NoDup (Z.to_nat <$> ids).
Proof.
  intros Hp Hnd. apply NoDup_fmap_2_strong; [|done]. rewrite Forall_forall in Hp.
  intros x y Hx%Hp Hy%Hp. lia.
Qed.

(** What a scatter that returns has checked. *)
Record scatter_checked (k v slots pages : ArrayInfo) (ids : list Z) (layout : option (nat * nat)) :
    Prop := {
  sc_k : as_kv_array k = Ok k;
  sc_v : as_kv_array v = Ok v;
  sc_slots : as_slot_ids slots = Ok slots;
  sc_dtype : ai_dtype pages = ai_dtype k;
  sc_dims : length (ai_shape pages) = 5%nat;
  sc_contiguous : ai_contiguous pages = true;
  sc_layout : kv_layout k v slots pages = Ok layout;
  sc_ids : ∀ num size, layout = Some (num, size) → in_range (Z.of_nat num) ids = true ∧ NoDup ids
}.

Lemma as_kv_array_ok (a b : ArrayInfo) : as_kv_array a = Ok b → b = a.
Proof. unfold as_kv_array. intros H. by res_inv. Qed.
Lemma as_slot_ids_ok (a b : ArrayInfo) : as_slot_ids a = Ok b → b = a.
Proof. unfold as_slot_ids. intros H. by res_inv. Qed.

Lemma kv_scatter_checked {B} (k v slots pages : ArrayInfo) (ids : list Z) (m : KvMemory B) r :
  kv_scatter_layer k v slots pages ids None m = Ok r →
  ∃ layout, scatter_checked k v slots pages ids layout ∧
    r = (match layout with
         | None => m
         | Some (num, size) => scatter_task num size (Z.to_nat <$> ids) m
         end, None).
Proof.
  unfold kv_scatter_layer. intros H.
  destruct (as_kv_array k) as [k'|] eqn:Ek; [|done]. simpl in H.
  destruct (as_kv_array v) as [v'|] eqn:Ev; [|done]. simpl in H.
  destruct (as_slot_ids slots) as [s'|] eqn:Es; [|done]. simpl in H.
  pose proof (as_kv_array_ok _ _ Ek) as ->. pose proof (as_kv_array_ok _ _ Ev) as ->.
  pose proof (as_slot_ids_ok _ _ Es) as ->.
  repeat (apply require_bind in H as [? H]).
  destruct (kv_layout k v slots pages) as [layout|] eqn:El; [|done]. simpl in H.
  exists layout. repeat match goal with H : bool_decide _ = true |- _ => apply bool_decide_eq_true in H end.
  destruct layout as [[num size]|].
  - repeat (apply require_bind in H as [? H]). injection H as <-.
    repeat match goal with H : bool_decide _ = true |- _ => apply bool_decide_eq_true in H end.
    split; [|done]. constructor; try done. intros ? ? [= <- <-]. done.
  - injection H as <-. split; [|done]. constructor; done.
Qed.

Lemma kv_gather_runs {B} (k v slots pages : ArrayInfo) (ids : list Z) layout (m : KvMemory B) :
  scatter_checked k v slots pages ids layout → ai_writeable pages = true →
  kv_gather_layer k v slots pages ids None m =
    Ok (match layout with
        | None => m
        | Some (num, size) => gather_task num size (Z.to_nat <$> ids) m
        end, None).
Proof.
  intros [Ek Ev Es Hd Hn Hc El Hi] Hw. unfold kv_gather_layer. rewrite Ek, Ev, Es. simpl.
  rewrite !bool_decide_true, Hc, Hw by done. simpl. rewrite El. simpl.
  destruct layout as [[num size]|]; [|done]. destruct (Hi num size eq_refl) as [-> _]. done.
Qed.

(** C39. Restoring pages into a pool and gathering them again gives the pages
    back: a scatter that returns changes only the rows of the slots it names,
    and a later gather with the same slots, from the pool it left and into
    pages of the same shape, returns and reproduces the pages byte for byte. *)
Theorem kv_restore_roundtrip {B} (k v slots pages : ArrayInfo) (ids : list Z) (m m1 : KvMemory B) :
  kv_wf k v slots pages ids m →
  kv_scatter_layer k v slots pages ids None m = Ok (m1, None) →
  (∀ num size i, kv_layout k v slots pages = Ok (Some (num, size)) →
    (i < num)%nat → Z.of_nat i ∉ ids →
    rows_of num size (kv_k m1) !!! i = rows_of num size (kv_k m) !!! i ∧
    rows_of num size (kv_v m1) !!! i = rows_of num size (kv_v m) !!! i) ∧
  (∀ m2, ai_writeable pages = true → kv_k m2 = kv_k m1 → kv_v m2 = kv_v m1 →
    length (kv_pages m2) = nbytes pages →
    ∃ m3, kv_gather_layer k v slots pages ids None m2 = Ok (m3, None) ∧
      kv_pages m3 = kv_pages m ∧ kv_k m3 = kv_k m1 ∧ kv_v m3 = kv_v m1).
Proof.
  intros Hwf Hsc. destruct (kv_scatter_checked _ _ _ _ _ _ _ Hsc) as (layout & Hck & [= ->]).
  assert (∀ num size, layout = Some (num, size) → sized num size (Z.to_nat <$> ids) m ∧
    NoDup (Z.to_nat <$> ids) ∧ Forall (λ i, (i < num)%nat) (Z.to_nat <$> ids)) as Hfacts.
  { intros num size ->. destruct (sc_ids _ _ _ _ _ _ Hck num size eq_refl) as [Hr Hnd].
    destruct (in_range_ok num ids Hr) as [? ?]. split; [|split; [by apply to_nat_NoDup|done]].
    eapply kv_layout_sized; [done|apply Hck]. }
  split.
  - intros num size i Hl Hi Hn. pose proof (sc_layout _ _ _ _ _ _ Hck) as Hl'.
    rewrite Hl in Hl'. injection Hl' as <-. destruct (Hfacts num size eq_refl) as (Hs & Hnd & Hlt).
    destruct (scatter_rows num size (Z.to_nat <$> ids) m Hs Hnd Hlt) as (_ & _ & Hother & _).
    apply Hother; [done|]. intros (z & -> & Hz)%list_elem_of_fmap. apply Hn.
    destruct (sc_ids _ _ _ _ _ _ Hck num size eq_refl) as [[_ Hp]%in_range_ok _].
    rewrite Forall_forall in Hp. by rewrite Z2Nat.id by auto.
  - intros m2 Hw Hk Hv Hp. rewrite (kv_gather_runs _ _ _ _ _ _ _ Hck Hw). eexists. split; [done|].
    destruct layout as [[num size]|].
    + destruct (Hfacts num size eq_refl) as (Hs & Hnd & Hlt). split; [|done].
      apply gather_after_scatter; try done. by rewrite Hp, (kw_pages _ _ _ _ _ _ Hwf).
    + split; [|done]. pose proof (kw_pages _ _ _ _ _ _ Hwf) as Hp'.
      destruct (kv_layout_shape _ _ _ _ _ (sc_layout _ _ _ _ _ _ Hck)) as
        (n & h & d & p & q & _ & _ & _ & Ep & Hpq).
      assert (nbytes pages = 0%nat) as E0 by (unfold nbytes; rewrite Ep; unfold zprod; simpl; nia).
      rewrite E0 in Hp, Hp'. apply nil_length_inv in Hp, Hp'. congruence.
Qed.

(** Four slots of four bytes; one page with slots 3 and 1. *)
Definition ex_pool : ArrayInfo := mk_info UInt16 [4; 1; 2] true true.
Definition ex_slots : ArrayInfo := mk_info Int32 [1; 2] true true.
Definition ex_pages : ArrayInfo := mk_info UInt16 [1; 2; 2; 1; 2] true true.
Definition ex_kv : KvMemory Z := mk_kv (replicate 16 0) (replicate 16 1) (zrange 16).

Example kv_restore_roundtrip_witness : ∃ m1,
  kv_scatter_layer ex_pool ex_pool ex_slots ex_pages [3; 1] None ex_kv = Ok (m1, None) ∧
  drop 12 (kv_k m1) = [0; 1; 2; 3] ∧
  ∃ m3, kv_gather_layer ex_pool ex_pool ex_slots ex_pages [3; 1] None
      (mk_kv (kv_k m1) (kv_v m1) (replicate 16 9)) = Ok (m3, None) ∧ kv_pages m3 = zrange 16.
Proof.
  eexists. split; [reflexivity|]. split; [by vm_compute|].
  edestruct (kv_restore_roundtrip ex_pool ex_pool ex_slots ex_pages [3; 1] ex_kv) as [_ Hback];
    [|reflexivity|].
  - constructor; [|by vm_compute..]. intros a d Ha Hd.
    repeat (apply elem_of_cons in Ha as [->|Ha]); try (by apply not_elem_of_nil in Ha); simpl in Hd;
      repeat (apply elem_of_cons in Hd as [->|Hd]); try (by apply not_elem_of_nil in Hd); lia.
  - destruct (Hback (mk_kv _ _ (replicate 16 9)) eq_refl eq_refl eq_refl eq_refl)
      as (m3 & Hm3 & Hp & _).
    exists m3. split; [exact Hm3|]. rewrite Hp. by vm_compute.
Defined.
