(* ===== verification/MoeRouting.v ===== *)
(** * Routing tokens to experts (_fallback.py: moe_align_block_size; dist.py: ep_plan, ep_dispatch)

    A routing table names an expert for each selection of each token.  The
    alignment sorts the selections by expert and pads each group to whole
    blocks; expert parallelism restricts it to the experts of a rank. *)

From S2P Require Import Prelude Indexing.
Local Open Scope Z_scope.

(** ** Arrays filled in order

    [np.empty(n, dtype=np.int32)] with a cursor: [a[idx] = x; idx += 1]. *)
Definition fits_int32 (x : Z) : bool := (- 2 ^ 31 <=? x) && (x <? 2 ^ 31).

Record Cursor : Type := mk_cursor {
  cur_array : list (option Z);
  cur_idx : nat
}.

Definition cursor_empty (n : Z) : Cursor := mk_cursor (replicate (Z.to_nat n) None) 0.
Definition cursor_full (n x : Z) : Cursor := mk_cursor (replicate (Z.to_nat n) (Some x)) 0.

Definition cursor_put (x : Z) (c : Cursor) : result Cursor :=
  _ ← require (bool_decide (cur_idx c < length (cur_array c))%nat) (IndexError "out of bounds");
  _ ← require (fits_int32 x) (OverflowError "out of bounds for int32");
  Ok (mk_cursor (<[cur_idx c := Some x]> (cur_array c)) (S (cur_idx c))).

Definition cursor_puts (xs : list Z) (c : Cursor) : result Cursor :=
  fold_result (λ c x, cursor_put x c) c xs.

(** ** Alignment *)

(** [per_expert[e].append(i)] for every selection [i] with a valid expert. *)
Definition add_selection (ids : list Z) (num_experts : Z) (per_expert : list (list Z)) (i : Z) :
    result (list (list Z)) :=
  e ← py_index ids (Z.to_nat i);
  if (0 <=? e) && (e <? num_experts) then
    Ok (alter (λ l, l ++ [i]) (Z.to_nat e) per_expert)
  else Ok per_expert.

Definition padded (block_size : Z) (nt : nat) : Z :=
  ((Z.of_nat nt + block_size - 1) / block_size) * block_size.

(** The selections of an expert, then sentinels up to a whole block. *)
Definition put_expert (N block_size : Z) (c : Cursor) (tokens : list Z) : result Cursor :=
  c ← cursor_puts tokens c;
  cursor_puts (replicate (Z.to_nat (padded block_size (length tokens)) - length tokens) N) c.

Definition put_blocks (block_size : Z) (c : Cursor) (etokens : Z * list Z) : result Cursor :=
  let '(e, tokens) := etokens in
  let nt := Z.of_nat (length tokens) in
  fold_result (λ c b, cursor_put (if b * block_size <? nt then e else -1) c) c
    (zrange ((nt + block_size - 1) / block_size)).

Definition moe_align_block_size (ids : list Z) (M top_k block_size num_experts : Z) :
    result (list (option Z) * list (option Z) * Z) :=
  _ ← require (Z.of_nat (length ids) =? M * top_k) (ValueError "topk_ids must have M*top_k elements");
  _ ← require (negb (block_size <=? 0)) (ValueError "block_size must be positive");
  let N := M * top_k in
  per_expert ← fold_result (add_selection ids num_experts)
                 ((λ _, []) <$> zrange num_experts) (zrange N);
  let EM := zsum ((λ v, padded block_size (length v)) <$> per_expert) in
  sorted_ids ← fold_result (put_expert N block_size) (cursor_empty EM) per_expert;
  let num_blocks := EM / block_size in
  expert_ids ← fold_result (put_blocks block_size) (cursor_full num_blocks (-1))
                 (zip (zrange num_experts) per_expert);
  Ok (cur_array sorted_ids, cur_array expert_ids, EM).

(** ** Expert parallelism *)
Record EpPlan : Type := mk_ep {
  ep_ep : Z;
  ep_rank : Z;
  expert_begin : Z;
  expert_end : Z;
  num_local : Z
}.

Definition ep_plan (num_experts ep rank : Z) : result EpPlan :=
  _ ← require (negb (ep <=? 0)) (ValueError "ep must be positive");
  _ ← require (negb ((rank <? 0) || (rank >=? ep))) (ValueError "rank out of range");
  _ ← require (negb (num_experts <? ep)) (ValueError "num_experts must be at least ep");
  let base := num_experts / ep in
  let rem := num_experts `mod` ep in
  let begin := rank * base + (if rank <? rem then rank else rem) in
  let end_ := begin + base + (if rank <? rem then 1 else 0) in
  Ok (mk_ep ep rank begin end_ (end_ - begin)).

(** [masked = ids.copy(); masked[~owned] = -1] *)
Definition mask_ids (plan : EpPlan) (ids : list Z) : list Z :=
  (λ e, if (e >=? expert_begin plan) && (e <? expert_end plan) then e else -1) <$> ids.

(** [local[mask] -= plan["expert_begin"]] *)
Definition localize (plan : EpPlan) (expert_ids : list (option Z)) : list (option Z) :=
  (λ o : option Z, (λ e, if e >=? 0 then e - expert_begin plan else e) <$> o) <$> expert_ids.

Definition ep_dispatch (ids : list Z) (M top_k : Z) (plan : EpPlan) (num_experts block_size : Z) :
    result (list (option Z) * list (option Z) * Z) :=
  '(sorted_ids, expert_ids, EM) ← moe_align_block_size (mask_ids plan ids) M top_k block_size num_experts;
  Ok (sorted_ids, localize plan expert_ids, EM).

(** [mxfp4_moe_sort] and [mxfp4_moe_sort_scales]: row [flat // top_k] for each
    sorted id, zeros for padding. *)
Definition sort_rows {B} (zero : B) (rows : list (list B)) (sorted_ids : list Z)
    (M width top_k EM : Z) : result (list B) :=
  _ ← require (bool_decide (Z.of_nat (length rows) = M) &&
               forallb (λ row, bool_decide (Z.of_nat (length row) = width)) rows)
        (ValueError "must be [M, width]");
  _ ← require (bool_decide (Z.of_nat (length sorted_ids) = EM)) (ValueError "sorted_ids must have EM elements");
  out ← map_result (λ flat,
    if (0 <=? flat) && (flat <? M * top_k) then
      t ← py_floordiv flat top_k; py_index rows (Z.to_nat t)
    else Ok (replicate (Z.to_nat width) zero)) sorted_ids;
  Ok (mjoin (out : list (list B))).

(** ** Filling an array *)
Lemma cursor_puts_ok (xs : list Z) (done rest : list (option Z)) :
  (length xs ≤ length rest)%nat → Forall (λ x, fits_int32 x = true) xs →
  cursor_puts xs (mk_cursor (done ++ rest) (length done)) =
    Ok (mk_cursor ((done ++ (Some <$> xs)) ++ drop (length xs) rest) (length (done ++ (Some <$> xs)))).
Proof.
  intros Hl Hf. revert done rest Hl. induction Hf as [|x xs Hx _ IH]; intros done rest Hl; simpl in *.
  - by rewrite app_nil_r, drop_0.
  - destruct rest as [|r rest]; [simpl in *; lia|]. unfold cursor_puts in *. simpl.
    unfold cursor_put at 2. simpl.
    rewrite bool_decide_true by (rewrite length_app; simpl; lia). rewrite Hx. simpl.
    rewrite insert_app_r_alt, Nat.sub_diag by lia. simpl.
    specialize (IH (done ++ [Some x]) rest ltac:(simpl in *; lia)).
    rewrite <- (assoc_L (++)) in IH. simpl in IH. rewrite length_app, Nat.add_1_r in IH. rewrite IH.
    by rewrite <- !(assoc_L (++)).
Qed.

Lemma cursor_puts_app (xs ys : list Z) (c : Cursor) :
  cursor_puts (xs ++ ys) c = (c ← cursor_puts xs c; cursor_puts ys c).
Proof. apply fold_result_app. Qed.

Lemma cursor_puts_join {A} (f : A → list Z) (put : Cursor → A → result Cursor) (l : list A) (c : Cursor) :
  (∀ a c, put c a = cursor_puts (f a) c) → fold_result put c l = cursor_puts (mjoin (f <$> l)) c.
Proof.
  intros Hput. revert c. induction l as [|a l IH]; intros c; simpl; [done|].
  rewrite cursor_puts_app, Hput. destruct (cursor_puts (f a) c); simpl; [apply IH|done].
Qed.

(** An array filled from the first element to the last. *)
Lemma cursor_fill (xs : list Z) (a : list (option Z)) : length a = length xs →
  Forall (λ x, fits_int32 x = true) xs →
  cursor_puts xs (mk_cursor a 0) = Ok (mk_cursor (Some <$> xs) (length xs)).
Proof.
  intros Hl Hf. pose proof (cursor_puts_ok xs [] a ltac:(lia) Hf) as E. simpl in E. rewrite E.
  by rewrite drop_ge, app_nil_r, length_fmap by lia.
Qed.

(** ** The groups of the experts *)
Section groups.
Context (ids : list Z).

Definition expert_of (i : Z) : Z := ids !!! Z.to_nat i.
Definition group (e : Z) (is_ : list Z) : list Z := filter (λ i, expert_of i = e) is_.

Lemma add_selections (num_experts : Z) (before is_ : list Z) :
  (∀ i, i ∈ is_ → 0 ≤ i < Z.of_nat (length ids)) →
  fold_result (add_selection ids num_experts) ((λ e, group e before) <$> zrange num_experts) is_ =
    Ok ((λ e, group e (before ++ is_)) <$> zrange num_experts).
Proof.
  revert before. induction is_ as [|i is_ IH]; intros before Hin; simpl; [by rewrite app_nil_r|].
  specialize (Hin i ltac:(left)) as Hi. unfold add_selection at 2, py_index.
  destruct (lookup_lt_is_Some_2 ids (Z.to_nat i) ltac:(lia)) as [e He]. rewrite He. simpl.
  assert (expert_of i = e) as Ee by (unfold expert_of; by apply list_lookup_total_correct).
  assert (∀ per_expert,
    per_expert = (λ e, group e (before ++ [i])) <$> zrange num_experts →
    fold_result (add_selection ids num_experts) per_expert is_ =
      Ok ((λ e, group e (before ++ i :: is_)) <$> zrange num_experts)) as Hnext.
  { intros ? ->. rewrite IH by (intros j Hj; apply Hin; by right). by rewrite <- (assoc_L (++)). }
  assert (∀ e', group e' (before ++ [i]) =
    if decide (e' = e) then group e' before ++ [i] else group e' before) as Hgroup.
  { intros e'. unfold group. rewrite filter_app. destruct (decide (e' = e)) as [->|Hne].
    - by rewrite filter_cons_True by done.
    - rewrite filter_cons_False by congruence. by rewrite app_nil_r. }
  destruct ((0 <=? e) && (e <? num_experts)) eqn:Erange; simpl.
  - zbool. apply Hnext. apply list_eq. intros k. rewrite list_lookup_fmap.
    destruct (decide (k = Z.to_nat e)) as [->|Hk].
    + rewrite list_lookup_alter, decide_True, list_lookup_fmap, zrange_lookup by (done || lia).
      simpl. by rewrite Hgroup, decide_True.
    + rewrite list_lookup_alter_ne, list_lookup_fmap by done.
      destruct (zrange num_experts !! k) as [e'|] eqn:Ek; simpl; [|done].
      apply zrange_lookup_Some in Ek as [-> ?]. by rewrite Hgroup, decide_False by lia.
  - apply Hnext. apply list_fmap_ext. intros k e' Hk. apply zrange_lookup_Some in Hk as [-> ?].
    rewrite Hgroup, decide_False; [done|]. intros E. subst e.
    apply andb_false_iff in Erange as [?|?]; zbool; lia.
Qed.
End groups.

Lemma join_cons_eq {A} (x : list A) (l : list (list A)) : mjoin (x :: l) = x ++ mjoin l.
Proof. done. Qed.

(** ** The sorted layout *)
Section layout.
Context (ids : list Z) (N block_size num_experts : Z).
Hypothesis Hbs : 0 < block_size.
Hypothesis HN : N = Z.of_nat (length ids).
Hypothesis HNmax : N < 2 ^ 31.
Hypothesis Hemax : num_experts ≤ 2 ^ 31.
#[local] Set Default Proof Using "All".

Definition blocks_for (tokens : list Z) : nat :=
  Z.to_nat (ceil_div (Z.of_nat (length tokens)) block_size).
Definition group_rows (tokens : list Z) : list Z :=
  tokens ++ replicate (Z.to_nat (padded block_size (length tokens)) - length tokens) N.
Definition group_blocks (etokens : Z * list Z) : list Z :=
  replicate (blocks_for etokens.2) etokens.1.

Lemma padded_blocks (tokens : list Z) :
  Z.to_nat (padded block_size (length tokens)) = (blocks_for tokens * Z.to_nat block_size)%nat ∧
  (length tokens ≤ blocks_for tokens * Z.to_nat block_size)%nat.
Proof.
  unfold padded, blocks_for. fold (ceil_div (Z.of_nat (length tokens)) block_size).
  pose proof (ceil_div_nonneg (Z.of_nat (length tokens)) block_size Hbs ltac:(lia)) as H0.
  pose proof (ceil_div_bounds (Z.of_nat (length tokens)) block_size
    (ceil_div (Z.of_nat (length tokens)) block_size) Hbs) as Hb.
  split; [rewrite Z2Nat.inj_mul by lia; done|]. nia.
Qed.

Lemma length_group_rows (tokens : list Z) :
  length (group_rows tokens) = (blocks_for tokens * Z.to_nat block_size)%nat.
Proof.
  destruct (padded_blocks tokens). unfold group_rows. rewrite length_app, length_replicate. lia.
Qed.

Lemma put_expert_puts (tokens : list Z) (c : Cursor) :
  put_expert N block_size c tokens = cursor_puts (group_rows tokens) c.
Proof. unfold group_rows. by rewrite cursor_puts_app. Qed.

Lemma put_blocks_puts (etokens : Z * list Z) (c : Cursor) :
  put_blocks block_size c etokens = cursor_puts (group_blocks etokens) c.
Proof.
  destruct etokens as [e tokens]. unfold put_blocks, group_blocks, blocks_for, cursor_puts. simpl.
  fold (ceil_div (Z.of_nat (length tokens)) block_size).
  set (nb := ceil_div (Z.of_nat (length tokens)) block_size).
  assert (∀ bs : list Z, Forall (λ b, b < nb) bs → ∀ c,
    fold_result (λ c b, cursor_put (if b * block_size <? Z.of_nat (length tokens) then e else -1) c) c bs =
    fold_result (λ c x, cursor_put x c) c (replicate (length bs) e)) as Hfold.
  { induction 1 as [|b bs Hb _ IH]; intros c'; simpl; [done|].
    rewrite (proj2 (Z.ltb_lt _ _)) by (by apply ceil_div_bounds).
    destruct (cursor_put e c'); simpl; auto. }
  rewrite Hfold, length_zrange; [done|]. apply Forall_forall. intros b. rewrite elem_of_zrange. lia.
Qed.

(** Every block belongs to one expert and holds selections of that expert and
    sentinels. *)
Record aligned (sorted experts : list Z) : Prop := {
  al_length : length sorted = (length experts * Z.to_nat block_size)%nat;
  al_block : ∀ b e j, experts !! b = Some e → (j < Z.to_nat block_size)%nat →
    0 ≤ e < num_experts ∧
    ∃ i, sorted !! (b * Z.to_nat block_size + j)%nat = Some i ∧
      (i = N ∨ 0 ≤ i < N ∧ expert_of ids i = e)
}.

Lemma aligned_app (s1 s2 e1 e2 : list Z) : aligned s1 e1 → aligned s2 e2 → aligned (s1 ++ s2) (e1 ++ e2).
Proof.
  intros [Hl1 Hb1] [Hl2 Hb2]. constructor; [rewrite !length_app, Hl1, Hl2; lia|].
  intros b e j Hb Hj. apply lookup_app_Some in Hb as [Hb|[Hlt Hb]].
  - destruct (Hb1 b e j Hb Hj) as (He & i & Hi & Hc). split; [done|]. exists i. split; [|done].
    by apply lookup_app_l_Some.
  - destruct (Hb2 _ e j Hb Hj) as (He & i & Hi & Hc). split; [done|]. exists i. split; [|done].
    rewrite lookup_app_r by nia. rewrite <- Hi. f_equal. rewrite Hl1. nia.
Qed.

Lemma elem_of_group (e i : Z) : i ∈ group ids e (zrange N) ↔ 0 ≤ i < N ∧ expert_of ids i = e.
Proof. unfold group. rewrite list_elem_of_filter, elem_of_zrange. tauto. Qed.

Lemma aligned_group (e : Z) : 0 ≤ e < num_experts →
  aligned (group_rows (group ids e (zrange N))) (group_blocks (e, group ids e (zrange N))).
Proof.
  intros He. set (tokens := group ids e (zrange N)). constructor.
  - unfold group_blocks. rewrite length_group_rows, length_replicate. done.
  - intros b e' j Hb Hj. unfold group_blocks in Hb. simpl in Hb.
    apply lookup_replicate in Hb as [-> Hb]. split; [done|].
    destruct (lookup_lt_is_Some_2 (group_rows tokens) (b * Z.to_nat block_size + j)) as [i Hi].
    { rewrite length_group_rows. nia. }
    exists i. split; [done|]. unfold group_rows in Hi.
    apply lookup_app_Some in Hi as [Hi|[_ Hi]].
    + right. apply list_elem_of_lookup_2 in Hi. by apply elem_of_group.
    + left. by apply lookup_replicate in Hi as [-> _].
Qed.

Definition sorted_rows (es : list Z) : list Z := mjoin ((λ e, group_rows (group ids e (zrange N))) <$> es).
Definition sorted_blocks (es : list Z) : list Z :=
  mjoin ((λ e, group_blocks (e, group ids e (zrange N))) <$> es).

Lemma aligned_rows (es : list Z) : (∀ e, e ∈ es → 0 ≤ e < num_experts) →
  aligned (sorted_rows es) (sorted_blocks es).
Proof.
  unfold sorted_rows, sorted_blocks. induction es as [|e es IH]; intros Hin; simpl.
  - constructor; [done|]. intros b e j Hb. by rewrite lookup_nil in Hb.
  - apply aligned_app; [apply aligned_group, Hin; left|]. apply IH. intros e' He'. apply Hin. by right.
Qed.

Lemma rows_fit (es : list Z) : Forall (λ x, fits_int32 x = true) (sorted_rows es).
Proof.
  unfold sorted_rows. induction es as [|e es IH]; simpl; [constructor|]. apply Forall_app. split; [|done].
  assert (∀ x, 0 ≤ x ≤ N → fits_int32 x = true) as Hfit.
  { intros x Hx. unfold fits_int32. rewrite (proj2 (Z.leb_le _ _)), (proj2 (Z.ltb_lt _ _)) by lia. done. }
  unfold group_rows. apply Forall_app. split.
  - apply Forall_forall. intros i Hi%elem_of_group. apply Hfit. lia.
  - apply Forall_replicate, Hfit. lia.
Qed.

Lemma blocks_fit (es : list Z) : (∀ e, e ∈ es → 0 ≤ e < num_experts) →
  Forall (λ x, fits_int32 x = true) (sorted_blocks es).
Proof.
  unfold sorted_blocks. induction es as [|e es IH]; intros Hin; simpl; [constructor|]. apply Forall_app.
  specialize (Hin e ltac:(left)) as He. split; [|apply IH; intros; apply Hin; by right].
  apply Forall_replicate. unfold fits_int32.
  rewrite (proj2 (Z.leb_le _ _)), (proj2 (Z.ltb_lt _ _)) by (simpl; lia). done.
Qed.

Lemma total_rows (es : list Z) :
  zsum ((λ v, padded block_size (length v)) <$> ((λ e, group ids e (zrange N)) <$> es)) =
    Z.of_nat (length (sorted_blocks es)) * block_size.
Proof.
  unfold sorted_blocks. induction es as [|e es IH]; [done|].
  rewrite !fmap_cons, zsum_cons, IH. cbn [mjoin list_join]. rewrite length_app.
  unfold group_blocks at 2. rewrite length_replicate. cbn [fst snd].
  destruct (padded_blocks (group ids e (zrange N))) as [E _].
  assert (0 ≤ padded block_size (length (group ids e (zrange N)))).
  { unfold padded. apply Z.mul_nonneg_nonneg; [apply Z.div_pos|]; lia. }
  assert (padded block_size (length (group ids e (zrange N))) =
    Z.of_nat (blocks_for (group ids e (zrange N))) * block_size) as ->;
    [|by rewrite Nat2Z.inj_add, Z.mul_add_distr_r].
  apply Z2Nat.inj; [done|lia|].
  by rewrite E, Z2Nat.inj_mul, Nat2Z.id by lia.
Qed.

(** The result of the alignment, in closed form. *)
Lemma moe_align_result (M top_k : Z) : M * top_k = N →
  moe_align_block_size ids M top_k block_size num_experts =
    Ok (Some <$> sorted_rows (zrange num_experts), Some <$> sorted_blocks (zrange num_experts),
        Z.of_nat (length (sorted_rows (zrange num_experts)))).
Proof.
  intros E. unfold moe_align_block_size. rewrite E, HN, Z.eqb_refl, <- HN. simpl.
  rewrite (proj2 (Z.leb_gt block_size 0)) by done. simpl.
  assert (∀ e, e ∈ zrange num_experts → 0 ≤ e < num_experts) as Hin by (intros e; by rewrite elem_of_zrange).
  pose proof (add_selections ids num_experts [] (zrange N)) as Hadd.
  change ((λ e, group ids e []) <$> zrange num_experts) with
    ((λ _ : Z, @nil Z) <$> zrange num_experts) in Hadd. cbn [app] in Hadd.
  rewrite Hadd by (intros i; rewrite elem_of_zrange; lia). simpl.
  rewrite total_rows, Z.div_mul by lia.
  pose proof (aligned_rows (zrange num_experts) Hin) as [Hlen _].
  rewrite (cursor_puts_join group_rows) by (intros; apply put_expert_puts).
  rewrite <- list_fmap_compose. change (mjoin (_ <$> zrange num_experts)) with (sorted_rows (zrange num_experts)).
  unfold cursor_empty. rewrite cursor_fill; [|rewrite length_replicate; nia|apply rows_fit]. simpl.
  rewrite (cursor_puts_join group_blocks) by (intros; apply put_blocks_puts).
  assert (mjoin (group_blocks <$> zip (zrange num_experts)
    ((λ e, group ids e (zrange N)) <$> zrange num_experts)) = sorted_blocks (zrange num_experts)) as ->.
  { unfold sorted_blocks. f_equal. generalize (zrange num_experts). intros es.
    induction es as [|e es IH]; simpl; [done|]. by f_equal. }
  unfold cursor_full. rewrite cursor_fill; [|rewrite length_replicate; lia|by apply blocks_fit]. simpl.
  do 2 f_equal. rewrite Hlen. nia.
Qed.
(** A selection is valid if its expert exists. *)
Definition valid_selection (i : Z) : bool := (0 <=? expert_of ids i) && (expert_of ids i <? num_experts).

Lemma rows_selections (es : list Z) : NoDup es →
  filter (λ i, i ≠ N) (sorted_rows es) ≡ₚ filter (λ i, expert_of ids i ∈ es) (zrange N).
Proof.
  intros Hnd. rewrite <- (concat_filter_key (expert_of ids) (filter (λ i, expert_of ids i ∈ es) (zrange N)) es Hnd).
  2: { intros i [Hi _]%list_elem_of_filter. done. }
  apply Permutation_refl'. unfold sorted_rows. clear Hnd.
  assert (∀ e, filter (λ i, i ≠ N) (group_rows (group ids e (zrange N))) = group ids e (zrange N)) as Hrow.
  { intros e. unfold group_rows. rewrite filter_app, (filter_none _ (replicate _ _)), app_nil_r.
    - apply filter_all. intros i Hi%elem_of_group. lia.
    - intros i Hi. apply elem_of_replicate in Hi as [-> _]. by intros []. }
  assert (∀ (f : Z → list Z) l, (∀ e, e ∈ l → filter (λ i, i ≠ N) (group_rows (group ids e (zrange N))) = f e) →
    filter (λ i, i ≠ N) (mjoin ((λ e, group_rows (group ids e (zrange N))) <$> l)) = concat (f <$> l)) as Hj.
  { intros f l. induction l as [|e l IH]; intros Hf; [done|]. rewrite !fmap_cons, join_cons_eq, filter_app. cbn [concat].
    rewrite Hf, IH; [done|intros e' He'; apply Hf; by right|left]. }
  apply Hj. intros e He. rewrite Hrow. unfold group. rewrite list_filter_filter.
  apply list_filter_iff. intros i. split; [by intros <-|tauto].
Qed.

Lemma blocks_of_expert (es : list Z) (e : Z) : NoDup es → e ∈ es →
  length (filter (λ e', e' = e) (sorted_blocks es)) = blocks_for (group ids e (zrange N)).
Proof.
  unfold sorted_blocks. intros Hnd. induction Hnd as [|e' es He' Hnd IH]; intros Hin;
    [by apply not_elem_of_nil in Hin|].
  rewrite fmap_cons, join_cons_eq, filter_app, length_app.
  unfold group_blocks at 1. cbn [fst snd]. apply elem_of_cons in Hin as [->|Hin].
  - rewrite filter_all by (by intros x [-> _]%elem_of_replicate). rewrite length_replicate.
    rewrite filter_none; [done|]. intros x Hx ->. apply He'. clear -Hx.
    induction es as [|e es IH]; [by apply not_elem_of_nil in Hx|].
    rewrite fmap_cons, join_cons_eq in Hx. apply elem_of_app in Hx as [Hx|Hx].
    + apply elem_of_replicate in Hx as [-> _]. by left.
    + right. auto.
  - rewrite filter_none, IH by (done || intros x [-> _]%elem_of_replicate; congruence). done.
Qed.
End layout.

(** C16. [moe_align_block_size] on a routing table of its announced size: it
    returns; the sorted list is a whole number of blocks, one expert per block;
    every block belongs to an existing expert and holds selections of that
    expert and sentinels only; apart from sentinels the list is a permutation
    of the selections with an existing expert; and no expert gets more blocks
    than its selections need.  In particular no block is pure padding. *)
Theorem moe_align_spec (ids : list Z) (M top_k block_size num_experts : Z) :
  Z.of_nat (length ids) = M * top_k → M * top_k < 2 ^ 31 → num_experts ≤ 2 ^ 31 → 0 < block_size →
  let N := M * top_k in
  ∃ sorted experts,
    moe_align_block_size ids M top_k block_size num_experts =
      Ok (Some <$> sorted, Some <$> experts, Z.of_nat (length sorted)) ∧
    aligned ids N block_size num_experts sorted experts ∧
    filter (λ i, i ≠ N) sorted ≡ₚ
      filter (λ i, valid_selection ids num_experts i) (zrange N) ∧
    ∀ e, 0 ≤ e < num_experts →
      Z.of_nat (length (filter (λ e', e' = e) experts)) =
        ceil_div (Z.of_nat (length (group ids e (zrange N)))) block_size.
Proof.
  intros Hl HNmax Hemax Hbs N.
  exists (sorted_rows ids N block_size (zrange num_experts)),
    (sorted_blocks ids N block_size (zrange num_experts)).
  assert (N = Z.of_nat (length ids)) as HN by done.
  split; [by apply moe_align_result|]. split; [|split].
  - apply aligned_rows; try done. intros e. by rewrite elem_of_zrange.
  - rewrite (rows_selections ids N block_size num_experts); [|done..|apply NoDup_zrange].
    apply Permutation_refl', list_filter_iff. intros i. rewrite elem_of_zrange. unfold valid_selection.
    destruct (0 <=? expert_of ids i) eqn:E1, (expert_of ids i <? num_experts) eqn:E2; simpl; zbool;
      split; try done; lia.
  - intros e He.
    rewrite (blocks_of_expert ids N block_size num_experts); [|done..|apply NoDup_zrange|by rewrite elem_of_zrange].
    unfold blocks_for. apply Z2Nat.id, ceil_div_nonneg; lia.
Qed.

(** Two tokens, two selections each, three experts, blocks of two rows; one
    selection names no expert. *)
Example moe_align_spec_witness :
  ∃ sorted experts, moe_align_block_size [2; 0; 0; 7] 2 2 2 3 = Ok (Some <$> sorted, Some <$> experts, 4) ∧
    sorted = [1; 2; 0; 4] ∧ experts = [0; 2].
Proof.
  destruct (moe_align_spec [2; 0; 0; 7] 2 2 2 3) as (sorted & experts & E & _ & Hp & _);
    [done|done|done|done|].
  exists sorted, experts. pose proof E as E'. vm_compute in E'.
  destruct sorted as [|a [|b [|c [|d [|]]]]]; try done.
  destruct experts as [|x [|y [|]]]; try done. injection E' as <- <- <- <- <- <-.
  split; [exact E|done].
Defined.

(** ** Expert ranges *)
Section ranges.
Context (num_experts ep : Z).
Hypothesis Hep : 0 < ep.
Hypothesis Hfit : ep ≤ num_experts.
#[local] Set Default Proof Using "All".

(** The first expert of a rank; of rank [ep], the number of experts. *)
Definition range_begin (r : Z) : Z :=
  r * (num_experts / ep) + (if r <? num_experts `mod` ep then r else num_experts `mod` ep).

Lemma range_ends : range_begin 0 = 0 ∧ range_begin ep = num_experts.
Proof.
  unfold range_begin. pose proof (Z.mod_pos_bound num_experts ep Hep).
  pose proof (Z.div_mod num_experts ep ltac:(lia)). split.
  - destruct (0 <? _) eqn:E; zbool; lia.
  - rewrite (proj2 (Z.ltb_ge _ _)) by lia. lia.
Qed.

(** The first [num_experts mod ep] ranks own one expert more. *)
Lemma range_size (r : Z) :
  range_begin (r + 1) = range_begin r + num_experts / ep + (if r <? num_experts `mod` ep then 1 else 0).
Proof.
  unfold range_begin. destruct (r <? _) eqn:E1, (r + 1 <? _) eqn:E2; zbool; lia.
Qed.

Lemma range_mono (r r' : Z) : 0 ≤ r → r ≤ r' → range_begin r ≤ range_begin r'.
Proof.
  intros Hr Hrr. replace r' with (r + Z.of_nat (Z.to_nat (r' - r))) by lia.
  assert (0 ≤ num_experts / ep) by (apply Z.div_pos; lia).
  induction (Z.to_nat (r' - r)) as [|n IH]; [by rewrite Z.add_0_r|].
  rewrite Nat2Z.inj_succ. replace (r + Z.succ (Z.of_nat n)) with (r + Z.of_nat n + 1) by lia.
  rewrite range_size. destruct (_ <? _); lia.
Qed.

Lemma ep_plan_ok (r : Z) : 0 ≤ r < ep →
  ep_plan num_experts ep r =
    Ok (mk_ep ep r (range_begin r) (range_begin (r + 1)) (range_begin (r + 1) - range_begin r)).
Proof.
  intros Hr. unfold ep_plan. rewrite range_size, (proj2 (Z.leb_gt ep 0)), (proj2 (Z.ltb_ge r 0)),
    (proj2 (Z.ltb_ge num_experts ep)), Z.geb_leb, (proj2 (Z.leb_gt ep r)) by lia. done.
Qed.

Lemma range_owner (e : Z) : 0 ≤ e < num_experts →
  ∃ r, 0 ≤ r < ep ∧ range_begin r ≤ e < range_begin (r + 1) ∧
    ∀ r', 0 ≤ r' < ep → range_begin r' ≤ e < range_begin (r' + 1) → r' = r.
Proof.
  intros He. destruct range_ends as [H0 Hend].
  assert (∀ n : nat, e < range_begin (Z.of_nat n) →
    ∃ r, 0 ≤ r < Z.of_nat n ∧ range_begin r ≤ e < range_begin (r + 1)) as Hex.
  { induction n as [|n IH]; intros Hlt; [change (Z.of_nat 0) with 0 in Hlt; lia|].
    replace (Z.of_nat (S n)) with (Z.of_nat n + 1) in * by lia.
    destruct (decide (e < range_begin (Z.of_nat n))) as [Hn|Hn].
    - destruct (IH Hn) as (r & ? & ?). exists r. split; [lia|done].
    - exists (Z.of_nat n). split; [lia|]. lia. }
  destruct (Hex (Z.to_nat ep)) as (r & Hr & Hbe); [rewrite Z2Nat.id by lia; lia|].
  rewrite Z2Nat.id in Hr by lia. exists r. split; [done|]. split; [done|].
  intros r' Hr' Hbe'. destruct (Z.lt_trichotomy r r') as [Hlt|[->|Hlt]]; [|done|].
  - pose proof (range_mono (r + 1) r' ltac:(lia) ltac:(lia)). lia.
  - pose proof (range_mono (r' + 1) r ltac:(lia) ltac:(lia)). lia.
Qed.
End ranges.

(** ** Dispatch *)

(** Rank [r] handles selection [i] in a block of its local expert [le]. *)
Definition dispatched (ids : list Z) (M top_k num_experts ep block_size r i le : Z) : Prop :=
  ∃ plan sorted experts EM (b j : nat),
    ep_plan num_experts ep r = Ok plan ∧
    ep_dispatch ids M top_k plan num_experts block_size = Ok (sorted, experts, EM) ∧
    (j < Z.to_nat block_size)%nat ∧
    sorted !! (b * Z.to_nat block_size + j)%nat = Some (Some i) ∧
    experts !! b = Some (Some le).

Lemma expert_of_mask (plan : EpPlan) (ids : list Z) (i : Z) : 0 ≤ i < Z.of_nat (length ids) →
  expert_of (mask_ids plan ids) i =
    if (expert_of ids i >=? expert_begin plan) && (expert_of ids i <? expert_end plan)
    then expert_of ids i else -1.
Proof.
  intros Hi. unfold expert_of, mask_ids.
  destruct (lookup_lt_is_Some_2 ids (Z.to_nat i) ltac:(lia)) as [e He].
  rewrite (list_lookup_total_correct _ _ _ He). apply list_lookup_total_correct.
  by rewrite list_lookup_fmap, He.
Qed.

(** The blocks of a rank, in the alignment of the masked table. *)
Lemma dispatched_iff (ids : list Z) (M top_k num_experts ep block_size r i le : Z) :
  Z.of_nat (length ids) = M * top_k → M * top_k < 2 ^ 31 → num_experts ≤ 2 ^ 31 → 0 < block_size →
  0 < ep → ep ≤ num_experts → 0 ≤ r < ep → 0 ≤ i < M * top_k →
  dispatched ids M top_k num_experts ep block_size r i le ↔
    range_begin num_experts ep r ≤ expert_of ids i < range_begin num_experts ep (r + 1) ∧
    0 ≤ expert_of ids i < num_experts ∧ le = expert_of ids i - range_begin num_experts ep r.
Proof.
  intros Hl HNmax Hemax Hbs Hep Hfit Hr Hi. set (N := M * top_k) in *.
  set (plan := mk_ep ep r (range_begin num_experts ep r) (range_begin num_experts ep (r + 1))
    (range_begin num_experts ep (r + 1) - range_begin num_experts ep r)).
  set (masked := mask_ids plan ids).
  assert (N = Z.of_nat (length masked)) as HN by (unfold masked, mask_ids; by rewrite length_fmap).
  assert (∀ e, e ∈ zrange num_experts → 0 ≤ e < num_experts) as Hin by (intros e; by rewrite elem_of_zrange).
  pose proof (moe_align_result masked N block_size num_experts Hbs HN HNmax Hemax M top_k eq_refl) as Hres.
  pose proof (aligned_rows masked N block_size num_experts Hbs HN HNmax Hemax (zrange num_experts) Hin) as Hal.
  pose proof (rows_selections masked N block_size num_experts Hbs HN HNmax Hemax (zrange num_experts)
    (NoDup_zrange _)) as Hsel.
  set (sorted := sorted_rows masked N block_size (zrange num_experts)) in *.
  set (experts := sorted_blocks masked N block_size (zrange num_experts)) in *.
  assert (ep_dispatch ids M top_k plan num_experts block_size =
    Ok (Some <$> sorted, localize plan (Some <$> experts), Z.of_nat (length sorted))) as Hdis.
  { unfold ep_dispatch. fold masked. rewrite Hres. done. }
  assert (expert_of masked i = if (expert_of ids i >=? range_begin num_experts ep r) &&
      (expert_of ids i <? range_begin num_experts ep (r + 1)) then expert_of ids i else -1) as Hmask.
  { apply expert_of_mask. lia. }
  split.
  - intros (plan' & s' & e' & EM & b & j & Hp & Hd & Hj & Hs & He).
    rewrite ep_plan_ok in Hp by done. injection Hp as <-. fold plan in Hd. rewrite Hdis in Hd.
    injection Hd as <- <- _. rewrite list_lookup_fmap in Hs. apply fmap_Some in Hs as (i' & Hs & [= <-]).
    unfold localize in He. rewrite list_lookup_fmap in He. apply fmap_Some in He as (o & He & Hle).
    rewrite list_lookup_fmap in He. apply fmap_Some in He as (e & He & ->). injection Hle as Hle.
    destruct (al_block _ _ _ _ _ _ Hal b e j He Hj) as (Herange & i' & Hi' & Hc).
    rewrite Hs in Hi'. injection Hi' as <-. destruct Hc as [->|[_ Hc]]; [lia|].
    rewrite Hmask in Hc. destruct (_ && _) eqn:Erange; [|lia]. zbool. rewrite Z.geb_leb in *. zbool.
    subst e. split; [lia|]. split; [lia|]. rewrite (proj2 (Z.leb_le _ _)) in Hle by lia. by simpl in Hle.
  - intros (Hrange & He & ->).
    assert (expert_of masked i = expert_of ids i) as Hm.
    { rewrite Hmask, Z.geb_leb, (proj2 (Z.leb_le _ _)), (proj2 (Z.ltb_lt _ _)) by lia. done. }
    assert (i ∈ sorted) as [k Hk]%list_elem_of_lookup.
    { assert (i ∈ filter (λ i, i ≠ N) sorted) as Hf; [|by apply list_elem_of_filter in Hf as [_ ?]].
      rewrite Hsel, list_elem_of_filter, !elem_of_zrange, Hm. lia. }
    assert (k < length experts * Z.to_nat block_size)%nat as Hklt.
    { rewrite <- (al_length _ _ _ _ _ _ Hal). by eapply lookup_lt_Some. }
    set (w := Z.to_nat block_size) in *. assert (0 < w)%nat by (unfold w; lia).
    pose proof (Nat.div_mod k w ltac:(lia)) as Hdiv.
    pose proof (Nat.mod_upper_bound k w ltac:(lia)) as Hmod.
    destruct (lookup_lt_is_Some_2 experts (k / w)) as [e Hek].
    { apply Nat.Div0.div_lt_upper_bound. lia. }
    exists plan, (Some <$> sorted), (localize plan (Some <$> experts)), (Z.of_nat (length sorted)),
      (k / w)%nat, (k `mod` w)%nat.
    assert (k / w * w + k `mod` w = k)%nat as Hk' by lia.
    destruct (al_block _ _ _ _ _ _ Hal (k / w) e (k `mod` w) Hek Hmod) as (Herange & i' & Hi' & Hc).
    fold w in Hi'. rewrite Hk', Hk in Hi'. injection Hi' as <-.
    destruct Hc as [->|[_ Hc]]; [lia|]. rewrite Hm in Hc. subst e.
    split; [by rewrite ep_plan_ok|]. split; [done|]. split; [done|]. split.
    + fold w. rewrite Hk', list_lookup_fmap, Hk. done.
    + unfold localize. rewrite !list_lookup_fmap, Hek. simpl.
      rewrite Z.geb_leb, (proj2 (Z.leb_le _ _)) by lia. done.
Qed.

(** C17. Expert parallelism loses nothing and does nothing twice: the ranges of
    the ranks follow each other from 0 to the number of experts, and every
    selection with an existing expert is dispatched on exactly one rank, in a
    block of the local number of its expert, which that rank owns. *)
Theorem ep_dispatch_partition (ids : list Z) (M top_k num_experts ep block_size : Z) :
  Z.of_nat (length ids) = M * top_k → M * top_k < 2 ^ 31 → num_experts ≤ 2 ^ 31 → 0 < block_size →
  0 < ep → ep ≤ num_experts →
  (∀ r, 0 ≤ r < ep → ∃ plan, ep_plan num_experts ep r = Ok plan ∧
    expert_begin plan = range_begin num_experts ep r ∧
    expert_end plan = range_begin num_experts ep (r + 1) ∧
    num_local plan = num_experts / ep + (if r <? num_experts `mod` ep then 1 else 0)) ∧
  range_begin num_experts ep 0 = 0 ∧ range_begin num_experts ep ep = num_experts ∧
  ∀ i, 0 ≤ i < M * top_k → valid_selection ids num_experts i →
    ∃ r plan, 0 ≤ r < ep ∧ ep_plan num_experts ep r = Ok plan ∧
      0 ≤ expert_of ids i - expert_begin plan < num_local plan ∧
      ∀ r' le, 0 ≤ r' < ep →
        dispatched ids M top_k num_experts ep block_size r' i le ↔
          r' = r ∧ le = expert_of ids i - expert_begin plan.
Proof.
  intros Hl HNmax Hemax Hbs Hep Hfit. split; [|split; [|split]].
  - intros r Hr. eexists. split; [by apply ep_plan_ok|]. simpl. split; [done|]. split; [done|].
    rewrite range_size by done. lia.
  - by apply range_ends.
  - by apply range_ends.
  - intros i Hi Hv. unfold valid_selection in Hv. apply Is_true_true in Hv. zbool.
    destruct (range_owner num_experts ep Hep Hfit (expert_of ids i) ltac:(lia)) as (r & Hr & Hbe & Huniq).
    exists r. eexists. split; [done|]. split; [by apply ep_plan_ok|]. simpl. split; [lia|].
    intros r' le Hr'. rewrite dispatched_iff by done. split.
    + intros (Hbe' & _ & ->). rewrite (Huniq r' Hr' Hbe'). done.
    + intros [-> ->]. done.
Qed.

Example ep_dispatch_partition_witness :
  dispatched [2; 0; 0; 7] 2 2 3 2 2 1 0 0 ∧ ¬ dispatched [2; 0; 0; 7] 2 2 3 2 2 0 0 2.
Proof.
  destruct (ep_dispatch_partition [2; 0; 0; 7] 2 2 3 2 2) as (_ & _ & _ & Hall); [done|done|done|done|done|done|].
  destruct (Hall 0) as (r & plan & Hr & Hp & Hloc & Huniq); [lia|done|].
  assert (r = 1) as ->.
  { destruct (decide (r = 1)); [done|]. assert (r = 0) as -> by lia. injection Hp as <-.
    vm_compute in Hloc. destruct Hloc as [_ ?]. done. }
  injection Hp as <-. split; [by apply Huniq|]. intros Hd. apply Huniq in Hd; lia.
Defined.
