(* ===== verification/FlatArrays.v ===== *)
(** * Flat arrays

    numpy arrays after [ravel], as lists: slices, loops that fill a region
    element by element or row by row, and the arithmetic of their indices. *)

From S2P Require Import Prelude.
Local Open Scope Z_scope.

(** [xs[lo:hi]] for bounds that are not negative. *)
Definition py_slice {A} (lo hi : Z) (xs : list A) : list A :=
  take (Z.to_nat hi - Z.to_nat lo) (drop (Z.to_nat lo) xs).

(** ** Loops *)
Lemma fold_zrange_inv {A} (f : A → Z → result A) (I : Z → A → Prop) (n : Z) (s : A) :
  0 ≤ n → I 0 s → (∀ i s, 0 ≤ i < n → I i s → ∃ s', f s i = Ok s' ∧ I (i + 1) s') →
  ∃ s', fold_result f s (zrange n) = Ok s' ∧ I n s'.
Proof.
  intros Hn H0. revert n Hn. refine (natlike_ind _ _ _); [by eexists|].
  intros n Hn IH Hstep. destruct IH as (s1 & E1 & I1); [intros i s2 Hi; apply Hstep; lia|].
  destruct (Hstep n s1) as (s2 & E2 & I2); [lia|done|]. exists s2. split; [|done].
  unfold Z.succ. rewrite zrange_S, fold_result_app, E1 by done. simpl. by rewrite E2.
Qed.

Lemma map_zrange_ok {A} (f : Z → result A) (g : Z → A) (n : Z) :
  (∀ i, 0 ≤ i < n → f i = Ok (g i)) → map_result f (zrange n) = Ok (g <$> zrange n).
Proof. intros H. apply map_result_ok. intros i Hi%elem_of_zrange. by apply H. Qed.

Lemma zrange_add (a b : Z) : 0 ≤ a → 0 ≤ b →
  zrange (a + b) = zrange a ++ ((λ i, a + i) <$> zrange b).
Proof.
  intros Ha Hb. unfold zrange. rewrite Z2Nat.inj_add, seq_app, fmap_app by done. f_equal.
  rewrite Nat.add_0_l, <- (Nat.add_0_r (Z.to_nat a)), <- fmap_add_seq, <- !list_fmap_compose.
  apply list_fmap_ext. intros _ i _. simpl. lia.
Qed.

(** ** Indices *)
Lemma flat_bounds x m y n : 0 ≤ x < m → 0 ≤ y < n → 0 ≤ x * n + y < m * n.
Proof. nia. Qed.
Lemma flat_apart x x' y y' n : 0 ≤ y < n → 0 ≤ y' < n → x ≠ x' ∨ y ≠ y' → x * n + y ≠ x' * n + y'.
Proof. intros Hy Hy' Hne E. assert (x = x') as -> by nia. lia. Qed.
Lemma square_index n d e : 0 ≤ e < n → (d * n + e) / n = d ∧ (d * n + e) mod n = e.
Proof.
  intros He. rewrite (Z.add_comm (d * n)), Z.div_add, Z.mod_add, Z.div_small, Z.mod_small by lia. lia.
Qed.

(** ** Regions *)
Section arrays.
Context {V : Type}.

(** The cells of [xs] from [off] on. *)
Definition cells (xs : list V) (off n : Z) (f : Z → V) : Prop :=
  ∀ i, 0 ≤ i < n → xs !! Z.to_nat (off + i) = Some (f i).

Lemma cells_index xs off n f i : cells xs off n f → 0 ≤ i < n → py_index xs (Z.to_nat (off + i)) = Ok (f i).
Proof. intros H Hi. unfold py_index. by rewrite H. Qed.
Lemma cells_index_0 xs n f i : cells xs 0 n f → 0 ≤ i < n → py_index xs (Z.to_nat i) = Ok (f i).
Proof. intros H Hi. by apply (cells_index xs 0 n f i). Qed.

Lemma cells_total `{!Inhabited V} xs off n :
  0 ≤ off → off + n ≤ Z.of_nat (length xs) → cells xs off n (λ i, xs !!! Z.to_nat (off + i)).
Proof. intros H0 H1 i Hi. apply list_lookup_lookup_total_lt. lia. Qed.

Lemma cells_sub xs off n f off' n' f' :
  cells xs off n f → off ≤ off' → off' + n' ≤ off + n →
  (∀ i, 0 ≤ i < n' → f (off' - off + i) = f' i) → cells xs off' n' f'.
Proof.
  intros H H1 H2 Hf i Hi. rewrite <- Hf by done. rewrite <- H by lia. f_equal. lia.
Qed.

Lemma cells_ext xs off n f f' : cells xs off n f → (∀ i, 0 ≤ i < n → f i = f' i) → cells xs off n f'.
Proof. intros H Hf i Hi. rewrite <- Hf by done. by apply H. Qed.

Lemma cells_slice xs lo hi n f : cells xs lo n f → 0 ≤ lo → hi - lo = n → cells (py_slice lo hi xs) 0 n f.
Proof.
  intros H H0 Hn i Hi. unfold py_slice. rewrite lookup_take_lt, lookup_drop by lia.
  rewrite <- H by done. f_equal. lia.
Qed.

Lemma cells_fmap n (f : Z → V) : cells (f <$> zrange n) 0 n f.
Proof. intros i Hi. rewrite list_lookup_fmap. rewrite Z.add_0_l, zrange_lookup by done. done. Qed.

Lemma length_py_slice lo hi (xs : list V) : 0 ≤ lo → lo ≤ hi → hi ≤ Z.of_nat (length xs) →
  Z.of_nat (length (py_slice lo hi xs)) = hi - lo.
Proof. intros. unfold py_slice. rewrite length_take, length_drop. lia. Qed.

(** [xs'] is [xs] with the [n] cells from [lo] on filled by [val]. *)
Record wrote (lo n : Z) (val : Z → V) (xs xs' : list V) : Prop := {
  wrote_length : length xs' = length xs;
  wrote_cells : cells xs' lo n val;
  wrote_frame j : 0 ≤ j → j < lo ∨ lo + n ≤ j → xs' !! Z.to_nat j = xs !! Z.to_nat j
}.

Lemma wrote_nil lo val xs : wrote lo 0 val xs xs.
Proof. split; [done| |done]. intros i Hi. lia. Qed.

Lemma wrote_one lo x xs : 0 ≤ lo < Z.of_nat (length xs) → wrote lo 1 (λ _, x) xs (<[Z.to_nat lo := x]> xs).
Proof.
  intros Hlo. split; [apply length_insert| |].
  - intros i Hi. replace i with 0 by lia. rewrite Z.add_0_r. apply list_lookup_insert_eq. lia.
  - intros j Hj Hne. apply list_lookup_insert_ne. lia.
Qed.

Lemma wrote_app lo n m val val' xs xs' xs'' :
  0 ≤ lo → 0 ≤ n → 0 ≤ m → wrote lo n val xs xs' → wrote (lo + n) m val' xs' xs'' →
  (∀ i, 0 ≤ i < m → val' i = val (n + i)) → wrote lo (n + m) val xs xs''.
Proof.
  intros Hlo Hn Hm [L1 C1 F1] [L2 C2 F2] Hval. split; [congruence| |].
  - intros i Hi. destruct (decide (i < n)).
    + rewrite F2 by lia. apply C1; lia.
    + replace (lo + i) with (lo + n + (i - n)) by lia. rewrite C2 by lia. rewrite Hval by lia.
      do 2 f_equal. lia.
  - intros j Hj Hout. rewrite F2, F1 by lia. done.
Qed.

Lemma wrote_ext lo n val val' xs xs' :
  wrote lo n val xs xs' → (∀ i, 0 ≤ i < n → val i = val' i) → wrote lo n val' xs xs'.
Proof. intros [L C F] H. split; [done| |done]. by eapply cells_ext. Qed.

Lemma wrote_keeps lo n val xs xs' off m f :
  wrote lo n val xs xs' → cells xs off m f → 0 ≤ off → off + m ≤ lo ∨ lo + n ≤ off → cells xs' off m f.
Proof. intros [_ _ F] C Hoff Hd i Hi. rewrite F by lia. by apply C. Qed.

Lemma wrote_all n val xs xs' : wrote 0 n val xs xs' → Z.of_nat (length xs) = n → xs' = val <$> zrange n.
Proof.
  intros [L C _] Hn. apply list_eq_same_length with (n := length xs); [|done|].
  - rewrite length_fmap, length_zrange. lia.
  - intros i x y Hi Hx Hy. specialize (C (Z.of_nat i) ltac:(lia)). rewrite Z.add_0_l, Nat2Z.id in C.
    apply list_lookup_fmap_Some in Hy as (j & -> & [-> _]%zrange_lookup_Some). congruence.
Qed.

(** A loop whose turns fill [m] cells each, one after the other. *)
Lemma fold_writes (f : list V → Z → result (list V)) lo m val xs n :
  0 ≤ lo → 0 ≤ m → 0 ≤ n →
  (∀ xs' i, 0 ≤ i < n → wrote lo (i * m) val xs xs' →
    ∃ xs'', f xs' i = Ok xs'' ∧ wrote (lo + i * m) m (λ j, val (i * m + j)) xs' xs'') →
  ∃ xs', fold_result f xs (zrange n) = Ok xs' ∧ wrote lo (n * m) val xs xs'.
Proof.
  intros Hlo Hm Hn Hstep.
  apply (fold_zrange_inv f (λ i xs', wrote lo (i * m) val xs xs')); [done|apply wrote_nil|].
  intros i xs' Hi Hw. destruct (Hstep xs' i Hi Hw) as (xs'' & E & Hw'). exists xs''. split; [done|].
  replace ((i + 1) * m) with (i * m + m) by lia. by eapply wrote_app; [| | | |done|]; [lia|nia|lia|..].
Qed.

Lemma fold_cells (f : list V → Z → result (list V)) lo val xs n :
  0 ≤ lo → 0 ≤ n →
  (∀ xs' i, 0 ≤ i < n → wrote lo i val xs xs' →
    ∃ xs'', f xs' i = Ok xs'' ∧ wrote (lo + i) 1 (λ _, val i) xs' xs'') →
  ∃ xs', fold_result f xs (zrange n) = Ok xs' ∧ wrote lo n val xs xs'.
Proof.
  intros Hlo Hn Hstep.
  destruct (fold_writes f lo 1 val xs n) as (xs1 & E & Hw); [done..| |by rewrite Z.mul_1_r in Hw; exists xs1].
  intros xs' i Hi Hw. rewrite Z.mul_1_r in *. destruct (Hstep xs' i Hi Hw) as (xs'' & E & Hw').
  exists xs''. split; [done|]. eapply wrote_ext; [done|]. intros j Hj. cbv beta. f_equal. lia.
Qed.

(** A square region filled row by row. *)
Lemma fold_square f (h : Z → list V → Z → result (list V)) lo val xs D :
  0 ≤ lo → 0 ≤ D → (∀ xs d, 0 ≤ d < D → f xs d = fold_result (h d) xs (zrange D)) →
  (∀ xs' d e, 0 ≤ d < D → 0 ≤ e < D → wrote lo (d * D + e) val xs xs' →
    ∃ xs'', h d xs' e = Ok xs'' ∧ wrote (lo + (d * D + e)) 1 (λ _, val (d * D + e)) xs' xs'') →
  ∃ xs', fold_result f xs (zrange D) = Ok xs' ∧ wrote lo (D * D) val xs xs'.
Proof.
  intros Hlo HD Hf Hstep. apply fold_writes; [done..|]. intros xs' d Hd Hw. rewrite Hf by done.
  apply fold_cells; [nia|done|]. intros xs'' e He Hw'.
  destruct (Hstep xs'' d e Hd He) as (xs3 & E & Hw3).
  { eapply wrote_app; [| | |done|done|]; [lia|nia|lia|done]. }
  exists xs3. split; [done|]. by rewrite <- Z.add_assoc.
Qed.

Lemma wrote_over lo n val val' xs xs' xs'' :
  wrote lo n val xs xs' → wrote lo n val' xs' xs'' → wrote lo n val' xs xs''.
Proof.
  intros [L1 C1 F1] [L2 C2 F2]. split; [congruence|done|]. intros j Hj Ho. by rewrite F2, F1.
Qed.
Lemma writes_over lo n val val' xs xs' (r : result (list V)) :
  wrote lo n val xs xs' → (∃ xs'', r = Ok xs'' ∧ wrote lo n val' xs' xs'') →
  ∃ xs'', r = Ok xs'' ∧ wrote lo n val' xs xs''.
Proof. intros Hw (xs'' & E & Hw'). exists xs''. split; [done|]. by eapply wrote_over. Qed.
End arrays.
