(* ===== verification/HostNumerics.v ===== *)
(** * Number formats and selectors of the host kernels (_fallback.py, dist.py)

    Scale bytes, 4-bit floats, packed bit matrices, the sign pattern of the
    Hadamard rotation, and the functions that choose a launch shape.  A value
    of a float format is an exact number here. *)

From Stdlib Require Import QArith Qabs Lqa.
From S2P Require Import Prelude FlatArrays.
Local Open Scope Z_scope.

(** ** Scale bytes *)

(** [_ue8m0_to_float]: the bits of the float32 a scale byte stands for. *)
Definition ue8m0_bits (s : Z) : Z :=
  if s =? 255 then 0
  else
    let unbiased := s - 127 in
    if unbiased >=? -126 then Z.shiftl s 23
    else
      let shift := - (unbiased + 126) in
      if shift <? 32 then Z.shiftr 8388608 shift else 0.

(** The value of a non-negative, finite float32, in units of [2 ^ -149]. *)
Definition f32_units (bits : Z) : Z :=
  let e := Z.land (Z.shiftr bits 23) 255 in
  let m := Z.land bits 8388607 in
  if e =? 0 then m else (8388608 + m) * 2 ^ (e - 1).

(** [dist._ue8m0_to_float]: [np.where] picks the exponent, [np.exp2] is applied
    to the choice; the result in the same units. *)
Definition dist_ue8m0_units (s : Z) : Z :=
  let out := if s =? 255 then 0 else s - 127 in
  2 ^ (out + 149).

(** A scale byte [s] stands for [2 ^ (s - 127)] in both decoders, down to the
    subnormal [2 ^ -127]; the byte 255, which marks a group of zeros, is 0 in
    [_fallback.py] and 1 in [dist.py]. *)
Theorem ue8m0_decoders (s : Z) :
  0 ≤ s ≤ 255 →
  (s < 255 → f32_units (ue8m0_bits s) = 2 ^ (s - 127 + 149) ∧ dist_ue8m0_units s = f32_units (ue8m0_bits s)) ∧
  f32_units (ue8m0_bits 255) = 0 ∧ dist_ue8m0_units 255 = 2 ^ 149.
Proof.
  intros Hs. split; [|by vm_compute]. intros Hlt.
  assert (forallb (λ s, (f32_units (ue8m0_bits s) =? 2 ^ (s - 127 + 149)) &&
    (dist_ue8m0_units s =? f32_units (ue8m0_bits s))) (zrange 255) = true) as Hall by by vm_compute.
  rewrite forallb_forall in Hall.
  specialize (Hall s ltac:(apply list_elem_of_In, elem_of_zrange; lia)). zbool. done.
Qed.

Example ue8m0_decoders_witness :
  f32_units (ue8m0_bits 130) = 8 * 2 ^ 149 ∧ dist_ue8m0_units 255 ≠ f32_units (ue8m0_bits 255).
Proof.
  destruct (ue8m0_decoders 130 ltac:(lia)) as (H & Hz & Hd). destruct (H ltac:(lia)) as [-> _].
  rewrite Hz, Hd. done.
Defined.

(** ** 4-bit floats *)

(** The finite values of the 16 codes; the others are infinities and NaNs. *)
Definition fp4_value (code : Z) : option Q :=
  match code with
  | 0 => Some (0#1) | 1 => Some (1#4) | 2 => Some (1#1)
  | 3 => Some (3#2) | 4 => Some (2#1) | 5 => Some (3#1)
  | 8 => Some (0#1) | 9 => Some (-1#4) | 10 => Some (-1#1)
  | 11 => Some (-3#2) | 12 => Some (-2#1) | 13 => Some (-3#1)
  | _ => None
  end.

Definition qlt (x y : Q) : bool := negb (Qle_bool y x).

(** [_float_to_fp4_nib_vec] on one element. *)
Definition float_to_fp4_nib (x : Q) : Z :=
  let v := Qabs x in
  let mag :=
    if qlt v (1#8) then 0 else if qlt v (5#8) then 1 else if qlt v (5#4) then 2
    else if qlt v (7#4) then 3 else if qlt v (5#2) then 4 else 5 in
  let sign := if qlt x 0 then 8 else 0 in
  Z.lor mag sign.

Lemma qlt_spec (x y : Q) : if qlt x y then (x < y)%Q else (y <= x)%Q.
Proof.
  unfold qlt. destruct (Qle_bool y x) eqn:E; simpl; [by apply Qle_bool_iff|].
  apply Qnot_le_lt. intros Hle%Qle_bool_iff. congruence.
Qed.

Definition fp4_codes : list Z := [0; 1; 2; 3; 4; 5; 8; 9; 10; 11; 12; 13].

Lemma fp4_finite (c : Z) (q : Q) : fp4_value c = Some q → c ∈ fp4_codes.
Proof.
  intros H. destruct (decide (c ∈ fp4_codes)) as [|Hn]; [done|].
  exfalso. unfold fp4_codes in Hn. rewrite !not_elem_of_cons in Hn. clear -H Hn.
  destruct c as [|p|p]; [tauto| |done].
  repeat match goal with p : positive |- _ => destruct p; try done end; tauto.
Qed.

(** The side of the midpoint decides which of two numbers is nearer. *)
Lemma nearer (x v q : Q) :
  ((q < v /\ q + v <= 2 * x) \/ (v < q /\ 2 * x <= q + v) \/ q == v)%Q ->
  (Qabs (v - x) <= Qabs (q - x))%Q /\
  ((Qabs (v - x) == Qabs (q - x))%Q -> (q == v \/ q + v == 2 * x)%Q).
Proof.
  intros H. repeat (apply Qabs_case; intros ?); split; intros; try lra;
    destruct H as [[? ?]|[[? ?]|?]]; lra || (right; lra) || (left; lra).
Qed.

(** The magnitudes, and where one is chosen for a number that is not negative. *)
Definition fp4_intervals : list (Z * Q * Q * option Q) :=
  [(0, 0#1, 0#1, Some (1#8)); (1, 1#4, 1#8, Some (5#8)); (2, 1#1, 5#8, Some (5#4));
   (3, 3#2, 5#4, Some (7#4)); (4, 2#1, 7#4, Some (5#2)); (5, 3#1, 5#2, None)].

Lemma fp4_choice (x : Q) : ∃ mag v lo hi, (mag, v, lo, hi) ∈ fp4_intervals ∧
  (lo <= Qabs x)%Q ∧ (match hi with Some h => (Qabs x < h)%Q | None => True end) ∧
  float_to_fp4_nib x = Z.lor mag (if qlt x 0 then 8 else 0).
Proof.
  unfold float_to_fp4_nib. set (a := Qabs x).
  pose proof (qlt_spec a (1#8)) as H1. pose proof (qlt_spec a (5#8)) as H2.
  pose proof (qlt_spec a (5#4)) as H3. pose proof (qlt_spec a (7#4)) as H4.
  pose proof (qlt_spec a (5#2)) as H5. pose proof (Qabs_nonneg x) as H0. fold a in H0.
  destruct (qlt a (1#8)); [exists 0, (0#1)%Q, (0#1)%Q, (Some (1#8)%Q); split; [repeat constructor|done]|].
  destruct (qlt a (5#8)); [exists 1, (1#4)%Q, (1#8)%Q, (Some (5#8)%Q); split; [repeat constructor|done]|].
  destruct (qlt a (5#4)); [exists 2, (1#1)%Q, (5#8)%Q, (Some (5#4)%Q); split; [repeat constructor|done]|].
  destruct (qlt a (7#4)); [exists 3, (3#2)%Q, (5#4)%Q, (Some (7#4)%Q); split; [repeat constructor|done]|].
  destruct (qlt a (5#2)); [exists 4, (2#1)%Q, (7#4)%Q, (Some (5#2)%Q); split; [repeat constructor|done]|].
  exists 5, (3#1)%Q, (5#2)%Q, None. split; [repeat constructor|done].
Qed.

(** C40. The code chosen for a number is the nearest of the finite ones, whatever
    the number; numbers halfway go to the larger magnitude; and encoding the
    value of a finite code gives the code back, except that -0 becomes 0. *)
Theorem float_to_fp4_nearest (x : Q) :
  (∃ v, fp4_value (float_to_fp4_nib x) = Some v ∧
    ∀ c q, fp4_value c = Some q →
      (Qabs (v - x) <= Qabs (q - x))%Q ∧
      ((Qabs (v - x) == Qabs (q - x))%Q → (Qabs q <= Qabs v)%Q)) ∧
  ∀ c q, fp4_value c = Some q → float_to_fp4_nib q = (if c =? 8 then 0 else c).
Proof.
  split.
  - destruct (fp4_choice x) as (mag & v & lo & hi & Hin & Hlo & Hhi & ->).
    pose proof (qlt_spec x 0) as Hs.
    assert (Qabs x == if qlt x 0 then - x else x)%Q as Ha.
    { destruct (qlt x 0); [apply Qabs_neg|apply Qabs_pos]; lra. }
    exists (if qlt x 0 then (- v)%Q else v).
    unfold fp4_intervals in Hin.
    repeat (apply elem_of_cons in Hin as [[= -> -> -> ->]|Hin]); [..|by apply not_elem_of_nil in Hin].
    all: revert Hs Ha; destruct (qlt x 0); intros Hs Ha; (split; [reflexivity|]).
    all: intros c q Hq; pose proof (fp4_finite c q Hq) as Hc; unfold fp4_codes in Hc.
    all: repeat (apply elem_of_cons in Hc as [->|Hc]); try by apply not_elem_of_nil in Hc.
    all: injection Hq as <-; match goal with |- (Qabs (?v - ?y) <= Qabs (?q - ?y))%Q ∧ _ =>
      destruct (nearer y v q) as [Hn Ht];
        [first [left; split; lra | right; left; split; lra | right; right; lra]|] end.
    all: split; [exact Hn|]; intros He; specialize (Ht He);
      first [by vm_compute | exfalso; destruct Ht; lra].
  - intros c q Hq. pose proof (fp4_finite c q Hq) as Hc. unfold fp4_codes in Hc.
    repeat (apply elem_of_cons in Hc as [->|Hc]); [..|by apply not_elem_of_nil in Hc];
      injection Hq as <-; by vm_compute.
Qed.

Example float_to_fp4_nearest_witness : float_to_fp4_nib (-3#2) = 11 ∧ float_to_fp4_nib (5#8) = 2.
Proof.
  destruct (float_to_fp4_nearest (5#8)) as [_ H]. split; [exact (H 11 (-3#2)%Q eq_refl)|by vm_compute].
Defined.

(** ** Packed bit matrices *)

(** [packed[k // 8] |= np.uint8(1 << (7 - k % 8))] for every [k] with a
    non-zero [bits[k]]. *)
Definition pack_bit (bits : list Z) (packed : list Z) (k : Z) : result (list Z) :=
  b ← py_index bits (Z.to_nat k);
  if b =? 0 then Ok packed
  else Ok (alter (λ byte, Z.lor byte (Z.shiftl 1 (7 - k `mod` 8))) (Z.to_nat (k / 8)) packed).

Definition kda_pack_bitmatrix (bits : list Z) (n_bits : Z) : result (list Z) :=
  let n_bytes := (n_bits + 7) / 8 in
  fold_result (pack_bit bits) (replicate (Z.to_nat n_bytes) 0) (zrange n_bits).

(** Bit [k], most significant first. *)
Definition packed_bit (packed : list Z) (k : Z) : bool :=
  Z.testbit (packed !!! Z.to_nat (k / 8)) (7 - k `mod` 8).

Lemma pack_bits (bits : list Z) (n_bytes : nat) (ks : list Z) :
  (∀ k, k ∈ ks → 0 ≤ k < Z.of_nat (length bits) ∧ (Z.to_nat (k / 8) < n_bytes)%nat) →
  ∀ packed, length packed = n_bytes → Forall (λ byte, 0 ≤ byte < 256) packed →
  ∃ packed', fold_result (pack_bit bits) packed ks = Ok packed' ∧ length packed' = n_bytes ∧
    Forall (λ byte, 0 ≤ byte < 256) packed' ∧
    ∀ k, 0 ≤ k → (Z.to_nat (k / 8) < n_bytes)%nat →
      packed_bit packed' k = packed_bit packed k ||
        bool_decide (k ∈ ks ∧ bits !!! Z.to_nat k ≠ 0).
Proof.
  induction ks as [|k0 ks IH]; intros Hks packed Hl Hb.
  - exists packed. split; [done|]. split; [done|]. split; [done|]. intros k _ _.
    rewrite bool_decide_false; [by rewrite orb_false_r|]. intros [[]%not_elem_of_nil _].
  - destruct (Hks k0 ltac:(left)) as [Hk0 Hbyte0]. cbn [fold_result].
    unfold pack_bit at 2, py_index.
    destruct (lookup_lt_is_Some_2 bits (Z.to_nat k0) ltac:(lia)) as [b Hbk]. rewrite Hbk. simpl.
    assert (bits !!! Z.to_nat k0 = b) as Eb by by apply list_lookup_total_correct.
    assert (∀ p1, length p1 = n_bytes → Forall (λ byte, 0 ≤ byte < 256) p1 →
      (∀ k, 0 ≤ k → (Z.to_nat (k / 8) < n_bytes)%nat →
        packed_bit p1 k = packed_bit packed k || bool_decide (k = k0 ∧ b ≠ 0)) →
      ∃ packed', fold_result (pack_bit bits) p1 ks = Ok packed' ∧ length packed' = n_bytes ∧
        Forall (λ byte, 0 ≤ byte < 256) packed' ∧
        ∀ k, 0 ≤ k → (Z.to_nat (k / 8) < n_bytes)%nat →
          packed_bit packed' k = packed_bit packed k ||
            bool_decide (k ∈ k0 :: ks ∧ bits !!! Z.to_nat k ≠ 0)) as Hnext.
    { intros p1 Hl1 Hb1 Hp1. destruct (IH ltac:(intros; apply Hks; by right) p1 Hl1 Hb1)
        as (p' & E & Hl' & Hb' & Hp'). exists p'. split; [done|]. split; [done|]. split; [done|].
      intros k Hk Hkb. rewrite Hp', Hp1, <- orb_assoc by done. f_equal.
      rewrite <- bool_decide_or. apply bool_decide_ext. rewrite elem_of_cons. naive_solver. }
    destruct (b =? 0) eqn:E0; zbool.
    + apply Hnext; [done..|]. intros k _ _. rewrite bool_decide_false by tauto. by rewrite orb_false_r.
    + pose proof (Z.mod_pos_bound k0 8 ltac:(lia)).
      apply Hnext; [by rewrite length_alter| |].
      * apply Forall_alter; [done|]. intros byte _ Hby. simpl.
        assert (Z.lor byte (Z.shiftl 1 (7 - k0 `mod` 8)) < 2 ^ 8); [|split; [|done]].
        { apply Z.log2_lt_cancel. rewrite Z.log2_pow2 by lia.
          rewrite Z.log2_lor by (rewrite ?Z.shiftl_nonneg; lia).
          rewrite Z.shiftl_1_l, Z.log2_pow2 by lia.
          assert (Z.log2 byte < 8); [|lia].
          destruct (decide (byte = 0)) as [->|]; [done|]. apply Z.log2_lt_pow2; [lia|]. simpl. lia. }
        apply Z.lor_nonneg. rewrite Z.shiftl_nonneg. lia.
      * intros k Hk Hkb. unfold packed_bit.
        destruct (decide (k / 8 = k0 / 8)) as [Ek|Ek].
        -- rewrite Ek. destruct (lookup_lt_is_Some_2 packed (Z.to_nat (k0 / 8)) ltac:(lia)) as [byte Hbyte].
           rewrite (list_lookup_total_correct _ _ byte Hbyte).
           erewrite list_lookup_total_correct by (by rewrite list_lookup_alter, decide_True, Hbyte).
           rewrite Z.lor_spec, Z.shiftl_1_l, Z.pow2_bits_eqb by lia. f_equal.
           pose proof (Z.div_mod k 8 ltac:(lia)). pose proof (Z.div_mod k0 8 ltac:(lia)).
           destruct (_ =? _) eqn:E; zbool; symmetry.
           ++ apply bool_decide_true. split; [lia|done].
           ++ apply bool_decide_false. intros [-> _]. done.
        -- rewrite bool_decide_false by (intros [-> _]; done). rewrite orb_false_r.
           assert (Z.to_nat (k / 8) ≠ Z.to_nat (k0 / 8)) as Hne.
           { pose proof (Z.div_pos k 8). pose proof (Z.div_pos k0 8). lia. }
           by rewrite !list_lookup_total_alt, list_lookup_alter_ne by done.
Qed.

(** Packing [n] bits from an array of at least [n] gives [ceil(n / 8)]
    bytes; bit [k] of the result, counted from the most significant bit of the
    first byte, is set exactly if [bits[k]] is not zero, and the bits after the
    last are zero.  A shorter array raises. *)
Theorem kda_pack_bitmatrix_spec (bits : list Z) (n_bits : Z) :
  0 ≤ n_bits →
  (n_bits ≤ Z.of_nat (length bits) →
   ∃ packed, kda_pack_bitmatrix bits n_bits = Ok packed ∧
    Z.of_nat (length packed) = ceil_div n_bits 8 ∧ Forall (λ byte, 0 ≤ byte < 256) packed ∧
    ∀ k, 0 ≤ k < 8 * Z.of_nat (length packed) →
      packed_bit packed k = bool_decide (k < n_bits ∧ bits !!! Z.to_nat k ≠ 0)) ∧
  (Z.of_nat (length bits) < n_bits → ∃ tag, kda_pack_bitmatrix bits n_bits = Err (IndexError tag)).
Proof.
  intros Hn. unfold kda_pack_bitmatrix.
  replace ((n_bits + 7) / 8) with (ceil_div n_bits 8) by (unfold ceil_div; f_equal; lia).
  pose proof (ceil_div_nonneg n_bits 8 ltac:(lia) Hn) as Hc.
  pose proof (λ i, ceil_div_bounds n_bits 8 i ltac:(lia)) as Hb. split.
  - intros Hlen.
    assert (∀ k, 0 ≤ k → (k / 8 < ceil_div n_bits 8 ↔ k / 8 * 8 < n_bits)) as Hbyte by auto.
    destruct (pack_bits bits (Z.to_nat (ceil_div n_bits 8)) (zrange n_bits)) with
      (packed := replicate (Z.to_nat (ceil_div n_bits 8)) 0) as (packed & E & Hl & Hby & Hbits).
    + intros k Hk%elem_of_zrange. split; [lia|].
      assert (k / 8 < ceil_div n_bits 8); [|pose proof (Z.div_pos k 8); lia].
      apply Hb. pose proof (Z.mul_div_le k 8). lia.
    + apply length_replicate.
    + by apply Forall_replicate.
    + exists packed. split; [done|]. split; [lia|]. split; [done|]. intros k Hk.
      rewrite Hbits by (lia || (pose proof (Z.div_lt_upper_bound k 8 (Z.of_nat (length packed))); lia)).
      unfold packed_bit. rewrite lookup_total_replicate_2, Z.bits_0 by
        (pose proof (Z.div_lt_upper_bound k 8 (Z.of_nat (length packed))); lia).
      simpl. apply bool_decide_ext. rewrite elem_of_zrange. naive_solver lia.
  - intros Hlen. set (len := Z.of_nat (length bits)) in *.
    destruct (pack_bits bits (Z.to_nat (ceil_div n_bits 8)) (zrange len)) with
      (packed := replicate (Z.to_nat (ceil_div n_bits 8)) 0) as (packed & E & _).
    + intros k Hk%elem_of_zrange. split; [lia|].
      assert (k / 8 < ceil_div n_bits 8); [|pose proof (Z.div_pos k 8); lia].
      apply Hb. pose proof (Z.mul_div_le k 8). lia.
    + apply length_replicate.
    + by apply Forall_replicate.
    + exists "index out of range". replace n_bits with (len + (n_bits - len)) at 2 by lia.
      rewrite zrange_add, fold_result_app, E by lia. cbn [mbind result_bind].
      destruct (zrange (n_bits - len)) as [|z zs] eqn:Ez.
      { apply (f_equal length) in Ez. rewrite length_zrange in Ez. simpl in Ez. lia. }
      assert (z = 0) as ->.
      { pose proof (zrange_lookup (n_bits - len) 0 ltac:(lia)) as Hz. rewrite Ez in Hz.
        simpl in Hz. congruence. }
      rewrite fmap_cons. cbn [fold_result].
      assert (pack_bit bits packed (len + 0) = Err (IndexError "index out of range")) as ->; [|done].
      unfold pack_bit, py_index. by rewrite Z.add_0_r, lookup_ge_None_2 by lia.
Qed.

Example kda_pack_bitmatrix_spec_witness :
  kda_pack_bitmatrix [1; 0; 2; 0; 0; 0; 0; 0; 1] 9 = Ok [160; 128] ∧ packed_bit [160; 128] 2 = true.
Proof.
  destruct (kda_pack_bitmatrix_spec [1; 0; 2; 0; 0; 0; 0; 0; 1] 9 ltac:(lia)) as [H _].
  destruct (H ltac:(simpl; lia)) as (packed & E & Hl & _ & Hb).
  assert (kda_pack_bitmatrix [1; 0; 2; 0; 0; 0; 0; 0; 1] 9 = Ok [160; 128]) as E' by by vm_compute.
  rewrite E' in E. injection E as <-. split; [done|]. by rewrite Hb by (simpl; lia).
Defined.

(** ** The Hadamard sign pattern *)

(** The bit count of [_build_hadamard128] on uint32 numbers. *)
Definition u32 (x : Z) : Z := x `mod` 2 ^ 32.
Definition bit_count (c : Z) : Z :=
  let c := u32 (c - Z.land (Z.shiftr c 1) 0x55555555) in
  let c := u32 (Z.land c 0x33333333 + Z.land (Z.shiftr c 2) 0x33333333) in
  Z.shiftr (u32 (Z.land (u32 (c + Z.shiftr c 4)) 0x0F0F0F0F * 0x01010101)) 24.

(** The sign of entry [i, j]; the matrix is the signs over [sqrt(128)]. *)
Definition hadamard_sign (i j : Z) : Z :=
  if Z.land (bit_count (Z.land i j)) 1 =? 0 then 1 else -1.

(** One factor per common bit. *)
Fixpoint sign_product (n : nat) (i j : Z) : Z :=
  match n with
  | O => 1
  | S n => (if Z.testbit i (Z.of_nat n) && Z.testbit j (Z.of_nat n) then -1 else 1) * sign_product n i j
  end.

Lemma sign_product_land (n : nat) (i j : Z) :
  sign_product n i j = sign_product n (Z.land i j) (Z.land i j).
Proof. induction n as [|n IH]; simpl; [done|]. by rewrite IH, !Z.land_spec, andb_diag. Qed.

Lemma hadamard_sign_product (i j : Z) : 0 ≤ i < 128 → 0 ≤ j < 128 →
  hadamard_sign i j = sign_product 7 i j.
Proof.
  intros Hi Hj. rewrite sign_product_land. unfold hadamard_sign.
  assert (0 ≤ Z.land i j < 128) as Hc.
  { split; [apply Z.land_nonneg; lia|].
    assert (Z.land i j ≤ i); [|lia]. apply Z.ldiff_le; [lia|].
    apply Z.bits_inj'. intros b Hb. rewrite Z.ldiff_spec, Z.land_spec, Z.bits_0.
    by destruct (Z.testbit i b), (Z.testbit j b). }
  revert Hc. generalize (Z.land i j). intros c Hc.
  assert (forallb (λ c, (if Z.land (bit_count c) 1 =? 0 then 1 else -1) =? sign_product 7 c c)
    (zrange 128) = true) as Hall by by vm_compute.
  rewrite forallb_forall in Hall.
  specialize (Hall c ltac:(apply list_elem_of_In, elem_of_zrange; lia)). by apply Z.eqb_eq in Hall.
Qed.

(** A bit above [n] does not matter to the first [n] factors. *)
Lemma sign_product_high (n : nat) (i k : Z) : 0 ≤ k < 2 ^ Z.of_nat n →
  sign_product n i (2 ^ Z.of_nat n + k) = sign_product n i k.
Proof.
  intros Hk. assert (∀ m, (m ≤ n)%nat → sign_product m i (2 ^ Z.of_nat n + k) = sign_product m i k) as H;
    [|by apply H].
  induction m as [|m IH]; intros Hm; simpl; [done|]. rewrite IH by lia.
  assert (Z.testbit (2 ^ Z.of_nat n + k) (Z.of_nat m) = Z.testbit k (Z.of_nat m)) as ->; [|done].
  rewrite <- (Z.mod_pow2_bits_low (2 ^ Z.of_nat n + k) (Z.of_nat n)) by lia.
  rewrite <- (Z.mod_pow2_bits_low k (Z.of_nat n)) by lia. f_equal.
  replace (2 ^ Z.of_nat n + k) with (k + 1 * 2 ^ Z.of_nat n) by lia. apply Z.mod_add. lia.
Qed.

Lemma top_bit (n : nat) (k : Z) : 0 ≤ k < 2 ^ Z.of_nat n →
  Z.testbit k (Z.of_nat n) = false ∧ Z.testbit (2 ^ Z.of_nat n + k) (Z.of_nat n) = true.
Proof.
  intros Hk. split.
  - destruct (decide (k = 0)) as [->|]; [apply Z.bits_0|]. apply Z.bits_above_log2; [lia|].
    apply Z.log2_lt_pow2; lia.
  - apply Z.testbit_true; [lia|].
    replace (2 ^ Z.of_nat n + k) with (k + 1 * 2 ^ Z.of_nat n) by lia.
    by rewrite Z.div_add, Z.div_small by lia.
Qed.

Lemma zsum_scale {A} (c : Z) (f : A → Z) (l : list A) : zsum ((λ x, c * f x) <$> l) = c * zsum (f <$> l).
Proof. induction l as [|x l IH]; [unfold zsum; simpl; lia|]. rewrite !fmap_cons. unfold zsum in *. simpl. lia. Qed.

Lemma zsum_append (l1 l2 : list Z) : zsum (l1 ++ l2) = zsum l1 + zsum l2.
Proof. unfold zsum. induction l1 as [|x l1 IH]; simpl; lia. Qed.

(** The first [n] bits are the same. *)
Definition agree (n : nat) (i j : Z) : bool :=
  forallb (λ b, eqb (Z.testbit i (Z.of_nat b)) (Z.testbit j (Z.of_nat b))) (seq 0 n).

Lemma agree_S (n : nat) (i j : Z) :
  agree (S n) i j = agree n i j && eqb (Z.testbit i (Z.of_nat n)) (Z.testbit j (Z.of_nat n)).
Proof. unfold agree. rewrite seq_S, forallb_app. simpl. by rewrite andb_true_r. Qed.

Lemma agree_true (n : nat) (i j : Z) :
  agree n i j = true ↔ ∀ b, (b < n)%nat → Z.testbit i (Z.of_nat b) = Z.testbit j (Z.of_nat b).
Proof.
  unfold agree. rewrite forallb_forall. split.
  - intros H b Hb. apply eqb_prop, H, in_seq. lia.
  - intros H b [_ Hb]%in_seq. rewrite H by lia. apply eqb_reflx.
Qed.

(** Rows of the sign pattern are orthogonal. *)
Lemma sign_orthogonal (n : nat) (i j : Z) :
  zsum ((λ k, sign_product n i k * sign_product n j k) <$> zrange (2 ^ Z.of_nat n)) =
    if agree n i j then 2 ^ Z.of_nat n else 0.
Proof.
  induction n as [|n IH].
  - done.
  - assert (2 ^ Z.of_nat (S n) = 2 ^ Z.of_nat n + 2 ^ Z.of_nat n) as E
      by (rewrite Nat2Z.inj_succ, Z.pow_succ_r by lia; lia).
    pose proof (Z.pow_pos_nonneg 2 (Z.of_nat n) ltac:(lia) ltac:(lia)) as Hpos.
    rewrite E, zrange_add, fmap_app, zsum_append by lia.
    set (s := λ i : Z, if Z.testbit i (Z.of_nat n) then -1 else 1).
    rewrite (list_fmap_ext _ (λ k, sign_product n i k * sign_product n j k)); cycle 1.
    { intros _ k Hk%list_elem_of_lookup_2. apply elem_of_zrange in Hk.
      simpl. rewrite (proj1 (top_bit n k Hk)), !andb_false_r. lia. }
    rewrite <- list_fmap_compose, (list_fmap_ext (_ ∘ _)
      (λ k, (s i * s j) * (sign_product n i k * sign_product n j k))); cycle 1.
    { intros _ k Hk%list_elem_of_lookup_2. apply elem_of_zrange in Hk. simpl.
      rewrite (proj2 (top_bit n k Hk)), !andb_true_r, !sign_product_high by done. unfold s. lia. }
    rewrite zsum_scale, IH, agree_S. unfold s.
    by destruct (agree n i j), (Z.testbit i (Z.of_nat n)), (Z.testbit j (Z.of_nat n)); simpl; lia.
Qed.

(** The rotation of the pooled cache is its own inverse: the product of the
    sign pattern with itself is 128 times the identity, so with the factor
    [1 / sqrt(128)] on either side the matrix squares to the identity; it is
    also symmetric. *)
Theorem hadamard_involution (i j : Z) :
  0 ≤ i < 128 → 0 ≤ j < 128 →
  hadamard_sign i j = hadamard_sign j i ∧
  zsum ((λ k, hadamard_sign i k * hadamard_sign k j) <$> zrange 128) = if decide (i = j) then 128 else 0.
Proof.
  intros Hi Hj. assert (∀ a b, hadamard_sign a b = hadamard_sign b a) as Hsym
    by (intros a b; unfold hadamard_sign; by rewrite (Z.land_comm a b)).
  split; [done|].
  rewrite (list_fmap_ext _ (λ k, sign_product 7 i k * sign_product 7 j k)); cycle 1.
  { intros _ k Hk%list_elem_of_lookup_2. apply elem_of_zrange in Hk.
    by rewrite (Hsym k j), !hadamard_sign_product. }
  pose proof (sign_orthogonal 7 i j) as Ho. change (2 ^ Z.of_nat 7) with 128 in Ho. rewrite Ho.
  destruct (decide (i = j)) as [->|Hne]; [by rewrite (proj2 (agree_true 7 j j))|].
  destruct (agree 7 i j) eqn:Ha; [|done]. exfalso. rewrite agree_true in Ha.
  rename Ha into Hb. apply Hne, Z.bits_inj'. intros b Hb0.
  destruct (decide (b < 7)) as [Hlt|Hge].
  - specialize (Hb (Z.to_nat b) ltac:(lia)). by rewrite Z2Nat.id in Hb by done.
  - assert (∀ x, 0 ≤ x < 128 → Z.testbit x b = false) as Hz.
    { intros x Hx. destruct (decide (x = 0)) as [->|]; [apply Z.bits_0|].
      apply Z.bits_above_log2; [lia|]. assert (Z.log2 x < 7); [|lia]. by apply Z.log2_lt_pow2; lia. }
    by rewrite !Hz.
Qed.

Example hadamard_involution_witness :
  zsum ((λ k, hadamard_sign 5 k * hadamard_sign k 9) <$> zrange 128) = 0.
Proof. by destruct (hadamard_involution 5 9 ltac:(lia) ltac:(lia)) as [_ ->]. Defined.

(** ** Launch shapes *)
Definition gemm_bf16_config (M N K : Z) : Z * Z * Z * Z :=
  let bk := 64 in if M <=? 64 then (16, 16, bk, 64) else (64, 64, bk, 256).

Definition mla_config (S_q kv_lora_rank qk_rope_head_dim : Z) : Z * Z * Z :=
  if S_q <=? 8 then (1, 64, 64) else (4, 8, 512).

(** [while block_I > 1 and topk % block_I != 0: block_I >>= 1] *)
Fixpoint shrink_block (fuel : nat) (topk block_I : Z) : result Z :=
  if (block_I >? 1) && negb (topk `mod` block_I =? 0) then
    match fuel with
    | O => Err OutOfFuel
    | S fuel => shrink_block fuel topk (Z.shiftr block_I 1)
    end
  else Ok block_I.

(** [while inner_iter < 8 and topk % (block_I * (inner_iter * 2)) == 0: inner_iter *= 2] *)
Fixpoint grow_iter (fuel : nat) (topk block_I inner_iter : Z) : result Z :=
  if (inner_iter <? 8) && (topk `mod` (block_I * (inner_iter * 2)) =? 0) then
    match fuel with
    | O => Err OutOfFuel
    | S fuel => grow_iter fuel topk block_I (inner_iter * 2)
    end
  else Ok inner_iter.

Definition dsa_config (S_q H dim topk : Z) : result (Z * Z * Z * Z) :=
  let bq := if S_q <=? 8 then 1 else 4 in
  let threads := if S_q <=? 8 then 64 else 256 in
  block_I ← shrink_block 6 topk 64;
  inner_iter ← grow_iter 3 topk block_I 1;
  Ok (bq, threads, block_I, inner_iter).

Definition dsa_topk_group_topk_supported (group_topk : Z) : bool :=
  bool_decide (group_topk ∈ [128; 160; 192; 224; 256; 512]).
Definition dsa_kpool_group_topk_supported (group_topk : Z) : bool :=
  bool_decide (group_topk ∈ [128; 160; 192; 224; 256; 512]).

Definition dsa_topk_logits_split_for (batch_size max_seq_len block : Z) : Z :=
  if (batch_size <=? 0) || (max_seq_len <=? 0) || (block <=? 0) then 1
  else
    let pages := - (- max_seq_len / block) in
    let by_cu := 228 / batch_size in
    let s := Z.min pages by_cu in
    if s >=? 1 then s else 1.

Definition dsa_kpool_max_closed_pools (num_draft_tokens pool_size : Z) : Z :=
  if (num_draft_tokens <=? 0) || (pool_size <=? 0) then 0
  else (num_draft_tokens + pool_size - 1) / pool_size.

(** The powers of two among the block sizes, largest first. *)
Lemma shrink_block_spec (topk : Z) : ∃ b, shrink_block 6 topk 64 = Ok b ∧
  b ∈ [64; 32; 16; 8; 4; 2; 1] ∧ topk `mod` b = 0 ∧
  ∀ b', b' ∈ [64; 32; 16; 8; 4; 2; 1] → topk `mod` b' = 0 → b' ≤ b.
Proof.
  pose proof (Z.mod_1_r topk) as H1.
  assert (∀ l : list Z, ∀ b, (∀ b', b' ∈ l → topk `mod` b' = 0 → b' ≤ b) ↔ Forall (λ b', topk `mod` b' = 0 → b' ≤ b) l)
    as Hall by (intros l b; rewrite Forall_forall; done).
  cbn [shrink_block Z.gtb Z.compare Pos.compare Pos.compare_cont andb Z.shiftr Z.shiftl Z.div2 Z.opp Pos.div2 Pos.iter].
  repeat match goal with
  | |- context [topk `mod` ?b =? 0] => destruct (topk `mod` b =? 0) eqn:?; cbn [negb]; zbool
  end; eexists; (split; [reflexivity|]); (split; [repeat constructor|]); (split; [done|]);
    apply Hall; repeat constructor; intros; lia || done.
Qed.

Lemma grow_iter_spec (topk b : Z) : 0 < b → topk `mod` b = 0 → ∃ i, grow_iter 3 topk b 1 = Ok i ∧
  i ∈ [1; 2; 4; 8] ∧ topk `mod` (b * i) = 0 ∧ (i < 8 → topk `mod` (b * (i * 2)) ≠ 0).
Proof.
  intros Hb H1. cbn [grow_iter Z.ltb Z.compare Pos.compare Pos.compare_cont andb Z.mul Pos.mul].
  repeat match goal with
  | |- context [topk `mod` ?b =? 0] => destruct (topk `mod` b =? 0) eqn:?; zbool
  end; eexists; (split; [reflexivity|]); (split; [repeat constructor|]);
    rewrite ?Z.mul_1_r; done.
Qed.

(** The selector of the sparse attention kernel ends for every number of
    selected tokens and gives a tiling: the block is the largest of the block
    sizes that divides the number, the blocks of all inner iterations divide it
    too, and another doubling would not, unless there are already 8. *)
Theorem dsa_config_spec (S_q H dim topk : Z) :
  ∃ bq threads block_I inner_iter,
    dsa_config S_q H dim topk = Ok (bq, threads, block_I, inner_iter) ∧
    threads = 64 * bq ∧ (bq = 1 ↔ S_q ≤ 8) ∧
    block_I ∈ [64; 32; 16; 8; 4; 2; 1] ∧ inner_iter ∈ [1; 2; 4; 8] ∧
    topk `mod` (block_I * inner_iter) = 0 ∧
    (∀ b, b ∈ [64; 32; 16; 8; 4; 2; 1] → topk `mod` b = 0 → b ≤ block_I) ∧
    (inner_iter < 8 → topk `mod` (block_I * (inner_iter * 2)) ≠ 0).
Proof.
  destruct (shrink_block_spec topk) as (b & Eb & Hb & Hdiv & Hmax).
  assert (0 < b) as Hpos.
  { clear -Hb. repeat (apply elem_of_cons in Hb as [->|Hb]; [lia|]). by apply not_elem_of_nil in Hb. }
  destruct (grow_iter_spec topk b Hpos Hdiv) as (i & Ei & Hi & Hdiv' & Hmax').
  exists (if S_q <=? 8 then 1 else 4), (if S_q <=? 8 then 64 else 256), b, i.
  unfold dsa_config. rewrite Eb. cbn [mbind result_bind]. rewrite Ei. split; [done|].
  destruct (S_q <=? 8) eqn:E; zbool; split_and!; done || lia.
Qed.

(** The number of splits is between 1 and both of its limits. *)
Lemma dsa_topk_logits_split_bounds (batch_size max_seq_len block : Z) :
  let s := dsa_topk_logits_split_for batch_size max_seq_len block in
  1 ≤ s ∧ (0 < batch_size → 0 < max_seq_len → 0 < block →
    s ≤ ceil_div max_seq_len block ∧ (1 < s → s * batch_size ≤ 228)).
Proof.
  unfold dsa_topk_logits_split_for.
  destruct (_ || _) eqn:E.
  { split; [done|]. intros. apply orb_true_iff in E as [[E|E]%orb_true_iff|E]; zbool; lia. }
  zbool. assert (- (- max_seq_len / block) = ceil_div max_seq_len block) as Ec.
  { unfold ceil_div.
    pose proof (Z.div_mod (- max_seq_len) block ltac:(lia)).
    pose proof (Z.mod_pos_bound (- max_seq_len) block ltac:(lia)).
    apply (Z.div_unique_pos _ _ _ (block - 1 - (- max_seq_len) `mod` block)); lia. }
  rewrite Ec. pose proof (ceil_div_pos max_seq_len block ltac:(lia) ltac:(lia)).
  pose proof (Z.mul_div_le 228 batch_size ltac:(lia)).
  rewrite Z.geb_leb. destruct (1 <=? _) eqn:E1; zbool; split; try lia; intros; split; try lia.
  intros. nia.
Qed.
