(* ===== verification/KdaDelta.v ===== *)
(** * Delta attention of the host fallback

    [_fallback.py], the section on KDA: the chunked forward pass
    ([kda_gate_chunk_cumsum], [kda_delta_rule_intra], [kda_delta_rule_inter],
    [kda_gla_fwd_o], [kda_delta_rule_fwd]) and the per-token operator
    [kda_naive_delta_rule_fwd].  Arrays are flat lists of float32 numbers, as
    after [ravel]; a slice that is read is a list, a slice that is written is
    its bounds in the flat array.  The arrays of a call do not overlap.  In
    exact arithmetic the chunked pass is the gated delta rule applied token by
    token, whatever the size of the chunks. *)

From Stdlib Require Import Reals Lra Ring_theory Ring.
From S2P Require Import Prelude FlatArrays.
Local Open Scope Z_scope.

(** float32 numbers: [np.float32] of a literal, the operators, and [math.exp]
    and [math.log], which can raise. *)
Class Float32 (V : Type) : Type := {
  f32 : Z → V;
  f32_undef : V;      (* [np.empty] *)
  f32_add : V → V → V;
  f32_sub : V → V → V;
  f32_mul : V → V → V;
  f32_le : V → V → bool;
  math_exp : V → result V;
  math_log : V → result V
}.

Section kda.
Context {V : Type} `{num : !Float32 V}.

#[local] Instance V_inhabited : Inhabited V := populate f32_undef.

(** ** Slices *)

(** [xs[lo:hi][i] = x], through the view *)
Definition view_set (lo hi i : Z) (x : V) (xs : list V) : result (list V) :=
  _ ← require (i <? Z.of_nat (length (py_slice lo hi xs))) (IndexError "out of bounds");
  Ok (<[Z.to_nat (lo + i) := x]> xs).

(** [s = 0; for e in range(D): s += xs[off + e] * ys[e]] *)
Definition dot (D off : Z) (xs ys : list V) : result V :=
  fold_result (λ s e,
    x ← py_index xs (Z.to_nat (off + e));
    y ← py_index ys (Z.to_nat e);
    Ok (f32_add s (f32_mul x y))) (f32 0) (zrange D).

(** [for d in range(D): acc[d] += w * xs[d]] *)
Definition axpy (D : Z) (w : V) (xs acc : list V) : result (list V) :=
  map_result (λ d,
    a ← py_index acc (Z.to_nat d);
    x ← py_index xs (Z.to_nat d);
    Ok (f32_add a (f32_mul w x))) (zrange D).

(** ** Gates *)
Definition KDA_LOG_FLOOR : V := f32 (-1000000000).

Definition kda_log_gate (g : V) : result V :=
  if f32_le g (f32 0) then Ok KDA_LOG_FLOOR else math_log g.

Definition kda_gate_prod_intra (L : list V) (a b : Z) : result V :=
  if a >? b then Ok (f32 1)
  else
    Lb ← py_index L (Z.to_nat b);
    La ← (if a >? 0 then py_index L (Z.to_nat (a - 1)) else Ok (f32 0));
    math_exp (f32_sub Lb La).

(** The gates of a chunk: the cumulative sums in [intra], and their total. *)
Definition cumsum_chunk (chunk_size row : Z) (g intra : list V) : result (list V * V) :=
  let lo := row * chunk_size in
  let hi := (row + 1) * chunk_size in
  let gc := py_slice lo hi g in
  fold_result (λ '(intra, acc) t,
    x ← py_index gc (Z.to_nat t);
    l ← kda_log_gate x;
    let acc := f32_add acc l in
    intra ← view_set lo hi t acc intra;
    Ok (intra, acc)) (intra, f32 0) (zrange chunk_size).

Definition cumsum_head (n_chunks chunk_size : Z) (g : list V) (arrays : list V * list V) (bh : Z) :
    result (list V * list V) :=
  let base := bh * n_chunks in
  '(intra, inter, _) ← fold_result (λ '(intra, inter, inter_acc) c,
    '(intra, acc) ← cumsum_chunk chunk_size (base + c) g intra;
    _ ← require (bool_decide (Z.to_nat (base + c) < length inter)%nat) (IndexError "out of bounds");
    Ok (intra, <[Z.to_nat (base + c) := inter_acc]> inter, f32_add inter_acc acc))
    (arrays.1, arrays.2, f32 0) (zrange n_chunks);
  Ok (intra, inter).

(** [for b in range(B): for h in range(H)]: the pairs in order. *)
Definition heads (B H : Z) : list Z :=
  b ← zrange B; h ← zrange H; [b * H + h].

Definition kda_gate_chunk_cumsum (g : list V) (B H n_chunks chunk_size : Z) :
    result (list V * list V) :=
  _ ← require (negb (n_chunks <=? 0)) (ValueError "n_chunks must be positive");
  _ ← require (negb (chunk_size <=? 0)) (ValueError "chunk_size must be positive");
  _ ← require (Z.of_nat (length g) =? B * H * n_chunks * chunk_size)
        (ValueError "g must be B*H*n_chunks*chunk_size");
  let intra := replicate (Z.to_nat (B * H * n_chunks * chunk_size)) f32_undef in
  let inter := replicate (Z.to_nat (B * H * n_chunks)) f32_undef in
  fold_result (cumsum_head n_chunks chunk_size g) (intra, inter) (heads B H).

(** ** The stages of a chunk *)
Definition kda_check_chunk (S D chunk_size : Z) : result unit :=
  _ ← require (negb (D <=? 0)) (ValueError "D must be positive");
  require (negb ((chunk_size <=? 0) || negb (S mod chunk_size =? 0)))
    (ValueError "chunk_size must divide S").

(** Token [r = bh * S + tau] of a head: its row in an array of [D] columns. *)
Definition token_row (D r : Z) (xs : list V) : list V := py_slice (r * D) ((r + 1) * D) xs.

(** What the first [count] tokens of a chunk contribute to a token with the
    vector [x]: the loop over [j] of the intra solve and of the output. *)
Definition add_corrections (k beta u : list V) (D : Z) (Lc x : list V) (row last count : Z) :
    result (list V) :=
  fold_result (λ acc j,
    let kj := token_row D (row + j) k in
    let uj := token_row D (row + j) u in
    Gj ← kda_gate_prod_intra Lc (j + 1) last;
    dj ← dot D 0 kj x;
    bj ← py_index beta (Z.to_nat (row + j));
    axpy D (f32_mul (f32_mul Gj bj) dj) uj acc) (replicate (Z.to_nat D) (f32 0)) (zrange count).

Definition intra_token (k v beta : list V) (D : Z) (Lc Cin : list V) (row : Z) (u : list V) (t : Z) :
    result (list V) :=
  let kt := token_row D (row + t) k in
  G0 ← kda_gate_prod_intra Lc 0 (t - 1);
  pred ← map_result (λ d, s ← dot D (d * D) Cin kt; Ok (f32_mul G0 s)) (zrange D);
  corr ← add_corrections k beta u D Lc kt row (t - 1) t;
  fold_result (λ u d,
    vd ← py_index v (Z.to_nat ((row + t) * D + d));
    p ← py_index pred (Z.to_nat d);
    c ← py_index corr (Z.to_nat d);
    view_set ((row + t) * D) ((row + t + 1) * D) d (f32_sub (f32_sub vd p) c) u) u (zrange D).

Definition chunk_gates (intra_log : list V) (n_chunks chunk_size bh c : Z) : list V :=
  py_slice ((bh * n_chunks + c) * chunk_size) ((bh * n_chunks + c + 1) * chunk_size) intra_log.
Definition chunk_state (inter_state : list V) (n_chunks D bh c : Z) : list V :=
  py_slice ((bh * (n_chunks + 1) + c) * D * D) ((bh * (n_chunks + 1) + c + 1) * D * D) inter_state.

Definition kda_delta_rule_intra (k v beta intra_log inter_state u : list V)
    (B H S D chunk_size chunk_idx : Z) : result (list V) :=
  _ ← kda_check_chunk S D chunk_size;
  let n_chunks := S / chunk_size in
  _ ← require ((0 <=? chunk_idx * chunk_size) && (chunk_idx * chunk_size <? S))
        (ValueError "chunk_idx out of range");
  fold_result (λ u bh,
    let Lc := chunk_gates intra_log n_chunks chunk_size bh chunk_idx in
    let Cin := chunk_state inter_state n_chunks D bh chunk_idx in
    fold_result (intra_token k v beta D Lc Cin (bh * S + chunk_idx * chunk_size)) u
      (zrange chunk_size)) u (heads B H).

(** [Cout += (Gt * beta_t * u_t) k_t], row by row. *)
Definition inter_token (k beta u : list V) (D chunk_size : Z) (Lc : list V) (row lo hi : Z)
    (inter_state : list V) (t : Z) : result (list V) :=
  let kt := token_row D (row + t) k in
  let ut := token_row D (row + t) u in
  Gt ← kda_gate_prod_intra Lc (t + 1) (chunk_size - 1);
  bt ← py_index beta (Z.to_nat (row + t));
  let w := f32_mul Gt bt in
  fold_result (λ inter_state d,
    ud ← py_index ut (Z.to_nat d);
    let wd := f32_mul w ud in
    fold_result (λ inter_state e,
      x ← py_index (py_slice lo hi inter_state) (Z.to_nat (d * D + e));
      y ← py_index kt (Z.to_nat e);
      view_set lo hi (d * D + e) (f32_add x (f32_mul wd y)) inter_state) inter_state (zrange D))
    inter_state (zrange D).

Definition inter_head (k beta intra_log u : list V) (S D chunk_size chunk_idx : Z)
    (inter_state : list V) (bh : Z) : result (list V) :=
  let n_chunks := S / chunk_size in
  let Lc := chunk_gates intra_log n_chunks chunk_size bh chunk_idx in
  let Cin := chunk_state inter_state n_chunks D bh chunk_idx in
  let lo := (bh * (n_chunks + 1) + chunk_idx + 1) * D * D in
  let hi := (bh * (n_chunks + 1) + chunk_idx + 2) * D * D in
  Gfull ← kda_gate_prod_intra Lc 0 (chunk_size - 1);
  inter_state ← fold_result (λ inter_state d,
    fold_result (λ inter_state e,
      x ← py_index Cin (Z.to_nat (d * D + e));
      view_set lo hi (d * D + e) (f32_mul Gfull x) inter_state) inter_state (zrange D))
    inter_state (zrange D);
  fold_result (inter_token k beta u D chunk_size Lc (bh * S + chunk_idx * chunk_size) lo hi)
    inter_state (zrange chunk_size).

Definition kda_delta_rule_inter (k beta intra_log u inter_state : list V)
    (B H S D chunk_size chunk_idx : Z) : result (list V) :=
  _ ← kda_check_chunk S D chunk_size;
  _ ← require ((0 <=? chunk_idx * chunk_size) && (chunk_idx * chunk_size <? S))
        (ValueError "chunk_idx out of range");
  fold_result (inter_head k beta intra_log u S D chunk_size chunk_idx) inter_state (heads B H).

Definition output_token (q k beta u : list V) (D : Z) (Lc Cin : list V) (row : Z) (out : list V) (t : Z) :
    result (list V) :=
  let qt := token_row D (row + t) q in
  G0t ← kda_gate_prod_intra Lc 0 t;
  inter_out ← map_result (λ d, s ← dot D (d * D) Cin qt; Ok (f32_mul G0t s)) (zrange D);
  intra_out ← add_corrections k beta u D Lc qt row t (t + 1);
  fold_result (λ out d,
    x ← py_index inter_out (Z.to_nat d);
    y ← py_index intra_out (Z.to_nat d);
    _ ← require (bool_decide (Z.to_nat ((row + t) * D + d) < length out)%nat) (IndexError "out of bounds");
    Ok (<[Z.to_nat ((row + t) * D + d) := f32_add x y]> out)) out (zrange D).

Definition kda_gla_fwd_o (q k beta intra_log inter_state u : list V) (B H S D chunk_size : Z)
    (out : list V) : result (list V) :=
  _ ← kda_check_chunk S D chunk_size;
  let n_chunks := S / chunk_size in
  fold_result (λ out bh,
    fold_result (λ out c,
      let Lc := chunk_gates intra_log n_chunks chunk_size bh c in
      let Cin := chunk_state inter_state n_chunks D bh c in
      fold_result (output_token q k beta u D Lc Cin (bh * S + c * chunk_size)) out (zrange chunk_size))
      out (zrange n_chunks)) out (heads B H).

Definition kda_delta_rule_fwd (q k v g beta : list V) (B H S D chunk_size : Z) (out : list V) :
    result (list V) :=
  _ ← kda_check_chunk S D chunk_size;
  _ ← require (Z.of_nat (length q) =? B * H * S * D) (ValueError "q must be B*H*S*D");
  _ ← require (Z.of_nat (length g) =? B * H * S) (ValueError "g must be B*H*S");
  _ ← require (Z.of_nat (length out) =? B * H * S * D) (ValueError "out must be B*H*S*D");
  if (B =? 0) || (H =? 0) || (S =? 0) then Ok out
  else
    let n_chunks := S / chunk_size in
    '(intra_log, _) ← kda_gate_chunk_cumsum g B H n_chunks chunk_size;
    let u := replicate (Z.to_nat (B * H * S * D)) (f32 0) in
    let inter_state := replicate (Z.to_nat (B * H * (n_chunks + 1) * D * D)) (f32 0) in
    '(u, inter_state) ← fold_result (λ '(u, inter_state) c,
      u ← kda_delta_rule_intra k v beta intra_log inter_state u B H S D chunk_size c;
      inter_state ← kda_delta_rule_inter k beta intra_log u inter_state B H S D chunk_size c;
      Ok (u, inter_state)) (u, inter_state) (zrange n_chunks);
    kda_gla_fwd_o q k beta intra_log inter_state u B H S D chunk_size out.

(** ** The per-token operator *)

(** [state *= gt[None, :]] *)
Definition decay_state (D : Z) (gt state : list V) : result (list V) :=
  map_result (λ i,
    x ← py_index state (Z.to_nat i);
    y ← py_index gt (Z.to_nat (i mod D));
    Ok (f32_mul x y)) (zrange (D * D)).

Definition naive_token (q k v g beta : list V) (D bh : Z) (state_out : list V * list V) (t : Z) :
    result (list V * list V) :=
  let '(state, out) := state_out in
  let kt := token_row D (bh + t) k in
  let vt := token_row D (bh + t) v in
  let qt := token_row D (bh + t) q in
  let gt := token_row D (bh + t) g in
  bt ← py_index beta (Z.to_nat (bh + t));
  state ← decay_state D gt state;
  a ← map_result (λ d, dot D (d * D) state kt) (zrange D);
  fold_result (λ '(state, out) d,
    vd ← py_index vt (Z.to_nat d);
    ad ← py_index a (Z.to_nat d);
    let ud := f32_sub vd ad in
    state ← fold_result (λ state e,
      x ← py_index state (Z.to_nat (d * D + e));
      y ← py_index kt (Z.to_nat e);
      Ok (<[Z.to_nat (d * D + e) := f32_add x (f32_mul (f32_mul bt ud) y)]> state)) state (zrange D);
    s ← dot D (d * D) state qt;
    _ ← require (bool_decide (Z.to_nat ((bh + t) * D + d) < length out)%nat) (IndexError "out of bounds");
    Ok (state, <[Z.to_nat ((bh + t) * D + d) := s]> out)) (state, out) (zrange D).

Definition kda_naive_delta_rule_fwd (q k v g beta : list V) (B H S D : Z) (out : list V) :
    result (list V) :=
  _ ← require (negb (D <=? 0)) (ValueError "D must be positive");
  _ ← require (forallb (λ xs : list V, Z.of_nat (length xs) =? B * H * S * D) [q; k; v; out; g])
        (ValueError "wrong size");
  _ ← require (Z.of_nat (length beta) =? B * H * S) (ValueError "wrong size");
  if (B =? 0) || (H =? 0) || (S =? 0) then Ok out
  else
    fold_result (λ out bh,
      let state := replicate (Z.to_nat (D * D)) (f32 0) in
      '(_, out) ← fold_result (naive_token q k v g beta D (bh * S)) (state, out) (zrange S);
      Ok out) out (heads B H).
End kda.

Lemma heads_zrange (B H : Z) : 0 ≤ B → 0 ≤ H → heads B H = zrange (B * H).
Proof.
  intros HB HH. revert B HB. refine (natlike_ind _ _ _); [done|]. intros B HB IH.
  unfold heads in *. unfold Z.succ. rewrite zrange_S, bind_app, IH by done. simpl. rewrite app_nil_r.
  replace ((B + 1) * H) with (B * H + H) by lia. rewrite zrange_add by nia. f_equal.
Qed.


(** ** Sums and products *)
Section sums.
Context {V : Type} `{num : !Float32 V}.

Fixpoint sum_to (n : nat) (f : Z → V) : V :=
  match n with O => f32 0 | S n => f32_add (sum_to n f) (f (Z.of_nat n)) end.
Definition sumz (n : Z) (f : Z → V) : V := sum_to (Z.to_nat n) f.

(** The product of [m] gates from [a] on. *)
Fixpoint gate_prod (gf : Z → V) (a : Z) (m : nat) : V :=
  match m with O => f32 1 | S m => f32_mul (gate_prod gf a m) (gf (a + Z.of_nat m)) end.

Lemma sumz_0 n f : n ≤ 0 → sumz n f = f32 0.
Proof. intros H. unfold sumz. by replace (Z.to_nat n) with O by lia. Qed.
Lemma sumz_S n f : 0 ≤ n → sumz (n + 1) f = f32_add (sumz n f) (f n).
Proof.
  intros H. unfold sumz. replace (Z.to_nat (n + 1)) with (S (Z.to_nat n)) by lia. simpl.
  by rewrite Z2Nat.id.
Qed.

Lemma sum_to_ext n f f' : (∀ i, 0 ≤ i < Z.of_nat n → f i = f' i) → sum_to n f = sum_to n f'.
Proof. induction n as [|n IH]; intros H; simpl; [done|]. rewrite IH, H; [done|lia|]. intros i Hi. apply H. lia. Qed.
Lemma sumz_ext n f f' : (∀ i, 0 ≤ i < n → f i = f' i) → sumz n f = sumz n f'.
Proof. intros H. apply sum_to_ext. intros i Hi. apply H. lia. Qed.

(** A loop that adds to a number. *)
Lemma fold_sum (f : V → Z → result V) (h : Z → V) n :
  0 ≤ n → (∀ s i, 0 ≤ i < n → f s i = Ok (f32_add s (h i))) →
  fold_result f (f32 0) (zrange n) = Ok (sumz n h).
Proof.
  intros Hn Hf. destruct (fold_zrange_inv f (λ i s, s = sumz i h) n (f32 0)) as (s & E & ->); [done..| |done].
  intros i s Hi ->. exists (sumz (i + 1) h). by rewrite Hf, sumz_S by lia.
Qed.

Lemma dot_ok D off xs ys f h : 0 ≤ D → cells xs off D f → cells ys 0 D h →
  dot D off xs ys = Ok (sumz D (λ e, f32_mul (f e) (h e))).
Proof.
  intros HD Hx Hy. apply fold_sum; [done|]. intros s e He.
  by rewrite (cells_index xs off D f), (cells_index_0 ys D h).
Qed.

Lemma axpy_ok D w xs acc f h : cells acc 0 D f → cells xs 0 D h →
  axpy D w xs acc = Ok ((λ d, f32_add (f d) (f32_mul w (h d))) <$> zrange D).
Proof.
  intros Ha Hx. apply map_zrange_ok. intros d Hd.
  by rewrite (cells_index_0 acc D f), (cells_index_0 xs D h).
Qed.

(** Exact arithmetic, with an exponential that undoes the logarithm of gates. *)
Context (opp : V → V) (exact : ring_theory (f32 0) (f32 1) f32_add f32_mul f32_sub opp eq).
Add Ring exact_ring : exact.

Lemma sum_to_add n f h : sum_to n (λ i, f32_add (f i) (h i)) = f32_add (sum_to n f) (sum_to n h).
Proof using exact. induction n as [|n IH]; simpl; [ring|]. rewrite IH. ring. Qed.
Lemma sum_to_mul_l n a f : sum_to n (λ i, f32_mul a (f i)) = f32_mul a (sum_to n f).
Proof using exact. induction n as [|n IH]; simpl; [ring|]. rewrite IH. ring. Qed.
Lemma sum_to_mul_r n a f : sum_to n (λ i, f32_mul (f i) a) = f32_mul (sum_to n f) a.
Proof using exact. induction n as [|n IH]; simpl; [ring|]. rewrite IH. ring. Qed.
Lemma sum_to_zero n : sum_to n (λ _, f32 0) = f32 0.
Proof using exact. induction n as [|n IH]; simpl; [ring|]. rewrite IH. ring. Qed.
Lemma sum_to_swap n m f : sum_to n (λ i, sum_to m (f i)) = sum_to m (λ j, sum_to n (λ i, f i j)).
Proof using exact.
  induction n as [|n IH]; simpl; [by rewrite sum_to_zero|]. by rewrite IH, <- sum_to_add.
Qed.

Context (ex lg : V → V).
Context (exp_ok : ∀ x, math_exp x = Ok (ex x)).
Context (exp_0 : ex (f32 0) = f32 1).
Context (exp_add : ∀ x y, ex (f32_add x y) = f32_mul (ex x) (ex y)).
Context (log_ok : ∀ x, f32_le x (f32 0) = false → math_log x = Ok (lg x) ∧ ex (lg x) = x).

Definition log_sum (gf : Z → V) (n : Z) : V := sumz n (λ i, lg (gf i)).

Lemma exp_log_sum gf a m : 0 ≤ a → (∀ i, 0 ≤ i < a + Z.of_nat m → f32_le (gf i) (f32 0) = false) →
  ex (log_sum gf (a + Z.of_nat m)) = f32_mul (ex (log_sum gf a)) (gate_prod gf a m).
Proof using exact exp_add log_ok.
  intros Ha. induction m as [|m IH]; intros Hpos; simpl; [rewrite Z.add_0_r; ring|].
  replace (a + Z.of_nat (S m)) with (a + Z.of_nat m + 1) by lia. unfold log_sum at 1.
  rewrite sumz_S, exp_add by lia. fold (log_sum gf (a + Z.of_nat m)).
  rewrite IH by (intros i Hi; apply Hpos; lia).
  rewrite (proj2 (log_ok (gf (a + Z.of_nat m)) ltac:(apply Hpos; lia))). ring.
Qed.

(** What the difference of two cumulative sums gives. *)
Lemma gate_prod_ok gf L C a n :
  cells L 0 C (λ i, log_sum gf (i + 1)) → (∀ i, 0 ≤ i < C → f32_le (gf i) (f32 0) = false) →
  0 ≤ a ≤ n → n ≤ C →
  kda_gate_prod_intra L a (n - 1) = Ok (gate_prod gf a (Z.to_nat (n - a))).
Proof using exact exp_ok exp_0 exp_add log_ok.
  intros HL Hpos Ha Hn. unfold kda_gate_prod_intra.
  destruct (Z.gtb_spec a (n - 1)) as [E|E]; [by replace (Z.to_nat (n - a)) with O by lia|].
  rewrite (cells_index_0 L C (λ i, log_sum gf (i + 1)) (n - 1)) by (done || lia). simpl.
  assert ((if a >? 0 then py_index L (Z.to_nat (a - 1)) else Ok (f32 0)) = Ok (log_sum gf a)) as ->.
  { destruct (Z.gtb_spec a 0) as [E'|E'].
    - rewrite (cells_index_0 L C (λ i, log_sum gf (i + 1)) (a - 1)) by (done || lia). do 2 f_equal. lia.
    - unfold log_sum. by rewrite sumz_0 by lia. }
  simpl. rewrite exp_ok. f_equal. replace (n - 1 + 1) with n by lia.
  pose proof (exp_log_sum gf a (Z.to_nat (n - a)) ltac:(lia) ltac:(intros i Hi; apply Hpos; lia)) as Hs.
  rewrite Z2Nat.id in Hs by lia. replace (a + (n - a)) with n in Hs by lia.
  set (A := log_sum gf a) in *. set (N := log_sum gf n) in *.
  assert (f32_mul (ex A) (ex (opp A)) = f32 1) as Hinv.
  { rewrite <- exp_add, <- exp_0. f_equal. ring. }
  transitivity (f32_mul (ex N) (ex (opp A))); [rewrite <- exp_add; f_equal; ring|].
  rewrite Hs. transitivity (f32_mul (gate_prod gf a (Z.to_nat (n - a))) (f32_mul (ex A) (ex (opp A)))); [ring|].
  rewrite Hinv. ring.
Qed.
End sums.

(** ** The gated delta rule

    One state per head, token after token: the state predicts the value from
    the key, the error times [beta] is added along the key, and the old state
    decays by the gate. *)
Section rule.
Context {V : Type} `{num : !Float32 V}.
Context (D : Z) (kf vf qf : Z → Z → V) (gf bf : Z → V).

Fixpoint rule_state (t : nat) : Z → Z → V :=
  match t with
  | O => λ _ _, f32 0
  | S t => λ d e,
      let error := f32_sub (vf (Z.of_nat t) d)
                     (sumz D (λ e', f32_mul (rule_state t d e') (kf (Z.of_nat t) e'))) in
      f32_add (f32_mul (gf (Z.of_nat t)) (rule_state t d e))
              (f32_mul (f32_mul (bf (Z.of_nat t)) error) (kf (Z.of_nat t) e))
  end.

Definition rule_error (t d : Z) : V :=
  f32_sub (vf t d) (sumz D (λ e, f32_mul (rule_state (Z.to_nat t) d e) (kf t e))).

Definition rule_output (t d : Z) : V :=
  sumz D (λ e, f32_mul (rule_state (Z.to_nat (t + 1)) d e) (qf t e)).

Lemma rule_state_S t d e : 0 ≤ t → rule_state (Z.to_nat (t + 1)) d e =
  f32_add (f32_mul (gf t) (rule_state (Z.to_nat t) d e)) (f32_mul (f32_mul (bf t) (rule_error t d)) (kf t e)).
Proof.
  intros Ht. replace (Z.to_nat (t + 1)) with (S (Z.to_nat t)) by lia. simpl. unfold rule_error.
  by rewrite Z2Nat.id.
Qed.

Context (opp : V → V) (exact : ring_theory (f32 0) (f32 1) f32_add f32_mul f32_sub opp eq).
Add Ring rule_ring : exact.

(** The gates of a chunk that starts at [s0], and the share of token [j] in the
    state before token [n]. *)
Definition decay (s0 j n : Z) : V :=
  gate_prod (λ i, gf (s0 + i)) j (Z.to_nat (n - j)).
Definition share (s0 n j d : Z) (x : V) : V :=
  f32_mul (f32_mul (f32_mul (decay s0 (j + 1) n) (bf (s0 + j))) x) (rule_error (s0 + j) d).

Lemma decay_S s0 j n : j ≤ n → decay s0 j (n + 1) = f32_mul (gf (s0 + n)) (decay s0 j n).
Proof using exact.
  intros Hj. unfold decay. replace (Z.to_nat (n + 1 - j)) with (S (Z.to_nat (n - j))) by lia. simpl.
  replace (j + Z.of_nat (Z.to_nat (n - j))) with n by lia. ring.
Qed.
Lemma decay_diag s0 n : decay s0 n n = f32 1.
Proof. unfold decay. by rewrite Z.sub_diag. Qed.

(** The state inside a chunk, from the state at its start. *)
Lemma state_closed s0 n d e : 0 ≤ s0 → 0 ≤ n →
  rule_state (Z.to_nat (s0 + n)) d e =
    f32_add (f32_mul (decay s0 0 n) (rule_state (Z.to_nat s0) d e))
            (sumz n (λ j, share s0 n j d (kf (s0 + j) e))).
Proof using exact.
  intros Hs. revert n. refine (natlike_ind _ _ _).
  { rewrite Z.add_0_r, sumz_0, decay_diag by done. ring. }
  intros n Hn IH. unfold Z.succ. rewrite Z.add_assoc, rule_state_S, IH, sumz_S, decay_S by lia.
  assert (sumz n (λ j, share s0 (n + 1) j d (kf (s0 + j) e)) =
          f32_mul (gf (s0 + n)) (sumz n (λ j, share s0 n j d (kf (s0 + j) e)))) as ->.
  { unfold sumz. erewrite <- (sum_to_mul_l opp exact). apply sum_to_ext. intros j Hj. unfold share.
    rewrite decay_S by lia. ring. }
  unfold share at 3. rewrite decay_diag. ring.
Qed.

(** The product of such a state with a vector. *)
Lemma state_read s0 n d x : 0 ≤ s0 → 0 ≤ n →
  sumz D (λ e, f32_mul (rule_state (Z.to_nat (s0 + n)) d e) (x e)) =
    f32_add (f32_mul (decay s0 0 n) (sumz D (λ e, f32_mul (rule_state (Z.to_nat s0) d e) (x e))))
            (sumz n (λ j, share s0 n j d (sumz D (λ e, f32_mul (kf (s0 + j) e) (x e))))).
Proof using exact.
  intros Hs Hn. unfold sumz.
  rewrite (sum_to_ext _ (λ e, f32_mul (rule_state (Z.to_nat (s0 + n)) d e) (x e))
    (λ e, f32_add (f32_mul (decay s0 0 n) (f32_mul (rule_state (Z.to_nat s0) d e) (x e)))
                  (sum_to (Z.to_nat n) (λ j, f32_mul (share s0 n j d (kf (s0 + j) e)) (x e))))).
  2:{ intros e _. rewrite state_closed by done. unfold sumz. rewrite (sum_to_mul_r opp exact). ring. }
  rewrite (sum_to_add opp exact), (sum_to_mul_l opp exact), (sum_to_swap opp exact). f_equal.
  apply sum_to_ext. intros j Hj. unfold share.
  rewrite (sum_to_ext _ _ (λ e, f32_mul (f32_mul (f32_mul (decay s0 (j + 1) n) (bf (s0 + j))) (rule_error (s0 + j) d))
    (f32_mul (kf (s0 + j) e) (x e)))) by (intros e _; ring).
  rewrite (sum_to_mul_l opp exact). ring.
Qed.
End rule.

(** ** Flat indices of tokens *)
Section layout.
Context {V : Type} `{num : !Float32 V}.
#[local] Existing Instance V_inhabited.


Lemma view_set_wrote lo hi i (x : V) (xs : list V) : 0 ≤ lo → 0 ≤ i < hi - lo → hi ≤ Z.of_nat (length xs) →
  ∃ xs', view_set lo hi i x xs = Ok xs' ∧ wrote (lo + i) 1 (λ _, x) xs xs'.
Proof.
  intros Hlo Hi Hhi. exists (<[Z.to_nat (lo + i) := x]> xs). split; [|apply wrote_one; lia].
  unfold view_set. rewrite length_py_slice by lia. by rewrite (proj2 (Z.ltb_lt _ _)) by lia.
Qed.

Context (BH S D : Z) (HD : 0 < D).

Lemma token_bounds bh t : 0 ≤ bh < BH → 0 ≤ t < S →
  0 ≤ (bh * S + t) * D ∧ (bh * S + t) * D + D ≤ BH * S * D.
Proof using HD. intros Hb Ht. pose proof (flat_bounds bh BH t S Hb Ht). nia. Qed.

Lemma token_row_cells (xs : list V) bh t : Z.of_nat (length xs) = BH * S * D → 0 ≤ bh < BH → 0 ≤ t < S →
  cells (token_row D (bh * S + t) xs) 0 D (λ e, xs !!! Z.to_nat ((bh * S + t) * D + e)).
Proof using HD.
  intros Hx Hb Ht. destruct (token_bounds bh t Hb Ht). apply cells_slice; [apply cells_total; lia|lia..].
Qed.

Lemma token_index (xs : list V) bh t : Z.of_nat (length xs) = BH * S → 0 ≤ bh < BH → 0 ≤ t < S →
  py_index xs (Z.to_nat (bh * S + t)) = Ok (xs !!! Z.to_nat (bh * S + t)).
Proof.
  intros Hx Hb Ht. pose proof (flat_bounds bh BH t S Hb Ht). unfold py_index.
  by rewrite (list_lookup_lookup_total_lt xs) by lia.
Qed.
End layout.

(** ** The stages against the rule *)
Section stages.
Context {V : Type} `{num : !Float32 V}.
#[local] Existing Instance V_inhabited.
#[local] Set Default Proof Using "All".

(** [BH] heads of [S] tokens in [N] chunks of [C]. *)
Context (q k v g beta : list V) (BH S D C N : Z).
Context (HBH : 0 ≤ BH) (HD : 0 < D) (HC : 0 < C) (HN : 0 ≤ N) (HS : S = N * C).

Definition kf (bh t e : Z) : V := k !!! Z.to_nat ((bh * S + t) * D + e).
Definition vf (bh t e : Z) : V := v !!! Z.to_nat ((bh * S + t) * D + e).
Definition qf (bh t e : Z) : V := q !!! Z.to_nat ((bh * S + t) * D + e).
Definition gf (bh t : Z) : V := g !!! Z.to_nat (bh * S + t).
Definition bf (bh t : Z) : V := beta !!! Z.to_nat (bh * S + t).

Definition head_state (bh t d e : Z) : V :=
  rule_state D (kf bh) (vf bh) (gf bh) (bf bh) (Z.to_nat t) d e.
Definition head_error (bh t d : Z) : V := rule_error D (kf bh) (vf bh) (gf bh) (bf bh) t d.
Definition head_output (bh t d : Z) : V := rule_output D (kf bh) (vf bh) (qf bh) (gf bh) (bf bh) t d.

Context (Hk : Z.of_nat (length k) = BH * S * D) (Hv : Z.of_nat (length v) = BH * S * D).
Context (Hq : Z.of_nat (length q) = BH * S * D).
Context (Hg : Z.of_nat (length g) = BH * S) (Hbeta : Z.of_nat (length beta) = BH * S).
Context (positive : ∀ bh t, 0 ≤ bh < BH → 0 ≤ t < S → f32_le (gf bh t) (f32 0) = false).
Context (opp : V → V) (exact : ring_theory (f32 0) (f32 1) f32_add f32_mul f32_sub opp eq).
Context (ex lg : V → V).
Context (exp_ok : ∀ x, math_exp x = Ok (ex x)).
Context (exp_0 : ex (f32 0) = f32 1).
Context (exp_add : ∀ x y, ex (f32_add x y) = f32_mul (ex x) (ex y)).
Context (log_ok : ∀ x, f32_le x (f32 0) = false → math_log x = Ok (lg x) ∧ ex (lg x) = x).
Add Ring stages_ring : exact.

Lemma chunk_token c t : 0 ≤ c < N → 0 ≤ t < C → 0 ≤ c * C + t < S.
Proof. intros Hc Ht. rewrite HS. by apply flat_bounds. Qed.

(** What the arrays of the chunked pass hold. *)
Definition u_done (P : Z → Z → Prop) (u : list V) : Prop :=
  Z.of_nat (length u) = BH * S * D ∧
  ∀ bh t, 0 ≤ bh < BH → 0 ≤ t < S → P bh t → cells u ((bh * S + t) * D) D (head_error bh t).
Definition s_done (P : Z → Z → Prop) (s : list V) : Prop :=
  Z.of_nat (length s) = BH * (N + 1) * D * D ∧
  ∀ bh c, 0 ≤ bh < BH → 0 ≤ c ≤ N → P bh c →
    cells s ((bh * (N + 1) + c) * D * D) (D * D) (λ i, head_state bh (c * C) (i / D) (i mod D)).
Definition log_gates (bh c : Z) (L : list V) : Prop :=
  cells L 0 C (λ i, log_sum lg (λ i, gf bh (c * C + i)) (i + 1)).

Lemma u_done_step P P' u u' bh t : 0 ≤ bh < BH → 0 ≤ t < S →
  u_done P u → wrote ((bh * S + t) * D) D (head_error bh t) u u' →
  (∀ bh' t', P' bh' t' → P bh' t' ∨ bh' = bh ∧ t' = t) → u_done P' u'.
Proof.
  intros Hb Ht [Hl Hc] Hw HP. split; [by rewrite (wrote_length _ _ _ _ _ Hw)|].
  intros bh' t' Hb' Ht' Hp. destruct (decide (bh' = bh ∧ t' = t)) as [[-> ->]|Hne].
  { by apply (wrote_cells _ _ _ _ _ Hw). }
  destruct (HP _ _ Hp) as [Hp'|]; [|tauto].
  eapply wrote_keeps; [done|by apply Hc|by apply (token_bounds BH S D HD)|].
  pose proof (flat_apart bh bh' t t' S Ht Ht' ltac:(lia)). nia.
Qed.

Lemma state_bounds bh c : 0 ≤ bh < BH → 0 ≤ c ≤ N →
  0 ≤ (bh * (N + 1) + c) * D * D ∧ (bh * (N + 1) + c) * D * D + D * D ≤ BH * (N + 1) * D * D.
Proof. intros Hb Hc. pose proof (flat_bounds bh BH c (N + 1) Hb ltac:(lia)). nia. Qed.

Lemma s_done_step P P' s s' bh c : 0 ≤ bh < BH → 0 ≤ c ≤ N → s_done P s →
  wrote ((bh * (N + 1) + c) * D * D) (D * D) (λ i, head_state bh (c * C) (i / D) (i mod D)) s s' →
  (∀ bh' c', P' bh' c' → P bh' c' ∨ bh' = bh ∧ c' = c) → s_done P' s'.
Proof.
  intros Hb Hc0 [Hl Hc] Hw HP. split; [by rewrite (wrote_length _ _ _ _ _ Hw)|].
  intros bh' c' Hb' Hc' Hp. destruct (decide (bh' = bh ∧ c' = c)) as [[-> ->]|Hne].
  { by apply (wrote_cells _ _ _ _ _ Hw). }
  destruct (HP _ _ Hp) as [Hp'|]; [|tauto].
  eapply wrote_keeps; [done|by apply Hc|by apply state_bounds|].
  pose proof (flat_apart bh bh' c c' (N + 1) ltac:(lia) ltac:(lia) ltac:(lia)). nia.
Qed.

(** The state of a chunk, row by row. *)
Lemma state_row bh t d s :
  cells s 0 (D * D) (λ i, head_state bh t (i / D) (i mod D)) → 0 ≤ d < D →
  cells s (d * D) D (λ e, head_state bh t d e).
Proof.
  intros H Hd. eapply cells_sub; [done|nia|nia|]. intros e He. simpl.
  rewrite Z.sub_0_r, Z.add_comm, Z.div_add, Z.mod_add, Z.div_small, Z.mod_small by lia. f_equal.
Qed.

Lemma gates_ok bh c L a n : 0 ≤ bh < BH → 0 ≤ c < N → log_gates bh c L → 0 ≤ a ≤ n → n ≤ C →
  kda_gate_prod_intra L a (n - 1) = Ok (decay (gf bh) (c * C) a n).
Proof.
  intros Hb Hc HL Ha Hn.
  apply (gate_prod_ok opp exact ex lg exp_ok exp_0 exp_add log_ok (λ i, gf bh (c * C + i)) L C); [done| |done..].
  intros i Hi. apply positive; [done|]. by apply chunk_token.
Qed.

Definition contribution (bh c n d : Z) (f : Z → V) : V :=
  sumz n (λ j, share D (kf bh) (vf bh) (gf bh) (bf bh) (c * C) n j d
                 (sumz D (λ e, f32_mul (kf bh (c * C + j) e) (f e)))).

Lemma add_corrections_ok P bh c n L x f u :
  0 ≤ bh < BH → 0 ≤ c < N → 0 ≤ n ≤ C → log_gates bh c L → cells x 0 D f →
  u_done P u → (∀ j, 0 ≤ j < n → P bh (c * C + j)) →
  ∃ acc, add_corrections k beta u D L x (bh * S + c * C) (n - 1) n = Ok acc ∧
    cells acc 0 D (λ d, contribution bh c n d f).
Proof.
  intros Hb Hc Hn HL Hx [Hu Hdone] HP. unfold add_corrections, contribution.
  set (term d j := share D (kf bh) (vf bh) (gf bh) (bf bh) (c * C) n j d
    (sumz D (λ e, f32_mul (kf bh (c * C + j) e) (f e)))).
  apply (fold_zrange_inv _ (λ i acc, cells acc 0 D (λ d, sumz i (term d)))); [lia| |].
  { intros d Hd. rewrite sumz_0 by done. apply lookup_replicate_2. lia. }
  intros j acc Hj Hacc.
  assert (0 ≤ c * C + j < S) as Ht by (apply chunk_token; lia).
  rewrite <- (Z.add_assoc (bh * S)), (gates_ok bh c) by (done || lia). simpl.
  rewrite (dot_ok D 0 _ _ (kf bh (c * C + j)) f) by (done || lia || by apply (token_row_cells BH S D HD)). simpl.
  rewrite (token_index BH S) by done. fold (bf bh (c * C + j)). simpl.
  erewrite axpy_ok; [|done|]; [|apply cells_slice; [by apply Hdone; auto|apply (token_bounds BH S D HD); done|lia]].
  eexists. split; [done|]. eapply cells_ext; [apply cells_fmap|]. intros d Hd. simpl.
  rewrite sumz_S by lia. done.
Qed.

Lemma intra_token_ok P bh c t L Cin u :
  0 ≤ bh < BH → 0 ≤ c < N → 0 ≤ t < C → log_gates bh c L →
  cells Cin 0 (D * D) (λ i, head_state bh (c * C) (i / D) (i mod D)) →
  u_done P u → (∀ j, 0 ≤ j < t → P bh (c * C + j)) →
  ∃ u', intra_token k v beta D L Cin (bh * S + c * C) u t = Ok u' ∧
    wrote ((bh * S + (c * C + t)) * D) D (head_error bh (c * C + t)) u u'.
Proof.
  intros Hb Hc Ht HL HCin Hu HP. pose proof (chunk_token c t Hc Ht) as Htok.
  destruct (token_bounds BH S D HD bh (c * C + t) Hb Htok) as [Hlo Hhi].
  pose proof (token_row_cells BH S D HD k bh (c * C + t) Hk Hb Htok) as Hkt. fold (kf bh (c * C + t)) in Hkt.
  unfold intra_token. rewrite (gates_ok bh c) by (done || lia). simpl.
  rewrite <- !Z.add_assoc.
  rewrite (map_zrange_ok _ (λ d, f32_mul (decay (gf bh) (c * C) 0 t)
    (sumz D (λ e, f32_mul (head_state bh (c * C) d e) (kf bh (c * C + t) e))))).
  2:{ intros d Hd. erewrite dot_ok; [done|lia|by apply state_row|done]. }
  simpl.
  destruct (add_corrections_ok P bh c t L _ (kf bh (c * C + t)) u Hb Hc ltac:(lia) HL Hkt Hu HP)
    as (corr & -> & Hcorr). simpl.
  apply fold_cells; [done|lia|]. intros u' d Hd Hw.
  assert (py_index v (Z.to_nat ((bh * S + (c * C + t)) * D + d)) = Ok (vf bh (c * C + t) d)) as ->.
  { unfold py_index. rewrite (list_lookup_lookup_total_lt v) by lia. done. }
  simpl. rewrite (cells_index_0 _ D _ d (cells_fmap D _)) by done. simpl.
  rewrite (cells_index_0 _ D _ d Hcorr) by done. simpl.
  pose proof (wrote_length _ _ _ _ _ Hw) as Hl. destruct Hu as [Hu _].
  replace (head_error bh (c * C + t) d) with (f32_sub (f32_sub (vf bh (c * C + t) d)
    (f32_mul (decay (gf bh) (c * C) 0 t)
      (sumz D (λ e, f32_mul (head_state bh (c * C) d e) (kf bh (c * C + t) e)))))
    (contribution bh c t d (kf bh (c * C + t)))).
  { apply view_set_wrote; lia. }
  unfold head_error, rule_error. rewrite (state_read D _ _ _ _ opp exact) by lia.
  unfold contribution, head_state. ring.
Qed.

Lemma check_chunk_ok : kda_check_chunk S D C = Ok tt.
Proof.
  unfold kda_check_chunk. rewrite HS, Z.mod_mul by lia.
  by rewrite (proj2 (Z.leb_gt D 0)), (proj2 (Z.leb_gt C 0)) by lia.
Qed.
Lemma chunk_idx_ok c e : 0 ≤ c < N → require ((0 <=? c * C) && (c * C <? S)) e = Ok tt.
Proof.
  intros Hc. apply require_ok. pose proof (chunk_token c 0 Hc ltac:(lia)).
  rewrite (proj2 (Z.leb_le _ _)), (proj2 (Z.ltb_lt _ _)) by lia. done.
Qed.
Lemma n_chunks_ok : S / C = N.
Proof. rewrite HS. apply Z.div_mul. lia. Qed.

Lemma chunk_state_ok P s bh c : s_done P s → 0 ≤ bh < BH → 0 ≤ c ≤ N → P bh c →
  cells (chunk_state s N D bh c) 0 (D * D) (λ i, head_state bh (c * C) (i / D) (i mod D)).
Proof.
  intros [_ Hs] Hb Hc HP. destruct (state_bounds bh c Hb Hc).
  apply cells_slice; [by apply Hs|done|]. lia.
Qed.

Context (B H : Z) (Hprod : BH = B * H) (Hheads : heads B H = zrange BH).

(** The cumulative sums of the gates, in the flat array of all chunks. *)
Definition log_cell (i : Z) : V := log_sum lg (λ j, g !!! Z.to_nat (i / C * C + j)) (i mod C + 1).

Lemma chunk_rows bh c i : bh * S + (c * C + i) = (bh * N + c) * C + i.
Proof. lia. Qed.

Lemma cumsum_chunk_ok bh c intra : 0 ≤ bh < BH → 0 ≤ c < N → Z.of_nat (length intra) = BH * S →
  ∃ intra' acc, cumsum_chunk C (bh * N + c) g intra = Ok (intra', acc) ∧
    wrote ((bh * N + c) * C) C (λ i, log_cell ((bh * N + c) * C + i)) intra intra'.
Proof.
  intros Hb Hc Hl. set (row := bh * N + c).
  pose proof (flat_bounds bh BH c N Hb Hc) as Hrow. fold row in Hrow.
  assert (0 ≤ row * C ∧ row * C + C ≤ BH * S) as [Hlo Hhi] by nia.
  set (L := log_sum lg (λ j, g !!! Z.to_nat (row * C + j))).
  destruct (fold_zrange_inv (λ '(intra, acc) t,
      x ← py_index (py_slice (row * C) ((row + 1) * C) g) (Z.to_nat t);
      l ← kda_log_gate x;
      let acc := f32_add acc l in
      intra ← view_set (row * C) ((row + 1) * C) t acc intra;
      Ok (intra, acc)) (λ t '(xs, acc), wrote (row * C) t (λ i, L (i + 1)) intra xs ∧ acc = L t) C (intra, f32 0))
    as ([intra' acc] & E & Hw & _); [lia|by split; [apply wrote_nil|]| |].
  - intros t [xs acc] Ht [Hw ->]. pose proof (wrote_length _ _ _ _ _ Hw).
    rewrite (cells_index_0 _ C (λ j, g !!! Z.to_nat (row * C + j)));
      [|apply cells_slice; [apply cells_total; lia|lia..]|done]. simpl.
    assert (f32_le (g !!! Z.to_nat (row * C + t)) (f32 0) = false) as Hpos.
    { subst row. rewrite <- chunk_rows. apply positive; [done|]. by apply chunk_token. }
    unfold kda_log_gate. rewrite Hpos, (proj1 (log_ok _ Hpos)). simpl.
    destruct (view_set_wrote (row * C) ((row + 1) * C) t (L (t + 1)) xs) as (xs' & E & Hw'); [lia..|].
    replace (f32_add (L t) (lg (g !!! Z.to_nat (row * C + t)))) with (L (t + 1))
      by (unfold L, log_sum; by rewrite sumz_S by lia).
    rewrite E. simpl.
    eexists (_, _). split; [done|]. split.
    + eapply wrote_app; [done|lia| |done|done|]; [lia|]. intros i Hi. cbv beta. f_equal. lia.
    + done.
  - exists intra', acc. split; [exact E|]. eapply wrote_ext; [done|]. intros i Hi. unfold L, log_cell.
    by rewrite (Z.add_comm (row * C)), Z.div_add, Z.mod_add, Z.div_small, Z.mod_small, Z.add_0_l by lia.
Qed.

Lemma cumsum_ok : 0 < N → ∃ intra inter,
  kda_gate_chunk_cumsum g B H N C = Ok (intra, inter) ∧
  ∀ bh c, 0 ≤ bh < BH → 0 ≤ c < N → log_gates bh c (chunk_gates intra N C bh c).
Proof.
  intros HN'. unfold kda_gate_chunk_cumsum.
  rewrite (proj2 (Z.leb_gt N 0)), (proj2 (Z.leb_gt C 0)), (proj2 (Z.eqb_eq _ (B * H * N * C))) by lia.
  simpl. rewrite Hheads, <- Hprod. set (intra0 := replicate _ _). set (inter0 := replicate _ _).
  destruct (fold_zrange_inv (cumsum_head N C g)
    (λ bh '(intra, inter), wrote 0 (bh * S) log_cell intra0 intra ∧ length inter = length inter0)
    BH (intra0, inter0)) as ([intra inter] & -> & Hw & _); [done|split; [apply wrote_nil|done]| |].
  - intros bh [intra inter] Hb [Hw Hl]. unfold cumsum_head.
    pose proof (wrote_length _ _ _ _ _ Hw) as Hl'. unfold intra0 in Hl'. rewrite length_replicate in Hl'.
    match goal with |- context [fold_result ?f _ _] =>
      destruct (fold_zrange_inv f (λ c '(xs, ys, _), wrote 0 ((bh * N + c) * C) log_cell intra0 xs ∧
        length ys = length inter0) N (intra, inter, f32 0)) as ([[xs ys] acc] & E & Hxs & Hys) end.
    + lia.
    + split; [|done]. by replace ((bh * N + 0) * C) with (bh * S) by lia.
    + intros c [[xs ys] acc] Hc [Hxs Hys]. pose proof (flat_bounds bh BH c N Hb Hc).
      pose proof (wrote_length _ _ _ _ _ Hxs) as Hlx. unfold intra0 in Hlx. rewrite length_replicate in Hlx.
      destruct (cumsum_chunk_ok bh c xs Hb Hc ltac:(lia)) as (xs' & acc' & -> & Hxs'). simpl.
      unfold inter0 in Hys. rewrite length_replicate in Hys.
      rewrite bool_decide_true by lia. simpl. eexists (_, _, _). split; [done|]. split.
      * replace ((bh * N + (c + 1)) * C) with ((bh * N + c) * C + C) by lia.
        eapply wrote_app; [done|lia| |done|rewrite Z.add_0_l; done|done]. lia.
      * rewrite length_insert. unfold inter0. by rewrite length_replicate.
    + cbn [fst snd]. rewrite E. simpl. eexists (_, _). split; [done|]. split; [|done].
      by replace ((bh + 1) * S) with ((bh * N + N) * C) by lia.
  - exists intra, inter. split; [done|]. intros bh c Hb Hc.
    pose proof (flat_bounds bh BH c N Hb Hc). pose proof (wrote_cells _ _ _ _ _ Hw) as Hcells.
    apply (cells_slice _ _ _ C _); [|lia|lia]. eapply cells_sub; [exact Hcells|lia|nia|].
    intros i Hi. unfold log_cell. rewrite Z.sub_0_r, (Z.add_comm _ i).
    rewrite Z.div_add, Z.mod_add, Z.div_small, Z.mod_small, Z.add_0_l by lia.
    apply sumz_ext. intros j Hj. unfold gf. rewrite chunk_rows. done.
Qed.

Context (intra_log : list V) (Hlog : ∀ bh c, 0 ≤ bh < BH → 0 ≤ c < N → log_gates bh c (chunk_gates intra_log N C bh c)).

Lemma intra_ok s u c : 0 ≤ c < N → s_done (λ _ c', c' ≤ c) s → u_done (λ _ t, t < c * C) u →
  ∃ u', kda_delta_rule_intra k v beta intra_log s u B H S D C c = Ok u' ∧
    u_done (λ _ t, t < (c + 1) * C) u'.
Proof.
  intros Hc Hs Hu. unfold kda_delta_rule_intra.
  rewrite check_chunk_ok. simpl. rewrite chunk_idx_ok, n_chunks_ok, Hheads by done. simpl.
  destruct (fold_zrange_inv (λ u bh, fold_result (intra_token k v beta D (chunk_gates intra_log N C bh c)
      (chunk_state s N D bh c) (bh * S + c * C)) u (zrange C))
    (λ bh u, u_done (λ bh' t, t < c * C ∨ (bh' < bh ∧ t < (c + 1) * C)) u) BH u) as (u' & E & Hu'); [done| | |].
  - destruct Hu as [Hl Hu]. split; [done|]. intros bh t Hb Ht [Hp|]; [by apply Hu|lia].
  - intros bh u1 Hb Hu1.
    destruct (fold_zrange_inv (intra_token k v beta D (chunk_gates intra_log N C bh c)
        (chunk_state s N D bh c) (bh * S + c * C))
      (λ t u, u_done (λ bh' t', t' < c * C ∨ (bh' < bh ∧ t' < (c + 1) * C) ∨ (bh' = bh ∧ t' < c * C + t)) u) C u1)
      as (u2 & E & Hu2); [lia| | |].
    + destruct Hu1 as [Hl Hu1]. split; [done|]. intros bh' t' Hb' Ht' Hp. apply Hu1; [done..|]. lia.
    + intros t u2 Ht Hu2. pose proof (chunk_token c t Hc Ht).
      destruct (intra_token_ok (λ bh' t', t' < c * C ∨ (bh' < bh ∧ t' < (c + 1) * C) ∨ (bh' = bh ∧ t' < c * C + t))
        bh c t (chunk_gates intra_log N C bh c) (chunk_state s N D bh c) u2) as (u3 & E & Hw); [done..|by apply Hlog| |done| |].
      * apply (chunk_state_ok (λ _ c', c' ≤ c)); [done..|lia|lia].
      * lia.
      * exists u3. split; [done|]. eapply u_done_step; [done| |done|done|]; [lia|]. intros bh' t' Hp. simpl in *. lia.
    + exists u2. split; [done|]. destruct Hu2 as [Hl Hu2]. split; [done|]. intros bh' t' Hb' Ht' Hp.
      apply Hu2; [done..|]. lia.
  - exists u'. split; [done|]. destruct Hu' as [Hl Hu']. split; [done|]. intros bh t Hb Ht Hp.
    apply Hu'; [done..|]. lia.
Qed.

(** The state after a chunk, once the first [t] of its tokens are added. *)
Definition partial_state (bh c t i : Z) : V :=
  f32_add (f32_mul (decay (gf bh) (c * C) 0 C) (head_state bh (c * C) (i / D) (i mod D)))
    (sumz t (λ j, share D (kf bh) (vf bh) (gf bh) (bf bh) (c * C) C j (i / D) (kf bh (c * C + j) (i mod D)))).

Lemma partial_state_end bh c i : 0 ≤ c < N →
  partial_state bh c C i = head_state bh ((c + 1) * C) (i / D) (i mod D).
Proof.
  intros Hc. unfold partial_state, head_state at 2. replace ((c + 1) * C) with (c * C + C) by lia.
  rewrite (state_closed D _ _ _ _ opp exact) by lia. done.
Qed.

Lemma inter_token_ok u bh c t L lo s s1 :
  0 ≤ bh < BH → 0 ≤ c < N → 0 ≤ t < C → log_gates bh c L →
  u_done (λ _ t, t < (c + 1) * C) u → 0 ≤ lo → lo + D * D ≤ Z.of_nat (length s) →
  wrote lo (D * D) (partial_state bh c t) s s1 →
  ∃ s2, inter_token k beta u D C L (bh * S + c * C) lo (lo + D * D) s1 t = Ok s2 ∧
    wrote lo (D * D) (partial_state bh c (t + 1)) s s2.
Proof.
  intros Hb Hc Ht HL [_ Hu] Hlo Hhi Hw. pose proof (chunk_token c t Hc Ht) as Htok.
  destruct (token_bounds BH S D HD bh (c * C + t) Hb Htok) as [Hrow _].
  pose proof (token_row_cells BH S D HD k bh (c * C + t) Hk Hb Htok) as Hkt. fold (kf bh (c * C + t)) in Hkt.
  assert (cells (token_row D (bh * S + (c * C + t)) u) 0 D (head_error bh (c * C + t))) as Hut.
  { apply cells_slice; [apply Hu; [done..|lia]|done|lia]. }
  pose proof (wrote_length _ _ _ _ _ Hw) as Hl.
  unfold inter_token. rewrite (gates_ok bh c) by (done || lia). simpl.
  rewrite <- (Z.add_assoc (bh * S)), (token_index BH S) by done. fold (bf bh (c * C + t)). simpl.
  apply (writes_over _ _ _ _ _ _ _ Hw), (fold_square _ (λ d s e,
    x ← py_index (py_slice lo (lo + D * D) s) (Z.to_nat (d * D + e));
    y ← py_index (token_row D (bh * S + (c * C + t)) k) (Z.to_nat e);
    view_set lo (lo + D * D) (d * D + e)
      (f32_add x (f32_mul (f32_mul (f32_mul (decay (gf bh) (c * C) (t + 1) C) (bf bh (c * C + t)))
        (head_error bh (c * C + t) d)) y)) s)); [done|lia| |].
  - intros xs d Hd. by rewrite (cells_index_0 _ D _ d Hut) by done.
  - intros xs d e Hd He Hwx. pose proof (wrote_length _ _ _ _ _ Hwx) as Hlx.
    pose proof (flat_bounds d D e D Hd He).
    assert (cells xs (lo + (d * D + e)) 1 (λ _, partial_state bh c t (d * D + e))) as Hx.
    { eapply wrote_keeps; [done| |lia|lia]. eapply cells_sub; [apply (wrote_cells _ _ _ _ _ Hw)|lia|lia|].
      intros i Hi. simpl. f_equal. lia. }
    assert (py_index (py_slice lo (lo + D * D) xs) (Z.to_nat (d * D + e)) = Ok (partial_state bh c t (d * D + e))) as ->.
    { rewrite <- (Z.add_0_l (d * D + e)) at 1.
      rewrite (cells_index _ 0 (D * D) (λ i, xs !!! Z.to_nat (lo + i))); [|apply cells_slice; [apply cells_total; lia|lia..]|lia].
      f_equal. apply list_lookup_total_correct. rewrite <- (Z.add_0_r (lo + (d * D + e))). apply (Hx 0). lia. }
    simpl. rewrite (cells_index_0 _ D _ e Hkt) by done. simpl.
    replace (partial_state bh c (t + 1) (d * D + e)) with
      (f32_add (partial_state bh c t (d * D + e))
        (f32_mul (f32_mul (f32_mul (decay (gf bh) (c * C) (t + 1) C) (bf bh (c * C + t)))
          (head_error bh (c * C + t) d)) (kf bh (c * C + t) e))).
    { apply view_set_wrote; lia. }
    unfold partial_state. rewrite sumz_S by lia. destruct (square_index D d e He) as [-> ->].
    unfold share at 3. fold (head_error bh (c * C + t) d). ring.
Qed.

Lemma inter_head_ok P u bh c s : 0 ≤ bh < BH → 0 ≤ c < N →
  u_done (λ _ t, t < (c + 1) * C) u → s_done P s → P bh c →
  ∃ s', inter_head k beta intra_log u S D C c s bh = Ok s' ∧
    wrote ((bh * (N + 1) + (c + 1)) * D * D) (D * D)
      (λ i, head_state bh ((c + 1) * C) (i / D) (i mod D)) s s'.
Proof.
  intros Hb Hc Hu Hs HP. pose proof (Hlog bh c Hb Hc) as HL.
  pose proof (chunk_state_ok P s bh c Hs Hb ltac:(lia) HP) as HCin.
  destruct (state_bounds bh (c + 1) Hb ltac:(lia)) as [Hlo Hhi]. destruct Hs as [Hlen _].
  unfold inter_head. rewrite n_chunks_ok, (gates_ok bh c) by (done || lia). simpl.
  rewrite <- (Z.add_assoc (bh * (N + 1)) c 1).
  replace ((bh * (N + 1) + c + 2) * D * D) with ((bh * (N + 1) + (c + 1)) * D * D + D * D) by lia.
  set (lo := (bh * (N + 1) + (c + 1)) * D * D) in *.
  assert (∀ r : result (list V), (∃ s1, r = Ok s1 ∧ wrote lo (D * D) (partial_state bh c 0) s s1) →
    ∃ s', (s1 ← r; fold_result (inter_token k beta u D C (chunk_gates intra_log N C bh c)
                     (bh * S + c * C) lo (lo + D * D)) s1 (zrange C)) = Ok s' ∧
      wrote lo (D * D) (λ i, head_state bh ((c + 1) * C) (i / D) (i mod D)) s s') as Hrest.
  { intros r (s1 & -> & Hw). simpl.
    destruct (fold_zrange_inv (inter_token k beta u D C (chunk_gates intra_log N C bh c)
      (bh * S + c * C) lo (lo + D * D)) (λ t s2, wrote lo (D * D) (partial_state bh c t) s s2) C s1)
      as (s2 & E & Hw2); [lia|done| |].
    - intros t s2 Ht Hw2. apply (inter_token_ok u bh c t _ lo s s2); try done. lia.
    - exists s2. split; [done|]. eapply wrote_ext; [done|]. intros i _. by apply partial_state_end. }
  apply Hrest, (fold_square _ (λ d s1 e,
    x ← py_index (chunk_state s N D bh c) (Z.to_nat (d * D + e));
    view_set lo (lo + D * D) (d * D + e) (f32_mul (decay (gf bh) (c * C) 0 C) x) s1)); [done|lia|done|].
  intros xs d e Hd He Hw. pose proof (wrote_length _ _ _ _ _ Hw). pose proof (flat_bounds d D e D Hd He).
  rewrite (cells_index_0 _ (D * D) _ (d * D + e) HCin) by done. simpl.
  replace (partial_state bh c 0 (d * D + e)) with (f32_mul (decay (gf bh) (c * C) 0 C)
    (head_state bh (c * C) ((d * D + e) / D) ((d * D + e) mod D))).
  { apply view_set_wrote; lia. }
  unfold partial_state. rewrite sumz_0 by done. ring.
Qed.

Lemma inter_ok s u c : 0 ≤ c < N → s_done (λ _ c', c' ≤ c) s → u_done (λ _ t, t < (c + 1) * C) u →
  ∃ s', kda_delta_rule_inter k beta intra_log u s B H S D C c = Ok s' ∧ s_done (λ _ c', c' ≤ c + 1) s'.
Proof.
  intros Hc Hs Hu. unfold kda_delta_rule_inter. rewrite check_chunk_ok. simpl.
  rewrite chunk_idx_ok, Hheads by done. simpl.
  destruct (fold_zrange_inv (inter_head k beta intra_log u S D C c)
    (λ bh s, s_done (λ bh' c', c' ≤ c ∨ (bh' < bh ∧ c' ≤ c + 1)) s) BH s) as (s' & E & Hs'); [done| | |].
  - destruct Hs as [Hl Hs]. split; [done|]. intros bh c' Hb Hc' Hp. apply Hs; [done..|]. lia.
  - intros bh s1 Hb Hs1. destruct (inter_head_ok _ u bh c s1 Hb Hc Hu Hs1) as (s2 & E & Hw); [lia|].
    exists s2. split; [done|]. eapply s_done_step; [done| |done|done|]; [lia|]. intros bh' c' Hp. simpl in *. lia.
  - exists s'. split; [done|]. destruct Hs' as [Hl Hs']. split; [done|]. intros bh c' Hb Hc' Hp.
    apply Hs'; [done..|]. lia.
Qed.

(** The whole output, in the order of the flat array. *)
Definition output_cell (i : Z) : V := head_output (i / D / S) ((i / D) mod S) (i mod D).

Lemma output_cell_at bh t d : 0 ≤ t < S → 0 ≤ d < D →
  output_cell ((bh * S + t) * D + d) = head_output bh t d.
Proof.
  intros Ht Hd. unfold output_cell. destruct (square_index D (bh * S + t) d Hd) as [-> ->].
  by rewrite (Z.add_comm (bh * S)), Z.div_add, Z.mod_add, Z.div_small, Z.mod_small, Z.add_0_l by lia.
Qed.

Lemma output_token_ok u s bh c t out :
  0 ≤ bh < BH → 0 ≤ c < N → 0 ≤ t < C → u_done (λ _ t, t < N * C) u → s_done (λ _ c, c ≤ N) s →
  Z.of_nat (length out) = BH * S * D →
  ∃ out', output_token q k beta u D (chunk_gates intra_log N C bh c) (chunk_state s N D bh c)
      (bh * S + c * C) out t = Ok out' ∧
    wrote ((bh * S + (c * C + t)) * D) D (head_output bh (c * C + t)) out out'.
Proof.
  intros Hb Hc Ht Hu Hs Hout. pose proof (chunk_token c t Hc Ht) as Htok.
  destruct (token_bounds BH S D HD bh (c * C + t) Hb Htok) as [Hlo Hhi].
  pose proof (token_row_cells BH S D HD q bh (c * C + t) Hq Hb Htok) as Hqt. fold (qf bh (c * C + t)) in Hqt.
  pose proof (chunk_state_ok _ s bh c Hs Hb ltac:(lia) ltac:(simpl; lia)) as HCin.
  pose proof (gates_ok bh c _ 0 (t + 1) Hb Hc (Hlog bh c Hb Hc) ltac:(lia) ltac:(lia)) as HG.
  replace (t + 1 - 1) with t in HG by lia.
  unfold output_token. rewrite HG. simpl. rewrite <- !(Z.add_assoc (bh * S)).
  rewrite (map_zrange_ok _ (λ d, f32_mul (decay (gf bh) (c * C) 0 (t + 1))
    (sumz D (λ e, f32_mul (head_state bh (c * C) d e) (qf bh (c * C + t) e))))).
  2:{ intros d Hd. erewrite dot_ok; [done|lia|by apply state_row|done]. }
  simpl.
  destruct (add_corrections_ok _ bh c (t + 1) (chunk_gates intra_log N C bh c) _ (qf bh (c * C + t)) u Hb Hc
    ltac:(lia) ltac:(by apply Hlog) Hqt Hu) as (acc & E & Hacc).
  { intros j Hj. pose proof (chunk_token c j Hc ltac:(lia)). lia. }
  replace (t + 1 - 1) with t in E by lia. rewrite E. simpl.
  apply fold_cells; [done|lia|]. intros xs d Hd Hw. pose proof (wrote_length _ _ _ _ _ Hw).
  rewrite (cells_index_0 _ D _ d (cells_fmap D _)) by done. simpl.
  rewrite (cells_index_0 _ D _ d Hacc) by done. simpl. rewrite bool_decide_true by lia. simpl.
  eexists. split; [done|].
  replace (head_output bh (c * C + t) d) with (f32_add (f32_mul (decay (gf bh) (c * C) 0 (t + 1))
      (sumz D (λ e, f32_mul (head_state bh (c * C) d e) (qf bh (c * C + t) e))))
    (contribution bh c (t + 1) d (qf bh (c * C + t)))) by
    (unfold head_output, rule_output; rewrite <- Z.add_assoc;
     by rewrite (state_read D _ _ _ _ opp exact) by lia).
  apply wrote_one. lia.
Qed.

Lemma output_ok u s out : u_done (λ _ t, t < N * C) u → s_done (λ _ c, c ≤ N) s →
  Z.of_nat (length out) = BH * S * D →
  kda_gla_fwd_o q k beta intra_log s u B H S D C out = Ok (output_cell <$> zrange (BH * S * D)).
Proof.
  intros Hu Hs Hout. unfold kda_gla_fwd_o. rewrite check_chunk_ok. simpl. rewrite n_chunks_ok, Hheads.
  match goal with |- ?r = _ => assert (∃ out', r = Ok out' ∧ wrote 0 (BH * (S * D)) output_cell out out') as (out' & -> & Hw) end.
  - apply fold_writes; [done|nia|done|]. intros xs bh Hb Hw. pose proof (wrote_length _ _ _ _ _ Hw).
    match goal with |- ∃ xs'', ?r = Ok xs'' ∧ wrote ?lo _ ?val ?xs xs'' =>
      cut (∃ xs'', r = Ok xs'' ∧ wrote lo (N * (C * D)) val xs xs'');
        [by replace (N * (C * D)) with (S * D) by (rewrite HS; lia)|] end.
    apply fold_writes; [nia|nia|done|]. intros xs' c Hc Hw'. pose proof (wrote_length _ _ _ _ _ Hw').
    apply fold_writes; [nia|lia|lia|]. intros xs'' t Ht Hw''. pose proof (wrote_length _ _ _ _ _ Hw'').
    destruct (output_token_ok u s bh c t xs'' Hb Hc Ht Hu Hs ltac:(lia)) as (xs3 & E & Hw3).
    exists xs3. split; [done|].
    replace (0 + bh * (S * D) + c * (C * D) + t * D) with ((bh * S + (c * C + t)) * D) by lia.
    eapply wrote_ext; [done|]. intros d Hd. simpl. rewrite <- output_cell_at by first [lia|by apply chunk_token].
    f_equal. lia.
  - rewrite <- Z.mul_assoc. f_equal. apply (wrote_all _ _ _ _ Hw). lia.
Qed.

(** The chunks one after the other. *)
Lemma chunks_ok : 0 < N →
  ∃ u s, fold_result (λ '(u, s) c,
      u ← kda_delta_rule_intra k v beta intra_log s u B H S D C c;
      s ← kda_delta_rule_inter k beta intra_log u s B H S D C c;
      Ok (u, s))
    (replicate (Z.to_nat (BH * S * D)) (f32 0), replicate (Z.to_nat (BH * (N + 1) * D * D)) (f32 0))
    (zrange N) = Ok (u, s) ∧
    u_done (λ _ t, t < N * C) u ∧ s_done (λ _ c, c ≤ N) s.
Proof.
  intros HN'.
  destruct (fold_zrange_inv (λ '(u, s) c,
      u ← kda_delta_rule_intra k v beta intra_log s u B H S D C c;
      s ← kda_delta_rule_inter k beta intra_log u s B H S D C c;
      Ok (u, s)) (λ c '(u, s), u_done (λ _ t, t < c * C) u ∧ s_done (λ _ c', c' ≤ c) s) N
    (replicate (Z.to_nat (BH * S * D)) (f32 0), replicate (Z.to_nat (BH * (N + 1) * D * D)) (f32 0)))
    as ([u s] & E & Hu & Hs); [done| | |by exists u, s].
  - pose proof (Z.mul_nonneg_nonneg BH (S * D)). pose proof (Z.mul_nonneg_nonneg BH ((N + 1) * D * D)).
    split; (split; [rewrite length_replicate; nia|]).
    + intros bh t Hb Ht Hp. lia.
    + intros bh c Hb Hc Hp. replace c with 0 in * by lia. intros i Hi.
      destruct (state_bounds bh 0 Hb ltac:(lia)). apply lookup_replicate_2. lia.
  - intros c [u s] Hc [Hu Hs]. destruct (intra_ok s u c Hc Hs Hu) as (u' & -> & Hu'). simpl.
    destruct (inter_ok s u' c Hc Hs Hu') as (s' & -> & Hs'). simpl. by eexists (_, _).
Qed.
End stages.

(** ** The per-token operator against its rule

    The gate scales each column of the state before the prediction. *)
Section naive.
Context {V : Type} `{num : !Float32 V}.
#[local] Existing Instance V_inhabited.
#[local] Set Default Proof Using "All".
Context (D : Z) (HD : 0 < D).

Section token.
Context (kt vt qt gt : Z → V) (bt : V).

Definition decayed (st : Z → Z → V) (d e : Z) : V := f32_mul (st d e) (gt e).
Definition k3_next (st : Z → Z → V) (d e : Z) : V :=
  f32_add (decayed st d e)
    (f32_mul (f32_mul bt (f32_sub (vt d) (sumz D (λ e', f32_mul (decayed st d e') (kt e'))))) (kt e)).
End token.

Section head.
Context (kf vf qf gf : Z → Z → V) (bf : Z → V).
Fixpoint k3_state (t : nat) : Z → Z → V :=
  match t with
  | O => λ _ _, f32 0
  | S t => k3_next (kf (Z.of_nat t)) (vf (Z.of_nat t)) (gf (Z.of_nat t)) (bf (Z.of_nat t)) (k3_state t)
  end.
Definition k3_output (t d : Z) : V :=
  sumz D (λ e, f32_mul (k3_state (Z.to_nat (t + 1)) d e) (qf t e)).
End head.

Definition square (st : Z → Z → V) (i : Z) : V := st (i / D) (i mod D).
Lemma square_at st d e : 0 ≤ e < D → square st (d * D + e) = st d e.
Proof.
  intros He. unfold square.
  by rewrite (Z.add_comm (d * D)), Z.div_add, Z.mod_add, Z.div_small, Z.mod_small, Z.add_0_l by lia.
Qed.
Lemma square_row s st d : cells s 0 (D * D) (square st) → 0 ≤ d < D → cells s (d * D) D (st d).
Proof.
  intros H Hd. eapply cells_sub; [done|nia|nia|]. intros e He. rewrite Z.sub_0_r. by apply square_at.
Qed.

Lemma decay_state_ok gt g state st : cells g 0 D gt → cells state 0 (D * D) (square st) →
  decay_state D g state = Ok (square (decayed gt st) <$> zrange (D * D)).
Proof.
  intros Hg Hst. apply map_zrange_ok. intros i Hi.
  rewrite (cells_index_0 state (D * D) (square st)) by done. simpl.
  rewrite (cells_index_0 g D gt) by (done || apply Z.mod_pos_bound; lia). done.
Qed.

Context (q k v g beta : list V) (BH S : Z) (HBH : 0 ≤ BH) (HS : 0 ≤ S).
Context (Hk : Z.of_nat (length k) = BH * S * D) (Hv : Z.of_nat (length v) = BH * S * D).
Context (Hq : Z.of_nat (length q) = BH * S * D) (Hg : Z.of_nat (length g) = BH * S * D).
Context (Hbeta : Z.of_nat (length beta) = BH * S).

Definition k3_head (bh t d e : Z) : V :=
  k3_state (kf k S D bh) (vf v S D bh) (kf g S D bh) (bf beta S bh) (Z.to_nat t) d e.
Definition k3_cell (i : Z) : V :=
  let bh := i / D / S in
  k3_output (kf k S D bh) (vf v S D bh) (qf q S D bh) (kf g S D bh) (bf beta S bh) ((i / D) mod S) (i mod D).

Lemma naive_token_ok bh t state out :
  0 ≤ bh < BH → 0 ≤ t < S → cells state 0 (D * D) (square (k3_head bh t)) →
  Z.of_nat (length state) = D * D → Z.of_nat (length out) = BH * S * D →
  ∃ state' out', naive_token q k v g beta D (bh * S) (state, out) t = Ok (state', out') ∧
    cells state' 0 (D * D) (square (k3_head bh (t + 1))) ∧ Z.of_nat (length state') = D * D ∧
    wrote ((bh * S + t) * D) D (λ d, k3_cell ((bh * S + t) * D + d)) out out'.
Proof.
  intros Hb Ht Hst Hls Hlo.
  destruct (token_bounds BH S D HD bh t Hb Ht) as [Hrow Hrow'].
  pose proof (token_row_cells BH S D HD k bh t Hk Hb Ht) as Hkt. fold (kf k S D bh t) in Hkt.
  pose proof (token_row_cells BH S D HD v bh t Hv Hb Ht) as Hvt. fold (vf v S D bh t) in Hvt.
  pose proof (token_row_cells BH S D HD q bh t Hq Hb Ht) as Hqt. fold (qf q S D bh t) in Hqt.
  pose proof (token_row_cells BH S D HD g bh t Hg Hb Ht) as Hgt. fold (kf g S D bh t) in Hgt.
  unfold naive_token. rewrite (token_index BH S) by done. fold (bf beta S bh t). simpl.
  rewrite (decay_state_ok (kf g S D bh t) _ _ (k3_head bh t)) by done. simpl.
  set (st := decayed (kf g S D bh t) (k3_head bh t)). set (s0 := square st <$> zrange (D * D)).
  assert (cells s0 0 (D * D) (square st)) as Hs0 by apply cells_fmap.
  rewrite (map_zrange_ok _ (λ d, sumz D (λ e, f32_mul (st d e) (kf k S D bh t e)))).
  2:{ intros d Hd. apply dot_ok; [lia|by apply square_row|done]. }
  simpl. set (next := k3_head bh (t + 1)).
  assert (Hnext : ∀ d e, next d e = f32_add (st d e) (f32_mul (f32_mul (bf beta S bh t)
    (f32_sub (vf v S D bh t d) (sumz D (λ e', f32_mul (st d e') (kf k S D bh t e'))))) (kf k S D bh t e))).
  { intros d e. subst next. unfold k3_head at 1. replace (Z.to_nat (t + 1)) with (Datatypes.S (Z.to_nat t)) by lia.
    simpl. by rewrite Z2Nat.id by lia. }
  assert (Hout : ∀ d, 0 ≤ d < D → k3_cell ((bh * S + t) * D + d) =
    sumz D (λ e, f32_mul (next d e) (qf q S D bh t e))).
  { intros d Hd. unfold k3_cell. destruct (square_index D (bh * S + t) d Hd) as [-> ->].
    destruct (square_index S bh t Ht) as [-> ->]. done. }
  match goal with |- context [fold_result ?f ?a ?l] =>
    destruct (fold_zrange_inv f (λ d '(xs, ys), wrote 0 (d * D) (square next) s0 xs ∧
      wrote ((bh * S + t) * D) d (λ d, k3_cell ((bh * S + t) * D + d)) out ys) D a) as ([xs ys] & E & Hxs & Hys) end.
  - lia.
  - split; apply wrote_nil.
  - intros d [xs ys] Hd [Hxs Hys].
    pose proof (wrote_length _ _ _ _ _ Hxs) as Hlx. pose proof (wrote_length _ _ _ _ _ Hys) as Hly.
    assert (Z.of_nat (length xs) = D * D) as Hlen by (rewrite Hlx; unfold s0; rewrite length_fmap, length_zrange; nia).
    rewrite (cells_index_0 _ D _ d Hvt), (cells_index_0 _ D _ d (cells_fmap D _)) by done. simpl.
    assert (cells xs (d * D) D (st d)) as Hrowd.
    { eapply wrote_keeps; [done|by apply square_row|nia|lia]. }
    match goal with |- context [fold_result ?f xs ?l] =>
      destruct (fold_cells f (d * D) (next d) xs D) as (xs' & E & Hw) end; [nia|lia| |].
    { intros xs' e He Hw. pose proof (wrote_length _ _ _ _ _ Hw). pose proof (flat_bounds d D e D Hd He).
      assert (py_index xs' (Z.to_nat (d * D + e)) = Ok (st d e)) as ->.
      { unfold py_index. rewrite (wrote_frame _ _ _ _ _ Hw) by lia. by rewrite Hrowd. }
      simpl. rewrite (cells_index_0 _ D _ e Hkt) by done. simpl. rewrite <- Hnext.
      eexists. split; [done|]. apply wrote_one. lia. }
    rewrite E. simpl. rewrite (dot_ok D (d * D) _ _ (next d) (qf q S D bh t)) by (lia || apply Hw || done). simpl.
    rewrite bool_decide_true by lia. simpl. eexists (_, _). split; [done|]. split.
    + replace ((d + 1) * D) with (d * D + D) by lia.
      eapply wrote_app; [done|nia|lia|done|by rewrite Z.add_0_l|]. intros e He. symmetry. by apply square_at.
    + eapply wrote_app; [done|lia|lia|done|rewrite <- Hout by done; apply wrote_one; lia|].
      intros j Hj. cbv beta. f_equal. lia.
  - rewrite E. exists xs, ys. split; [done|]. pose proof (wrote_length _ _ _ _ _ Hxs) as Hlx. split_and!; [apply Hxs| |done].
    rewrite Hlx. unfold s0. rewrite length_fmap, length_zrange. nia.
Qed.

Lemma naive_ok B H out : BH = B * H → heads B H = zrange BH → Z.of_nat (length out) = BH * S * D →
  kda_naive_delta_rule_fwd q k v g beta B H S D out = Ok (k3_cell <$> zrange (BH * S * D)).
Proof.
  intros HB Hheads Hout. unfold kda_naive_delta_rule_fwd.
  rewrite (proj2 (Z.leb_gt D 0)) by done. simpl.
  cbn [forallb]. rewrite <- HB, Hq, Hk, Hv, Hout, Hg, Hbeta, !Z.eqb_refl. simpl.
  destruct ((B =? 0) || (H =? 0) || (S =? 0)) eqn:E.
  { assert (BH * S * D = 0) as E0 by (zbool; nia). rewrite E0. rewrite E0 in Hout. by destruct out. }
  rewrite Hheads.
  match goal with |- ?r = _ => assert (∃ out', r = Ok out' ∧ wrote 0 (BH * (S * D)) k3_cell out out')
    as (out' & -> & Hw); [|rewrite <- Z.mul_assoc; f_equal; apply (wrote_all _ _ _ _ Hw); lia] end.
  apply fold_writes; [done|nia|done|]. intros xs bh Hb Hw. pose proof (wrote_length _ _ _ _ _ Hw).
  match goal with |- context [fold_result ?f ?a ?l] =>
    destruct (fold_zrange_inv f (λ t '(st, ys), cells st 0 (D * D) (square (k3_head bh t)) ∧
      Z.of_nat (length st) = D * D ∧ wrote (bh * (S * D)) (t * D) (λ j, k3_cell (bh * (S * D) + j)) xs ys) S a)
      as ([st ys] & E' & _ & _ & Hys) end.
  - done.
  - split_and!; [|rewrite length_replicate; nia|apply wrote_nil].
    intros i Hi. apply lookup_replicate_2. lia.
  - intros t [st ys] Ht (Hst & Hl & Hys). pose proof (wrote_length _ _ _ _ _ Hys).
    destruct (naive_token_ok bh t st ys Hb Ht Hst Hl ltac:(lia)) as (st' & ys' & -> & Hst' & Hl' & Hys').
    eexists (_, _). split; [done|]. split_and!; [done..|].
    replace ((t + 1) * D) with (t * D + D) by lia.
    eapply wrote_app; [nia|nia|lia|done|by replace (bh * (S * D) + t * D) with ((bh * S + t) * D) by lia|].
    intros j Hj. cbv beta. f_equal. lia.
  - rewrite E'. exists ys. by rewrite Z.add_0_l.
Qed.
End naive.

(** ** What the operators compute *)
Section delta_rule.
Context {V : Type} `{num : !Float32 V}.
#[local] Existing Instance V_inhabited.

Definition delta_rule (q k v g beta : list V) (BH S D : Z) : list V :=
  output_cell q k v g beta S D <$> zrange (BH * S * D).

(** Numbers without rounding, with the exponential and the logarithm. *)
Record exact_arithmetic (opp ex lg : V → V) : Prop := {
  exact_ring : ring_theory (f32 0) (f32 1) f32_add f32_mul f32_sub opp eq;
  exact_exp x : math_exp x = Ok (ex x);
  exact_exp_0 : ex (f32 0) = f32 1;
  exact_exp_add x y : ex (f32_add x y) = f32_mul (ex x) (ex y);
  exact_log x : f32_le x (f32 0) = false → math_log x = Ok (lg x) ∧ ex (lg x) = x
}.

(** Without forgetting the two rules agree. *)
Lemma rules_agree opp ex lg D kf vf gf gf' bf n :
  exact_arithmetic opp ex lg →
  (∀ t, 0 ≤ t < Z.of_nat n → gf t = f32 1) →
  (∀ t e, 0 ≤ t < Z.of_nat n → 0 ≤ e < D → gf' t e = f32 1) →
  ∀ d e, 0 ≤ e < D → rule_state D kf vf gf bf n d e = k3_state D kf vf gf' bf n d e.
Proof.
  intros [exact _ _ _ _]. induction n as [|n IH]; intros Hg Hg' d e He; [done|].
  assert (∀ d e, 0 ≤ e < D → decayed (gf' (Z.of_nat n)) (k3_state D kf vf gf' bf n) d e =
    rule_state D kf vf gf bf n d e) as Hst.
  { intros d' e' He'. unfold decayed. rewrite Hg', (Rmul_comm exact), (Rmul_1_l exact) by lia.
    symmetry. apply IH; [intros; apply Hg; lia|intros; apply Hg'; lia|done]. }
  simpl. unfold k3_next. rewrite Hst, Hg, (Rmul_1_l exact) by lia.
  by rewrite (sumz_ext D (λ e', f32_mul (decayed _ _ d e') _)
    (λ e', f32_mul (rule_state D kf vf gf bf n d e') (kf (Z.of_nat n) e'))) by (intros; by rewrite Hst).
Qed.

Lemma outputs_agree opp ex lg q k v g beta BH S D :
  exact_arithmetic opp ex lg → 0 < D → 0 ≤ S → 0 ≤ BH →
  Z.of_nat (length g) = BH * S → Forall (λ x, x = f32 1) g →
  k3_cell D q k v (replicate (Z.to_nat (BH * S * D)) (f32 1)) beta S <$> zrange (BH * S * D) =
  delta_rule q k v g beta BH S D.
Proof.
  intros Hex HD HS HBH Hg Hone. apply list_fmap_ext. intros j i [-> Hi]%zrange_lookup_Some.
  set (i := Z.of_nat j) in *. unfold k3_cell, output_cell, head_output, k3_output, rule_output.
  assert (0 < S) as HS' by nia. assert (0 <= i / D < BH * S) as Hr.
  { split; [apply Z.div_pos; lia|apply Z.div_lt_upper_bound; lia]. }
  assert (0 <= i / D / S < BH) as Hb.
  { split; [apply Z.div_pos; lia|apply Z.div_lt_upper_bound; lia]. }
  pose proof (Z.mod_pos_bound (i / D) S HS') as Ht.
  apply sumz_ext. intros e He. f_equal. symmetry.
  apply (rules_agree opp ex lg); [done| | |done].
  - intros t Ht'. pose proof (flat_bounds _ BH t S Hb ltac:(lia)). unfold gf.
    rewrite Forall_lookup in Hone. eapply Hone, list_lookup_lookup_total_lt. lia.
  - intros t e' Ht' He'. destruct (token_bounds BH S D HD _ t Hb ltac:(lia)). unfold kf.
    apply lookup_total_replicate_2. lia.
Qed.

Lemma kda_delta_rule_fwd_ok opp ex lg (q k v g beta out : list V) B H S D C :
  exact_arithmetic opp ex lg → 0 ≤ B → 0 ≤ H → 0 ≤ S → 0 < D → 0 < C → S mod C = 0 →
  Forall (λ xs : list V, Z.of_nat (length xs) = B * H * S * D) [q; k; v; out] →
  Forall (λ xs : list V, Z.of_nat (length xs) = B * H * S) [g; beta] →
  Forall (λ x, f32_le x (f32 0) = false) g →
  kda_delta_rule_fwd q k v g beta B H S D C out = Ok (delta_rule q k v g beta (B * H) S D).
Proof.
  intros [exact exp_ok exp_0 exp_add log_ok] HB HH HS HD HC HSC Hbig Hsmall Hpos.
  apply Forall_cons in Hbig as [Hq [Hk [Hv [Hout _]%Forall_cons]%Forall_cons]%Forall_cons].
  apply Forall_cons in Hsmall as [Hg [Hbeta _]%Forall_cons].
  assert (∃ N, N = S / C ∧ S = N * C ∧ 0 ≤ N) as (N & HN & HSN & HN').
  { exists (S / C). split_and!; [done| |apply Z.div_pos; lia]. pose proof (Z.div_mod S C). lia. }
  assert (0 ≤ B * H) as HBH by nia. pose proof (heads_zrange B H HB HH) as Hheads.
  assert (∀ bh t, 0 ≤ bh < B * H → 0 ≤ t < S → f32_le (gf g S bh t) (f32 0) = false) as Hgates.
  { intros bh t Hb Ht. pose proof (flat_bounds bh (B * H) t S Hb Ht). rewrite Forall_lookup in Hpos.
    eapply Hpos, list_lookup_lookup_total_lt. lia. }
  unfold kda_delta_rule_fwd, delta_rule.
  rewrite (check_chunk_ok q k v g beta (B * H) S D C N HBH HD HC HN' HSN Hk Hv Hq Hg Hbeta Hgates
    opp exact ex lg exp_ok exp_0 exp_add log_ok). simpl.
  rewrite Hq, Hg, Hout, !Z.eqb_refl. simpl.
  destruct ((B =? 0) || (H =? 0) || (S =? 0)) eqn:E.
  { assert (B * H * S * D = 0) as E0 by (zbool; nia). rewrite E0. rewrite E0 in Hout. by destruct out. }
  rewrite <- HN.
  destruct (cumsum_ok q k v g beta (B * H) S D C N HBH HD HC HN' HSN Hk Hv Hq Hg Hbeta Hgates
    opp exact ex lg exp_ok exp_0 exp_add log_ok B H eq_refl Hheads) as (intra & inter & -> & Hlog); [zbool; nia|].
  simpl.
  destruct (chunks_ok q k v g beta (B * H) S D C N HBH HD HC HN' HSN Hk Hv Hq Hg Hbeta Hgates
    opp exact ex lg exp_ok exp_0 exp_add log_ok B H eq_refl Hheads intra Hlog) as (u & s & -> & Hu & Hs); [zbool; nia|].
  simpl. by apply (output_ok q k v g beta (B * H) S D C N HBH HD HC HN' HSN Hk Hv Hq Hg Hbeta Hgates
    opp exact ex lg exp_ok exp_0 exp_add log_ok B H eq_refl Hheads intra Hlog).
Qed.

(** C4. In exact arithmetic the chunked forward pass returns what the gated delta
    rule gives token by token: every head starts from the zero state; a token's
    output is the updated state times its query.  So the size of the chunks
    cannot be observed, nor can the former contents of [out].  If no gate
    forgets, [kda_naive_delta_rule_fwd] returns the same; with other gates it
    is another rule, which decays the state before it predicts. *)
Theorem kda_chunked_is_delta_rule opp ex lg (q k v g beta out : list V) B H S D chunk_size :
  exact_arithmetic opp ex lg → 0 ≤ B → 0 ≤ H → 0 ≤ S → 0 < D → 0 < chunk_size → S mod chunk_size = 0 →
  Forall (λ xs : list V, Z.of_nat (length xs) = B * H * S * D) [q; k; v; out] →
  Forall (λ xs : list V, Z.of_nat (length xs) = B * H * S) [g; beta] →
  Forall (λ x, f32_le x (f32 0) = false) g →
  kda_delta_rule_fwd q k v g beta B H S D chunk_size out = Ok (delta_rule q k v g beta (B * H) S D) ∧
  (Forall (λ x, x = f32 1) g →
    kda_naive_delta_rule_fwd q k v (replicate (Z.to_nat (B * H * S * D)) (f32 1)) beta B H S D out =
      Ok (delta_rule q k v g beta (B * H) S D)).
Proof.
  intros Hex HB HH HS HD HC HSC Hbig Hsmall Hpos. split; [by eapply kda_delta_rule_fwd_ok|]. intros Hone.
  apply Forall_cons in Hbig as [Hq [Hk [Hv [Hout _]%Forall_cons]%Forall_cons]%Forall_cons].
  apply Forall_cons in Hsmall as [Hg [Hbeta _]%Forall_cons].
  assert (0 ≤ B * H) as HBH by nia.
  rewrite <- (outputs_agree opp ex lg) by done.
  apply (naive_ok D HD _ _ _ _ _ (B * H)); [done..| |done|done|by apply heads_zrange|done].
  rewrite length_replicate. nia.
Qed.
End delta_rule.

(** Real numbers: a sequence of two tokens, the first gate forgetting half. *)
#[local] Instance R_float32 : Float32 R := {|
  f32 := IZR; f32_undef := 0%R; f32_add := Rplus; f32_sub := Rminus; f32_mul := Rmult;
  f32_le x y := if Rle_dec x y then true else false;
  math_exp x := Ok (exp x);
  math_log x := if Rle_dec x 0 then Err (ValueError "math domain error") else Ok (ln x)
|}.

Lemma R_exact : exact_arithmetic (V := R) Ropp exp ln.
Proof.
  split; simpl.
  - constructor; simpl; intros; ring.
  - done.
  - apply exp_0.
  - apply exp_plus.
  - intros x. destruct (Rle_dec x 0); [done|]. intros _. split; [done|]. apply exp_ln. lra.
Qed.

Lemma kda_chunked_is_delta_rule_witness :
  kda_delta_rule_fwd [1; 2]%R [1; 1]%R [3; 5]%R [/ 2; 1]%R [1; 1]%R 1 1 2 1 1 [0; 0]%R =
  kda_delta_rule_fwd [1; 2]%R [1; 1]%R [3; 5]%R [/ 2; 1]%R [1; 1]%R 1 1 2 1 2 [0; 0]%R.
Proof.
  assert (Forall (λ x : R, f32_le x (f32 0) = false) [/ 2; 1]%R) as Hpos.
  { repeat constructor; simpl; destruct Rle_dec; lra || done. }
  assert (sizes : ∀ xs ys zs ws : list R, length xs = 2%nat → length ys = 2%nat → length zs = 2%nat →
    length ws = 2%nat → Forall (λ xs : list R, Z.of_nat (length xs) = 1 * 1 * 2 * 1) [xs; ys; zs; ws]).
  { intros xs ys zs ws Hx Hy Hz Hw. repeat apply Forall_cons_2; [lia..|apply Forall_nil_2]. }
  assert (sizes2 : ∀ xs ys : list R, length xs = 2%nat → length ys = 2%nat →
    Forall (λ xs : list R, Z.of_nat (length xs) = 1 * 1 * 2) [xs; ys]).
  { intros xs ys Hx Hy. repeat apply Forall_cons_2; [lia..|apply Forall_nil_2]. }
  assert (Hrule : ∀ chunk_size, 0 < chunk_size → 2 mod chunk_size = 0 →
    kda_delta_rule_fwd [1; 2]%R [1; 1]%R [3; 5]%R [/ 2; 1]%R [1; 1]%R 1 1 2 1 chunk_size [0; 0]%R =
    Ok (delta_rule [1; 2]%R [1; 1]%R [3; 5]%R [/ 2; 1]%R [1; 1]%R 1 2 1)).
  { intros chunk_size Hc Hmod.
    apply (kda_chunked_is_delta_rule Ropp exp ln); try done; [apply R_exact|by apply sizes|by apply sizes2]. }
  by rewrite !Hrule.
Defined.
