(* ===== verification/DistMoe.v ===== *)
(** * Distributed mixtures of experts

    [dist.py]: the stages of the fused mixture of experts with quantised
    weights, and its tensor-parallel and expert-parallel forward passes over
    simulated ranks.  Arrays are flat lists in row-major order, the weights with
    their shapes; the scalar arithmetic of numpy is the class [Numpy].  In exact
    sums both passes compute the same mixture, for any number of ranks. *)

From Stdlib Require Import Ascii.
From S2P Require Import Prelude PyText FlatArrays Arrays MoeRouting.
Local Open Scope Z_scope.

Section dist.
Context {V : Type} `{num : !Numpy V}.

(** ** Number formats *)
Definition FP4_VALUES : list V := np_of_f32_bits <$>
  [0; 0x3E800000; 0x3F800000; 0x3FC00000; 0x40000000; 0x40400000; 0x7F800000; 0x7FC00000;
   0; 0xBE800000; 0xBF800000; 0xBFC00000; 0xC0000000; 0xC0400000; 0xFF800000; 0x7FC00000].

Definition f32_to_bf16 (v : V) : Z :=
  let bits := np_f32_bits (np_astype float32 v) in
  let lsb := Z.land (Z.shiftr bits 16) 1 in
  let bits := (bits + 32767 + lsb) mod 2 ^ 32 in
  Z.shiftr bits 16.

Definition bf16_to_f32 (v : Z) : V := np_of_f32_bits (Z.shiftl v 16).

Definition ue8m0_to_float (s : Z) : V :=
  np_exp2 (if s =? 255 then np_int 0 else np_int (s - 127)).

(** Two values per byte, low half first; one scale for [group_size] columns. *)
Definition dequant (packed scale : list Z) (stride_packed stride_scale group_size row col : Z) : result Z :=
  byte ← py_index packed (Z.to_nat (row * stride_packed + col / 2));
  s ← py_index scale (Z.to_nat (row * stride_scale + col / group_size));
  v ← py_index FP4_VALUES
        (Z.to_nat (if col mod 2 =? 0 then Z.land byte 15 else Z.shiftr byte 4));
  Ok (f32_to_bf16 (np_mul v (ue8m0_to_float s))).

Definition dequant_full (packed scale : list Z) (n_rows k stride_packed stride_scale group_size : Z) :
    result (list (list Z)) :=
  _ ← require (Z.of_nat (length packed) =? n_rows * stride_packed) (ValueError "cannot reshape array");
  _ ← require (n_rows * stride_packed * 2 =? n_rows * k) (ValueError "cannot reshape array");
  _ ← require (Z.of_nat (length scale) =? n_rows * stride_scale) (ValueError "cannot reshape array");
  _ ← require ((0 <=? group_size) && (stride_scale * group_size =? k))
        (ValueError "operands could not be broadcast together");
  map_result (λ row, map_result (dequant packed scale stride_packed stride_scale group_size row) (zrange k))
    (zrange n_rows).

(** ** The stages *)

(** [xs[lo:hi] = vals] *)
Definition slice_set {A} (lo hi : Z) (vals xs : list A) : result (list A) :=
  _ ← require (bool_decide (length vals = length (py_slice lo hi xs)))
        (ValueError "could not broadcast input array");
  Ok (take (Z.to_nat lo) xs ++ vals ++ drop (Z.to_nat lo + length vals) xs).

(** [xs += ys] for arrays of one shape. *)
Definition iadd (ys xs : list V) : result (list V) :=
  _ ← require (bool_decide (length ys = length xs)) (ValueError "operands could not be broadcast together");
  Ok (zip_with np_add xs ys).

(** [for mb in range(EM // 16)], skipping blocks without an expert. *)
Definition for_blocks {S} (EM : Z) (expert_ids : list Z) (body : Z → Z → S → result S) (s : S) : result S :=
  fold_result (λ s mb,
    expert ← py_index expert_ids (Z.to_nat mb);
    if expert <? 0 then Ok s else body expert (mb * 16) s) s (zrange (EM / 16)).

(** A row of the tile [tA]: [src[base:base + len]], or zeros for padding. *)
Definition tile_row (N len : Z) (src : list Z) (base : Z → Z) (f : Z) : result (list V) :=
  if f <? N then
    let row := py_slice (base f) (base f + len) src in
    _ ← require (Z.of_nat (length row) =? len) (ValueError "could not broadcast input array");
    Ok (bf16_to_f32 <$> row)
  else Ok (replicate (Z.to_nat len) (bf16_to_f32 0)).

Definition dots (row : list V) (w : list (list V)) : list V := np_dot row <$> w.

Definition moe_gateup (A w13 w13_scale sorted_ids expert_ids : list Z) (gate_up : list V)
    (M a_stride k_base hidden_k ispp top_k EM group_size : Z) : result (list V) :=
  let N := M * top_k in
  let stride_packed := hidden_k / 2 in
  stride_scale ← py_floordiv hidden_k group_size;
  let w13_e := 2 * ispp * stride_packed in
  let w13s_e := 2 * ispp * stride_scale in
  for_blocks EM expert_ids (λ expert tb gate_up,
    let p0 := expert * w13_e in
    let s0 := expert * w13s_e in
    wf ← dequant_full (py_slice p0 (p0 + w13_e) w13) (py_slice s0 (s0 + w13s_e) w13_scale)
           (2 * ispp) hidden_k stride_packed stride_scale group_size;
    let wf := (λ row : list Z, bf16_to_f32 <$> row) <$> wf in
    let wg := take (Z.to_nat ispp) wf in
    let wu := drop (Z.to_nat ispp) wf in
    fold_result (λ gate_up nb,
      af ← map_result (λ m,
             f ← py_index sorted_ids (Z.to_nat (tb + m));
             tile_row N hidden_k A (λ f, (f / top_k) * a_stride + k_base) f) (zrange 16);
      let n0 := nb * 64 in
      let n1 := (nb + 1) * 64 in
      fold_result (λ gate_up m,
        row ← py_index af (Z.to_nat m);
        let r0 := (tb + m) * 2 * ispp + n0 in
        gate_up ← slice_set r0 (r0 + 64) (dots row (py_slice n0 n1 wg)) gate_up;
        slice_set (r0 + ispp) (r0 + ispp + 64) (dots row (py_slice n0 n1 wu)) gate_up)
        gate_up (zrange 16)) gate_up (zrange (ispp / 64))) gate_up.

Record Epilogue : Type := mk_epilogue {
  activation : string;
  swiglu_limit : V;
  act_beta : V;
  linear_beta : V
}.

Definition act_key (ep : Epilogue) : list ascii := lower (String.list_ascii_of_string (activation ep)).
Definition is_key (ep : Epilogue) (s : string) : bool :=
  bool_decide (act_key ep = String.list_ascii_of_string s).

Definition act_value (ep : Epilogue) (g u : V) : V :=
  let one := np_int 1 in
  if is_key ep "situ" then
    let sig := np_div one (np_add one (np_exp (np_negative g))) in
    let gate_out := np_mul (np_mul (act_beta ep) (np_tanh (np_div g (act_beta ep)))) sig in
    let up_out := if np_lt (np_int 0) (linear_beta ep)
                  then np_mul (linear_beta ep) (np_tanh (np_div u (linear_beta ep))) else u in
    np_mul gate_out up_out
  else
    let clamp := np_lt (np_int 0) (swiglu_limit ep) in
    let gl := if clamp then np_minimum g (swiglu_limit ep) else g in
    let ul := if clamp then np_minimum (np_maximum u (np_negative (swiglu_limit ep))) (swiglu_limit ep)
              else u in
    np_mul (np_div gl (np_add one (np_exp (np_negative gl)))) ul.

(** [if b is not None: xs += b[expert, lo:hi]] *)
Definition add_bias (b : option (list (list V))) (expert lo hi : Z) (xs : list V) : result (list V) :=
  match b with
  | None => Ok xs
  | Some rows => row ← py_index rows (Z.to_nat expert); iadd (py_slice lo hi row) xs
  end.

Definition moe_act_epilogue (gate_up : list V) (b13 : option (list (list V))) (act sorted_ids expert_ids : list Z)
    (M top_k EM ispp : Z) (ep : Epilogue) : result (list Z) :=
  let N := M * top_k in
  for_blocks EM expert_ids (λ expert tb act,
    fold_result (λ act nb,
      fold_result (λ act m,
        f ← py_index sorted_ids (Z.to_nat (tb + m));
        if f >=? N then Ok act
        else
          let g0 := (tb + m) * 2 * ispp + nb * 64 in
          g ← add_bias b13 expert (nb * 64) (nb * 64 + 64) (py_slice g0 (g0 + 64) gate_up);
          u ← add_bias b13 expert (ispp + nb * 64) (ispp + nb * 64 + 64)
                (py_slice (g0 + ispp) (g0 + ispp + 64) gate_up);
          let r0 := (tb + m) * ispp + nb * 64 in
          slice_set r0 (r0 + 64) (zip_with (λ g u, f32_to_bf16 (np_astype float32 (act_value ep g u))) g u) act)
        act (zrange 16)) act (zrange (ispp / 64))) act.

Definition moe_down (act w2 w2_scale sorted_ids expert_ids : list Z) (partial : list V)
    (M a_stride k_base ispp_k hidden top_k EM group_size : Z) : result (list V) :=
  let N := M * top_k in
  let stride_packed := ispp_k / 2 in
  stride_scale ← py_floordiv ispp_k group_size;
  let w2_e := hidden * stride_packed in
  let w2s_e := hidden * stride_scale in
  for_blocks EM expert_ids (λ expert tb partial,
    wf ← dequant_full (py_slice (expert * w2_e) ((expert + 1) * w2_e) w2)
           (py_slice (expert * w2s_e) ((expert + 1) * w2s_e) w2_scale)
           hidden ispp_k stride_packed stride_scale group_size;
    let wf := (λ row : list Z, bf16_to_f32 <$> row) <$> wf in
    fold_result (λ partial nb,
      tA ← map_result (λ m,
             f ← py_index sorted_ids (Z.to_nat (tb + m));
             tile_row N ispp_k act (λ _, (tb + m) * a_stride + k_base) f) (zrange 16);
      let n0 := nb * 64 in
      let n1 := (nb + 1) * 64 in
      fold_result (λ partial m,
        row ← py_index tA (Z.to_nat m);
        let r0 := (tb + m) * hidden + n0 in
        slice_set r0 (r0 + 64) (dots row (py_slice n0 n1 wf)) partial)
        partial (zrange 16)) partial (zrange (hidden / 64))) partial.

Definition moe_combine (partial : list V) (b2 : option (list (list V))) (topk_w_sorted : list V)
    (sorted_ids expert_ids : list Z) (out : list V) (M hidden top_k EM : Z) : result (list V) :=
  let N := M * top_k in
  for_blocks EM expert_ids (λ expert tb out,
    fold_result (λ out nb,
      fold_result (λ out m,
        f ← py_index sorted_ids (Z.to_nat (tb + m));
        if f >=? N then Ok out
        else
          let token := f / top_k in
          weight ← py_index topk_w_sorted (Z.to_nat (tb + m));
          let p0 := (tb + m) * hidden + nb * 64 in
          val ← add_bias b2 expert (nb * 64) (nb * 64 + 64) (py_slice p0 (p0 + 64) partial);
          let val := (λ x, np_mul x weight) <$> val in
          let o0 := token * hidden + nb * 64 in
          sum ← iadd val (py_slice o0 (o0 + 64) out);
          slice_set o0 (o0 + 64) sum out) out (zrange 16)) out (zrange (hidden / 64))) out.

(** ** Weights *)
Record Array3 : Type := mk_array3 {
  dim0 : Z;
  dim1 : Z;
  dim2 : Z;
  elems : list Z
}.

(** [a[:, :, lo:hi]] and [a[lo:hi]] for bounds that are not negative. *)
Definition last_slice (lo hi : Z) (a : Array3) : Array3 :=
  let lo := Z.min lo (dim2 a) in
  let hi := Z.min hi (dim2 a) in
  mk_array3 (dim0 a) (dim1 a) (Z.max 0 (hi - lo))
    (r ← zrange (dim0 a * dim1 a); py_slice (r * dim2 a + lo) (r * dim2 a + hi) (elems a)).
Definition first_slice (lo hi : Z) (a : Array3) : Array3 :=
  let lo := Z.min lo (dim0 a) in
  let hi := Z.min hi (dim0 a) in
  mk_array3 (Z.max 0 (hi - lo)) (dim1 a) (dim2 a)
    (py_slice (lo * (dim1 a * dim2 a)) (hi * (dim1 a * dim2 a)) (elems a)).

Record Weights : Type := mk_weights {
  w13 : Array3;
  w13_scale : Array3;
  w2 : Array3;
  w2_scale : Array3
}.

(** ** Tensor parallelism *)
Record TpPlan : Type := mk_tp {
  hidden_shard : Z;
  ispp_shard : Z;
  w13_shard_bytes : Z;
  w13s_shard_bytes : Z;
  w2_shard_bytes : Z;
  w2s_shard_bytes : Z
}.

Definition tp_plan (hidden ispp tp group_size : Z) : result TpPlan :=
  _ ← require (negb (tp <=? 0)) (ValueError "tp must be positive");
  _ ← require ((hidden mod tp =? 0) && (ispp mod tp =? 0)) (ValueError "hidden and ispp must be divisible by tp");
  let hidden_shard := hidden / tp in
  let ispp_shard := ispp / tp in
  _ ← require ((hidden_shard mod 64 =? 0) && (ispp_shard mod 64 =? 0))
        (ValueError "hidden/tp and ispp/tp must be multiples of 64");
  h ← py_mod hidden_shard group_size;
  i ← py_mod ispp_shard group_size;
  _ ← require ((h =? 0) && (i =? 0)) (ValueError "hidden/tp and ispp/tp must be multiples of group_size");
  Ok (mk_tp hidden_shard ispp_shard (2 * ispp * (hidden_shard / 2)) (2 * ispp * (hidden_shard / group_size))
        (hidden * (ispp_shard / 2)) (hidden * (ispp_shard / group_size))).

Definition tp_shard_weights (w : Weights) (tp group_size : Z) : result (list Weights) :=
  let hidden := 2 * dim2 (w13 w) in
  let ispp := dim1 (w13 w) / 2 in
  plan ← tp_plan hidden ispp tp group_size;
  Ok ((λ r,
    let c0 := r * hidden_shard plan in
    let c1 := (r + 1) * hidden_shard plan in
    let d0 := r * ispp_shard plan in
    let d1 := (r + 1) * ispp_shard plan in
    mk_weights (last_slice (c0 / 2) (c1 / 2) (w13 w))
               (last_slice (c0 / group_size) (c1 / group_size) (w13_scale w))
               (last_slice (d0 / 2) (d1 / 2) (w2 w))
               (last_slice (d0 / group_size) (d1 / group_size) (w2_scale w))) <$> zrange tp).

(** The routing weight of each row, 0 for padding. *)
Definition sort_weights (topk_w : list V) (sorted_ids : list Z) (nflat : Z) : result (list V) :=
  map_result (λ f,
    w ← py_index topk_w (Z.to_nat (Z.min f (nflat - 1)));
    Ok (if (f >=? 0) && (f <? nflat) then w else np_int 0)) sorted_ids.

(** [sum(partials)]: from the integer 0 on. *)
Definition sum_arrays (partials : list (list V)) : result (list V) :=
  match partials with
  | [] => Err (TypeError "'int' object is not subscriptable")
  | p :: ps => fold_result (λ acc p, iadd p acc) ((λ x, np_add (np_int 0) x) <$> p) ps
  end.

(** The alignment fills every cell. *)
Definition int_cells (xs : list (option Z)) : list Z := default 0 <$> xs.

(** [empty n] is [np.empty(n)]: [n] cells of any content.  A two-dimensional
    array: its shape and its rows in order. *)
Definition Array2 (A : Type) : Type := Z * Z * list A.

Definition dist_moe_tp (A : Array2 Z) (w : Weights) (topk_ids : Array2 Z) (topk_w : list V)
    (b13 b2 : option (list (list V))) (top_k tp group_size block_size : Z) (ep : Epilogue)
    (empty : Z → list Z) : result (list (list V)) :=
  let '(M, hidden, a) := A in
  let '(d0, d1, ids) := topk_ids in
  let E := dim0 (w13 w) in
  let ispp := dim1 (w13 w) / 2 in
  _ ← require (d1 =? top_k) (ValueError "topk_ids must be [M, top_k]");
  plan ← tp_plan hidden ispp tp group_size;
  '(sorted_ids, expert_ids, EM) ← moe_align_block_size ids d0 d1 block_size E;
  let sorted_ids := int_cells sorted_ids in
  let expert_ids := int_cells expert_ids in
  sorted_w ← sort_weights topk_w sorted_ids (M * top_k);
  _ ← require (is_key ep "swiglu" || is_key ep "situ") (ValueError "activation must be 'swiglu' or 'situ'");
  shards ← tp_shard_weights w tp group_size;
  gate_up_partials ← map_result (λ '(rank, s),
    moe_gateup a (elems (w13 s)) (elems (w13_scale s)) sorted_ids expert_ids
      (replicate (Z.to_nat (EM * 2 * ispp)) (np_int 0)) M hidden (rank * hidden_shard plan)
      (hidden_shard plan) ispp top_k EM group_size) (zip (zrange tp) shards);
  gate_up ← sum_arrays gate_up_partials;
  act ← moe_act_epilogue gate_up b13 (empty (EM * ispp)) sorted_ids expert_ids M top_k EM ispp ep;
  down_partials ← map_result (λ '(rank, s),
    moe_down act (elems (w2 s)) (elems (w2_scale s)) sorted_ids expert_ids
      (replicate (Z.to_nat (EM * hidden)) (np_int 0)) M ispp (rank * ispp_shard plan)
      (ispp_shard plan) hidden top_k EM group_size) (zip (zrange tp) shards);
  partial ← sum_arrays down_partials;
  out ← moe_combine partial b2 sorted_w sorted_ids expert_ids
          (replicate (Z.to_nat (M * hidden)) (np_int 0)) M hidden top_k EM;
  Ok (replicate (Z.to_nat tp) out).

(** ** Expert parallelism *)
Definition moe_local_forward (a : list Z) (w : Weights) (sorted_ids : list Z) (sorted_w : list V)
    (expert_ids : list Z) (out : list V) (EM M hidden ispp top_k group_size : Z) (ep : Epilogue)
    (b13 b2 : option (list (list V))) (empty : Z → list Z) : result (list V) :=
  gate_up ← moe_gateup a (elems (w13 w)) (elems (w13_scale w)) sorted_ids expert_ids
              (replicate (Z.to_nat (EM * 2 * ispp)) (np_int 0)) M hidden 0 hidden ispp top_k EM group_size;
  act ← moe_act_epilogue gate_up b13 (empty (EM * ispp)) sorted_ids expert_ids M top_k EM ispp ep;
  partial ← moe_down act (elems (w2 w)) (elems (w2_scale w)) sorted_ids expert_ids
              (replicate (Z.to_nat (EM * hidden)) (np_int 0)) M ispp 0 ispp hidden top_k EM group_size;
  moe_combine partial b2 sorted_w sorted_ids expert_ids out M hidden top_k EM.

Definition dist_moe_ep (A : Array2 Z) (w : Weights) (topk_ids : Array2 Z) (topk_w : list V)
    (b13 b2 : option (list (list V))) (top_k ep group_size block_size : Z) (epi : Epilogue)
    (empty : Z → Z → list Z) : result (list (list V)) :=
  let '(M, hidden, a) := A in
  let '(d0, d1, ids) := topk_ids in
  let E := dim0 (w13 w) in
  let ispp := dim1 (w13 w) / 2 in
  _ ← require (negb (ep <=? 0)) (ValueError "ep must be positive");
  map_result (λ rank,
    plan ← ep_plan E ep rank;
    '(sorted_ids, expert_ids, EM) ← ep_dispatch ids d0 d1 plan E block_size;
    let sorted_ids := int_cells sorted_ids in
    let expert_ids := int_cells expert_ids in
    sorted_w ← sort_weights topk_w sorted_ids (M * top_k);
    let b0 := expert_begin plan in
    let b1 := expert_end plan in
    let rows (b : list (list V)) := py_slice b0 b1 b in
    moe_local_forward a
      (mk_weights (first_slice b0 b1 (w13 w)) (first_slice b0 b1 (w13_scale w))
                  (first_slice b0 b1 (w2 w)) (first_slice b0 b1 (w2_scale w)))
      sorted_ids sorted_w expert_ids (replicate (Z.to_nat (M * hidden)) (np_int 0)) EM
      M hidden ispp top_k group_size epi (rows <$> b13) (rows <$> b2) (empty rank)) (zrange ep).
End dist.
#[global] Arguments Epilogue V : clear implicits.
