(* ===== verification/DistMoeLoops.v ===== *)
(** * Loops over tiles and exact sums

    What the tiled loops of [dist.py] leave in their arrays, and sums without
    rounding, which may be reordered and split over ranks. *)

From S2P Require Import Prelude FlatArrays Arrays DistMoe.
Local Open Scope Z_scope.

(** ** Loops over tiles *)
Lemma fold_result_ext {A S} (f g : S → A → result S) (s : S) (l : list A) :
  (∀ s x, x ∈ l → f s x = g s x) → fold_result f s l = fold_result g s l.
Proof.
  revert s. induction l as [|x l IH]; intros s H; simpl; [done|].
  rewrite (H s x) by set_solver. destruct (g s x); simpl; [|done]. apply IH. intros. apply H. set_solver.
Qed.

(** Rows in blocks of 16, each row in [T] tiles; the loops run over blocks, then
    tiles, then the rows of the block.  [I P] states what holds once the pairs in
    [P] are handled. *)
Section tiles.
Context {St : Type} (n T : Z) (I : (Z → Z → bool) → St → Prop).
Context (Hn : 0 ≤ n) (HT : 0 ≤ T).

Definition pair_in (r t : Z) : Prop := 0 ≤ r < n * 16 ∧ 0 ≤ t < T.
Definition with_pair (P : Z → Z → bool) (r t r' t' : Z) : bool := P r' t' || (r' =? r) && (t' =? t).

Context (I_ext : ∀ P P' s, (∀ r t, pair_in r t → P r t = P' r t) → I P s → I P' s).
Context (step : Z → Z → St → result St).
Context (step_ok : ∀ P r t s, pair_in r t → P r t = false → I P s →
  ∃ s', step r t s = Ok s' ∧ I (with_pair P r t) s').

(** The pairs handled before row [m] of tile [t] of block [b]. *)
Definition before (b t m r' t' : Z) : bool :=
  (r' <? b * 16) || (r' <? b * 16 + 16) && (t' <? t) || (r' <? b * 16 + m) && (t' =? t).

Ltac tiles_eq :=
  apply I_ext; intros r' t' [Hr' Ht']; unfold with_pair, before;
  apply eq_true_iff_eq; rewrite ?orb_true_iff, ?andb_true_iff, ?Z.ltb_lt, ?Z.eqb_eq; lia.

Lemma tile_rows b t s : 0 ≤ b < n → 0 ≤ t < T → I (before b t 0) s →
  ∃ s', fold_result (λ s m, step (b * 16 + m) t s) s (zrange 16) = Ok s' ∧ I (before b (t + 1) 0) s'.
Proof using Type*.
  intros Hb Ht Hs.
  destruct (fold_zrange_inv (λ s m, step (b * 16 + m) t s) (λ m s, I (before b t m) s) 16 s) as (s' & E & Hs'); [lia|done| |].
  - intros m s1 Hm Hs1. destruct (step_ok (before b t m) (b * 16 + m) t s1) as (s2 & E & Hs2); [split; lia| |done|].
    + unfold before. apply not_true_iff_false. rewrite !orb_true_iff, !andb_true_iff, !Z.ltb_lt, Z.eqb_eq. lia.
    + exists s2. split; [done|]. revert Hs2. tiles_eq.
  - exists s'. split; [done|]. revert Hs'. tiles_eq.
Qed.

Lemma for_blocks_ok experts body s :
  Z.of_nat (length experts) = n → Forall (λ e, 0 ≤ e) experts →
  (∀ b s, 0 ≤ b < n → body (experts !!! Z.to_nat b) (b * 16) s =
    fold_result (λ s t, fold_result (λ s m, step (b * 16 + m) t s) s (zrange 16)) s (zrange T)) →
  I (λ _ _, false) s →
  ∃ s', for_blocks (n * 16) experts body s = Ok s' ∧ I (λ _ _, true) s'.
Proof using Type*.
  intros Hlen Hpos Hbody Hs. unfold for_blocks. rewrite Z.div_mul by done.
  match goal with |- context [fold_result ?f _ _] =>
    destruct (fold_zrange_inv f (λ b s, I (before b 0 0) s) n s) as (s' & E & Hs') end; [done| | |].
  - revert Hs. apply I_ext. intros r t [Hr Ht]. unfold before.
    symmetry. apply not_true_iff_false. rewrite !orb_true_iff, !andb_true_iff, !Z.ltb_lt, Z.eqb_eq. lia.
  - intros b s1 Hb Hs1.
    assert (experts !! Z.to_nat b = Some (experts !!! Z.to_nat b)) as He by (apply list_lookup_lookup_total_lt; lia).
    unfold py_index. rewrite He. simpl. rewrite Forall_lookup in Hpos. specialize (Hpos _ _ He).
    rewrite (proj2 (Z.ltb_ge _ _)) by done. rewrite Hbody by done.
    destruct (fold_zrange_inv (λ s t, fold_result (λ s m, step (b * 16 + m) t s) s (zrange 16))
      (λ t s, I (before b t 0) s) T s1) as (s2 & E & Hs2); [done|done| |].
    + intros t s2 Ht Hs2. by apply tile_rows.
    + exists s2. split; [done|]. revert Hs2. tiles_eq.
  - exists s'. split; [done|]. revert Hs'. apply I_ext. intros r t [Hr Ht]. unfold before.
    rewrite (proj2 (Z.ltb_lt r _)) by lia. done.
Qed.
End tiles.

Lemma py_index_total {A} `{!Inhabited A} (xs : list A) i : (i < length xs)%nat → py_index xs i = Ok (xs !!! i).
Proof. intros Hi. unfold py_index. by rewrite list_lookup_lookup_total_lt. Qed.

(** ** Regions of flat arrays *)
Section regions.
Context {A : Type}.

Lemma slice_set_wrote (lo n : Z) (f : Z → A) (xs : list A) :
  0 ≤ lo → 0 ≤ n → lo + n ≤ Z.of_nat (length xs) →
  ∃ xs', slice_set lo (lo + n) (f <$> zrange n) xs = Ok xs' ∧ wrote lo n f xs xs'.
Proof.
  intros Hlo Hn Hhi. unfold slice_set.
  assert (length (f <$> zrange n) = Z.to_nat n) as Hl by by rewrite length_fmap, length_zrange.
  pose proof (length_py_slice lo (lo + n) xs Hlo ltac:(lia) Hhi) as Hs.
  rewrite bool_decide_true by lia. simpl. eexists. split; [done|]. rewrite Hl. constructor.
  - rewrite !length_app, length_take, length_drop, Hl. lia.
  - intros i Hi. rewrite lookup_app_r by (rewrite length_take; lia).
    rewrite length_take, lookup_app_l by (rewrite Hl; lia).
    replace (Z.to_nat (lo + i) - Z.to_nat lo `min` length xs)%nat with (Z.to_nat i) by lia.
    by rewrite list_lookup_fmap, zrange_lookup by lia.
  - intros j Hj Hout. destruct (decide (j < lo)).
    + rewrite lookup_app_l by (rewrite length_take; lia). apply lookup_take_lt. lia.
    + rewrite lookup_app_r by (rewrite length_take; lia).
      rewrite length_take, lookup_app_r by (rewrite Hl; lia). rewrite Hl, lookup_drop. f_equal. lia.
Qed.

Lemma cells_list (xs : list A) lo n f : cells xs lo n f → 0 ≤ lo → 0 ≤ n →
  py_slice lo (lo + n) xs = f <$> zrange n.
Proof.
  intros Hc Hlo Hn. apply list_eq_same_length with (n := Z.to_nat n).
  - by rewrite length_fmap, length_zrange.
  - unfold py_slice. rewrite length_take, length_drop. destruct (decide (n = 0)) as [->|]; [lia|].
    specialize (Hc (n - 1) ltac:(lia)). apply lookup_lt_Some in Hc. lia.
  - intros i x y Hi Hx Hy. pose proof (cells_slice xs lo (lo + n) n f Hc Hlo ltac:(lia) (Z.of_nat i) ltac:(lia)) as Hs.
    rewrite Z.add_0_l, Nat2Z.id in Hs.
    apply list_lookup_fmap_Some in Hy as (j & -> & [-> _]%zrange_lookup_Some). congruence.
Qed.

(** Rows of [w] cells: the cells in [P] of the rows that count are filled. *)
Definition rows_done (rows w : Z) (val : Z → Z → A) (valid : Z → bool) (P : Z → Z → Prop) (xs : list A) : Prop :=
  Z.of_nat (length xs) = rows * w ∧
  ∀ r j, 0 ≤ r < rows → 0 ≤ j < w → valid r = true → P r j → xs !! Z.to_nat (r * w + j) = Some (val r j).

Lemma rows_done_impl rows w val valid (P P' : Z → Z → Prop) xs :
  (∀ r j, 0 ≤ r < rows → 0 ≤ j < w → valid r = true → P' r j → P r j) →
  rows_done rows w val valid P xs → rows_done rows w val valid P' xs.
Proof. intros HP [Hl Hd]. split; [done|]. intros r j Hr Hj Hv Hp. apply Hd; auto. Qed.

Lemma rows_done_write rows w val valid (P : Z → Z → Prop) xs r j0 n :
  0 ≤ r < rows → 0 ≤ j0 → 0 ≤ n → j0 + n ≤ w → rows_done rows w val valid P xs →
  ∃ xs', slice_set (r * w + j0) (r * w + j0 + n) ((λ i, val r (j0 + i)) <$> zrange n) xs = Ok xs' ∧
    rows_done rows w val valid (λ r' j', P r' j' ∨ r' = r ∧ j0 ≤ j' < j0 + n) xs'.
Proof.
  intros Hr Hj0 Hn Hw [Hl Hd].
  destruct (slice_set_wrote (r * w + j0) n (λ i, val r (j0 + i)) xs) as (xs' & E & Hwr); [nia|done|nia|].
  exists xs'. split; [done|]. split; [by rewrite (wrote_length _ _ _ _ _ Hwr)|].
  intros r' j' Hr' Hj' Hv Hp. destruct (decide (r' = r ∧ j0 ≤ j' < j0 + n)) as [[-> Hin]|Hne].
  - pose proof (wrote_cells _ _ _ _ _ Hwr (j' - j0) ltac:(lia)) as Hc. simpl in Hc.
    replace (r * w + j0 + (j' - j0)) with (r * w + j') in Hc by lia.
    by replace (j0 + (j' - j0)) with j' in Hc by lia.
  - destruct Hp as [Hp|Hin]; [|tauto].
    rewrite (wrote_frame _ _ _ _ _ Hwr); [by apply Hd|nia|].
    destruct (Z.lt_trichotomy r' r) as [?|[->|?]]; [nia|lia|nia].
Qed.

Lemma rows_done_start rows w val valid (P : Z → Z → Prop) xs :
  Z.of_nat (length xs) = rows * w → (∀ r j, ¬ P r j) → rows_done rows w val valid P xs.
Proof. intros Hl HP. split; [done|]. intros r j _ _ _ Hp. by apply HP in Hp. Qed.

Lemma rows_done_all rows w val (P : Z → Z → Prop) xs : 0 ≤ rows → 0 < w → (∀ r j, P r j) →
  rows_done rows w val (λ _, true) P xs → xs = (λ i, val (i / w) (i mod w)) <$> zrange (rows * w).
Proof.
  intros Hrows Hw HP [Hl Hd].
  apply list_eq_same_length with (n := length xs); [|done|].
  { rewrite length_fmap, length_zrange. lia. }
  intros i x y Hi Hx Hy. apply list_lookup_fmap_Some in Hy as (j & -> & [-> Hj]%zrange_lookup_Some).
  pose proof (Z.div_mod (Z.of_nat i) w ltac:(lia)). pose proof (Z.mod_pos_bound (Z.of_nat i) w Hw).
  assert (0 ≤ Z.of_nat i / w < rows) by (split; [apply Z.div_pos; lia|apply Z.div_lt_upper_bound; lia]).
  specialize (Hd (Z.of_nat i / w) (Z.of_nat i mod w) ltac:(done) ltac:(done) eq_refl (HP _ _)).
  replace (Z.of_nat i / w * w + Z.of_nat i mod w) with (Z.of_nat i) in Hd by lia.
  rewrite Nat2Z.id in Hd. congruence.
Qed.
End regions.

Lemma replicate_fmap {A} (n : Z) (x : A) : replicate (Z.to_nat n) x = (λ _, x) <$> zrange n.
Proof.
  replace (Z.to_nat n) with (length (zrange n)) by apply length_zrange.
  induction (zrange n) as [|i l IH]; [done|]. simpl. by f_equal.
Qed.

Lemma zip_with_fmap {A B C D} (h : B → C → D) (f : A → B) (g : A → C) (l : list A) :
  zip_with h (f <$> l) (g <$> l) = (λ x, h (f x) (g x)) <$> l.
Proof. induction l as [|x l IH]; [done|]. simpl. by f_equal. Qed.

(** ** Sums *)
Section sums.
Context {V : Type} `{num : !Numpy V}.
#[local] Instance V_inhabited : Inhabited V := populate np_undef.

Definition vsum (l : list V) : V := foldr np_add (np_int 0) l.
(** [f 0 + ... + f (n - 1)] *)
Definition over (n : Z) (f : Z → V) : V := vsum (f <$> zrange n).

(** numpy's sums without rounding. *)
Record exact_sums : Prop := {
  sum_comm x y : np_add x y = np_add y x;
  sum_assoc x y z : np_add x (np_add y z) = np_add (np_add x y) z;
  sum_zero x : np_add (np_int 0) x = x;
  sum_dot xs ys : length xs = length ys → np_dot xs ys = vsum (zip_with np_mul xs ys)
}.

Lemma over_ext n f g : (∀ i, 0 ≤ i < n → f i = g i) → over n f = over n g.
Proof.
  intros H. unfold over. f_equal. apply list_fmap_ext. intros _ i [_ Hi]%zrange_lookup_Some. by apply H.
Qed.

Context (Hsum : exact_sums).

Lemma vsum_app l k : vsum (l ++ k) = np_add (vsum l) (vsum k).
Proof using Hsum.
  induction l as [|x l IH]; simpl; [by rewrite (sum_zero Hsum)|]. by rewrite IH, (sum_assoc Hsum).
Qed.
Lemma vsum_perm l k : l ≡ₚ k → vsum l = vsum k.
Proof using Hsum.
  induction 1 as [|x l k _ IH|x y l|]; simpl; [done|by rewrite IH| |congruence].
  by rewrite !(sum_assoc Hsum), (sum_comm Hsum x y).
Qed.
Lemma sum_zero_r x : np_add x (np_int 0) = x.
Proof using Hsum. by rewrite (sum_comm Hsum), (sum_zero Hsum). Qed.

Lemma over_S n f : 0 ≤ n → over (n + 1) f = np_add (over n f) (f n).
Proof using Hsum.
  intros Hn. unfold over. rewrite zrange_S, fmap_app, vsum_app by done. simpl. by rewrite sum_zero_r.
Qed.
Lemma over_0 f : over 0 f = np_int 0.
Proof. done. Qed.

Lemma over_zero n f : 0 ≤ n → (∀ i, 0 ≤ i < n → f i = np_int 0) → over n f = np_int 0.
Proof using Hsum.
  intros Hn. revert n Hn. refine (natlike_ind _ _ _); [done|]. intros n Hn IH Hf. unfold Z.succ.
  rewrite over_S, IH, Hf, (sum_zero Hsum) by (try lia; intros; apply Hf; lia). done.
Qed.

Lemma over_add n f g : 0 ≤ n → over n (λ i, np_add (f i) (g i)) = np_add (over n f) (over n g).
Proof using Hsum.
  revert n. refine (natlike_ind _ _ _); [by rewrite !over_0, (sum_zero Hsum)|]. intros n Hn IH. unfold Z.succ.
  rewrite !over_S, IH by done. rewrite !(sum_assoc Hsum). f_equal. rewrite <- !(sum_assoc Hsum). f_equal.
  apply (sum_comm Hsum).
Qed.

(** A sum over [n * m] terms in [n] parts. *)
Lemma over_parts n m f : 0 ≤ n → 0 ≤ m → over n (λ i, over m (λ j, f (i * m + j))) = over (n * m) f.
Proof using Hsum.
  intros Hn Hm. revert n Hn. refine (natlike_ind _ _ _); [done|]. intros n Hn IH. unfold Z.succ.
  rewrite over_S, IH by done. replace ((n + 1) * m) with (n * m + m) by lia.
  unfold over. rewrite zrange_add, fmap_app, vsum_app, <- list_fmap_compose by nia. done.
Qed.

Lemma over_swap n m f : 0 ≤ n → 0 ≤ m →
  over n (λ i, over m (λ j, f i j)) = over m (λ j, over n (λ i, f i j)).
Proof using Hsum.
  intros Hn Hm. revert n Hn. refine (natlike_ind _ _ _).
  - symmetry. by apply over_zero.
  - intros n Hn IH. unfold Z.succ. rewrite over_S, IH, <- over_add by done.
    apply over_ext. intros j Hj. by rewrite over_S.
Qed.

(** Changing a term that was zero. *)
Lemma over_update n f g k : 0 ≤ k < n → f k = np_int 0 → (∀ i, 0 ≤ i < n → i ≠ k → g i = f i) →
  over n g = np_add (over n f) (g k).
Proof using Hsum.
  intros Hk Hf Hg.
  rewrite (over_ext n g (λ i, np_add (f i) (if i =? k then g k else np_int 0))).
  2:{ intros i Hi. destruct (i =? k) eqn:E; zbool; [by rewrite E, Hf, (sum_zero Hsum)|].
      by rewrite Hg, sum_zero_r by done. }
  rewrite over_add by lia. f_equal.
  assert (∀ m, 0 ≤ m → over m (λ i, if i =? k then g k else np_int 0) = if k <? m then g k else np_int 0) as H.
  { refine (natlike_ind _ _ _); [by rewrite over_0, (proj2 (Z.ltb_ge k 0)) by lia|]. intros m Hm IH. unfold Z.succ.
    rewrite over_S, IH by done. destruct (m =? k) eqn:E1; zbool.
    - subst m. rewrite (proj2 (Z.ltb_ge k k)), (proj2 (Z.ltb_lt k (k + 1))) by lia. apply (sum_zero Hsum).
    - rewrite sum_zero_r. destruct (k <? m) eqn:E2, (k <? m + 1) eqn:E3; zbool; done || lia. }
  rewrite H, (proj2 (Z.ltb_lt k n)) by lia. done.
Qed.

Lemma iadd_ok n f g : iadd (f <$> zrange n) (g <$> zrange n) = Ok ((λ i, np_add (g i) (f i)) <$> zrange n).
Proof.
  unfold iadd. rewrite !length_fmap, bool_decide_true by done. simpl. by rewrite zip_with_fmap.
Qed.

Lemma sum_arrays_ok tp n (p : Z → Z → V) : 0 < tp →
  sum_arrays ((λ r, p r <$> zrange n) <$> zrange tp) = Ok ((λ i, over tp (λ r, p r i)) <$> zrange n).
Proof using Hsum.
  intros Htp. replace tp with (1 + (tp - 1)) by lia. rewrite zrange_add by lia. simpl.
  rewrite <- list_fmap_compose.
  assert (∀ m, 0 ≤ m → fold_result (λ acc p, iadd p acc) ((λ i, np_add (np_int 0) (p 0 i)) <$> zrange n)
    ((λ r, p (1 + r) <$> zrange n) <$> zrange m) = Ok ((λ i, over (1 + m) (λ r, p r i)) <$> zrange n)) as H.
  { refine (natlike_ind _ _ _).
    - simpl. f_equal. apply list_fmap_ext. intros _ i _. unfold over. simpl.
      by rewrite (sum_zero Hsum), sum_zero_r.
    - intros m Hm IH. unfold Z.succ. rewrite zrange_S, fmap_app, fold_result_app, IH by done. simpl.
      rewrite iadd_ok. simpl. f_equal. apply list_fmap_ext. intros _ i _.
      replace (1 + (m + 1)) with (1 + m + 1) by lia. by rewrite over_S by lia. }
  rewrite <- (H (tp - 1)) by lia. f_equal. by rewrite <- list_fmap_compose.
Qed.

Lemma dot_over n f g : np_dot (f <$> zrange n) (g <$> zrange n) = over n (λ i, np_mul (f i) (g i)).
Proof using Hsum.
  rewrite (sum_dot Hsum) by (by rewrite !length_fmap). unfold over. by rewrite zip_with_fmap.
Qed.
End sums.

Lemma py_slice_fmap {A} (F : Z → A) (lo n R : Z) : 0 ≤ lo → 0 ≤ n → lo + n ≤ R →
  py_slice lo (lo + n) (F <$> zrange R) = (λ j, F (lo + j)) <$> zrange n.
Proof.
  intros Hlo Hn HR. apply cells_list; [|done..]. eapply cells_sub; [apply cells_fmap|lia|lia|].
  intros i Hi. f_equal. lia.
Qed.

Lemma halves {A} (F : Z → A) (n : Z) : 0 ≤ n →
  take (Z.to_nat n) (F <$> zrange (2 * n)) = F <$> zrange n ∧
  drop (Z.to_nat n) (F <$> zrange (2 * n)) = (λ j, F (n + j)) <$> zrange n.
Proof.
  intros Hn. replace (2 * n) with (n + n) by lia. rewrite zrange_add, fmap_app, <- list_fmap_compose by done.
  assert (length (F <$> zrange n) = Z.to_nat n) as Hl by by rewrite length_fmap, length_zrange.
  split; [by apply take_app_length'|by apply drop_app_length'].
Qed.

(** Rows of [W] cells in one flat array. *)
Lemma row_slice {A} (f : Z → Z → A) (R W r lo n : Z) : 0 ≤ r < R → 0 ≤ lo → 0 ≤ n → lo + n ≤ W →
  py_slice (r * W + lo) (r * W + lo + n) ((λ i, f (i / W) (i mod W)) <$> zrange (R * W)) =
    (λ j, f r (lo + j)) <$> zrange n.
Proof.
  intros Hr Hlo Hn HW. rewrite py_slice_fmap by nia. apply list_fmap_ext. intros _ j [_ Hj]%zrange_lookup_Some.
  rewrite <- Z.add_assoc. by destruct (square_index W r (lo + j)) as [-> ->]; [lia|].
Qed.

Lemma slice_set_fmap {A} (f g h : Z → A) (n lo k : Z) : 0 ≤ lo → 0 ≤ k → lo + k ≤ n →
  (∀ i, 0 ≤ i < n → h i = if (lo <=? i) && (i <? lo + k) then g (i - lo) else f i) →
  slice_set lo (lo + k) (g <$> zrange k) (f <$> zrange n) = Ok (h <$> zrange n).
Proof.
  intros Hlo Hk Hn Hh. destruct (slice_set_wrote lo k g (f <$> zrange n)) as (xs & E & Hw);
    [done..|rewrite length_fmap, length_zrange; lia|]. rewrite E. f_equal.
  apply (wrote_all n h (f <$> zrange n)); [|rewrite length_fmap, length_zrange; lia].
  constructor; [apply (wrote_length _ _ _ _ _ Hw)| |].
  - intros i Hi. rewrite Hh by done. destruct (lo <=? i) eqn:E1, (i <? lo + k) eqn:E2; zbool; simpl.
    1: rewrite <- (wrote_cells _ _ _ _ _ Hw) by lia; f_equal; lia.
    all: rewrite (wrote_frame _ _ _ _ _ Hw), list_lookup_fmap, zrange_lookup by lia; done.
  - intros j Hj Ho. rewrite (wrote_frame _ _ _ _ _ Hw) by lia. done.
Qed.

Lemma flat_ext {A} (f g : Z → Z → A) R W : 0 < W → (∀ r j, 0 ≤ r < R → 0 ≤ j < W → f r j = g r j) →
  (λ i, f (i / W) (i mod W)) <$> zrange (R * W) = (λ i, g (i / W) (i mod W)) <$> zrange (R * W).
Proof.
  intros HW H. apply list_fmap_ext. intros _ i [_ Hi]%zrange_lookup_Some. apply H.
  - split; [apply Z.div_pos; lia|apply Z.div_lt_upper_bound; lia].
  - by apply Z.mod_pos_bound.
Qed.
