(* ===== verification/DistMoeStages.v ===== *)
(** * The stages of a distributed mixture of experts

    What each stage of [dist.py] computes from a block layout, in exact sums. *)

From S2P Require Import Prelude FlatArrays Arrays MoeRouting DistMoe DistMoeLoops.
Local Open Scope Z_scope.

(** ** Weights *)
Section weights.
Context {V : Type} `{num : !Numpy V}.
#[local] Existing Instance V_inhabited.

(** The value of a row and column of a quantised matrix. *)
Definition weight_bits (w ws : list Z) (sp ss gs row col : Z) : Z :=
  let byte := w !!! Z.to_nat (row * sp + col / 2) in
  let s := ws !!! Z.to_nat (row * ss + col / gs) in
  f32_to_bf16 (np_mul (FP4_VALUES !!! Z.to_nat (if col mod 2 =? 0 then Z.land byte 15 else Z.shiftr byte 4))
                      (ue8m0_to_float s)).
Definition weight (w ws : list Z) (K gs row col : Z) : V :=
  bf16_to_f32 (weight_bits w ws (K / 2) (K / gs) gs row col).

(** [n] matrices of [R] rows and [K] columns. *)
Record quantised (w ws : list Z) (n R K gs : Z) : Prop := {
  q_rows : 0 ≤ R;
  q_cols : 0 ≤ K;
  q_group : 0 < gs;
  q_even : K mod 2 = 0;
  q_groups : K mod gs = 0;
  q_packed : Z.of_nat (length w) = n * R * (K / 2);
  q_scales : Z.of_nat (length ws) = n * R * (K / gs);
  q_bytes : Forall (λ b, 0 ≤ b < 256) w
}.

Lemma nibble_index (byte : Z) (b : bool) : 0 ≤ byte < 256 →
  (Z.to_nat (if b then Z.land byte 15 else Z.shiftr byte 4) < length (FP4_VALUES (V := V)))%nat.
Proof.
  intros Hb. change (length (FP4_VALUES (V := V))) with 16%nat.
  change 15 with (Z.ones 4). rewrite Z.land_ones, Z.shiftr_div_pow2 by done. change (2 ^ 4) with 16.
  assert (byte / 16 < 16) by (apply Z.div_lt_upper_bound; lia). pose proof (Z.mod_pos_bound byte 16).
  assert (0 ≤ byte / 16) by (apply Z.div_pos; lia). destruct b; lia.
Qed.

Lemma slice_lookup {A} `{!Inhabited A} (xs : list A) lo n i : 0 ≤ lo → 0 ≤ i < n → lo + n ≤ Z.of_nat (length xs) →
  py_index (py_slice lo (lo + n) xs) (Z.to_nat i) = Ok (xs !!! Z.to_nat (lo + i)).
Proof.
  intros Hlo Hi Hn.
  apply (cells_index_0 _ n (λ i, xs !!! Z.to_nat (lo + i))); [|done].
  apply cells_slice; [apply cells_total; lia|lia..].
Qed.

Lemma quantised_index w ws n R K gs e row col : quantised w ws n R K gs → 0 ≤ e < n → 0 ≤ row < R → 0 ≤ col < K →
  0 ≤ row * (K / 2) + col / 2 < R * (K / 2) ∧ 0 ≤ e * (R * (K / 2)) ∧
  e * (R * (K / 2)) + R * (K / 2) ≤ Z.of_nat (length w) ∧
  0 ≤ row * (K / gs) + col / gs < R * (K / gs) ∧ 0 ≤ e * (R * (K / gs)) ∧
  e * (R * (K / gs)) + R * (K / gs) ≤ Z.of_nat (length ws).
Proof.
  intros [HR HK Hgs Heven Hgroups Hw Hws _] He Hrow Hcol.
  pose proof (Z.div_mod K 2 ltac:(lia)) as HK2. pose proof (Z.div_mod K gs ltac:(lia)) as HKg.
  assert (0 ≤ K / 2) by (apply Z.div_pos; lia). assert (0 ≤ K / gs) by (apply Z.div_pos; lia).
  assert (0 ≤ col / 2 < K / 2) as H2 by (split; [apply Z.div_pos; lia|apply Z.div_lt_upper_bound; lia]).
  assert (0 ≤ col / gs < K / gs) as Hg by (split; [apply Z.div_pos; lia|apply Z.div_lt_upper_bound; lia]).
  pose proof (flat_bounds row R _ _ Hrow H2). pose proof (flat_bounds row R _ _ Hrow Hg).
  rewrite Hw, Hws. split_and!; nia.
Qed.

Lemma dequant_full_ok w ws n R K gs e : quantised w ws n R K gs → 0 ≤ e < n →
  dequant_full (py_slice (e * (R * (K / 2))) (e * (R * (K / 2)) + R * (K / 2)) w)
      (py_slice (e * (R * (K / gs))) (e * (R * (K / gs)) + R * (K / gs)) ws) R K (K / 2) (K / gs) gs =
    Ok ((λ row, (λ col, weight_bits w ws (K / 2) (K / gs) gs (e * R + row) col) <$> zrange K) <$> zrange R).
Proof.
  intros Hq He. pose proof Hq as [HR HK Hgs Heven Hgroups Hw Hws Hbytes].
  pose proof (Z.div_mod K 2 ltac:(lia)) as HK2. pose proof (Z.div_mod K gs ltac:(lia)) as HKg.
  assert (0 ≤ K / 2) by (apply Z.div_pos; lia). assert (0 ≤ K / gs) by (apply Z.div_pos; lia).
  assert (e * (R * (K / 2)) + R * (K / 2) ≤ Z.of_nat (length w)) by (rewrite Hw; nia).
  assert (e * (R * (K / gs)) + R * (K / gs) ≤ Z.of_nat (length ws)) by (rewrite Hws; nia).
  unfold dequant_full. rewrite !length_py_slice by nia.
  rewrite !(proj2 (Z.eqb_eq _ _)) by lia. rewrite (proj2 (Z.leb_le 0 gs)) by lia. simpl.
  apply map_zrange_ok. intros row Hrow. apply map_zrange_ok. intros col Hcol.
  destruct (quantised_index w ws n R K gs e row col Hq He Hrow Hcol) as (Hp & Hp' & Hp'' & Hg & Hg' & Hg'').
  unfold dequant. rewrite !slice_lookup by lia. simpl.
  replace (e * (R * (K / 2)) + (row * (K / 2) + col / 2)) with ((e * R + row) * (K / 2) + col / 2) by lia.
  replace (e * (R * (K / gs)) + (row * (K / gs) + col / gs)) with ((e * R + row) * (K / gs) + col / gs) by lia.
  unfold weight_bits. set (byte := w !!! Z.to_nat ((e * R + row) * (K / 2) + col / 2)).
  assert (0 ≤ byte < 256) as Hb.
  { rewrite Forall_lookup in Hbytes. eapply Hbytes, list_lookup_lookup_total_lt. lia. }
  unfold py_index. rewrite (list_lookup_lookup_total_lt FP4_VALUES) by by apply nibble_index. done.
Qed.

Lemma weight_rows w ws K gs e R :
  (λ row : list Z, bf16_to_f32 <$> row) <$>
    ((λ row, (λ col, weight_bits w ws (K / 2) (K / gs) gs (e * R + row) col) <$> zrange K) <$> zrange R) =
  (λ row, weight w ws K gs (e * R + row) <$> zrange K) <$> zrange R.
Proof. rewrite <- list_fmap_compose. apply list_fmap_ext. intros _ row _. simpl. by rewrite <- list_fmap_compose. Qed.
End weights.

(** ** Biases *)
Section biases.
Context {V : Type} `{num : !Numpy V}.
#[local] Existing Instance V_inhabited.

Definition biased (b : option (list (list V))) (e j : Z) (x : V) : V :=
  match b with
  | None => x
  | Some rows => np_add x ((rows !!! Z.to_nat e) !!! Z.to_nat j)
  end.

(** One row of [W] values per expert. *)
Definition bias_shape (b : option (list (list V))) (E W : Z) : Prop :=
  match b with
  | None => True
  | Some rows => Z.of_nat (length rows) = E ∧ Forall (λ row, Z.of_nat (length row) = W) rows
  end.

Lemma add_bias_ok b E W e lo n (f : Z → V) : bias_shape b E W → 0 ≤ e < E → 0 ≤ lo → 0 ≤ n → lo + n ≤ W →
  add_bias b e lo (lo + n) (f <$> zrange n) = Ok ((λ j, biased b e (lo + j) (f j)) <$> zrange n).
Proof.
  unfold bias_shape, add_bias, biased. destruct b as [rows|]; [|done]. intros [Hl Hf] He Hlo Hn HW.
  assert (rows !! Z.to_nat e = Some (rows !!! Z.to_nat e)) as Hr by (apply list_lookup_lookup_total_lt; lia).
  unfold py_index. rewrite Hr. cbn [mbind result_bind]. rewrite Forall_lookup in Hf. specialize (Hf _ _ Hr). simpl in Hf.
  cbn [of_option mbind result_bind].
  rewrite (cells_list (rows !!! Z.to_nat e) lo n (λ i, (rows !!! Z.to_nat e) !!! Z.to_nat (lo + i)))
    by (apply cells_total || done; lia). apply iadd_ok.
Qed.
End biases.

(** ** The stages *)
Section stages.
Context {V : Type} `{num : !Numpy V} (Hsum : exact_sums).
#[local] Existing Instance V_inhabited.

(** A layout: [n] blocks of 16 rows with their experts. *)
Context (sorted experts : list Z) (n N E : Z).
Record layout : Prop := {
  lay_blocks : Z.of_nat (length experts) = n;
  lay_rows : Z.of_nat (length sorted) = n * 16;
  lay_experts : Forall (λ e, 0 ≤ e < E) experts;
  lay_ids : Forall (λ f, 0 ≤ f) sorted
}.
Context (Hlay : layout).

Definition row_id (r : Z) : Z := sorted !!! Z.to_nat r.
Definition row_expert (r : Z) : Z := experts !!! Z.to_nat (r / 16).
Definition row_valid (r : Z) : bool := row_id r <? N.

Lemma blocks_nonneg : 0 ≤ n.
Proof using Hlay. pose proof (lay_blocks Hlay). lia. Qed.

Lemma row_id_index r : 0 ≤ r < n * 16 → py_index sorted (Z.to_nat r) = Ok (row_id r) ∧ 0 ≤ row_id r.
Proof using Hlay.
  intros Hr. pose proof (lay_rows Hlay). unfold py_index, row_id.
  assert (sorted !! Z.to_nat r = Some (sorted !!! Z.to_nat r)) as Hs by (apply list_lookup_lookup_total_lt; lia).
  rewrite Hs. split; [done|]. pose proof (lay_ids Hlay) as Hf. rewrite Forall_lookup in Hf. by apply (Hf _ _ Hs).
Qed.

Lemma block_row b m : 0 ≤ m < 16 → (b * 16 + m) / 16 = b.
Proof. intros Hm. by apply square_index. Qed.

Lemma row_expert_range r : 0 ≤ r < n * 16 → 0 ≤ row_expert r < E.
Proof using Hlay.
  intros Hr. pose proof (lay_blocks Hlay). pose proof (lay_experts Hlay) as He. rewrite Forall_lookup in He.
  assert (0 ≤ r / 16 < n) by (split; [apply Z.div_pos; lia|apply Z.div_lt_upper_bound; lia]).
  eapply He. apply list_lookup_lookup_total_lt. lia.
Qed.

Lemma block_expert b : 0 ≤ b < n → 0 ≤ experts !!! Z.to_nat b < E.
Proof using Hlay.
  intros Hb. pose proof (lay_blocks Hlay). pose proof (lay_experts Hlay) as He. rewrite Forall_lookup in He.
  eapply He. apply list_lookup_lookup_total_lt. lia.
Qed.

Lemma experts_nonneg : Forall (λ e, 0 ≤ e) experts.
Proof using Hlay. eapply Forall_impl; [apply (lay_experts Hlay)|]. simpl. lia. Qed.

(** The rows of a tile. *)
Definition tile_value (src : list Z) (base : Z → Z) (r k : Z) : V :=
  if row_valid r then bf16_to_f32 (src !!! Z.to_nat (base r + k)) else bf16_to_f32 0.

Lemma tile_row_ok src (base : Z → Z) (basef : Z → Z) K r :
  0 ≤ K → basef (row_id r) = base r →
  (row_valid r = true → 0 ≤ base r ∧ base r + K ≤ Z.of_nat (length src)) →
  tile_row N K src basef (row_id r) = Ok (tile_value src base r <$> zrange K).
Proof.
  intros HK Hb Hin. unfold tile_row, tile_value. fold (row_valid r). destruct (row_valid r).
  - destruct (Hin eq_refl). rewrite Hb, length_py_slice by lia.
    rewrite (proj2 (Z.eqb_eq _ _)) by lia. simpl. f_equal.
    rewrite (cells_list src (base r) K (λ k, src !!! Z.to_nat (base r + k))) by (apply cells_total || done; lia).
    by rewrite <- list_fmap_compose.
  - by rewrite replicate_fmap.
Qed.

Lemma tile_rows_ok src (base : Z → Z) (basef : Z → Z → Z) K b :
  0 ≤ K → 0 ≤ b < n → (∀ r, 0 ≤ r < n * 16 → basef r (row_id r) = base r) →
  (∀ r, 0 ≤ r < n * 16 → row_valid r = true → 0 ≤ base r ∧ base r + K ≤ Z.of_nat (length src)) →
  map_result (λ m, f ← py_index sorted (Z.to_nat (b * 16 + m)); tile_row N K src (basef (b * 16 + m)) f) (zrange 16) =
    Ok ((λ m, tile_value src base (b * 16 + m) <$> zrange K) <$> zrange 16).
Proof using Hlay.
  intros HK Hb Hbase Hin. apply map_zrange_ok. intros m Hm.
  rewrite (proj1 (row_id_index (b * 16 + m) ltac:(lia))). simpl.
  apply tile_row_ok; [done|apply Hbase; lia|apply Hin; lia].
Qed.

(** A tile of products. *)
Lemma dots_ok (x : Z → V) (F : Z → Z → V) K lo R : 0 ≤ lo → lo + 64 ≤ R →
  dots (x <$> zrange K) (py_slice lo (lo + 64) ((λ j, F j <$> zrange K) <$> zrange R)) =
    (λ j, over K (λ k, np_mul (x k) (F (lo + j) k))) <$> zrange 64.
Proof using Hsum.
  intros Hlo HR. unfold dots. rewrite py_slice_fmap, <- list_fmap_compose by lia.
  apply list_fmap_ext. intros _ j _. simpl. by rewrite dot_over.
Qed.

(** Up to here [P] over tiles, below over cells. *)
Lemma tile_index t j : 0 ≤ t → 0 ≤ j → j / 64 = t ↔ t * 64 ≤ j < t * 64 + 64.
Proof. intros Ht Hj. pose proof (Z.div_mod j 64). pose proof (Z.mod_pos_bound j 64). lia. Qed.

(** Row [j] of the matrix of the expert of row [r], of [R] rows. *)
Definition product (x : Z → V) (w ws : list Z) (K gs R r j : Z) : V :=
  over K (λ k, np_mul (x k) (weight w ws K gs (row_expert r * R + j) k)).

(** A stage that fills its array tile by tile, the rows in [keep] only. *)
Lemma blocks_done {A} W (val : Z → Z → A) keep T (tile : Z → Z) write body (init : list A) :
  0 ≤ T → (∀ j, 0 ≤ j < W → 0 ≤ tile j < T) → Z.of_nat (length init) = n * 16 * W →
  (∀ (P : Z → Z → Prop) r t s, 0 ≤ r < n * 16 → 0 ≤ t < T → rows_done (n * 16) W val keep P s →
    ∃ s', write r t s = Ok s' ∧ rows_done (n * 16) W val keep (λ r' j, P r' j ∨ r' = r ∧ tile j = t) s') →
  (∀ b s, 0 ≤ b < n → body (experts !!! Z.to_nat b) (b * 16) s =
    fold_result (λ s t, fold_result (λ s m, write (b * 16 + m) t s) s (zrange 16)) s (zrange T)) →
  ∃ s, for_blocks (n * 16) experts body init = Ok s ∧ rows_done (n * 16) W val keep (λ _ _, True) s.
Proof using Hlay.
  intros HT Htile Hlen Hwrite Hbody. pose proof blocks_nonneg as Hn.
  destruct (for_blocks_ok n T (λ P, rows_done (n * 16) W val keep (λ r j, P r (tile j) = true)))
    with (experts := experts) (body := body) (s := init) (step := write) as (s & E1 & Hs);
    [done|lia| | |apply Hlay|apply experts_nonneg|exact Hbody|by apply rows_done_start|].
  - intros P P' s HP. apply rows_done_impl. intros r j Hr Hj Hv Hp. rewrite HP; [done|]. split; auto.
  - intros P r t s [Hr Ht] _ Hs. destruct (Hwrite _ r t s Hr Ht Hs) as (s' & E1 & Hs').
    exists s'. split; [done|]. revert Hs'. apply rows_done_impl. intros r' j Hr' Hj _. unfold with_pair.
    by rewrite orb_true_iff, andb_true_iff, !Z.eqb_eq.
  - exists s. split; [done|]. revert Hs. by apply rows_done_impl.
Qed.

(** One slice of 64 cells per row and tile. *)
Definition write_tile {A} W (val : Z → Z → A) (keep : Z → bool) (r t : Z) (s : list A) : result (list A) :=
  if keep r then
    slice_set (r * W + t * 64) (r * W + t * 64 + 64) ((λ j, val r (t * 64 + j)) <$> zrange 64) s
  else Ok s.

Lemma write_tile_done {A} W (val : Z → Z → A) keep (P : Z → Z → Prop) r t s :
  W mod 64 = 0 → 0 ≤ r < n * 16 → 0 ≤ t < W / 64 → rows_done (n * 16) W val keep P s →
  ∃ s', write_tile W val keep r t s = Ok s' ∧
    rows_done (n * 16) W val keep (λ r' j, P r' j ∨ r' = r ∧ j / 64 = t) s'.
Proof.
  intros H64 Hr Ht Hs. pose proof (Z.div_mod W 64 ltac:(lia)). unfold write_tile. destruct (keep r) eqn:Ek.
  - destruct (rows_done_write (n * 16) W val keep _ _ r (t * 64) 64 Hr ltac:(lia) ltac:(lia) ltac:(lia) Hs) as (s1 & E1 & Hs1).
    exists s1. split; [done|]. revert Hs1. apply rows_done_impl. intros r' j Hr' Hj _ [HP|[-> Ht']]; [by left|right].
    split; [done|]. apply tile_index in Ht'; lia.
  - exists s. split; [done|]. revert Hs. apply rows_done_impl. intros r' j Hr' Hj Hk [HP|[-> _]]; [done|congruence].
Qed.

Lemma tiles_range W j : W mod 64 = 0 → 0 ≤ j < W → 0 ≤ j / 64 < W / 64.
Proof.
  intros H64 Hj. pose proof (Z.div_mod W 64 ltac:(lia)).
  split; [apply Z.div_pos; lia|apply Z.div_lt_upper_bound; lia].
Qed.

Lemma stage_ok {A} W (val : Z → Z → A) keep body (init : list A) :
  0 < W → W mod 64 = 0 → Z.of_nat (length init) = n * 16 * W →
  (∀ b s, 0 ≤ b < n → body (experts !!! Z.to_nat b) (b * 16) s =
    fold_result (λ s t, fold_result (λ s m, write_tile W val keep (b * 16 + m) t s) s (zrange 16))
      s (zrange (W / 64))) →
  ∃ s, for_blocks (n * 16) experts body init = Ok s ∧ rows_done (n * 16) W val keep (λ _ _, True) s.
Proof using Hlay.
  intros HW H64 Hlen. apply (blocks_done W val keep (W / 64) (λ j, j / 64)); [apply Z.div_pos; lia| |done|].
  - intros j Hj. by apply tiles_range.
  - intros P r t s Hr Ht Hs. by apply write_tile_done.
Qed.

Lemma gateup_ok a w ws M top_k a_stride k_base K ispp gs z :
  M * top_k = N → 0 < ispp → ispp mod 64 = 0 → quantised w ws E (2 * ispp) K gs →
  let base r := row_id r / top_k * a_stride + k_base in
  let gate_up r j := product (tile_value a base r) w ws K gs (2 * ispp) r j in
  (∀ r, 0 ≤ r < n * 16 → row_valid r = true → 0 ≤ base r ∧ base r + K ≤ Z.of_nat (length a)) →
  moe_gateup a w ws sorted experts (replicate (Z.to_nat (n * 16 * 2 * ispp)) z)
      M a_stride k_base K ispp top_k (n * 16) gs =
    Ok ((λ i, gate_up (i / (2 * ispp)) (i mod (2 * ispp))) <$>
          zrange (n * 16 * (2 * ispp))).
Proof using Hsum Hlay.
  intros HN Hispp H64 Hq base gate_up Hbase. pose proof blocks_nonneg as Hn.
  pose proof Hq as [HR HK Hgs Heven Hgroups _ _ _].
  pose proof (Z.div_mod ispp 64 ltac:(lia)) as HT. rewrite H64, Z.add_0_r in HT.
  set (T := ispp / 64) in *. assert (0 ≤ T) as HT0 by (apply Z.div_pos; lia).
  unfold moe_gateup. rewrite py_floordiv_nz by lia. cbv zeta. cbn [mbind result_bind]. rewrite HN. fold T.
  set (tile j := (if j <? ispp then j else j - ispp) / 64).
  set (write r t s :=
    let r0 := r * 2 * ispp + t * 64 in
    s ← slice_set r0 (r0 + 64) ((λ j, gate_up r (t * 64 + j)) <$> zrange 64) s;
    slice_set (r0 + ispp) (r0 + ispp + 64) ((λ j, gate_up r (ispp + t * 64 + j)) <$> zrange 64) s).
  match goal with |- for_blocks _ _ ?bd ?st = _ =>
    destruct (blocks_done (2 * ispp) gate_up (λ _, true) T tile write bd st) as (s & -> & Hs) end;
    [done| |rewrite length_replicate; nia| | |].
  - intros j Hj. unfold tile. case_match; zbool; (split; [apply Z.div_pos; lia|apply Z.div_lt_upper_bound; lia]).
  - intros P r t s Hr Ht Hs. unfold write. replace (r * 2 * ispp + t * 64) with (r * (2 * ispp) + t * 64) by lia.
    destruct (rows_done_write (n * 16) (2 * ispp) gate_up _ _ _ r (t * 64) 64 Hr ltac:(lia) ltac:(lia) ltac:(lia) Hs) as (s1 & -> & Hs1).
    destruct (rows_done_write (n * 16) (2 * ispp) gate_up _ _ _ r (ispp + t * 64) 64 Hr ltac:(lia) ltac:(lia) ltac:(lia) Hs1) as (s2 & E2 & Hs2).
    exists s2. cbn [mbind result_bind].
    replace (r * (2 * ispp) + t * 64 + ispp) with (r * (2 * ispp) + (ispp + t * 64)) by lia. split; [done|].
    revert Hs2. apply rows_done_impl. intros r' j Hr' Hj _ [HP|[-> Ht']]; [tauto|].
    unfold tile in Ht'. destruct (j <? ispp) eqn:Ej; zbool; apply tile_index in Ht'; lia.
  - intros b s Hb. rewrite (dequant_full_ok w ws E (2 * ispp) K gs) by (done || by apply block_expert).
    cbn [mbind result_bind]. rewrite weight_rows.
    match goal with |- context [take _ (?W <$> _)] => destruct (halves W ispp ltac:(lia)) as [-> ->] end.
    apply fold_result_ext. intros s1 t Ht%elem_of_zrange.
    rewrite (tile_rows_ok a base (λ _ f, f / top_k * a_stride + k_base)) by (done || lia).
    cbn [mbind result_bind]. apply fold_result_ext. intros s2 m Hm%elem_of_zrange.
    rewrite (cells_index_0 _ 16 _ _ (cells_fmap _ _)) by done. cbn [mbind result_bind].
    replace ((t + 1) * 64) with (t * 64 + 64) by lia. rewrite !dots_ok by lia.
    unfold write, gate_up, product, row_expert. rewrite block_row by done.
    destruct (slice_set _ _ _ s2); [|done]. cbn [mbind result_bind]. f_equal. apply list_fmap_ext. intros _ j _. by rewrite (Z.add_assoc ispp).
  - f_equal. by eapply rows_done_all; [lia|lia| |exact Hs].
Qed.

Lemma down_ok act w ws partial M top_k a_stride k_base K hidden gs :
  M * top_k = N → 0 < hidden → hidden mod 64 = 0 → quantised w ws E hidden K gs →
  0 ≤ k_base → k_base + K ≤ a_stride → Z.of_nat (length act) = n * 16 * a_stride →
  Z.of_nat (length partial) = n * 16 * hidden →
  let down r j := product (tile_value act (λ r, r * a_stride + k_base) r) w ws K gs hidden r j in
  moe_down act w ws sorted experts partial M a_stride k_base K hidden top_k (n * 16) gs =
    Ok ((λ i, down (i / hidden) (i mod hidden)) <$> zrange (n * 16 * hidden)).
Proof using Hsum Hlay.
  intros HN Hh H64 Hq Hk0 Hk1 Hact Hlen down. pose proof blocks_nonneg as Hn.
  pose proof Hq as [HR HK Hgs _ _ _ _ _].
  pose proof (Z.div_mod hidden 64 ltac:(lia)) as HT. rewrite H64, Z.add_0_r in HT.
  unfold moe_down. rewrite py_floordiv_nz by lia. cbv zeta. cbn [mbind result_bind]. rewrite HN.
  match goal with |- for_blocks _ _ ?bd _ = _ =>
    destruct (stage_ok hidden down (λ _, true) bd partial Hh H64 Hlen) as (s & -> & Hs) end.
  - intros b s Hb. pose proof (block_expert b Hb) as He.
    replace ((experts !!! Z.to_nat b + 1) * (hidden * (K / 2)))
      with (experts !!! Z.to_nat b * (hidden * (K / 2)) + hidden * (K / 2)) by lia.
    replace ((experts !!! Z.to_nat b + 1) * (hidden * (K / gs)))
      with (experts !!! Z.to_nat b * (hidden * (K / gs)) + hidden * (K / gs)) by lia.
    rewrite (dequant_full_ok w ws E hidden K gs) by done. cbn [mbind result_bind]. rewrite weight_rows.
    apply fold_result_ext. intros s1 t Ht%elem_of_zrange.
    rewrite (tile_rows_ok act (λ r, r * a_stride + k_base) (λ r _, r * a_stride + k_base)) by (done || nia).
    cbn [mbind result_bind]. apply fold_result_ext. intros s2 m Hm%elem_of_zrange.
    rewrite (cells_index_0 _ 16 _ _ (cells_fmap _ _)) by done. cbn [mbind result_bind].
    replace ((t + 1) * 64) with (t * 64 + 64) by lia. rewrite !dots_ok by lia.
    unfold write_tile, down, product, row_expert. by rewrite block_row.
  - f_equal. by eapply rows_done_all; [lia|lia| |exact Hs].
Qed.

Definition act_bits (ep : Epilogue V) (b13 : option (list (list V))) (ispp : Z) (gate_up : Z → Z → V) (r j : Z) : Z :=
  f32_to_bf16 (np_astype float32
    (act_value ep (biased b13 (row_expert r) j (gate_up r j))
                  (biased b13 (row_expert r) (ispp + j) (gate_up r (ispp + j))))).

Lemma act_ok ep b13 gate_up act M top_k ispp :
  M * top_k = N → 0 < ispp → ispp mod 64 = 0 → bias_shape b13 E (2 * ispp) →
  Z.of_nat (length act) = n * 16 * ispp →
  ∃ act', moe_act_epilogue ((λ i, gate_up (i / (2 * ispp)) (i mod (2 * ispp))) <$> zrange (n * 16 * (2 * ispp)))
      b13 act sorted experts M top_k (n * 16) ispp ep = Ok act' ∧
    rows_done (n * 16) ispp (act_bits ep b13 ispp gate_up) row_valid (λ _ _, True) act'.
Proof using Hlay.
  intros HN Hispp H64 Hb Hlen. pose proof blocks_nonneg as Hn.
  pose proof (Z.div_mod ispp 64 ltac:(lia)) as HT. rewrite H64, Z.add_0_r in HT.
  unfold moe_act_epilogue. rewrite HN. apply stage_ok; [done..|]. intros b s Hblk.
  apply fold_result_ext. intros s1 t Ht%elem_of_zrange.
  apply fold_result_ext. intros s2 m Hm%elem_of_zrange. set (r := b * 16 + m).
  assert (0 ≤ r < n * 16) as Hr by lia.
  rewrite (proj1 (row_id_index r Hr)). cbn [mbind result_bind]. unfold write_tile, row_valid.
  rewrite Z.geb_leb, Z.leb_antisym. destruct (row_id r <? N); [|done]. cbn [negb].
  replace (r * 2 * ispp + t * 64) with (r * (2 * ispp) + t * 64) by lia.
  replace (r * (2 * ispp) + t * 64 + ispp) with (r * (2 * ispp) + (ispp + t * 64)) by lia.
  rewrite !row_slice by lia.
  pose proof (block_expert b Hblk) as He.
  rewrite !(add_bias_ok b13 E (2 * ispp)) by (done || lia). cbn [mbind result_bind].
  rewrite zip_with_fmap. unfold act_bits, row_expert, r. rewrite block_row by done.
  f_equal. apply list_fmap_ext. intros _ j _. by rewrite (Z.add_assoc ispp).
Qed.

(** Rows that the combination adds to a token. *)
Definition routed (top_k token r : Z) : bool := row_valid r && (row_id r / top_k =? token).

Section combine.
Context (M hidden top_k : Z) (contribution : Z → Z → V).
Context (HN : M * top_k = N) (Hh : 0 < hidden) (H64 : hidden mod 64 = 0) (Hk : 0 < top_k).

(** A token's cell once the pairs in [P] are added. *)
Definition combined (P : Z → Z → bool) (token j : Z) : V :=
  over (n * 16) (λ r, if P r (j / 64) && routed top_k token r then contribution r j else np_int 0).
Definition out_after (P : Z → Z → bool) : list V :=
  (λ i, combined P (i / hidden) (i mod hidden)) <$> zrange (M * hidden).

Lemma combined_ext P P' token j : (∀ r, 0 ≤ r < n * 16 → P r (j / 64) = P' r (j / 64)) →
  combined P token j = combined P' token j.
Proof. intros HP. apply over_ext. intros r Hr. by rewrite HP. Qed.

Lemma out_after_ext P P' : (∀ r t, pair_in n (hidden / 64) r t → P r t = P' r t) → out_after P = out_after P'.
Proof using Hh H64.
  intros HP. apply list_fmap_ext. intros _ i _. apply combined_ext. intros r Hr. apply HP. split; [done|].
  apply tiles_range; [done|]. apply Z.mod_pos_bound. lia.
Qed.

Lemma token_range r : 0 ≤ r < n * 16 → row_valid r = true → 0 ≤ row_id r / top_k < M.
Proof using Hlay HN Hk.
  intros Hr Hv. destruct (row_id_index r Hr) as [_ H0]. unfold row_valid in Hv. zbool.
  split; [apply Z.div_pos; lia|apply Z.div_lt_upper_bound; lia].
Qed.

(** The cells of one tile of one row. *)
Lemma combined_step P r t token j : 0 ≤ r < n * 16 → P r t = false → j / 64 = t → routed top_k token r = true →
  combined (with_pair P r t) token j = np_add (combined P token j) (contribution r j).
Proof using Hsum.
  intros Hr HP <- Hrt. unfold combined.
  rewrite (over_update Hsum _ (λ r', if P r' (j / 64) && routed top_k token r' then contribution r' j else np_int 0) _ r);
    [|done|by rewrite HP|].
  - unfold with_pair. by rewrite !Z.eqb_refl, orb_true_r, Hrt.
  - intros r' Hr' Hne. unfold with_pair. by rewrite (proj2 (Z.eqb_neq _ _) Hne), orb_false_r.
Qed.
Lemma combined_same P r t token j : j / 64 ≠ t ∨ routed top_k token r = false →
  combined (with_pair P r t) token j = combined P token j.
Proof.
  intros Hor. apply over_ext. intros r' Hr'. unfold with_pair.
  destruct (r' =? r) eqn:E1, (j / 64 =? t) eqn:E2; zbool; simpl; rewrite ?orb_false_r; try done.
  subst. destruct Hor as [?| ->]; [done|]. by rewrite !andb_false_r.
Qed.

Lemma out_after_write P r t : 0 ≤ r < n * 16 → 0 ≤ t < hidden / 64 → P r t = false → row_valid r = true →
  let o0 := row_id r / top_k * hidden + t * 64 in
  (sum ← iadd ((λ j, contribution r (t * 64 + j)) <$> zrange 64) (py_slice o0 (o0 + 64) (out_after P));
   slice_set o0 (o0 + 64) sum (out_after P)) = Ok (out_after (with_pair P r t)).
Proof using Hsum Hlay HN Hh H64 Hk.
  intros Hr Ht HP Hv o0. pose proof (token_range r Hr Hv) as Htok. pose proof (Z.div_mod hidden 64 ltac:(lia)).
  unfold o0, out_after. rewrite (row_slice (combined P)) by lia. rewrite iadd_ok. cbn [mbind result_bind].
  assert (t * 64 + 64 ≤ hidden) as Ht1 by lia.
  assert (row_id r / top_k * hidden + hidden ≤ M * hidden) by nia.
  assert (0 ≤ row_id r / top_k * hidden) by nia.
  apply slice_set_fmap; [lia..|]. intros i Hi.
  pose proof (Z.div_mod i hidden ltac:(lia)) as Hdm. pose proof (Z.mod_pos_bound i hidden Hh) as Hj.
  set (token := i / hidden) in *. set (j := i mod hidden) in *.
  assert (routed top_k token r = (row_id r / top_k =? token)) as Hrt by (unfold routed; by rewrite Hv).
  destruct (decide (row_id r / top_k = token ∧ t * 64 ≤ j < t * 64 + 64)) as [[Etok Etile]|Hne].
  - rewrite (proj2 (Z.leb_le _ _)), (proj2 (Z.ltb_lt _ _)) by (rewrite Etok; lia). simpl.
    replace (t * 64 + (i - (row_id r / top_k * hidden + t * 64))) with j by (rewrite Etok; lia).
    rewrite combined_step; [by rewrite Etok|done|done|by apply tile_index; lia|].
    rewrite Hrt. by apply Z.eqb_eq.
  - rewrite combined_same.
    + destruct (_ && _) eqn:Ein; [|done]. zbool. exfalso. apply Hne.
      destruct (square_index hidden (row_id r / top_k) (i - row_id r / top_k * hidden)) as [Hd Hm]; [lia|].
      rewrite Zplus_minus in Hd, Hm. fold token in Hd. fold j in Hm. lia.
    + rewrite Hrt. destruct (decide (row_id r / top_k = token)) as [Etok|Etok].
      * left. intros Et. apply Hne. split; [done|]. apply tile_index in Et; lia.
      * right. by apply Z.eqb_neq.
Qed.

(** A combination whose rows and tiles add to the array one after the other. *)
Lemma combine_blocks step body :
  (∀ P r t, 0 ≤ r < n * 16 → 0 ≤ t < hidden / 64 → P r t = false → row_valid r = true →
     step r t (out_after P) = Ok (out_after (with_pair P r t))) →
  (∀ b s, 0 ≤ b < n → body (experts !!! Z.to_nat b) (b * 16) s =
     fold_result (λ s t, fold_result (λ s m,
       if row_valid (b * 16 + m) then step (b * 16 + m) t s else Ok s) s (zrange 16)) s (zrange (hidden / 64))) →
  for_blocks (n * 16) experts body (replicate (Z.to_nat (M * hidden)) (np_int 0)) =
    Ok ((λ i, over (n * 16) (λ r, if routed top_k (i / hidden) r
          then contribution r (i mod hidden) else np_int 0)) <$> zrange (M * hidden)).
Proof using Hsum Hlay HN Hh H64 Hk.
  intros Hstep Hbody. pose proof blocks_nonneg as Hn.
  destruct (for_blocks_ok n (hidden / 64) (λ P s, s = out_after P)) with (experts := experts) (body := body)
    (s := replicate (Z.to_nat (M * hidden)) (np_int 0)) (step := λ r t out, if row_valid r then step r t out else Ok out)
    as (s & -> & ->); [done|apply Z.div_pos; lia| | |apply Hlay|apply experts_nonneg|exact Hbody| |done].
  - intros P P' s HP ->. by apply out_after_ext.
  - intros P r t s [Hr Ht] HP ->. eexists. split; [|done]. destruct (row_valid r) eqn:Hv; [by apply Hstep|].
    f_equal. apply list_fmap_ext. intros _ i _. symmetry. apply combined_same. right. unfold routed. by rewrite Hv.
  - rewrite replicate_fmap. apply list_fmap_ext. intros _ i _. symmetry. by apply over_zero; [done|lia|].
Qed.
End combine.

(** The weighted output of the expert of a row. *)
Definition contribution (b2 : option (list (list V))) (partial : Z → Z → V) (sorted_w : list V) (r j : Z) : V :=
  np_mul (biased b2 (row_expert r) j (partial r j)) (sorted_w !!! Z.to_nat r).

Lemma combine_ok b2 partial sorted_w M hidden top_k :
  M * top_k = N → 0 < hidden → hidden mod 64 = 0 → 0 < top_k → bias_shape b2 E hidden →
  Z.of_nat (length sorted_w) = n * 16 →
  moe_combine ((λ i, partial (i / hidden) (i mod hidden)) <$> zrange (n * 16 * hidden)) b2 sorted_w sorted experts
      (replicate (Z.to_nat (M * hidden)) (np_int 0)) M hidden top_k (n * 16) =
    Ok ((λ i, over (n * 16) (λ r, if routed top_k (i / hidden) r
          then contribution b2 partial sorted_w r (i mod hidden) else np_int 0)) <$> zrange (M * hidden)).
Proof using Hsum Hlay.
  intros HN Hh H64 Hk Hb Hw. pose proof blocks_nonneg as Hn. pose proof (Z.div_mod hidden 64 ltac:(lia)).
  unfold moe_combine. rewrite HN.
  apply (combine_blocks M hidden top_k (contribution b2 partial sorted_w) HN Hh H64 Hk (λ r t out,
    let o0 := row_id r / top_k * hidden + t * 64 in
    sum ← iadd ((λ j, contribution b2 partial sorted_w r (t * 64 + j)) <$> zrange 64) (py_slice o0 (o0 + 64) out);
    slice_set o0 (o0 + 64) sum out)).
  - intros P r t Hr Ht HP Hv. by apply out_after_write.
  - intros b s Hblk. apply fold_result_ext. intros s1 t Ht%elem_of_zrange.
    apply fold_result_ext. intros s2 m Hm%elem_of_zrange. set (r := b * 16 + m).
    assert (0 ≤ r < n * 16) as Hr by lia.
    rewrite (proj1 (row_id_index r Hr)). cbn [mbind result_bind]. unfold row_valid.
    rewrite Z.geb_leb, Z.leb_antisym. destruct (row_id r <? N); [|done]. cbn [negb].
    unfold py_index. rewrite (list_lookup_lookup_total_lt sorted_w) by lia. cbn [of_option mbind result_bind].
    pose proof (block_expert b Hblk) as He. rewrite (row_slice partial) by lia.
    rewrite (add_bias_ok b2 E hidden) by (done || lia). cbn [mbind result_bind].
    rewrite <- list_fmap_compose. unfold contribution, row_expert, r. by rewrite block_row.
Qed.
End stages.
