(* ===== verification/DistMoeSpec.v ===== *)
(** * One mixture of experts, however it is distributed

    The mixture that [dist_moe_tp] and [dist_moe_ep] compute, written as sums
    over the selections of a token, and the two refinements. *)

From S2P Require Import Prelude FlatArrays Indexing Arrays MoeRouting DistMoe DistMoeLoops DistMoeStages Vectors.
Local Open Scope Z_scope.

(** ** Experts *)
Section expert.
Context {V : Type} `{num : !Numpy V}.
#[local] Existing Instance V_inhabited.
Context (a : list Z) (w : Weights) (b13 b2 : option (list (list V))) (hidden ispp gs : Z) (ep : Epilogue V).

Definition gate_up_at (e token j : Z) : V :=
  over hidden (λ k, np_mul (bf16_to_f32 (a !!! Z.to_nat (token * hidden + k)))
    (weight (elems (w13 w)) (elems (w13_scale w)) hidden gs (e * (2 * ispp) + j) k)).
Definition act_at (e token j : Z) : Z :=
  f32_to_bf16 (np_astype float32
    (act_value ep (biased b13 e j (gate_up_at e token j))
                  (biased b13 e (ispp + j) (gate_up_at e token (ispp + j))))).
(** Column [j] of what expert [e] makes of a token. *)
Definition expert_out (e token j : Z) : V :=
  biased b2 e j (over ispp (λ k, np_mul (bf16_to_f32 (act_at e token k))
    (weight (elems (w2 w)) (elems (w2_scale w)) ispp gs (e * hidden + j) k))).

(** A token's selections with their experts and weights, those in [sel] only. *)
Definition mixture (sel : Z → bool) (key : Z → Z) (topk_w : list V) (top_k token j : Z) : V :=
  over top_k (λ s, let i := token * top_k + s in
    if sel i then np_mul (expert_out (key i) token j) (topk_w !!! Z.to_nat i) else np_int 0).
End expert.

Record weights_shape (w : Weights) (E hidden ispp gs : Z) : Prop := {
  shape_13 : quantised (elems (w13 w)) (elems (w13_scale w)) E (2 * ispp) hidden gs;
  shape_2 : quantised (elems (w2 w)) (elems (w2_scale w)) E hidden ispp gs
}.

(** ** A forward pass over a layout *)
Section forward.
Context {V : Type} `{num : !Numpy V} (Hsum : exact_sums).
#[local] Existing Instance V_inhabited.
Context (a : list Z) (w : Weights) (b13 b2 : option (list (list V))) (hidden ispp gs : Z) (ep : Epilogue V).
Context (sorted experts : list Z) (sorted_w : list V) (n M top_k E : Z).
Let N := M * top_k.

Record forward_inputs : Prop := {
  in_layout : layout sorted experts n E;
  in_weights : weights_shape w E hidden ispp gs;
  in_hidden : 0 < hidden ∧ hidden mod 64 = 0;
  in_ispp : 0 < ispp ∧ ispp mod 64 = 0;
  in_top_k : 0 < top_k;
  in_a : Z.of_nat (length a) = M * hidden;
  in_b13 : bias_shape b13 E (2 * ispp);
  in_b2 : bias_shape b2 E hidden;
  in_w : Z.of_nat (length sorted_w) = n * 16
}.
Context (Hin : forward_inputs).
Let Hlay := in_layout Hin.

Definition row_gate_up (r j : Z) : V :=
  product experts (tile_value sorted N a (λ r, row_id sorted r / top_k * hidden + 0) r)
    (elems (w13 w)) (elems (w13_scale w)) hidden gs (2 * ispp) r j.
Definition row_down (act : list Z) (r j : Z) : V :=
  product experts (tile_value sorted N act (λ r, r * ispp + 0) r)
    (elems (w2 w)) (elems (w2_scale w)) ispp gs hidden r j.
Definition act_done (act : list Z) : Prop :=
  rows_done (n * 16) ispp (act_bits experts ep b13 ispp row_gate_up) (row_valid sorted N) (λ _ _, True) act.

Lemma contribution_ok act token r j : act_done act → 0 ≤ r < n * 16 → routed sorted N top_k token r = true →
  contribution experts b2 (row_down act) sorted_w r j =
    np_mul (expert_out a w b13 b2 hidden ispp gs ep (row_expert experts r) token j) (sorted_w !!! Z.to_nat r).
Proof using Hin.
  intros [_ Hact] Hr Hrt. unfold routed in Hrt. apply andb_true_iff in Hrt as [Hv Htok]. zbool.
  unfold contribution, expert_out, row_down, product. do 2 f_equal. apply over_ext. intros k Hk. f_equal.
  unfold tile_value. rewrite Hv, Z.add_0_r.
  specialize (Hact r k Hr Hk Hv I). rewrite (list_lookup_total_correct _ _ _ Hact).
  assert (∀ j, row_gate_up r j = gate_up_at a w hidden ispp gs (row_expert experts r) token j) as Hg.
  { intros j'. unfold row_gate_up, gate_up_at, product, tile_value. by rewrite Hv, Htok, Z.add_0_r. }
  unfold act_bits, act_at. by rewrite !Hg.
Qed.

Lemma a_rows r : 0 ≤ r < n * 16 → row_valid sorted N r = true →
  0 ≤ row_id sorted r / top_k * hidden ∧ row_id sorted r / top_k * hidden + hidden ≤ M * hidden.
Proof using Hin.
  intros Hr Hv. pose proof (token_range sorted experts n N E Hlay M top_k eq_refl (in_top_k Hin) r Hr Hv).
  destruct (in_hidden Hin). nia.
Qed.

(** What the stages after the gate and up products make of them. *)
Definition rows_combined : list V :=
  (λ i, over (n * 16) (λ r, if routed sorted N top_k (i / hidden) r
     then np_mul (expert_out a w b13 b2 hidden ispp gs ep (row_expert experts r) (i / hidden) (i mod hidden))
            (sorted_w !!! Z.to_nat r) else np_int 0)) <$> zrange (M * hidden).

Lemma combine_rows act : act_done act →
  moe_combine ((λ i, row_down act (i / hidden) (i mod hidden)) <$> zrange (n * 16 * hidden)) b2 sorted_w sorted experts
    (replicate (Z.to_nat (M * hidden)) (np_int 0)) M hidden top_k (n * 16) = Ok rows_combined.
Proof using Hsum Hin.
  intros Hact. destruct (in_hidden Hin).
  rewrite (combine_ok Hsum sorted experts n N E Hlay) by (done || apply Hin). f_equal.
  apply list_fmap_ext. intros _ i _. apply over_ext. intros r Hr. destruct (routed _ _ _ _ _) eqn:Hrt; [|done].
  by apply contribution_ok.
Qed.

Lemma act_rows act : Z.of_nat (length act) = n * 16 * ispp →
  ∃ act', moe_act_epilogue ((λ i, row_gate_up (i / (2 * ispp)) (i mod (2 * ispp))) <$> zrange (n * 16 * (2 * ispp)))
      b13 act sorted experts M top_k (n * 16) ispp ep = Ok act' ∧ act_done act'.
Proof using Hin.
  intros Hl. destruct (in_ispp Hin). apply (act_ok sorted experts n N E Hlay); (done || apply Hin).
Qed.

Lemma gate_up_rows :
  moe_gateup a (elems (w13 w)) (elems (w13_scale w)) sorted experts
      (replicate (Z.to_nat (n * 16 * 2 * ispp)) (np_int 0)) M hidden 0 hidden ispp top_k (n * 16) gs =
    Ok ((λ i, row_gate_up (i / (2 * ispp)) (i mod (2 * ispp))) <$> zrange (n * 16 * (2 * ispp))).
Proof using Hsum Hin.
  destruct (in_ispp Hin). apply (gateup_ok Hsum sorted experts n N E Hlay); [done..|apply Hin|].
  intros r Hr Hv. pose proof (a_rows r Hr Hv). rewrite (in_a Hin). lia.
Qed.

Lemma down_rows act : Z.of_nat (length act) = n * 16 * ispp →
  moe_down act (elems (w2 w)) (elems (w2_scale w)) sorted experts
      (replicate (Z.to_nat (n * 16 * hidden)) (np_int 0)) M ispp 0 ispp hidden top_k (n * 16) gs =
    Ok ((λ i, row_down act (i / hidden) (i mod hidden)) <$> zrange (n * 16 * hidden)).
Proof using Hsum Hin.
  intros Hact. destruct (in_hidden Hin), (in_ispp Hin). pose proof (blocks_nonneg _ _ _ _ Hlay).
  apply (down_ok Hsum sorted experts n N E Hlay); [done..|apply Hin|lia|lia|done|rewrite length_replicate; nia].
Qed.

Lemma local_forward_ok empty : (∀ k, 0 ≤ k → Z.of_nat (length (empty k)) = k) →
  moe_local_forward a w sorted sorted_w experts (replicate (Z.to_nat (M * hidden)) (np_int 0)) (n * 16)
    M hidden ispp top_k gs ep b13 b2 empty = Ok rows_combined.
Proof using Hsum Hin.
  intros Hempty. destruct (in_ispp Hin). pose proof (blocks_nonneg _ _ _ _ Hlay).
  unfold moe_local_forward. rewrite gate_up_rows. cbn [mbind result_bind].
  destruct (act_rows (empty (n * 16 * ispp))) as (act & -> & Hact); [apply Hempty; nia|].
  cbn [mbind result_bind]. rewrite down_rows by apply Hact. by apply combine_rows.
Qed.
End forward.

(** ** From rows to selections *)
Section selections.
Context {V : Type} `{num : !Numpy V} (Hsum : exact_sums).
Context (sorted experts : list Z) (n N E : Z) (sel : Z → bool) (key : Z → Z).

Record covers : Prop := {
  cov_layout : layout sorted experts n E;
  cov_key r : 0 ≤ r < n * 16 → row_valid sorted N r = true → row_expert experts r = key (row_id sorted r);
  cov_max : Forall (λ f, f ≤ N) sorted;
  cov_sel : filter (λ i, i ≠ N) sorted ≡ₚ filter (λ i, Is_true (sel i)) (zrange N)
}.
Context (Hcov : covers).

Lemma vsum_filter (P : Z → Prop) `{!∀ i, Decision (P i)} (h : Z → V) (l : list Z) :
  vsum (h <$> filter P l) = vsum ((λ i, if decide (P i) then h i else np_int 0) <$> l).
Proof using Hsum.
  induction l as [|i l IH]; [done|]. rewrite filter_cons. case_decide as Hi; simpl; rewrite ?decide_True, ?decide_False by done.
  - f_equal. exact IH.
  - rewrite (sum_zero Hsum). exact IH.
Qed.

Lemma over_rows (h : Z → V) :
  over (n * 16) (λ r, if row_valid sorted N r then h (row_id sorted r) else np_int 0) =
    over N (λ i, if sel i then h i else np_int 0).
Proof using Hsum Hcov.
  pose proof (lay_rows _ _ _ _ (cov_layout Hcov)) as Hrows.
  transitivity (vsum ((λ i, if decide (i ≠ N) then h i else np_int 0) <$> sorted)).
  - unfold over. f_equal. rewrite <- Hrows.
    apply list_eq_same_length with (n := length sorted); [by rewrite length_fmap|by rewrite length_fmap, length_zrange; lia|].
    intros r x y Hr Hx Hy. apply list_lookup_fmap_Some in Hx as (j & -> & [-> Hj]%zrange_lookup_Some).
    apply list_lookup_fmap_Some in Hy as (i & -> & Hi).
    unfold row_valid, row_id. rewrite Nat2Z.id, (list_lookup_total_correct _ _ _ Hi).
    pose proof (cov_max Hcov) as Hmax. rewrite Forall_lookup in Hmax. specialize (Hmax _ _ Hi). simpl in Hmax.
    destruct (i <? N) eqn:E1; zbool; case_decide; done || lia.
  - rewrite <- vsum_filter, (vsum_perm Hsum _ _ (fmap_Permutation h _ _ (cov_sel Hcov))), vsum_filter.
    unfold over. f_equal. apply list_fmap_ext. intros _ i _. by destruct (sel i).
Qed.

(** The rows of a token are its selections. *)
Lemma over_routed (M top_k token : Z) (h : Z → Z → V) : N = M * top_k → 0 < top_k → 0 ≤ token < M →
  over (n * 16) (λ r, if routed sorted N top_k token r then h (row_expert experts r) (row_id sorted r) else np_int 0) =
    over top_k (λ s, let i := token * top_k + s in if sel i then h (key i) i else np_int 0).
Proof using Hsum Hcov.
  intros HN Hk Htok. set (g i := if i / top_k =? token then h (key i) i else np_int 0).
  transitivity (over (n * 16) (λ r, if row_valid sorted N r then g (row_id sorted r) else np_int 0)).
  { apply over_ext. intros r Hr. unfold routed, g. destruct (row_valid sorted N r) eqn:Hv; simpl; [|done].
    by rewrite (cov_key Hcov r Hr Hv). }
  rewrite over_rows, HN, <- over_parts by (done || lia). unfold g.
  rewrite (over_update Hsum M (λ _, np_int 0) _ token); [|done|done|].
  - rewrite (over_zero Hsum M (λ _, np_int 0)), (sum_zero Hsum) by (done || lia). apply over_ext. intros s Hs.
    destruct (square_index top_k token s Hs) as [-> _]. by rewrite Z.eqb_refl.
  - intros t Ht Hne. apply (over_zero Hsum); [lia|]. intros s Hs.
    destruct (square_index top_k t s Hs) as [-> _]. rewrite (proj2 (Z.eqb_neq t token)) by done. by destruct (sel _).
Qed.
End selections.

Section rows.
Context {V : Type} `{num : !Numpy V} (Hsum : exact_sums).
#[local] Existing Instance V_inhabited.

Definition mixtures (a : list Z) (w : Weights) (b13 b2 : option (list (list V))) (hidden ispp gs : Z)
    (ep : Epilogue V) (sel : Z → bool) (key : Z → Z) (topk_w : list V) (M top_k : Z) : list V :=
  (λ i, mixture a w b13 b2 hidden ispp gs ep sel key topk_w top_k (i / hidden) (i mod hidden)) <$> zrange (M * hidden).

Definition row_weight (topk_w : list V) (N f : Z) : V :=
  if (f >=? 0) && (f <? N) then topk_w !!! Z.to_nat (Z.min f (N - 1)) else np_int 0.

Lemma sort_weights_ok topk_w sorted N : 0 < N → Z.of_nat (length topk_w) = N → Forall (λ f, 0 ≤ f) sorted →
  sort_weights topk_w sorted N = Ok (row_weight topk_w N <$> sorted).
Proof.
  intros HN Hl Hf. apply map_result_ok. intros f Hin. rewrite Forall_forall in Hf. specialize (Hf f Hin).
  unfold py_index. rewrite list_lookup_lookup_total_lt by lia. done.
Qed.

Lemma rows_combined_mixtures a w b13 b2 hidden ispp gs ep sorted experts n M top_k E sel key topk_w :
  covers sorted experts n (M * top_k) E sel key → 0 < top_k → 0 < hidden → 0 ≤ M →
  rows_combined a w b13 b2 hidden ispp gs ep sorted experts (row_weight topk_w (M * top_k) <$> sorted) n M top_k =
    mixtures a w b13 b2 hidden ispp gs ep sel key topk_w M top_k.
Proof using Hsum.
  intros Hcov Hk Hh HM. apply list_fmap_ext. intros _ i [_ Hi]%zrange_lookup_Some. unfold mixture.
  assert (0 ≤ i / hidden < M) as Htok by (split; [apply Z.div_pos; lia|apply Z.div_lt_upper_bound; lia]).
  rewrite <- (over_routed Hsum sorted experts n (M * top_k) E sel key Hcov M top_k (i / hidden)
    (λ e i', np_mul (expert_out a w b13 b2 hidden ispp gs ep e (i / hidden) (i mod hidden)) (topk_w !!! Z.to_nat i'))) by done.
  apply over_ext. intros r Hr. destruct (routed _ _ _ _ _) eqn:Hrt; [|done]. f_equal.
  unfold routed in Hrt. apply andb_true_iff in Hrt as [Hv _]. unfold row_valid in Hv. zbool.
  pose proof (lay_rows _ _ _ _ (cov_layout _ _ _ _ _ _ _ Hcov)) as Hrows.
  destruct (row_id_index sorted experts n E (cov_layout _ _ _ _ _ _ _ Hcov) r Hr) as [_ H0].
  apply list_lookup_total_correct. rewrite list_lookup_fmap, list_lookup_lookup_total_lt by lia.
  fold (row_id sorted r). simpl. unfold row_weight. rewrite Z.geb_leb, (proj2 (Z.leb_le _ _)), (proj2 (Z.ltb_lt _ _)) by done.
  simpl. do 3 f_equal. lia.
Qed.
End rows.

(** ** The alignment of a routing table *)
Section aligned.
Context (ids : list Z) (N num_experts b0 b1 : Z).
Context (HN : N = Z.of_nat (length ids)) (HNmax : N < 2 ^ 31) (Hemax : num_experts ≤ 2 ^ 31).
(** Only experts from [b0] to [b1] occur. *)
Context (Hrange : ∀ i, 0 ≤ i < N → valid_selection ids num_experts i → b0 ≤ expert_of ids i < b1).

Let sorted := sorted_rows ids N 16 (zrange num_experts).
Let experts := sorted_blocks ids N 16 (zrange num_experts).

Lemma block_used e : e ∈ experts → 0 ≤ e < num_experts ∧ b0 ≤ e < b1.
Proof using HN HNmax Hemax Hrange.
  unfold experts, sorted_blocks. intros He. apply list_elem_of_join in He as (l & He & Hl).
  apply list_elem_of_fmap in Hl as (e' & -> & Hin%elem_of_zrange).
  unfold group_blocks in He. cbn [fst snd] in He. apply elem_of_replicate in He as [-> Hn].
  split; [done|]. destruct (group ids e' (zrange N)) as [|i l] eqn:Eg; [done|].
  assert (i ∈ group ids e' (zrange N)) as Hi by (rewrite Eg; left).
  apply (elem_of_group ids N 16 num_experts eq_refl HN HNmax Hemax) in Hi as [Hi <-]. apply Hrange; [done|].
  unfold valid_selection. apply Is_true_true, andb_true_iff. rewrite Z.leb_le, Z.ltb_lt. done.
Qed.

Lemma sorted_row (k : nat) i : sorted !! k = Some i →
  ∃ e, experts !! (k / 16)%nat = Some e ∧ (i = N ∨ 0 ≤ i < N ∧ expert_of ids i = e).
Proof using HN HNmax Hemax.
  intros Hi.
  assert (∀ e, e ∈ zrange num_experts → 0 ≤ e < num_experts) as Hin by (intros e; by rewrite elem_of_zrange).
  destruct (aligned_rows ids N 16 num_experts eq_refl HN HNmax Hemax (zrange num_experts) Hin) as [Hlen Hblock].
  fold sorted experts in Hlen, Hblock. change (Z.to_nat 16) with 16%nat in *.
  pose proof (lookup_lt_Some _ _ _ Hi). pose proof (Nat.div_mod k 16 ltac:(lia)). pose proof (Nat.mod_upper_bound k 16 ltac:(lia)).
  destruct (lookup_lt_is_Some_2 experts (k / 16)) as [e He]; [apply Nat.Div0.div_lt_upper_bound; lia|].
  exists e. split; [done|]. destruct (Hblock _ e (k mod 16)%nat He) as (_ & i' & Hi' & Hc); [lia|].
  replace (k / 16 * 16 + k mod 16)%nat with k in Hi' by lia. rewrite Hi in Hi'. by injection Hi' as ->.
Qed.

Lemma sorted_bounds : Forall (λ f, 0 ≤ f ≤ N) sorted.
Proof using HN HNmax Hemax.
  apply Forall_lookup. intros k i Hi. destruct (sorted_row k i Hi) as (e & _ & [->|[? _]]); lia.
Qed.

Lemma aligned_covers :
  covers sorted ((λ e, e - b0) <$> experts) (Z.of_nat (length experts)) N (b1 - b0)
    (valid_selection ids num_experts) (λ i, expert_of ids i - b0).
Proof using HN HNmax Hemax Hrange.
  assert (∀ e, e ∈ zrange num_experts → 0 ≤ e < num_experts) as Hin by (intros e; by rewrite elem_of_zrange).
  pose proof (al_length _ _ _ _ _ _ (aligned_rows ids N 16 num_experts eq_refl HN HNmax Hemax _ Hin)) as Hlen.
  fold sorted experts in Hlen. change (Z.to_nat 16) with 16%nat in Hlen.
  constructor.
  - constructor; [by rewrite length_fmap|lia| |].
    + apply Forall_fmap, Forall_forall. intros e He. destruct (block_used e He). simpl. lia.
    + eapply Forall_impl; [apply sorted_bounds|]. simpl. lia.
  - intros r Hr Hv. unfold row_valid in Hv. zbool.
    assert (sorted !! Z.to_nat r = Some (row_id sorted r)) as Hi by (apply list_lookup_lookup_total_lt; lia).
    destruct (sorted_row _ _ Hi) as (e & He & [?|[_ <-]]); [lia|].
    apply list_lookup_total_correct. rewrite list_lookup_fmap.
    replace (Z.to_nat (r / 16)) with (Z.to_nat r / 16)%nat by (rewrite Z2Nat.inj_div by lia; done). by rewrite He.
  - eapply Forall_impl; [apply sorted_bounds|]. simpl. lia.
  - unfold sorted. rewrite (rows_selections ids N 16 num_experts eq_refl HN HNmax Hemax _ (NoDup_zrange _)).
    apply Permutation_refl', list_filter_iff. intros i. rewrite elem_of_zrange. unfold valid_selection.
    rewrite Is_true_true, andb_true_iff, Z.leb_le, Z.ltb_lt. done.
Qed.
End aligned.
