(* ===== verification/DistMoeParallel.v ===== *)
(** * Tensor and expert parallelism compute the mixture

    [dist_moe_tp] splits the inner dimension of both products over the ranks,
    [dist_moe_ep] the experts.  In exact sums both give [DistMoeSpec.mixtures]. *)

From S2P Require Import Prelude FlatArrays Indexing Arrays MoeRouting DistMoe DistMoeLoops DistMoeStages DistMoeSpec Vectors.
Local Open Scope Z_scope.

(** ** Slices of the last axis *)
Lemma rows_concat {A} (f : Z → Z → A) (R W : Z) : 0 ≤ R → 0 < W →
  (r ← zrange R; f r <$> zrange W) = (λ i, f (i / W) (i mod W)) <$> zrange (R * W).
Proof.
  intros HR HW. revert R HR. refine (natlike_ind _ _ _); [done|]. intros R HR IH. unfold Z.succ.
  rewrite zrange_S, bind_app, IH by done. simpl. rewrite app_nil_r.
  replace ((R + 1) * W) with (R * W + W) by lia. rewrite zrange_add, fmap_app, <- list_fmap_compose by nia. f_equal.
  apply list_fmap_ext. intros _ j [_ Hj]%zrange_lookup_Some. simpl.
  by destruct (square_index W R j) as [-> ->].
Qed.

Lemma list_bind_ext' {A B} (f g : A → list B) (l : list A) : (∀ x, x ∈ l → f x = g x) → (l ≫= f) = (l ≫= g).
Proof.
  induction l as [|x l IH]; intros H; [done|]. rewrite !bind_cons. rewrite (H x), IH; [done| |left].
  intros y Hy. apply H. by right.
Qed.

(** Part [r] of [tp] parts of [h] columns. *)
Record columns (a : Array3) (rows tp h : Z) : Prop := {
  col_rows : dim0 a * dim1 a = rows;
  col_dim : dim2 a = tp * h;
  col_elems : Z.of_nat (length (elems a)) = rows * (tp * h);
  col_pos : 0 ≤ rows ∧ 0 < h
}.

Lemma last_slice_elems a rows tp h r : columns a rows tp h → 0 ≤ r < tp →
  elems (last_slice (r * h) ((r + 1) * h) a) =
    (λ i, elems a !!! Z.to_nat (i / h * (tp * h) + (r * h + i mod h))) <$> zrange (rows * h).
Proof.
  intros [Hrows Hdim Hel [Hr0 Hh]] Hr. unfold last_slice. cbn [elems]. rewrite Hrows, Hdim, !Z.min_l by nia.
  rewrite <- (rows_concat (λ row j, elems a !!! Z.to_nat (row * (tp * h) + (r * h + j)))) by done.
  apply list_bind_ext'. intros row Hrow%elem_of_zrange.
  replace (row * (tp * h) + (r + 1) * h) with (row * (tp * h) + r * h + h) by lia.
  assert (row * (tp * h) + tp * h ≤ rows * (tp * h)) by nia. assert (r * h + h ≤ tp * h) by nia.
  assert (0 ≤ row * (tp * h)) by nia. assert (0 ≤ r * h) by nia.
  apply cells_list; [|lia..]. eapply cells_ext; [apply cells_total; lia|]. intros j Hj. simpl. do 2 f_equal. lia.
Qed.

Lemma last_slice_at a rows tp h r row c : columns a rows tp h → 0 ≤ r < tp → 0 ≤ row < rows → 0 ≤ c < h →
  elems (last_slice (r * h) ((r + 1) * h) a) !!! Z.to_nat (row * h + c) =
    elems a !!! Z.to_nat (row * (tp * h) + (r * h + c)).
Proof.
  intros Ha Hr Hrow Hc. rewrite (last_slice_elems a rows tp h r) by done.
  apply list_lookup_total_correct. rewrite list_lookup_fmap, zrange_lookup by nia. simpl. f_equal.
  by destruct (square_index h row c Hc) as [-> ->].
Qed.

Lemma last_slice_length a rows tp h r : columns a rows tp h → 0 ≤ r < tp →
  Z.of_nat (length (elems (last_slice (r * h) ((r + 1) * h) a))) = rows * h.
Proof.
  intros Ha Hr. rewrite (last_slice_elems a rows tp h r) by done. rewrite length_fmap, length_zrange.
  pose proof (col_pos _ _ _ _ Ha). nia.
Qed.

Lemma py_slice_forall {A} (P : A → Prop) lo hi xs : Forall P xs → Forall P (py_slice lo hi xs).
Proof. intros H. by apply Forall_take, Forall_drop. Qed.

Lemma last_slice_forall lo hi a (P : Z → Prop) : Forall P (elems a) → Forall P (elems (last_slice lo hi a)).
Proof.
  intros H. unfold last_slice. cbn [elems]. apply Forall_forall. intros x Hx.
  apply list_elem_of_bind in Hx as (r & Hx & _).
  eapply Forall_forall; [|exact Hx]. by apply py_slice_forall.
Qed.

(** ** Shards of quantised weights *)
Section shards.
Context {V : Type} `{num : !Numpy V}.
#[local] Existing Instance V_inhabited.
Context (w ws : Array3) (n R tp h gs r : Z).
Context (Htp : 0 ≤ r < tp) (Hh : 0 < h) (Heven : h mod 2 = 0) (Hgs : h mod gs = 0).
Context (Hq : quantised (elems w) (elems ws) n R (tp * h) gs) (Hn : 0 ≤ n).
Context (Hw : dim0 w * dim1 w = n * R ∧ dim2 w = tp * h / 2).
Context (Hws : dim0 ws * dim1 ws = n * R ∧ dim2 ws = tp * h / gs).

Definition shard (u : Z) (a : Array3) : Array3 := last_slice (r * h / u) ((r + 1) * h / u) a.

Lemma part_of u : 0 < u → h mod u = 0 → h = u * (h / u) ∧ 0 < h / u ∧
  tp * h / u = tp * (h / u) ∧ r * h / u = r * (h / u) ∧ (r + 1) * h / u = (r + 1) * (h / u).
Proof using Hh.
  intros Hu Hm. pose proof (Z.div_mod h u ltac:(lia)) as Hd. rewrite Hm, Z.add_0_r in Hd.
  assert (∀ x, x * h / u = x * (h / u)) as Hx.
  { intros x. rewrite Hd at 1. rewrite (Z.mul_comm u), Z.mul_assoc. apply Z.div_mul. lia. }
  split; [done|]. split; [nia|]. by rewrite !Hx.
Qed.

Lemma shard_columns : columns w (n * R) tp (h / 2) ∧ columns ws (n * R) tp (h / gs).
Proof using r Hh Heven Hgs Hq Hn Hw Hws.
  destruct Hq as [HR _ Hgs0 _ _ Hlw Hlws _]. destruct Hw, Hws.
  destruct (part_of 2 ltac:(lia) Heven) as (_ & ? & E2 & _). destruct (part_of gs Hgs0 Hgs) as (_ & ? & Eg & _).
  split; constructor; try congruence; try (split; [nia|done]).
Qed.

Lemma shard_quantised : quantised (elems (shard 2 w)) (elems (shard gs ws)) n R h gs.
Proof using Htp Hh Heven Hgs Hq Hn Hw Hws.
  destruct shard_columns as [Hc Hcs]. destruct Hq as [HR _ Hgs0 _ _ _ _ Hb].
  destruct (part_of 2 ltac:(lia) Heven) as (_ & _ & _ & E1 & E2).
  destruct (part_of gs Hgs0 Hgs) as (_ & _ & _ & E3 & E4).
  unfold shard. constructor; [done|lia|done..| | |by apply last_slice_forall].
  - rewrite E1, E2. by apply (last_slice_length w (n * R) tp).
  - rewrite E3, E4. by apply (last_slice_length ws (n * R) tp).
Qed.

Lemma part_index u c : 0 < u → h mod u = 0 → (r * h + c) / u = r * (h / u) + c / u.
Proof using tp Hh.
  intros Hu Hm. destruct (part_of u Hu Hm) as (Hd & _). rewrite Hd at 1.
  replace (r * (u * (h / u)) + c) with (r * (h / u) * u + c) by lia. apply Z.div_add_l. lia.
Qed.

Lemma shard_weight row c : 0 ≤ row < n * R → 0 ≤ c < h →
  weight (V := V) (elems (shard 2 w)) (elems (shard gs ws)) h gs row c =
    weight (elems w) (elems ws) (tp * h) gs row (r * h + c).
Proof using All.
  intros Hrow Hc. destruct shard_columns as [Hcw Hcs]. destruct Hq as [_ _ Hgs0 _ _ _ _ _].
  destruct (part_of 2 ltac:(lia) Heven) as (Hd2 & Hp2 & Et2 & E1 & E2).
  destruct (part_of gs Hgs0 Hgs) as (Hdg & Hpg & Etg & E3 & E4).
  unfold weight, weight_bits, shard. rewrite E1, E2, E3, E4, Et2, Etg.
  rewrite (last_slice_at w (n * R) tp), (last_slice_at ws (n * R) tp) by
    (done || (split; [apply Z.div_pos; lia|apply Z.div_lt_upper_bound; lia])).
  rewrite !part_index by (done || lia).
  replace ((r * h + c) mod 2) with (c mod 2); [done|].
  rewrite Hd2. replace (r * (2 * (h / 2)) + c) with (c + r * (h / 2) * 2) by lia. by rewrite Z.mod_add.
Qed.
End shards.

(** The partial products of the ranks add up to the product. *)
Lemma product_shards {V : Type} `{num : !Numpy V} (Hsum : exact_sums) (experts : list Z) (x : Z → V)
    (w ws : list Z) (wr wsr : Z → list Z) tp h gs R r j : 0 ≤ tp → 0 ≤ h →
  (∀ rank c, 0 ≤ rank < tp → 0 ≤ c < h →
    weight (wr rank) (wsr rank) h gs (row_expert experts r * R + j) c =
      weight w ws (tp * h) gs (row_expert experts r * R + j) (rank * h + c)) →
  over tp (λ rank, product experts (λ c, x (rank * h + c)) (wr rank) (wsr rank) h gs R r j) =
    product experts x w ws (tp * h) gs R r j.
Proof.
  intros Htp Hh Hw. unfold product. rewrite <- (over_parts Hsum tp h) by done.
  apply over_ext. intros rank Hrank. apply over_ext. intros c Hc. by rewrite Hw.
Qed.

Lemma tile_value_shift {V : Type} `{num : !Numpy V} sorted N src (base : Z → Z) off r c :
  tile_value (V := V) sorted N src (λ r, base r + off) r c = tile_value sorted N src (λ r, base r + 0) r (off + c).
Proof. unfold tile_value. case_match; [|done]. do 3 f_equal. lia. Qed.

Lemma zip_zrange {A} (f : Z → A) n : zip (zrange n) (f <$> zrange n) = (λ r, (r, f r)) <$> zrange n.
Proof. induction (zrange n) as [|i l IH]; [done|]. simpl. by f_equal. Qed.

Lemma map_result_zip {A B} (f : Z * A → result B) (g : Z → A) (h : Z → B) n :
  (∀ r, 0 ≤ r < n → f (r, g r) = Ok (h r)) → map_result f (zip (zrange n) (g <$> zrange n)) = Ok (h <$> zrange n).
Proof.
  intros Hf. apply map_result_Forall2. rewrite zip_zrange. apply Forall2_fmap, Forall_Forall2_diag, Forall_forall.
  intros r Hr%elem_of_zrange. by apply Hf.
Qed.

(** ** Tensor parallelism *)
Lemma tp_plan_inv hidden ispp tp gs plan : tp_plan hidden ispp tp gs = Ok plan →
  0 < tp ∧ hidden = tp * hidden_shard plan ∧ ispp = tp * ispp_shard plan ∧
  hidden_shard plan mod 64 = 0 ∧ ispp_shard plan mod 64 = 0 ∧
  hidden_shard plan mod gs = 0 ∧ ispp_shard plan mod gs = 0.
Proof.
  unfold tp_plan, py_mod. intros H. res_inv. repeat case_decide; simplify_eq. zbool. cbn [hidden_shard ispp_shard].
  pose proof (Z.div_mod hidden tp ltac:(lia)). pose proof (Z.div_mod ispp tp ltac:(lia)). lia.
Qed.

(** ** Experts of a range *)
Lemma py_slice_at {A} `{!Inhabited A} lo hi (xs : list A) i : 0 ≤ lo → 0 ≤ i < hi - lo → hi ≤ Z.of_nat (length xs) →
  py_slice lo hi xs !!! Z.to_nat i = xs !!! Z.to_nat (lo + i).
Proof.
  intros Hlo Hi Hhi. apply list_lookup_total_correct.
  apply (cells_slice xs lo hi (hi - lo) (λ i, xs !!! Z.to_nat (lo + i))); [apply cells_total|..]; lia.
Qed.

Section experts.
Context (w ws : Array3) (E R K gs b0 b1 : Z).
Context (Hb : 0 ≤ b0 ∧ b0 ≤ b1 ∧ b1 ≤ E).
Context (Hq : quantised (elems w) (elems ws) E R K gs).
Context (Hw : dim0 w = E ∧ dim1 w * dim2 w = R * (K / 2)).
Context (Hws : dim0 ws = E ∧ dim1 ws * dim2 ws = R * (K / gs)).

Lemma first_slice_elems : elems (first_slice b0 b1 w) = py_slice (b0 * (R * (K / 2))) (b1 * (R * (K / 2))) (elems w) ∧
  elems (first_slice b0 b1 ws) = py_slice (b0 * (R * (K / gs))) (b1 * (R * (K / gs))) (elems ws).
Proof using Hb Hw Hws.
  destruct Hw as [E0 E1], Hws as [F0 F1]. unfold first_slice. cbn [elems]. by rewrite E0, E1, F0, F1, !Z.min_l by lia.
Qed.

Lemma first_slice_bounds : 0 ≤ R * (K / 2) ∧ 0 ≤ R * (K / gs) ∧
  b1 * (R * (K / 2)) ≤ Z.of_nat (length (elems w)) ∧ b1 * (R * (K / gs)) ≤ Z.of_nat (length (elems ws)).
Proof using Hb Hq.
  destruct Hq as [HR HK Hgs0 _ _ Hlw Hlws _]. rewrite Hlw, Hlws.
  assert (0 ≤ K / 2) by (apply Z.div_pos; lia). assert (0 ≤ K / gs) by (apply Z.div_pos; lia).
  assert (0 ≤ R * (K / 2)) by nia. assert (0 ≤ R * (K / gs)) by nia. split_and!; [done|done|nia|nia].
Qed.

Lemma first_slice_quantised :
  quantised (elems (first_slice b0 b1 w)) (elems (first_slice b0 b1 ws)) (b1 - b0) R K gs.
Proof using Hb Hq Hw Hws.
  destruct first_slice_elems as [-> ->], first_slice_bounds as (? & ? & ? & ?).
  destruct Hq as [HR HK Hgs0 Heven Hg _ _ Hbytes]. constructor; try done.
  - rewrite length_py_slice by nia. lia.
  - rewrite length_py_slice by nia. lia.
  - by apply py_slice_forall.
Qed.

Lemma first_slice_weight {V : Type} `{num : !Numpy V} e j c : 0 ≤ e < b1 - b0 → 0 ≤ j < R → 0 ≤ c < K →
  weight (V := V) (elems (first_slice b0 b1 w)) (elems (first_slice b0 b1 ws)) K gs (e * R + j) c =
    weight (elems w) (elems ws) K gs ((b0 + e) * R + j) c.
Proof using Hb Hq Hw Hws.
  intros He Hj Hc. destruct first_slice_elems as [-> ->], first_slice_bounds as (? & ? & ? & ?).
  destruct (quantised_index _ _ _ _ _ _ e j c Hq ltac:(lia) Hj Hc) as (? & ? & _ & ? & ? & _).
  assert ((e + 1) * (R * (K / 2)) ≤ (b1 - b0) * (R * (K / 2))) by nia.
  assert ((e + 1) * (R * (K / gs)) ≤ (b1 - b0) * (R * (K / gs))) by nia.
  assert (0 ≤ b0 * (R * (K / 2))) by nia. assert (0 ≤ b0 * (R * (K / gs))) by nia.
  unfold weight, weight_bits. rewrite !py_slice_at by lia.
  by replace (b0 * (R * (K / 2)) + ((e * R + j) * (K / 2) + c / 2)) with (((b0 + e) * R + j) * (K / 2) + c / 2) by lia;
    replace (b0 * (R * (K / gs)) + ((e * R + j) * (K / gs) + c / gs)) with (((b0 + e) * R + j) * (K / gs) + c / gs) by lia.
Qed.
End experts.

Lemma biased_slice {V : Type} `{num : !Numpy V} (b : option (list (list V))) E W b0 b1 e j x :
  bias_shape b E W → 0 ≤ b0 → b1 ≤ E → 0 ≤ e < b1 - b0 →
  biased (py_slice b0 b1 <$> b) e j x = biased b (b0 + e) j x.
Proof.
  destruct b as [rows|]; [|done]. intros [Hl _] H0 H1 He. simpl. do 2 f_equal. apply py_slice_at; lia.
Qed.

Lemma bias_shape_slice {V : Type} (b : option (list (list V))) E W b0 b1 :
  bias_shape b E W → 0 ≤ b0 ∧ b0 ≤ b1 ∧ b1 ≤ E → bias_shape (py_slice b0 b1 <$> b) (b1 - b0) W.
Proof.
  destruct b as [rows|]; [|done]. intros [Hl Hf] Hb. split; [apply length_py_slice; lia|by apply py_slice_forall].
Qed.

Section parallel.
Context {V : Type} `{num : !Numpy V} (Hsum : exact_sums).
#[local] Existing Instance V_inhabited.
Context (a : list Z) (w : Weights) (ids : list Z) (topk_w : list V) (b13 b2 : option (list (list V))).
Context (M hidden ispp top_k E gs : Z) (ep : Epilogue V).
Let N := M * top_k.

Definition array_shape (x : Array3) (d0 d1 d2 : Z) : Prop := dim0 x = d0 ∧ dim1 x = d1 ∧ dim2 x = d2.

(** Arrays of the announced sizes. *)
Record moe_inputs : Prop := {
  inp_M : 0 < M;
  inp_top_k : 0 < top_k;
  inp_hidden : 0 < hidden;
  inp_ispp : 0 < ispp;
  inp_E : 0 ≤ E ≤ 2 ^ 31;
  inp_selections : M * top_k < 2 ^ 31;
  inp_ids : Z.of_nat (length ids) = M * top_k;
  inp_topk_w : Z.of_nat (length topk_w) = M * top_k;
  inp_a : Z.of_nat (length a) = M * hidden;
  inp_weights : weights_shape w E hidden ispp gs;
  inp_w13 : array_shape (w13 w) E (2 * ispp) (hidden / 2);
  inp_w13_scale : array_shape (w13_scale w) E (2 * ispp) (hidden / gs);
  inp_w2 : array_shape (w2 w) E hidden (ispp / 2);
  inp_w2_scale : array_shape (w2_scale w) E hidden (ispp / gs);
  inp_b13 : bias_shape b13 E (2 * ispp);
  inp_b2 : bias_shape b2 E hidden
}.
Context (Hinp : moe_inputs).

(** What a mixture of experts is: every selection that names an expert. *)
Definition moe_reference : list V :=
  mixtures a w b13 b2 hidden ispp gs ep (valid_selection ids E) (expert_of ids) topk_w M top_k.

Lemma int_cells_some (l : list Z) : int_cells (Some <$> l) = l.
Proof. unfold int_cells. rewrite <- list_fmap_compose. apply list_fmap_id. Qed.

Lemma N_length : N = Z.of_nat (length ids).
Proof using Hinp. symmetry. apply Hinp. Qed.

(** *** Tensor parallelism *)
Let sorted := sorted_rows ids N 16 (zrange E).
Let experts := sorted_blocks ids N 16 (zrange E).
Let n := Z.of_nat (length experts).

Lemma tp_covers : covers sorted experts n N E (valid_selection ids E) (expert_of ids).
Proof using Hinp.
  pose proof (aligned_covers ids N E 0 E N_length (inp_selections Hinp) (proj2 (inp_E Hinp))) as [Hl Hk Hm Hs].
  { intros i Hi Hv. apply Is_true_true, andb_true_iff in Hv. rewrite Z.leb_le, Z.ltb_lt in Hv. done. }
  fold sorted experts in Hl, Hk, Hm, Hs. fold n in Hl, Hk.
  replace ((λ e, e - 0) <$> experts) with experts in *.
  2:{ rewrite <- (list_fmap_id experts) at 1. apply list_fmap_ext. intros _ e _. simpl. lia. }
  rewrite Z.sub_0_r in Hl. constructor; [done| |done..]. intros r Hr Hv. rewrite (Hk r Hr Hv). lia.
Qed.

Lemma tp_inputs : hidden mod 64 = 0 → ispp mod 64 = 0 →
  forward_inputs a w b13 b2 hidden ispp gs sorted experts (row_weight topk_w N <$> sorted) n M top_k E.
Proof using Hinp.
  intros Hh Hi. pose proof (cov_layout _ _ _ _ _ _ _ tp_covers) as Hl.
  constructor; (apply Hinp || (split; [apply Hinp|done]) || idtac); [done|].
  rewrite length_fmap. apply Hl.
Qed.

Lemma expert_row R r j : 0 ≤ r < n * 16 → 0 ≤ j < R → 0 ≤ row_expert experts r * R + j < E * R.
Proof using Hinp.
  intros Hr Hj. pose proof (row_expert_range _ _ _ _ (cov_layout _ _ _ _ _ _ _ tp_covers) r Hr). nia.
Qed.

Section tp.
Context (tp : Z) (plan : TpPlan) (Hplan : tp_plan hidden ispp tp gs = Ok plan).
Let h := hidden_shard plan.
Let d := ispp_shard plan.

Definition tp_shard (r : Z) : Weights :=
  mk_weights (shard h r 2 (w13 w)) (shard h r gs (w13_scale w)) (shard d r 2 (w2 w)) (shard d r gs (w2_scale w)).

Lemma plan_facts : 0 < tp ∧ 0 < h ∧ 0 < d ∧ hidden = tp * h ∧ ispp = tp * d ∧
  h mod 2 = 0 ∧ d mod 2 = 0 ∧ hidden mod 64 = 0 ∧ ispp mod 64 = 0 ∧ h mod gs = 0 ∧ d mod gs = 0.
Proof using Hinp Hplan.
  destruct (tp_plan_inv _ _ _ _ _ Hplan) as (Htp & Eh & Ed & Hh & Hd & Hhg & Hdg). fold h in Eh, Hh, Hhg. fold d in Ed, Hd, Hdg.
  pose proof (inp_hidden Hinp). pose proof (inp_ispp Hinp).
  assert (∀ x, x mod 64 = 0 → x mod 2 = 0 ∧ (tp * x) mod 64 = 0) as Hx.
  { intros x Hx. apply Z.mod_divide in Hx as [y ->]; [|done]. split.
    - apply Z.mod_divide; [done|]. exists (y * 32). lia.
    - apply Z.mod_divide; [done|]. exists (tp * y). lia. }
  destruct (Hx h Hh), (Hx d Hd). rewrite Eh, Ed. split_and!; try done; nia.
Qed.

Lemma tp_shard_weights_ok : tp_shard_weights w tp gs = Ok (tp_shard <$> zrange tp).
Proof using Hinp Hplan.
  destruct (inp_w13 Hinp) as (_ & E1 & E2). pose proof (q_even _ _ _ _ _ _ (shape_13 _ _ _ _ _ (inp_weights Hinp))).
  unfold tp_shard_weights. rewrite E1, E2.
  replace (2 * (hidden / 2)) with hidden by (pose proof (Z.div_mod hidden 2 ltac:(lia)); lia).
  rewrite (Z.mul_comm 2 ispp), Z.div_mul by done. by rewrite Hplan.
Qed.

Lemma tp_quantised r : 0 ≤ r < tp →
  quantised (elems (w13 (tp_shard r))) (elems (w13_scale (tp_shard r))) E (2 * ispp) h gs ∧
  quantised (elems (w2 (tp_shard r))) (elems (w2_scale (tp_shard r))) E hidden d gs ∧
  (∀ row c, 0 ≤ row < E * (2 * ispp) → 0 ≤ c < h →
    weight (V := V) (elems (w13 (tp_shard r))) (elems (w13_scale (tp_shard r))) h gs row c =
      weight (elems (w13 w)) (elems (w13_scale w)) (tp * h) gs row (r * h + c)) ∧
  (∀ row c, 0 ≤ row < E * hidden → 0 ≤ c < d →
    weight (V := V) (elems (w2 (tp_shard r))) (elems (w2_scale (tp_shard r))) d gs row c =
      weight (elems (w2 w)) (elems (w2_scale w)) (tp * d) gs row (r * d + c)).
Proof using Hinp Hplan.
  intros Hr. destruct plan_facts as (Htp & Hh & Hd & Eh & Ed & Hh2 & Hd2 & _ & _ & Hhg & Hdg).
  destruct (inp_weights Hinp) as [H13 H2]. pose proof (inp_E Hinp) as [HE _].
  destruct (inp_w13 Hinp) as (A0 & A1 & A2), (inp_w13_scale Hinp) as (B0 & B1 & B2),
    (inp_w2 Hinp) as (C0 & C1 & C2), (inp_w2_scale Hinp) as (D0 & D1 & D2).
  rewrite Eh in H13, A2, B2. rewrite Ed in H2, C2, D2.
  assert (dim0 (w13 w) * dim1 (w13 w) = E * (2 * ispp) ∧ dim2 (w13 w) = tp * h / 2) as S1 by (split; congruence).
  assert (dim0 (w13_scale w) * dim1 (w13_scale w) = E * (2 * ispp) ∧ dim2 (w13_scale w) = tp * h / gs) as S2 by (split; congruence).
  assert (dim0 (w2 w) * dim1 (w2 w) = E * hidden ∧ dim2 (w2 w) = tp * d / 2) as S3 by (split; congruence).
  assert (dim0 (w2_scale w) * dim1 (w2_scale w) = E * hidden ∧ dim2 (w2_scale w) = tp * d / gs) as S4 by (split; congruence).
  split; [exact (shard_quantised _ _ E (2 * ispp) tp h gs r Hr Hh Hh2 Hhg H13 HE S1 S2)|].
  split; [exact (shard_quantised _ _ E hidden tp d gs r Hr Hd Hd2 Hdg H2 HE S3 S4)|].
  split; [exact (shard_weight _ _ E (2 * ispp) tp h gs r Hr Hh Hh2 Hhg H13 HE S1 S2)|].
  exact (shard_weight _ _ E hidden tp d gs r Hr Hd Hd2 Hdg H2 HE S3 S4).
Qed.

Lemma tp_gate_up :
  (partials ← map_result (λ '(rank, s),
     moe_gateup a (elems (w13 s)) (elems (w13_scale s)) sorted experts
       (replicate (Z.to_nat (n * 16 * 2 * ispp)) (np_int 0)) M hidden (rank * h) h ispp top_k (n * 16) gs)
     (zip (zrange tp) (tp_shard <$> zrange tp)); sum_arrays partials) =
  Ok ((λ i, row_gate_up a w hidden ispp gs sorted experts M top_k (i / (2 * ispp)) (i mod (2 * ispp))) <$>
        zrange (n * 16 * (2 * ispp))).
Proof using Hsum Hinp Hplan.
  destruct plan_facts as (Htp & Hh & Hd & Eh & Ed & Hh2 & Hd2 & H64 & Hi64 & Hhg & Hdg).
  pose proof (tp_inputs H64 Hi64) as Hin. pose proof (inp_ispp Hinp).
  pose proof (in_layout _ _ _ _ _ _ _ _ _ _ _ _ _ _ Hin) as Hlay.
  set (part rank r j := product experts (tile_value sorted N a (λ r, row_id sorted r / top_k * hidden + rank * h) r)
    (elems (w13 (tp_shard rank))) (elems (w13_scale (tp_shard rank))) h gs (2 * ispp) r j).
  rewrite (map_result_zip _ tp_shard (λ rank, (λ i, part rank (i / (2 * ispp)) (i mod (2 * ispp))) <$> zrange (n * 16 * (2 * ispp)))).
  2:{ intros rank Hr. destruct (tp_quantised rank Hr) as (Hq & _).
      apply (gateup_ok Hsum sorted experts n N E Hlay); [done..|].
      intros r Hrow Hv. pose proof (a_rows _ _ _ _ _ _ _ _ _ _ _ _ _ _ Hin r Hrow Hv). rewrite (inp_a Hinp).
      assert (rank * h + h ≤ hidden) by nia. assert (0 ≤ rank * h) by nia. lia. }
  cbn [mbind result_bind]. rewrite (sum_arrays_ok Hsum) by done. f_equal.
  apply (flat_ext (λ r j, over tp (λ rank, part rank r j))); [lia|]. intros r j Hr Hj.
  unfold row_gate_up.
  transitivity (product experts (tile_value sorted N a (λ r, row_id sorted r / top_k * hidden + 0) r)
    (elems (w13 w)) (elems (w13_scale w)) (tp * h) gs (2 * ispp) r j); [|by rewrite <- Eh].
  rewrite <- (product_shards Hsum experts _ _ _ (λ rank, elems (w13 (tp_shard rank))) (λ rank, elems (w13_scale (tp_shard rank)))).
  - apply over_ext. intros rank Hrank. apply over_ext. intros c Hc. unfold part. f_equal. apply tile_value_shift.
  - lia.
  - lia.
  - intros rank c Hrank Hc. destruct (tp_quantised rank Hrank) as (_ & _ & Hw & _).
    apply Hw; [by apply expert_row|done].
Qed.

Lemma tp_down act : Z.of_nat (length act) = n * 16 * ispp →
  (partials ← map_result (λ '(rank, s),
     moe_down act (elems (w2 s)) (elems (w2_scale s)) sorted experts
       (replicate (Z.to_nat (n * 16 * hidden)) (np_int 0)) M ispp (rank * d) d hidden top_k (n * 16) gs)
     (zip (zrange tp) (tp_shard <$> zrange tp)); sum_arrays partials) =
  Ok ((λ i, row_down w hidden ispp gs sorted experts M top_k act (i / hidden) (i mod hidden)) <$>
        zrange (n * 16 * hidden)).
Proof using Hsum Hinp Hplan.
  intros Hact. destruct plan_facts as (Htp & Hh & Hd & Eh & Ed & Hh2 & Hd2 & H64 & Hi64 & Hhg & Hdg).
  pose proof (inp_hidden Hinp). pose proof (cov_layout _ _ _ _ _ _ _ tp_covers) as Hlay.
  pose proof (blocks_nonneg _ _ _ _ Hlay).
  set (part rank r j := product experts (tile_value sorted N act (λ r, r * ispp + rank * d) r)
    (elems (w2 (tp_shard rank))) (elems (w2_scale (tp_shard rank))) d gs hidden r j).
  rewrite (map_result_zip _ tp_shard (λ rank, (λ i, part rank (i / hidden) (i mod hidden)) <$> zrange (n * 16 * hidden))).
  2:{ intros rank Hr. destruct (tp_quantised rank Hr) as (_ & Hq & _).
      assert (rank * d + d ≤ ispp) by nia. assert (0 ≤ rank * d) by nia.
      apply (down_ok Hsum sorted experts n N E Hlay); [done..|rewrite length_replicate; nia]. }
  cbn [mbind result_bind]. rewrite (sum_arrays_ok Hsum) by done. f_equal.
  apply (flat_ext (λ r j, over tp (λ rank, part rank r j))); [lia|]. intros r j Hr Hj.
  unfold row_down.
  transitivity (product experts (tile_value sorted N act (λ r, r * ispp + 0) r)
    (elems (w2 w)) (elems (w2_scale w)) (tp * d) gs hidden r j); [|by rewrite <- Ed].
  rewrite <- (product_shards Hsum experts _ _ _ (λ rank, elems (w2 (tp_shard rank))) (λ rank, elems (w2_scale (tp_shard rank)))).
  - apply over_ext. intros rank Hrank. apply over_ext. intros c Hc. unfold part. f_equal. apply tile_value_shift.
  - lia.
  - lia.
  - intros rank c Hrank Hc. destruct (tp_quantised rank Hrank) as (_ & _ & _ & Hw).
    apply Hw; [by apply expert_row|done].
Qed.

Lemma result_bind_assoc {A B C} (m : result A) (f : A → result B) (g : B → result C) :
  (x ← m; y ← f x; g y) = (y ← (x ← m; f x); g y).
Proof. by destruct m. Qed.

Lemma dist_moe_tp_ok empty : is_key ep "swiglu" || is_key ep "situ" = true →
  (∀ k, 0 ≤ k → Z.of_nat (length (empty k)) = k) →
  dist_moe_tp (M, hidden, a) w (M, top_k, ids) topk_w b13 b2 top_k tp gs 16 ep empty =
    Ok (replicate (Z.to_nat tp) moe_reference).
Proof using Hsum Hinp Hplan.
  intros Hkey Hempty. destruct plan_facts as (Htp & Hh & Hd & Eh & Ed & Hh2 & Hd2 & H64 & Hi64 & Hhg & Hdg).
  pose proof (tp_inputs H64 Hi64) as Hin. pose proof (inp_ispp Hinp).
  destruct (inp_w13 Hinp) as (E0 & E1 & _).
  pose proof (lay_rows _ _ _ _ (cov_layout _ _ _ _ _ _ _ tp_covers)) as Hrows.
  unfold dist_moe_tp. rewrite E0, E1, (Z.mul_comm 2 ispp), Z.div_mul, Z.eqb_refl, Hplan by done. cbn [require mbind result_bind].
  rewrite (moe_align_result ids N 16 E eq_refl N_length (inp_selections Hinp) (proj2 (inp_E Hinp)) M top_k eq_refl).
  cbn [mbind result_bind]. fold sorted experts. rewrite !int_cells_some, Hrows.
  rewrite sort_weights_ok; [|pose proof (inp_M Hinp); pose proof (inp_top_k Hinp); nia|apply Hinp|apply (cov_layout _ _ _ _ _ _ _ tp_covers)].
  cbn [mbind result_bind]. rewrite Hkey. cbn [require mbind result_bind]. rewrite tp_shard_weights_ok. cbn [mbind result_bind].
  fold h d. rewrite result_bind_assoc, tp_gate_up. cbn [mbind result_bind].
  pose proof (blocks_nonneg _ _ _ _ (cov_layout _ _ _ _ _ _ _ tp_covers)).
  destruct (act_rows _ _ _ _ _ _ _ ep _ _ _ _ _ _ _ Hin (empty (n * 16 * ispp))) as (act & -> & Hact); [apply Hempty; nia|].
  cbn [mbind result_bind]. rewrite result_bind_assoc, tp_down by apply Hact. cbn [mbind result_bind].
  rewrite (combine_rows Hsum _ _ _ _ _ _ _ ep _ _ _ _ _ _ _ Hin) by done. cbn [mbind result_bind]. do 2 f_equal.
  apply (rows_combined_mixtures Hsum) with (E := E); [apply tp_covers|apply Hinp|apply Hinp|pose proof (inp_M Hinp); lia].
Qed.
End tp.

(** *** Expert parallelism *)
Section ep.
Context (p : Z) (Hp : 0 < p) (Hfit : p ≤ E) (H64 : hidden mod 64 = 0) (Hi64 : ispp mod 64 = 0).
Let begin := range_begin E p.

Definition rank_weights (r : Z) : Weights :=
  mk_weights (first_slice (begin r) (begin (r + 1)) (w13 w)) (first_slice (begin r) (begin (r + 1)) (w13_scale w))
             (first_slice (begin r) (begin (r + 1)) (w2 w)) (first_slice (begin r) (begin (r + 1)) (w2_scale w)).
Definition rank_bias (b : option (list (list V))) (r : Z) : option (list (list V)) :=
  py_slice (begin r) (begin (r + 1)) <$> b.
Definition owns (r i : Z) : bool :=
  (begin r <=? expert_of ids i) && (expert_of ids i <? begin (r + 1)) && valid_selection ids E i.

Lemma begin_bounds r : 0 ≤ r < p → 0 ≤ begin r ∧ begin r ≤ begin (r + 1) ∧ begin (r + 1) ≤ E.
Proof using Hinp Hp Hfit.
  intros Hr. unfold begin. destruct (range_ends E p Hp Hfit) as [E0 E1].
  pose proof (range_mono E p Hp Hfit 0 r). pose proof (range_mono E p Hp Hfit r (r + 1)).
  pose proof (range_mono E p Hp Hfit (r + 1) p). lia.
Qed.

Lemma rank_ranges r : 0 ≤ r < p → 
  quantised (elems (w13 (rank_weights r))) (elems (w13_scale (rank_weights r))) (begin (r + 1) - begin r) (2 * ispp) hidden gs ∧
  quantised (elems (w2 (rank_weights r))) (elems (w2_scale (rank_weights r))) (begin (r + 1) - begin r) hidden ispp gs ∧
  ∀ e token j, 0 ≤ e < begin (r + 1) - begin r → 0 ≤ j < hidden →
    expert_out a (rank_weights r) (rank_bias b13 r) (rank_bias b2 r) hidden ispp gs ep e token j =
      expert_out a w b13 b2 hidden ispp gs ep (begin r + e) token j.
Proof using Hinp Hp Hfit.
  intros Hr. pose proof (begin_bounds r Hr) as Hb. destruct (inp_weights Hinp) as [H13 H2].
  destruct (inp_w13 Hinp) as (A0 & A1 & A2), (inp_w13_scale Hinp) as (B0 & B1 & B2),
    (inp_w2 Hinp) as (C0 & C1 & C2), (inp_w2_scale Hinp) as (D0 & D1 & D2).
  assert (dim0 (w13 w) = E ∧ dim1 (w13 w) * dim2 (w13 w) = 2 * ispp * (hidden / 2)) as S1 by (split; congruence).
  assert (dim0 (w13_scale w) = E ∧ dim1 (w13_scale w) * dim2 (w13_scale w) = 2 * ispp * (hidden / gs)) as S2 by (split; congruence).
  assert (dim0 (w2 w) = E ∧ dim1 (w2 w) * dim2 (w2 w) = hidden * (ispp / 2)) as S3 by (split; congruence).
  assert (dim0 (w2_scale w) = E ∧ dim1 (w2_scale w) * dim2 (w2_scale w) = hidden * (ispp / gs)) as S4 by (split; congruence).
  split; [exact (first_slice_quantised _ _ E (2 * ispp) hidden gs _ _ Hb H13 S1 S2)|].
  split; [exact (first_slice_quantised _ _ E hidden ispp gs _ _ Hb H2 S3 S4)|].
  intros e token j He Hj.
  assert (∀ j, 0 ≤ j < 2 * ispp → gate_up_at (V := V) a (rank_weights r) hidden ispp gs e token j =
    gate_up_at a w hidden ispp gs (begin r + e) token j) as Hg.
  { intros j' Hj'. apply over_ext. intros k Hk. f_equal.
    exact (first_slice_weight _ _ E (2 * ispp) hidden gs _ _ Hb H13 S1 S2 e j' k He Hj' Hk). }
  unfold expert_out, rank_bias. rewrite (biased_slice _ E hidden) by (apply Hinp || lia).
  f_equal. apply over_ext. intros k Hk. f_equal.
  - unfold act_at, rank_bias. by rewrite !(biased_slice _ E (2 * ispp)), !Hg by (apply Hinp || lia).
  - exact (first_slice_weight _ _ E hidden ispp gs _ _ Hb H2 S3 S4 e j k He Hj Hk).
Qed.

Section rank.
Context (r : Z) (Hr : 0 ≤ r < p).
Let plan := mk_ep p r (begin r) (begin (r + 1)) (begin (r + 1) - begin r).
Let masked := mask_ids plan ids.
Let rsorted := sorted_rows masked N 16 (zrange E).
Let rexperts := sorted_blocks masked N 16 (zrange E).
Let rn := Z.of_nat (length rexperts).

Lemma masked_length : N = Z.of_nat (length masked).
Proof using Hinp. unfold masked, mask_ids. rewrite length_fmap. apply N_length. Qed.

Lemma masked_valid i : 0 ≤ i < N →
  valid_selection masked E i = owns r i ∧ (owns r i = true → expert_of masked i = expert_of ids i).
Proof using Hinp Hp Hfit Hr.
  intros Hi. pose proof (begin_bounds r Hr) as Hb. unfold owns, valid_selection.
  assert (expert_of masked i = _) as -> by (apply expert_of_mask; rewrite <- N_length; done).
  unfold plan. cbn [expert_begin expert_end]. rewrite Z.geb_leb.
  destruct (begin r <=? expert_of ids i) eqn:E1, (expert_of ids i <? begin (r + 1)) eqn:E2; done.
Qed.

Lemma masked_range i : 0 ≤ i < N → valid_selection masked E i → begin r ≤ expert_of masked i < begin (r + 1).
Proof using Hinp Hp Hfit Hr.
  intros Hi Hv. destruct (masked_valid i Hi) as [Ho He]. rewrite Ho in Hv. apply Is_true_true in Hv.
  rewrite He by done. unfold owns in Hv. zbool. done.
Qed.

Lemma rank_covers :
  covers rsorted ((λ e, e - begin r) <$> rexperts) rn N (begin (r + 1) - begin r)
    (valid_selection masked E) (λ i, expert_of masked i - begin r).
Proof using Hinp Hp Hfit Hr.
  apply (aligned_covers masked N E (begin r) (begin (r + 1)) masked_length (inp_selections Hinp) (proj2 (inp_E Hinp))).
  apply masked_range.
Qed.

Lemma rank_inputs :
  forward_inputs a (rank_weights r) (rank_bias b13 r) (rank_bias b2 r) hidden ispp gs rsorted
    ((λ e, e - begin r) <$> rexperts) (row_weight topk_w N <$> rsorted) rn M top_k (begin (r + 1) - begin r).
Proof using ep Hinp Hp Hfit H64 Hi64 Hr.
  pose proof (cov_layout _ _ _ _ _ _ _ rank_covers) as Hl. pose proof (begin_bounds r Hr) as Hb.
  destruct (rank_ranges r Hr) as (Hq1 & Hq2 & _).
  constructor; try (apply Hinp); try (split; [apply Hinp|done]); try done.
  - by apply (bias_shape_slice b13 E); [apply Hinp|].
  - by apply (bias_shape_slice b2 E); [apply Hinp|].
  - rewrite length_fmap. apply Hl.
Qed.

(** A rank adds the selections whose experts it owns. *)
Definition rank_out (token j : Z) : V :=
  mixture a w b13 b2 hidden ispp gs ep (owns r) (expert_of ids) topk_w top_k token j.

Lemma rank_mixtures :
  mixtures a (rank_weights r) (rank_bias b13 r) (rank_bias b2 r) hidden ispp gs ep (valid_selection masked E)
      (λ i, expert_of masked i - begin r) topk_w M top_k =
    (λ i, rank_out (i / hidden) (i mod hidden)) <$> zrange (M * hidden).
Proof using Hinp Hp Hfit Hr.
  pose proof (inp_hidden Hinp). pose proof (inp_top_k Hinp).
  apply (flat_ext (λ token j, mixture a (rank_weights r) (rank_bias b13 r) (rank_bias b2 r) hidden ispp gs ep
    (valid_selection masked E) (λ i, expert_of masked i - begin r) topk_w top_k token j)); [done|].
  intros token j Htok Hj. apply over_ext. intros s Hs. cbv zeta. set (i := token * top_k + s).
  assert (0 ≤ i < N) as Hi by (unfold i, N; nia).
  destruct (masked_valid i Hi) as [-> He]. destruct (owns r i) eqn:Ho; [|done]. rewrite He by done. f_equal.
  unfold owns in Ho. zbool. destruct (rank_ranges r Hr) as (_ & _ & Hout). rewrite Hout by lia. f_equal. lia.
Qed.

Lemma localize_some (l : list Z) : Forall (λ e, 0 ≤ e) l →
  int_cells (localize plan (Some <$> l)) = (λ e, e - begin r) <$> l.
Proof.
  intros Hl. unfold localize. rewrite <- list_fmap_compose. rewrite <- int_cells_some. f_equal.
  rewrite <- list_fmap_compose. apply list_fmap_ext. intros k e He. rewrite Forall_lookup in Hl. specialize (Hl _ _ He).
  simpl. by rewrite Z.geb_leb, (proj2 (Z.leb_le _ _)).
Qed.

Lemma rank_forward_ok empty : (∀ k, 0 ≤ k → Z.of_nat (length (empty k)) = k) →
  (plan ← ep_plan E p r;
   '(sorted_ids, expert_ids, EM) ← ep_dispatch ids M top_k plan E 16;
   let sorted_ids := int_cells sorted_ids in
   let expert_ids := int_cells expert_ids in
   sorted_w ← sort_weights topk_w sorted_ids (M * top_k);
   let b0 := expert_begin plan in
   let b1 := expert_end plan in
   let rows (b : list (list V)) := py_slice b0 b1 b in
   moe_local_forward a
     (mk_weights (first_slice b0 b1 (w13 w)) (first_slice b0 b1 (w13_scale w))
                 (first_slice b0 b1 (w2 w)) (first_slice b0 b1 (w2_scale w)))
     sorted_ids sorted_w expert_ids (replicate (Z.to_nat (M * hidden)) (np_int 0)) EM
     M hidden ispp top_k gs ep (rows <$> b13) (rows <$> b2) empty) =
  Ok ((λ i, rank_out (i / hidden) (i mod hidden)) <$> zrange (M * hidden)).
Proof using Hsum Hinp Hp Hfit H64 Hi64 Hr.
  intros Hempty. pose proof rank_covers as Hcov. pose proof (cov_layout _ _ _ _ _ _ _ Hcov) as Hl.
  pose proof (inp_M Hinp). pose proof (inp_top_k Hinp).
  rewrite (ep_plan_ok E p Hp Hfit r Hr). cbn [mbind result_bind]. fold begin plan. unfold ep_dispatch. fold masked.
  rewrite (moe_align_result masked N 16 E eq_refl masked_length (inp_selections Hinp) (proj2 (inp_E Hinp)) M top_k eq_refl).
  cbn [mbind result_bind]. cbv zeta. fold rsorted rexperts. rewrite int_cells_some, localize_some.
  2:{ apply Forall_forall. intros e He. apply (block_used masked N E (begin r) (begin (r + 1))) in He; 
      [lia|apply masked_length|apply Hinp|apply Hinp|apply masked_range]. }
  rewrite sort_weights_ok; [|nia|apply Hinp|apply Hl]. cbn [mbind result_bind]. rewrite (lay_rows _ _ _ _ Hl).
  unfold plan. cbn [expert_begin expert_end]. fold (rank_bias b13 r) (rank_bias b2 r) (rank_weights r).
  rewrite (local_forward_ok Hsum _ _ _ _ _ _ _ _ _ _ _ _ _ _ _ rank_inputs) by done. f_equal.
  rewrite <- rank_mixtures. apply (rows_combined_mixtures Hsum _ _ _ _ _ _ _ _ _ _ _ _ _ _ _ _ _ Hcov); [done|apply Hinp|lia].
Qed.
End rank.

(** Every selection that names an expert has one owner. *)
Lemma one_owner i : 0 ≤ i < N → valid_selection ids E i = true →
  ∃ r, 0 ≤ r < p ∧ owns r i = true ∧ ∀ r', 0 ≤ r' < p → r' ≠ r → owns r' i = false.
Proof using Hp Hfit.
  intros Hi Hv. pose proof Hv as Hv'. unfold valid_selection in Hv'. zbool.
  destruct (range_owner E p Hp Hfit (expert_of ids i)) as (r & Hr & Hbe & Huniq); [done|].
  exists r. split; [done|]. unfold owns. rewrite Hv. split.
  - unfold begin. by rewrite (proj2 (Z.leb_le _ _)), (proj2 (Z.ltb_lt _ _)) by lia.
  - intros r' Hr' Hne. rewrite andb_true_r. apply not_true_iff_false. rewrite andb_true_iff, Z.leb_le, Z.ltb_lt.
    intros Hbe'. apply Hne. by apply Huniq.
Qed.

Lemma owned_once (x : Z → V) i : 0 ≤ i < N →
  over p (λ r, if owns r i then x i else np_int 0) = if valid_selection ids E i then x i else np_int 0.
Proof using Hsum Hp Hfit.
  intros Hi. destruct (valid_selection ids E i) eqn:Hv.
  - destruct (one_owner i Hi Hv) as (r & Hr & Ho & Huniq).
    rewrite (over_update Hsum p (λ _, np_int 0) _ r); [|done|done|].
    + rewrite (over_zero Hsum p (λ _, np_int 0)), (sum_zero Hsum), Ho by (done || lia). done.
    + intros r' Hr' Hne. by rewrite Huniq.
  - apply (over_zero Hsum); [lia|]. intros r Hr. unfold owns. by rewrite Hv, andb_false_r.
Qed.

Lemma dist_moe_ep_ok empty : (∀ r k, 0 ≤ k → Z.of_nat (length (empty r k)) = k) →
  dist_moe_ep (M, hidden, a) w (M, top_k, ids) topk_w b13 b2 top_k p gs 16 ep empty =
    Ok ((λ r, (λ i, rank_out r (i / hidden) (i mod hidden)) <$> zrange (M * hidden)) <$> zrange p).
Proof using Hsum Hinp Hp Hfit H64 Hi64.
  intros Hempty. destruct (inp_w13 Hinp) as (E0 & E1 & _). pose proof (inp_ispp Hinp).
  unfold dist_moe_ep. rewrite E0, E1, (Z.mul_comm 2 ispp), Z.div_mul, (proj2 (Z.leb_gt p 0)) by done.
  cbn [negb require mbind result_bind].
  apply map_zrange_ok. intros r Hr. exact (rank_forward_ok r Hr (empty r) (Hempty r)).
Qed.

Lemma ranks_sum :
  sum_arrays ((λ r, (λ i, rank_out r (i / hidden) (i mod hidden)) <$> zrange (M * hidden)) <$> zrange p) =
    Ok moe_reference.
Proof using Hsum Hinp Hp Hfit.
  pose proof (inp_hidden Hinp). pose proof (inp_top_k Hinp).
  rewrite (sum_arrays_ok Hsum) by done. f_equal.
  apply (flat_ext (λ token j, over p (λ r, rank_out r token j))); [done|]. intros token j Htok Hj.
  unfold rank_out, mixture. rewrite (over_swap Hsum) by lia. apply over_ext. intros s Hs. cbv zeta.
  rewrite (owned_once (λ i, np_mul (expert_out a w b13 b2 hidden ispp gs ep (expert_of ids i) token j) (topk_w !!! Z.to_nat i)));
    [done|unfold N; nia].
Qed.
End ep.
End parallel.

(** C6. The tensor-parallel and the expert-parallel forward pass refine one
    mixture of experts.  For arrays of the announced sizes, blocks of 16 rows
    and sums without
    rounding: whenever [tp_plan] accepts the number of ranks, [dist_moe_tp]
    returns on every rank the reference mixture, in which each token gets, for
    each of its selections that names an expert, that expert's output for the
    token times its routing weight; and when [hidden] and [ispp] are multiples
    of 64, for any number of ranks up to the
    number of experts [dist_moe_ep] returns one array per rank and the arrays
    add up to the same mixture.  What [np.empty] holds does not matter.  (The
    conditions are needed: see [block_size_ignored], [narrow_columns_dropped].) *)
Theorem dist_moe_refines_mixture {V : Type} `{num : !Numpy V} (a : list Z) (w : Weights) (ids : list Z)
    (topk_w : list V) (b13 b2 : option (list (list V))) (M hidden ispp top_k E gs : Z) (ep : Epilogue V) :
  exact_sums → moe_inputs a w ids topk_w b13 b2 M hidden ispp top_k E gs →
  let reference := moe_reference a w ids topk_w b13 b2 M hidden ispp top_k E gs ep in
  (∀ tp plan empty, tp_plan hidden ispp tp gs = Ok plan → is_key ep "swiglu" || is_key ep "situ" = true →
     (∀ k, 0 ≤ k → Z.of_nat (length (empty k)) = k) →
     dist_moe_tp (M, hidden, a) w (M, top_k, ids) topk_w b13 b2 top_k tp gs 16 ep empty =
       Ok (replicate (Z.to_nat tp) reference)) ∧
  (∀ p empty, 0 < p ≤ E → hidden mod 64 = 0 → ispp mod 64 = 0 →
     (∀ r k, 0 ≤ k → Z.of_nat (length (empty r k)) = k) →
     ∃ outs, dist_moe_ep (M, hidden, a) w (M, top_k, ids) topk_w b13 b2 top_k p gs 16 ep empty = Ok outs ∧
       Z.of_nat (length outs) = p ∧ sum_arrays outs = Ok reference).
Proof.
  intros Hsum Hinp reference. split.
  - intros tp plan empty Hplan Hkey Hempty. by apply (dist_moe_tp_ok Hsum) with (plan := plan).
  - intros p empty [Hp Hfit] H64 Hi64 Hempty. eexists. split; [by apply (dist_moe_ep_ok Hsum)|]. split.
    + rewrite length_fmap, length_zrange. lia.
    + by apply (ranks_sum Hsum).
Qed.

(** Two tokens, two selections each, three experts; one selection names no
    expert.  Two ranks split 128 columns, or own two experts and one. *)
Definition constant_array (d0 d1 d2 x : Z) : Array3 := mk_array3 d0 d1 d2 (replicate (Z.to_nat (d0 * d1 * d2)) x).
Definition ex_weights : Weights :=
  mk_weights (constant_array 3 256 64 34) (constant_array 3 256 4 127)
             (constant_array 3 128 64 34) (constant_array 3 128 4 127).
Definition ex_ids : list Z := [2; 0; 0; 7].
Definition ex_activations : list Z := zrange 256.
Definition ex_bias : option (list (list Z)) := Some (replicate 3 (replicate (Z.to_nat 128) 1)).
Definition ex_epilogue : Epilogue Z := mk_epilogue "SwiGLU" 7 4 25.

Lemma ex_exact_sums : exact_sums (num := ex_numpy).
Proof. constructor; simpl; intros; first [lia|done]. Qed.

Lemma constant_quantised n R K gs x y : 0 ≤ n → 0 ≤ R → 0 ≤ K → 0 < gs → K mod 2 = 0 → K mod gs = 0 → 0 ≤ x < 256 →
  quantised (elems (constant_array n R (K / 2) x)) (elems (constant_array n R (K / gs) y)) n R K gs.
Proof.
  intros Hn HR HK Hgs H2 Hg Hx. assert (0 ≤ K / 2) by (apply Z.div_pos; lia). assert (0 ≤ K / gs) by (apply Z.div_pos; lia).
  constructor; try done; cbn [constant_array elems]; [rewrite length_replicate; nia..|by apply Forall_replicate].
Qed.

Lemma ex_moe_inputs : moe_inputs ex_activations ex_weights ex_ids [1; 2; 3; 4] None ex_bias 2 128 128 2 3 32.
Proof.
  constructor; [lia|lia|lia|lia|lia|lia|done|done|done| |done|done|done|done|done| ].
  - split; [by apply (constant_quantised 3 256 128 32 34 127)|by apply (constant_quantised 3 128 128 32 34 127)].
  - split; [done|]. apply Forall_replicate. by rewrite length_replicate.
Qed.

Example dist_moe_refines_mixture_witness :
  ∃ reference outs,
    dist_moe_tp (num := ex_numpy) (2, 128, ex_activations) ex_weights (2, 2, ex_ids) [1; 2; 3; 4] None ex_bias 2 2 32 16
      ex_epilogue (λ k, replicate (Z.to_nat k) 7) = Ok [reference; reference] ∧
    dist_moe_ep (num := ex_numpy) (2, 128, ex_activations) ex_weights (2, 2, ex_ids) [1; 2; 3; 4] None ex_bias 2 2 32 16
      ex_epilogue (λ r k, replicate (Z.to_nat k) r) = Ok outs ∧
    Z.of_nat (length outs) = 2 ∧ sum_arrays (num := ex_numpy) outs = Ok reference.
Proof.
  destruct (dist_moe_refines_mixture (num := ex_numpy) ex_activations ex_weights ex_ids [1; 2; 3; 4] None ex_bias
    2 128 128 2 3 32 ex_epilogue ex_exact_sums ex_moe_inputs) as [Htp Hep].
  destruct (Hep 2 (λ r k, replicate (Z.to_nat k) r)) as (outs & Eouts & Hlen & Hsum);
    [lia|done|done|intros r k Hk; rewrite length_replicate; lia|].
  eexists _, outs. split; [|split; [exact Eouts|split; [exact Hlen|exact Hsum]]].
  apply (Htp 2 (mk_tp 64 64 8192 512 4096 256)); [done|done|]. intros k Hk. rewrite length_replicate. lia.
Defined.

(** ** Sizes that the loops do not fit *)

(** The stages walk blocks of 16 rows whatever [block_size] is: with 32 the
    second half of a block has no entry in [expert_ids]. *)
Example block_size_ignored :
  dist_moe_ep (num := ex_numpy) (1, 2, [3; 5]) (mk_weights (mk_array3 1 128 1 (replicate 128 34)) (mk_array3 1 128 1 (replicate 128 127))
      (mk_array3 1 2 32 (replicate 64 34)) (mk_array3 1 2 32 (replicate 64 127))) (1, 1, [0]) [1] None None 1 1 2 32
    ex_epilogue (λ _ k, replicate (Z.to_nat k) 0) = Err (IndexError "index out of range").
Proof. vm_compute. reflexivity. Qed.

(** [dist_moe_ep] does not ask for multiples of 64: the columns of an
    incomplete tile stay zero. *)
Definition narrow_weights : Weights :=
  mk_weights (mk_array3 1 4 1 (replicate 4 34)) (mk_array3 1 4 1 (replicate 4 127))
             (mk_array3 1 2 1 (replicate 2 34)) (mk_array3 1 2 1 (replicate 2 127)).
Example narrow_columns_dropped :
  dist_moe_ep (num := ex_numpy) (1, 2, [3; 5]) narrow_weights (1, 1, [0]) [1] None (Some [[1; 1]]) 1 1 2 16
    ex_epilogue (λ _ k, replicate (Z.to_nat k) 0) = Ok [[0; 0]] ∧
  moe_reference (num := ex_numpy) [3; 5] narrow_weights [0] [1] None (Some [[1; 1]]) 1 2 2 1 1 2 ex_epilogue ≠ [0; 0].
Proof. split; vm_compute; done. Qed.
