(* ===== verification/FusedMoe.v ===== *)
(** * The fused mixture of experts

    [fused_moe_mxfp4] of [_fallback.py] with the checks of [kernels.py]: one
    rank, quantised weights decoded tile by tile, scalar loops.  Arrays are flat
    lists; numpy scalars and Python floats are values of the class [Numpy], the
    conversions between them [np_astype]. *)

From S2P Require Import Prelude PyText FlatArrays Arrays HostNumerics DistMoe.
Local Open Scope Z_scope.

Section fused.
Context {V : Type} `{num : !Numpy V}.

(** ** Number formats *)
Definition FP4_NIBBLE_VALUES : list V := np_of_f32_bits <$>
  [0; 0x3E800000; 0x3F800000; 0x3FC00000; 0x40000000; 0x40400000; 0x7F800000; 0x7FC00000;
   0x80000000; 0xBE800000; 0xBF800000; 0xBFC00000; 0xC0000000; 0xC0400000; 0xFF800000; 0x7FC00000].

Definition ue8m0_value (s : Z) : V := np_of_f32_bits (ue8m0_bits s).
Definition bf16_to_float (bits : Z) : V := np_of_f32_bits (Z.shiftl bits 16).
Definition float_to_bf16_bits (f : V) : Z :=
  let bits := np_f32_bits (np_astype float32 f) in
  let lsb := Z.land (Z.shiftr bits 16) 1 in
  let bits := Z.land (bits + 32767 + lsb) 0xFFFFFFFF in
  Z.land (Z.shiftr bits 16) 65535.

(** The columns of the array [out[K, N]]. *)
Definition dequant_weight_tile (packed scale : list Z)
    (p_base s_base N K group_size stride_packed stride_scale_n : Z) : result (list (list Z)) :=
  map_result (λ n,
    pairs ← map_result (λ kp,
      pb ← py_index packed (Z.to_nat (p_base + n * stride_packed + kp));
      gi ← py_floordiv (kp * 2) group_size;
      sc ← py_index scale (Z.to_nat (s_base + n * stride_scale_n + gi));
      lo ← py_index FP4_NIBBLE_VALUES (Z.to_nat (Z.land pb 15));
      hi ← py_index FP4_NIBBLE_VALUES (Z.to_nat (Z.land (Z.shiftr pb 4) 15));
      let s := ue8m0_value sc in
      Ok [float_to_bf16_bits (np_astype float64 (np_mul (np_astype float32 lo) s));
          float_to_bf16_bits (np_astype float64 (np_mul (np_astype float32 hi) s))]) (zrange (K / 2));
    Ok (mjoin (pairs : list (list Z)))) (zrange N).

(** ** Tiles *)

(** [xs[i] = v] *)
Definition item_set {A} (xs : list A) (i : Z) (v : A) : result (list A) :=
  _ ← require (i <? Z.of_nat (length xs)) (IndexError "index out of bounds");
  Ok (<[Z.to_nat i := v]> xs).

(** 16 rows of 64 activations, zeros for padding; [base] of the row and its id. *)
Definition tile_A (N : Z) (src sorted_ids : list Z) (token_base : Z) (base : Z → Z → Z) : result (list (list Z)) :=
  map_result (λ m,
    flat ← py_index sorted_ids (Z.to_nat (token_base + m));
    if flat <? N then
      let row := py_slice (base (token_base + m) flat) (base (token_base + m) flat + 64) src in
      _ ← require (Z.of_nat (length row) =? 64) (ValueError "could not broadcast input array");
      Ok row
    else Ok (replicate 64 0)) (zrange 16).

(** [np.float32(d + np.float32(a * w))] *)
Definition mac (d a w : V) : V := np_astype float32 (np_add d (np_astype float32 (np_mul a w))).

(** [acc[m, n] = np.float32(acc[m, n] + d)] *)
Definition acc_add (acc : list V) (m n : Z) (d : V) : result (list V) :=
  x ← py_index acc (Z.to_nat (m * 64 + n));
  item_set acc (m * 64 + n) (np_astype float32 (np_add x d)).

Definition dot2 (row g u : list Z) : result (V * V) :=
  fold_result (λ '(dg, du) k,
    a ← py_index row (Z.to_nat k);
    wg ← py_index g (Z.to_nat k);
    wu ← py_index u (Z.to_nat k);
    Ok (mac dg (bf16_to_float a) (bf16_to_float wg), mac du (bf16_to_float a) (bf16_to_float wu)))
    (np_int 0, np_int 0) (zrange 64).

Definition accumulate2 (tA tile_gate tile_up : list (list Z)) (accs : list V * list V) : result (list V * list V) :=
  fold_result (λ accs m,
    row ← py_index tA (Z.to_nat m);
    fold_result (λ '(acc_gate, acc_up) n,
      g ← py_index tile_gate (Z.to_nat n);
      u ← py_index tile_up (Z.to_nat n);
      '(dg, du) ← dot2 row g u;
      acc_gate ← acc_add acc_gate m n dg;
      acc_up ← acc_add acc_up m n du;
      Ok (acc_gate, acc_up)) accs (zrange 64)) accs (zrange 16).

Definition dot1 (row w : list Z) : result V :=
  fold_result (λ d k,
    a ← py_index row (Z.to_nat k);
    b ← py_index w (Z.to_nat k);
    Ok (mac d (bf16_to_float a) (bf16_to_float b))) (np_int 0) (zrange 64).

Definition accumulate1 (tA tile : list (list Z)) (acc : list V) : result (list V) :=
  fold_result (λ acc m,
    row ← py_index tA (Z.to_nat m);
    fold_result (λ acc n,
      w ← py_index tile (Z.to_nat n);
      d ← dot1 row w;
      acc_add acc m n d) acc (zrange 64)) acc (zrange 16).

(** ** Epilogues *)
Definition add_flat_bias (b : option (list V)) (i : Z) (x : V) : result V :=
  match b with
  | None => Ok x
  | Some l => v ← py_index l (Z.to_nat i); Ok (np_add x (np_astype float64 v))
  end.

(** Python's [min]. *)
Definition py_min (x y : V) : V := if np_lt y x then y else x.

Record Activation : Type := mk_activation {
  act_tag : Z;
  limit : V;
  situ_beta : V;
  situ_linear_beta : V
}.

Definition fused_value (p : Activation) (g u : V) : V :=
  let one := np_int 1 in
  if act_tag p =? 1 then
    let sig := np_div one (np_add one (np_exp (np_negative g))) in
    let gate_out := np_mul (np_mul (situ_beta p) (np_tanh (np_div g (situ_beta p)))) sig in
    let up_out := if np_lt (np_int 0) (situ_linear_beta p)
                  then np_mul (situ_linear_beta p) (np_tanh (np_div u (situ_linear_beta p))) else u in
    np_mul gate_out up_out
  else
    let clamp := np_lt (np_int 0) (limit p) in
    let g := if clamp then py_min g (limit p) else g in
    let u := if clamp then np_negative (py_min (np_negative (py_min u (limit p))) (limit p)) else u in
    np_mul (np_div g (np_add one (np_exp (np_negative g)))) u.

(** ** The two stages *)
Definition fused_stage0 (A w13 w13_scale sorted_ids expert_ids act : list Z) (b13 : option (list V))
    (p : Activation) (N hidden ispp top_k EM group_size : Z) : result (list Z) :=
  hs ← py_floordiv hidden group_size;
  let hp := hidden / 2 in
  for_blocks EM expert_ids (λ expert token_base act,
    fold_result (λ act nb,
      '(acc_gate, acc_up) ← fold_result (λ accs kb,
        let k_start := kb * 64 in
        tA ← tile_A N A sorted_ids token_base (λ _ flat, flat / top_k * hidden + k_start);
        ks ← py_floordiv k_start group_size;
        let p_gate := expert * (2 * ispp * hp) + nb * 64 * hp in
        let s_gate := expert * (2 * ispp * hs) + nb * 64 * hs in
        tile_gate ← dequant_weight_tile w13 w13_scale (p_gate + k_start / 2) (s_gate + ks) 64 64 group_size hp hs;
        let p_up := expert * (2 * ispp * hp) + (nb * 64 + ispp) * hp in
        let s_up := expert * (2 * ispp * hs) + (nb * 64 + ispp) * hs in
        tile_up ← dequant_weight_tile w13 w13_scale (p_up + k_start / 2) (s_up + ks) 64 64 group_size hp hs;
        accumulate2 tA tile_gate tile_up accs)
        (replicate 1024 (np_int 0), replicate 1024 (np_int 0)) (zrange (hidden / 64));
      fold_result (λ act m,
        flat ← py_index sorted_ids (Z.to_nat (token_base + m));
        if flat >=? N then Ok act
        else
          fold_result (λ act n,
            g ← py_index acc_gate (Z.to_nat (m * 64 + n));
            u ← py_index acc_up (Z.to_nat (m * 64 + n));
            g ← add_flat_bias b13 (expert * 2 * ispp + nb * 64 + n) (np_astype float64 g);
            u ← add_flat_bias b13 (expert * 2 * ispp + nb * 64 + n + ispp) (np_astype float64 u);
            item_set act ((token_base + m) * ispp + nb * 64 + n) (float_to_bf16_bits (fused_value p g u)))
            act (zrange 64)) act (zrange 16)) act (zrange (ispp / 64))) act.

Definition fused_stage1 (act w2 w2_scale sorted_ids expert_ids : list Z) (topk_w : list V) (b2 : option (list V))
    (out : list V) (N hidden ispp top_k EM group_size : Z) : result (list V) :=
  isc ← py_floordiv ispp group_size;
  let ip := ispp / 2 in
  for_blocks EM expert_ids (λ expert token_base out,
    fold_result (λ out nb,
      acc_down ← fold_result (λ acc kb,
        let k_start := kb * 64 in
        tA ← tile_A N act sorted_ids token_base (λ row _, row * ispp + k_start);
        ks ← py_floordiv k_start group_size;
        let p_down := expert * (hidden * ip) + nb * 64 * ip in
        let s_down := expert * (hidden * isc) + nb * 64 * isc in
        tile_down ← dequant_weight_tile w2 w2_scale (p_down + k_start / 2) (s_down + ks) 64 64 group_size ip isc;
        accumulate1 tA tile_down acc)
        (replicate 1024 (np_int 0)) (zrange (ispp / 64));
      fold_result (λ out m,
        flat ← py_index sorted_ids (Z.to_nat (token_base + m));
        if flat >=? N then Ok out
        else
          let token := flat / top_k in
          weight ← py_index topk_w (Z.to_nat (token_base + m));
          fold_result (λ out n,
            val ← py_index acc_down (Z.to_nat (m * 64 + n));
            val ← add_flat_bias b2 (expert * hidden + nb * 64 + n) (np_astype float64 val);
            let val := np_mul val (np_astype float64 weight) in
            let o := token * hidden + nb * 64 + n in
            x ← py_index out (Z.to_nat o);
            item_set out o (np_add x (np_astype float32 val))) out (zrange 64))
        out (zrange 16)) out (zrange (hidden / 64))) out.

(** The arrays [act_scratch] and [out] afterwards. *)
Definition impl_fused_moe_mxfp4 (A w13 w13_scale w2 w2_scale sorted_ids : list Z) (topk_w : list V)
    (expert_ids act_scratch : list Z) (out : list V) (M hidden ispp top_k EM group_size : Z)
    (p : Activation) (b13 b2 : option (list V)) : result (list Z * list V) :=
  let N := M * top_k in
  act ← fused_stage0 A w13 w13_scale sorted_ids expert_ids act_scratch b13 p N hidden ispp top_k EM group_size;
  out ← fused_stage1 act w2 w2_scale sorted_ids expert_ids topk_w b2 out N hidden ispp top_k EM group_size;
  Ok (act, out).

(** ** The wrapper *)
Definition bias_size (b : option (list V)) (n : Z) : result unit :=
  match b with
  | None => Ok tt
  | Some l => require (Z.of_nat (length l) =? n) (ValueError "bias has the wrong size")
  end.
Definition buffer {A} (o : option (list A)) (fresh : list A) (n : Z) : result (list A) :=
  match o with
  | None => Ok fresh
  | Some l => _ ← require (Z.of_nat (length l) =? n) (ValueError "buffer has the wrong size"); Ok l
  end.

Definition fused_moe_mxfp4 (A : Array2 Z) (w : Weights) (sorted_ids : list Z) (topk_w : list V) (expert_ids : list Z)
    (act_scratch : option (list Z)) (out : option (list V)) (top_k group_size : Z) (ep : Epilogue V)
    (b13 b2 : option (list V)) (empty : Z → list Z) : result (list V) :=
  let '(M, hidden, a) := A in
  let E := dim0 (w13 w) in
  _ ← require (dim2 (w13 w) * 2 =? hidden) (ValueError "w13 last dim must be hidden/2");
  _ ← require (dim1 (w13 w) mod 2 =? 0) (ValueError "w13 second dim must be even");
  let ispp := dim1 (w13 w) / 2 in
  _ ← require ((dim0 (w2 w) =? E) && (dim1 (w2 w) =? hidden) && (dim2 (w2 w) * 2 =? ispp))
        (ValueError "w2 must be [E, hidden, ispp/2]");
  let EM := Z.of_nat (length sorted_ids) in
  _ ← require (EM mod 16 =? 0) (ValueError "EM must be a multiple of 16");
  _ ← require (Z.of_nat (length topk_w) =? EM) (ValueError "topk_w must have EM elements");
  _ ← require (Z.of_nat (length expert_ids) =? EM / 16) (ValueError "expert_ids must have EM/16 elements");
  _ ← bias_size b13 (E * 2 * ispp);
  _ ← bias_size b2 (E * hidden);
  act ← buffer act_scratch (empty (EM * ispp)) (EM * ispp);
  out ← buffer out (replicate (Z.to_nat (M * hidden)) (np_int 0)) (M * hidden);
  _ ← require (is_key ep "swiglu" || is_key ep "situ") (ValueError "activation must be 'swiglu' or 'situ'");
  let single x := np_astype float64 (np_astype float32 x) in
  let p := mk_activation (if is_key ep "swiglu" then 0 else 1) (single (swiglu_limit ep)) (single (act_beta ep))
             (single (linear_beta ep)) in
  '(_, out) ← impl_fused_moe_mxfp4 a (elems (w13 w)) (elems (w13_scale w)) (elems (w2 w)) (elems (w2_scale w))
                sorted_ids topk_w expert_ids act out M hidden ispp top_k EM group_size p b13 b2;
  Ok out.
End fused.
#[global] Arguments Activation V : clear implicits.
