(* ===== verification/FusedMoeSpec.v ===== *)
(** * The fused mixture of experts is the mixture

    [fused_moe_mxfp4] on the aligned rows computes, in exact arithmetic, the
    reference mixture of [DistMoeParallel], hence what the distributed passes
    compute. *)

From S2P Require Import Prelude PyText FlatArrays Indexing Arrays HostNumerics MoeRouting DistMoe DistMoeLoops DistMoeStages DistMoeSpec DistMoeParallel FusedMoe Vectors.
Local Open Scope Z_scope.

(** ** Element by element *)
Lemma wrote_unique {A} lo n (f : Z → A) xs xs1 xs2 : 0 ≤ lo → wrote lo n f xs xs1 → wrote lo n f xs xs2 → xs1 = xs2.
Proof.
  intros Hlo [L1 C1 F1] [L2 C2 F2]. apply list_eq. intros i. rewrite <- (Nat2Z.id i).
  destruct (decide (lo ≤ Z.of_nat i < lo + n)).
  - replace (Z.of_nat i) with (lo + (Z.of_nat i - lo)) by lia. by rewrite C1, C2 by lia.
  - by rewrite F1, F2 by lia.
Qed.

Lemma item_set_wrote {A} (xs : list A) i v : 0 ≤ i < Z.of_nat (length xs) →
  ∃ xs', item_set xs i v = Ok xs' ∧ wrote i 1 (λ _, v) xs xs'.
Proof.
  intros Hi. unfold item_set. rewrite (proj2 (Z.ltb_lt _ _)) by lia. eexists. split; [done|]. by apply wrote_one.
Qed.

Lemma item_sets {A} (f : Z → A) lo n (s : list A) : 0 ≤ lo → 0 ≤ n → lo + n ≤ Z.of_nat (length s) →
  fold_result (λ s c, item_set s (lo + c) (f c)) s (zrange n) = slice_set lo (lo + n) (f <$> zrange n) s.
Proof.
  intros Hlo Hn Hs.
  destruct (fold_cells (λ s c, item_set s (lo + c) (f c)) lo f s n) as (s1 & -> & H1); [done|done| |].
  - intros s' c Hc Hw. apply item_set_wrote. rewrite (wrote_length _ _ _ _ _ Hw). lia.
  - destruct (slice_set_wrote lo n f s) as (s2 & -> & H2); [done..|]. f_equal. by apply (wrote_unique lo n f s).
Qed.

Lemma item_adds {V} `{num : !Numpy V} (f v : Z → V) lo n L : 0 ≤ lo → 0 ≤ n → lo + n ≤ L →
  fold_result (λ out c, x ← py_index out (Z.to_nat (lo + c)); item_set out (lo + c) (np_add x (v c)))
      (f <$> zrange L) (zrange n) =
    (sum ← iadd (v <$> zrange n) (py_slice lo (lo + n) (f <$> zrange L)); slice_set lo (lo + n) sum (f <$> zrange L)).
Proof.
  intros Hlo Hn HL. assert (length (f <$> zrange L) = Z.to_nat L) as Hl by by rewrite length_fmap, length_zrange.
  rewrite py_slice_fmap, iadd_ok by lia. cbn [mbind result_bind].
  set (g j := np_add (f (lo + j)) (v j)).
  match goal with |- fold_result ?fn _ _ = _ =>
    destruct (fold_cells fn lo g (f <$> zrange L) n) as (s1 & -> & H1) end; [done|done| |].
  - intros s c Hc Hw. unfold py_index.
    rewrite (wrote_frame _ _ _ _ _ Hw), list_lookup_fmap, zrange_lookup by lia. cbn [fmap option_fmap option_map of_option mbind result_bind].
    apply item_set_wrote. rewrite (wrote_length _ _ _ _ _ Hw). lia.
  - destruct (slice_set_wrote lo n g (f <$> zrange L)) as (s2 & E & H2); [done|done|lia|].
    fold g. rewrite E. f_equal. by apply (wrote_unique lo n g (f <$> zrange L)).
Qed.

Section exact.
Context {V : Type} `{num : !Numpy V}.
#[local] Existing Instance V_inhabited.

(** Conversions without rounding, and Python's [min] against numpy's. *)
Record exact_floats : Prop := {
  fl_cast d x : np_astype d x = x;
  fl_zero : np_of_f32_bits 0x80000000 = np_of_f32_bits 0;
  fl_min x l : np_lt (np_int 0) l = true → py_min x l = np_minimum x l;
  fl_clamp u l : np_lt (np_int 0) l = true →
    np_negative (py_min (np_negative (py_min u l)) l) = np_minimum (np_maximum u (np_negative l)) l
}.

(** Both decoders give a scale byte the same value; 255 is one where they differ. *)
Definition decodes (s : Z) : Prop := ue8m0_value s = ue8m0_to_float s.

Lemma float_bits f : float_to_bf16_bits f = f32_to_bf16 f.
Proof.
  unfold float_to_bf16_bits, f32_to_bf16. change 0xFFFFFFFF with (Z.ones 32). change 65535 with (Z.ones 16).
  rewrite !Z.land_ones, Z.shiftr_div_pow2 by done.
  set (x := _ + _). apply Z.mod_small. pose proof (Z.mod_pos_bound x (2 ^ 32)). split; [apply Z.div_pos; lia|].
  apply Z.div_lt_upper_bound; lia.
Qed.

Context (Hfl : exact_floats).

Lemma nibble_values : FP4_NIBBLE_VALUES = FP4_VALUES.
Proof using Hfl. unfold FP4_NIBBLE_VALUES, FP4_VALUES. simpl. by rewrite (fl_zero Hfl). Qed.

Lemma mac_exact d x y : mac d x y = np_add d (np_mul x y).
Proof using Hfl. unfold mac. by rewrite !(fl_cast Hfl). Qed.

Lemma fused_value_exact p ep g u : act_tag p = (if is_key ep "swiglu" then 0 else 1) →
  is_key ep "swiglu" || is_key ep "situ" = true →
  limit p = swiglu_limit ep → situ_beta p = act_beta ep → situ_linear_beta p = linear_beta ep →
  fused_value p g u = act_value ep g u.
Proof using Hfl.
  intros Ht Hk Hl Hb Hlb. unfold fused_value, act_value. rewrite Ht, Hl, Hb, Hlb.
  destruct (is_key ep "swiglu") eqn:Ew, (is_key ep "situ") eqn:Es; try done; simpl.
  - exfalso. unfold is_key in *. apply bool_decide_eq_true in Ew, Es. rewrite Ew in Es. done.
  - destruct (np_lt (np_int 0) (swiglu_limit ep)) eqn:E; [|done].
    by rewrite (fl_clamp Hfl), (fl_min Hfl) by done.
Qed.

(** ** Weights *)
Lemma pairs_list {A} (f : Z → A) : mjoin ((λ kp, [f (2 * kp); f (2 * kp + 1)]) <$> zrange 32) = f <$> zrange 64.
Proof. vm_compute. reflexivity. Qed.

Section tile.
Context (w ws : list Z) (E R K gs row0 k0 : Z).
Context (Hq : quantised w ws E R K gs) (Hdec : Forall decodes ws).
Context (Hgs : 64 mod gs = 0 ∧ gs mod 2 = 0) (Hrow : 0 ≤ row0 ∧ row0 + 64 ≤ E * R).
Context (Hk : 0 ≤ k0 ∧ k0 + 64 ≤ K ∧ k0 mod 64 = 0).

Lemma half_column kp : (k0 + 2 * kp) / 2 = k0 / 2 + kp ∧ (k0 + (2 * kp + 1)) / 2 = k0 / 2 + kp ∧
  (k0 + 2 * kp) mod 2 = 0 ∧ (k0 + (2 * kp + 1)) mod 2 = 1.
Proof using Hgs Hk.
  destruct Hk as (_ & _ & H64). split_and!; Z.to_euclidean_division_equations; lia.
Qed.

Lemma group_column kp : (k0 + 2 * kp) / gs = k0 / gs + kp * 2 / gs ∧ (k0 + (2 * kp + 1)) / gs = k0 / gs + kp * 2 / gs.
Proof using Hq Hgs Hk.
  destruct Hk as (_ & _ & H64), Hgs as [Hg He]. pose proof (q_group _ _ _ _ _ _ Hq) as Hpos.
  apply Z.mod_divide in H64 as [q Eq]; [|done]. apply Z.mod_divide in Hg as [g Eg]; [|lia].
  apply Z.mod_divide in He as [c Ec]; [|done].
  assert (∀ x, (k0 + x) / gs = k0 / gs + x / gs) as Hadd.
  { intros x. rewrite Eq, Eg. replace (q * (g * gs)) with (q * g * gs) by lia. by rewrite Z.div_add_l, Z.div_mul by lia. }
  rewrite !Hadd, (Z.mul_comm kp 2). split; [done|]. f_equal. rewrite Ec, (Z.mul_comm c 2).
  rewrite <- !Z.div_div by lia. f_equal. Z.to_euclidean_division_equations; lia.
Qed.

Lemma dequant_tile_ok :
  dequant_weight_tile w ws (row0 * (K / 2) + k0 / 2) (row0 * (K / gs) + k0 / gs) 64 64 gs (K / 2) (K / gs) =
    Ok ((λ n, (λ k, weight_bits w ws (K / 2) (K / gs) gs (row0 + n) (k0 + k)) <$> zrange 64) <$> zrange 64).
Proof using Hfl Hq Hdec Hgs Hrow Hk.
  pose proof Hq as [HR HK Hpos Heven Hgroups Hw Hws Hbytes].
  apply map_zrange_ok. intros n Hn. change (64 / 2) with 32. rewrite <- pairs_list.
  rewrite (map_zrange_ok _ (λ kp, [weight_bits w ws (K / 2) (K / gs) gs (row0 + n) (k0 + 2 * kp);
    weight_bits w ws (K / 2) (K / gs) gs (row0 + n) (k0 + (2 * kp + 1))])); [done|].
  intros kp Hkp. destruct (half_column kp) as (E1 & E2 & E3 & E4), (group_column kp) as [E5 E6].
  pose proof (Z.div_mod K 2 ltac:(lia)). pose proof (Z.div_mod K gs ltac:(lia)).
  assert (0 ≤ k0 / 2 + kp < K / 2) as Hc.
  { rewrite <- E1. split; [apply Z.div_pos; lia|apply Z.div_lt_upper_bound; lia]. }
  assert (0 ≤ k0 / gs + kp * 2 / gs < K / gs) as Hg.
  { rewrite <- E5. split; [apply Z.div_pos; lia|apply Z.div_lt_upper_bound; lia]. }
  pose proof (flat_bounds (row0 + n) (E * R) _ _ ltac:(lia) Hc) as Hi1.
  pose proof (flat_bounds (row0 + n) (E * R) _ _ ltac:(lia) Hg) as Hi2.
  replace (row0 * (K / 2) + k0 / 2 + n * (K / 2) + kp) with ((row0 + n) * (K / 2) + (k0 / 2 + kp)) by lia.
  rewrite py_floordiv_nz by lia. cbn [mbind result_bind].
  replace (row0 * (K / gs) + k0 / gs + n * (K / gs) + kp * 2 / gs)
    with ((row0 + n) * (K / gs) + (k0 / gs + kp * 2 / gs)) by lia.
  unfold weight_bits. rewrite E1, E2, E3, E4, E5, E6. simpl (0 =? 0). simpl (1 =? 0). cbv iota.
  set (byte := w !!! Z.to_nat ((row0 + n) * (K / 2) + (k0 / 2 + kp))).
  set (s := ws !!! Z.to_nat ((row0 + n) * (K / gs) + (k0 / gs + kp * 2 / gs))).
  assert (w !! Z.to_nat ((row0 + n) * (K / 2) + (k0 / 2 + kp)) = Some byte) as Hb1
    by (apply list_lookup_lookup_total_lt; lia).
  assert (ws !! Z.to_nat ((row0 + n) * (K / gs) + (k0 / gs + kp * 2 / gs)) = Some s) as Hs1
    by (apply list_lookup_lookup_total_lt; lia).
  rewrite Forall_lookup in Hbytes. pose proof (Hbytes _ _ Hb1) as Hb.
  pose proof (proj1 (Forall_lookup _ _) Hdec _ _ Hs1) as Hd. unfold decodes in Hd.
  unfold py_index. rewrite Hb1, Hs1. cbn [of_option mbind result_bind]. rewrite nibble_values.
  assert (Z.land (Z.shiftr byte 4) 15 = Z.shiftr byte 4) as ->.
  { change 15 with (Z.ones 4). rewrite Z.land_ones by done. apply Z.mod_small. rewrite Z.shiftr_div_pow2 by done.
    split; [apply Z.div_pos; lia|apply Z.div_lt_upper_bound; lia]. }
  rewrite (list_lookup_lookup_total_lt _ _ (nibble_index byte true Hb)).
  rewrite (list_lookup_lookup_total_lt _ _ (nibble_index byte false Hb)).
  cbn [of_option mbind result_bind]. by rewrite !float_bits, !(fl_cast Hfl), Hd.
Qed.
End tile.

(** ** Sums *)
Context (Hsum : exact_sums).

Definition bdot (x y : Z → Z) (n : Z) : V := over n (λ k, np_mul (bf16_to_float (x k)) (bf16_to_float (y k))).

Lemma dot1_ok x y : dot1 (x <$> zrange 64) (y <$> zrange 64) = Ok (bdot x y 64).
Proof using Hfl Hsum.
  unfold dot1.
  match goal with |- fold_result ?fn ?st _ = _ =>
    destruct (fold_zrange_inv fn (λ k d, d = bdot x y k) 64 st) as (d & -> & ->) end; [lia|done| |done].
  intros k d Hk ->. rewrite !(cells_index_0 _ 64 _ _ (cells_fmap _ _)) by done. cbn [mbind result_bind].
  eexists. split; [done|]. rewrite mac_exact. unfold bdot. by rewrite (over_S Hsum) by lia.
Qed.

Lemma dot2_ok x y z : dot2 (x <$> zrange 64) (y <$> zrange 64) (z <$> zrange 64) = Ok (bdot x y 64, bdot x z 64).
Proof using Hfl Hsum.
  unfold dot2.
  match goal with |- fold_result ?fn ?st _ = _ =>
    destruct (fold_zrange_inv fn (λ k d, d = (bdot x y k, bdot x z k)) 64 st) as (d & -> & ->) end; [lia|done| |done].
  intros k d Hk ->. rewrite !(cells_index_0 _ 64 _ _ (cells_fmap _ _)) by done. cbn [mbind result_bind].
  eexists. split; [done|]. rewrite !mac_exact. unfold bdot. by rewrite !(over_S Hsum) by lia.
Qed.

(** An accumulator of 16 rows and 64 columns whose first [c] cells are increased. *)
Definition acc_of (F : Z → Z → V) : list V := (λ i, F (i / 64) (i mod 64)) <$> zrange 1024.
Definition increased (c : Z) (F g : Z → Z → V) (m n : Z) : V :=
  if m * 64 + n <? c then np_add (F m n) (g m n) else F m n.

Lemma acc_of_ext F G : (∀ m n, 0 ≤ m < 16 → 0 ≤ n < 64 → F m n = G m n) → acc_of F = acc_of G.
Proof. intros H. by apply (flat_ext F G 16 64). Qed.

Lemma acc_of_at F m n : 0 ≤ m < 16 → 0 ≤ n < 64 → acc_of F !! Z.to_nat (m * 64 + n) = Some (F m n).
Proof.
  intros Hm Hn. unfold acc_of. rewrite list_lookup_fmap, zrange_lookup by lia. simpl.
  by destruct (square_index 64 m n Hn) as [-> ->].
Qed.

Lemma acc_index F m n : 0 ≤ m < 16 → 0 ≤ n < 64 → py_index (acc_of F) (Z.to_nat (m * 64 + n)) = Ok (F m n).
Proof. intros Hm Hn. unfold py_index. by rewrite acc_of_at. Qed.

Lemma acc_add_ok F g m n : 0 ≤ m < 16 → 0 ≤ n < 64 →
  acc_add (acc_of (increased (m * 64 + n) F g)) m n (g m n) = Ok (acc_of (increased (m * 64 + n + 1) F g)).
Proof using Hfl.
  intros Hm Hn. unfold acc_add, item_set. rewrite acc_index by done. cbn [mbind result_bind].
  rewrite (proj2 (Z.ltb_lt _ _)) by (unfold acc_of; rewrite length_fmap, length_zrange; lia). cbn [require mbind result_bind].
  rewrite (fl_cast Hfl). f_equal. apply list_eq_same_length with (n := 1024%nat);
    [by unfold acc_of; rewrite length_fmap, length_zrange|by rewrite length_insert; unfold acc_of; rewrite length_fmap, length_zrange|].
  intros i x y Hi Hx Hy.
  set (a := Z.of_nat i / 64). set (b := Z.of_nat i mod 64).
  assert (0 ≤ a < 16 ∧ 0 ≤ b < 64 ∧ Z.of_nat i = a * 64 + b) as (Ha & Hb & Ei)
    by (unfold a, b; Z.to_euclidean_division_equations; lia).
  replace i with (Z.to_nat (a * 64 + b)) in Hx, Hy by lia. rewrite acc_of_at in Hy by done. injection Hy as <-.
  destruct (decide (a * 64 + b = m * 64 + n)) as [E|E].
  - rewrite E, list_lookup_insert_eq in Hx by (unfold acc_of; rewrite length_fmap, length_zrange; lia). injection Hx as <-.
    assert (a = m) as -> by lia. assert (b = n) as -> by lia. unfold increased.
    by rewrite (proj2 (Z.ltb_ge _ _)), (proj2 (Z.ltb_lt _ _)) by lia.
  - rewrite list_lookup_insert_ne, acc_of_at in Hx by (done || lia). injection Hx as <-. unfold increased.
    destruct (_ <? _) eqn:E1, (a * 64 + b <? m * 64 + n + 1) eqn:E2; zbool; done || lia.
Qed.

Lemma increased_none F g : acc_of (increased 0 F g) = acc_of F.
Proof. apply acc_of_ext. intros m n Hm Hn. unfold increased. by rewrite (proj2 (Z.ltb_ge _ _)) by lia. Qed.
Lemma increased_all F g : acc_of (increased 1024 F g) = acc_of (λ m n, np_add (F m n) (g m n)).
Proof. apply acc_of_ext. intros m n Hm Hn. unfold increased. by rewrite (proj2 (Z.ltb_lt _ _)) by lia. Qed.

(** The rows and columns of tiles. *)
Definition tile (x : Z → Z → Z) (n : Z) : list (list Z) := (λ m, x m <$> zrange 64) <$> zrange n.

Lemma tile_index_ok x n m : 0 ≤ m < n → py_index (tile x n) (Z.to_nat m) = Ok (x m <$> zrange 64).
Proof. intros Hm. by apply (cells_index_0 _ n (λ m, x m <$> zrange 64)); [apply cells_fmap|]. Qed.

Lemma accumulate1_ok x y F :
  accumulate1 (tile x 16) (tile y 64) (acc_of F) = Ok (acc_of (λ m n, np_add (F m n) (bdot (x m) (y n) 64))).
Proof using Hfl Hsum.
  set (g m n := bdot (x m) (y n) 64). rewrite <- (increased_none F g). unfold accumulate1.
  match goal with |- fold_result ?fn ?st _ = _ =>
    destruct (fold_zrange_inv fn (λ m s, s = acc_of (increased (m * 64) F g)) 16 st) as (acc & -> & ->) end;
    [lia|done| |by rewrite <- increased_all].
  intros m s Hm ->. rewrite tile_index_ok by done. cbn [mbind result_bind].
  match goal with |- ∃ s', fold_result ?fn ?st _ = _ ∧ _ =>
    destruct (fold_zrange_inv fn (λ n s, s = acc_of (increased (m * 64 + n) F g)) 64 st) as (acc & -> & ->) end;
    [lia|by rewrite Z.add_0_r| |eexists; split; [done|do 2 f_equal; lia]].
  intros n s Hn ->. rewrite tile_index_ok by done. cbn [mbind result_bind]. rewrite dot1_ok. cbn [mbind result_bind]. fold (g m n).
  rewrite acc_add_ok by done. eexists. split; [done|]. do 2 f_equal. lia.
Qed.

Lemma accumulate2_ok x y z F G :
  accumulate2 (tile x 16) (tile y 64) (tile z 64) (acc_of F, acc_of G) =
    Ok (acc_of (λ m n, np_add (F m n) (bdot (x m) (y n) 64)), acc_of (λ m n, np_add (G m n) (bdot (x m) (z n) 64))).
Proof using Hfl Hsum.
  set (g m n := bdot (x m) (y n) 64). set (h m n := bdot (x m) (z n) 64).
  rewrite <- (increased_none F g), <- (increased_none G h). unfold accumulate2.
  match goal with |- fold_result ?fn ?st _ = _ =>
    destruct (fold_zrange_inv fn (λ m s, s = (acc_of (increased (m * 64) F g), acc_of (increased (m * 64) G h))) 16 st)
      as (acc & -> & ->) end; [lia|done| |by rewrite <- !increased_all].
  intros m s Hm ->. rewrite tile_index_ok by done. cbn [mbind result_bind].
  match goal with |- ∃ s', fold_result ?fn ?st _ = _ ∧ _ =>
    destruct (fold_zrange_inv fn (λ n s, s = (acc_of (increased (m * 64 + n) F g), acc_of (increased (m * 64 + n) G h))) 64 st)
      as (acc & -> & ->) end;
    [lia|by rewrite Z.add_0_r| |eexists; split; [done|by replace ((m + 1) * 64) with (m * 64 + 64) by lia]].
  intros n s Hn ->. rewrite !tile_index_ok by done. cbn [mbind result_bind]. rewrite dot2_ok. cbn [mbind result_bind]. fold (g m n) (h m n).
  rewrite !acc_add_ok by done. eexists. split; [done|]. by rewrite <- Z.add_assoc.
Qed.
End exact.

(** ** The stages *)
Section fused_stages.
Context {V : Type} `{num : !Numpy V} (Hsum : exact_sums) (Hfl : exact_floats).
#[local] Existing Instance V_inhabited.
Context (sorted experts : list Z) (n N E : Z) (Hlay : layout sorted experts n E).

Definition tile_bits (src : list Z) (base : Z → Z) (r k : Z) : Z :=
  if row_valid sorted N r then src !!! Z.to_nat (base r + k) else 0.

Lemma tile_bits_value src base r k : bf16_to_float (tile_bits src base r k) = tile_value (V := V) sorted N src base r k.
Proof. unfold tile_bits, tile_value. by case_match. Qed.

Lemma tile_A_ok src (base : Z → Z) (basef : Z → Z → Z) k0 b : 0 ≤ b < n →
  (∀ r, 0 ≤ r < n * 16 → basef r (row_id sorted r) = base r + k0) →
  (∀ r, 0 ≤ r < n * 16 → row_valid sorted N r = true → 0 ≤ base r + k0 ∧ base r + k0 + 64 ≤ Z.of_nat (length src)) →
  tile_A N src sorted (b * 16) basef = Ok (tile (λ m k, tile_bits src base (b * 16 + m) (k0 + k)) 16).
Proof using Hlay.
  intros Hb Hbase Hin. apply map_zrange_ok. intros m Hm. assert (0 ≤ b * 16 + m < n * 16) as Hr by lia.
  rewrite (proj1 (row_id_index _ _ _ _ Hlay _ Hr)). cbn [mbind result_bind]. rewrite Hbase by done.
  unfold tile_bits. fold (row_valid sorted N (b * 16 + m)). destruct (row_valid sorted N (b * 16 + m)) eqn:Hv.
  - destruct (Hin _ Hr Hv). rewrite length_py_slice by lia.
    rewrite (proj2 (Z.eqb_eq _ _)) by lia. cbn [require mbind result_bind]. f_equal.
    apply cells_list; [|lia..]. eapply cells_ext; [apply cells_total; lia|]. intros k Hk. simpl. do 2 f_equal. lia.
  - done.
Qed.

(** Blocks of 64 along the inner dimension. *)
Definition partial_dot (X Y : Z → Z) (kb : Z) : V :=
  over kb (λ kb, bdot (λ k, X (kb * 64 + k)) (λ k, Y (kb * 64 + k)) 64).

Lemma partial_dot_S X Y kb : 0 ≤ kb →
  partial_dot X Y (kb + 1) = np_add (partial_dot X Y kb) (bdot (λ k, X (kb * 64 + k)) (λ k, Y (kb * 64 + k)) 64).
Proof using Hsum. intros Hkb. unfold partial_dot. by rewrite (over_S Hsum). Qed.

Lemma partial_dot_all X Y K : 0 ≤ K → K mod 64 = 0 → partial_dot X Y (K / 64) = bdot X Y K.
Proof using Hsum.
  intros HK Hm. unfold partial_dot, bdot. rewrite (over_parts Hsum (K / 64) 64 (λ k, np_mul (bf16_to_float (X k)) (bf16_to_float (Y k)))) by (done || apply Z.div_pos; lia).
  f_equal. pose proof (Z.div_mod K 64). lia.
Qed.

(** The inner loop over [K / 64] tiles of weights, for the 64 rows from [row0] on. *)
Section weights.
Context (w ws : list Z) (R K gs : Z) (Hq : quantised w ws E R K gs) (Hdec : Forall decodes ws).
Context (Hgs : 64 mod gs = 0 ∧ gs mod 2 = 0) (HK : K mod 64 = 0).

Definition weight_tile (row0 kb : Z) : list (list Z) :=
  tile (λ c k, weight_bits (V := V) w ws (K / 2) (K / gs) gs (row0 + c) (kb * 64 + k)) 64.

Lemma weight_tile_ok e lo kb p s : 0 ≤ e < E → 0 ≤ lo → lo + 64 ≤ R → 0 ≤ kb < K / 64 →
  p = e * (R * (K / 2)) + lo * (K / 2) → s = e * (R * (K / gs)) + lo * (K / gs) →
  dequant_weight_tile w ws (p + kb * 64 / 2) (s + kb * 64 / gs) 64 64 gs (K / 2) (K / gs) =
    Ok (weight_tile (e * R + lo) kb).
Proof using Hfl Hq Hdec Hgs HK.
  intros He Hlo HR Hkb -> ->.
  replace (e * (R * (K / 2)) + lo * (K / 2)) with ((e * R + lo) * (K / 2)) by lia.
  replace (e * (R * (K / gs)) + lo * (K / gs)) with ((e * R + lo) * (K / gs)) by lia.
  apply (dequant_tile_ok Hfl w ws E R K gs (e * R + lo) (kb * 64)); [done..|nia|].
  pose proof (Z.div_mod K 64). rewrite Z.mod_mul by done. lia.
Qed.

Lemma bdot_product src base r row :
  bdot (tile_bits src base r) (weight_bits (V := V) w ws (K / 2) (K / gs) gs (row_expert experts r * R + row)) K =
    product experts (tile_value sorted N src base r) w ws K gs R r row.
Proof. apply over_ext. intros k Hk. by rewrite tile_bits_value. Qed.
End weights.
End fused_stages.

Section fused_forward.
Context {V : Type} `{num : !Numpy V} (Hsum : exact_sums) (Hfl : exact_floats).
#[local] Existing Instance V_inhabited.
Context (a : list Z) (w : Weights) (b13 b2 : option (list V)) (hidden ispp gs : Z) (ep : Epilogue V) (p : Activation V).
Context (sorted experts : list Z) (sorted_w : list V) (n M top_k E : Z).
Let N := M * top_k.

(** A flat bias by experts. *)
Definition bias_rows (W : Z) (b : option (list V)) : option (list (list V)) :=
  (λ l, (λ e, py_slice (e * W) ((e + 1) * W) l) <$> zrange E) <$> b.
Definition bias_fits (W : Z) (b : option (list V)) : Prop :=
  match b with None => True | Some l => Z.of_nat (length l) = E * W end.

Record fused_inputs : Prop := {
  fin_forward : forward_inputs a w (bias_rows (2 * ispp) b13) (bias_rows hidden b2) hidden ispp gs sorted experts sorted_w n M top_k E;
  fin_b13 : bias_fits (2 * ispp) b13;
  fin_b2 : bias_fits hidden b2;
  fin_group : 64 mod gs = 0 ∧ gs mod 2 = 0;
  fin_scales : Forall decodes (elems (w13_scale w)) ∧ Forall decodes (elems (w2_scale w));
  fin_value g u : fused_value p g u = act_value ep g u
}.
Context (Hin : fused_inputs).
Let Hfwd := fin_forward Hin.
Let Hlay := in_layout _ _ _ _ _ _ _ _ _ _ _ _ _ _ Hfwd.

Lemma flat_bias_ok W b e j x : bias_fits W b → 0 ≤ e < E → 0 ≤ j < W →
  add_flat_bias b (e * W + j) x = Ok (biased (bias_rows W b) e j x).
Proof using Hfl M top_k.
  destruct b as [l|]; [|done]. intros Hl He Hj. simpl in Hl. unfold add_flat_bias, biased, bias_rows, py_index. simpl.
  assert (e * W + W ≤ E * W) by nia. assert (0 ≤ e * W) by nia.
  rewrite list_lookup_lookup_total_lt by lia. cbn [of_option mbind result_bind]. rewrite (fl_cast Hfl). do 2 f_equal.
  symmetry. apply list_lookup_total_correct.
  assert (((λ e, py_slice (e * W) ((e + 1) * W) l) <$> zrange E) !!! Z.to_nat e = py_slice (e * W) ((e + 1) * W) l) as ->.
  { apply list_lookup_total_correct. rewrite list_lookup_fmap, zrange_lookup by done. done. }
  apply (cells_slice l (e * W) ((e + 1) * W) W (λ i, l !!! Z.to_nat (e * W + i))); [apply cells_total|..]; lia.
Qed.

Let gate := row_gate_up a w hidden ispp gs sorted experts M top_k.
Let down := row_down w hidden ispp gs sorted experts M top_k.

Lemma zero_acc : replicate 1024 (np_int 0) = acc_of (λ _ _, np_int 0).
Proof. apply (replicate_fmap 1024). Qed.

Lemma gate_acc_ok b t : 0 ≤ b < n → 0 ≤ t < ispp / 64 →
  let expert := experts !!! Z.to_nat b in
  let hp := hidden / 2 in
  let hs := hidden / gs in
  fold_result (λ accs kb,
    let k_start := kb * 64 in
    tA ← tile_A N a sorted (b * 16) (λ _ flat, flat / top_k * hidden + k_start);
    ks ← py_floordiv k_start gs;
    let p_gate := expert * (2 * ispp * hp) + t * 64 * hp in
    let s_gate := expert * (2 * ispp * hs) + t * 64 * hs in
    tile_gate ← dequant_weight_tile (elems (w13 w)) (elems (w13_scale w)) (p_gate + k_start / 2) (s_gate + ks) 64 64 gs hp hs;
    let p_up := expert * (2 * ispp * hp) + (t * 64 + ispp) * hp in
    let s_up := expert * (2 * ispp * hs) + (t * 64 + ispp) * hs in
    tile_up ← dequant_weight_tile (elems (w13 w)) (elems (w13_scale w)) (p_up + k_start / 2) (s_up + ks) 64 64 gs hp hs;
    accumulate2 tA tile_gate tile_up accs)
    (replicate 1024 (np_int 0), replicate 1024 (np_int 0)) (zrange (hidden / 64)) =
  Ok (acc_of (λ m c, gate (b * 16 + m) (t * 64 + c)), acc_of (λ m c, gate (b * 16 + m) (t * 64 + ispp + c))).
Proof using Hsum Hfl Hin.
  intros Hb Ht expert hp hs. destruct (in_hidden _ _ _ _ _ _ _ _ _ _ _ _ _ _ Hfwd) as [Hh H64].
  destruct (in_ispp _ _ _ _ _ _ _ _ _ _ _ _ _ _ Hfwd) as [Hi Hi64].
  destruct (in_weights _ _ _ _ _ _ _ _ _ _ _ _ _ _ Hfwd) as [Hq _].
  destruct (fin_scales Hin) as [Hdec _]. pose proof (q_group _ _ _ _ _ _ Hq) as Hpos.
  pose proof (block_expert _ _ _ _ Hlay b Hb) as He. fold expert in He.
  pose proof (Z.div_mod ispp 64 ltac:(lia)). pose proof (Z.div_mod hidden 64 ltac:(lia)).
  set (base r := row_id sorted r / top_k * hidden + 0).
  set (x m := tile_bits sorted N a base (b * 16 + m)).
  set (y row := weight_bits (V := V) (elems (w13 w)) (elems (w13_scale w)) hp hs gs (expert * (2 * ispp) + row)).
  rewrite zero_acc.
  match goal with |- fold_result ?fn ?st _ = _ =>
    destruct (fold_zrange_inv fn (λ kb s, s = (acc_of (λ m c, partial_dot (x m) (y (t * 64 + c)) kb),
      acc_of (λ m c, partial_dot (x m) (y (t * 64 + ispp + c)) kb))) (hidden / 64) st) as (s & -> & ->) end;
    [apply Z.div_pos; lia|done| |].
  - intros kb s Hkb ->. cbv zeta.
    rewrite (tile_A_ok sorted experts n N E Hlay a base (λ _ flat, flat / top_k * hidden + kb * 64) (kb * 64) b Hb).
    2:{ intros r Hr. unfold base. lia. }
    2:{ intros r Hr Hv. pose proof (a_rows _ _ _ _ _ _ _ _ _ _ _ _ _ _ Hfwd r Hr Hv). unfold base.
        rewrite (in_a _ _ _ _ _ _ _ _ _ _ _ _ _ _ Hfwd). lia. }
    cbn [mbind result_bind]. rewrite py_floordiv_nz by lia. cbn [mbind result_bind]. unfold hp, hs.
    rewrite (weight_tile_ok Hfl E _ _ (2 * ispp) hidden gs Hq Hdec (fin_group Hin) H64 expert (t * 64) kb
      (expert * (2 * ispp * (hidden / 2)) + t * 64 * (hidden / 2)) (expert * (2 * ispp * (hidden / gs)) + t * 64 * (hidden / gs))) by (done || lia).
    cbn [mbind result_bind].
    rewrite (weight_tile_ok Hfl E _ _ (2 * ispp) hidden gs Hq Hdec (fin_group Hin) H64 expert (t * 64 + ispp) kb) by (done || lia).
    cbn [mbind result_bind]. unfold weight_tile. rewrite (accumulate2_ok Hfl Hsum). eexists. split; [done|].
    f_equal; apply acc_of_ext; intros m c Hm Hc; rewrite (partial_dot_S Hsum) by lia; unfold y, hp, hs; by rewrite Z.add_assoc.
  - do 2 f_equal; apply acc_of_ext; intros m c Hm Hc; rewrite (partial_dot_all Hsum) by (done || lia);
      unfold gate, row_gate_up, y, hp, hs, expert; rewrite <- (block_row b m Hm) at 1; apply bdot_product.
Qed.

Lemma down_acc_ok act b t : 0 ≤ b < n → 0 ≤ t < hidden / 64 → Z.of_nat (length act) = n * 16 * ispp →
  let expert := experts !!! Z.to_nat b in
  let ip := ispp / 2 in
  let isc := ispp / gs in
  fold_result (λ acc kb,
    let k_start := kb * 64 in
    tA ← tile_A N act sorted (b * 16) (λ row _, row * ispp + k_start);
    ks ← py_floordiv k_start gs;
    let p_down := expert * (hidden * ip) + t * 64 * ip in
    let s_down := expert * (hidden * isc) + t * 64 * isc in
    tile_down ← dequant_weight_tile (elems (w2 w)) (elems (w2_scale w)) (p_down + k_start / 2) (s_down + ks) 64 64 gs ip isc;
    accumulate1 tA tile_down acc) (replicate 1024 (np_int 0)) (zrange (ispp / 64)) =
  Ok (acc_of (λ m c, down act (b * 16 + m) (t * 64 + c))).
Proof using Hsum Hfl Hin.
  intros Hb Ht Hact expert ip isc. destruct (in_hidden _ _ _ _ _ _ _ _ _ _ _ _ _ _ Hfwd) as [Hh H64].
  destruct (in_ispp _ _ _ _ _ _ _ _ _ _ _ _ _ _ Hfwd) as [Hi Hi64].
  destruct (in_weights _ _ _ _ _ _ _ _ _ _ _ _ _ _ Hfwd) as [_ Hq].
  destruct (fin_scales Hin) as [_ Hdec]. pose proof (q_group _ _ _ _ _ _ Hq) as Hpos.
  pose proof (block_expert _ _ _ _ Hlay b Hb) as He. fold expert in He.
  pose proof (Z.div_mod ispp 64 ltac:(lia)). pose proof (Z.div_mod hidden 64 ltac:(lia)).
  set (x m := tile_bits sorted N act (λ r, r * ispp + 0) (b * 16 + m)).
  set (y row := weight_bits (V := V) (elems (w2 w)) (elems (w2_scale w)) ip isc gs (expert * hidden + row)).
  rewrite zero_acc.
  match goal with |- fold_result ?fn ?st _ = _ =>
    destruct (fold_zrange_inv fn (λ kb s, s = acc_of (λ m c, partial_dot (x m) (y (t * 64 + c)) kb)) (ispp / 64) st)
      as (s & -> & ->) end; [apply Z.div_pos; lia|done| |].
  - intros kb s Hkb ->. cbv zeta.
    rewrite (tile_A_ok sorted experts n N E Hlay act (λ r, r * ispp + 0) (λ row _, row * ispp + kb * 64) (kb * 64) b Hb).
    2:{ intros r Hr. lia. }
    2:{ intros r Hr _. assert (r * ispp + ispp ≤ n * 16 * ispp) by nia. assert (0 ≤ r * ispp) by nia. lia. }
    cbn [mbind result_bind]. rewrite py_floordiv_nz by lia. cbn [mbind result_bind]. unfold ip, isc.
    rewrite (weight_tile_ok Hfl E _ _ hidden ispp gs Hq Hdec (fin_group Hin) Hi64 expert (t * 64) kb) by (done || lia).
    cbn [mbind result_bind]. unfold weight_tile. rewrite (accumulate1_ok Hfl Hsum). eexists. split; [done|].
    apply acc_of_ext. intros m c Hm Hc. rewrite (partial_dot_S Hsum) by lia. unfold y, ip, isc. by rewrite Z.add_assoc.
  - f_equal. apply acc_of_ext. intros m c Hm Hc. rewrite (partial_dot_all Hsum) by (done || lia).
    unfold down, row_down, y, ip, isc, expert. rewrite <- (block_row b m Hm) at 1. apply bdot_product.
Qed.

Lemma fused_stage0_ok act : Z.of_nat (length act) = n * 16 * ispp →
  ∃ act', fused_stage0 a (elems (w13 w)) (elems (w13_scale w)) sorted experts act b13 p N hidden ispp top_k (n * 16) gs = Ok act' ∧
    act_done a w (bias_rows (2 * ispp) b13) hidden ispp gs ep sorted experts n M top_k act'.
Proof using Hsum Hfl Hin.
  intros Hact. destruct (in_ispp _ _ _ _ _ _ _ _ _ _ _ _ _ _ Hfwd) as [Hi Hi64].
  pose proof (Z.div_mod ispp 64 ltac:(lia)). pose proof (blocks_nonneg _ _ _ _ Hlay).
  pose proof (q_group _ _ _ _ _ _ (shape_13 _ _ _ _ _ (in_weights _ _ _ _ _ _ _ _ _ _ _ _ _ _ Hfwd))).
  set (val := act_bits experts ep (bias_rows (2 * ispp) b13) ispp gate).
  unfold fused_stage0. rewrite py_floordiv_nz by lia. cbn [mbind result_bind]. cbv zeta.
  apply (blocks_done sorted experts n E Hlay ispp val (row_valid sorted N) (ispp / 64) (λ j, j / 64)
    (λ r t s, if row_valid sorted N r then fold_result (λ s c, item_set s (r * ispp + t * 64 + c) (val r (t * 64 + c))) s (zrange 64)
              else Ok s)); [apply Z.div_pos; lia| |done| |].
  - intros j Hj. by apply tiles_range.
  - intros P r t s Hr Ht Hs.
    destruct (write_tile_done n ispp val (row_valid sorted N) P r t s Hi64 Hr Ht Hs) as (s' & E1 & Hs').
    exists s'. split; [|done]. rewrite <- E1. unfold write_tile. destruct (row_valid sorted N r); [|done].
    assert (r * ispp + ispp ≤ n * 16 * ispp) by nia. assert (0 ≤ r * ispp) by nia.
    apply (item_sets (λ c, val r (t * 64 + c))); [lia|lia|rewrite (proj1 Hs); lia].
  - intros b s Hb. apply fold_result_ext. intros s1 t Ht%elem_of_zrange. 
    pose proof (block_expert _ _ _ _ Hlay b Hb) as He.
    pose proof (gate_acc_ok b t Hb Ht) as Hacc. cbv zeta in Hacc. rewrite Hacc. cbn [mbind result_bind]. apply fold_result_ext. intros s2 m Hm%elem_of_zrange.
    set (r := b * 16 + m). assert (0 ≤ r < n * 16) as Hr by lia.
    rewrite (proj1 (row_id_index _ _ _ _ Hlay r Hr)). cbn [mbind result_bind]. unfold row_valid.
    rewrite Z.geb_leb, Z.leb_antisym. destruct (row_id sorted r <? N); [|done]. cbn [negb].
    apply fold_result_ext. intros s3 c Hc%elem_of_zrange.
    rewrite !acc_index by done. cbn [mbind result_bind]. rewrite !(fl_cast Hfl).
    replace (experts !!! Z.to_nat b * 2 * ispp + t * 64 + c) with (experts !!! Z.to_nat b * (2 * ispp) + (t * 64 + c)) by lia.
    replace (experts !!! Z.to_nat b * (2 * ispp) + (t * 64 + c) + ispp)
      with (experts !!! Z.to_nat b * (2 * ispp) + (ispp + (t * 64 + c))) by lia.
    rewrite !(flat_bias_ok (2 * ispp)) by (apply (fin_b13 Hin) || lia). cbn [mbind result_bind].
    rewrite (fin_value Hin), float_bits. f_equal.
    unfold val, act_bits, r, row_expert. rewrite block_row by done. rewrite (fl_cast Hfl).
    by replace (t * 64 + ispp + c) with (ispp + (t * 64 + c)) by lia.
Qed.

Lemma fused_stage1_ok act :
  act_done a w (bias_rows (2 * ispp) b13) hidden ispp gs ep sorted experts n M top_k act →
  fused_stage1 act (elems (w2 w)) (elems (w2_scale w)) sorted experts sorted_w b2
      (replicate (Z.to_nat (M * hidden)) (np_int 0)) N hidden ispp top_k (n * 16) gs =
    Ok (rows_combined a w (bias_rows (2 * ispp) b13) (bias_rows hidden b2) hidden ispp gs ep sorted experts sorted_w n M top_k).
Proof using Hsum Hfl Hin.
  intros Hact. destruct (in_hidden _ _ _ _ _ _ _ _ _ _ _ _ _ _ Hfwd) as [Hh H64].
  pose proof (Z.div_mod hidden 64 ltac:(lia)). pose proof (blocks_nonneg _ _ _ _ Hlay).
  pose proof (in_top_k _ _ _ _ _ _ _ _ _ _ _ _ _ _ Hfwd) as Hk. pose proof (in_w _ _ _ _ _ _ _ _ _ _ _ _ _ _ Hfwd) as Hsw.
  pose proof (q_group _ _ _ _ _ _ (shape_13 _ _ _ _ _ (in_weights _ _ _ _ _ _ _ _ _ _ _ _ _ _ Hfwd))).
  set (con := contribution experts (bias_rows hidden b2) (down act) sorted_w).
  unfold fused_stage1. rewrite py_floordiv_nz by lia. cbn [mbind result_bind]. cbv zeta.
  rewrite (combine_blocks Hsum sorted experts n N E Hlay M hidden top_k con eq_refl Hh H64 Hk
    (λ r t out, let o0 := row_id sorted r / top_k * hidden + t * 64 in
      fold_result (λ out c, x ← py_index out (Z.to_nat (o0 + c)); item_set out (o0 + c) (np_add x (con r (t * 64 + c)))) out (zrange 64))).
  - f_equal. apply list_fmap_ext. intros _ i _. apply over_ext. intros r Hr. destruct (routed _ _ _ _ _) eqn:Hrt; [|done].
    by apply (contribution_ok _ _ _ _ _ _ _ _ _ _ _ _ _ _ _ Hfwd).
  - intros P r t Hr Ht HP Hv. cbv zeta.
    pose proof (token_range sorted experts n N E Hlay M top_k eq_refl Hk r Hr Hv).
    assert (row_id sorted r / top_k * hidden + hidden ≤ M * hidden) by nia. assert (0 ≤ row_id sorted r / top_k * hidden) by nia.
    unfold out_after at 1. rewrite (item_adds _ (λ c, con r (t * 64 + c))) by lia.
    by apply (out_after_write Hsum sorted experts n N E Hlay).
  - intros b s Hb. apply fold_result_ext. intros s1 t Ht%elem_of_zrange.
    pose proof (block_expert _ _ _ _ Hlay b Hb) as He.
    pose proof (down_acc_ok act b t Hb Ht (proj1 Hact)) as Hacc. cbv zeta in Hacc. rewrite Hacc. cbn [mbind result_bind]. apply fold_result_ext. intros s2 m Hm%elem_of_zrange.
    set (r := b * 16 + m). assert (0 ≤ r < n * 16) as Hr by lia.
    rewrite (proj1 (row_id_index _ _ _ _ Hlay r Hr)). cbn [mbind result_bind]. unfold row_valid.
    rewrite Z.geb_leb, Z.leb_antisym. destruct (row_id sorted r <? N); [|done]. cbn [negb].
    rewrite (py_index_total sorted_w) by lia. cbn [mbind result_bind].
    apply fold_result_ext. intros s3 c Hc%elem_of_zrange.
    rewrite acc_index by done. cbn [mbind result_bind]. rewrite !(fl_cast Hfl).
    rewrite <- !Z.add_assoc. rewrite (flat_bias_ok hidden) by (apply (fin_b2 Hin) || lia). cbn [mbind result_bind].
    rewrite !(fl_cast Hfl). unfold con, contribution, r, row_expert. by rewrite block_row.
Qed.
End fused_forward.

(** *** The wrapper *)
Definition activation_of {V} `{num : !Numpy V} (ep : Epilogue V) : Activation V :=
  let single x := np_astype float64 (np_astype float32 x) in
  mk_activation (if is_key ep "swiglu" then 0 else 1) (single (swiglu_limit ep)) (single (act_beta ep)) (single (linear_beta ep)).

Lemma bias_size_ok {V} (E W : Z) (b : option (list V)) k : bias_fits E W b → k = E * W → bias_size b k = Ok tt.
Proof. intros Hb ->. destruct b as [l|]; [|done]. simpl in *. by rewrite Hb, Z.eqb_refl. Qed.

(** A caller's buffers: a scratch of the right size, and zeroed results. *)
Definition scratch_fits (size : Z) (scratch : option (list Z)) : Prop :=
  ∀ l, scratch = Some l → Z.of_nat (length l) = size.
Definition out_zeroed {V} `{num : !Numpy V} (size : Z) (out : option (list V)) : Prop :=
  ∀ l, out = Some l → l = replicate (Z.to_nat size) (np_int 0).

Lemma buffer_scratch (size : Z) (scratch : option (list Z)) (fresh : list Z) :
  scratch_fits size scratch → Z.of_nat (length fresh) = size →
  ∃ l, buffer scratch fresh size = Ok l ∧ Z.of_nat (length l) = size.
Proof.
  intros Hs Hf. destruct scratch as [l|]; [|by exists fresh]. exists l. cbn. by rewrite (Hs l eq_refl), Z.eqb_refl.
Qed.

Lemma buffer_out {V} `{num : !Numpy V} (size : Z) (out : option (list V)) :
  0 ≤ size → out_zeroed size out →
  buffer out (replicate (Z.to_nat size) (np_int 0)) size = Ok (replicate (Z.to_nat size) (np_int 0)).
Proof.
  intros Hsz Ho. destruct out as [l|]; [|done]. rewrite (Ho l eq_refl). cbn.
  by rewrite length_replicate, Z2Nat.id, Z.eqb_refl.
Qed.

Lemma fused_wrapper_ok {V} `{num : !Numpy V} a w (b13 b2 : option (list V)) hidden ispp gs ep sorted experts sorted_w n M top_k E scratch out empty :
  exact_sums → exact_floats → 0 ≤ M * hidden → scratch_fits (n * 16 * ispp) scratch → out_zeroed (M * hidden) out →
  fused_inputs a w b13 b2 hidden ispp gs ep (activation_of ep) sorted experts sorted_w n M top_k E →
  array_shape (w13 w) E (2 * ispp) (hidden / 2) → array_shape (w2 w) E hidden (ispp / 2) →
  is_key ep "swiglu" || is_key ep "situ" = true →
  (∀ k, 0 ≤ k → Z.of_nat (length (empty k)) = k) →
  fused_moe_mxfp4 (M, hidden, a) w sorted sorted_w experts scratch out top_k gs ep b13 b2 empty =
    Ok (rows_combined a w (bias_rows E (2 * ispp) b13) (bias_rows E hidden b2) hidden ispp gs ep sorted experts sorted_w n M top_k).
Proof.
  intros Hsum Hfl Hsize Hscratch Hout Hin (A0 & A1 & A2) (B0 & B1 & B2) Hkey Hempty. pose proof (fin_forward _ _ _ _ _ _ _ _ _ _ _ _ _ _ _ _ Hin) as Hf.
  pose proof (in_layout _ _ _ _ _ _ _ _ _ _ _ _ _ _ Hf) as Hl. pose proof (lay_rows _ _ _ _ Hl) as Hrows.
  destruct (in_weights _ _ _ _ _ _ _ _ _ _ _ _ _ _ Hf) as [Hq1 Hq2]. destruct (in_ispp _ _ _ _ _ _ _ _ _ _ _ _ _ _ Hf).
  assert (hidden / 2 * 2 = hidden) as Eh by (pose proof (q_even _ _ _ _ _ _ Hq1); pose proof (Z.div_mod hidden 2); lia).
  assert (ispp / 2 * 2 = ispp) as Ei by (pose proof (q_even _ _ _ _ _ _ Hq2); pose proof (Z.div_mod ispp 2); lia).
  pose proof (blocks_nonneg _ _ _ _ Hl).
  assert (2 * ispp / 2 = ispp ∧ (2 * ispp) mod 2 = 0) as [E2 E3] by (split; Z.to_euclidean_division_equations; lia).
  unfold fused_moe_mxfp4. rewrite A0, A1, A2, B0, B1, B2, Eh, E3, E2, Ei, !Z.eqb_refl.
  cbn [andb require mbind result_bind]. rewrite Hrows, Z.mod_mul, Z.div_mul by done.
  rewrite (in_w _ _ _ _ _ _ _ _ _ _ _ _ _ _ Hf), (lay_blocks _ _ _ _ Hl), !Z.eqb_refl. cbn [require mbind result_bind].
  rewrite (bias_size_ok E (2 * ispp) b13); [|exact (fin_b13 _ _ _ _ _ _ _ _ _ _ _ _ _ _ _ _ Hin)|lia].
  rewrite (bias_size_ok E hidden b2); [|exact (fin_b2 _ _ _ _ _ _ _ _ _ _ _ _ _ _ _ _ Hin)|done].
  cbn [mbind result_bind].
  destruct (buffer_scratch _ _ (empty (n * 16 * ispp)) Hscratch) as (act0 & -> & Hlen); [apply Hempty; nia|].
  cbn [mbind result_bind]. rewrite buffer_out by done.
  cbn [mbind result_bind]. rewrite Hkey. cbn [require mbind result_bind]. cbv zeta. fold (activation_of ep).
  unfold impl_fused_moe_mxfp4. cbv zeta.
  destruct (fused_stage0_ok Hsum Hfl _ _ _ _ _ _ _ _ _ _ _ _ _ _ _ _ Hin act0) as (act & -> & Hact); [done|].
  cbn [mbind result_bind]. by rewrite (fused_stage1_ok Hsum Hfl _ _ _ _ _ _ _ _ _ _ _ _ _ _ _ _ Hin act Hact).
Qed.

(** C7. The single-rank operator computes the mixture that the distributed
    passes compute.  For arrays of the announced sizes, biases given flat, group
    sizes that divide a tile, scale bytes that both decoders read alike, and
    arithmetic without rounding: on the rows and experts of
    [moe_align_block_size] with blocks of 16 and the weights sorted with them,
    [fused_moe_mxfp4] passes its own checks and returns the reference mixture,
    with its own buffers or with a scratch of the right size and a zeroed
    result buffer of the caller, whatever the scratch holds at first.  The
    sizes it is shown for: [hidden] and [ispp] multiples of the 64 columns of a
    tile, and an even group size that divides 64. *)
Theorem fused_moe_is_mixture {V : Type} `{num : !Numpy V} (a : list Z) (w : Weights) (ids : list Z)
    (topk_w : list V) (b13 b2 : option (list V)) (M hidden ispp top_k E gs : Z) (ep : Epilogue V) (empty : Z → list Z) :
  let rows13 := bias_rows E (2 * ispp) b13 in
  let rows2 := bias_rows E hidden b2 in
  exact_sums → exact_floats → moe_inputs a w ids topk_w rows13 rows2 M hidden ispp top_k E gs →
  bias_fits E (2 * ispp) b13 → bias_fits E hidden b2 →
  hidden mod 64 = 0 → ispp mod 64 = 0 → 64 mod gs = 0 ∧ gs mod 2 = 0 →
  Forall decodes (elems (w13_scale w)) ∧ Forall decodes (elems (w2_scale w)) →
  is_key ep "swiglu" || is_key ep "situ" = true →
  (∀ k, 0 ≤ k → Z.of_nat (length (empty k)) = k) →
  ∃ sorted experts sorted_w,
    moe_align_block_size ids M top_k 16 E = Ok (Some <$> sorted, Some <$> experts, Z.of_nat (length sorted)) ∧
    sort_weights topk_w sorted (M * top_k) = Ok sorted_w ∧
    ∀ scratch out, scratch_fits (Z.of_nat (length sorted) * ispp) scratch → out_zeroed (M * hidden) out →
    fused_moe_mxfp4 (M, hidden, a) w sorted sorted_w experts scratch out top_k gs ep b13 b2 empty =
      Ok (moe_reference a w ids topk_w rows13 rows2 M hidden ispp top_k E gs ep).
Proof.
  intros rows13 rows2 Hsum Hfl Hinp Hb13 Hb2 H64 Hi64 Hgs Hdec Hkey Hempty.
  set (N := M * top_k). pose proof (N_length a w ids topk_w rows13 rows2 M hidden ispp top_k E gs Hinp) as HNl. fold N in HNl.
  set (sorted := sorted_rows ids N 16 (zrange E)). set (experts := sorted_blocks ids N 16 (zrange E)).
  exists sorted, experts, (row_weight topk_w N <$> sorted).
  pose proof (tp_covers a w ids topk_w rows13 rows2 M hidden ispp top_k E gs Hinp) as Hcov. fold N sorted experts in Hcov.
  pose proof (lay_rows _ _ _ _ (cov_layout _ _ _ _ _ _ _ Hcov)) as Hrows.
  pose proof Hinp as [HM Hk Hh Hi HE HNmax Hids Htw Ha Hw Hs13 Hs13s Hs2 Hs2s Hr13 Hr2].
  split; [|split].
  - by rewrite (moe_align_result ids N 16 E eq_refl HNl HNmax (proj2 HE) M top_k eq_refl).
  - apply sort_weights_ok; [nia|done|apply (cov_layout _ _ _ _ _ _ _ Hcov)].
  - intros scratch out Hscratch Hout. rewrite Hrows in Hscratch.
    rewrite (fused_wrapper_ok a w b13 b2 hidden ispp gs ep sorted experts _ (Z.of_nat (length experts)) M top_k E scratch out
      empty Hsum Hfl); [|nia|done|done|constructor|done..].
    + f_equal. apply (rows_combined_mixtures Hsum) with (E := E); [exact Hcov|lia..].
    + by apply (tp_inputs a w ids topk_w rows13 rows2 M hidden ispp top_k E gs).
    + done.
    + done.
    + done.
    + done.
    + intros g u. apply (fused_value_exact Hfl); [done|done| | |]; simpl; by rewrite !(fl_cast Hfl).
Qed.

(** Integers again, a bit pattern standing for itself, minus zero for zero. *)
Definition ex_bits_numpy : Numpy Z := {|
  np_undef := 0; np_nan := 0; np_neg_inf := -1000000; np_pi := 3;
  np_int := id; np_float := @np_float Z ex_numpy;
  np_astype := λ _, id; np_toint := Ok;
  np_add := Z.add; np_sub := Z.sub; np_mul := Z.mul; np_div := Z.div;
  np_power := Z.pow; np_maximum := Z.max; np_minimum := Z.min; np_logaddexp := Z.max;
  np_negative := Z.opp; np_exp := λ x, if x =? 0 then 1 else 0; np_exp2 := λ x, Z.shiftl (x + 127) 23;
  np_log := Z.log2; np_log1p := id;
  np_sqrt := Z.sqrt; np_tanh := Z.sgn; np_reciprocal := λ x, 1 / x;
  np_lt := Z.ltb; np_le := Z.leb; np_eq := Z.eqb;
  np_isfinite := λ _, true; np_isnan := λ _, false; np_floating := λ _, true;
  np_sum := zsum; np_mean := λ l, zsum l / Z.of_nat (length l); np_max := λ l, foldr Z.max (-1000000) l;
  np_dot := λ a b, zsum (zip_with Z.mul a b); np_einsum := λ a b, zsum (zip_with Z.mul a b);
  np_argsort := λ l, zrange (Z.of_nat (length l)); np_sort := id; np_f32_bits := id;
  np_of_f32_bits := λ b, if b =? 0x80000000 then 0 else b
|}.

Lemma ex_bits_sums : exact_sums (num := ex_bits_numpy).
Proof. constructor; simpl; intros; first [lia|done]. Qed.

Lemma ex_bits_floats : exact_floats (num := ex_bits_numpy).
Proof.
  constructor; [done|done|..]; simpl; unfold py_min, id; simpl; intros; zbool.
  - case_match; zbool; lia.
  - repeat case_match; zbool; lia.
Qed.

Lemma bias_rows_shape {V} E W (b : option (list V)) : 0 ≤ E → 0 ≤ W → bias_fits E W b → bias_shape (bias_rows E W b) E W.
Proof.
  intros HE HW Hb. destruct b as [l|]; [|done]. simpl in Hb. split; [rewrite length_fmap, length_zrange; lia|].
  apply Forall_fmap, Forall_forall. intros e He%elem_of_zrange. simpl. rewrite length_py_slice; nia.
Qed.

Definition ex_flat_bias : option (list Z) := Some (replicate (Z.to_nat 384) 1).

Lemma ex_fused_inputs : moe_inputs ex_activations ex_weights ex_ids [1; 2; 3; 4] (bias_rows 3 256 None)
  (bias_rows 3 128 ex_flat_bias) 2 128 128 2 3 32.
Proof.
  destruct ex_moe_inputs as [H1 H2 H3 H4 H5 H6 H7 H8 H9 H10 H11 H12 H13 H14 _ _].
  constructor; [done..|apply (bias_rows_shape 3 256 None)|apply (bias_rows_shape 3 128 ex_flat_bias)]; lia || done.
Qed.

Example fused_moe_is_mixture_witness :
  ∃ sorted experts sorted_w,
    moe_align_block_size ex_ids 2 2 16 3 = Ok (Some <$> sorted, Some <$> experts, Z.of_nat (length sorted)) ∧ experts = [0; 2] ∧
    fused_moe_mxfp4 (num := ex_bits_numpy) (2, 128, ex_activations) ex_weights sorted sorted_w experts None None 2 32
        ex_epilogue None ex_flat_bias (λ k, replicate (Z.to_nat k) 7) =
      Ok (moe_reference (num := ex_bits_numpy) ex_activations ex_weights ex_ids [1; 2; 3; 4] (bias_rows 3 256 None)
            (bias_rows 3 128 ex_flat_bias) 2 128 128 2 3 32 ex_epilogue).
Proof.
  destruct (fused_moe_is_mixture (num := ex_bits_numpy) ex_activations ex_weights ex_ids [1; 2; 3; 4] None ex_flat_bias
    2 128 128 2 3 32 ex_epilogue (λ k, replicate (Z.to_nat k) 7) ex_bits_sums ex_bits_floats ex_fused_inputs I eq_refl
    eq_refl eq_refl (conj eq_refl eq_refl)) as (sorted & experts & sorted_w & E1 & E2 & E3).
  - split; apply Forall_replicate; done.
  - done.
  - intros k Hk. rewrite length_replicate. lia.
  - exists sorted, experts, sorted_w. split; [exact E1|]. split; [|by apply E3; intros ? [=]]. clear E2 E3.
    assert (moe_align_block_size ex_ids 2 2 16 3 =
      Ok (Some <$> ([1; 2] ++ replicate 14 4) ++ [0] ++ replicate 15 4, Some <$> [0; 2], 32)) as Ea by by vm_compute.
    rewrite Ea in E1. assert (Some <$> [0; 2] = Some <$> experts) as Hex.
    { apply (f_equal (λ r, match r with Ok (_, e, _) => e | Err _ => [] end)) in E1. exact E1. }
    symmetry. apply (inj (fmap Some)). exact Hex.
Defined.
